(* ===== verification/_CoqProject ===== *)
-Q . S2P
Prelude.v
Interfaces.v
Primitives.v
Tokens.v
TokensLedger.v
Fungibles.v
StorageMeter.v
EvmAccounts.v
EvmPallet.v
EvmHandler.v
StorageDeposits.v
EvmRunner.v
Precompiles.v
TxPayment.v
EvmBridge.v
Currencies.v
CurrencyRouting.v
OrmlCurrencies.v
CurrencyViews.v
NamedReserves.v
Poc.v
StakingLedger.v
SlashingSpans.v
Staking.v
StakingBonds.v
StakingSlashing.v
StakingEras.v
StakingRuns.v
StakingBondRuns.v
StakingRoles.v
Authority.v
EvmRpc.v
Utilities.v
OrmlTraits.v
ExamplePallet.v
RewardCurve.v
StakingInflation.v
StakingChecks.v
StakingMigrations.v
RuntimeEvmApi.v
RuntimeAccounts.v
RuntimeConfig.v
Genesis.v
GenesisEvm.v
