(* ===== verification/Prelude.v ===== *)
(** * A verification library for the Reef chain runtime

    The repository is a Substrate chain whose runtime embeds an Ethereum virtual
    machine.  Its own logic sits in pallets (state machines whose state is on-chain
    storage, whose operations are signed calls and hooks) and in the code that joins
    them: native accounts are linked to EVM addresses, contracts run on the EVM pallet
    under a gas and a storage meter, contracts reach the native pallets through
    precompiles, native pallets reach ERC20 contracts through a bridge, and a council
    is elected by holders who lock funds (proof of commitment).

    ** Files

    - [Prelude]: results with panics, the storage monad, machine integers, bytes,
      sums over maps, sorting, tactics and hint databases.  [M S E A] is a storage
      computation [S -> S * res E A]: writes made before an error stay, as they do in
      a Rust function; [transactional] and [with_transaction] undo them the way
      [#[transactional]] and [frame_support::storage::with_transaction] do.
    - [Interfaces]: the traits pallets ask of each other, as type classes with
      documented laws ([Currency], [CurrencyLaws], [TransferAll], [Reaping],
      [AddressMapping], [TransactionPayment], [MultiCurrency]), and [SimpleLedger], a small ledger that
      satisfies them and closes the witnesses.
    - [Primitives]: src/primitives/src/lib.rs, currency ids and their 32-byte form, and the
      constants of block time and epochs.
    - [StorageMeter]: src/modules/evm/src/runner/storage_meter.rs.  A meter and the
      stack of its parents; [charge], [refund], [child_meter], [finish], and the
      default methods of [StorageMeterHandler] for a nested meter.
    - [EvmAccounts]: src/modules/evm-accounts/src/lib.rs, the claims that link accounts
      and EVM addresses, the message that is signed, the clean-up of killed accounts.
    - [EvmPallet]: src/modules/evm/src/lib.rs, the storage of the EVM pallet ([Evm], a
      record with a field per storage item) and every operation that does not run
      contract code: code reference counting, maintainers, deployment, development
      status, [set_code], [selfdestruct], genesis.  The callback for a reaped account
      ([OnKilledAccount] of the runtime) runs inside the transfer that reaps it
      ([on_rest_reaping]), as it does in [remove_contract].
    - [EvmHandler]: src/modules/evm/src/runner/handler.rs, the back end of the
      interpreter: storage writes and their metering, sub-transactions, [call],
      [create], [mark_delete], gas hand-over, and [StorageMeterHandlerImpl], which keeps
      the deposits for storage; [StorageDeposits]: the meters over this handler.
    - [EvmRunner]: src/modules/evm/src/runner/mod.rs and the calls of
      src/modules/evm/src/lib.rs that run code: [run_transaction], [call], [create],
      [create2], network contracts, scheduled calls, [EVM::execute].
    - [Precompiles]: src/runtime/common/src/precompile (ABI decoding, MultiCurrency,
      StateRent, ScheduleCall, the dispatcher and its caller filter) and
      src/modules/evm/src/precompiles.rs.
    - [EvmBridge]: src/modules/evm-bridge/src/lib.rs, calls of ERC20 contracts and the
      decoding of their answers; [EvmRunner] is shown to implement the trait it uses.
    - [Tokens]: src/orml/tokens/src/lib.rs and imbalances.rs, the multi-currency ledger:
      balances, locks, reserves, named reserves, holds, total issuance, dust;
      [TokensLedger]: its theorems.
    - [Fungibles]: src/orml/tokens/src/impls.rs, the combinators of fungible assets
      ([Combiner], [Mapper]), against the laws of the traits they implement.
    - [Currencies]: src/modules/currencies/src/lib.rs, every multi-currency operation
      routed to the native currency, an ERC20 contract or the tokens pallet;
      [CurrencyRouting]: what they do there;
      [OrmlCurrencies]: src/orml/currencies/src/lib.rs, the pallet it derives from;
      [NamedReserves]: the methods that the traits of src/orml/traits/src/currency.rs
      provide; [CurrencyViews]: the pallet with its currency fixed, and the adapter's
      fungible traits.
    - [TxPayment]: src/modules/transaction_payment/src/lib.rs, fees, the signed
      extension that charges and settles them, the fee multiplier.
    - [Poc]: src/modules/poc/src/lib.rs, candidates, commitments, votes and elections.
    - src/modules/staking: [StakingLedger] (the ledger of a stash: unlocking, rebonding,
      slashing; src/lib.rs), [SlashingSpans] (src/slashing.rs, the spans), [Staking] (the
      storage and every call; src/pallet/mod.rs and impls.rs), [StakingBonds] (its
      theorems on bonds and locks), [StakingSlashing] (offences, slashes and their
      rewards), [StakingEras] (sessions, eras, elections and payouts), [StakingRuns] (runs
      of the whole pallet from genesis, as a step relation), [StakingBondRuns] (bonds and
      locks in these runs), [StakingRoles] (roles, the
      snapshots for elections, the interface for other pallets), [StakingChecks] (exposures,
      lists read off maps, genesis, the pallet's own checks), [StakingMigrations]
      (src/migrations.rs, with the checks around the migrations), [RewardCurve] (the
      piecewise linear reward curve a procedural macro computes; reward-curve/src),
      [StakingInflation] (the payout of an era and the inflation formula;
      src/inflation.rs and reward-fn/src/lib.rs).
    - [Authority]: src/orml/authority/src/lib.rs, calls dispatched under other origins,
      delayed, scheduled and authorised, with the runtime's configuration of it.
    - [EvmRpc]: src/modules/evm/rpc/src/lib.rs, calls and gas estimates of the node.
    - [Utilities]: src/orml/utilities/src (ordered sets, storage transactions) and the
      medians and prices of src/orml/traits/src; [OrmlTraits]: the locations, assets and
      handlers there.
    - [ExamplePallet]: src/modules/example/src/lib.rs, the tutorial pallet.
    - src/runtime/src/lib.rs: [RuntimeEvmApi] (the API the node's RPC calls),
      [RuntimeAccounts] (how addresses are mapped and looked up, and what is cleared when an
      account dies), [RuntimeConfig] (the parameters the modelled pallets are given, the
      voter bags of src/runtime/src/voter_bags.rs, fees, referenda tracks, off-chain
      signing).
    - src/node/src/chain_spec.rs: [Genesis] (keys, endowments and the state of the pallets at
      genesis) and [GenesisEvm] (the contracts and accounts of the EVM at genesis).

    ** State and operations

    A pallet's storage is a record with one field per storage item; a storage map is a
    [gmap], a [Vec] a list.  The storage of the other pallets is an opaque type [X]
    with the classes the source's [Config] bounds ask for.  Extrinsics take an
    [Origin] and return a [DispatchError] with the source's name.  Integers are [Z]
    kept in range by the operation the source uses: [sat_add], [checked_add], [wrap]
    (the release profile does not check overflow).  A panic is its own result,
    [Panic], so that "does not panic" is part of a statement.

    ** Third-party code

    The interpreter (crate evm), hashes, signature recovery, RLP and SCALE codecs, the
    scheduler and the gasometer are not part of the repository.  They are section
    variables.  So are, for staking, the currency with its locks, the lists of voters and
    targets, elections, the clock and the fixed-point arithmetic, as fields of the classes
    [StakingHost] and [EraHost]; what theorems rely on are the laws of [StakingHostLaws],
    [SlashHostLaws], [EraHostLaws] and [VoterListLaws], which the witnesses instantiate ([MigrationHost] and
    [MigrationLaws] for the migrations).  For the authority
    pallet the scheduler, the hash and the calls of other pallets are the class
    [AuthorityHost]; for the RPC the runtime is the class [RuntimeApi]; the fixed-point and
    big-number arithmetic of the reward functions are [CurveHost] and [BigHost] with their
    laws; the traits [fungible] and [fungibles] are classes with laws that the tokens pallet
    is shown to keep.  The interpreter is the largest: a contract is a [Prog], a tree whose
    nodes are the calls the interpreter makes to its handler, and theorems quantify
    over all of them.

    ** Fuel

    These definitions take fuel.  [EvmHandler.execute] counts the depth of nested
    contract calls; running out is the outcome [OutOfFuel], and theorems hold for
    every fuel.  [EvmAccounts.rev_digits] prints a length in decimal, twenty digits
    being enough for 64 bits ([signable_message_length]).  [Tokens.TransferDust] counts
    the depth of dust handling, and one level is all there is ([TransferDust_depth]).
    [EvmRpc.gas_loop] counts the runs of the search for a gas limit, of which thirty are
    enough ([estimate_gas_result]); [RewardCurve.walk] counts the points of the curve, at
    most the height and length of it ([curve_points_shape]); the series of
    [StakingInflation] has the eight terms the code computes.

    ** What the theorems show

    - storage meter: over the handler of the runtime, what a call tree reserves on the
      origin is returned or moved to the contracts exactly; where a reverted sub-call leaks
      its charge, and where a refund overdraws the reserve;
    - accounts: the two maps stay inverse to each other in every reachable state; what
      each claim needs and does; which messages bind which account; no account is
      linked twice;
    - EVM pallet: through every operation, and accounts reaped in the middle of one, the
      references to a code are counted, less those that [selfdestruct] releases twice when
      it reaps the account of the contract, and the code of a contract is stored while one
      is left; how a code that two contracts share is lost this way; only maintainers manage; [set_code] leaves the running
      code in place; the developer deposit is returned in full;
    - execution: a static call changes nothing of the EVM storage; a failed sub-call
      is undone; the bytes charged are the bytes stored; a failed transaction leaves
      only its nonce, fees and event; undeployed contracts are closed to strangers;
      read-only executions leave no trace; a created contract is registered with its
      maintainer and code;
    - precompiles and bridge: user contracts cannot reach the system precompiles;
      scheduled tasks belong to their sender; ABI values survive the round trip; which
      inputs make the runtime panic;
    - tokens: in every reachable ledger the issuance of a currency is the sum of its
      accounts; a transfer succeeds exactly when its checks hold and moves exactly the
      amount; locked funds stay; named reserves are covered by the reserved balance and set
      exactly while they are taken out by name; how dust sent to the treasury is lost; combined assets
      keep the laws of their parts;
    - currencies: a transfer, deposit or withdrawal moves exactly its amount, in exactly
      the back end of its currency; whatever the back end, the ledger of the tokens
      pallet stays sound; reserving and unreserving an ERC20 token are inverse; what
      ERC20 currencies do not support; over the tokens pallet the routes and adapters make
      no difference, and [transfer_all] moves everything or nothing;
    - fees: a transaction pays its actual fee, settling never fails, a scheduled call
      is paid out of its reserve, and the multiplier follows the load of the blocks
      without getting stuck;
    - proof of commitment: locked totals, candidate count and council stay consistent
      in every reachable state; an election seats the heaviest candidates; locked
      funds are paid back in full and only after their period; a vote is paid once;
    - staking: through every call, payout, offence, slash and session a ledger is the sum
      of its parts, is owned by one bonded stash, and is what is locked on it; slashing
      spans account for every era since their earliest one, through endings and prunings; unbonded funds wait out the
      bonding duration; slashing takes what it says, deferred slashes wait, and the
      overlapping slashes of a span are charged as their maximum; from genesis on, planned
      and active era stay in step and the reward of an era is paid once; nobody has two
      roles and the list of voters is the list of roles; a snapshot of the voters is what
      its reference definition says; stored exposures are the sums of their stakes, and the
      checks the pallet makes of its storage pass; the migration of the runtime repairs the
      list of voters, and older ones take effect in order and once; the payout of an era never exceeds its maximum, the
      inflation formula is its reference series, and the reward curve rises to its peak and
      falls from it;
    - authority: an authorisation is spent by the call it admits, origins cannot give
      themselves more power than they have (calls of other pallets, the utility pallet's
      among them, are the host's: those that come back to this pallet are not followed);
    - RPC: the search for a gas estimate ends, and what the estimate means; revert reasons
      survive decoding, and which data make the decoder panic;
    - utilities: the sorted vectors behind ordered sets implement sets of bounded size; the
      chain part and the rest of a location make it up;
    - runtime and genesis: the parameters meet what the theorems on the pallets assume; the
      answer of the EVM API predicts the transaction; a killed account leaves nothing in the
      modelled pallets; the endowments of a genesis are exact, the pallets start from
      it in states their invariants admit, and the contracts listed in it are deployed.

    ** Not modelled

    [construct_runtime!], the configuration of the pallets that are not part of the
    repository and the runtime APIs that only forward to them; the node apart from its chain
    specifications (service, command line and RPC set-up join third-party components).
    Generated weights, benchmarks, the tools that measure them, mocks and tests have no
    part in the results that are modelled. *)

From stdpp Require Import base gmap list strings sorting.
From Stdlib Require Import ZArith Lia.

Local Open Scope Z_scope.

(** ** Results, panics and storage effects *)

(** The outcome of a Rust computation of type [Result<A, E>]: a value, an error
    value, or a panic (slice out of range, [expect] on [Err], ...). *)
Inductive res (E A : Type) : Type :=
| Ok (a : A)
| Err (e : E)
| Panic.
Arguments Ok {E A} a.
Arguments Err {E A} e.
Arguments Panic {E A}.

Definition is_ok {E A} (r : res E A) : bool :=
  match r with Ok _ => true | _ => false end.

Definition rbind {E A B} (r : res E A) (k : A -> res E B) : res E B :=
  match r with Ok a => k a | Err e => Err e | Panic => Panic end.

Definition rmap_err {E F A} (f : E -> F) (r : res E A) : res F A :=
  match r with Ok a => Ok a | Err e => Err (f e) | Panic => Panic end.

(** [Option::ok_or]. *)
Definition ok_or {E A} (o : option A) (e : E) : res E A :=
  match o with Some a => Ok a | None => Err e end.

(** [Option::expect] and slice indexing: the absent value panics. *)
Definition expect {E A} (o : option A) : res E A :=
  match o with Some a => Ok a | None => Panic end.

(** [ensure!(cond, e)]. *)
Definition rensure {E} (c : bool) (e : E) : res E unit :=
  if c then Ok tt else Err e.

(** A computation over the chain storage [S].  As in a runtime, the writes made
    before an error stay in the storage until a transactional layer around the
    computation discards them. *)
Definition M (S E A : Type) : Type := S -> S * res E A.

Definition ret {S E A} (a : A) : M S E A := fun s => (s, Ok a).
Definition throw {S E A} (e : E) : M S E A := fun s => (s, Err e).
Definition bind {S E A B} (m : M S E A) (k : A -> M S E B) : M S E B :=
  fun s => match m s with
           | (s', Ok a) => k a s'
           | (s', Err e) => (s', Err e)
           | (s', Panic) => (s', Panic)
           end.
Definition mlift {S E A} (r : res E A) : M S E A := fun s => (s, r).
Definition mget {S E} : M S E S := fun s => (s, Ok s).
Definition mgets {S E A} (f : S -> A) : M S E A := fun s => (s, Ok (f s)).
Definition mmodify {S E} (f : S -> S) : M S E unit := fun s => (f s, Ok tt).
Definition mensure {S E} (c : bool) (e : E) : M S E unit := mlift (rensure c e).
Definition mwhen {S E} (c : bool) (m : M S E unit) : M S E unit :=
  if c then m else ret tt.
(** [let _ = m;]: the result is dropped, the writes are kept, a panic is not caught. *)
Definition mignore {S E A} (m : M S E A) : M S E unit :=
  fun s => match m s with
           | (s', Panic) => (s', Panic)
           | (s', _) => (s', Ok tt)
           end.
Definition mmap_err {S E F A} (f : E -> F) (m : M S E A) : M S F A :=
  fun s => let '(s', r) := m s in (s', rmap_err f r).

(** [#[transactional]]: the storage is restored unless the result is [Ok]. *)
Definition transactional {S E A} (m : M S E A) : M S E A :=
  fun s => let '(s', r) := m s in (if is_ok r then s' else s, r).

(** [sp_runtime::TransactionOutcome] and [frame_support::storage::with_transaction]. *)
Inductive TransactionOutcome (R : Type) : Type :=
| Commit (r : R)
| Rollback (r : R).
Arguments Commit {R} r.
Arguments Rollback {R} r.

Definition with_transaction {S E A} (f : S -> S * TransactionOutcome (res E A)) : M S E A :=
  fun s => match f s with
           | (s', Commit r) => (s', r)
           | (_, Rollback r) => (s, r)
           end.

Declare Scope rust_scope.
Delimit Scope rust_scope with rust.
Notation "'let?' x ':=' m 'in' k" := (rbind m (fun x => k))
  (at level 10, x binder, m at level 100, k at level 200) : rust_scope.
Notation "'let!' x ':=' m 'in' k" := (bind m (fun x => k))
  (at level 10, x binder, m at level 100, k at level 200) : rust_scope.
Notation "'do!' m 'in' k" := (bind m (fun _ => k))
  (at level 10, m at level 100, k at level 200) : rust_scope.
#[global] Open Scope rust_scope.

(** [sp_runtime::DispatchError], with the pallet errors carried by their message
    (the string that [Into::<&'static str>] yields). *)
Inductive DispatchError : Type :=
| Other (msg : string)
| CannotLookup
| BadOrigin
| Module (message : string)
| Token (message : string)
| Arithmetic (message : string).

Definition dispatch_error_str (e : DispatchError) : string :=
  match e with
  | Other m => m
  | CannotLookup => "Cannot lookup"
  | BadOrigin => "Bad origin"
  | Module m => m
  | Token m => m
  | Arithmetic m => m
  end.

#[global] Instance DispatchError_eq_dec : EqDecision DispatchError.
Proof. solve_decision. Defined.

(** [frame_system::RawOrigin] and its guards. *)
Inductive Origin (A : Type) : Type :=
| Root
| Signed (who : A)
| NoneOrigin.
Arguments Root {A}.
Arguments Signed {A} who.
Arguments NoneOrigin {A}.

Definition ensure_signed {A} (o : Origin A) : res DispatchError A :=
  match o with Signed who => Ok who | _ => Err BadOrigin end.
Definition ensure_root {A} (o : Origin A) : res DispatchError unit :=
  match o with Root => Ok tt | _ => Err BadOrigin end.

(** ** Machine integers

    A [w]-bit unsigned integer is an element of [Z] in range; the operations write
    out the saturation, the failure or the wrap-around of the Rust ones. *)
Definition U8_MAX : Z := 255.
Definition U32_MAX : Z := 4294967295.
Definition U64_MAX : Z := 18446744073709551615.
Definition U128_MAX : Z := 340282366920938463463374607431768211455.
Definition I32_MAX : Z := 2147483647.

Definition in_u (mx x : Z) : Prop := 0 <= x <= mx.
Definition in_ub (mx x : Z) : bool := (0 <=? x) && (x <=? mx).

Definition sat_add (mx a b : Z) : Z := Z.min (a + b) mx.
Definition sat_sub (a b : Z) : Z := Z.max (a - b) 0.
Definition sat_mul (mx a b : Z) : Z := Z.min (a * b) mx.
Definition checked_add (mx a b : Z) : option Z := if a + b <=? mx then Some (a + b) else None.
Definition checked_sub (a b : Z) : option Z := if b <=? a then Some (a - b) else None.
Definition checked_mul (mx a b : Z) : option Z := if a * b <=? mx then Some (a * b) else None.
Definition checked_div (a b : Z) : option Z := if b =? 0 then None else Some (a / b).
(** The unchecked operators of a release build wrap around. *)
Definition wrap (mx x : Z) : Z := x mod (mx + 1).
Definition wrap_add (mx a b : Z) : Z := wrap mx (a + b).
Definition wrap_sub (mx a b : Z) : Z := wrap mx (a - b).
Definition wrap_mul (mx a b : Z) : Z := wrap mx (a * b).
(** [x as i32] for a 32-bit unsigned [x]. *)
Definition as_i32 (x : Z) : Z := if x <=? I32_MAX then x else x - (U32_MAX + 1).

Lemma in_ub_spec mx x : in_ub mx x = true <-> in_u mx x.
Proof. unfold in_ub, in_u. lia. Qed.

#[global] Instance in_u_dec mx x : Decision (in_u mx x).
Proof. unfold in_u; apply _. Defined.

(** [uints] unfolds the integer operations and closes the goal by [lia]. *)
Ltac uints :=
  unfold in_u, sat_add, sat_sub, sat_mul, U8_MAX, U32_MAX, U64_MAX, U128_MAX, I32_MAX in *;
  lia.

Lemma sat_add_exact mx a b : a + b <= mx -> sat_add mx a b = a + b.
Proof. uints. Qed.
Lemma sat_add_capped mx a b cap :
  cap <= mx -> (sat_add mx a b <? cap) = true -> sat_add mx a b = a + b /\ a + b < cap.
Proof. unfold sat_add. lia. Qed.
Lemma sat_sub_exact a b : b <= a -> sat_sub a b = a - b.
Proof. uints. Qed.
Lemma sat_add_range mx a b : in_u mx a -> in_u mx b -> in_u mx (sat_add mx a b).
Proof. uints. Qed.
Lemma sat_sub_range mx a b : in_u mx a -> 0 <= b -> in_u mx (sat_sub a b).
Proof. uints. Qed.
Lemma wrap_small mx x : in_u mx x -> wrap mx x = x.
Proof. intros [? ?]. unfold wrap. apply Z.mod_small. lia. Qed.
Lemma wrap_range mx x : 0 <= mx -> in_u mx (wrap mx x).
Proof.
  intros Hmx. unfold wrap, in_u.
  pose proof (Z.mod_pos_bound x (mx + 1)). lia.
Qed.
Lemma checked_add_Some mx a b c :
  checked_add mx a b = Some c <-> c = a + b /\ a + b <= mx.
Proof. unfold checked_add. destruct (Z.leb_spec (a + b) mx); naive_solver lia. Qed.
Lemma checked_sub_Some a b c : checked_sub a b = Some c <-> c = a - b /\ b <= a.
Proof. unfold checked_sub. destruct (Z.leb_spec b a); naive_solver lia. Qed.

(** ** Inversion of computations *)

Lemma rbind_Ok {E A B} (r : res E A) (k : A -> res E B) b :
  rbind r k = Ok b <-> exists a, r = Ok a /\ k a = Ok b.
Proof. destruct r; naive_solver. Qed.
Lemma rensure_Ok {E} (c : bool) (e : E) u : rensure c e = Ok u <-> c = true.
Proof. destruct c, u; naive_solver. Qed.
Lemma rensure_Err {E} (c : bool) (e e' : E) : rensure c e = Err e' <-> c = false /\ e' = e.
Proof. destruct c; naive_solver. Qed.
Lemma ok_or_Ok {E A} (o : option A) (e : E) a : ok_or o e = Ok a <-> o = Some a.
Proof. destruct o; naive_solver. Qed.
Lemma bind_Ok {S E A B} (m : M S E A) (k : A -> M S E B) s s' b :
  bind m k s = (s', Ok b) <-> exists a s1, m s = (s1, Ok a) /\ k a s1 = (s', Ok b).
Proof. unfold bind. destruct (m s) as [s1 []]; naive_solver. Qed.
Lemma mensure_Ok {S E} (c : bool) (e : E) (s s' : S) u :
  mensure c e s = (s', Ok u) <-> c = true /\ s' = s.
Proof. unfold mensure, mlift. destruct c, u; naive_solver. Qed.
Lemma transactional_Ok {S E A} (m : M S E A) s s' a :
  transactional m s = (s', Ok a) <-> m s = (s', Ok a).
Proof. unfold transactional. destruct (m s) as [s1 []]; naive_solver. Qed.

(** A transactional computation that does not succeed leaves the storage as it
    found it. *)
Lemma transactional_rollback {S E A} (m : M S E A) s s' r :
  transactional m s = (s', r) -> is_ok r = false -> s' = s.
Proof. unfold transactional. destruct (m s) as [s1 []]; naive_solver. Qed.

Lemma mlift_Ok {S E A} (r : res E A) (s s' : S) a : mlift r s = (s', Ok a) <-> s' = s /\ r = Ok a.
Proof. unfold mlift. naive_solver. Qed.
Lemma ret_Ok {S E A} (x : A) (s s' : S) a : ret (E := E) x s = (s', Ok a) <-> s' = s /\ a = x.
Proof. unfold ret. naive_solver. Qed.
Lemma throw_Ok {S E A} (e : E) (s s' : S) (a : A) : throw e s = (s', Ok a) <-> False.
Proof. unfold throw. naive_solver. Qed.
Lemma mget_Ok {S E} (s s' a : S) : mget (E := E) s = (s', Ok a) <-> s' = s /\ a = s.
Proof. unfold mget. naive_solver. Qed.
Lemma mgets_Ok {S E A} (f : S -> A) (s s' : S) a :
  mgets (E := E) f s = (s', Ok a) <-> s' = s /\ a = f s.
Proof. unfold mgets. naive_solver. Qed.
Lemma mmodify_Ok {S E} (f : S -> S) (s s' : S) u : mmodify (E := E) f s = (s', Ok u) <-> s' = f s.
Proof. unfold mmodify. destruct u. naive_solver. Qed.
Lemma ensure_signed_Ok {A} (o : Origin A) who : ensure_signed o = Ok who <-> o = Signed who.
Proof. destruct o; naive_solver. Qed.
Lemma ensure_root_Ok {A} (o : Origin A) u : ensure_root o = Ok u <-> o = Root.
Proof. destruct o, u; naive_solver. Qed.

(** The run of a computation from its result alone: the storage is whatever it left. *)
Lemma run_result {S E A} (m : M S E A) s r : (m s).2 = r -> m s = ((m s).1, r).
Proof. intros <-. by destruct (m s). Qed.

Lemma mmap_err_Ok {S E F A} (f : E -> F) (m : M S E A) s s' a :
  mmap_err f m s = (s', Ok a) <-> m s = (s', Ok a).
Proof. unfold mmap_err. destruct (m s) as [s1 []]; naive_solver. Qed.

(** [run_inv] turns a hypothesis [m s = (s', Ok a)] on a sequence of steps into the
    hypotheses of its steps. *)
Ltac run_inv_step :=
  match goal with
  | H : transactional _ _ = (_, Ok _) |- _ => apply (proj1 (transactional_Ok _ _ _ _)) in H
  | H : bind _ _ _ = (_, Ok _) |- _ =>
      let a := fresh "a" in let s1 := fresh "s" in let Hm := fresh "Hm" in
      apply bind_Ok in H; destruct H as (a & s1 & Hm & H)
  | H : mensure _ _ _ = (_, Ok _) |- _ => apply mensure_Ok in H; destruct H as [H ->]
  | H : rbind _ _ = Ok _ |- _ =>
      let a := fresh "a" in let Hm := fresh "Hm" in
      apply rbind_Ok in H; destruct H as (a & Hm & H)
  | H : rensure _ _ = Ok _ |- _ => apply rensure_Ok in H
  | H : ok_or _ _ = Ok _ |- _ => apply ok_or_Ok in H
  | H : mlift _ _ = (_, Ok _) |- _ => apply mlift_Ok in H; destruct H as [-> H]
  | H : ret _ _ = (_, Ok _) |- _ => apply ret_Ok in H; destruct H as [-> H]; try subst
  | H : throw _ _ = (_, Ok _) |- _ => apply throw_Ok in H; destruct H
  | H : mmap_err _ _ _ = (_, Ok _) |- _ => apply (proj1 (mmap_err_Ok _ _ _ _ _)) in H
  | H : mgets _ _ = (_, Ok _) |- _ => apply mgets_Ok in H; destruct H as [-> H]; try subst
  | H : mget _ = (_, Ok _) |- _ => apply mget_Ok in H; destruct H as [-> H]; try subst
  | H : mmodify _ _ = (_, Ok _) |- _ => apply mmodify_Ok in H; subst
  | H : ensure_signed _ = Ok _ |- _ => apply ensure_signed_Ok in H
  | H : ensure_root _ = Ok _ |- _ => apply ensure_root_Ok in H
  | H : Signed _ = Signed _ |- _ => first [injection H as <- | injection H as H; subst]
  | H : (_, Err _) = (_, Ok _) |- _ => discriminate H
  | H : (_, Panic) = (_, Ok _) |- _ => discriminate H
  | H : @Err _ _ _ = Ok _ |- _ => discriminate H
  | H : negb _ = true |- _ => apply negb_true_iff in H
  | H : bool_decide _ = true |- _ => apply bool_decide_eq_true in H
  | H : bool_decide _ = false |- _ => apply bool_decide_eq_false in H
  | H : ¬ is_Some _ |- _ => apply eq_None_not_Some in H
  end.
Ltac run_inv := repeat (run_inv_step; cbv beta in * ).

(** ** Bytes

    A byte is an element of [Z] in [0, 255]; hashes and addresses are byte lists. *)
Abbreviation bytes := (list Z).
Abbreviation H160 := (list Z).
Abbreviation H256 := (list Z).

Definition is_byte (b : Z) : Prop := 0 <= b < 256.
Definition is_bytes (l : bytes) : Prop := Forall is_byte l.

(** [n] big-endian bytes of [z] ([to_be_bytes]), and the value of a big-endian
    byte string ([from_be_bytes]). *)
Fixpoint be_bytes (n : nat) (z : Z) : bytes :=
  match n with
  | O => []
  | S n' => be_bytes n' (z / 256) ++ [z mod 256]
  end.
Definition be_val (l : bytes) : Z := foldl (fun acc b => acc * 256 + b) 0 l.

(** [H160::from_low_u64_be]. *)
Definition from_low_u64_be (n : Z) : H160 := replicate 12 0 ++ be_bytes 8 n.
Definition H160_default : H160 := replicate 20 0.
Definition H256_default : H256 := replicate 32 0.

(** [&l[start..end]]: a panic when the range is not inside the slice. *)
Definition slice {E A} (start stop : nat) (l : list A) : res E (list A) :=
  if (start <=? stop)%nat && (stop <=? length l)%nat
  then Ok (take (stop - start) (drop start l)) else Panic.

(** [<[u8]>::starts_with]. *)
Definition starts_with (p l : bytes) : bool := bool_decide (take (length p) l = p).

Lemma length_be_bytes n z : length (be_bytes n z) = n.
Proof. revert z; induction n as [|n IH]; intros z; simpl; [done|]. rewrite length_app, IH. simpl. lia. Qed.

Lemma be_bytes_is_bytes n z : is_bytes (be_bytes n z).
Proof.
  revert z; induction n as [|n IH]; intros z; simpl; [constructor|].
  apply Forall_app; split; [apply IH|]. constructor; [|constructor].
  unfold is_byte. apply Z.mod_pos_bound. lia.
Qed.

Lemma be_val_snoc l b : be_val (l ++ [b]) = be_val l * 256 + b.
Proof. unfold be_val. by rewrite foldl_app. Qed.

Lemma be_val_be_bytes n z : be_val (be_bytes n z) = z mod 256 ^ Z.of_nat n.
Proof.
  revert z; induction n as [|n IH]; intros z.
  - simpl. by rewrite Z.mod_1_r.
  - cbn [be_bytes]. rewrite be_val_snoc, IH, Nat2Z.inj_succ, Z.pow_succ_r by lia.
    rewrite (Z.rem_mul_r z 256) by (try apply Z.pow_nonzero; lia). lia.
Qed.

Lemma be_bytes_be_val l : is_bytes l -> be_bytes (length l) (be_val l) = l.
Proof.
  induction l as [|b l IH] using rev_ind; intros Hl; [done|].
  apply Forall_app in Hl as [Hl Hb]. rewrite Forall_singleton in Hb. unfold is_byte in Hb.
  rewrite length_app, Nat.add_1_r. cbn [be_bytes].
  rewrite be_val_snoc, Z.div_add_l, Z.div_small, Z.add_0_r by lia.
  rewrite IH by done. do 2 f_equal.
  rewrite Z.add_comm, Z_mod_plus_full. by apply Z.mod_small.
Qed.

Lemma be_val_range l : is_bytes l -> 0 <= be_val l < 256 ^ Z.of_nat (length l).
Proof.
  intros Hl. rewrite <- (be_bytes_be_val l Hl) at 1 2. rewrite be_val_be_bytes.
  apply Z.mod_pos_bound. apply Z.pow_pos_nonneg; lia.
Qed.

Lemma be_val_be_bytes_small n z :
  0 <= z < 256 ^ Z.of_nat n -> be_val (be_bytes n z) = z.
Proof. intros Hz. rewrite be_val_be_bytes. by apply Z.mod_small. Qed.

Lemma be_bytes_inj n x y :
  0 <= x < 256 ^ Z.of_nat n -> 0 <= y < 256 ^ Z.of_nat n ->
  be_bytes n x = be_bytes n y -> x = y.
Proof.
  intros Hx Hy He. rewrite <- (be_val_be_bytes_small n x), <- (be_val_be_bytes_small n y) by done.
  by rewrite He.
Qed.

Lemma starts_with_app p l : starts_with p (p ++ l) = true.
Proof. unfold starts_with. rewrite take_app_length. by apply bool_decide_eq_true. Qed.

Lemma starts_with_split p l : starts_with p l = true -> exists t, l = p ++ t.
Proof.
  unfold starts_with. intros H%bool_decide_eq_true.
  exists (drop (length p) l). rewrite <- H at 1. by rewrite take_drop.
Qed.

Lemma slice_Ok {E A} start stop (l t : list A) :
  slice (E := E) start stop l = Ok t <->
  (start <= stop <= length l)%nat /\ t = take (stop - start) (drop start l).
Proof.
  unfold slice.
  destruct (Nat.leb_spec start stop), (Nat.leb_spec stop (length l)); naive_solver lia.
Qed.

Lemma length_slice {E A} start stop (l t : list A) :
  slice (E := E) start stop l = Ok t -> length t = (stop - start)%nat.
Proof. intros [? ->]%slice_Ok. rewrite length_take, length_drop. lia. Qed.

(** ** Sums over finite maps

    [map_ksum f m] adds [f k v] over the entries of [m]; [map_sum f m] adds [f v]. *)
Definition map_ksum `{Countable K} {V} (f : K -> V -> Z) (m : gmap K V) : Z :=
  map_fold (fun k v acc => f k v + acc) 0 m.
Definition map_sum `{Countable K} {V} (f : V -> Z) (m : gmap K V) : Z :=
  map_ksum (fun _ => f) m.

Section map_ksum.
Context `{Countable K} {V : Type} (f : K -> V -> Z).
Implicit Types m : gmap K V.

Lemma map_ksum_empty : map_ksum f (∅ : gmap K V) = 0.
Proof. apply map_fold_empty. Qed.

Lemma map_ksum_insert_new m k v :
  m !! k = None -> map_ksum f (<[k:=v]> m) = f k v + map_ksum f m.
Proof.
  intros Hk. unfold map_ksum. rewrite map_fold_insert_L; [done| |done].
  intros; lia.
Qed.

Lemma map_ksum_delete m k v :
  m !! k = Some v -> map_ksum f (delete k m) = map_ksum f m - f k v.
Proof.
  intros Hk. rewrite <- (insert_delete_id m k v Hk) at 2.
  rewrite map_ksum_insert_new by apply lookup_delete_eq. lia.
Qed.

Lemma map_ksum_insert m k v v' :
  m !! k = Some v' -> map_ksum f (<[k:=v]> m) = map_ksum f m - f k v' + f k v.
Proof.
  intros Hk. rewrite <- insert_delete_eq.
  rewrite map_ksum_insert_new by apply lookup_delete_eq.
  rewrite (map_ksum_delete m k v') by done. lia.
Qed.

Lemma map_ksum_nonneg m : (forall k v, m !! k = Some v -> 0 <= f k v) -> 0 <= map_ksum f m.
Proof.
  induction m as [|k v m Hk IH] using map_ind; intros Hf; [by rewrite map_ksum_empty|].
  rewrite map_ksum_insert_new by done.
  pose proof (Hf k v (lookup_insert_eq _ _ _)).
  enough (0 <= map_ksum f m) by lia. apply IH. intros k' v' Hk'.
  apply (Hf k'). rewrite lookup_insert_ne; [done|congruence].
Qed.

Lemma map_ksum_lookup_le m k v :
  (forall k v, m !! k = Some v -> 0 <= f k v) -> m !! k = Some v -> f k v <= map_ksum f m.
Proof.
  intros Hf Hk. enough (0 <= map_ksum f (delete k m)) as Hle
    by (rewrite (map_ksum_delete m k v) in Hle by done; lia).
  apply map_ksum_nonneg. intros k' v' [_ Hk']%lookup_delete_Some. eauto.
Qed.
End map_ksum.

Section map_sum.
Context `{Countable K} {V : Type} (f : V -> Z).
Implicit Types m : gmap K V.

Lemma map_sum_empty : map_sum f (∅ : gmap K V) = 0.
Proof. apply map_ksum_empty. Qed.
Lemma map_sum_insert_new m k v : m !! k = None -> map_sum f (<[k:=v]> m) = f v + map_sum f m.
Proof. apply map_ksum_insert_new. Qed.
Lemma map_sum_delete m k v : m !! k = Some v -> map_sum f (delete k m) = map_sum f m - f v.
Proof. apply map_ksum_delete. Qed.
Lemma map_sum_insert m k v v' :
  m !! k = Some v' -> map_sum f (<[k:=v]> m) = map_sum f m - f v' + f v.
Proof. apply map_ksum_insert. Qed.
Lemma map_sum_nonneg m : (forall k v, m !! k = Some v -> 0 <= f v) -> 0 <= map_sum f m.
Proof. apply map_ksum_nonneg. Qed.
Lemma map_sum_lookup_le m k v :
  (forall k v, m !! k = Some v -> 0 <= f v) -> m !! k = Some v -> f v <= map_sum f m.
Proof. apply map_ksum_lookup_le. Qed.
End map_sum.

(** ** Sorting and searching slices *)

(** [slice::sort_by], which is stable, with a total preorder [le]. *)
Section sorting.
Context {A : Type} (le : A -> A -> bool).

Fixpoint sort_insert (x : A) (l : list A) : list A :=
  match l with
  | [] => [x]
  | y :: l' => if le x y then x :: l else y :: sort_insert x l'
  end.
Definition sort_by (l : list A) : list A := foldr sort_insert [] l.

Lemma sort_insert_perm x l : sort_insert x l ≡ₚ x :: l.
Proof.
  induction l as [|y l IH]; simpl; [done|]. destruct (le x y); [done|].
  rewrite IH. apply Permutation_swap.
Qed.
Lemma sort_by_perm l : sort_by l ≡ₚ l.
Proof. induction l as [|x l IH]; simpl; [done|]. by rewrite sort_insert_perm, IH. Qed.

Hypothesis le_total : forall x y, le x y = true \/ le y x = true.
Hypothesis le_trans : forall x y z, le x y = true -> le y z = true -> le x z = true.

(** Elements that [le] does not separate stay in their order. *)
Definition stable_order (R : A -> A -> Prop) (x y : A) : Prop :=
  le x y = true /\ (le y x = true -> R x y).

Lemma sort_insert_stable (R : A -> A -> Prop) x l :
  Forall (R x) l -> StronglySorted (stable_order R) l ->
  StronglySorted (stable_order R) (sort_insert x l).
Proof using le_total le_trans.
  intros HR Hl. induction Hl as [|y l Hl IH Hy]; simpl; [by repeat constructor|].
  apply Forall_cons in HR as [HRy HR]. destruct (le x y) eqn:E.
  - constructor; [by constructor|]. constructor; [done|].
    rewrite Forall_forall in Hy, HR |- *. intros z Hz. destruct (Hy z Hz) as [Hyz _].
    split; [by eapply le_trans|]. intros _. by apply HR.
  - constructor; [by apply IH|]. rewrite sort_insert_perm. constructor; [|done].
    split; [|congruence]. destruct (le_total x y); congruence.
Qed.

Lemma sort_by_stable (R : A -> A -> Prop) l :
  StronglySorted R l -> StronglySorted (stable_order R) (sort_by l).
Proof using le_total le_trans.
  induction 1 as [|x l Hl IH Hx]; simpl; [constructor|].
  apply sort_insert_stable; [|done]. by rewrite sort_by_perm.
Qed.

Lemma sort_by_sorted l : StronglySorted (fun x y => le x y = true) (sort_by l).
Proof using le_total le_trans.
  assert (StronglySorted (stable_order (fun _ _ => True)) (sort_by l)) as Hs.
  { induction l as [|x l IH]; simpl; [constructor|]. apply sort_insert_stable; [|done]. by apply Forall_true. }
  clear -Hs. induction Hs as [|x l' Hl IH Hx]; constructor; [done|].
  eapply Forall_impl; [exact Hx|]. by intros y [? _].
Qed.
End sorting.

(** [slice::binary_search] on ordered keys: the loop of the standard library, [n]
    bounding its iterations.  [inl i] is [Ok(i)], an index of the key; [inr i] is
    [Err(i)], where the key belongs. *)
Fixpoint bsearch (n : nat) (l : list Z) (x : Z) (left right : nat) : nat + nat :=
  match n with
  | O => inr left
  | S n' =>
      if (left <? right)%nat then
        let mid := (left + (right - left) / 2)%nat in
        match Z.compare (l !!! mid) x with
        | Eq => inl mid
        | Lt => bsearch n' l x (S mid) right
        | Gt => bsearch n' l x left mid
        end
      else inr left
  end.
Definition search (l : list Z) (x : Z) : nat + nat := bsearch (S (length l)) l x 0 (length l).
(** [binary_search(..).is_ok()]. *)
Definition binary_search (l : list Z) (x : Z) : bool :=
  match search l x with inl _ => true | inr _ => false end.

Lemma sorted_lookup_lt (l : list Z) i j x y :
  StronglySorted Z.lt l -> l !! i = Some x -> l !! j = Some y -> (i < j)%nat -> x < y.
Proof.
  intros Hl. revert i j. induction Hl as [|a l Hl IH Ha]; intros i j; [done|].
  destruct i as [|i], j as [|j]; simpl; try lia.
  - intros [= ->] Hj _. rewrite Forall_forall in Ha. apply Ha. by apply list_elem_of_lookup_2 in Hj.
  - intros Hi Hj ?. apply (IH i j); [done..|lia].
Qed.

(** On a sorted slice the search returns an index of the key, or the index that
    separates the smaller elements from the larger ones. *)
Lemma bsearch_spec n l x left right :
  StronglySorted Z.lt l -> (left <= right <= length l)%nat -> (right - left < n)%nat ->
  (forall j y, (j < left)%nat -> l !! j = Some y -> y < x) ->
  (forall j y, (right <= j)%nat -> l !! j = Some y -> x < y) ->
  match bsearch n l x left right with
  | inl i => l !! i = Some x
  | inr i => (i <= length l)%nat /\ (forall j y, (j < i)%nat -> l !! j = Some y -> y < x) /\
             (forall j y, (i <= j)%nat -> l !! j = Some y -> x < y)
  end.
Proof.
  intros Hl. revert left right. induction n as [|n IH]; intros left right Hr Hn Hlo Hhi; [lia|].
  cbn [bsearch]. destruct (Nat.ltb_spec left right) as [Hlt|Hge].
  2:{ split_and!; [lia|done|]. intros j y Hj. apply Hhi. lia. }
  set (mid := (left + (right - left) / 2)%nat).
  assert (left <= mid < right)%nat as Hmid.
  { unfold mid. assert ((right - left) / 2 < right - left)%nat by (apply Nat.div_lt; lia). lia. }
  clearbody mid. destruct (lookup_lt_is_Some_2 l mid ltac:(lia)) as [y Hy].
  rewrite (list_lookup_total_correct _ _ _ Hy). destruct (Z.compare_spec y x) as [->|Hc|Hc]; [done|..].
  - apply IH; [lia..| |done]. intros j z Hj Hz. destruct (decide (j = mid)) as [->|]; [congruence|].
    pose proof (sorted_lookup_lt l j mid z y Hl Hz Hy ltac:(lia)). lia.
  - apply IH; [lia..|done|]. intros j z Hj Hz. destruct (decide (j = mid)) as [->|]; [congruence|].
    pose proof (sorted_lookup_lt l mid j y z Hl Hy Hz ltac:(lia)). lia.
Qed.

Lemma search_spec l x :
  StronglySorted Z.lt l ->
  match search l x with
  | inl i => l !! i = Some x
  | inr i => (i <= length l)%nat /\ (forall j y, (j < i)%nat -> l !! j = Some y -> y < x) /\
             (forall j y, (i <= j)%nat -> l !! j = Some y -> x < y)
  end.
Proof.
  intros Hl. apply bsearch_spec; [done|lia|lia|lia|].
  intros j y Hj Hy%lookup_lt_Some. lia.
Qed.

Lemma binary_search_spec l x : StronglySorted Z.lt l -> binary_search l x = true <-> x ∈ l.
Proof.
  intros Hl. unfold binary_search. pose proof (search_spec l x Hl) as Hs.
  rewrite list_elem_of_lookup. destruct (search l x) as [i|i]; [naive_solver|].
  destruct Hs as (_ & Hlo & Hhi). split; [done|]. intros [j Hj].
  destruct (decide (j < i)%nat); [pose proof (Hlo j x)|pose proof (Hhi j x)]; naive_solver lia.
Qed.

(** [Vec::insert], and what it does to a sorted list. *)
Definition list_insert_at {T} (i : nat) (x : T) (l : list T) : list T := take i l ++ x :: drop i l.
Lemma insert_at_sorted pos e (l : list Z) : StronglySorted Z.lt l -> search l e = inr pos ->
  StronglySorted Z.lt (list_insert_at pos e l).
Proof.
  intros Hs Hp. pose proof (search_spec l e Hs) as Hspec. rewrite Hp in Hspec. destruct Hspec as (_ & Hlo & Hhi).
  unfold list_insert_at. clear Hp. revert pos Hlo Hhi. induction Hs as [|x l Hs IH Hx]; intros pos Hlo Hhi.
  { rewrite take_nil, drop_nil. by repeat constructor. }
  destruct pos as [|pos]; cbn [take drop app].
  - constructor; [by constructor|]. rewrite Forall_lookup. intros j y Hj. apply (Hhi j y); [lia|done].
  - constructor.
    + apply IH; [intros j y Hj Hy; apply (Hlo (S j) y); [lia|done]|intros j y Hj Hy; apply (Hhi (S j) y); [lia|done]].
    + rewrite Forall_app, Forall_cons. split_and!; [by apply Forall_take|apply (Hlo O x); [lia|done]|by apply Forall_drop].
Qed.
Lemma elem_insert_at pos e x (l : list Z) : x ∈ list_insert_at pos e l <-> x = e \/ x ∈ l.
Proof.
  unfold list_insert_at. rewrite elem_of_app, elem_of_cons. rewrite <- (take_drop pos l) at 3. rewrite elem_of_app. tauto.
Qed.
Lemma sorted_delete i (l : list Z) : StronglySorted Z.lt l -> StronglySorted Z.lt (delete i l).
Proof.
  intros Hl. revert i. induction Hl as [|x l Hl IH Hx]; intros [|i]; cbn; [constructor|constructor|done|].
  constructor; [apply IH|by apply Forall_delete].
Qed.
Lemma sorted_filter (P : Z -> Prop) `{forall x, Decision (P x)} (l : list Z) :
  StronglySorted Z.lt l -> StronglySorted Z.lt (filter P l).
Proof.
  induction 1 as [|x l Hs IH Hx]; [constructor|]. rewrite filter_cons. destruct (decide (P x)); [|done]. constructor; [done|].
  rewrite Forall_forall in *. intros y [_ Hy]%list_elem_of_filter. by apply Hx.
Qed.
Lemma sorted_seqZ m n : StronglySorted Z.lt (seqZ m n).
Proof.
  unfold seqZ. generalize (Z.to_nat n). intros k. revert m. induction k as [|k IH]; intros m; [constructor|].
  cbn [seq]. rewrite fmap_cons. constructor.
  - rewrite <- seq_shift. rewrite <- list_fmap_compose. specialize (IH (m + 1)).
    replace (fmap ((fun i => Z.of_nat i + m) ∘ S) (seq 0 k)) with (fmap (fun i => Z.of_nat i + (m + 1)) (seq 0 k)); [done|].
    apply list_fmap_ext. intros i x _. cbn. lia.
  - rewrite Forall_fmap, Forall_forall. intros i Hi. apply elem_of_seq in Hi. cbn. lia.
Qed.

Create HintDb reef.
#[export] Hint Resolve sat_add_range sat_sub_range wrap_range length_be_bytes be_bytes_is_bytes : reef.
