(* ===== verification/Interfaces.v ===== *)
(** * Interfaces between the pallets

    The traits through which the pallets of the runtime use one another, as classes
    over the storage that implements them: [Currency] and [ReservableCurrency] of
    [frame_support] (implemented outside the repository by [pallet_balances]),
    [TransferAll] of [orml-traits], the reaping of accounts by [frame_system], and
    [AddressMapping] of [src/primitives/src/evm.rs].  The laws the theorems rely on are classes of their
    own; [SimpleLedger] is an executable currency that satisfies them. *)

From stdpp Require Import base gmap list strings.
From Stdlib Require Import ZArith Lia.
From S2P Require Import Prelude.

Local Open Scope Z_scope.

Inductive ExistenceRequirement : Type := KeepAlive | AllowDeath.
Inductive BalanceStatus : Type := Free | Reserved.

(** [Currency] and [ReservableCurrency] over a storage [X] with accounts [A].  The
    imbalances that [withdraw] and the deposits return are dropped by every caller
    in the repository, which settles the total issuance. *)
Class Currency (X A : Type) : Type := {
  free_balance : X -> A -> Z;
  reserved_balance : X -> A -> Z;
  total_issuance : X -> Z;
  minimum_balance : Z;
  transfer : A -> A -> Z -> ExistenceRequirement -> M X DispatchError unit;
  withdraw : A -> Z -> ExistenceRequirement -> M X DispatchError unit;
  reserve : A -> Z -> M X DispatchError unit;
  unreserve : A -> Z -> X -> X * Z;
  repatriate_reserved : A -> A -> Z -> BalanceStatus -> M X DispatchError Z;
  deposit_into_existing : A -> Z -> M X DispatchError unit;
  deposit_creating : A -> Z -> X -> X;
}.

(** What the documentation of the two traits says of the balances. *)
Class CurrencyLaws (X A : Type) `{Currency X A} : Prop := {
  reserve_moves : forall a v x x',
    reserve a v x = (x', Ok tt) ->
    v <= free_balance x a /\
    free_balance x' a = free_balance x a - v /\ reserved_balance x' a = reserved_balance x a + v;
  unreserve_moves : forall a v x x' rem,
    0 <= v -> 0 <= reserved_balance x a -> unreserve a v x = (x', rem) ->
    let m := Z.min v (reserved_balance x a) in
    rem = v - m /\
    free_balance x' a = free_balance x a + m /\ reserved_balance x' a = reserved_balance x a - m;
  withdraw_takes : forall a v er x x',
    withdraw a v er x = (x', Ok tt) ->
    v <= free_balance x a /\
    free_balance x' a = free_balance x a - v /\ reserved_balance x' a = reserved_balance x a;
  deposit_gives : forall a v x x',
    deposit_into_existing a v x = (x', Ok tt) ->
    free_balance x' a = free_balance x a + v /\ reserved_balance x' a = reserved_balance x a;
}.

(** [TransferAll::transfer_all]. *)
Class TransferAll (X A : Type) : Type := {
  transfer_all : A -> A -> M X DispatchError unit;
}.

(** The accounts that the system reaps while the storage goes from one state to another, in
    order.  For each of them it calls [OnKilledAccount] on the spot. *)
Class Reaping (X A : Type) : Type := {
  reaped : X -> X -> list A;
}.

(** The trait [AddressMapping]. *)
Class AddressMapping (X A : Type) : Type := {
  get_account_id : X -> H160 -> A;
  get_evm_address : X -> A -> option H160;
  get_or_create_evm_address : X -> A -> X * H160;
  get_default_evm_address : A -> H160;
  is_linked : X -> A -> H160 -> bool;
}.

(** What the clients of the mapping rely on. *)
Class AddressMappingLaws (X A : Type) `{AddressMapping X A} : Prop := {
  create_existing : forall x a e,
    get_evm_address x a = Some e -> get_or_create_evm_address x a = (x, e);
  create_found : forall x a x' e,
    get_or_create_evm_address x a = (x', e) -> get_evm_address x' a = Some e;
}.

(** The trait [TransactionPayment] of [src/modules/support/src/lib.rs].  A negative
    imbalance is the amount it stands for; dropping one burns the amount. *)
Class TransactionPayment (X A : Type) : Type := {
  reserve_fee : A -> Z -> M X DispatchError Z;
  unreserve_fee : A -> Z -> X -> X;
  unreserve_and_charge_fee : A -> Z -> M X unit (Z * Z);
  refund_fee : A -> Z -> Z -> M X unit unit;
  drop_negative_imbalance : Z -> X -> X;
}.

(** The trait [MultiCurrency] of [src/orml/traits/src/currency.rs], over currencies [C]. *)
Class MultiCurrency (X A C : Type) : Type := {
  mc_minimum_balance : C -> Z;
  mc_total_issuance : X -> C -> Z;
  mc_total_balance : X -> C -> A -> Z;
  mc_free_balance : X -> C -> A -> Z;
  mc_ensure_can_withdraw : C -> A -> Z -> M X DispatchError unit;
  mc_transfer : C -> A -> A -> Z -> M X DispatchError unit;
  mc_deposit : C -> A -> Z -> M X DispatchError unit;
  mc_withdraw : C -> A -> Z -> M X DispatchError unit;
  mc_can_slash : X -> C -> A -> Z -> bool;
  mc_slash : C -> A -> Z -> X -> X * Z;
}.

(** ** An executable currency

    Free and reserved amounts per account, with no existential deposit. *)
Module SimpleLedger.
Section ledger.
Context {A : Type} `{Countable A}.

Definition balance_of (x : gmap A (Z * Z)) (a : A) : Z * Z := default (0, 0) (x !! a).
Definition put (a : A) (b : Z * Z) (x : gmap A (Z * Z)) : gmap A (Z * Z) := <[a := b]> x.
Definition low : DispatchError := Module "InsufficientBalance".
Definition dead : DispatchError := Module "DeadAccount".

#[export] Instance ledger_currency : Currency (gmap A (Z * Z)) A := {
  free_balance x a := (balance_of x a).1;
  reserved_balance x a := (balance_of x a).2;
  total_issuance x := map_sum (fun b => b.1 + b.2) x;
  minimum_balance := 0;
  transfer a b v _ := fun x =>
    if v <=? (balance_of x a).1 then
      let x1 := put a ((balance_of x a).1 - v, (balance_of x a).2) x in
      (put b ((balance_of x1 b).1 + v, (balance_of x1 b).2) x1, Ok tt)
    else (x, Err low);
  withdraw a v _ := fun x =>
    if v <=? (balance_of x a).1
    then (put a ((balance_of x a).1 - v, (balance_of x a).2) x, Ok tt) else (x, Err low);
  reserve a v := fun x =>
    if v <=? (balance_of x a).1
    then (put a ((balance_of x a).1 - v, (balance_of x a).2 + v) x, Ok tt) else (x, Err low);
  unreserve a v := fun x =>
    let m := Z.min v (balance_of x a).2 in
    (put a ((balance_of x a).1 + m, (balance_of x a).2 - m) x, v - m);
  repatriate_reserved a b v st := fun x =>
    let m := Z.min v (balance_of x a).2 in
    let x1 := put a ((balance_of x a).1, (balance_of x a).2 - m) x in
    (match st with
     | Free => put b ((balance_of x1 b).1 + m, (balance_of x1 b).2) x1
     | Reserved => put b ((balance_of x1 b).1, (balance_of x1 b).2 + m) x1
     end, Ok (v - m));
  deposit_into_existing a v := fun x =>
    match x !! a with
    | Some (f, r) => (put a (f + v, r) x, Ok tt)
    | None => (x, Err dead)
    end;
  deposit_creating a v := fun x => put a ((balance_of x a).1 + v, (balance_of x a).2) x;
}.

#[export] Instance ledger_laws : CurrencyLaws (gmap A (Z * Z)) A.
Proof.
  split; simpl; unfold put, balance_of.
  - intros a v x x'. destruct (Z.leb_spec v (default (0, 0) (x !! a)).1); [|discriminate].
    intros [= <-]. rewrite lookup_insert_eq. simpl. lia.
  - intros a v x x' rem Hv Hr [= <- <-]. rewrite lookup_insert_eq. simpl. lia.
  - intros a v er x x'. destruct (Z.leb_spec v (default (0, 0) (x !! a)).1); [|discriminate].
    intros [= <-]. rewrite lookup_insert_eq. simpl. lia.
  - intros a v x x'. destruct (x !! a) as [[f r]|]; [|discriminate].
    intros [= <-]. rewrite lookup_insert_eq. simpl. lia.
Qed.

#[export] Instance ledger_transfer_all : TransferAll (gmap A (Z * Z)) A := {
  transfer_all a b := fun x => transfer a b (free_balance x a) AllowDeath x;
}.
(** An account is reaped when its last funds leave it. *)
Definition funded (b : Z * Z) : bool := 0 <? b.1 + b.2.
#[export] Instance ledger_reaping : Reaping (gmap A (Z * Z)) A := {
  reaped x x' := filter (fun a => funded (balance_of x a) = true /\ funded (balance_of x' a) = false) (map_to_list x).*1;
}.
End ledger.
End SimpleLedger.
