(* ===== verification/Primitives.v ===== *)
(** * Primitives

    Models the currency ids of [src/primitives/src/lib.rs]: their token symbols, the
    liquidity shares, and the 32-byte form the pre-deployed ERC20 contracts use; and
    the amounts, address ranges and time units of the same file. *)

From stdpp Require Import base countable list strings.
From Stdlib Require Import ZArith Lia.
From S2P Require Import Prelude.

Local Open Scope Z_scope.

(** Address ranges: Ethereum precompiles below [PRECOMPILE_ADDRESS_START], the
    chain's precompiles, pre-deployed contracts, network contracts, mirrored tokens. *)
Definition PRECOMPILE_ADDRESS_START : Z := 1024.
Definition PREDEPLOY_ADDRESS_START : Z := 2048.
Definition MIRRORED_TOKENS_ADDRESS_START : Z := 16777216.

(** [currency::deposit]. *)
Definition DOLLARS : Z := 1000000000000000000.
Definition REEF_UNIT : Z := DOLLARS.
Definition MILLI_REEF : Z := REEF_UNIT / 1000.
Definition deposit (items nbytes : Z) : Z := items * 20 * REEF_UNIT + nbytes * 10 * MILLI_REEF.

(** The module [time]. *)
Definition SECS_PER_BLOCK : Z := 10.
Definition MILLISECS_PER_BLOCK : Z := SECS_PER_BLOCK * 1000.
Definition MINUTES : Z := 60 / SECS_PER_BLOCK.
Definition HOURS : Z := MINUTES * 60.
Definition DAYS : Z := HOURS * 24.
Definition SLOT_DURATION : Z := MILLISECS_PER_BLOCK.
Definition EPOCH_DURATION_IN_BLOCKS : Z := 1 * HOURS.
(** The fill rate is a quotient of floating-point numbers; it is one. *)
Definition EPOCH_DURATION_IN_SLOTS : Z := EPOCH_DURATION_IN_BLOCKS * (MILLISECS_PER_BLOCK / SLOT_DURATION).

Inductive TokenSymbol : Type := REEF | RUSD.

(** [token as u8], and [TryFrom<u8>]. *)
Definition token_u8 (t : TokenSymbol) : Z := match t with REEF => 0 | RUSD => 1 end.
Definition token_try_from (v : Z) : option TokenSymbol :=
  if v =? 0 then Some REEF else if v =? 1 then Some RUSD else None.

Inductive CurrencyId : Type :=
| Token (t : TokenSymbol)
| DEXShare (t0 t1 : TokenSymbol)
| ERC20 (address : H160).

#[global] Instance TokenSymbol_eq_dec : EqDecision TokenSymbol.
Proof. solve_decision. Defined.
#[global] Instance CurrencyId_eq_dec : EqDecision CurrencyId.
Proof. solve_decision. Defined.
#[global] Instance TokenSymbol_countable : Countable TokenSymbol.
Proof.
  refine (inj_countable' token_u8 (fun v => default REEF (token_try_from v)) _).
  by intros [].
Defined.
#[global] Instance CurrencyId_countable : Countable CurrencyId.
Proof.
  refine (inj_countable'
    (fun c => match c with
              | Token t => inl t
              | DEXShare t u => inr (inl (t, u))
              | ERC20 a => inr (inr a)
              end)
    (fun s => match s with
              | inl t => Token t
              | inr (inl (t, u)) => DEXShare t u
              | inr (inr a) => ERC20 a
              end) _).
  by intros [].
Defined.

Definition is_token_currency_id (c : CurrencyId) : bool :=
  match c with Token _ => true | _ => false end.
Definition is_dex_share_currency_id (c : CurrencyId) : bool :=
  match c with DEXShare _ _ => true | _ => false end.

Definition split_dex_share_currency_id (c : CurrencyId) : option (CurrencyId * CurrencyId) :=
  match c with DEXShare t u => Some (Token t, Token u) | _ => None end.
Definition join_dex_share_currency_id (c d : CurrencyId) : option CurrencyId :=
  match c, d with Token t, Token u => Some (DEXShare t u) | _, _ => None end.

(** [TryFrom<[u8; 32]>]. *)
Definition currency_id_try_from (v : bytes) : option CurrencyId :=
  if negb (starts_with (replicate 29 0) v) then None
  else
    let b n := nth n v 0 in
    if (b 29%nat =? 0) && (b 31%nat =? 0) then Token <$> token_try_from (b 30%nat)
    else if b 29%nat =? 1 then
      left ← token_try_from (b 30%nat);
      right ← token_try_from (b 31%nat);
      Some (DEXShare left right)
    else None.

(** [From<CurrencyId> for [u8; 32]]. *)
Definition currency_id_bytes (c : CurrencyId) : bytes :=
  match c with
  | Token t => replicate 29 0 ++ [0; token_u8 t; 0]
  | DEXShare l r => replicate 29 0 ++ [1; token_u8 l; token_u8 r]
  | ERC20 _ => replicate 32 0
  end.

Lemma token_round_trip t : token_try_from (token_u8 t) = Some t.
Proof. by destruct t. Qed.

Lemma token_try_from_u8 v t : token_try_from v = Some t -> v = token_u8 t.
Proof.
  unfold token_try_from. destruct (Z.eqb_spec v 0) as [->|]; [by intros [= <-]|].
  destruct (Z.eqb_spec v 1) as [->|]; [by intros [= <-]|discriminate].
Qed.

(** A 32-byte string with 29 leading zeros, by its last three bytes. *)
Lemma last_three (v : bytes) :
  length v = 32%nat -> starts_with (replicate 29 0) v = true ->
  exists a b c, v = replicate 29 0 ++ [a; b; c].
Proof.
  intros Hl Hs. apply starts_with_split in Hs as [t ->].
  rewrite length_app, length_replicate in Hl.
  destruct t as [|a [|b [|c [|? ?]]]]; simpl in Hl; try lia. by exists a, b, c.
Qed.

Lemma currency_id_decode c :
  is_token_currency_id c = true \/ is_dex_share_currency_id c = true ->
  currency_id_try_from (currency_id_bytes c) = Some c.
Proof. destruct c as [[]|[] []|a]; intros [Hc|Hc]; try discriminate Hc; reflexivity. Qed.

Lemma length_currency_id_bytes c : length (currency_id_bytes c) = 32%nat.
Proof. by destruct c. Qed.

(** The 32-byte form of a currency id is faithful for tokens and liquidity
    shares: decoding what was encoded gives the id back, and only the encoding of an
    id decodes to it; an ERC20 id, which the form has no room for, is encoded like
    the native token. *)
Theorem currency_id_codec :
  (forall c, is_token_currency_id c = true \/ is_dex_share_currency_id c = true ->
     currency_id_try_from (currency_id_bytes c) = Some c) /\
  (forall v c, length v = 32%nat -> currency_id_try_from v = Some c -> currency_id_bytes c = v) /\
  (forall a, currency_id_bytes (ERC20 a) = currency_id_bytes (Token REEF)).
Proof.
  split_and!; [apply currency_id_decode|intros v c Hl|done].
  - unfold currency_id_try_from. destruct (starts_with _ v) eqn:Hs; [|discriminate].
    destruct (last_three v Hl Hs) as (x & y & z & ->).
    cbn [nth replicate app negb]. destruct ((x =? 0) && (z =? 0)) eqn:Exz.
    + apply andb_true_iff in Exz as [->%Z.eqb_eq ->%Z.eqb_eq].
      intros (t & ->%token_try_from_u8 & ->)%fmap_Some. done.
    + destruct (Z.eqb_spec x 1) as [->|]; [|discriminate].
      intros (l & ->%token_try_from_u8 & (r & ->%token_try_from_u8 & [= <-])%bind_Some)%bind_Some. done.
Qed.

(** Joining two tokens to a liquidity share and splitting it again gives the
    two tokens, and only liquidity shares can be split and only tokens joined. *)
Lemma dex_share_round_trip c d :
  (forall e, join_dex_share_currency_id c d = Some e <->
     split_dex_share_currency_id e = Some (c, d)) /\
  (is_Some (split_dex_share_currency_id c) <-> is_dex_share_currency_id c = true) /\
  (is_Some (join_dex_share_currency_id c d) <->
     is_token_currency_id c = true /\ is_token_currency_id d = true).
Proof.
  split_and!.
  - intros e. destruct c, d, e; simpl; naive_solver.
  - destruct c; simpl; split; naive_solver.
  - destruct c, d; simpl; split; naive_solver.
Qed.
