(* ===== verification/Tokens.v ===== *)
(** * The multi-currency ledger

    [src/orml/tokens/src/lib.rs]: free, reserved and frozen balances per account and
    currency, the total issuance of each currency, locks and named reserves, and
    [src/orml/tokens/src/imbalances.rs].  The reference counters of [frame_system] and
    the hooks other than [OnDust] act on the storage [X] of the other pallets; the
    handler of dust is a parameter, with the two handlers of the pallet defined
    below.  Balances are [u128] and amounts [i128], as in the runtime. *)

From stdpp Require Import base gmap list strings.
From Stdlib Require Import ZArith Lia.
From S2P Require Import Prelude Interfaces.

Local Open Scope Z_scope.

Definition I128_MAX : Z := 170141183460469231731687303715884105727.
Definition I128_MIN : Z := - I128_MAX - 1.

(** [AccountData], [BalanceLock] and [ReserveData].  Identifiers of locks (eight bytes)
    and of named reserves (an ordered enumeration) are numbers. *)
Record AccountData : Type := mkAcc { free : Z; reserved : Z; frozen : Z }.
Record BalanceLock : Type := mkLock { lock_id : Z; lock_amount : Z }.
Record ReserveData : Type := mkReserve { reserve_id : Z; reserve_amount : Z }.

#[export] Instance AccountData_eq_dec : EqDecision AccountData.
Proof. solve_decision. Defined.

Definition no_account : AccountData := mkAcc 0 0 0.
(** [AccountData::total]. *)
Definition total (d : AccountData) : Z := sat_add U128_MAX (free d) (reserved d).

Module TokensError.
Inductive t :=
| BalanceTooLow | AmountIntoBalanceFailed | LiquidityRestrictions | MaxLocksExceeded
| KeepAlive | ExistentialDeposit | DeadAccount | TooManyReserves.
Definition name (e : t) : string :=
  match e with
  | BalanceTooLow => "BalanceTooLow"
  | AmountIntoBalanceFailed => "AmountIntoBalanceFailed"
  | LiquidityRestrictions => "LiquidityRestrictions"
  | MaxLocksExceeded => "MaxLocksExceeded"
  | KeepAlive => "KeepAlive"
  | ExistentialDeposit => "ExistentialDeposit"
  | DeadAccount => "DeadAccount"
  | TooManyReserves => "TooManyReserves"
  end.
End TokensError.
Definition tok_err (e : TokensError.t) : DispatchError := Module (TokensError.name e).
Definition overflow : DispatchError := Arithmetic "An overflow would occur".
Definition underflow : DispatchError := Arithmetic "An underflow would occur".

(** The reference counters of [frame_system]. *)
Class SystemRefs (X A : Type) : Type := {
  can_dec_provider : X -> A -> bool;
  inc_providers : A -> X -> X;
  dec_providers : A -> X -> X;
  inc_consumers : A -> X -> X;
  dec_consumers : A -> X -> X;
}.

(** The hooks of [MutationHooks] that belong to other pallets. *)
Class TokenHooks (X A C : Type) : Type := {
  OnSlash : C -> A -> Z -> X -> X;
  PreDeposit : C -> A -> Z -> M X DispatchError unit;
  PostDeposit : C -> A -> Z -> M X DispatchError unit;
  PreTransfer : C -> A -> A -> Z -> M X DispatchError unit;
  PostTransfer : C -> A -> A -> Z -> M X DispatchError unit;
  OnNewTokenAccount : A -> C -> X -> X;
  OnKilledTokenAccount : A -> C -> X -> X;
}.

Inductive TokensEvent (A C : Type) : Type :=
| EvEndowed (c : C) (who : A) (amount : Z)
| EvDustLost (c : C) (who : A) (amount : Z)
| EvTransfer (c : C) (from to : A) (amount : Z)
| EvReserved (c : C) (who : A) (amount : Z)
| EvUnreserved (c : C) (who : A) (amount : Z)
| EvReserveRepatriated (c : C) (from to : A) (amount : Z) (status : BalanceStatus)
| EvBalanceSet (c : C) (who : A) (new_free new_reserved : Z)
| EvTotalIssuanceSet (c : C) (amount : Z)
| EvWithdrawn (c : C) (who : A) (amount : Z)
| EvSlashed (c : C) (who : A) (free_amount reserved_amount : Z)
| EvDeposited (c : C) (who : A) (amount : Z)
| EvLockSet (id : Z) (c : C) (who : A) (amount : Z)
| EvLockRemoved (id : Z) (c : C) (who : A)
| EvLocked (c : C) (who : A) (amount : Z)
| EvUnlocked (c : C) (who : A) (amount : Z).
Arguments EvEndowed {A C}. Arguments EvDustLost {A C}. Arguments EvTransfer {A C}.
Arguments EvReserved {A C}. Arguments EvUnreserved {A C}. Arguments EvReserveRepatriated {A C}.
Arguments EvBalanceSet {A C}. Arguments EvTotalIssuanceSet {A C}. Arguments EvWithdrawn {A C}.
Arguments EvSlashed {A C}. Arguments EvDeposited {A C}. Arguments EvLockSet {A C}.
Arguments EvLockRemoved {A C}. Arguments EvLocked {A C}. Arguments EvUnlocked {A C}.

(** The constants of [Config]. *)
Record TokensConfig (A C : Type) : Type := mkTokensConfig {
  ExistentialDeposits : C -> Z;
  MaxLocks : nat;
  MaxReserves : nat;
  DustRemovalWhitelist : A -> bool;
}.
Arguments ExistentialDeposits {A C} _ _. Arguments MaxLocks {A C} _.
Arguments MaxReserves {A C} _. Arguments DustRemovalWhitelist {A C} _ _.

(** The storage of the pallet.  Values of [ValueQuery] items default to zero, to the
    empty account or to the empty list. *)
Record Tokens (X A C : Type) `{Countable A} `{Countable C} : Type := mkTokens {
  accounts : gmap (A * C) AccountData;
  issued : gmap C Z;
  locks : gmap (A * C) (list BalanceLock);
  reserves : gmap (A * C) (list ReserveData);
  tok_events : list (TokensEvent A C);
  tok_rest : X;
}.
Arguments mkTokens {X A C _ _ _ _}.
Arguments accounts {X A C _ _ _ _}. Arguments issued {X A C _ _ _ _}.
Arguments locks {X A C _ _ _ _}. Arguments reserves {X A C _ _ _ _}.
Arguments tok_events {X A C _ _ _ _}. Arguments tok_rest {X A C _ _ _ _}.

Section pallet.
Context {X A C : Type} `{Countable A} `{Countable C}.
Context `{SystemRefs X A} `{TokenHooks X A C}.
Variable cfg : TokensConfig A C.
(** [CurrencyHooks::OnDust]. *)
Variable on_dust : A -> C -> Z -> Tokens X A C -> Tokens X A C.
Abbreviation St := (Tokens X A C).
Abbreviation MT := (M St DispatchError).
Implicit Types s : St.

Definition set_accounts v s : St := mkTokens v (issued s) (locks s) (reserves s) (tok_events s) (tok_rest s).
Definition set_issued v s : St := mkTokens (accounts s) v (locks s) (reserves s) (tok_events s) (tok_rest s).
Definition set_locks v s : St := mkTokens (accounts s) (issued s) v (reserves s) (tok_events s) (tok_rest s).
Definition set_reserves v s : St := mkTokens (accounts s) (issued s) (locks s) v (tok_events s) (tok_rest s).
Definition emit e s : St :=
  mkTokens (accounts s) (issued s) (locks s) (reserves s) (tok_events s ++ [e]) (tok_rest s).
Definition on_rest (f : X -> X) s : St :=
  mkTokens (accounts s) (issued s) (locks s) (reserves s) (tok_events s) (f (tok_rest s)).
(** A fallible hook. *)
Definition hook {B} (m : M X DispatchError B) : MT B := fun s =>
  let '(x, r) := m (tok_rest s) in (on_rest (fun _ => x) s, r).

Definition account_of s (who : A) (c : C) : AccountData := default no_account (accounts s !! (who, c)).
Definition total_issuance s (c : C) : Z := default 0 (issued s !! c).
Definition free_balance s (c : C) (who : A) : Z := free (account_of s who c).
Definition total_balance s (c : C) (who : A) : Z := total (account_of s who c).
Definition reserved_balance s (c : C) (who : A) : Z := reserved (account_of s who c).
Definition locks_of s (who : A) (c : C) : list BalanceLock := default [] (locks s !! (who, c)).
Definition reserves_of s (who : A) (c : C) : list ReserveData := default [] (reserves s !! (who, c)).
Definition set_issuance (c : C) (v : Z) s : St := set_issued (<[c := v]> (issued s)) s.

(** ** Mutation of one account *)

Section try_mutate_account.
Context {E R : Type}.
Variables (who : A) (c : C).
(** The closure gets the account and whether it existed; it may itself change the
    storage, and returns the account it leaves. *)
Variable f : AccountData -> bool -> St -> St * res E (AccountData * R).

(** What [try_mutate_exists] stores, and the dust that the account is left with. *)
Definition stored (d : AccountData) : option AccountData :=
  if (total d <? ExistentialDeposits cfg c) && (total d =? 0) then None else Some d.
Definition dust_of (d : AccountData) : option Z :=
  if (total d <? ExistentialDeposits cfg c) && negb (total d =? 0) && negb (DustRemovalWhitelist cfg who)
  then Some (total d) else None.

Definition try_mutate_account (s : St) : St * res E (R * option Z) :=
  let old := accounts s !! (who, c) in
  let existed := bool_decide (is_Some old) in
  match f (default no_account old) existed s with
  | (s, Ok (account, result)) =>
      let maybe_endowed := if existed then None else Some (free account) in
      let maybe_dust := dust_of account in
      let new := stored account in
      let exists_ := bool_decide (is_Some new) in
      let s := set_accounts (partial_alter (fun _ => new) (who, c) (accounts s)) s in
      let s := if existed && negb exists_
               then on_rest (OnKilledTokenAccount who c) (on_rest (dec_providers who) s)
               else if negb existed && exists_
               then on_rest (OnNewTokenAccount who c) (on_rest (inc_providers who) s)
               else s in
      let s := match maybe_endowed with Some v => emit (EvEndowed c who v) s | None => s end in
      let s := match maybe_dust with
               | Some d => emit (EvDustLost c who d) (on_dust who c d s)
               | None => s
               end in
      (s, Ok (result, maybe_dust))
  | (s, Err e) => (s, Err e)
  | (s, Panic) => (s, Panic)
  end.
End try_mutate_account.

(** [mutate_account], whose closure does not fail. *)
Definition mutate_account {R} (who : A) (c : C) (f : AccountData -> bool -> St -> St * (AccountData * R))
    (s : St) : St * (option R) :=
  match try_mutate_account (E := Empty_set) who c
          (fun d existed s => let '(s, r) := f d existed s in (s, Ok r)) s with
  | (s, Ok (r, _)) => (s, Some r)
  | (s, _) => (s, None)
  end.

Definition set_free_balance (c : C) (who : A) (amount : Z) (s : St) : St :=
  (mutate_account who c (fun d _ s =>
     (emit (EvBalanceSet c who amount (reserved d)) s, (mkAcc amount (reserved d) (frozen d), tt))) s).1.
Definition set_reserved_balance (c : C) (who : A) (amount : Z) (s : St) : St :=
  (mutate_account who c (fun d _ s =>
     (emit (EvBalanceSet c who (free d) amount) s, (mkAcc (free d) amount (frozen d), tt))) s).1.

(** [ensure_can_withdraw]. *)
Definition ensure_can_withdraw (c : C) (who : A) (amount : Z) (s : St) : res DispatchError unit :=
  if amount =? 0 then Ok tt
  else
    let? new_balance := ok_or (checked_sub (free_balance s c who) amount) (tok_err TokensError.BalanceTooLow) in
    rensure (frozen (account_of s who c) <=? new_balance) (tok_err TokensError.LiquidityRestrictions).

(** [deposit_consequence] and [withdraw_consequence]; the types are those of
    [frame_support], of which this pallet uses a part. *)
Inductive DepositConsequence : Type :=
| DepositSuccess | DepositOverflow | BelowMinimum | CannotCreate | DepositUnknownAsset.
Inductive WithdrawConsequence : Type :=
| WithdrawSuccess | Underflow | BalanceLow | WouldDie | Frozen | ReducedToZero (dust : Z)
| WithdrawOverflow | WithdrawUnknownAsset.

Definition deposit_consequence (c : C) (amount : Z) (d : AccountData) (s : St) : DepositConsequence :=
  if amount =? 0 then DepositSuccess
  else match checked_add U128_MAX (total_issuance s c) amount with
       | None => DepositOverflow
       | Some _ =>
           match checked_add U128_MAX (total d) amount with
           | None => DepositOverflow
           | Some new_total =>
               if new_total <? ExistentialDeposits cfg c then BelowMinimum else DepositSuccess
           end
       end.

Definition withdraw_consequence (who : A) (c : C) (amount : Z) (d : AccountData) (s : St)
  : WithdrawConsequence :=
  if amount =? 0 then WithdrawSuccess
  else match checked_sub (total_issuance s c) amount with
       | None => Underflow
       | Some _ =>
           match checked_sub (total d) amount with
           | None => BalanceLow
           | Some new_total =>
               let tail success :=
                 match checked_sub (free d) amount with
                 | None => BalanceLow
                 | Some new_free => if new_free <? frozen d then Frozen else success
                 end in
               if new_total <? ExistentialDeposits cfg c
               then if can_dec_provider (tok_rest s) who then tail (ReducedToZero new_total) else WouldDie
               else tail WithdrawSuccess
           end
       end.

(** Whether an account left with [d] will be reaped or swept. *)
Definition would_be_dead (who : A) (c : C) (d : AccountData) : bool :=
  if total d <? ExistentialDeposits cfg c
  then if total d =? 0 then true else negb (DustRemovalWhitelist cfg who)
  else false.

Definition allows_death (er : ExistenceRequirement) : bool :=
  match er with AllowDeath => true | Interfaces.KeepAlive => false end.

(** ** Transfers, withdrawals and deposits *)

Definition do_transfer (c : C) (from to : A) (amount : Z) (er : ExistenceRequirement) : MT unit :=
  if (amount =? 0) || bool_decide (from = to) then ret tt
  else
    do! hook (PreTransfer c from to amount) in
    do! try_mutate_account to c (fun to_account _ =>
          bind (try_mutate_account from c (fun from_account _ s =>
            match
              (let? from_free := ok_or (checked_sub (free from_account) amount) (tok_err TokensError.BalanceTooLow) in
               let? to_free := ok_or (checked_add U128_MAX (free to_account) amount) overflow in
               let from_account' := mkAcc from_free (reserved from_account) (frozen from_account) in
               let to_account' := mkAcc to_free (reserved to_account) (frozen to_account) in
               let? _ := rensure ((ExistentialDeposits cfg c <=? total to_account') || DustRemovalWhitelist cfg to)
                                 (tok_err TokensError.ExistentialDeposit) in
               let? _ := ensure_can_withdraw c from amount s in
               let allow_death := allows_death er && can_dec_provider (tok_rest s) from in
               let? _ := rensure (allow_death || negb (would_be_dead from c from_account'))
                                 (tok_err TokensError.KeepAlive) in
               Ok (from_account', to_account'))
            with
            | Ok r => (s, Ok r)
            | Err e => (s, Err e)
            | Panic => (s, Panic)
            end))
          (fun r => ret (r.1, tt))) in
    do! hook (PostTransfer c from to amount) in
    mmodify (emit (EvTransfer c from to amount)).

Definition do_withdraw (c : C) (who : A) (amount : Z) (er : ExistenceRequirement)
    (change_total_issuance : bool) : MT unit :=
  if amount =? 0 then ret tt
  else
    do! try_mutate_account who c (fun account _ =>
          let! s := mget in
          do! mlift (ensure_can_withdraw c who amount s) in
          let previous_total := total account in
          let account' := mkAcc (sat_sub (free account) amount) (reserved account) (frozen account) in
          let would_kill := would_be_dead who c account' &&
            ((ExistentialDeposits cfg c <=? previous_total) || negb (previous_total =? 0)) in
          do! mensure (allows_death er || negb would_kill) (tok_err TokensError.KeepAlive) in
          do! mmodify (fun s => if change_total_issuance
                                then set_issuance c (sat_sub (total_issuance s c) amount) s else s) in
          do! mmodify (emit (EvWithdrawn c who amount)) in
          ret (account', tt)) in
    ret tt.

Definition do_deposit (c : C) (who : A) (amount : Z) (require_existed change_total_issuance : bool)
  : MT Z :=
  if amount =? 0 then ret amount
  else
    do! hook (PreDeposit c who amount) in
    do! try_mutate_account who c (fun account existed =>
          do! (if require_existed
               then mensure existed (tok_err TokensError.DeadAccount)
               else mensure ((ExistentialDeposits cfg c <=? amount) || existed || DustRemovalWhitelist cfg who)
                            (tok_err TokensError.ExistentialDeposit)) in
          let! s := mget in
          let! new_total_issuance := mlift (ok_or (checked_add U128_MAX (total_issuance s c) amount) overflow) in
          do! mmodify (fun s => if change_total_issuance then set_issuance c new_total_issuance s else s) in
          ret (mkAcc (sat_add U128_MAX (free account) amount) (reserved account) (frozen account), tt)) in
    do! hook (PostDeposit c who amount) in
    do! mmodify (emit (EvDeposited c who amount)) in
    ret amount.

(** ** [MultiCurrency] and [MultiCurrencyExtended] *)

Definition can_slash (s : St) (c : C) (who : A) (value : Z) : bool :=
  if value =? 0 then true else value <=? free_balance s c who.

Definition slash (c : C) (who : A) (amount : Z) (s : St) : St * Z :=
  if amount =? 0 then (s, amount)
  else
    let s := on_rest (OnSlash c who amount) s in
    let account := account_of s who c in
    let free_slashed := Z.min (free account) amount in
    let remaining := sat_sub amount free_slashed in
    let s := if free_slashed =? 0 then s
             else set_free_balance c who (sat_sub (free account) free_slashed) s in
    let reserved_slashed := Z.min (reserved account) remaining in
    let '(s, remaining) :=
      if reserved_slashed =? 0 then (s, remaining)
      else (set_reserved_balance c who (sat_sub (reserved account) reserved_slashed) s,
            sat_sub remaining reserved_slashed) in
    let s := set_issuance c (sat_sub (total_issuance s c) (sat_sub amount remaining)) s in
    (emit (EvSlashed c who free_slashed reserved_slashed) s, remaining).

Definition deposit (c : C) (who : A) (amount : Z) : MT unit :=
  do! do_deposit c who amount false true in ret tt.
Definition withdraw (c : C) (who : A) (amount : Z) : MT unit :=
  do_withdraw c who amount AllowDeath true.

#[export] Instance tokens_multi_currency : MultiCurrency St A C := {
  mc_minimum_balance := ExistentialDeposits cfg;
  mc_total_issuance := total_issuance;
  mc_total_balance := total_balance;
  mc_free_balance := free_balance;
  mc_ensure_can_withdraw c who amount := fun s => (s, ensure_can_withdraw c who amount s);
  mc_transfer c from to amount := do_transfer c from to amount AllowDeath;
  mc_deposit := deposit;
  mc_withdraw := withdraw;
  mc_can_slash := can_slash;
  mc_slash := slash;
}.

Definition update_balance (c : C) (who : A) (by_amount : Z) : MT unit :=
  if by_amount =? 0 then ret tt
  else
    let by_amount_abs := if by_amount =? I128_MIN then I128_MAX else Z.abs by_amount in
    let! by_balance := mlift (if in_ub U128_MAX by_amount_abs then Ok by_amount_abs
                              else Err (tok_err TokensError.AmountIntoBalanceFailed)) in
    if 0 <? by_amount then deposit c who by_balance else withdraw c who by_balance.

(** ** Locks *)

(** [update_locks].  The account is written before the number of locks is checked. *)
Definition max_lock (ls : list BalanceLock) : Z := foldl (fun m l => Z.max m (lock_amount l)) 0 ls.

Definition update_locks (c : C) (who : A) (ls : list BalanceLock) : MT unit :=
  let! s := mget in
  let prev := frozen (account_of s who c) in
  let after := max_lock ls in
  do! mmodify (fun s => (mutate_account who c (fun d _ s =>
                           (s, (mkAcc (free d) (reserved d) after, tt))) s).1) in
  let! s := mget in
  let existed := bool_decide (is_Some (locks s !! (who, c))) in
  do! (if bool_decide (ls = [])
       then mmodify (fun s =>
              let s := set_locks (delete (who, c) (locks s)) s in
              if existed then on_rest (dec_consumers who) s else s)
       else
         do! mensure (length ls <=? MaxLocks cfg)%nat (tok_err TokensError.MaxLocksExceeded) in
         mmodify (fun s =>
              let s := set_locks (<[(who, c) := ls]> (locks s)) s in
              if existed then s else on_rest (inc_consumers who) s)) in
  mmodify (fun s => if prev <? after then emit (EvLocked c who (sat_sub after prev)) s
                    else if after <? prev then emit (EvUnlocked c who (sat_sub prev after)) s
                    else s).

(** The iterations of [set_lock] and [extend_lock]: the first lock with the identifier
    takes the new one, later ones are dropped, and the new one is pushed if there was
    none.  [put old] is what stands in for the old lock. *)
Fixpoint replace_lock (put : BalanceLock -> BalanceLock) (id : Z) (new : option BalanceLock)
    (ls : list BalanceLock) : list BalanceLock :=
  match ls with
  | [] => match new with Some l => [l] | None => [] end
  | l :: ls' =>
      if lock_id l =? id
      then match new with
           | Some _ => put l :: replace_lock put id None ls'
           | None => replace_lock put id None ls'
           end
      else l :: replace_lock put id new ls'
  end.

Definition set_lock (id : Z) (c : C) (who : A) (amount : Z) : MT unit :=
  if amount =? 0 then ret tt
  else
    let! s := mget in
    let new := mkLock id amount in
    do! update_locks c who (replace_lock (fun _ => new) id (Some new) (locks_of s who c)) in
    mmodify (emit (EvLockSet id c who amount)).

Definition extend_lock (id : Z) (c : C) (who : A) (amount : Z) : MT unit :=
  if amount =? 0 then ret tt
  else
    let! s := mget in
    update_locks c who
      (replace_lock (fun l => mkLock (lock_id l) (Z.max (lock_amount l) amount)) id
         (Some (mkLock id amount)) (locks_of s who c)).

Definition remove_lock (id : Z) (c : C) (who : A) : MT unit :=
  let! s := mget in
  do! update_locks c who (filter (fun l => lock_id l <> id) (locks_of s who c)) in
  mmodify (emit (EvLockRemoved id c who)).

(** ** Reserves *)

Definition can_reserve (s : St) (c : C) (who : A) (value : Z) : bool :=
  if value =? 0 then true else is_ok (ensure_can_withdraw c who value s).

Definition slash_reserved (c : C) (who : A) (value : Z) (s : St) : St * Z :=
  if value =? 0 then (s, value)
  else
    let s := on_rest (OnSlash c who value) s in
    let reserved_bal := reserved_balance s c who in
    let actual := Z.min reserved_bal value in
    let s := (mutate_account who c (fun d _ s =>
                (s, (mkAcc (free d) (sat_sub reserved_bal actual) (frozen d), tt))) s).1 in
    let s := set_issuance c (sat_sub (total_issuance s c) actual) s in
    (emit (EvSlashed c who 0 actual) s, sat_sub value actual).

Definition reserve (c : C) (who : A) (value : Z) : MT unit :=
  if value =? 0 then ret tt
  else
    let! s := mget in
    do! mlift (ensure_can_withdraw c who value s) in
    mmodify (fun s => (mutate_account who c (fun d _ s =>
      (emit (EvReserved c who value) s,
       (mkAcc (sat_sub (free d) value) (sat_add U128_MAX (reserved d) value) (frozen d), tt))) s).1).

Definition unreserve (c : C) (who : A) (value : Z) (s : St) : St * Z :=
  if value =? 0 then (s, value)
  else
    let '(s, r) := mutate_account who c (fun d _ s =>
      let actual := Z.min (reserved d) value in
      (emit (EvUnreserved c who actual) s,
       (mkAcc (sat_add U128_MAX (free d) actual) (sat_sub (reserved d) actual) (frozen d),
        sat_sub value actual))) s in
    (s, default value r).

Definition repatriate_reserved (c : C) (slashed beneficiary : A) (value : Z) (status : BalanceStatus)
    (s : St) : St * Z :=
  if value =? 0 then (s, value)
  else if bool_decide (slashed = beneficiary) then
    match status with
    | Free => unreserve c slashed value s
    | Reserved => (s, sat_sub value (reserved_balance s c slashed))
    end
  else
    let from_account := account_of s slashed c in
    let to_account := account_of s beneficiary c in
    let actual := Z.min (reserved from_account) value in
    let s := match status with
             | Free => set_free_balance c beneficiary (sat_add U128_MAX (free to_account) actual) s
             | Reserved => set_reserved_balance c beneficiary (sat_add U128_MAX (reserved to_account) actual) s
             end in
    let s := set_reserved_balance c slashed (sat_sub (reserved from_account) actual) s in
    (emit (EvReserveRepatriated c slashed beneficiary actual status) s, sat_sub value actual).

(** ** Named reserves, sorted by identifier *)

Definition find_reserve (rs : list ReserveData) (id : Z) : nat + nat := search (reserve_id <$> rs) id.
Definition amount_at (rs : list ReserveData) (i : nat) : Z :=
  match rs !! i with Some r => reserve_amount r | None => 0 end.
(** [reserves[i].amount = v] and [reserves.insert(i, ..)]. *)
Definition set_amount_at (i : nat) (v : Z) (rs : list ReserveData) : list ReserveData :=
  alter (fun r => mkReserve (reserve_id r) v) i rs.
Definition insert_reserve (i : nat) (r : ReserveData) (rs : list ReserveData) : list ReserveData :=
  take i rs ++ r :: drop i rs.
Definition remove_reserve (i : nat) (rs : list ReserveData) : list ReserveData :=
  take i rs ++ drop (S i) rs.
Definition put_reserves (who : A) (c : C) (rs : list ReserveData) (s : St) : St :=
  set_reserves (<[(who, c) := rs]> (reserves s)) s.

Definition reserved_balance_named (s : St) (id : Z) (c : C) (who : A) : Z :=
  let rs := reserves_of s who c in
  match find_reserve rs id with inl i => amount_at rs i | inr _ => 0 end.

Definition reserve_named (id : Z) (c : C) (who : A) (value : Z) : MT unit :=
  if value =? 0 then ret tt
  else
    let! s := mget in
    let rs := reserves_of s who c in
    let! rs' := mlift
      (match find_reserve rs id with
       | inl i => Ok (set_amount_at i (sat_add U128_MAX (amount_at rs i) value) rs)
       | inr i => if (length rs <? MaxReserves cfg)%nat
                  then Ok (insert_reserve i (mkReserve id value) rs)
                  else Err (tok_err TokensError.TooManyReserves)
       end) in
    do! reserve c who value in
    mmodify (put_reserves who c rs').

Definition unreserve_named (id : Z) (c : C) (who : A) (value : Z) (s : St) : St * Z :=
  if value =? 0 then (s, 0)
  else match reserves s !! (who, c) with
       | None => (s, value)
       | Some rs =>
           match find_reserve rs id with
           | inl i =>
               let to_change := Z.min (amount_at rs i) value in
               let '(s, remain) := unreserve c who to_change s in
               let actual := sat_sub to_change remain in
               let left := sat_sub (amount_at rs i) actual in
               let rs' := if left =? 0
                          then if (length rs =? 1)%nat then None else Some (remove_reserve i rs)
                          else Some (set_amount_at i left rs) in
               (set_reserves (partial_alter (fun _ => rs') (who, c) (reserves s)) s, sat_sub value actual)
           | inr _ => (put_reserves who c rs s, value)
           end
       end.

Definition slash_reserved_named (id : Z) (c : C) (who : A) (value : Z) (s : St) : St * Z :=
  if value =? 0 then (s, 0)
  else
    let rs := reserves_of s who c in
    match find_reserve rs id with
    | inl i =>
        let to_change := Z.min (amount_at rs i) value in
        let '(s, remain) := slash_reserved c who to_change s in
        let actual := sat_sub to_change remain in
        let s := emit (EvSlashed c who 0 actual) s in
        (put_reserves who c (set_amount_at i (sat_sub (amount_at rs i) actual) rs) s, sat_sub value actual)
    | inr _ => (put_reserves who c rs s, value)
    end.

Definition repatriate_reserved_named (id : Z) (c : C) (slashed beneficiary : A) (value : Z)
    (status : BalanceStatus) : MT Z := fun s =>
  if value =? 0 then (s, Ok 0)
  else if bool_decide (slashed = beneficiary) then
    match status with
    | Free => let '(s, r) := unreserve_named id c slashed value s in (s, Ok r)
    | Reserved => (s, Ok (sat_sub value (reserved_balance_named s id c slashed)))
    end
  else
    let rs := reserves_of s slashed c in
    match find_reserve rs id with
    | inr _ => (put_reserves slashed c rs s, Ok value)
    | inl i =>
        let to_change := Z.min (amount_at rs i) value in
        let bs := reserves_of s beneficiary c in
        let '(s, remain) := repatriate_reserved c slashed beneficiary to_change status s in
        let actual := sat_sub to_change remain in
        let done_ s :=
          (put_reserves slashed c (set_amount_at i (sat_sub (amount_at rs i) actual) rs) s,
           Ok (sat_sub value actual)) in
        match status with
        | Free => done_ s
        | Reserved =>
            match find_reserve bs id with
            | inl j => done_ (put_reserves beneficiary c
                                (set_amount_at j (sat_add U128_MAX (amount_at bs j) actual) bs) s)
            | inr j =>
                if (length bs <? MaxReserves cfg)%nat
                then done_ (put_reserves beneficiary c (insert_reserve j (mkReserve id actual) bs) s)
                else (s, Err (tok_err TokensError.TooManyReserves))
            end
        end
    end.

(** ** The [fungibles] traits *)

Inductive Preservation : Type := Expendable | Protect | Preserve.
Inductive Precision : Type := Exact | BestEffort.
Inductive Restriction : Type := RestrictFree | OnHold.

Definition reducible_balance (s : St) (c : C) (who : A) (p : Preservation) : Z :=
  let a := account_of s who c in
  let liquid := sat_sub (free a) (frozen a) in
  if can_dec_provider (tok_rest s) who && match p with Protect => false | _ => true end
  then liquid
  else sat_sub liquid (sat_sub (ExistentialDeposits cfg c) (sat_sub (total a) liquid)).

Definition can_deposit (s : St) (c : C) (who : A) (amount : Z) : DepositConsequence :=
  deposit_consequence c amount (account_of s who c) s.
Definition can_withdraw (s : St) (c : C) (who : A) (amount : Z) : WithdrawConsequence :=
  withdraw_consequence who c amount (account_of s who c) s.
Definition asset_exists (s : St) (c : C) : bool := bool_decide (is_Some (issued s !! c)).

(** [into_result] of the two consequences belongs to [frame_support]. *)
Definition mint_into (into_result : DepositConsequence -> res DispatchError unit)
    (c : C) (who : A) (amount : Z) : MT Z :=
  let! s := mget in
  do! mlift (into_result (deposit_consequence c amount (account_of s who c) s)) in
  do_deposit c who amount false true.

Definition burn_from (into_result : WithdrawConsequence -> res DispatchError Z)
    (c : C) (who : A) (amount : Z) : MT Z :=
  let! s := mget in
  let! extra := mlift (into_result (withdraw_consequence who c amount (account_of s who c) s)) in
  let actual := sat_add U128_MAX amount extra in
  do! do_withdraw c who actual AllowDeath true in
  ret actual.

Definition fungibles_transfer (c : C) (source dest : A) (amount : Z) (p : Preservation) : MT Z :=
  let er := match p with Expendable => AllowDeath | _ => Interfaces.KeepAlive end in
  do! do_transfer c source dest amount er in
  ret amount.

Definition write_balance (c : C) (who : A) (amount : Z) : MT (option Z) :=
  let! s := mget in
  let max_reduction := reducible_balance s c who Expendable in
  let! r := try_mutate_account who c (fun d _ =>
              do! mensure (sat_sub (free d) amount <=? max_reduction) (tok_err TokensError.BalanceTooLow) in
              do! mmodify (emit (EvBalanceSet c who amount (reserved d))) in
              ret (mkAcc amount (reserved d) (frozen d), tt)) in
  ret r.2.

Definition set_total_issuance (c : C) (amount : Z) (s : St) : St :=
  emit (EvTotalIssuanceSet c amount) (set_issuance c amount s).

Definition decrease_balance (c : C) (who : A) (amount : Z) (precision : Precision) (p : Preservation) : MT Z :=
  let! s := mget in
  let old_balance := free_balance s c who in
  let amount := match precision with
                | BestEffort => Z.min amount (reducible_balance s c who p)
                | Exact => amount
                end in
  let! new_balance := mlift (ok_or (checked_sub old_balance amount) (Token "Funds are unavailable")) in
  do! write_balance c who new_balance in
  ret (sat_sub old_balance new_balance).

Definition can_hold (s : St) (c : C) (who : A) (amount : Z) : bool :=
  let a := account_of s who c in
  let min_balance := Z.max (ExistentialDeposits cfg c) (frozen a) in
  match checked_add U128_MAX (reserved a) amount with
  | None => false
  | Some _ =>
      match checked_add U128_MAX min_balance amount with
      | None => false
      | Some required_free => required_free <=? free a
      end
  end.

Definition hold (c : C) (who : A) (amount : Z) : MT unit := reserve c who amount.

Definition release (c : C) (who : A) (amount : Z) (precision : Precision) : MT Z :=
  if amount =? 0 then ret amount
  else
    let! r := try_mutate_account who c (fun a _ =>
      let new_free := sat_add U128_MAX (free a) (Z.min amount (reserved a)) in
      let actual := sat_sub new_free (free a) in
      do! mensure (match precision with BestEffort => true | Exact => actual =? amount end)
                  (tok_err TokensError.BalanceTooLow) in
      do! mmodify (emit (EvUnreserved c who amount)) in
      ret (mkAcc new_free (sat_sub (reserved a) actual) (frozen a), actual)) in
    ret r.1.

Definition transfer_on_hold (c : C) (source dest : A) (amount : Z) (precision : Precision)
    (restriction : Restriction) : MT Z :=
  let status := match restriction with OnHold => Reserved | RestrictFree => Free end in
  let! s := mget in
  do! mensure ((amount <=? reserved_balance s c source) ||
               match precision with BestEffort => true | Exact => false end)
              (tok_err TokensError.BalanceTooLow) in
  let! gap := (fun s => let '(s, gap) := repatriate_reserved c source dest amount status s in (s, Ok gap)) in
  ret (sat_sub amount gap).

Definition set_balance_on_hold (c : C) (who : A) (amount : Z) : MT unit :=
  do! try_mutate_account who c (fun d _ =>
    let! sum := mlift (ok_or (checked_add U128_MAX (free d) (reserved d)) overflow) in
    let! new_free := mlift (ok_or (checked_sub sum amount) (Token "Account cannot be created")) in
    do! mmodify (emit (EvBalanceSet c who new_free amount)) in
    ret (mkAcc new_free amount (frozen d), tt)) in
  ret tt.

(** ** [CurrencyAdapter] and its imbalances

    An imbalance is the amount it stands for; the functions below return it, and
    dropping it settles the total issuance. *)
Definition drop_positive (c : C) (v : Z) (s : St) : St :=
  set_issuance c (sat_add U128_MAX (total_issuance s c) v) s.
Definition drop_negative (c : C) (v : Z) (s : St) : St :=
  set_issuance c (sat_sub (total_issuance s c) v) s.

Definition adapter_burn (c : C) (amount : Z) (s : St) : St * Z :=
  if amount =? 0 then (s, 0)
  else
    let '(v, amount) := match checked_sub (total_issuance s c) amount with
                        | Some v => (v, amount)
                        | None => (0, total_issuance s c)
                        end in
    let s := set_issuance c v s in
    (emit (EvTotalIssuanceSet c (total_issuance s c)) s, amount).

Definition adapter_issue (c : C) (amount : Z) (s : St) : St * Z :=
  if amount =? 0 then (s, 0)
  else
    let '(v, amount) := match checked_add U128_MAX (total_issuance s c) amount with
                        | Some v => (v, amount)
                        | None => (U128_MAX, sat_sub U128_MAX (total_issuance s c))
                        end in
    let s := set_issuance c v s in
    (emit (EvTotalIssuanceSet c (total_issuance s c)) s, amount).

Definition adapter_slash (c : C) (who : A) (value : Z) (s : St) : St * (Z * Z) :=
  if value =? 0 then (s, (0, value))
  else
    let account := account_of s who c in
    let free_slashed := Z.min (free account) value in
    let remaining := sat_sub value free_slashed in
    let s := if free_slashed =? 0 then s
             else set_free_balance c who (sat_sub (free account) free_slashed) s in
    if remaining =? 0 then (emit (EvSlashed c who value 0) s, (value, remaining))
    else
      let reserved_slashed := Z.min (reserved account) remaining in
      let s := set_reserved_balance c who (sat_sub (reserved account) reserved_slashed) s in
      (emit (EvSlashed c who free_slashed reserved_slashed) s,
       (sat_add U128_MAX free_slashed reserved_slashed, sat_sub remaining reserved_slashed)).

Definition adapter_deposit_into_existing (c : C) (who : A) (value : Z) : MT Z :=
  do! do_deposit c who value true false in ret value.
Definition adapter_deposit_creating (c : C) (who : A) (value : Z) (s : St) : St * Z :=
  let '(s, r) := do_deposit c who value false false s in (s, if is_ok r then value else 0).
Definition adapter_withdraw (c : C) (who : A) (value : Z) (liveness : ExistenceRequirement) : MT Z :=
  do! do_withdraw c who value liveness false in ret value.

(** [inl v] is a positive imbalance, [inr v] a negative one. *)
Definition adapter_make_free_balance_be (c : C) (who : A) (value : Z) (s : St) : St * (Z + Z) :=
  match try_mutate_account who c (fun account existed =>
          do! mensure ((ExistentialDeposits cfg c <=? sat_add U128_MAX value (reserved account)) || existed) tt in
          let imbalance := if free account <=? value
                           then inl (sat_sub value (free account))
                           else inr (sat_sub (free account) value) in
          do! mmodify (emit (EvBalanceSet c who value (reserved account))) in
          ret (mkAcc value (reserved account) (frozen account), imbalance)) s with
  | (s, Ok (imbalance, _)) => (s, imbalance)
  | (s, _) => (s, inl 0)
  end.

Definition adapter_slash_reserved (c : C) (who : A) (value : Z) (s : St) : St * (Z * Z) :=
  let '(s, actual) := slash_reserved c who value s in (s, (0, actual)).
(** The results of the lock operations are dropped. *)
Definition adapter_set_lock (id : Z) (c : C) (who : A) (amount : Z) (s : St) : St :=
  (set_lock id c who amount s).1.

(** ** [TransferAll] *)

Fixpoint transfer_each (source dest : A) (l : list (C * AccountData)) : MT unit :=
  match l with
  | [] => ret tt
  | (c, d) :: l' =>
      do! do_transfer c source dest (free d) AllowDeath in
      transfer_each source dest l'
  end.
(** [iter_prefix(source)]: the currencies of the account.  A transfer changes the
    entries of its own currency only, so the values are those before the loop. *)
Definition entries_of (s : St) (who : A) : list (C * AccountData) :=
  (fun e => (e.1.2, e.2)) <$> filter (fun e => e.1.1 = who) (map_to_list (accounts s)).
Definition pallet_transfer_all (source dest : A) : MT unit :=
  transactional (let! s := mget in transfer_each source dest (entries_of s source)).

(** ** Calls and genesis *)

Section calls.
(** [T::Lookup::lookup]. *)
Context {Source : Type} (lookup : Source -> res DispatchError A).

Definition transfer_call (origin : Origin A) (dest : Source) (c : C) (amount : Z) : MT unit :=
  let! from := mlift (ensure_signed origin) in
  let! to := mlift (lookup dest) in
  do_transfer c from to amount AllowDeath.

Definition transfer_all_call (origin : Origin A) (dest : Source) (c : C) (keep_alive : bool) : MT unit :=
  let! from := mlift (ensure_signed origin) in
  let! to := mlift (lookup dest) in
  let p := if keep_alive then Protect else Expendable in
  let! s := mget in
  do! fungibles_transfer c from to (reducible_balance s c from p) p in
  ret tt.

Definition transfer_keep_alive (origin : Origin A) (dest : Source) (c : C) (amount : Z) : MT unit :=
  let! from := mlift (ensure_signed origin) in
  let! to := mlift (lookup dest) in
  do_transfer c from to amount Interfaces.KeepAlive.

Definition force_transfer (origin : Origin A) (source dest : Source) (c : C) (amount : Z) : MT unit :=
  do! mlift (ensure_root origin) in
  let! from := mlift (lookup source) in
  let! to := mlift (lookup dest) in
  do_transfer c from to amount AllowDeath.

Definition set_balance (origin : Origin A) (src : Source) (c : C) (new_free new_reserved : Z) : MT unit :=
  do! mlift (ensure_root origin) in
  let! who := mlift (lookup src) in
  do! try_mutate_account who c (fun account _ =>
    let! new_total := mlift (ok_or (checked_add U128_MAX new_free new_reserved) overflow) in
    let '(new_total, new_free, new_reserved) :=
      if new_total <? ExistentialDeposits cfg c then (0, 0, 0) else (new_total, new_free, new_reserved) in
    let old_total := total account in
    let! s := mget in
    let! issuance := mlift
      (if old_total <? new_total
       then ok_or (checked_add U128_MAX (total_issuance s c) (sat_sub new_total old_total)) overflow
       else if new_total <? old_total
       then ok_or (checked_sub (total_issuance s c) (sat_sub old_total new_total)) underflow
       else Ok (total_issuance s c)) in
    do! mmodify (fun s => if old_total =? new_total then s else set_issuance c issuance s) in
    do! mmodify (emit (EvBalanceSet c who new_free new_reserved)) in
    ret (mkAcc new_free new_reserved (frozen account), tt)) in
  ret tt.
End calls.

(** [GenesisConfig::build]; its assertions panic. *)
Fixpoint endow (l : list (A * C * Z)) : MT unit :=
  match l with
  | [] => ret tt
  | (who, c, v) :: l' =>
      do! (if ExistentialDeposits cfg c <=? v then ret tt else mlift Panic) in
      do! mmodify (fun s => (mutate_account who c (fun d _ s =>
                     (s, (mkAcc v (reserved d) (frozen d), tt))) s).1) in
      let! s := mget in
      let! t := mlift (expect (checked_add U128_MAX (total_issuance s c) v)) in
      do! mmodify (set_issuance c t) in
      endow l'
  end.
Definition genesis_build (balances : list (A * C * Z)) : MT unit :=
  do! (if bool_decide (NoDup ((fun e => e.1) <$> balances)) then ret tt else mlift Panic) in
  endow balances.
End pallet.

(** ** The handlers of dust *)
Section dust.
Context {X A C : Type} `{Countable A} `{Countable C}.
Context `{SystemRefs X A} `{TokenHooks X A C}.
Variable cfg : TokensConfig A C.

(** The handler [()] of the runtime. *)
Definition no_dust (who : A) (c : C) (amount : Z) (s : Tokens X A C) : Tokens X A C := s.

(** [TransferDust] and [BurnDust].  The transfer may leave dust itself, which the same
    handler gets; [n] bounds the depth. *)
Fixpoint TransferDust (n : nat) (treasury who : A) (c : C) (amount : Z) (s : Tokens X A C) : Tokens X A C :=
  match n with
  | O => s
  | S n' => (do_transfer cfg (TransferDust n' treasury) c who treasury amount AllowDeath s).1
  end.
Fixpoint BurnDust (n : nat) (who : A) (c : C) (amount : Z) (s : Tokens X A C) : Tokens X A C :=
  match n with
  | O => s
  | S n' => (do_withdraw cfg (BurnDust n') c who amount AllowDeath true s).1
  end.
End dust.

(** ** Imbalances *)
Inductive SameOrOther : Type := Same (v : Z) | OtherSide (v : Z) | Neither.
Definition imbalance_split (v amount : Z) : Z * Z :=
  let first := Z.min v amount in (first, sat_sub v first).
Definition imbalance_merge (v w : Z) : Z := sat_add U128_MAX v w.
Definition imbalance_offset (a b : Z) : SameOrOther :=
  if b <? a then Same (sat_sub a b) else if a <? b then OtherSide (sat_sub b a) else Neither.
