(* ===== verification/TokensLedger.v ===== *)
(** * Properties of the multi-currency ledger

    What [Tokens] preserves: the issuance of every currency is what its accounts hold,
    locks are enforced, transfers are exact.  Operations that write one account are
    covered by [ledger_write]; operations in several writes by [drift], which keeps
    track of the amount on the way; [keeps] is the frame of the operations that leave
    locks and named reserves alone.  [step] collects the operations, [reachable] the
    ledgers they lead to. *)

From stdpp Require Import base gmap list strings sorting.
From Stdlib Require Import ZArith Lia.
From S2P Require Import Prelude Interfaces Tokens.

Local Open Scope Z_scope.

(** What an account holds, and what all accounts hold of a currency. *)
Definition tot (d : AccountData) : Z := free d + reserved d.
Definition acc_ok (d : AccountData) : Prop := 0 <= free d /\ 0 <= reserved d /\ 0 <= frozen d.
Definition held `{Countable A} `{Countable C} (c : C) (m : gmap (A * C) AccountData) : Z :=
  map_ksum (fun k d => if decide (k.2 = c) then tot d else 0) m.

Section writes.
Context {X A C : Type} `{Countable A} `{Countable C}.
Variable cfg : TokensConfig A C.
Implicit Types m : gmap (A * C) AccountData.

Definition lk m (who : A) (c : C) : AccountData := default no_account (m !! (who, c)).
Definition wr (c : C) (who : A) (a : AccountData) m : gmap (A * C) AccountData :=
  partial_alter (fun _ => stored cfg c a) (who, c) m.
Definition all_ok m : Prop := map_Forall (fun _ => acc_ok) m.

Lemma no_account_ok : acc_ok no_account.
Proof. unfold acc_ok. simpl. lia. Qed.
Lemma lk_ok m who c : all_ok m -> acc_ok (lk m who c).
Proof.
  intros Hm. unfold lk. destruct (m !! (who, c)) eqn:E; simpl; [exact (Hm _ _ E)|apply no_account_ok].
Qed.

Lemma total_exact d : tot d <= U128_MAX -> total d = tot d.
Proof. apply sat_add_exact. Qed.
Lemma total_zero d : acc_ok d -> total d = 0 -> tot d = 0.
Proof. unfold acc_ok, total, tot. uints. Qed.
Lemma total_nonneg d : acc_ok d -> 0 <= total d.
Proof. unfold acc_ok, total, tot. uints. Qed.

Lemma stored_cases c a :
  acc_ok a -> stored cfg c a = Some a \/ stored cfg c a = None /\ tot a = 0.
Proof.
  intros Ha. unfold stored. destruct (total a <? _); simpl; [|by left].
  destruct (Z.eqb_spec (total a) 0); simpl; [right|by left].
  split; [done|by apply total_zero].
Qed.

Lemma lookup_wr_ne c who a m k : k <> (who, c) -> wr c who a m !! k = m !! k.
Proof. intros. by apply lookup_partial_alter_ne. Qed.
Lemma lk_wr_ne c who a m who' c' : (who', c') <> (who, c) -> lk (wr c who a m) who' c' = lk m who' c'.
Proof. intros. unfold lk. by rewrite lookup_wr_ne. Qed.
Lemma lk_wr_balances c who a m :
  acc_ok a -> free (lk (wr c who a m) who c) = free a /\ reserved (lk (wr c who a m) who c) = reserved a.
Proof.
  intros Ha. unfold lk, wr. rewrite lookup_partial_alter_eq.
  destruct (stored_cases c a Ha) as [->|[-> Ht]]; [done|]. simpl.
  unfold acc_ok, tot in *. lia.
Qed.

Lemma wr_ok c who a m : all_ok m -> acc_ok a -> all_ok (wr c who a m).
Proof.
  intros Hm Ha k d. destruct (decide (k = (who, c))) as [->|].
  - unfold wr. rewrite lookup_partial_alter_eq.
    destruct (stored_cases c a Ha) as [->|[-> _]]; intros [=]; by subst.
  - rewrite lookup_wr_ne by done. apply Hm.
Qed.

Lemma held_nonneg c m : all_ok m -> 0 <= held c m.
Proof.
  intros Hm. apply map_ksum_nonneg. intros k v Hk. destruct (decide _); [|done].
  pose proof (Hm k v Hk). unfold acc_ok, tot in *. lia.
Qed.

(** No account holds more than all accounts do. *)
Lemma lk_held c who m : all_ok m -> 0 <= tot (lk m who c) <= held c m.
Proof.
  intros Hm. unfold lk. pose proof (held_nonneg c m Hm).
  destruct (m !! (who, c)) as [d|] eqn:E; simpl; [|unfold tot; simpl; lia].
  pose proof (Hm _ _ E). split; [unfold acc_ok, tot in *; lia|].
  pose proof (map_ksum_lookup_le (fun k d => if decide (k.2 = c) then tot d else 0) m (who, c) d) as Hle.
  simpl in Hle. rewrite decide_True in Hle by done. apply Hle; [|done].
  intros k v Hk. destruct (decide _); [|done]. pose proof (Hm k v Hk). unfold acc_ok, tot in *. lia.
Qed.

Lemma held_write c c' who (o : option AccountData) m :
  held c' (partial_alter (fun _ => o) (who, c) m) =
  held c' m + (if decide (c = c') then tot (default no_account o) - tot (lk m who c) else 0).
Proof.
  unfold held, lk. set (f := fun (k : A * C) d => if decide (k.2 = c') then tot d else 0).
  assert (forall d, f (who, c) d = if decide (c = c') then tot d else 0) as Hf by done.
  destruct o as [d|], (m !! (who, c)) as [old|] eqn:E; simpl.
  - change (partial_alter (fun _ => Some d) (who, c) m) with (<[(who, c) := d]> m).
    rewrite (map_ksum_insert f _ _ _ old), !Hf by done. destruct (decide _); lia.
  - change (partial_alter (fun _ => Some d) (who, c) m) with (<[(who, c) := d]> m).
    rewrite (map_ksum_insert_new f), !Hf by done. unfold no_account, tot; simpl. destruct (decide _); lia.
  - change (partial_alter (fun _ => None) (who, c) m) with (delete (who, c) m).
    rewrite (map_ksum_delete f _ _ old), !Hf by done. unfold no_account, tot; simpl. destruct (decide _); lia.
  - change (partial_alter (fun _ => None) (who, c) m) with (delete (who, c) m).
    rewrite delete_id by done. unfold no_account, tot; simpl. destruct (decide _); lia.
Qed.

(** Writing an account changes what is held by the difference. *)
Lemma held_wr c c' who a m :
  acc_ok a ->
  held c' (wr c who a m) = held c' m + (if decide (c = c') then tot a - tot (lk m who c) else 0).
Proof.
  intros Ha. unfold wr. rewrite held_write. destruct (decide _); [|done].
  destruct (stored_cases c a Ha) as [->|[-> Ht]]; simpl; unfold tot at 1; simpl; unfold tot in *; lia.
Qed.
End writes.

Section ledger.
Context {X A C : Type} `{Countable A} `{Countable C}.
Context `{SystemRefs X A} `{TokenHooks X A C}.
Variable cfg : TokensConfig A C.
Abbreviation St := (Tokens X A C).
Abbreviation nd := (no_dust (X := X) (A := A) (C := C)).
Implicit Types s : St.

(** Every balance is an amount, and the issuance of a currency is what its accounts
    hold together. *)
Record ledger_inv s : Prop := {
  balances_ok : all_ok (accounts s);
  issuance_held : forall c, total_issuance s c = held c (accounts s);
  issuance_max : forall c, total_issuance s c <= U128_MAX;
}.

(** Only other pallets' storage and the events differ. *)
Definition untouched s s' : Prop :=
  accounts s' = accounts s /\ issued s' = issued s /\ locks s' = locks s /\ reserves s' = reserves s.

Lemma untouched_inv s s' : untouched s s' -> ledger_inv s -> ledger_inv s'.
Proof.
  intros (Ha & Hi & _) [Hok Hh Hm]. split; unfold total_issuance in *; rewrite ?Ha, ?Hi; auto.
Qed.

Lemma hook_untouched {B} (m : M X DispatchError B) s s' r : hook m s = (s', r) -> untouched s s'.
Proof. unfold hook. destruct (m (tok_rest s)). by intros [= <- <-]. Qed.

(** A mutation succeeds exactly when its closure does, and then writes what the
    closure leaves. *)
Lemma try_mutate_Ok {E R} who c f s s' (r : R) d :
  try_mutate_account (E := E) cfg nd who c f s = (s', Ok (r, d)) ->
  exists s1 a, f (lk (accounts s) who c) (bool_decide (is_Some (accounts s !! (who, c)))) s = (s1, Ok (a, r)) /\
    accounts s' = wr cfg c who a (accounts s1) /\
    issued s' = issued s1 /\ locks s' = locks s1 /\ reserves s' = reserves s1.
Proof.
  unfold try_mutate_account, lk.
  destruct (f _ _ s) as [s1 [[a r']|e|]] eqn:Ef; [|discriminate..].
  intros [= <- <- <-]. exists s1, a. split; [done|].
  destruct (bool_decide (is_Some (accounts s !! (who, c)))), (bool_decide (is_Some (stored cfg c a))),
    (dust_of cfg who c a); done.
Qed.

Lemma try_mutate_not_Ok {E R} who c f s s' (r : res E (R * option Z)) :
  try_mutate_account cfg nd who c f s = (s', r) -> is_ok r = false ->
  exists r', f (lk (accounts s) who c) (bool_decide (is_Some (accounts s !! (who, c)))) s = (s', r') /\
    is_ok r' = false.
Proof.
  unfold try_mutate_account, lk.
  destruct (f _ _ s) as [s1 [[a r']|e|]] eqn:Ef; intros [= <- <-]; [done|..]; intros _; eauto.
Qed.

Lemma mutate_account_eq {R} who c f s s' (o : option R) :
  mutate_account cfg nd who c f s = (s', o) ->
  exists s1 a r, f (lk (accounts s) who c) (bool_decide (is_Some (accounts s !! (who, c)))) s = (s1, (a, r)) /\
    o = Some r /\ accounts s' = wr cfg c who a (accounts s1) /\
    issued s' = issued s1 /\ locks s' = locks s1 /\ reserves s' = reserves s1.
Proof.
  unfold mutate_account. destruct (try_mutate_account _ _ _ _ _ _) as [s2 [[r d]|e|]] eqn:Em.
  - intros [= <- <-]. apply try_mutate_Ok in Em as (s1 & a & Hf & Hrest).
    destruct (f _ _ s) as [s1' [a' r']] eqn:Ef. injection Hf as -> -> ->. naive_solver.
  - destruct e.
  - apply try_mutate_not_Ok in Em as (r' & Hf & Hr); [|done].
    destruct (f _ _ s) as [? ?]. injection Hf as <- <-. done.
Qed.

(** A closure that only computes the new account [g] and emits an event. *)
Lemma mutate_account_pure {R} who c (g : AccountData -> AccountData) (ev : AccountData -> St -> St)
    (v : AccountData -> R) s :
  (forall d s, untouched s (ev d s)) ->
  exists s', mutate_account cfg nd who c (fun d _ s => (ev d s, (g d, v d))) s =
      (s', Some (v (lk (accounts s) who c))) /\
    accounts s' = wr cfg c who (g (lk (accounts s) who c)) (accounts s) /\
    issued s' = issued s /\ locks s' = locks s /\ reserves s' = reserves s.
Proof.
  intros Hev. destruct (mutate_account _ _ _ _ _ s) as [s' o] eqn:Em. exists s'.
  apply mutate_account_eq in Em as (s1 & a & r & [= <- <- <-] & -> & Ha & Hi & Hl & Hr).
  destruct (Hev (lk (accounts s) who c) s) as (Ea & Ei & El & Er).
  rewrite Ha, Hi, Hl, Hr, Ea, Ei, El, Er. done.
Qed.

Lemma emit_untouched e s : untouched s (emit e s).
Proof. done. Qed.
Lemma on_rest_untouched f s : untouched s (on_rest f s).
Proof. done. Qed.

(** *** Writes and the invariant *)

(** One account is written and the issuance follows. *)
Lemma ledger_write who c a s s' :
  ledger_inv s -> acc_ok a -> accounts s' = wr cfg c who a (accounts s) ->
  issued s' = issued s \/ (exists v, issued s' = <[c := v]> (issued s)) ->
  total_issuance s' c = total_issuance s c + (tot a - tot (lk (accounts s) who c)) ->
  total_issuance s' c <= U128_MAX -> ledger_inv s'.
Proof.
  intros [Hok Hh Hm] Ha Hacc Hiss Ht Hmax.
  assert (forall c', c <> c' -> total_issuance s' c' = total_issuance s c') as Hne.
  { intros c' Hc. unfold total_issuance. destruct Hiss as [->|[v ->]]; [done|]. by rewrite lookup_insert_ne. }
  split.
  - rewrite Hacc. by apply wr_ok.
  - intros c'. rewrite Hacc, held_wr by done. destruct (decide (c = c')) as [<-|Hc].
    + by rewrite Ht, Hh.
    + by rewrite Hne, Hh, Z.add_0_r.
  - intros c'. destruct (decide (c = c')) as [<-|Hc]; [done|]. by rewrite Hne.
Qed.

Lemma ledger_lk s who c :
  ledger_inv s -> acc_ok (lk (accounts s) who c) /\ tot (lk (accounts s) who c) <= total_issuance s c /\
    total_issuance s c <= U128_MAX.
Proof.
  intros [Hok Hh Hm]. split_and!; [by apply lk_ok| |done].
  rewrite Hh. by apply lk_held.
Qed.

(** The issuance stays and the account keeps its total. *)
Lemma ledger_keep who c a s s' :
  ledger_inv s -> acc_ok a -> tot a = tot (lk (accounts s) who c) ->
  accounts s' = wr cfg c who a (accounts s) -> issued s' = issued s -> ledger_inv s'.
Proof.
  intros Hinv Ha Ht Hacc Hi. apply (ledger_write who c a s); auto.
  - unfold total_issuance. rewrite Hi. lia.
  - unfold total_issuance. rewrite Hi. apply Hinv.
Qed.

Lemma ensure_can_withdraw_Ok c who amount s u :
  ensure_can_withdraw c who amount s = Ok u -> amount <> 0 ->
  amount <= free (lk (accounts s) who c) /\
  frozen (lk (accounts s) who c) <= free (lk (accounts s) who c) - amount.
Proof.
  unfold ensure_can_withdraw, free_balance, account_of, lk.
  destruct (Z.eqb_spec amount 0); [done|]. intros Hr _. run_inv.
  apply checked_sub_Some in Hm as [-> ?]. lia.
Qed.
End ledger.

(** *** Operations and the invariant *)
Section operations.
Context {X A C : Type} `{Countable A} `{Countable C}.
Context `{SystemRefs X A} `{TokenHooks X A C}.
Variable cfg : TokensConfig A C.
Abbreviation St := (Tokens X A C).
Abbreviation nd := (no_dust (X := X) (A := A) (C := C)).
Implicit Types s : St.

Definition debit (v : Z) (d : AccountData) : AccountData := mkAcc (free d - v) (reserved d) (frozen d).
Definition credit (v : Z) (d : AccountData) : AccountData := mkAcc (free d + v) (reserved d) (frozen d).

Lemma account_of_lk s who c : account_of s who c = lk (accounts s) who c.
Proof. done. Qed.

(** A transfer that succeeds moved the amount, within the limits of both accounts. *)
Lemma do_transfer_Ok c from to v er s s' u :
  do_transfer cfg nd c from to v er s = (s', Ok u) -> v <> 0 -> from <> to ->
  let F := lk (accounts s) from c in let T := lk (accounts s) to c in
  v <= free F /\ frozen F <= free F - v /\ free T + v <= U128_MAX /\
  (ExistentialDeposits cfg c <= total (credit v T) \/ DustRemovalWhitelist cfg to = true) /\
  (allows_death er = false -> would_be_dead cfg from c (debit v F) = false) /\
  accounts s' = wr cfg c to (credit v T) (wr cfg c from (debit v F) (accounts s)) /\
  issued s' = issued s /\ locks s' = locks s /\ reserves s' = reserves s.
Proof.
  unfold do_transfer. intros Hr Hv Hft. rewrite (proj2 (Z.eqb_neq v 0) Hv), bool_decide_eq_false_2 in Hr by done.
  cbn [orb] in Hr. run_inv.
  apply hook_untouched in Hm as (E1 & E2 & E3 & E4). apply hook_untouched in Hm1 as (F1 & F2 & F3 & F4).
  destruct a0 as [[] dust]. apply try_mutate_Ok in Hm0 as (s3 & aT & Hf & G1 & G2 & G3 & G4).
  apply bind_Ok in Hf as ([aT' dust0] & s4 & Hin & Hf). apply ret_Ok in Hf as [-> [= ->]].
  apply try_mutate_Ok in Hin as (s5 & aF & Hf2 & H1' & H2' & H3' & H4').
  simpl in Hf2.
  match type of Hf2 with (match ?x with _ => _ end) = _ => destruct x as [[aF2 aT2]|e|] eqn:Ein end;
    [|discriminate..].
  injection Hf2 as <- <- <-. run_inv. injection Ein as <- <-.
  match goal with Hc : checked_sub _ _ = Some _ |- _ => apply checked_sub_Some in Hc as [-> Hle] end.
  match goal with Hc : checked_add _ _ _ = Some _ |- _ => apply checked_add_Some in Hc as [-> Hmax] end.
  match goal with Hc : ensure_can_withdraw _ _ _ _ = _ |- _ => apply ensure_can_withdraw_Ok in Hc as [_ Hfr]; [|done] end.
  match goal with Hc : orb _ (DustRemovalWhitelist _ _) = true |- _ => apply orb_true_iff in Hc as Hed end.
  match goal with Hc : orb _ (negb _) = true |- _ => apply orb_true_iff in Hc as Hdead end.
  cbn zeta. rewrite <- E1, <- E2, <- E3, <- E4. split_and!; try done.
  - destruct Hed as [Hed|Hed]; [left|by right]. apply Z.leb_le in Hed. exact Hed.
  - intros Her. rewrite Her in Hdead. destruct Hdead as [|Hd]; [done|]. by apply negb_true_iff in Hd.
  - simpl. rewrite F1, G1, H1'. done.
  - simpl. by rewrite F2, G2, H2'.
  - simpl. by rewrite F3, G3, H3'.
  - simpl. by rewrite F4, G4, H4'.
Qed.

Lemma acc_ok_debit v d : acc_ok d -> v <= free d -> acc_ok (debit v d).
Proof. unfold acc_ok. simpl. lia. Qed.
Lemma acc_ok_credit v d : acc_ok d -> 0 <= v -> acc_ok (credit v d).
Proof. unfold acc_ok. simpl. lia. Qed.

Lemma do_transfer_inv c from to v er s s' u :
  0 <= v -> ledger_inv s -> do_transfer cfg nd c from to v er s = (s', Ok u) -> ledger_inv s'.
Proof.
  intros Hv Hinv Hr. destruct (decide (v = 0)) as [->|Hv0].
  { unfold do_transfer in Hr. cbn [orb Z.eqb] in Hr. run_inv. done. }
  destruct (decide (from = to)) as [->|Hft].
  { unfold do_transfer in Hr. rewrite bool_decide_eq_true_2, orb_true_r in Hr by done. run_inv. done. }
  apply do_transfer_Ok in Hr as (Hle & _ & _ & _ & _ & Hacc & Hi & _); [|done..].
  destruct Hinv as [Hok Hh Hm].
  pose proof (lk_ok _ from c Hok). pose proof (lk_ok _ to c Hok).
  assert (acc_ok (debit v (lk (accounts s) from c))) by (by apply acc_ok_debit).
  assert (acc_ok (credit v (lk (accounts s) to c))) by (by apply acc_ok_credit).
  split.
  - rewrite Hacc. by apply wr_ok; [apply wr_ok|].
  - intros c'. unfold total_issuance. rewrite Hi. fold (total_issuance s c'). rewrite Hh, Hacc.
    rewrite !held_wr by done. rewrite lk_wr_ne by congruence.
    destruct (decide (c = c')); unfold tot, debit, credit; simpl; lia.
  - intros c'. unfold total_issuance. rewrite Hi. apply Hm.
Qed.

Lemma do_withdraw_Ok c who v er burn s s' u :
  do_withdraw cfg nd c who v er burn s = (s', Ok u) -> v <> 0 ->
  let d := lk (accounts s) who c in
  v <= free d /\ frozen d <= free d - v /\
  accounts s' = wr cfg c who (mkAcc (sat_sub (free d) v) (reserved d) (frozen d)) (accounts s) /\
  issued s' = (if burn then <[c := sat_sub (total_issuance s c) v]> (issued s) else issued s) /\
  locks s' = locks s /\ reserves s' = reserves s.
Proof.
  unfold do_withdraw. intros Hr Hv. rewrite (proj2 (Z.eqb_neq v 0) Hv) in Hr. run_inv.
  destruct a as [[] dust]. apply try_mutate_Ok in Hm as (s1 & a & Hf & G1 & G2 & G3 & G4).
  run_inv. injection Hf as ->.
  match goal with Hc : ensure_can_withdraw _ _ _ _ = _ |- _ => apply ensure_can_withdraw_Ok in Hc as [Hle Hfr]; [|done] end.
  split_and!; [done..| | | |]; rewrite ?G1, ?G2, ?G3, ?G4; destruct burn; done.
Qed.

Lemma do_withdraw_inv c who v er s s' u :
  0 <= v -> ledger_inv s -> do_withdraw cfg nd c who v er true s = (s', Ok u) -> ledger_inv s'.
Proof.
  intros Hv Hinv Hr. destruct (decide (v = 0)) as [->|Hv0].
  { unfold do_withdraw in Hr. simpl in Hr. run_inv. done. }
  apply do_withdraw_Ok in Hr as (Hle & _ & Hacc & Hi & _); [|done].
  destruct (ledger_lk s who c Hinv) as (Hd & Htot & Hmax).
  set (d := lk (accounts s) who c) in *. unfold acc_ok, tot in Hd, Htot.
  rewrite !sat_sub_exact in * by lia.
  apply (ledger_write cfg who c (mkAcc (free d - v) (reserved d) (frozen d)) s); [done|..|done|eauto| |].
  - unfold acc_ok; simpl; lia.
  - unfold total_issuance at 1. rewrite Hi, lookup_insert_eq. simpl. unfold tot; simpl. fold d. lia.
  - unfold total_issuance. rewrite Hi, lookup_insert_eq. simpl. lia.
Qed.

Lemma do_deposit_Ok c who v req mint s s' w :
  do_deposit cfg nd c who v req mint s = (s', Ok w) -> v <> 0 ->
  let d := lk (accounts s) who c in
  w = v /\ total_issuance s c + v <= U128_MAX /\
  accounts s' = wr cfg c who (mkAcc (sat_add U128_MAX (free d) v) (reserved d) (frozen d)) (accounts s) /\
  issued s' = (if mint then <[c := total_issuance s c + v]> (issued s) else issued s) /\
  locks s' = locks s /\ reserves s' = reserves s.
Proof.
  unfold do_deposit. intros Hr Hv. rewrite (proj2 (Z.eqb_neq v 0) Hv) in Hr. run_inv.
  apply hook_untouched in Hm as (E1 & E2 & E3 & E4). apply hook_untouched in Hm1 as (F1 & F2 & F3 & F4).
  destruct a0 as [[] dust]. apply try_mutate_Ok in Hm0 as (s5 & a0 & Hf & G1 & G2 & G3 & G4).
  apply bind_Ok in Hf as (u0 & s6 & Hg & Hf).
  assert (s6 = s0) as -> by (destruct req; run_inv; done). run_inv. injection Hf as ->.
  match goal with Hc : checked_add _ _ _ = Some _ |- _ => apply checked_add_Some in Hc as [-> Hmax] end.
  cbn zeta. simpl. unfold total_issuance. rewrite <- E1, <- E2, <- E3, <- E4.
  rewrite F1, F2, F3, F4, G1, G2, G3, G4. split_and!; try done; destruct mint; done.
Qed.

Lemma do_deposit_inv c who v req s s' w :
  0 <= v -> ledger_inv s -> do_deposit cfg nd c who v req true s = (s', Ok w) -> ledger_inv s'.
Proof.
  intros Hv Hinv Hr. destruct (decide (v = 0)) as [->|Hv0].
  { unfold do_deposit in Hr. simpl in Hr. run_inv. done. }
  apply do_deposit_Ok in Hr as (_ & Hmaxv & Hacc & Hi & _); [|done].
  destruct (ledger_lk s who c Hinv) as (Hd & Htot & Hmax).
  set (d := lk (accounts s) who c) in *. unfold acc_ok, tot in Hd, Htot.
  rewrite sat_add_exact in Hacc by lia.
  apply (ledger_write cfg who c (mkAcc (free d + v) (reserved d) (frozen d)) s); [done|..|done|eauto| |].
  - unfold acc_ok; simpl; lia.
  - unfold total_issuance at 1. rewrite Hi, lookup_insert_eq. simpl. unfold tot; simpl. fold d. lia.
  - unfold total_issuance. rewrite Hi, lookup_insert_eq. simpl. lia.
Qed.
End operations.

(** *** Operations in several writes

    Between the writes of an operation the issuance of its currency is off by the
    amount on the way. *)
Section drift.
Context {X A C : Type} `{Countable A} `{Countable C}.
Context `{SystemRefs X A} `{TokenHooks X A C}.
Variable cfg : TokensConfig A C.
Abbreviation St := (Tokens X A C).
Abbreviation nd := (no_dust (X := X) (A := A) (C := C)).
Implicit Types s : St.

Record drift (c : C) (off : Z) s : Prop := {
  drift_ok : all_ok (accounts s);
  drift_held : forall c', total_issuance s c' = held c' (accounts s) + (if decide (c = c') then off else 0);
  drift_max : forall c', total_issuance s c' <= U128_MAX;
}.

Lemma drift_inv c s : ledger_inv s -> drift c 0 s.
Proof. intros [Hok Hh Hm]. split; auto. intros c'. rewrite Hh. destruct (decide _); lia. Qed.
Lemma inv_drift c s off : drift c off s -> off = 0 -> ledger_inv s.
Proof. intros [Hok Hh Hm] ->. split; auto. intros c'. rewrite Hh. destruct (decide _); lia. Qed.

Lemma drift_untouched c off s s' : untouched s s' -> drift c off s -> drift c off s'.
Proof. intros (Ha & Hi & _) [Hok Hh Hm]. split; unfold total_issuance in *; rewrite ?Ha, ?Hi; auto. Qed.

Lemma drift_write c off off' who a s s' :
  drift c off s -> acc_ok a -> accounts s' = wr cfg c who a (accounts s) -> issued s' = issued s ->
  off' = off - (tot a - tot (lk (accounts s) who c)) -> drift c off' s'.
Proof.
  intros [Hok Hh Hm] Ha Hacc Hi ->. split; unfold total_issuance in *; rewrite ?Hacc, ?Hi.
  - by apply wr_ok.
  - intros c'. rewrite Hh, held_wr by done. destruct (decide _); lia.
  - done.
Qed.

Lemma drift_issue c off s v :
  drift c off s -> v <= U128_MAX -> drift c (off + v - total_issuance s c) (set_issuance c v s).
Proof.
  intros [Hok Hh Hm] Hv.
  assert (forall c', total_issuance (set_issuance c v s) c' = if decide (c = c') then v else total_issuance s c') as Ht.
  { intros c'. unfold total_issuance at 1, set_issuance. simpl.
    destruct (decide (c = c')) as [<-|]; [by rewrite lookup_insert_eq|by rewrite lookup_insert_ne]. }
  split; [done|..]; intros c'; rewrite Ht; simpl.
  - destruct (decide (c = c')) as [<-|Hne].
    + pose proof (Hh c) as Hc. rewrite decide_True in Hc by done. lia.
    + rewrite Hh, decide_False by done. done.
  - destruct (decide (c = c')); auto.
Qed.

Lemma drift_lk c off s who :
  drift c off s -> acc_ok (lk (accounts s) who c) /\ tot (lk (accounts s) who c) + off <= total_issuance s c /\
    total_issuance s c <= U128_MAX.
Proof.
  intros [Hok Hh Hm]. split_and!; [by apply lk_ok| |done].
  rewrite Hh, decide_True by done. pose proof (lk_held c who _ Hok). lia.
Qed.

Lemma set_free_eq c who v s :
  let d := lk (accounts s) who c in
  accounts (set_free_balance cfg nd c who v s) = wr cfg c who (mkAcc v (reserved d) (frozen d)) (accounts s) /\
  issued (set_free_balance cfg nd c who v s) = issued s.
Proof.
  unfold set_free_balance.
  destruct (mutate_account_pure cfg who c (fun d => mkAcc v (reserved d) (frozen d))
              (fun d => emit (EvBalanceSet c who v (reserved d))) (fun _ => tt) s) as (s' & -> & Ha & Hi & _); done.
Qed.
Lemma set_reserved_eq c who v s :
  let d := lk (accounts s) who c in
  accounts (set_reserved_balance cfg nd c who v s) = wr cfg c who (mkAcc (free d) v (frozen d)) (accounts s) /\
  issued (set_reserved_balance cfg nd c who v s) = issued s.
Proof.
  unfold set_reserved_balance.
  destruct (mutate_account_pure cfg who c (fun d => mkAcc (free d) v (frozen d))
              (fun d => emit (EvBalanceSet c who (free d) v)) (fun _ => tt) s) as (s' & -> & Ha & Hi & _); done.
Qed.

Lemma set_free_drift c off who v s :
  drift c off s -> 0 <= v ->
  drift c (off - (v - free (lk (accounts s) who c))) (set_free_balance cfg nd c who v s).
Proof.
  intros Hd Hv. destruct (drift_lk c off s who Hd) as (Hok & _). destruct (set_free_eq c who v s) as [Ha Hi].
  eapply (drift_write c off); [exact Hd| |exact Ha|exact Hi|]; unfold acc_ok, tot in *; simpl; lia.
Qed.
Lemma set_reserved_drift c off who v s :
  drift c off s -> 0 <= v ->
  drift c (off - (v - reserved (lk (accounts s) who c))) (set_reserved_balance cfg nd c who v s).
Proof.
  intros Hd Hv. destruct (drift_lk c off s who Hd) as (Hok & _). destruct (set_reserved_eq c who v s) as [Ha Hi].
  eapply (drift_write c off); [exact Hd| |exact Ha|exact Hi|]; unfold acc_ok, tot in *; simpl; lia.
Qed.

(** The balances an account is left with. *)
Lemma lk_set_free c who v s :
  acc_ok (lk (accounts s) who c) -> 0 <= v ->
  free (lk (accounts (set_free_balance cfg nd c who v s)) who c) = v /\
  reserved (lk (accounts (set_free_balance cfg nd c who v s)) who c) = reserved (lk (accounts s) who c).
Proof.
  intros Hok Hv. destruct (set_free_eq c who v s) as [-> _].
  apply (lk_wr_balances cfg c who (mkAcc v (reserved (lk (accounts s) who c)) (frozen (lk (accounts s) who c)))).
  unfold acc_ok in *; simpl; lia.
Qed.
Lemma lk_set_free_ne c who who' v s :
  who' <> who -> lk (accounts (set_free_balance cfg nd c who v s)) who' c = lk (accounts s) who' c.
Proof. intros. destruct (set_free_eq c who v s) as [-> _]. apply lk_wr_ne. congruence. Qed.
Lemma lk_set_reserved_ne c who who' v s :
  who' <> who -> lk (accounts (set_reserved_balance cfg nd c who v s)) who' c = lk (accounts s) who' c.
Proof. intros. destruct (set_reserved_eq c who v s) as [-> _]. apply lk_wr_ne. congruence. Qed.

(** The two writes of the slashing functions: nothing is written for a zero amount. *)
Lemma take_free c off who v s :
  drift c off s -> 0 <= v <= free (lk (accounts s) who c) ->
  let s' := if v =? 0 then s
            else set_free_balance cfg nd c who (sat_sub (free (lk (accounts s) who c)) v) s in
  drift c (off + v) s' /\ reserved (lk (accounts s') who c) = reserved (lk (accounts s) who c) /\
  issued s' = issued s.
Proof.
  intros Hd Hv. destruct (drift_lk c off s who Hd) as (Hok & _). set (d := lk (accounts s) who c) in *.
  destruct (Z.eqb_spec v 0) as [->|]; simpl; [by rewrite Z.add_0_r|]. rewrite sat_sub_exact by lia. split_and!.
  - pose proof (set_free_drift c off who (free d - v) s Hd ltac:(lia)) as Hs. fold d in Hs.
    by replace (off - (free d - v - free d)) with (off + v) in Hs by lia.
  - apply (lk_set_free c who (free d - v) s); [exact Hok|lia].
  - by destruct (set_free_eq c who (free d - v) s) as [_ ->].
Qed.
Lemma take_reserved c off who r v s :
  drift c off s -> reserved (lk (accounts s) who c) = r -> 0 <= v <= r ->
  let s' := if v =? 0 then s else set_reserved_balance cfg nd c who (sat_sub r v) s in
  drift c (off + v) s' /\ issued s' = issued s.
Proof.
  intros Hd Hr Hv. destruct (Z.eqb_spec v 0) as [->|]; simpl; [by rewrite Z.add_0_r|].
  rewrite sat_sub_exact by lia. split.
  - pose proof (set_reserved_drift c off who (r - v) s Hd ltac:(lia)) as Hs. rewrite Hr in Hs.
    by replace (off - (r - v - r)) with (off + v) in Hs by lia.
  - by destruct (set_reserved_eq c who (r - v) s) as [_ ->].
Qed.

(** [slash] takes from the free balance first and burns what it takes. *)
Lemma slash_spec c who v s s' rem :
  0 <= v -> ledger_inv s -> slash cfg nd c who v s = (s', rem) ->
  ledger_inv s' /\ rem = v - Z.min v (tot (lk (accounts s) who c)).
Proof.
  intros Hv Hinv. destruct (ledger_lk s who c Hinv) as (Hok & Htot & Hmax). unfold acc_ok, tot in *.
  unfold slash. destruct (Z.eqb_spec v 0) as [->|Hv0]; [intros [= <- <-]; split; [done|lia]|].
  set (s0 := on_rest (OnSlash c who v) s). assert (ledger_inv s0) as Hinv0 by (by apply (untouched_inv s)).
  rewrite account_of_lk. change (accounts s) with (accounts s0) in *.
  change (total_issuance s c) with (total_issuance s0 c) in *. clearbody s0.
  set (d := lk (accounts s0) who c) in *.
  rewrite (sat_sub_exact v) by lia. cbv zeta.
  destruct (take_free c 0 who (Z.min (free d) v) s0 (drift_inv c s0 Hinv0) ltac:(fold d; lia)) as (Hd1 & Hr1 & Hi1).
  fold d in Hd1, Hr1, Hi1.
  match type of Hd1 with drift _ _ ?x => set (s1 := x) in * end. clearbody s1.
  set (rm := v - Z.min (free d) v) in *.
  destruct (take_reserved c _ who _ (Z.min (reserved d) rm) s1 Hd1 Hr1 ltac:(lia)) as [Hd2 Hi2].
  match type of Hd2 with drift _ _ ?x => set (s2 := x) in * end.
  assert ((if Z.min (reserved d) rm =? 0 then (s1, rm)
           else (set_reserved_balance cfg nd c who (sat_sub (reserved d) (Z.min (reserved d) rm)) s1,
                 sat_sub rm (Z.min (reserved d) rm))) = (s2, rm - Z.min (reserved d) rm)) as ->.
  { unfold s2. destruct (Z.eqb_spec (Z.min (reserved d) rm) 0); f_equal; [lia|]. by apply sat_sub_exact; lia. }
  clearbody s2. intros [= <- <-].
  assert (total_issuance s2 c = total_issuance s0 c) as Ht2 by (unfold total_issuance; by rewrite Hi2, Hi1).
  rewrite Ht2, (sat_sub_exact v), sat_sub_exact by lia. split; [|lia].
  match goal with |- ledger_inv (emit _ ?x) => apply (untouched_inv x); [done|] end.
  eapply inv_drift; [apply drift_issue; [exact Hd2|lia]|]. lia.
Qed.

(** [CurrencyAdapter::slash] leaves the burning to the imbalance it returns. *)
Lemma adapter_slash_inv c who v s s' i rem :
  0 <= v -> ledger_inv s -> adapter_slash cfg nd c who v s = (s', (i, rem)) ->
  ledger_inv (drop_negative c i s') /\ i = Z.min v (tot (lk (accounts s) who c)) /\ rem = v - i.
Proof.
  intros Hv Hinv. destruct (ledger_lk s who c Hinv) as (Hok & Htot & Hmax). unfold acc_ok, tot in *.
  assert (forall off j t, drift c off t -> issued t = issued s -> off = j -> 0 <= j <= total_issuance s c ->
            ledger_inv (drop_negative c j t)) as Hdrop.
  { intros off j t Hd Hi -> Hj. unfold drop_negative.
    assert (total_issuance t c = total_issuance s c) as Ht by (unfold total_issuance; by rewrite Hi).
    rewrite Ht, sat_sub_exact by lia. eapply inv_drift; [apply drift_issue; [exact Hd|lia]|]. lia. }
  unfold adapter_slash. rewrite account_of_lk. destruct (Z.eqb_spec v 0) as [->|Hv0].
  { intros [= <- <- <-]. split; [|lia]. apply (Hdrop 0); [by apply drift_inv|done|lia..]. }
  set (d := lk (accounts s) who c) in *. rewrite (sat_sub_exact v) by lia. cbv zeta.
  destruct (take_free c 0 who (Z.min (free d) v) s (drift_inv c s Hinv) ltac:(fold d; lia)) as (Hd1 & Hr1 & Hi1).
  fold d in Hd1, Hr1, Hi1. match type of Hd1 with drift _ _ ?x => set (s1 := x) in * end. clearbody s1.
  destruct (Z.eqb_spec (v - Z.min (free d) v) 0) as [Hz|Hz].
  { intros Hx. assert (s' = emit (EvSlashed c who v 0) s1 /\ i = v /\ rem = v - Z.min (free d) v) as (-> & -> & ->)
      by (split_and!; congruence).
    split; [|lia]. apply (Hdrop (0 + Z.min (free d) v)); [by apply (drift_untouched c _ s1)|done|lia..]. }
  set (rm := v - Z.min (free d) v) in *. set (r := Z.min (reserved d) rm).
  rewrite !sat_sub_exact, sat_add_exact by lia. intros Hx.
  pose proof (set_reserved_drift c _ who (reserved d - r) s1 Hd1 ltac:(lia)) as Hd2. rewrite Hr1 in Hd2.
  destruct (set_reserved_eq c who (reserved d - r) s1) as [_ Hi2].
  set (s2 := set_reserved_balance cfg nd c who (reserved d - r) s1) in *. clearbody s2.
  assert (s' = emit (EvSlashed c who (Z.min (free d) v) r) s2 /\ i = Z.min (free d) v + r /\ rem = rm - r) as (-> & -> & ->)
    by (split_and!; congruence).
  split; [|lia]. eapply Hdrop; [by apply (drift_untouched c _ s2)|simpl; congruence|lia..].
Qed.
End drift.

Section more_operations.
Context {X A C : Type} `{Countable A} `{Countable C}.
Context `{SystemRefs X A} `{TokenHooks X A C}.
Variable cfg : TokensConfig A C.
Abbreviation St := (Tokens X A C).
Abbreviation nd := (no_dust (X := X) (A := A) (C := C)).
Implicit Types s : St.

Lemma same_inv s s' : accounts s' = accounts s -> issued s' = issued s -> ledger_inv s -> ledger_inv s'.
Proof. intros Ha Hi [Hok Hh Hm]. split; unfold total_issuance in *; rewrite ?Ha, ?Hi; auto. Qed.

Lemma slash_reserved_spec c who v s s' rem :
  0 <= v -> ledger_inv s -> slash_reserved cfg nd c who v s = (s', rem) ->
  ledger_inv s' /\ rem = v - Z.min (reserved (lk (accounts s) who c)) v.
Proof.
  intros Hv Hinv. destruct (ledger_lk s who c Hinv) as (Hok & Htot & Hmax). unfold acc_ok, tot in *.
  unfold slash_reserved. destruct (Z.eqb_spec v 0) as [->|Hv0].
  { intros [= <- <-]. split; [done|lia]. }
  set (s0 := on_rest (OnSlash c who v) s). assert (ledger_inv s0) as Hinv0 by (by apply (untouched_inv s)).
  unfold reserved_balance. rewrite account_of_lk. change (accounts s) with (accounts s0) in *.
  change (total_issuance s c) with (total_issuance s0 c) in *. clearbody s0.
  set (d := lk (accounts s0) who c) in *. set (a := Z.min (reserved d) v). rewrite (sat_sub_exact (reserved d) a), (sat_sub_exact v a) by lia.
  destruct (mutate_account_pure cfg who c (fun d' => mkAcc (free d') (reserved d - a) (frozen d'))
              (fun _ s => s) (fun _ => tt) s0 ltac:(done)) as (s1 & -> & Ha & Hi & _).
  intros [= <- <-]. split; [|done].
  assert (total_issuance s1 c = total_issuance s0 c) as Ht by (unfold total_issuance; by rewrite Hi).
  rewrite Ht, sat_sub_exact by lia. cbn [fst].
  match goal with |- ledger_inv (emit _ ?x) => apply (untouched_inv x); [done|] end.
  eapply inv_drift; [apply drift_issue; [|lia]|].
  - eapply (drift_write cfg c 0 a); [by apply drift_inv| |exact Ha|exact Hi|]; unfold acc_ok, tot; simpl; fold d; lia.
  - lia.
Qed.

(** Moving between the two balances of an account. *)
Definition to_reserved (v : Z) (d : AccountData) : AccountData := mkAcc (free d - v) (reserved d + v) (frozen d).

Lemma reserve_Ok c who v s s' u :
  0 <= v -> ledger_inv s -> reserve cfg nd c who v s = (s', Ok u) -> v <> 0 ->
  let d := lk (accounts s) who c in
  v <= free d /\ frozen d <= free d - v /\
  accounts s' = wr cfg c who (to_reserved v d) (accounts s) /\
  issued s' = issued s /\ locks s' = locks s /\ reserves s' = reserves s.
Proof.
  intros Hv Hinv Hr Hv0. destruct (ledger_lk s who c Hinv) as (Hok & Htot & Hmax). unfold acc_ok, tot in *.
  unfold reserve in Hr. rewrite (proj2 (Z.eqb_neq v 0) Hv0) in Hr. run_inv.
  match goal with Hc : ensure_can_withdraw _ _ _ _ = _ |- _ => apply ensure_can_withdraw_Ok in Hc as [Hle Hfr]; [|done] end.
  destruct (mutate_account_pure cfg who c
      (fun d => mkAcc (sat_sub (free d) v) (sat_add U128_MAX (reserved d) v) (frozen d))
      (fun _ => emit (EvReserved c who v)) (fun _ => tt) s ltac:(done)) as (s1 & -> & Ha & Hi & Hl & Hr).
  cbn [fst]. rewrite sat_sub_exact, sat_add_exact in Ha by lia. split_and!; done.
Qed.

Lemma reserve_inv c who v s s' u :
  0 <= v -> ledger_inv s -> reserve cfg nd c who v s = (s', Ok u) -> ledger_inv s'.
Proof.
  intros Hv Hinv Hr. destruct (decide (v = 0)) as [->|Hv0]; [unfold reserve in Hr; simpl in Hr; by run_inv|].
  destruct (ledger_lk s who c Hinv) as (Hok & _).
  apply reserve_Ok in Hr as (Hle & _ & Ha & Hi & _); [|done..].
  eapply (ledger_keep cfg who c); [done| | |exact Ha|exact Hi]; unfold acc_ok, tot, to_reserved in *; simpl; lia.
Qed.

Lemma unreserve_spec c who v s s' rem :
  0 <= v -> ledger_inv s -> unreserve cfg nd c who v s = (s', rem) ->
  let d := lk (accounts s) who c in let a := Z.min (reserved d) v in
  rem = v - a /\ issued s' = issued s /\ locks s' = locks s /\ reserves s' = reserves s /\
  (v = 0 -> s' = s) /\
  (v <> 0 -> accounts s' = wr cfg c who (to_reserved (- a) d) (accounts s)).
Proof.
  intros Hv Hinv. destruct (ledger_lk s who c Hinv) as (Hok & Htot & Hmax). unfold acc_ok, tot in *.
  unfold unreserve. destruct (Z.eqb_spec v 0) as [->|Hv0]; [intros [= <- <-]; split_and!; try done; lia|].
  destruct (mutate_account_pure cfg who c
      (fun d => mkAcc (sat_add U128_MAX (free d) (Z.min (reserved d) v))
                      (sat_sub (reserved d) (Z.min (reserved d) v)) (frozen d))
      (fun d => emit (EvUnreserved c who (Z.min (reserved d) v)))
      (fun d => sat_sub v (Z.min (reserved d) v)) s ltac:(done)) as (s1 & -> & Ha & Hi & Hl & Hr).
  intros [= <- <-]. cbv zeta. set (d := lk (accounts s) who c) in *.
  rewrite !sat_sub_exact, sat_add_exact in Ha by lia. rewrite sat_sub_exact by lia.
  split_and!; try done. intros _. rewrite Ha. unfold to_reserved. do 2 f_equal; lia.
Qed.

Lemma unreserve_inv c who v s s' rem :
  0 <= v -> ledger_inv s -> unreserve cfg nd c who v s = (s', rem) -> ledger_inv s'.
Proof.
  intros Hv Hinv Hr. destruct (ledger_lk s who c Hinv) as (Hok & _).
  apply unreserve_spec in Hr as (_ & Hi & _ & _ & Hz & Ha); [|done..].
  destruct (decide (v = 0)) as [->|Hv0]; [by rewrite (Hz eq_refl)|].
  eapply (ledger_keep cfg who c); [done| | |exact (Ha Hv0)|exact Hi]; unfold acc_ok, tot, to_reserved in *; simpl; lia.
Qed.

(** Two accounts together hold no more than the issuance. *)
Lemma pair_bound s a b c : ledger_inv s -> a <> b ->
  tot (lk (accounts s) a c) + tot (lk (accounts s) b c) <= U128_MAX.
Proof.
  intros Hinv Hab. destruct (ledger_lk s a c Hinv) as (_ & _ & Hmax). destruct Hinv as [Hall Hh _].
  rewrite Hh in Hmax. etrans; [|exact Hmax].
  pose proof (held_wr cfg c c a no_account (accounts s) no_account_ok) as Hw.
  rewrite decide_True in Hw by done. unfold tot in Hw at 1; simpl in Hw.
  pose proof (lk_held c b (wr cfg c a no_account (accounts s)) (wr_ok cfg c a _ _ Hall no_account_ok)) as Hb.
  rewrite lk_wr_ne in Hb by congruence. lia.
Qed.

(** Repatriated funds leave the reserve of one account for the other account. *)
Lemma repatriate_inv c a b v st s s' rem :
  0 <= v -> ledger_inv s -> repatriate_reserved cfg nd c a b v st s = (s', rem) ->
  ledger_inv s' /\ rem = v - Z.min (reserved (lk (accounts s) a c)) v.
Proof.
  intros Hv Hinv. destruct (ledger_lk s a c Hinv) as (Hok & Htot & Hmax).
  destruct (ledger_lk s b c Hinv) as (Hokb & Htotb & _).
  unfold repatriate_reserved. destruct (Z.eqb_spec v 0) as [->|Hv0].
  { intros [= <- <-]. unfold acc_ok in *. split; [done|lia]. }
  destruct (bool_decide_reflect (a = b)) as [<-|Hab].
  { destruct st; [intros Hr|].
    - split; [by eapply unreserve_inv|]. by apply unreserve_spec in Hr as (-> & _).
    - intros [= <- <-]. split; [done|]. unfold reserved_balance. rewrite account_of_lk.
      unfold acc_ok, sat_sub in *. lia. }
  rewrite !account_of_lk. set (da := lk (accounts s) a c) in *. set (db := lk (accounts s) b c) in *.
  set (m := Z.min (reserved da) v). unfold acc_ok in *.
  pose proof (pair_bound s a b c Hinv Hab) as Hsum. fold da db in Hsum.
  unfold tot in *. rewrite !sat_sub_exact by lia. intros [= <- <-]. split; [|done].
  match goal with |- ledger_inv (emit _ ?x) => apply (untouched_inv x); [done|] end.
  set (s1 := match st with Free => _ | Reserved => _ end).
  assert (drift c (- m) s1 /\ lk (accounts s1) a c = da) as [Hd1 Hl1].
  { unfold s1. destruct st; rewrite sat_add_exact by lia.
    - split; [|by apply lk_set_free_ne].
      pose proof (set_free_drift cfg c 0 b (free db + m) s (drift_inv c s Hinv) ltac:(lia)) as Hs.
      fold db in Hs. by replace (0 - (free db + m - free db)) with (- m) in Hs by lia.
    - split; [|by apply lk_set_reserved_ne].
      pose proof (set_reserved_drift cfg c 0 b (reserved db + m) s (drift_inv c s Hinv) ltac:(lia)) as Hs.
      fold db in Hs. by replace (0 - (reserved db + m - reserved db)) with (- m) in Hs by lia. }
  eapply inv_drift; [apply set_reserved_drift; [exact Hd1|lia]|]. rewrite Hl1. lia.
Qed.
End more_operations.

Section locks_and_calls.
Context {X A C : Type} `{Countable A} `{Countable C}.
Context `{SystemRefs X A} `{TokenHooks X A C}.
Variable cfg : TokensConfig A C.
Abbreviation St := (Tokens X A C).
Abbreviation nd := (no_dust (X := X) (A := A) (C := C)).
Implicit Types s : St.

Lemma max_lock_from ls m : m <= foldl (fun m l => Z.max m (lock_amount l)) m ls.
Proof. revert m. induction ls as [|l ls IH]; intros m; simpl; [lia|]. specialize (IH (Z.max m (lock_amount l))). lia. Qed.
Lemma max_lock_nonneg ls : 0 <= max_lock ls.
Proof. apply max_lock_from. Qed.

Definition freeze (v : Z) (d : AccountData) : AccountData := mkAcc (free d) (reserved d) v.

Lemma update_locks_Ok c who ls s s' u :
  update_locks cfg nd c who ls s = (s', Ok u) ->
  accounts s' = wr cfg c who (freeze (max_lock ls) (lk (accounts s) who c)) (accounts s) /\
  issued s' = issued s /\ reserves s' = reserves s /\ locks_of s' who c = ls /\
  (forall k, k <> (who, c) -> locks s' !! k = locks s !! k).
Proof.
  unfold update_locks. intros Hr. run_inv. rename s3 into s4.
  destruct (mutate_account_pure cfg who c (freeze (max_lock ls)) (fun _ s => s) (fun _ => tt) s ltac:(done))
    as (s1 & Em & Ha & Hi & Hl & Hrs).
  unfold freeze in Em at 1. rewrite Em in Hm2. cbn [fst] in Hm2.
  assert (accounts s4 = accounts s1 /\ issued s4 = issued s1 /\ reserves s4 = reserves s1 /\ locks_of s4 who c = ls /\
          forall k, k <> (who, c) -> locks s4 !! k = locks s1 !! k) as (W1 & W2 & W3 & W4 & W5).
  { clear Em. destruct (bool_decide_reflect (ls = [])) as [->|Hne]; run_inv;
      destruct (bool_decide (is_Some (locks s1 !! (who, c)))); unfold locks_of; simpl;
      (split_and!; [done..| |]);
      first [by rewrite lookup_delete_eq | by rewrite lookup_insert_eq
            | intros k Hk; by rewrite lookup_delete_ne by congruence
            | intros k Hk; by rewrite lookup_insert_ne by congruence]. }
  rewrite <- Ha, <- Hi, <- Hl, <- Hrs, <- W1, <- W2, <- W3.
  destruct (_ <? _); [|destruct (_ <? _)]; done.
Qed.

Lemma update_locks_inv c who ls s s' u :
  ledger_inv s -> update_locks cfg nd c who ls s = (s', Ok u) -> ledger_inv s'.
Proof.
  intros Hinv (Ha & Hi & _)%update_locks_Ok. destruct (ledger_lk s who c Hinv) as (Hok & _).
  eapply (ledger_keep cfg who c); [done| | |exact Ha|exact Hi]; unfold acc_ok, tot, freeze in *; simpl; [|done].
  pose proof (max_lock_nonneg ls). lia.
Qed.

(** Even when the locks are refused, the balances are sound. *)
Lemma update_locks_any c who ls s s' r :
  ledger_inv s -> update_locks cfg nd c who ls s = (s', r) -> ledger_inv s'.
Proof.
  intros Hinv. destruct r as [u|e|]; [by apply update_locks_inv|..]; unfold update_locks, bind, mget, mmodify.
  all: destruct (mutate_account_pure cfg who c (freeze (max_lock ls)) (fun _ s => s) (fun _ => tt) s ltac:(done))
         as (s1 & Em & Ha & Hi & _).
  all: unfold freeze in Em at 1; rewrite Em; cbn [fst]; clear Em.
  all: destruct (bool_decide (ls = [])); [by intros [=]|]; unfold mensure, mlift, rensure.
  all: destruct (_ <=? _)%nat; intros [= <-].
  all: destruct (ledger_lk s who c Hinv) as (Hok & _); pose proof (max_lock_nonneg ls).
  all: eapply (ledger_keep cfg who c); [done| | |exact Ha|exact Hi]; unfold acc_ok, tot, freeze in *; simpl; lia.
Qed.

Lemma set_lock_inv id c who v s s' u :
  ledger_inv s -> set_lock cfg nd id c who v s = (s', Ok u) -> ledger_inv s'.
Proof.
  unfold set_lock. intros Hinv Hr. destruct (v =? 0); run_inv; [done|].
  match goal with |- ledger_inv (emit _ ?x) => apply (untouched_inv x); [done|] end. by eapply update_locks_inv.
Qed.
Lemma extend_lock_inv id c who v s s' u :
  ledger_inv s -> extend_lock cfg nd id c who v s = (s', Ok u) -> ledger_inv s'.
Proof.
  unfold extend_lock. intros Hinv Hr. destruct (v =? 0); run_inv; [done|]. by eapply update_locks_inv.
Qed.
Lemma remove_lock_inv id c who s s' u :
  ledger_inv s -> remove_lock cfg nd id c who s = (s', Ok u) -> ledger_inv s'.
Proof.
  unfold remove_lock. intros Hinv Hr. run_inv.
  match goal with |- ledger_inv (emit _ ?x) => apply (untouched_inv x); [done|] end. by eapply update_locks_inv.
Qed.

(** *** Named reserves *)
Lemma amount_at_set i v rs : (i < length rs)%nat -> amount_at (set_amount_at i v rs) i = v.
Proof.
  intros Hi. unfold amount_at, set_amount_at.
  destruct (lookup_lt_is_Some_2 rs i Hi) as [r Hr]. by rewrite list_lookup_alter_eq, Hr.
Qed.

Lemma reserve_named_inv id c who v s s' u :
  0 <= v -> ledger_inv s -> reserve_named cfg nd id c who v s = (s', Ok u) -> ledger_inv s'.
Proof.
  intros Hv Hinv Hr. unfold reserve_named in Hr. destruct (v =? 0); run_inv; [done|].
  match goal with |- ledger_inv (put_reserves _ _ _ ?x) => apply (same_inv x); [done..|] end.
  by eapply reserve_inv.
Qed.

(** The named amounts are not negative. *)
Definition reserves_ok s : Prop :=
  forall k rs, reserves s !! k = Some rs -> Forall (fun r => 0 <= reserve_amount r) rs.

Lemma reserves_amount rs i : Forall (fun r => 0 <= reserve_amount r) rs -> 0 <= amount_at rs i.
Proof.
  intros Hf. unfold amount_at. destruct (rs !! i) as [r|] eqn:E; [|done].
  by apply (Forall_lookup_1 _ _ _ _ Hf) in E.
Qed.
Lemma reserves_of_ok s who c : reserves_ok s -> Forall (fun r => 0 <= reserve_amount r) (reserves_of s who c).
Proof. intros Hs. unfold reserves_of. destruct (reserves s !! (who, c)) eqn:E; simpl; eauto. Qed.

Lemma unreserve_named_inv id c who v s s' rem :
  0 <= v -> reserves_ok s -> ledger_inv s -> unreserve_named cfg nd id c who v s = (s', rem) -> ledger_inv s'.
Proof.
  intros Hv Hrs Hinv. unfold unreserve_named. destruct (v =? 0); [by intros [= <- <-]|].
  destruct (reserves s !! (who, c)) as [rs|] eqn:E; [|by intros [= <- <-]].
  destruct (find_reserve rs id) as [i|i].
  - destruct (unreserve _ _ _ _ _ _) as [s1 r1] eqn:Eu. intros [= <- <-].
    apply (same_inv s1); [done..|]. eapply unreserve_inv; [|exact Hinv|exact Eu].
    pose proof (reserves_amount rs i (Hrs _ _ E)). lia.
  - intros [= <- <-]. by apply (same_inv s).
Qed.

Lemma slash_reserved_named_inv id c who v s s' rem :
  0 <= v -> reserves_ok s -> ledger_inv s -> slash_reserved_named cfg nd id c who v s = (s', rem) -> ledger_inv s'.
Proof.
  intros Hv Hrs Hinv. unfold slash_reserved_named. destruct (v =? 0); [by intros [= <- <-]|].
  destruct (find_reserve _ id) as [i|i]; [|intros [= <- <-]; by apply (same_inv s)].
  destruct (slash_reserved _ _ _ _ _ _) as [s1 r1] eqn:Eu. intros [= <- <-].
  apply (same_inv s1); [done..|]. eapply slash_reserved_spec; [|exact Hinv|exact Eu].
  pose proof (reserves_amount _ i (reserves_of_ok s who c Hrs)). lia.
Qed.

Lemma repatriate_named_inv id c a b v st s s' rem :
  0 <= v -> reserves_ok s -> ledger_inv s ->
  repatriate_reserved_named cfg nd id c a b v st s = (s', Ok rem) -> ledger_inv s'.
Proof.
  intros Hv Hrs Hinv. unfold repatriate_reserved_named. destruct (v =? 0); [by intros [= <- <-]|].
  destruct (bool_decide (a = b)).
  { destruct st; [|by intros [= <- <-]]. destruct (unreserve_named _ _ _ _ _ _ _) as [s1 r1] eqn:Eu.
    intros [= <- <-]. by eapply unreserve_named_inv. }
  destruct (find_reserve _ id) as [i|i]; [|intros [= <- <-]; by apply (same_inv s)].
  destruct (repatriate_reserved _ _ _ _ _ _ _ _) as [s1 r1] eqn:Er.
  apply repatriate_inv in Er as [Hinv1 _]; [|pose proof (reserves_amount _ i (reserves_of_ok s a c Hrs)); lia|done].
  destruct st; [intros [= <- <-]; by apply (same_inv s1)|].
  destruct (find_reserve _ id) as [j|j]; [intros [= <- <-]; by apply (same_inv s1)|].
  destruct (_ <? _)%nat; intros [= <- <-]; by apply (same_inv s1).
Qed.

(** *** Holds and calls *)
Lemma release_inv c who v p s s' w :
  0 <= v -> ledger_inv s -> release cfg nd c who v p s = (s', Ok w) -> ledger_inv s'.
Proof.
  intros Hv Hinv Hr. unfold release in Hr. destruct (v =? 0); run_inv; [done|].
  destruct a as [w dust]. apply try_mutate_Ok in Hm as (s2 & a & Hf & Ha & Hi & _). run_inv.
  injection Hf as -> ->. simpl in Ha, Hi.
  destruct (ledger_lk s who c Hinv) as (Hok & Htot & Hmax). unfold acc_ok, tot in *.
  set (d := lk (accounts s) who c) in *.
  rewrite (sat_add_exact _ _ (Z.min v (reserved d))) in Ha by lia.
  rewrite !sat_sub_exact in Ha by (rewrite ?sat_sub_exact; lia).
  eapply (ledger_keep cfg who c); [done| | |exact Ha|exact Hi]; unfold acc_ok, tot; simpl; fold d; lia.
Qed.

Lemma set_balance_on_hold_inv c who v s s' u :
  0 <= v -> ledger_inv s -> set_balance_on_hold cfg nd c who v s = (s', Ok u) -> ledger_inv s'.
Proof.
  intros Hv Hinv Hr. unfold set_balance_on_hold in Hr. run_inv.
  destruct a as [w dust]. apply try_mutate_Ok in Hm as (s2 & a & Hf & Ha & Hi & _). run_inv.
  injection Hf as -> ->. simpl in Ha, Hi.
  match goal with Hc : checked_add _ _ _ = Some _ |- _ => apply checked_add_Some in Hc as [-> _] end.
  match goal with Hc : checked_sub _ _ = Some _ |- _ => apply checked_sub_Some in Hc as [-> Hle] end.
  destruct (ledger_lk s who c Hinv) as (Hok & _). unfold acc_ok in Hok.
  eapply (ledger_keep cfg who c); [done| | |exact Ha|exact Hi]; unfold acc_ok, tot; simpl; lia.
Qed.

(** The new issuance that [set_balance] computes. *)
Lemma set_balance_issuance (iss old new : Z) v :
  iss <= U128_MAX ->
  (if old <? new then ok_or (checked_add U128_MAX iss (sat_sub new old)) overflow
   else if new <? old then ok_or (checked_sub iss (sat_sub old new)) underflow else Ok iss) = Ok v ->
  v = iss + (new - old) /\ v <= U128_MAX.
Proof.
  intros Hi. destruct (Z.ltb_spec old new); [|destruct (Z.ltb_spec new old)]; intros Hv; run_inv.
  - apply checked_add_Some in Hv as [-> ?]. rewrite sat_sub_exact in * by lia. done.
  - apply checked_sub_Some in Hv as [-> ?]. rewrite sat_sub_exact in * by lia. lia.
  - injection Hv as <-. lia.
Qed.

Lemma set_balance_inv {Source} (lookup : Source -> res DispatchError A) o src c f r s s' u :
  0 <= f -> 0 <= r -> ledger_inv s -> set_balance cfg nd lookup o src c f r s = (s', Ok u) -> ledger_inv s'.
Proof.
  intros Hf Hr Hinv Hs. unfold set_balance in Hs. run_inv. rename a0 into who, a1 into res.
  destruct res as [[] dust]. apply try_mutate_Ok in Hm1 as (s9 & a1 & Hcl & Ha & Hi & _).
  apply bind_Ok in Hcl as (nt & s8 & Hc & Hcl). run_inv. apply checked_add_Some in Hc as [-> Hmaxn].
  destruct (ledger_lk s who c Hinv) as (Hok & Htot & Hmax). set (d := lk (accounts s) who c) in *.
  rewrite total_exact in Hcl by lia.
  assert (exists nf nr, (if f + r <? ExistentialDeposits cfg c then (0, 0, 0) else (f + r, f, r)) = (nf + nr, nf, nr) /\
            0 <= nf /\ 0 <= nr) as (nf & nr & Hq & ? & ?).
  { destruct (_ <? _); [exists 0, 0|exists f, r]; done. }
  rewrite Hq in Hcl. run_inv. injection Hcl as ->.
  match goal with Hv : (if _ <? _ then _ else _) = Ok ?v |- _ => apply set_balance_issuance in Hv as [Hv ?]; [|done] end.
  simpl in Ha, Hi. destruct (Z.eqb_spec (tot d) (nf + nr)) as [He|Hne]; simpl in Ha, Hi.
  - eapply (ledger_keep cfg who c); [done| | |exact Ha|exact Hi]; unfold acc_ok in *; simpl; [lia|].
    fold d. rewrite He. done.
  - eapply (ledger_write cfg who c); [done| |exact Ha|right; by eexists|..].
    + unfold acc_ok in *; simpl; lia.
    + unfold total_issuance at 1. rewrite Hi, lookup_insert_eq. unfold tot at 1. simpl. fold d. lia.
    + unfold total_issuance. rewrite Hi, lookup_insert_eq. simpl. lia.
Qed.

Lemma transfer_each_inv a b l s s' u :
  Forall (fun e => 0 <= free e.2) l -> ledger_inv s ->
  transfer_each cfg nd a b l s = (s', Ok u) -> ledger_inv s'.
Proof.
  intros Hl. revert s. induction Hl as [|[c d] l Hd Hl IH]; intros s Hinv; simpl; intros Hr; run_inv; [done|].
  eapply IH; [|exact Hr]. by eapply do_transfer_inv.
Qed.

Lemma transfer_all_inv a b s s' u :
  ledger_inv s -> pallet_transfer_all cfg nd a b s = (s', Ok u) -> ledger_inv s'.
Proof.
  intros Hinv Hr. unfold pallet_transfer_all in Hr. run_inv. eapply transfer_each_inv; [|done..].
  unfold entries_of. apply Forall_fmap, Forall_forall. intros [k d] Hin.
  apply list_elem_of_filter in Hin as [_ Hin]. apply elem_of_map_to_list in Hin. simpl.
  destruct Hinv as [Hok _ _]. by destruct (Hok _ _ Hin).
Qed.

Lemma update_balance_inv c who v s s' u :
  ledger_inv s -> update_balance cfg nd c who v s = (s', Ok u) -> ledger_inv s'.
Proof.
  intros Hinv Hr. unfold update_balance in Hr. destruct (v =? 0); run_inv; [done|].
  destruct (in_ub _ _) eqn:Eb in *; run_inv.
  match goal with Hv : Ok _ = Ok _ |- _ => injection Hv as <- end. apply in_ub_spec in Eb as [Hb _].
  destruct (0 <? v).
  - unfold deposit in Hr. run_inv. by eapply do_deposit_inv.
  - unfold withdraw in Hr. by eapply do_withdraw_inv.
Qed.
End locks_and_calls.

(** *** What operations leave alone *)
Section frames.
Context {X A C : Type} `{Countable A} `{Countable C}.
Context `{SystemRefs X A} `{TokenHooks X A C}.
Variable cfg : TokensConfig A C.
Abbreviation St := (Tokens X A C).
Abbreviation nd := (no_dust (X := X) (A := A) (C := C)).
Implicit Types s : St.

(** The runtime's existential deposits: no account is ever reaped. *)
Definition zero_ed : Prop := forall c, ExistentialDeposits cfg c = 0.

(** The locks stay, and so does what they freeze. *)
Definition keeps_locks s s' : Prop :=
  locks s' = locks s /\
  (zero_ed -> all_ok (accounts s) ->
   all_ok (accounts s') /\ forall who c, frozen (lk (accounts s') who c) = frozen (lk (accounts s) who c)).
Definition keeps s s' : Prop := keeps_locks s s' /\ reserves s' = reserves s.

Lemma keeps_locks_trans s1 s2 s3 : keeps_locks s1 s2 -> keeps_locks s2 s3 -> keeps_locks s1 s3.
Proof.
  intros [L1 F1] [L2 F2]. split; [congruence|].
  intros Hz Hok. destruct (F1 Hz Hok) as [Hok2 E1]. destruct (F2 Hz Hok2) as [Hok3 E2].
  split; [done|]. intros. by rewrite E2, E1.
Qed.
Lemma keeps_trans s1 s2 s3 : keeps s1 s2 -> keeps s2 s3 -> keeps s1 s3.
Proof. intros [K1 R1] [K2 R2]. split; [by eapply keeps_locks_trans|congruence]. Qed.
Lemma keeps_same s s' : accounts s' = accounts s -> locks s' = locks s -> reserves s' = reserves s -> keeps s s'.
Proof. intros Ha Hl Hr. split; [split|]; rewrite ?Ha; auto. Qed.
Lemma keeps_untouched s s' : untouched s s' -> keeps s s'.
Proof. intros (? & _ & ? & ?). by apply keeps_same. Qed.

Lemma stored_zero_ed c a : zero_ed -> acc_ok a -> stored cfg c a = Some a.
Proof.
  intros Hz Ha. unfold stored. rewrite Hz. pose proof (total_nonneg a Ha).
  destruct (Z.ltb_spec (total a) 0); [lia|done].
Qed.

Lemma keeps_write who c a s s' :
  (acc_ok (lk (accounts s) who c) -> acc_ok a) -> frozen a = frozen (lk (accounts s) who c) ->
  accounts s' = wr cfg c who a (accounts s) -> locks s' = locks s -> reserves s' = reserves s -> keeps s s'.
Proof.
  intros Ha Hf Hacc Hl Hr. split; [split|]; [done| |done]. intros Hz Hok.
  assert (acc_ok a) as Haok by (apply Ha; by apply lk_ok).
  rewrite Hacc. split; [by apply wr_ok|]. intros who' c'.
  destruct (decide ((who', c') = (who, c))) as [[= -> ->]|Hne]; [|by rewrite lk_wr_ne].
  unfold lk at 1, wr. rewrite lookup_partial_alter_eq, stored_zero_ed by done. done.
Qed.

(** A mutation whose closure computes the account [g] from the old one. *)
Lemma keeps_mutate {R} who c (g : AccountData -> AccountData) ev (v : AccountData -> R) s :
  (forall d s, untouched s (ev d s)) ->
  (acc_ok (lk (accounts s) who c) -> acc_ok (g (lk (accounts s) who c))) ->
  frozen (g (lk (accounts s) who c)) = frozen (lk (accounts s) who c) ->
  keeps s (mutate_account cfg nd who c (fun d _ s => (ev d s, (g d, v d))) s).1.
Proof.
  intros Hev Hok Hf. destruct (mutate_account_pure cfg who c g ev v s Hev) as (s1 & -> & Ha & _ & Hl & Hr).
  by eapply keeps_write.
Qed.

Lemma keeps_set_free c who v s : 0 <= v -> keeps s (set_free_balance cfg nd c who v s).
Proof.
  intros Hv. apply (keeps_mutate who c (fun d => mkAcc v (reserved d) (frozen d))
    (fun d => emit (EvBalanceSet c who v (reserved d))) (fun _ => tt)); try done.
  unfold acc_ok; simpl; lia.
Qed.
Lemma keeps_set_reserved c who v s : 0 <= v -> keeps s (set_reserved_balance cfg nd c who v s).
Proof.
  intros Hv. apply (keeps_mutate who c (fun d => mkAcc (free d) v (frozen d))
    (fun d => emit (EvBalanceSet c who (free d) v)) (fun _ => tt)); try done.
  unfold acc_ok; simpl; lia.
Qed.
Lemma keeps_set_issuance c v s : keeps s (set_issuance c v s).
Proof. by apply keeps_same. Qed.

Lemma do_transfer_keeps c from to v er s s' u :
  0 <= v -> do_transfer cfg nd c from to v er s = (s', Ok u) -> keeps s s'.
Proof.
  intros Hv Hr. destruct (decide (v = 0)) as [->|Hv0].
  { unfold do_transfer in Hr. cbn [orb Z.eqb] in Hr. run_inv. by apply keeps_same. }
  destruct (decide (from = to)) as [->|Hft].
  { unfold do_transfer in Hr. rewrite bool_decide_eq_true_2, orb_true_r in Hr by done. run_inv. by apply keeps_same. }
  apply do_transfer_Ok in Hr as (Hle & _ & _ & _ & _ & Hacc & _ & Hl & Hr); [|done..].
  set (s1 := set_accounts (wr cfg c from (debit v (lk (accounts s) from c)) (accounts s)) s).
  apply (keeps_trans s s1 s').
  - apply (keeps_write from c (debit v (lk (accounts s) from c))); try done. intros. by apply acc_ok_debit.
  - eapply (keeps_write to c); [| |exact Hacc|done..]; simpl; rewrite lk_wr_ne by congruence; [|done].
    intros. by apply acc_ok_credit.
Qed.

Lemma do_withdraw_keeps c who v er burn s s' u :
  do_withdraw cfg nd c who v er burn s = (s', Ok u) -> keeps s s'.
Proof.
  intros Hr. destruct (decide (v = 0)) as [->|Hv0].
  { unfold do_withdraw in Hr. simpl in Hr. run_inv. by apply keeps_same. }
  apply do_withdraw_Ok in Hr as (Hle & _ & Ha & _ & Hl & Hr); [|done].
  eapply keeps_write; [| |exact Ha|done..]; [|done]. unfold acc_ok; simpl. rewrite sat_sub_exact; lia.
Qed.
Lemma do_deposit_keeps c who v req mint s s' w :
  0 <= v -> do_deposit cfg nd c who v req mint s = (s', Ok w) -> keeps s s'.
Proof.
  intros Hv Hr. destruct (decide (v = 0)) as [->|Hv0].
  { unfold do_deposit in Hr. simpl in Hr. run_inv. by apply keeps_same. }
  apply do_deposit_Ok in Hr as (_ & _ & Ha & _ & Hl & Hr); [|done].
  eapply keeps_write; [| |exact Ha|done..]; [|done]. unfold acc_ok; simpl. uints.
Qed.

Lemma slash_keeps c who v s s' rem : slash cfg nd c who v s = (s', rem) -> keeps s s'.
Proof.
  unfold slash. destruct (v =? 0); [intros [= <- <-]; by apply keeps_same|]. cbv zeta.
  set (s0 := on_rest (OnSlash c who v) s). set (f := Z.min _ v). set (r := Z.min _ (sat_sub v f)).
  set (s1 := if f =? 0 then s0 else _).
  assert (keeps s s1) as K1.
  { unfold s1. destruct (f =? 0); [by apply keeps_untouched|]. apply keeps_trans with s0; [by apply keeps_untouched|].
    apply keeps_set_free. unfold sat_sub. lia. }
  clearbody s1. destruct (r =? 0); intros [= <- <-].
  - apply keeps_trans with s1; [done|]. by apply keeps_same.
  - apply keeps_trans with s1; [done|].
    apply keeps_trans with (set_reserved_balance cfg nd c who (sat_sub (reserved (account_of s0 who c)) r) s1);
      [apply keeps_set_reserved; unfold sat_sub; lia|by apply keeps_same].
Qed.
Lemma adapter_slash_keeps c who v s s' r : adapter_slash cfg nd c who v s = (s', r) -> keeps s s'.
Proof.
  unfold adapter_slash. destruct (v =? 0); [intros [= <- <-]; by apply keeps_same|]. cbv zeta.
  set (f := Z.min _ v). set (s1 := if f =? 0 then s else _).
  assert (keeps s s1) as K1.
  { unfold s1. destruct (f =? 0); [by apply keeps_same|]. apply keeps_set_free. unfold sat_sub. lia. }
  clearbody s1. intros Hx. apply (keeps_trans s s1); [done|]. destruct (sat_sub v f =? 0).
  - assert (s' = emit (EvSlashed c who v 0) s1) as -> by congruence. by apply keeps_untouched.
  - set (s2 := set_reserved_balance cfg nd c who _ s1) in *.
    apply (keeps_trans s1 s2); [apply keeps_set_reserved; unfold sat_sub; lia|].
    assert (s' = emit (EvSlashed c who f (Z.min (reserved (account_of s who c)) (sat_sub v f))) s2) as -> by congruence.
    by apply keeps_untouched.
Qed.
Lemma slash_reserved_keeps c who v s s' rem : slash_reserved cfg nd c who v s = (s', rem) -> keeps s s'.
Proof.
  unfold slash_reserved. destruct (v =? 0); [intros [= <- <-]; by apply keeps_same|]. cbv zeta.
  set (s0 := on_rest (OnSlash c who v) s).
  match goal with |- context [(mutate_account ?g ?h ?w ?k ?f ?t).1] => set (s1 := (mutate_account g h w k f t).1) end.
  intros Heq. assert (s' = emit (EvSlashed c who 0 (Z.min (reserved_balance s0 c who) v))
    (set_issuance c (sat_sub (total_issuance s1 c) (Z.min (reserved_balance s0 c who) v)) s1)) as -> by congruence.
  apply (keeps_trans s s0); [by apply keeps_untouched|].
  apply (keeps_trans s0 s1); [|by apply keeps_same].
  apply (keeps_mutate who c (fun d => mkAcc (free d) _ (frozen d)) (fun _ s => s) (fun _ => tt)); try done.
  unfold acc_ok; simpl. unfold sat_sub. lia.
Qed.
Lemma reserve_keeps c who v s s' u : 0 <= v -> reserve cfg nd c who v s = (s', Ok u) -> keeps s s'.
Proof.
  intros Hv Hr. unfold reserve in Hr. destruct (v =? 0); run_inv; [by apply keeps_same|].
  apply (keeps_mutate who c (fun d => mkAcc (sat_sub (free d) v) (sat_add U128_MAX (reserved d) v) (frozen d))
    (fun _ => emit (EvReserved c who v)) (fun _ => tt)); try done.
  unfold acc_ok; simpl. uints.
Qed.
Lemma unreserve_keeps c who v s s' rem : 0 <= v -> unreserve cfg nd c who v s = (s', rem) -> keeps s s'.
Proof.
  intros Hv. unfold unreserve. destruct (v =? 0); [intros [= <- <-]; by apply keeps_same|].
  set (g := fun d => mkAcc (sat_add U128_MAX (free d) (Z.min (reserved d) v))
                       (sat_sub (reserved d) (Z.min (reserved d) v)) (frozen d)).
  pose proof (keeps_mutate who c g (fun d => emit (EvUnreserved c who (Z.min (reserved d) v)))
    (fun d => sat_sub v (Z.min (reserved d) v)) s ltac:(done)) as Hk.
  unfold g in Hk at 3. destruct (mutate_account _ _ _ _ _ s) as [s1 o]. intros [= <- <-].
  apply Hk; [|done]. unfold acc_ok; simpl. uints.
Qed.
Lemma repatriate_keeps c a b v st s s' rem :
  0 <= v -> all_ok (accounts s) -> repatriate_reserved cfg nd c a b v st s = (s', rem) -> keeps s s'.
Proof.
  intros Hv Hall. pose proof (lk_ok _ a c Hall) as Ha. pose proof (lk_ok _ b c Hall) as Hb. unfold acc_ok in *.
  unfold repatriate_reserved. destruct (v =? 0); [intros [= <- <-]; by apply keeps_same|].
  destruct (bool_decide (a = b)).
  { destruct st; [by apply unreserve_keeps|]. intros [= <- <-]. by apply keeps_same. }
  rewrite !account_of_lk. intros [= <- <-].
  eapply keeps_trans; [|apply keeps_untouched, emit_untouched].
  eapply keeps_trans; [|apply keeps_set_reserved; unfold sat_sub; lia].
  destruct st; [apply keeps_set_free|apply keeps_set_reserved]; uints.
Qed.
Lemma try_mutate_keeps {E R} who c f s s' (r : R) d :
  try_mutate_account (E := E) cfg nd who c f s = (s', Ok (r, d)) ->
  (forall ex s1 a, f (lk (accounts s) who c) ex s = (s1, Ok (a, r)) ->
     accounts s1 = accounts s /\ locks s1 = locks s /\ reserves s1 = reserves s /\
     (acc_ok (lk (accounts s) who c) -> acc_ok a) /\ frozen a = frozen (lk (accounts s) who c)) ->
  keeps s s'.
Proof.
  intros (s1 & a & Hf & Ha & _ & Hl & Hr)%try_mutate_Ok Hcl.
  destruct (Hcl _ _ _ Hf) as (E1 & E2 & E3 & Hok & Hfr). rewrite E1 in Ha.
  eapply keeps_write; [done..| |]; congruence.
Qed.
Lemma release_keeps c who v p s s' w : 0 <= v -> release cfg nd c who v p s = (s', Ok w) -> keeps s s'.
Proof.
  intros Hv Hr. unfold release in Hr. destruct (v =? 0); run_inv; [by apply keeps_same|].
  destruct a as [w dust]. eapply try_mutate_keeps; [exact Hm|]. intros ex s1 a Hf. cbv beta in Hf. run_inv.
  injection Hf as -> _.
  split_and!; try done. unfold acc_ok; simpl. uints.
Qed.
Lemma set_balance_on_hold_keeps c who v s s' u :
  0 <= v -> set_balance_on_hold cfg nd c who v s = (s', Ok u) -> keeps s s'.
Proof.
  intros Hv Hr. unfold set_balance_on_hold in Hr. run_inv. destruct a as [[] dust].
  eapply try_mutate_keeps; [exact Hm|]. intros ex s2 a Hf. cbv beta in Hf. run_inv. injection Hf as ->.
  match goal with Hc : checked_sub _ _ = Some _ |- _ => apply checked_sub_Some in Hc as [-> Hle] end.
  split_and!; try done. unfold acc_ok; simpl. lia.
Qed.
Lemma set_balance_keeps {Source} (lookup : Source -> res DispatchError A) o src c f r s s' u :
  0 <= f -> 0 <= r -> set_balance cfg nd lookup o src c f r s = (s', Ok u) -> keeps s s'.
Proof.
  intros Hf Hr Hs. unfold set_balance in Hs. run_inv. destruct a1 as [[] dust].
  eapply try_mutate_keeps; [exact Hm1|]. intros ex s3 a1 Hcl. cbv beta in Hcl.
  apply bind_Ok in Hcl as (nt & s4 & Hnt & Hcl). apply mlift_Ok in Hnt as [-> _].
  destruct (nt <? _) in Hcl; run_inv; injection Hcl as ->; destruct (_ =? _); simpl;
    (split_and!; try done); unfold acc_ok; simpl; lia.
Qed.
Lemma transfer_each_keeps a b l s s' u :
  Forall (fun e => 0 <= free e.2) l -> transfer_each cfg nd a b l s = (s', Ok u) -> keeps s s'.
Proof.
  intros Hl. revert s. induction Hl as [|[c d] l Hd Hl IH]; intros s; simpl; intros Hr; run_inv; [by apply keeps_same|].
  eapply keeps_trans; [by eapply do_transfer_keeps|by eapply IH].
Qed.
End frames.

(** *** Reachable ledgers *)
Section reachable.
Context {X A C : Type} `{Countable A} `{Countable C}.
Context `{SystemRefs X A} `{TokenHooks X A C}.
Variable cfg : TokensConfig A C.
Abbreviation St := (Tokens X A C).
Abbreviation nd := (no_dust (X := X) (A := A) (C := C)).
Implicit Types s : St.

(** A list of named reserves: amounts under strictly increasing identifiers, no more of
    them than configured. *)
Record named_ok (rs : list ReserveData) : Prop := {
  no_amounts : Forall (fun r => 0 <= reserve_amount r) rs;
  no_sorted : StronglySorted Z.lt (reserve_id <$> rs);
  no_bound : (length rs <= MaxReserves cfg)%nat;
}.
Definition all_named_ok s : Prop := forall k rs, reserves s !! k = Some rs -> named_ok rs.

Record tokens_inv s : Prop := {
  ti_ledger : ledger_inv s;
  ti_reserves : all_named_ok s;
  ti_frozen : zero_ed cfg -> forall who c, frozen (lk (accounts s) who c) = max_lock (locks_of s who c);
}.

Lemma tokens_inv_locks s s' :
  tokens_inv s -> ledger_inv s' -> keeps_locks cfg s s' -> all_named_ok s' -> tokens_inv s'.
Proof.
  intros [Hl Hr Hf] Hl' [Hlk Hk] Hr'. split; [done..|]. intros Hz who c.
  destruct (Hk Hz (balances_ok _ Hl)) as [_ ->]. rewrite Hf by done. unfold locks_of. by rewrite Hlk.
Qed.
Lemma tokens_inv_keeps s s' : tokens_inv s -> ledger_inv s' -> keeps cfg s s' -> tokens_inv s'.
Proof.
  intros Hi Hl' [Hk Hr]. eapply tokens_inv_locks; [done..|]. unfold all_named_ok. rewrite Hr. apply Hi.
Qed.

Lemma tokens_inv_update_locks c who ls s s' u :
  tokens_inv s -> update_locks cfg nd c who ls s = (s', Ok u) -> tokens_inv s'.
Proof.
  intros [Hl Hr Hf] Hu. pose proof (update_locks_inv _ _ _ _ _ _ _ Hl Hu) as Hl'.
  apply update_locks_Ok in Hu as (Ha & _ & Hrs & Hls & Hne). split; [done|by unfold all_named_ok; rewrite Hrs|].
  intros Hz who' c'. rewrite Ha. pose proof (lk_ok _ who c (balances_ok _ Hl)) as Hok.
  destruct (decide ((who', c') = (who, c))) as [[= -> ->]|Hk].
  - rewrite Hls. unfold lk at 1, wr. rewrite lookup_partial_alter_eq, stored_zero_ed; [done..|].
    pose proof (max_lock_nonneg ls). unfold acc_ok, freeze in *. simpl. lia.
  - rewrite lk_wr_ne, Hf by done. unfold locks_of. by rewrite Hne.
Qed.

Lemma tokens_inv_event e s : tokens_inv s -> tokens_inv (emit e s).
Proof. intros Hi. eapply tokens_inv_keeps; [exact Hi|by apply (untouched_inv s), Hi|by apply keeps_untouched]. Qed.

(** Named reserves stay in order. *)
Lemma named_nil : named_ok [].
Proof. split; [constructor|constructor|cbn; lia]. Qed.
Lemma reserves_of_named s who c : tokens_inv s -> named_ok (reserves_of s who c).
Proof. intros Hi. unfold reserves_of. destruct (reserves s !! (who, c)) eqn:E; [by eapply Hi|apply named_nil]. Qed.
Lemma set_amount_ids i v rs : reserve_id <$> set_amount_at i v rs = reserve_id <$> rs.
Proof. revert i. induction rs as [|r rs IH]; intros [|i]; cbn; [done..|]. f_equal. apply IH. Qed.
Lemma set_amount_ok i v rs : 0 <= v -> named_ok rs -> named_ok (set_amount_at i v rs).
Proof.
  intros Hv [H1' H2' H3']. split; [apply Forall_alter; [done|]; by intros|by rewrite set_amount_ids|].
  unfold set_amount_at. by rewrite length_alter.
Qed.
Lemma insert_reserve_ok i r rs : 0 <= reserve_amount r -> find_reserve rs (reserve_id r) = inr i ->
  (length rs < MaxReserves cfg)%nat -> named_ok rs -> named_ok (insert_reserve i r rs).
Proof.
  intros Hr Hf Hlen [H1' H2' H3']. split; unfold insert_reserve.
  - rewrite Forall_app, Forall_cons. split_and!; [by apply Forall_take|done|by apply Forall_drop].
  - rewrite fmap_app, fmap_cons, fmap_take, fmap_drop. by apply insert_at_sorted.
  - rewrite length_app, length_take. cbn. rewrite length_drop. lia.
Qed.
Lemma remove_reserve_ok i rs : named_ok rs -> named_ok (remove_reserve i rs).
Proof.
  intros [H1' H2' H3']. unfold remove_reserve. rewrite <- delete_take_drop. split.
  - by apply Forall_delete.
  - rewrite list_fmap_delete. by apply sorted_delete.
  - rewrite delete_take_drop, length_app, length_take, length_drop. lia.
Qed.
Lemma all_named_put who c (o : option (list ReserveData)) s :
  all_named_ok s -> (forall rs, o = Some rs -> named_ok rs) ->
  all_named_ok (set_reserves (partial_alter (fun _ => o) (who, c) (reserves s)) s).
Proof.
  intros Hs Ho k rs. simpl. destruct (decide (k = (who, c))) as [->|].
  - rewrite lookup_partial_alter_eq. apply Ho.
  - rewrite lookup_partial_alter_ne by done. apply Hs.
Qed.

Lemma keeps_locks_put rs s : keeps_locks cfg s (set_reserves rs s).
Proof. by split. Qed.

Lemma tokens_inv_put who c o s s1 :
  tokens_inv s -> ledger_inv s1 -> keeps cfg s s1 -> (forall rs, o = Some rs -> named_ok rs) ->
  tokens_inv (set_reserves (partial_alter (fun _ => o) (who, c) (reserves s1)) s1).
Proof.
  intros Hi Hl1 [Hk Hr] Ho. eapply tokens_inv_locks; [exact Hi|by apply (same_inv s1)| |].
  - eapply keeps_locks_trans; [exact Hk|apply keeps_locks_put].
  - apply all_named_put; [|done]. unfold all_named_ok. rewrite Hr. apply Hi.
Qed.
Lemma tokens_inv_put_reserves who c rs s s1 :
  tokens_inv s -> ledger_inv s1 -> keeps cfg s s1 -> named_ok rs -> tokens_inv (put_reserves who c rs s1).
Proof. intros. apply (tokens_inv_put who c (Some rs) s); [done..|]. by intros ? [= <-]. Qed.

Lemma keeps_refl s : keeps cfg s s.
Proof. by apply keeps_same. Qed.

Lemma tokens_inv_reserve_named id c who v s s' u :
  0 <= v -> tokens_inv s -> reserve_named cfg nd id c who v s = (s', Ok u) -> tokens_inv s'.
Proof.
  intros Hv Hi Hr. unfold reserve_named in Hr. destruct (v =? 0); run_inv; [done|].
  pose proof (reserves_of_named s who c Hi) as Hrs.
  eapply tokens_inv_put_reserves; [exact Hi|eapply reserve_inv; [done|apply Hi|done]|by eapply reserve_keeps|].
  destruct (find_reserve (reserves_of s who c) id) as [i|i] eqn:Ef.
  - match goal with Hx : Ok _ = Ok _ |- _ => injection Hx as <- end. apply set_amount_ok; [|done].
    pose proof (reserves_amount _ i (no_amounts _ Hrs)). uints.
  - destruct (Nat.ltb_spec (length (reserves_of s who c)) (MaxReserves cfg)); [|done]. match goal with Hx : Ok _ = Ok _ |- _ => injection Hx as <- end.
    by apply insert_reserve_ok.
Qed.

Lemma tokens_inv_unreserve_named id c who v s s' rem :
  0 <= v -> tokens_inv s -> unreserve_named cfg nd id c who v s = (s', rem) -> tokens_inv s'.
Proof.
  intros Hv Hi. unfold unreserve_named. destruct (v =? 0); [by intros [= <- <-]|].
  destruct (reserves s !! (who, c)) as [rs|] eqn:E; [|by intros [= <- <-]].
  pose proof (ti_reserves _ Hi _ _ E) as Hrs. destruct (find_reserve rs id) as [i|i].
  - pose proof (reserves_amount rs i (no_amounts _ Hrs)) as Hamt.
    destruct (unreserve _ _ _ _ _ _) as [s1 r1] eqn:Eu. intros [= <- <-].
    apply (tokens_inv_put who c _ s); [done|..].
    + eapply unreserve_inv; [|apply Hi|exact Eu]. lia.
    + eapply unreserve_keeps; [|exact Eu]. lia.
    + intros rs' Hrs'. destruct (sat_sub _ _ =? 0) in Hrs'; [destruct (_ =? _)%nat in Hrs'; [done|]|];
        injection Hrs' as <-; [by apply remove_reserve_ok|]. apply set_amount_ok; [|done]. unfold sat_sub. lia.
  - intros [= <- <-]. apply (tokens_inv_put_reserves who c rs s); auto using keeps_refl. apply Hi.
Qed.

Lemma tokens_inv_slash_named id c who v s s' rem :
  0 <= v -> tokens_inv s -> slash_reserved_named cfg nd id c who v s = (s', rem) -> tokens_inv s'.
Proof.
  intros Hv Hi. unfold slash_reserved_named. destruct (v =? 0); [by intros [= <- <-]|].
  pose proof (reserves_of_named s who c Hi) as Hrs.
  destruct (find_reserve _ id) as [i|i].
  - pose proof (reserves_amount _ i (no_amounts _ Hrs)) as Hamt.
    destruct (slash_reserved _ _ _ _ _ _) as [s1 r1] eqn:Eu. intros [= <- <-].
    apply (tokens_inv_put_reserves who c _ s); [done|..].
    + apply (untouched_inv s1); [done|]. eapply slash_reserved_spec; [|apply Hi|exact Eu]. lia.
    + eapply keeps_trans; [by eapply slash_reserved_keeps|by apply keeps_untouched].
    + apply set_amount_ok; [|done]. unfold sat_sub. lia.
  - intros [= <- <-]. apply (tokens_inv_put_reserves who c _ s); auto using keeps_refl. apply Hi.
Qed.

Lemma tokens_inv_repatriate_named id c a b v st s s' rem :
  0 <= v -> tokens_inv s -> repatriate_reserved_named cfg nd id c a b v st s = (s', Ok rem) -> tokens_inv s'.
Proof.
  intros Hv Hi. unfold repatriate_reserved_named. destruct (v =? 0); [by intros [= <- <-]|].
  destruct (bool_decide (a = b)).
  { destruct st; [|by intros [= <- <-]]. destruct (unreserve_named _ _ _ _ _ _ _) as [s1 r1] eqn:Eu.
    intros [= <- <-]. by eapply tokens_inv_unreserve_named. }
  pose proof (reserves_of_named s a c Hi) as Hra.
  pose proof (reserves_of_named s b c Hi) as Hrb.
  destruct (find_reserve (reserves_of s a c) id) as [i|i].
  2:{ intros [= <- <-]. apply (tokens_inv_put_reserves a c _ s); auto using keeps_refl. apply Hi. }
  pose proof (reserves_amount _ i (no_amounts _ Hra)) as Hamt.
  destruct (repatriate_reserved _ _ _ _ _ _ _ _) as [s1 r1] eqn:Er.
  assert (keeps cfg s s1) as Hk by (eapply repatriate_keeps; [|apply Hi|exact Er]; lia).
  apply repatriate_inv in Er as [Hl1 _]; [|lia|apply Hi].
  assert (tokens_inv s1) as Hi1 by (by eapply tokens_inv_keeps).
  assert (forall s2, tokens_inv s2 -> tokens_inv
            (put_reserves a c (set_amount_at i (sat_sub (amount_at (reserves_of s a c) i)
               (sat_sub (Z.min (amount_at (reserves_of s a c) i) v) r1)) (reserves_of s a c)) s2)) as Hdone.
  { intros s2 Hi2. apply (tokens_inv_put_reserves a c _ s2); auto using keeps_refl; [apply Hi2|].
    apply set_amount_ok; [|done]. unfold sat_sub. lia. }
  destruct st; [intros [= <- <-]; by apply Hdone|].
  destruct (find_reserve (reserves_of s b c) id) as [j|j] eqn:Ej.
  - intros [= <- <-]. apply Hdone. apply (tokens_inv_put_reserves b c _ s1); auto using keeps_refl.
    apply set_amount_ok; [|done]. pose proof (reserves_amount _ j (no_amounts _ Hrb)). uints.
  - destruct (Nat.ltb_spec (length (reserves_of s b c)) (MaxReserves cfg)); intros [= <- <-]. apply Hdone.
    apply (tokens_inv_put_reserves b c _ s1); auto using keeps_refl.
    apply insert_reserve_ok; [|done..]. simpl. unfold sat_sub. lia.
Qed.
End reachable.

Section steps.
Context {X A C : Type} `{Countable A} `{Countable C}.
Context `{SystemRefs X A} `{TokenHooks X A C}.
Variable cfg : TokensConfig A C.
Context {Source : Type} (lookup : Source -> res DispatchError A).
Abbreviation St := (Tokens X A C).
Abbreviation nd := (no_dust (X := X) (A := A) (C := C)).
Implicit Types s : St.

(** An adapter operation followed by the drop of its imbalance. *)
Definition settled_withdraw (c : C) (who : A) (v : Z) (er : ExistenceRequirement) : M St DispatchError unit :=
  let! i := adapter_withdraw cfg nd c who v er in mmodify (drop_negative c i).
Definition settled_deposit (c : C) (who : A) (v : Z) : M St DispatchError unit :=
  let! i := adapter_deposit_into_existing cfg nd c who v in mmodify (drop_positive c i).

Lemma withdraw_drop_inv c who v er s s' u :
  0 <= v -> ledger_inv s -> do_withdraw cfg nd c who v er false s = (s', Ok u) ->
  ledger_inv (drop_negative c v s').
Proof.
  intros Hv Hinv Hm. destruct (ledger_lk s who c Hinv) as (Hok & Htot & Hmax). unfold drop_negative.
  destruct (decide (v = 0)) as [->|Hv0].
  { unfold do_withdraw in Hm. simpl in Hm. run_inv. unfold acc_ok, tot in *. rewrite sat_sub_exact by lia.
    eapply inv_drift; [apply drift_issue; [by apply drift_inv|lia]|]. lia. }
  apply do_withdraw_Ok in Hm as (Hle & _ & Ha & Hi & _); [|done].
  set (d := lk (accounts s) who c) in *. unfold acc_ok, tot in Hok, Htot.
  assert (total_issuance s' c = total_issuance s c) as Ht by (unfold total_issuance; by rewrite Hi).
  rewrite Ht, sat_sub_exact by lia. rewrite sat_sub_exact in Ha by lia.
  eapply inv_drift; [apply drift_issue; [|lia]|].
  - eapply (drift_write cfg c 0 v who); [by apply drift_inv| |exact Ha|exact Hi|]; unfold acc_ok, tot; simpl; fold d; lia.
  - lia.
Qed.

Lemma deposit_drop_inv c who v req s s' w :
  0 <= v -> ledger_inv s -> do_deposit cfg nd c who v req false s = (s', Ok w) ->
  ledger_inv (drop_positive c v s').
Proof.
  intros Hv Hinv Hm. destruct (ledger_lk s who c Hinv) as (Hok & Htot & Hmax). unfold drop_positive.
  destruct (decide (v = 0)) as [->|Hv0].
  { unfold do_deposit in Hm. simpl in Hm. run_inv. rewrite sat_add_exact by lia.
    eapply inv_drift; [apply drift_issue; [by apply drift_inv|lia]|]. lia. }
  apply do_deposit_Ok in Hm as (_ & Hmaxv & Ha & Hi & _); [|done].
  set (d := lk (accounts s) who c) in *. unfold acc_ok, tot in Hok, Htot.
  assert (total_issuance s' c = total_issuance s c) as Ht by (unfold total_issuance; by rewrite Hi).
  rewrite Ht, sat_add_exact by lia. rewrite sat_add_exact in Ha by lia.
  eapply inv_drift; [apply drift_issue; [|lia]|].
  - eapply (drift_write cfg c 0 (- v) who); [by apply drift_inv| |exact Ha|exact Hi|]; unfold acc_ok, tot; simpl; fold d; lia.
  - lia.
Qed.

Lemma settled_withdraw_inv c who v er s s' u :
  0 <= v -> ledger_inv s -> settled_withdraw c who v er s = (s', Ok u) -> ledger_inv s' /\ keeps cfg s s'.
Proof.
  intros Hv Hinv Hr. unfold settled_withdraw, adapter_withdraw in Hr. run_inv.
  match goal with Hx : do_withdraw _ _ _ _ _ _ _ _ = _ |- _ => rename Hx into Hm end.
  split; [by eapply withdraw_drop_inv|].
  eapply keeps_trans; [by eapply do_withdraw_keeps|apply keeps_set_issuance].
Qed.

Lemma settled_deposit_inv c who v s s' u :
  0 <= v -> ledger_inv s -> settled_deposit c who v s = (s', Ok u) -> ledger_inv s' /\ keeps cfg s s'.
Proof.
  intros Hv Hinv Hr. unfold settled_deposit, adapter_deposit_into_existing in Hr. run_inv.
  match goal with Hx : do_deposit _ _ _ _ _ _ _ _ = _ |- _ => rename Hx into Hm end.
  split; [by eapply deposit_drop_inv|].
  eapply keeps_trans; [by eapply do_deposit_keeps|apply keeps_set_issuance].
Qed.

(** One operation of the pallet, as its caller commits it: the storage of an operation
    that fails is discarded. *)
Inductive step : St -> St -> Prop :=
| st_transfer c a b v er s s' u : 0 <= v -> do_transfer cfg nd c a b v er s = (s', Ok u) -> step s s'
| st_transfer_all_call o dest c k s s' u : transfer_all_call cfg nd lookup o dest c k s = (s', Ok u) -> step s s'
| st_withdraw c a v er s s' u : 0 <= v -> do_withdraw cfg nd c a v er true s = (s', Ok u) -> step s s'
| st_deposit c a v req s s' w : 0 <= v -> do_deposit cfg nd c a v req true s = (s', Ok w) -> step s s'
| st_settled_withdraw c a v er s s' u : 0 <= v -> settled_withdraw c a v er s = (s', Ok u) -> step s s'
| st_settled_deposit c a v s s' u : 0 <= v -> settled_deposit c a v s = (s', Ok u) -> step s s'
| st_settled_slash c a v s s' i r : 0 <= v -> adapter_slash cfg nd c a v s = (s', (i, r)) -> step s (drop_negative c i s')
| st_update_balance c a v s s' u : update_balance cfg nd c a v s = (s', Ok u) -> step s s'
| st_slash c a v s s' r : 0 <= v -> slash cfg nd c a v s = (s', r) -> step s s'
| st_set_lock id c a v s s' u : set_lock cfg nd id c a v s = (s', Ok u) -> step s s'
| st_extend_lock id c a v s s' u : extend_lock cfg nd id c a v s = (s', Ok u) -> step s s'
| st_remove_lock id c a s s' u : remove_lock cfg nd id c a s = (s', Ok u) -> step s s'
| st_reserve c a v s s' u : 0 <= v -> reserve cfg nd c a v s = (s', Ok u) -> step s s'
| st_unreserve c a v s s' r : 0 <= v -> unreserve cfg nd c a v s = (s', r) -> step s s'
| st_slash_reserved c a v s s' r : 0 <= v -> slash_reserved cfg nd c a v s = (s', r) -> step s s'
| st_repatriate c a b v st s s' r : 0 <= v -> repatriate_reserved cfg nd c a b v st s = (s', r) -> step s s'
| st_reserve_named id c a v s s' u : 0 <= v -> reserve_named cfg nd id c a v s = (s', Ok u) -> step s s'
| st_unreserve_named id c a v s s' r : 0 <= v -> unreserve_named cfg nd id c a v s = (s', r) -> step s s'
| st_slash_named id c a v s s' r : 0 <= v -> slash_reserved_named cfg nd id c a v s = (s', r) -> step s s'
| st_repatriate_named id c a b v st s s' r :
    0 <= v -> repatriate_reserved_named cfg nd id c a b v st s = (s', Ok r) -> step s s'
| st_mint ir c a v s s' w : 0 <= v -> mint_into cfg nd ir c a v s = (s', Ok w) -> step s s'
| st_burn ir c a v s s' w :
    0 <= v -> (forall k x, ir k = Ok x -> 0 <= x) -> burn_from cfg nd ir c a v s = (s', Ok w) -> step s s'
| st_release c a v p s s' w : 0 <= v -> release cfg nd c a v p s = (s', Ok w) -> step s s'
| st_transfer_on_hold c a b v p r s s' w : 0 <= v -> transfer_on_hold cfg nd c a b v p r s = (s', Ok w) -> step s s'
| st_set_on_hold c a v s s' u : 0 <= v -> set_balance_on_hold cfg nd c a v s = (s', Ok u) -> step s s'
| st_set_balance o src c f r s s' u :
    0 <= f -> 0 <= r -> set_balance cfg nd lookup o src c f r s = (s', Ok u) -> step s s'
| st_transfer_all a b s s' u : pallet_transfer_all cfg nd a b s = (s', Ok u) -> step s s'.

Lemma reducible_nonneg s c who p : 0 <= reducible_balance cfg s c who p.
Proof. unfold reducible_balance. destruct (_ && _); unfold sat_sub; lia. Qed.

Lemma entries_ok s who : ledger_inv s -> Forall (fun e => 0 <= free e.2) (entries_of s who).
Proof.
  intros [Hok _ _]. unfold entries_of. apply Forall_fmap, Forall_forall. intros [k d] Hin.
  apply list_elem_of_filter in Hin as [_ Hin]. apply elem_of_map_to_list in Hin. by destruct (Hok _ _ Hin).
Qed.

Ltac keep_step l1 l2 :=
  eapply tokens_inv_keeps; [eassumption|eapply l1; eauto using ti_ledger|eapply l2; eauto using balances_ok, ti_ledger].

Lemma step_inv s s' : step s s' -> tokens_inv cfg s -> tokens_inv cfg s'.
Proof.
  destruct 1; intros Hi.
  - keep_step @do_transfer_inv @do_transfer_keeps.
  - unfold transfer_all_call, fungibles_transfer in *. run_inv.
    keep_step @do_transfer_inv @do_transfer_keeps; apply reducible_nonneg.
  - keep_step @do_withdraw_inv @do_withdraw_keeps.
  - keep_step @do_deposit_inv @do_deposit_keeps.
  - eapply tokens_inv_keeps; [eassumption|..]; eapply settled_withdraw_inv; eauto using ti_ledger.
  - eapply tokens_inv_keeps; [eassumption|..]; eapply settled_deposit_inv; eauto using ti_ledger.
  - eapply tokens_inv_keeps; [eassumption|eapply adapter_slash_inv; eauto using ti_ledger|].
    eapply keeps_trans; [by eapply adapter_slash_keeps|apply keeps_set_issuance].
  - unfold update_balance in *. destruct (v =? 0); run_inv; [done|]. destruct (in_ub _ _) eqn:Eb in *; run_inv.
    match goal with Hv : Ok _ = Ok _ |- _ => injection Hv as <- end. apply in_ub_spec in Eb as [Hb _].
    destruct (0 <? v); unfold deposit, withdraw in *; run_inv.
    + keep_step @do_deposit_inv @do_deposit_keeps.
    + keep_step @do_withdraw_inv @do_withdraw_keeps.
  - eapply tokens_inv_keeps; [eassumption|eapply slash_spec; eauto using ti_ledger|by eapply slash_keeps].
  - unfold set_lock in *. destruct (v =? 0); run_inv; [done|].
    apply tokens_inv_event. by eapply tokens_inv_update_locks.
  - unfold extend_lock in *. destruct (v =? 0); run_inv; [done|]. by eapply tokens_inv_update_locks.
  - unfold remove_lock in *. run_inv. apply tokens_inv_event. by eapply tokens_inv_update_locks.
  - keep_step @reserve_inv @reserve_keeps.
  - keep_step @unreserve_inv @unreserve_keeps.
  - eapply tokens_inv_keeps; [eassumption|eapply slash_reserved_spec; eauto using ti_ledger|by eapply slash_reserved_keeps].
  - keep_step @repatriate_inv @repatriate_keeps.
  - by eapply tokens_inv_reserve_named.
  - by eapply tokens_inv_unreserve_named.
  - by eapply tokens_inv_slash_named.
  - by eapply tokens_inv_repatriate_named.
  - unfold mint_into in *. run_inv. keep_step @do_deposit_inv @do_deposit_keeps.
  - unfold burn_from in *. run_inv.
    match goal with Hx : ir _ = Ok _, Hp : forall _ _, _ -> _ |- _ => apply Hp in Hx end.
    match goal with Hx : do_withdraw _ _ _ _ _ _ _ _ = _ |- _ => rename Hx into Hw end.
    eapply tokens_inv_keeps; [eassumption| |by eapply do_withdraw_keeps].
    eapply do_withdraw_inv; [|apply Hi|exact Hw]. uints.
  - keep_step @release_inv @release_keeps.
  - unfold transfer_on_hold in *. run_inv.
    destruct (repatriate_reserved _ _ _ _ _ _ _ _) as [s9 g] eqn:Er.
    match goal with Hx : (_, Ok _) = (_, Ok _) |- _ => injection Hx as <- <- end.
    keep_step @repatriate_inv @repatriate_keeps.
  - keep_step @set_balance_on_hold_inv @set_balance_on_hold_keeps.
  - match goal with Hx : set_balance _ _ _ _ _ _ _ _ _ = _ |- _ => rename Hx into Hs end.
    eapply tokens_inv_keeps; [eassumption|eapply set_balance_inv; [..|exact Hs]|eapply set_balance_keeps; [..|exact Hs]];
      try assumption; apply Hi.
  - eapply tokens_inv_keeps; [eassumption|eapply transfer_all_inv; eauto using ti_ledger|].
    unfold pallet_transfer_all in *. run_inv. eapply transfer_each_keeps; [apply entries_ok, Hi|done].
Qed.

(** Genesis endows distinct accounts. *)
Definition no_tokens (x : X) : St := mkTokens ∅ ∅ ∅ ∅ [] x.

Lemma no_tokens_inv x : tokens_inv cfg (no_tokens x).
Proof.
  by split; [split|..].
Qed.

Lemma endow_inv l s s' u :
  NoDup ((fun e => e.1) <$> l) -> Forall (fun e => 0 <= e.2 /\ accounts s !! e.1 = None) l ->
  tokens_inv cfg s -> endow cfg nd l s = (s', Ok u) -> tokens_inv cfg s'.
Proof.
  revert s. induction l as [|[[who c] v] l IH]; intros s Hnd Hl Hi Hr; cbn [endow] in Hr; [by run_inv|].
  apply NoDup_cons in Hnd as [Hni Hnd]. apply Forall_cons in Hl as [[Hv Hnone] Hl]. simpl in Hv, Hnone, Hni.
  apply bind_Ok in Hr as (u1 & s1 & H1' & Hr).
  assert (s1 = s) as -> by (destruct (_ <=? _) in H1'; run_inv; done).
  apply bind_Ok in Hr as (u2 & s2 & H2' & Hr). apply mmodify_Ok in H2' as ->.
  destruct (mutate_account_pure cfg who c (fun d => mkAcc v (reserved d) (frozen d)) (fun _ s => s) (fun _ => tt) s
              ltac:(done)) as (s1 & Em & Ha & Hiss & Hlk & Hrs).
  cbv beta in Hr. rewrite Em in Hr. cbn [fst] in Hr. run_inv.
  match goal with Hx : expect _ = Ok ?t |- _ => rename t into t, Hx into Ht end.
  destruct (checked_add _ _ _) as [t'|] eqn:Et in Ht; [|done]. injection Ht as ->.
  apply checked_add_Some in Et as [-> Hmax].
  assert (lk (accounts s) who c = no_account) as Hlk0 by (unfold lk; by rewrite Hnone).
  rewrite Hlk0 in Ha. simpl in Ha.
  assert (total_issuance s1 c = total_issuance s c) as Et1 by (unfold total_issuance; by rewrite Hiss).
  eapply IH; [done| | |exact Hr].
  - apply Forall_forall. intros [[who' c'] v'] Hin. rewrite Forall_forall in Hl.
    destruct (Hl _ Hin) as [Hv' Hn']. split; [done|]. simpl. rewrite Ha, lookup_wr_ne; [done|].
    intros [= -> ->]. apply Hni. apply list_elem_of_fmap. by exists (who, c, v').
  - eapply tokens_inv_keeps; [exact Hi| |].
    + eapply (ledger_write cfg who c); [apply Hi| |exact Ha|right; eexists; simpl; by rewrite Hiss|..]; simpl.
      * unfold acc_ok; simpl; lia.
      * unfold total_issuance at 1. simpl. rewrite lookup_insert_eq, Hlk0. unfold tot; simpl. lia.
      * unfold total_issuance at 1. simpl. rewrite lookup_insert_eq. simpl. lia.
    + apply keeps_trans with s1; [|apply keeps_set_issuance].
      eapply keeps_write; [| |exact Ha|done..]; rewrite Hlk0; [|done]. unfold acc_ok; simpl; lia.
Qed.
End steps.

(** ** The properties of the ledger *)
Section properties.
Context {X A C : Type} `{Countable A} `{Countable C}.
Context `{SystemRefs X A} `{TokenHooks X A C}.
Variable cfg : TokensConfig A C.
Context {Source : Type} (lookup : Source -> res DispatchError A).
Abbreviation St := (Tokens X A C).
Abbreviation nd := (no_dust (X := X) (A := A) (C := C)).
Implicit Types s : St.

(** A ledger that genesis and committed operations lead to. *)
Definition reachable (x : X) (l : list (A * C * Z)) s : Prop :=
  exists s0 u, Forall (fun e => 0 <= e.2) l /\ genesis_build cfg nd l (no_tokens x) = (s0, Ok u) /\
    rtc (step cfg lookup) s0 s.

Lemma reachable_inv x l s : reachable x l s -> tokens_inv cfg s.
Proof.
  intros (s0 & u & Hl & Hg & Hsteps). assert (tokens_inv cfg s0) as H0i.
  { unfold genesis_build in Hg. destruct (bool_decide_reflect (NoDup ((fun e => e.1) <$> l))) as [Hnd|]; run_inv; [|done].
    eapply endow_inv; [exact Hnd| |apply no_tokens_inv|exact Hg].
    apply Forall_forall. intros e He. rewrite Forall_forall in Hl. split; [by apply Hl|apply lookup_empty]. }
  clear Hg. induction Hsteps as [|s1 s2 s3 Hs _ IH]; [done|]. apply IH. by eapply step_inv.
Qed.

(** C5. The ledger never loses or invents funds: in every reachable state, whatever
    sequence of transfers, deposits, withdrawals, slashes, reserves, named reserves,
    holds and root calls led to it, the total issuance of every currency is the sum of
    the free and reserved balances of its accounts, no balance is negative and no sum
    overflows; and with the runtime's zero existential deposit the frozen amount of
    every account is the largest of its locks. *)
Theorem issuance_is_held x l s :
  reachable x l s ->
  (forall c, total_issuance s c = held c (accounts s) /\ total_issuance s c <= U128_MAX) /\
  (forall who c d, accounts s !! (who, c) = Some d -> 0 <= free d /\ 0 <= reserved d) /\
  ((forall c, ExistentialDeposits cfg c = 0) ->
   forall who c, frozen (account_of s who c) = max_lock (locks_of s who c)).
Proof.
  intros [[Hok Hh Hm] _ Hf]%reachable_inv. split_and!; [by auto| |exact Hf].
  intros who c d Hd. destruct (Hok _ _ Hd) as (? & ? & _). done.
Qed.

Lemma max_lock_ge ls l : l ∈ ls -> lock_amount l <= max_lock ls.
Proof.
  unfold max_lock. generalize 0. induction ls as [|l' ls IH]; intros m Hin; [by apply not_elem_of_nil in Hin|].
  apply elem_of_cons in Hin as [->|Hin]; simpl; [|by apply IH].
  pose proof (max_lock_from ls (Z.max m (lock_amount l'))). lia.
Qed.

(** An operation that takes [v] from the free balance respects the frozen amount. *)
Lemma owner_op_free c who v s s' :
  0 < v -> tokens_inv cfg s ->
  ((exists to er u, do_transfer cfg nd c who to v er s = (s', Ok u) /\ who <> to) \/
   (exists er u, do_withdraw cfg nd c who v er true s = (s', Ok u)) \/
   (exists u, reserve cfg nd c who v s = (s', Ok u))) ->
  locks s' = locks s /\ frozen (lk (accounts s) who c) <= free (lk (accounts s) who c) - v /\
  free (lk (accounts s') who c) = free (lk (accounts s) who c) - v.
Proof.
  intros Hv Hi Hop. pose proof (lk_ok _ who c (balances_ok _ (ti_ledger _ _ Hi))) as Hok.
  destruct Hop as [(to & er & u & Hr & Hne)|[(er & u & Hr)|(u & Hr)]].
  - apply do_transfer_Ok in Hr as (Hle & Hfr & _ & _ & _ & Ha & _ & Hl & _); [|lia|done].
    split_and!; [done..|]. rewrite Ha, lk_wr_ne by congruence.
    by apply (lk_wr_balances cfg c who (debit v (lk (accounts s) who c))), acc_ok_debit.
  - apply do_withdraw_Ok in Hr as (Hle & Hfr & Ha & _ & Hl & _); [|lia]. split_and!; [done..|].
    rewrite sat_sub_exact in Ha by done. rewrite Ha.
    by apply (lk_wr_balances cfg c who (debit v (lk (accounts s) who c))), acc_ok_debit.
  - apply reserve_Ok in Hr as (Hle & Hfr & Ha & _ & Hl & _); [|lia|apply Hi|lia]. split_and!; [done..|].
    rewrite Ha. apply (lk_wr_balances cfg c who (to_reserved v (lk (accounts s) who c))).
    unfold acc_ok, to_reserved in *. simpl. lia.
Qed.

(** C12. Locked funds cannot be spent: with the runtime's existential deposits, in every
    reachable state, a transfer, a withdrawal or a reserve by the owner of an account
    that succeeds leaves the locks as they were and a free balance that covers each of
    them. *)
Theorem locks_enforced x l s c who v s' :
  (forall c, ExistentialDeposits cfg c = 0) -> reachable x l s -> 0 < v ->
  ((exists to er u, do_transfer cfg nd c who to v er s = (s', Ok u) /\ who <> to) \/
   (exists er u, do_withdraw cfg nd c who v er true s = (s', Ok u)) \/
   (exists u, reserve cfg nd c who v s = (s', Ok u))) ->
  locks_of s' who c = locks_of s who c /\
  free_balance s' c who = free_balance s c who - v /\
  forall k, k ∈ locks_of s' who c -> lock_amount k <= free_balance s' c who.
Proof.
  intros Hz Hi%reachable_inv Hv Hop.
  destruct (owner_op_free c who v s s' Hv Hi Hop) as (Hl & Hfr & Hfree).
  assert (locks_of s' who c = locks_of s who c) as Hlk by (unfold locks_of; by rewrite Hl).
  unfold free_balance. rewrite !account_of_lk, Hfree. split_and!; [done..|].
  intros k Hk. rewrite Hlk in Hk. apply max_lock_ge in Hk.
  rewrite (ti_frozen _ _ Hi Hz) in Hfr. lia.
Qed.
End properties.

(** The runtime's hooks. *)
#[export] Instance no_hooks {X A C : Type} : TokenHooks X A C := {
  OnSlash _ _ _ x := x;
  PreDeposit _ _ _ := ret tt;
  PostDeposit _ _ _ := ret tt;
  PreTransfer _ _ _ _ := ret tt;
  PostTransfer _ _ _ _ := ret tt;
  OnNewTokenAccount _ _ x := x;
  OnKilledTokenAccount _ _ x := x;
}.

Section exactness.
Context {X A C : Type} `{Countable A} `{Countable C} `{SystemRefs X A}.
Variable cfg : TokensConfig A C.
Abbreviation St := (Tokens X A C).
Abbreviation nd := (no_dust (X := X) (A := A) (C := C)).
Implicit Types s : St.

(** What [do_transfer] checks of the two accounts. *)
Definition transfer_allowed (c : C) (from to : A) (v : Z) (er : ExistenceRequirement) s : bool :=
  let F := account_of s from c in let T := account_of s to c in
  (v <=? free F) && (free T + v <=? U128_MAX) &&
  ((ExistentialDeposits cfg c <=? total (credit v T)) || DustRemovalWhitelist cfg to) &&
  (frozen F <=? free F - v) &&
  ((allows_death er && can_dec_provider (tok_rest s) from) || negb (would_be_dead cfg from c (debit v F))).

Lemma hook_ret s : hook (ret tt) s = (s, Ok tt).
Proof. unfold hook. simpl. by destruct s. Qed.

(** The outcome of a transfer is the outcome of its checks. *)
Lemma do_transfer_outcome c from to v er s s' r :
  v <> 0 -> from <> to -> do_transfer cfg nd c from to v er s = (s', r) ->
  if transfer_allowed c from to v er s then r = Ok tt else is_ok r = false /\ s' = s.
Proof.
  intros Hv Hne. unfold do_transfer. rewrite (proj2 (Z.eqb_neq v 0) Hv), bool_decide_eq_false_2 by done.
  cbn [orb]. unfold bind at 1. cbn [PreTransfer no_hooks]. rewrite hook_ret.
  unfold bind at 1. unfold try_mutate_account at 1. unfold bind at 1. unfold try_mutate_account at 1.
  match goal with |- context [match match ?x with Ok _ => _ | Err _ => _ | Panic => _ end with _ => _ end] =>
    set (check := x) end.
  assert (match check with Ok _ => transfer_allowed c from to v er s = true
          | Err _ => transfer_allowed c from to v er s = false | Panic => False end) as Hc.
  { unfold check, transfer_allowed, account_of, ensure_can_withdraw, free_balance, account_of.
    rewrite (proj2 (Z.eqb_neq v 0) Hv). unfold checked_sub, checked_add, credit, debit. clear check.
    set (F := default no_account (accounts s !! (from, c))). set (T := default no_account (accounts s !! (to, c))).
    destruct (v <=? free F); simpl; [|done]. destruct (free T + v <=? U128_MAX); simpl; [|done].
    destruct (_ || DustRemovalWhitelist cfg to); simpl; [|done].
    destruct (frozen F <=? free F - v); simpl; [|done].
    destruct (_ || negb _); done. }
  clearbody check. destruct check as [[a b]|e|]; [rewrite Hc|rewrite Hc|done].
  - by intros [= <- <-].
  - by intros [= <- <-].
Qed.

(** C11. A transfer does what it says, completely: between different accounts it succeeds
    exactly when the sender has the amount above what is frozen, the receiver's balance
    does not overflow and reaches the existential deposit (or is whitelisted), and the
    sender survives or may die; then exactly the amount moves from one free balance to
    the other, everything else of the ledger is unchanged; and a transfer that fails
    changes nothing at all. *)
Theorem transfer_exact c from to v er s s' r :
  ledger_inv s -> 0 < v -> from <> to -> do_transfer cfg nd c from to v er s = (s', r) ->
  if transfer_allowed c from to v er s
  then r = Ok tt /\
       free_balance s' c from = free_balance s c from - v /\
       free_balance s' c to = free_balance s c to + v /\
       reserved_balance s' c from = reserved_balance s c from /\
       reserved_balance s' c to = reserved_balance s c to /\
       issued s' = issued s /\ locks s' = locks s /\ reserves s' = reserves s /\
       (forall k, k <> (from, c) -> k <> (to, c) -> accounts s' !! k = accounts s !! k)
  else is_ok r = false /\ s' = s.
Proof.
  intros Hinv Hv Hne Hr. pose proof (do_transfer_outcome c from to v er s s' r ltac:(lia) Hne Hr) as Ho.
  destruct (transfer_allowed c from to v er s); [subst r|done].
  split; [done|].
  apply do_transfer_Ok in Hr as (Hle & _ & _ & _ & _ & Ha & Hi & Hl & Hrs); [|lia|done].
  destruct (ledger_lk s from c Hinv) as (HF & _). destruct (ledger_lk s to c Hinv) as (HT & _).
  pose proof (acc_ok_debit v _ HF Hle) as HF'. pose proof (acc_ok_credit v _ HT ltac:(lia)) as HT'.
  unfold free_balance, reserved_balance. rewrite !account_of_lk, Ha.
  rewrite (lk_wr_ne cfg c to _ _ from c) by congruence.
  destruct (lk_wr_balances cfg c to _ (wr cfg c from (debit v (lk (accounts s) from c)) (accounts s)) HT') as [-> ->].
  destruct (lk_wr_balances cfg c from _ (accounts s) HF') as [-> ->].
  split_and!; try done. intros k Hk1 Hk2. by rewrite !lookup_wr_ne.
Qed.
End exactness.

(** ** Holds, spendable balances and imbalances *)
Section consequences.
Context {X A C : Type} `{Countable A} `{Countable C}.
Context `{SystemRefs X A} `{TokenHooks X A C}.
Variable cfg : TokensConfig A C.
Abbreviation St := (Tokens X A C).
Implicit Types s : St.

(** What [reducible_balance] reports can be withdrawn without touching frozen funds. *)
Lemma reducible_withdrawable s c who p :
  acc_ok (account_of s who c) -> is_ok (ensure_can_withdraw c who (reducible_balance cfg s c who p) s) = true.
Proof.
  intros Hok. unfold ensure_can_withdraw, free_balance, acc_ok in *.
  set (v := reducible_balance cfg s c who p). destruct (Z.eqb_spec v 0); [done|].
  assert (v <= sat_sub (free (account_of s who c)) (frozen (account_of s who c))) as Hle.
  { unfold v, reducible_balance. destruct (_ && _); unfold sat_sub; lia. }
  assert (0 <= v) by (unfold v, reducible_balance; destruct (_ && _); unfold sat_sub; lia).
  clearbody v. unfold sat_sub in Hle. unfold checked_sub.
  destruct (Z.leb_spec v (free (account_of s who c))); [|lia]. simpl.
  destruct (Z.leb_spec (frozen (account_of s who c)) (free (account_of s who c) - v)); [done|lia].
Qed.

(** [can_hold] promises that [hold] succeeds. *)
Lemma can_hold_holds s c who v od :
  0 <= v -> acc_ok (account_of s who c) -> can_hold cfg s c who v = true ->
  is_ok (hold cfg od c who v s).2 = true.
Proof.
  intros Hv Hok Hc. unfold hold, reserve. destruct (Z.eqb_spec v 0); [done|].
  unfold can_hold, acc_ok in *. destruct (checked_add _ _ _); [|done].
  destruct (checked_add U128_MAX (Z.max _ _) v) as [t|] eqn:Et; [|done].
  apply checked_add_Some in Et as [-> _]. apply Z.leb_le in Hc.
  assert (ensure_can_withdraw c who v s = Ok tt) as Hw.
  { unfold ensure_can_withdraw, free_balance, checked_sub. rewrite (proj2 (Z.eqb_neq v 0)) by done.
    destruct (Z.leb_spec v (free (account_of s who c))); [|lia]. simpl.
    destruct (Z.leb_spec (frozen (account_of s who c)) (free (account_of s who c) - v)); [done|lia]. }
  unfold bind, mget, mlift. by rewrite Hw.
Qed.

Lemma total_issuance_set c v s : total_issuance (set_issuance c v s) c = v.
Proof. unfold total_issuance. simpl. by rewrite lookup_insert_eq. Qed.

(** Issuing and dropping the imbalance, and burning and dropping it, leave the issuance
    as it was, whatever saturates. *)
Lemma issue_dropped c v s s' i :
  in_u U128_MAX (total_issuance s c) -> 0 <= v -> adapter_issue c v s = (s', i) ->
  total_issuance (drop_negative c i s') c = total_issuance s c.
Proof.
  intros [H1' H2'] Hv. unfold adapter_issue, drop_negative. rewrite total_issuance_set.
  destruct (Z.eqb_spec v 0); [intros [= <- <-]; rewrite sat_sub_exact; lia|].
  destruct (checked_add _ _ _) as [t|] eqn:Et; intros [= <- <-].
  - apply checked_add_Some in Et as [-> _]. change (total_issuance (emit ?e ?t) c) with (total_issuance t c).
    rewrite total_issuance_set, sat_sub_exact; lia.
  - change (total_issuance (emit ?e ?t) c) with (total_issuance t c).
    rewrite total_issuance_set, !sat_sub_exact; try lia. rewrite sat_sub_exact; lia.
Qed.
Lemma burn_dropped c v s s' i :
  in_u U128_MAX (total_issuance s c) -> 0 <= v -> adapter_burn c v s = (s', i) ->
  total_issuance (drop_positive c i s') c = total_issuance s c.
Proof.
  intros [H1' H2'] Hv. unfold adapter_burn, drop_positive. rewrite total_issuance_set.
  destruct (Z.eqb_spec v 0); [intros [= <- <-]; rewrite sat_add_exact; lia|].
  destruct (checked_sub _ _) as [t|] eqn:Et; intros [= <- <-];
    change (total_issuance (emit ?e ?t) c) with (total_issuance t c); rewrite total_issuance_set.
  - apply checked_sub_Some in Et as [-> _]. rewrite sat_add_exact; lia.
  - rewrite sat_add_exact; lia.
Qed.
End consequences.

(** Splitting loses nothing and merging undoes it; an offset keeps the difference. *)
Lemma imbalance_split_merge v a :
  in_u U128_MAX v -> 0 <= a -> let '(x, y) := imbalance_split v a in imbalance_merge x y = v /\ x <= a.
Proof. intros Hv Ha. unfold imbalance_split, imbalance_merge. uints. Qed.
Lemma imbalance_offset_spec a b :
  match imbalance_offset a b with Same d => a = b + d /\ 0 < d | OtherSide d => b = a + d /\ 0 < d | Neither => a = b end.
Proof.
  unfold imbalance_offset, sat_sub. destruct (Z.ltb_spec b a); [lia|]. destruct (Z.ltb_spec a b); lia.
Qed.

(** ** Dust *)
Section dust_handlers.
Context {X A C : Type} `{Countable A} `{Countable C}.
Context `{SystemRefs X A} `{TokenHooks X A C}.
Variable cfg : TokensConfig A C.
Abbreviation St := (Tokens X A C).
Implicit Types s : St.

Lemma try_mutate_no_dust {E R} od od' who c f g s :
  (forall ex, f (account_of s who c) ex s = g (account_of s who c) ex s) ->
  (forall ex s1 a (r : R), f (account_of s who c) ex s = (s1, Ok (a, r)) -> dust_of cfg who c a = None) ->
  try_mutate_account (E := E) cfg od who c f s = try_mutate_account cfg od' who c g s.
Proof.
  intros Hfg Hd. unfold try_mutate_account. fold (account_of s who c). rewrite <- Hfg.
  destruct (f _ _ s) as [s1 [[a r]|e|]] eqn:Ef; [|done..]. by rewrite (Hd _ _ _ _ Ef).
Qed.

(** Moving all that an account holds leaves no dust on either side, so the handler of
    dust does not call itself. *)
Lemma full_transfer_no_dust od od' c from to er s :
  acc_ok (account_of s from c) -> tot (account_of s from c) <= U128_MAX ->
  let v := total (account_of s from c) in
  do_transfer cfg od c from to v er s = do_transfer cfg od' c from to v er s.
Proof.
  intros Hok Hmax v. unfold do_transfer. destruct ((v =? 0) || bool_decide (from = to)); [done|].
  unfold bind. destruct (hook _ s) as [s1 [u|e|]] eqn:Eh; [|done..].
  assert (account_of s1 from c = account_of s from c) as Es
    by (apply hook_untouched in Eh as (Ha & _); unfold account_of; by rewrite Ha).
  match goal with |- match ?x with _ => _ end = match ?y with _ => _ end => enough (x = y) as -> by done end.
  apply try_mutate_no_dust.
  - intros _.
    match goal with |- match ?x with _ => _ end = match ?y with _ => _ end => enough (x = y) as -> by done end.
    apply try_mutate_no_dust; [done|]. intros ex s2 a r Hr. cbv beta in Hr.
    match type of Hr with match ?x with _ => _ end = _ => destruct x as [[a' b']|e|] eqn:Ein end; [|discriminate..].
    injection Hr as <- <- <-. run_inv. injection Ein as <- <-.
    match goal with Hc : checked_sub _ _ = Some _ |- _ => apply checked_sub_Some in Hc as [-> Hle] end.
    rewrite Es in Hle |- *. unfold v in *. rewrite total_exact in Hle |- * by done.
    unfold acc_ok, tot in *. unfold dust_of, total, tot. simpl.
    replace (sat_add U128_MAX _ _) with 0 by (rewrite sat_add_exact; lia). by rewrite andb_false_r.
  - intros ex s2 a r Hr. cbv beta in Hr. unfold try_mutate_account in Hr. cbv beta in Hr.
    match type of Hr with context [match match ?x with Ok _ => _ | Err _ => _ | Panic => _ end with _ => _ end] =>
      destruct x as [[a' b']|e|] eqn:Ein end; [|discriminate..].
    unfold ret in Hr. injection Hr as _ <- _. run_inv. injection Ein as _ <-. simpl.
    unfold dust_of.
    match goal with Hx : orb (_ <=? total ?b) _ = true |- _ => apply orb_true_iff in Hx as [Hed|Hed] end.
    + match goal with |- context [total ?b <? ?e] => destruct (Z.ltb_spec (total b) e); [lia|done] end.
    + rewrite Hed. by rewrite andb_false_r.
Qed.

(** One level of [TransferDust] is all there is. *)
Lemma TransferDust_depth n treasury who c s :
  acc_ok (account_of s who c) -> tot (account_of s who c) <= U128_MAX ->
  TransferDust cfg (S n) treasury who c (total (account_of s who c)) s =
  TransferDust cfg 1 treasury who c (total (account_of s who c)) s.
Proof.
  intros Hok Hmax. simpl. f_equal. by apply (full_transfer_no_dust (TransferDust cfg n treasury) (TransferDust cfg 0 treasury)).
Qed.
End dust_handlers.

(** ** Concrete ledgers *)
Module TokensWitness.
Abbreviation W := (Tokens unit Z Z).
#[export] Instance unit_refs : SystemRefs unit Z := {
  can_dec_provider _ _ := true;
  inc_providers _ x := x; dec_providers _ x := x; inc_consumers _ x := x; dec_consumers _ x := x;
}.
Definition cfg0 : TokensConfig Z Z := mkTokensConfig _ _ (fun _ => 0) 1 5 (fun _ => false).
Definition lookup0 (a : Z) : res DispatchError Z := Ok a.
Definition nd0 : Z -> Z -> Z -> W -> W := no_dust.
Definition endowed : list (Z * Z * Z) := [(1, 0, 100); (2, 0, 50); (1, 7, 30)].
Definition w0 : W := (genesis_build cfg0 nd0 endowed (no_tokens tt)).1.
Definition w1 : W := (set_lock cfg0 nd0 5 0 1 60 w0).1.
Definition w2 : W := (do_transfer cfg0 nd0 0 1 2 40 AllowDeath w1).1.

Lemma w0_eq : genesis_build cfg0 nd0 endowed (no_tokens tt) = (w0, Ok tt).
Proof. vm_compute. reflexivity. Qed.
Lemma w1_eq : set_lock cfg0 nd0 5 0 1 60 w0 = (w1, Ok tt).
Proof. vm_compute. reflexivity. Qed.
Lemma w2_eq : do_transfer cfg0 nd0 0 1 2 40 AllowDeath w1 = (w2, Ok tt).
Proof. vm_compute. reflexivity. Qed.
Lemma endowed_ok : Forall (fun e : Z * Z * Z => 0 <= e.2) endowed.
Proof. repeat constructor; simpl; lia. Qed.
Lemma w1_reachable : reachable cfg0 lookup0 tt endowed w1.
Proof.
  exists w0, tt. split_and!; [exact endowed_ok|exact w0_eq|].
  apply rtc_once. eapply st_set_lock, w1_eq.
Qed.
Lemma w1_inv : ledger_inv w1.
Proof. exact (ti_ledger _ _ (reachable_inv _ _ _ _ _ w1_reachable)). Qed.
Lemma spend_eq :
  (exists to er u, do_transfer cfg0 no_dust 0 1 to 40 er w1 = (w2, Ok u) /\ 1 <> to) \/
  (exists er u, do_withdraw cfg0 no_dust 0 1 40 er true w1 = (w2, Ok u)) \/
  (exists u, reserve cfg0 no_dust 0 1 40 w1 = (w2, Ok u)).
Proof. left. exists 2, AllowDeath, tt. split; [exact w2_eq|lia]. Qed.

(** One more unit would touch the lock. *)
Example locked_refused : (do_transfer cfg0 nd0 0 1 2 41 AllowDeath w1).2 = Err (tok_err TokensError.LiquidityRestrictions).
Proof. vm_compute. reflexivity. Qed.

Lemma issuance_is_held_witness : total_issuance w1 0 = held 0 (accounts w1) /\ total_issuance w1 0 <= U128_MAX.
Proof. exact (proj1 (issuance_is_held cfg0 lookup0 tt endowed w1 w1_reachable) 0). Defined.
Lemma locks_enforced_witness : free_balance w2 0 1 = free_balance w1 0 1 - 40.
Proof.
  exact (proj1 (proj2 (locks_enforced cfg0 lookup0 tt endowed w1 0 1 40 w2
                         (fun _ => eq_refl) w1_reachable eq_refl spend_eq))).
Defined.
Lemma transfer_exact_witness : free_balance w2 0 2 = free_balance w1 0 2 + 40.
Proof.
  exact (proj1 (proj2 (proj2 (transfer_exact cfg0 0 1 2 40 AllowDeath w1 w2 _ w1_inv eq_refl
                                ltac:(discriminate) w2_eq)))).
Defined.

(** A currency with an existential deposit and a treasury that collects dust. *)
Definition cfgD : TokensConfig Z Z := mkTokensConfig _ _ (fun _ => 10) 1 5 (fun _ => false).
Definition treasury : Z := 9.
Definition sweep : Z -> Z -> Z -> W -> W := TransferDust cfgD 2 treasury.
Definition d0 : W := (genesis_build cfgD sweep [(1, 0, 50); (2, 0, 20); (treasury, 0, 100)] (no_tokens tt)).1.
Definition d1 : W := (do_transfer cfgD sweep 0 1 treasury 45 AllowDeath d0).1.
Definition d2 : W := (do_transfer cfgD sweep 0 1 2 45 AllowDeath d0).1.

(** The dust of a transfer to the treasury itself is lost: with [TransferDust] the
    handler credits the treasury while the transfer still holds the treasury's old
    balance, which it then writes back.  The issuance counts five units that no account
    holds.  A transfer to anyone else is swept correctly. *)
Theorem dust_to_treasury_lost :
  total_issuance d0 0 = held 0 (accounts d0) /\
  do_transfer cfgD sweep 0 1 treasury 45 AllowDeath d0 = (d1, Ok tt) /\
  free_balance d1 0 treasury = 145 /\ accounts d1 !! (1, 0) = None /\
  total_issuance d1 0 = held 0 (accounts d1) + 5 /\
  do_transfer cfgD sweep 0 1 2 45 AllowDeath d0 = (d2, Ok tt) /\
  free_balance d2 0 treasury = 105 /\ total_issuance d2 0 = held 0 (accounts d2).
Proof. vm_compute. split_and!; reflexivity. Qed.

(** A lock beyond the maximum that [CurrencyAdapter::set_lock] sets freezes the funds
    although the lock is not recorded: the error is dropped after the account was
    written. *)
Example adapter_lock_unrecorded :
  let s := adapter_set_lock cfg0 nd0 6 0 1 90 w1 in
  frozen (account_of s 1 0) = 90 /\ locks_of s 1 0 = [mkLock 5 60].
Proof. vm_compute. done. Qed.

(** [slash_reserved_named] reports a slash twice. *)
Example named_slash_reported_twice :
  let s := (reserve_named cfg0 nd0 3 0 2 30 w0).1 in
  drop (length (tok_events s)) (tok_events (slash_reserved_named cfg0 nd0 3 0 2 20 s).1) =
  [EvSlashed 0 2 0 20; EvSlashed 0 2 0 20].
Proof. vm_compute. reflexivity. Qed.
End TokensWitness.
