(* ===== verification/Fungibles.v ===== *)
(** * Combinators for fungible assets

    Models [src/orml/tokens/src/impls.rs] ([Combiner], which joins a single asset and a
    family of assets, [ConvertBalance] and [Mapper], which shows one asset of a family in
    other units) and the [fungible] side of [CurrencyAdapter] in
    [src/orml/tokens/src/lib.rs].

    The traits [fungible] and [fungibles] of [frame_support] ([Inspect], [Mutate],
    [Unbalanced]) are the classes [Fungible] and [Fungibles]; what their documentation
    promises of the balances are the classes [FungibleLaws] and [FungiblesLaws].  The tokens
    pallet is shown to keep them, and so is a [Combiner] whose parts do. *)

From stdpp Require Import base gmap list strings.
From Stdlib Require Import ZArith Lia.
From S2P Require Import Prelude Interfaces Tokens TokensLedger.

Local Open Scope Z_scope.

Inductive Fortitude : Type := Polite | Force.
Inductive Provenance : Type := Minted | Extant.

Class Fungible (X A : Type) : Type := {
  f_total_issuance : X -> Z;
  f_minimum_balance : Z;
  f_balance : X -> A -> Z;
  f_total_balance : X -> A -> Z;
  f_reducible_balance : X -> A -> Preservation -> Fortitude -> Z;
  f_can_deposit : X -> A -> Z -> Provenance -> DepositConsequence;
  f_can_withdraw : X -> A -> Z -> WithdrawConsequence;
  f_mint_into : A -> Z -> M X DispatchError Z;
  f_burn_from : A -> Z -> Precision -> Fortitude -> M X DispatchError Z;
  f_transfer : A -> A -> Z -> Preservation -> M X DispatchError Z;
  f_write_balance : A -> Z -> M X DispatchError (option Z);
  f_set_total_issuance : Z -> X -> X;
}.

Class Fungibles (X A C : Type) : Type := {
  fs_total_issuance : X -> C -> Z;
  fs_minimum_balance : C -> Z;
  fs_balance : X -> C -> A -> Z;
  fs_total_balance : X -> C -> A -> Z;
  fs_reducible_balance : X -> C -> A -> Preservation -> Fortitude -> Z;
  fs_can_deposit : X -> C -> A -> Z -> Provenance -> DepositConsequence;
  fs_can_withdraw : X -> C -> A -> Z -> WithdrawConsequence;
  fs_asset_exists : X -> C -> bool;
  fs_mint_into : C -> A -> Z -> M X DispatchError Z;
  fs_burn_from : C -> A -> Z -> Precision -> Fortitude -> M X DispatchError Z;
  fs_transfer : C -> A -> A -> Z -> Preservation -> M X DispatchError Z;
  fs_write_balance : C -> A -> Z -> M X DispatchError (option Z);
  fs_set_total_issuance : C -> Z -> X -> X;
}.

(** ** [Combiner] *)
Section combiner.
Context {X A C : Type} (F : Fungible X A) (B : Fungibles X A C).
(** [TestKey::contains]. *)
Variable contains : C -> bool.

Definition combiner_total_issuance (x : X) (asset : C) : Z :=
  if contains asset then f_total_issuance x else fs_total_issuance x asset.
Definition combiner_minimum_balance (asset : C) : Z :=
  if contains asset then f_minimum_balance (Fungible := F) else fs_minimum_balance (Fungibles := B) asset.
Definition combiner_balance (x : X) (asset : C) (who : A) : Z :=
  if contains asset then f_balance x who else fs_balance x asset who.
Definition combiner_total_balance (x : X) (asset : C) (who : A) : Z :=
  if contains asset then f_total_balance x who else fs_total_balance x asset who.
Definition combiner_reducible_balance (x : X) (asset : C) (who : A) (p : Preservation) (f : Fortitude) : Z :=
  if contains asset then f_reducible_balance x who p f else fs_reducible_balance x asset who p f.
Definition combiner_can_deposit (x : X) (asset : C) (who : A) (amount : Z) (p : Provenance)
  : DepositConsequence :=
  if contains asset then f_can_deposit x who amount p else fs_can_deposit x asset who amount p.
Definition combiner_can_withdraw (x : X) (asset : C) (who : A) (amount : Z) : WithdrawConsequence :=
  if contains asset then f_can_withdraw x who amount else fs_can_withdraw x asset who amount.
Definition combiner_asset_exists (x : X) (asset : C) : bool :=
  if contains asset then true else fs_asset_exists (A := A) x asset.
Definition combiner_mint_into (asset : C) (dest : A) (amount : Z) : M X DispatchError Z :=
  if contains asset then f_mint_into dest amount else fs_mint_into asset dest amount.
Definition combiner_burn_from (asset : C) (dest : A) (amount : Z) (precision : Precision) (f : Fortitude)
  : M X DispatchError Z :=
  if contains asset then f_burn_from dest amount precision f else fs_burn_from asset dest amount precision f.
Definition combiner_transfer (asset : C) (source dest : A) (amount : Z) (p : Preservation)
  : M X DispatchError Z :=
  if contains asset then f_transfer source dest amount p else fs_transfer asset source dest amount p.
Definition combiner_write_balance (asset : C) (who : A) (amount : Z) : M X DispatchError (option Z) :=
  if contains asset then f_write_balance who amount else fs_write_balance asset who amount.
Definition combiner_set_total_issuance (asset : C) (amount : Z) (x : X) : X :=
  if contains asset then f_set_total_issuance (A := A) amount x
  else fs_set_total_issuance (A := A) asset amount x.

Definition combiner : Fungibles X A C := {|
  fs_total_issuance := combiner_total_issuance;
  fs_minimum_balance := combiner_minimum_balance;
  fs_balance := combiner_balance;
  fs_total_balance := combiner_total_balance;
  fs_reducible_balance := combiner_reducible_balance;
  fs_can_deposit := combiner_can_deposit;
  fs_can_withdraw := combiner_can_withdraw;
  fs_asset_exists := combiner_asset_exists;
  fs_mint_into := combiner_mint_into;
  fs_burn_from := combiner_burn_from;
  fs_transfer := combiner_transfer;
  fs_write_balance := combiner_write_balance;
  fs_set_total_issuance := combiner_set_total_issuance;
|}.
End combiner.

(** ** [ConvertBalance] and [Mapper] *)
Inductive ArithmeticError : Type := AUnderflow | AOverflow | ADivisionByZero.
(** [From<ArithmeticError> for DispatchError]. *)
Definition from_arithmetic (e : ArithmeticError) : DispatchError :=
  Arithmetic match e with
             | AUnderflow => "An underflow would occur"
             | AOverflow => "An overflow would occur"
             | ADivisionByZero => "Division by zero"
             end.

(** The two required methods; amounts on both sides are [u128]. *)
Class ConvertBalance (C : Type) : Type := {
  convert_balance : Z -> C -> res ArithmeticError Z;
  convert_balance_back : Z -> C -> res ArithmeticError Z;
}.

(** [unwrap_or_else] of the two provided methods. *)
Definition saturated (r : res ArithmeticError Z) : Z :=
  match r with
  | Ok b => b
  | Err AOverflow => U128_MAX
  | Err AUnderflow => 0
  | Err ADivisionByZero => U128_MAX
  | Panic => 0
  end.

Section mapper.
Context {X A C : Type} (T : Fungibles X A C) (V : ConvertBalance C).
(** [GetCurrencyId::get()]. *)
Variable currency_id : C.

Definition convert_balance_saturated (amount : Z) (asset_id : C) : Z :=
  saturated (convert_balance amount asset_id).
Definition convert_balance_back_saturated (amount : Z) (asset_id : C) : Z :=
  saturated (convert_balance_back amount asset_id).

Definition mapper_total_issuance (x : X) : Z :=
  convert_balance_saturated (fs_total_issuance x currency_id) currency_id.
Definition mapper_minimum_balance : Z :=
  convert_balance_saturated (fs_minimum_balance (Fungibles := T) currency_id) currency_id.
Definition mapper_balance (x : X) (who : A) : Z :=
  convert_balance_saturated (fs_balance x currency_id who) currency_id.
Definition mapper_total_balance (x : X) (who : A) : Z :=
  convert_balance_saturated (fs_total_balance x currency_id who) currency_id.
Definition mapper_reducible_balance (x : X) (who : A) (p : Preservation) (f : Fortitude) : Z :=
  convert_balance_saturated (fs_reducible_balance x currency_id who p f) currency_id.

Definition mapper_can_deposit (x : X) (who : A) (amount : Z) (p : Provenance) : DepositConsequence :=
  match convert_balance_back amount currency_id with
  | Ok amount => fs_can_deposit x currency_id who amount p
  | _ => DepositOverflow
  end.
Definition mapper_can_withdraw (x : X) (who : A) (amount : Z) : WithdrawConsequence :=
  match convert_balance_back amount currency_id with
  | Ok amount =>
      match fs_can_withdraw x currency_id who amount with
      | ReducedToZero b => ReducedToZero (convert_balance_saturated b currency_id)
      | c => c
      end
  | Err AUnderflow => Underflow
  | _ => WithdrawOverflow
  end.

(** [C::convert_balance_back(..)?]. *)
Definition back (amount : Z) : M X DispatchError Z :=
  mlift (rmap_err from_arithmetic (convert_balance_back amount currency_id)).
Definition mapper_mint_into (dest : A) (amount : Z) : M X DispatchError Z :=
  let! v := back amount in fs_mint_into currency_id dest v.
Definition mapper_burn_from (dest : A) (amount : Z) (precision : Precision) (f : Fortitude)
  : M X DispatchError Z :=
  let! v := back amount in fs_burn_from currency_id dest v precision f.
Definition mapper_transfer (source dest : A) (amount : Z) (p : Preservation) : M X DispatchError Z :=
  let! v := back amount in fs_transfer currency_id source dest v p.
Definition mapper_write_balance (who : A) (amount : Z) : M X DispatchError (option Z) :=
  fs_write_balance currency_id who amount.
Definition mapper_set_total_issuance (amount : Z) (x : X) : X :=
  fs_set_total_issuance (A := A) currency_id amount x.

Definition mapper : Fungible X A := {|
  f_total_issuance := mapper_total_issuance;
  f_minimum_balance := mapper_minimum_balance;
  f_balance := mapper_balance;
  f_total_balance := mapper_total_balance;
  f_reducible_balance := mapper_reducible_balance;
  f_can_deposit := mapper_can_deposit;
  f_can_withdraw := mapper_can_withdraw;
  f_mint_into := mapper_mint_into;
  f_burn_from := mapper_burn_from;
  f_transfer := mapper_transfer;
  f_write_balance := mapper_write_balance;
  f_set_total_issuance := mapper_set_total_issuance;
|}.
End mapper.

(** ** One asset of a family: the [fungible] traits of [CurrencyAdapter] *)
Definition adapter_fungible {X A C : Type} (T : Fungibles X A C) (currency_id : C) : Fungible X A := {|
  f_total_issuance x := fs_total_issuance x currency_id;
  f_minimum_balance := fs_minimum_balance currency_id;
  f_balance x who := fs_balance x currency_id who;
  f_total_balance x who := fs_total_balance x currency_id who;
  f_reducible_balance x who p f := fs_reducible_balance x currency_id who p f;
  f_can_deposit x who amount p := fs_can_deposit x currency_id who amount p;
  f_can_withdraw x who amount := fs_can_withdraw x currency_id who amount;
  f_mint_into who amount := fs_mint_into currency_id who amount;
  f_burn_from who amount p f := fs_burn_from currency_id who amount p f;
  f_transfer source dest amount p := fs_transfer currency_id source dest amount p;
  f_write_balance who amount := fs_write_balance currency_id who amount;
  f_set_total_issuance amount := fs_set_total_issuance (A := A) currency_id amount;
|}.

(** ** What the traits promise *)

(** [v] more at one place. *)
Definition at_key {K : Type} `{EqDecision K} (k : K) (v : Z) (k' : K) : Z :=
  if bool_decide (k' = k) then v else 0.

Section laws.
Context {X A C : Type} `{EqDecision A} `{EqDecision C}.

(** A storage change by an operation that succeeded. *)
Inductive f_op (F : Fungible X A) : X -> X -> Prop :=
| fo_mint a v x x' w : 0 <= v -> f_mint_into a v x = (x', Ok w) -> f_op F x x'
| fo_burn a v p f x x' w : 0 <= v -> f_burn_from a v p f x = (x', Ok w) -> f_op F x x'
| fo_transfer a b v p x x' w : 0 <= v -> f_transfer a b v p x = (x', Ok w) -> f_op F x x'.
Inductive fs_op (B : Fungibles X A C) (c : C) : X -> X -> Prop :=
| fso_mint a v x x' w : 0 <= v -> fs_mint_into c a v x = (x', Ok w) -> fs_op B c x x'
| fso_burn a v p f x x' w : 0 <= v -> fs_burn_from c a v p f x = (x', Ok w) -> fs_op B c x x'
| fso_transfer a b v p x x' w : 0 <= v -> fs_transfer c a b v p x = (x', Ok w) -> fs_op B c x x'.

(** The amounts of one asset after an operation. *)
Class FungibleLaws (Inv : X -> Prop) (F : Fungible X A) : Prop := {
  fl_inv x x' : Inv x -> f_op F x x' -> Inv x';
  fl_mint a v x x' w : Inv x -> 0 <= v -> f_mint_into a v x = (x', Ok w) ->
    w = v /\ f_total_issuance x' = f_total_issuance x + v /\
    forall a', f_balance x' a' = f_balance x a' + at_key a v a';
  fl_burn a v p f x x' w : Inv x -> 0 <= v -> f_burn_from a v p f x = (x', Ok w) ->
    v <= w /\ f_total_issuance x' = f_total_issuance x - w /\
    forall a', f_balance x' a' = f_balance x a' - at_key a w a';
  fl_transfer a b v p x x' w : Inv x -> 0 <= v -> f_transfer a b v p x = (x', Ok w) ->
    w = v /\ f_total_issuance x' = f_total_issuance x /\
    forall a', f_balance x' a' = f_balance x a' - at_key a v a' + at_key b v a';
}.

Class FungiblesLaws (Inv : X -> Prop) (B : Fungibles X A C) : Prop := {
  fsl_range x c a : Inv x -> 0 <= fs_balance x c a <= U128_MAX;
  fsl_inv c x x' : Inv x -> fs_op B c x x' -> Inv x';
  fsl_mint c a v x x' w : Inv x -> 0 <= v -> fs_mint_into c a v x = (x', Ok w) ->
    w = v /\ (forall c', fs_total_issuance x' c' = fs_total_issuance x c' + at_key c v c') /\
    forall c' a', fs_balance x' c' a' = fs_balance x c' a' + at_key (c, a) v (c', a');
  fsl_burn c a v p f x x' w : Inv x -> 0 <= v -> fs_burn_from c a v p f x = (x', Ok w) ->
    v <= w /\ (forall c', fs_total_issuance x' c' = fs_total_issuance x c' - at_key c w c') /\
    forall c' a', fs_balance x' c' a' = fs_balance x c' a' - at_key (c, a) w (c', a');
  fsl_transfer c a b v p x x' w : Inv x -> 0 <= v -> fs_transfer c a b v p x = (x', Ok w) ->
    w = v /\ (forall c', fs_total_issuance x' c' = fs_total_issuance x c') /\
    forall c' a', fs_balance x' c' a'
      = fs_balance x c' a' - at_key (c, a) v (c', a') + at_key (c, b) v (c', a');
}.

(** The asset [c0] of the single side and the other assets of the family do not
    interfere. *)
Class Separate (Inv : X -> Prop) (F : Fungible X A) (B : Fungibles X A C) (c0 : C) : Prop := {
  sep_range x a : Inv x -> 0 <= f_balance x a <= U128_MAX;
  sep_single x x' c : Inv x -> f_op F x x' -> c <> c0 ->
    fs_total_issuance x' c = fs_total_issuance x c /\ forall a, fs_balance x' c a = fs_balance x c a;
  sep_family x x' c : Inv x -> fs_op B c x x' -> c <> c0 ->
    f_total_issuance x' = f_total_issuance x /\ forall a, f_balance x' a = f_balance x a;
}.

Lemma at_key_ne {K : Type} `{EqDecision K} (k k' : K) v : k' <> k -> at_key k v k' = 0.
Proof. intros. unfold at_key. by rewrite bool_decide_eq_false_2. Qed.
Lemma at_key_pair (c : C) (a : A) v a' : at_key (c, a) v (c, a') = at_key a v a'.
Proof. unfold at_key. repeat case_bool_decide; naive_solver. Qed.
Lemma at_key_eq {K : Type} `{EqDecision K} (k : K) v : at_key k v k = v.
Proof. unfold at_key. by rewrite bool_decide_eq_true_2. Qed.

(** One asset of a lawful family is lawful, and is separate from the others. *)
Section one_asset.
Context (Inv : X -> Prop) (T : Fungibles X A C) `{!FungiblesLaws Inv T} (c0 : C).

Lemma adapter_op x x' : f_op (adapter_fungible T c0) x x' -> fs_op T c0 x x'.
Proof. destruct 1; [eapply fso_mint|eapply fso_burn|eapply fso_transfer]; eassumption. Qed.

(** Operations on an asset leave the others alone. *)
Lemma fs_op_frame c c' x x' : Inv x -> fs_op T c x x' -> c' <> c ->
  fs_total_issuance x' c' = fs_total_issuance x c' /\ forall a, fs_balance x' c' a = fs_balance x c' a.
Proof.
  intros Hi Ho Hc. destruct Ho as [a v x x' w Hv Hr|a v p f x x' w Hv Hr|a b v p x x' w Hv Hr].
  - destruct (fsl_mint _ _ _ _ _ _ Hi Hv Hr) as (_ & Ht & Hb). split; [rewrite Ht|intros; rewrite Hb];
      rewrite ?at_key_ne by congruence; lia.
  - destruct (fsl_burn _ _ _ _ _ _ _ _ Hi Hv Hr) as (_ & Ht & Hb). split; [rewrite Ht|intros; rewrite Hb];
      rewrite ?at_key_ne by congruence; lia.
  - destruct (fsl_transfer _ _ _ _ _ _ _ _ Hi Hv Hr) as (_ & Ht & Hb). split; [by rewrite Ht|intros; rewrite Hb].
    rewrite !at_key_ne by congruence. lia.
Qed.

#[export] Instance adapter_laws : FungibleLaws Inv (adapter_fungible T c0).
Proof.
  split; cbn [adapter_fungible f_mint_into f_burn_from f_transfer f_total_issuance f_balance].
  - intros x x' Hi Ho. eapply fsl_inv; [done|by apply adapter_op].
  - intros a v x x' w Hi Hv Hr. destruct (fsl_mint _ _ _ _ _ _ Hi Hv Hr) as (-> & Ht & Hb).
    split_and!; [done|by rewrite Ht, at_key_eq|]. intros. by rewrite Hb, at_key_pair.
  - intros a v p f x x' w Hi Hv Hr. destruct (fsl_burn _ _ _ _ _ _ _ _ Hi Hv Hr) as (Hw & Ht & Hb).
    split_and!; [done|by rewrite Ht, at_key_eq|]. intros. by rewrite Hb, at_key_pair.
  - intros a b v p x x' w Hi Hv Hr. destruct (fsl_transfer _ _ _ _ _ _ _ _ Hi Hv Hr) as (-> & Ht & Hb).
    split_and!; [done|by rewrite Ht|]. intros. by rewrite Hb, !at_key_pair.
Qed.
#[export] Instance adapter_separate : Separate Inv (adapter_fungible T c0) T c0.
Proof.
  split; cbn [adapter_fungible f_total_issuance f_balance].
  - intros. by apply fsl_range.
  - intros x x' c Hi Ho Hc. by eapply fs_op_frame; [|apply adapter_op|].
  - intros x x' c Hi Ho Hc. eapply fs_op_frame; [done..|]. congruence.
Qed.
End one_asset.
End laws.

(** ** The combiner keeps the laws *)
Section combined.
Context {X A C : Type} `{EqDecision A} `{EqDecision C}.
Context (Inv : X -> Prop) (F : Fungible X A) (B : Fungibles X A C) (c0 : C).
Context `{!FungibleLaws Inv F} `{!FungiblesLaws Inv B} `{!Separate Inv F B c0}.
Variable contains : C -> bool.
Hypothesis one_key : forall c, contains c = true <-> c = c0.
Abbreviation K := (combiner F B contains).

Lemma contains_ne c : contains c = false -> c <> c0.
Proof. intros Hc ->. pose proof (proj2 (one_key c0) eq_refl). congruence. Qed.

(** A combined operation is one of the part its asset belongs to. *)
Lemma combiner_op c x x' : fs_op K c x x' -> (c = c0 /\ f_op F x x') \/ (c <> c0 /\ fs_op B c x x').
Proof.
  assert (Hc : (contains c = true /\ c = c0) \/ (contains c = false /\ c <> c0)).
  { destruct (contains c) eqn:E; [left|right]; split; auto; [by apply one_key|by apply contains_ne]. }
  destruct Hc as [[E Hc]|[E Hc]]; destruct 1 as [a v x x' w Hv Hr|a v p f x x' w Hv Hr|a b v p x x' w Hv Hr]; cbn in Hr;
    unfold combiner_mint_into, combiner_burn_from, combiner_transfer in Hr; rewrite E in Hr.
  1-3: left; split; [done|]; first [by eapply fo_mint|by eapply fo_burn|by eapply fo_transfer].
  all: right; split; [done|]; first [by eapply fso_mint|by eapply fso_burn|by eapply fso_transfer].
Qed.

Abbreviation bal := (combiner_balance F B contains).
Abbreviation iss := (combiner_total_issuance F B contains).

(** The combined view after an operation of either part. *)
Lemma view_single x x' (d : A -> Z) (t : Z) :
  Inv x -> f_op F x x' ->
  f_total_issuance x' = f_total_issuance x + t -> (forall a, f_balance x' a = f_balance x a + d a) ->
  (forall c, iss x' c = iss x c + at_key c0 t c) /\
  (forall c a, bal x' c a = bal x c a + (if bool_decide (c = c0) then d a else 0)).
Proof.
  intros Hi Ho Ht Hd. split; intros c; unfold combiner_total_issuance, combiner_balance, at_key;
    (destruct (contains c) eqn:E;
      [rewrite bool_decide_eq_true_2 by (by apply one_key); auto
      |apply contains_ne in E; rewrite bool_decide_eq_false_2 by done]).
  - destruct (sep_single x x' c Hi Ho E) as [-> _]. lia.
  - intros a. destruct (sep_single x x' c Hi Ho E) as [_ ->]. lia.
Qed.
Lemma view_family x x' c (d : C -> A -> Z) (t : C -> Z) :
  Inv x -> fs_op B c x x' -> c <> c0 -> t c0 = 0 -> (forall a, d c0 a = 0) ->
  (forall c', fs_total_issuance x' c' = fs_total_issuance x c' + t c') ->
  (forall c' a, fs_balance x' c' a = fs_balance x c' a + d c' a) ->
  (forall c', iss x' c' = iss x c' + t c') /\ (forall c' a, bal x' c' a = bal x c' a + d c' a).
Proof.
  intros Hi Ho Hc H0 H1 Ht Hd. destruct (sep_family x x' c Hi Ho Hc) as [Et Eb].
  split; intros c'; unfold combiner_total_issuance, combiner_balance;
    (destruct (contains c') eqn:E; [apply one_key in E as ->|]); auto; [rewrite Et; lia|].
  intros a. rewrite Eb, H1. lia.
Qed.
Lemma at_key_single (c : C) (a : A) v a' : (if bool_decide (c = c0) then at_key a v a' else 0) = at_key (c0, a) v (c, a').
Proof. unfold at_key. repeat case_bool_decide; naive_solver. Qed.

Ltac route c :=
  unfold combiner_mint_into, combiner_burn_from, combiner_transfer in *;
  let E := fresh "E" in destruct (contains c) eqn:E;
  [apply one_key in E; subst c|apply contains_ne in E].

(** A [Combiner] implements the [fungibles] contract whenever its two parts do: if the
    key set is exactly one asset, if the single asset and the family keep the documented
    laws and if the single asset is separate from the other assets of the family, then
    through the combiner, too, minting, burning and transferring change the balance and
    the issuance of the addressed asset by exactly the amount, leave every other balance
    of every asset as it was, and keep the invariant of the storage. *)
Theorem combiner_lawful : FungiblesLaws Inv K.
Proof.
  split; cbn [combiner fs_balance fs_total_issuance fs_mint_into fs_burn_from fs_transfer].
  - intros x c a Hi. unfold combiner_balance. destruct (contains c); [by eapply sep_range|by apply fsl_range].
  - intros c x x' Hi [[_ Ho]|[_ Ho]]%combiner_op; [by eapply fl_inv|by eapply fsl_inv].
  - intros c a v x x' w Hi Hv Hr. route c.
    + destruct (fl_mint _ _ _ _ _ Hi Hv Hr) as (-> & Ht & Hb). split; [done|].
      destruct (view_single x x' (at_key a v) v Hi (fo_mint _ _ _ _ _ _ Hv Hr) Ht Hb) as [V1 V2].
      split; [done|]. intros. by rewrite V2, at_key_single.
    + destruct (fsl_mint _ _ _ _ _ _ Hi Hv Hr) as (-> & Ht & Hb). split; [done|].
      apply (view_family x x' c (fun c' a' => at_key (c, a) v (c', a')) (at_key c v)); auto.
      * by eapply fso_mint.
      * by rewrite at_key_ne by congruence.
      * intros. by rewrite at_key_ne by congruence.
  - intros c a v p f x x' w Hi Hv Hr. route c.
    + destruct (fl_burn _ _ _ _ _ _ _ Hi Hv Hr) as (Hw & Ht & Hb). split; [done|].
      destruct (view_single x x' (fun a' => - at_key a w a') (- w) Hi (fo_burn _ _ _ _ _ _ _ _ Hv Hr)) as [V1 V2];
        [lia|intros; rewrite Hb; lia|].
      split; [intros; rewrite V1; unfold at_key; case_bool_decide; lia|].
      intros. rewrite V2, <- at_key_single. case_bool_decide; lia.
    + destruct (fsl_burn _ _ _ _ _ _ _ _ Hi Hv Hr) as (Hw & Ht & Hb). split; [done|].
      apply (view_family x x' c (fun c' a' => - at_key (c, a) w (c', a')) (fun c' => - at_key c w c')); auto.
      * by eapply fso_burn.
      * by rewrite at_key_ne by congruence.
      * intros. by rewrite at_key_ne by congruence.
  - intros c a b v p x x' w Hi Hv Hr. route c.
    + destruct (fl_transfer _ _ _ _ _ _ _ Hi Hv Hr) as (-> & Ht & Hb). split; [done|].
      destruct (view_single x x' (fun a' => - at_key a v a' + at_key b v a') 0 Hi
        (fo_transfer _ _ _ _ _ _ _ _ Hv Hr)) as [V1 V2]; [lia|intros; rewrite Hb; lia|].
      split; [intros; rewrite V1; unfold at_key; case_bool_decide; lia|].
      intros. rewrite V2, <- !at_key_single. case_bool_decide; lia.
    + destruct (fsl_transfer _ _ _ _ _ _ _ _ Hi Hv Hr) as (-> & Ht & Hb). split; [done|].
      destruct (view_family x x' c (fun c' a' => - at_key (c, a) v (c', a') + at_key (c, b) v (c', a')) (fun _ => 0))
        as [V1 V2]; auto.
      * by eapply fso_transfer.
      * intros. by rewrite !at_key_ne by congruence.
      * intros. rewrite Ht. lia.
      * intros. rewrite Hb. lia.
      * split; intros; [rewrite V1|rewrite V2]; lia.
Qed.
End combined.

(** ** The mapper *)

(** Conversions that keep sums: the outer amount [v] is worth [w] inner units wherever it
    is added or taken. *)
Class ConvertLaws {C : Type} (V : ConvertBalance C) (c : C) : Prop := {
  cl_total a : 0 <= a <= U128_MAX -> exists b, convert_balance a c = Ok b;
  cl_back v w : 0 <= v -> convert_balance_back v c = Ok w -> 0 <= w;
  cl_add a b v w : convert_balance a c = Ok b -> convert_balance_back v c = Ok w ->
    0 <= a -> 0 <= v -> convert_balance (a + w) c = Ok (b + v);
  cl_sub a b v w : convert_balance a c = Ok b -> convert_balance_back v c = Ok w ->
    0 <= v -> w <= a -> convert_balance (a - w) c = Ok (b - v);
}.

Section mapped.
Context {X A C : Type} `{EqDecision A} `{EqDecision C}.
Context (Inv : X -> Prop) (T : Fungibles X A C) (V : ConvertBalance C) (c : C).
Context `{!FungiblesLaws Inv T} `{!ConvertLaws V c}.
Abbreviation bal := (mapper_balance T V c).

Lemma back_Ok v x x' w :
  back (X := X) V c v x = (x', Ok w) -> x' = x /\ convert_balance_back v c = Ok w.
Proof.
  unfold back, mlift, rmap_err. destruct (convert_balance_back v c); intros [= <- <-]; done.
Qed.

(** The outer balance after the inner one grew or shrank by the worth of [v]. *)
Lemma bal_add x x' a v w :
  Inv x -> 0 <= v -> convert_balance_back v c = Ok w ->
  fs_balance x' c a = fs_balance x c a + w -> bal x' a = bal x a + v.
Proof.
  intros Hi Hv Hw Hb. pose proof (fsl_range x c a Hi) as Hr. destruct (cl_total _ Hr) as [b Eb].
  unfold mapper_balance, convert_balance_saturated. rewrite Hb, Eb, (cl_add _ _ _ _ Eb Hw) by lia. done.
Qed.
Lemma bal_sub x x' a v w :
  Inv x -> Inv x' -> 0 <= v -> convert_balance_back v c = Ok w ->
  fs_balance x' c a = fs_balance x c a - w -> bal x' a = bal x a - v.
Proof.
  intros Hi Hi' Hv Hw Hb. pose proof (fsl_range x c a Hi) as Hr. pose proof (fsl_range x' c a Hi') as Hr'.
  destruct (cl_total _ Hr) as [b Eb].
  unfold mapper_balance, convert_balance_saturated. rewrite Hb, Eb, (cl_sub _ _ _ _ Eb Hw) by lia. done.
Qed.
Lemma bal_same x x' a : fs_balance x' c a = fs_balance x c a -> bal x' a = bal x a.
Proof. intros Hb. unfold mapper_balance. by rewrite Hb. Qed.

(** An asset seen through a [Mapper] moves in its own units: when the conversion keeps
    sums and the family keeps the [fungibles] laws, minting [v] adds exactly [v] to the
    converted balance of the receiver, a transfer moves exactly [v], a burn that needs no
    dust takes exactly [v], and no other account's converted balance changes.  The amount
    reported back, however, is the amount in the inner units: the value [v] was converted
    to. *)
Theorem mapper_moves x x' a b v p f pr w :
  Inv x -> 0 <= v -> a <> b ->
  (mapper_mint_into T V c a v x = (x', Ok w) ->
     convert_balance_back v c = Ok w /\ bal x' a = bal x a + v /\ bal x' b = bal x b) /\
  (mapper_transfer T V c a b v p x = (x', Ok w) ->
     convert_balance_back v c = Ok w /\ bal x' a = bal x a - v /\ bal x' b = bal x b + v) /\
  (mapper_burn_from T V c a v pr f x = (x', Ok w) ->
     exists u, convert_balance_back v c = Ok u /\ u <= w /\ bal x' b = bal x b /\
       (w = u -> bal x' a = bal x a - v)).
Proof.
  intros Hi Hv Hab. split_and!; intros Hr; apply bind_Ok in Hr as (u & x1 & Hu & Hr);
    apply back_Ok in Hu as [-> Hu]; pose proof (cl_back _ _ Hv Hu) as Hu0.
  - destruct (fsl_mint _ _ _ _ _ _ Hi Hu0 Hr) as (-> & _ & Hb). split_and!; [done|..].
    + apply (bal_add x x' a v u); auto. by rewrite Hb, at_key_eq.
    + apply bal_same. rewrite Hb, at_key_ne by congruence. lia.
  - assert (Inv x') as Hi' by (eapply fsl_inv; [exact Hi|by eapply fso_transfer]).
    destruct (fsl_transfer _ _ _ _ _ _ _ _ Hi Hu0 Hr) as (-> & _ & Hb). split_and!; [done|..].
    + apply (bal_sub x x' a v u); auto. rewrite Hb, at_key_eq, at_key_ne by congruence. lia.
    + apply (bal_add x x' b v u); auto. rewrite Hb, at_key_eq, at_key_ne by congruence. lia.
  - assert (Inv x') as Hi' by (eapply fsl_inv; [exact Hi|by eapply fso_burn]).
    destruct (fsl_burn _ _ _ _ _ _ _ _ Hi Hu0 Hr) as (Hw & _ & Hb). exists u. split_and!; [done..| |].
    + apply bal_same. rewrite Hb, at_key_ne by congruence. lia.
    + intros ->. apply (bal_sub x x' a v u); auto. by rewrite Hb, at_key_eq.
Qed.
End mapped.

(** A conversion by a fixed factor: an outer unit is [k] inner ones. *)
Definition scale_by {C : Type} (k : Z) : ConvertBalance C := {|
  convert_balance a _ := Ok (a / k);
  convert_balance_back v _ := if v * k <=? U128_MAX then Ok (v * k) else Err AOverflow;
|}.
#[export] Instance scale_laws {C : Type} (k : Z) (c : C) : 0 < k -> ConvertLaws (scale_by k) c.
Proof.
  intros Hk. split; cbn [scale_by convert_balance convert_balance_back].
  - eauto.
  - intros v w Hv. destruct (_ <=? _); intros [= <-]. nia.
  - intros a b v w [= <-]. destruct (_ <=? _); intros [= <-]. intros _ _. by rewrite Z.div_add by lia.
  - intros a b v w [= <-]. destruct (_ <=? _); intros [= <-]. intros _ _. f_equal.
    replace (a - v * k) with (a + (- v) * k) by lia. rewrite Z.div_add by lia. lia.
Qed.

(** ** The tokens pallet keeps the laws *)
Section tokens.
Context {R A C : Type} `{Countable A} `{Countable C} `{SystemRefs R A} `{TokenHooks R A C}.
Variable cfg : TokensConfig A C.
Abbreviation X := (Tokens R A C).
Abbreviation nd := (no_dust (X := R) (A := A) (C := C)).
(** [into_result] of the consequences, by [frame_support]: a withdrawal passes when it
    succeeds or reduces the account to zero, which costs the dust as well. *)
Variable deposit_result : DepositConsequence -> res DispatchError unit.
Variable withdraw_result : WithdrawConsequence -> res DispatchError Z.
Hypothesis withdraw_extra : forall q e,
  withdraw_result q = Ok e -> (q = WithdrawSuccess /\ e = 0) \/ q = ReducedToZero e.

Definition tokens_fungibles : Fungibles X A C := {|
  fs_total_issuance := Tokens.total_issuance;
  fs_minimum_balance := ExistentialDeposits cfg;
  fs_balance x c who := Tokens.free_balance x c who;
  fs_total_balance x c who := Tokens.total_balance x c who;
  fs_reducible_balance x c who p _ := Tokens.reducible_balance cfg x c who p;
  fs_can_deposit x c who amount _ := Tokens.can_deposit cfg x c who amount;
  fs_can_withdraw x c who amount := Tokens.can_withdraw cfg x c who amount;
  fs_asset_exists := Tokens.asset_exists;
  fs_mint_into := Tokens.mint_into cfg nd deposit_result;
  fs_burn_from c who amount _ _ := Tokens.burn_from cfg nd withdraw_result c who amount;
  fs_transfer := Tokens.fungibles_transfer cfg nd;
  fs_write_balance := Tokens.write_balance cfg nd;
  fs_set_total_issuance := Tokens.set_total_issuance;
|}.

Lemma free_wr c who (a : AccountData) (x x' : X) d :
  accounts x' = wr cfg c who a (accounts x) -> acc_ok a -> free a = free (lk (accounts x) who c) + d ->
  forall c' who', Tokens.free_balance x' c' who' = Tokens.free_balance x c' who' + at_key (c, who) d (c', who').
Proof.
  intros Ha Hok Hf c' who'. unfold Tokens.free_balance. rewrite !account_of_lk, Ha. unfold at_key.
  case_bool_decide as Hk.
  - injection Hk as -> ->. destruct (lk_wr_balances cfg c who a (accounts x) Hok) as [-> _]. lia.
  - rewrite lk_wr_ne by congruence. lia.
Qed.
Lemma issuance_insert c v d (x x' : X) :
  issued x' = <[c := v]> (issued x) -> v = Tokens.total_issuance x c + d ->
  forall c', Tokens.total_issuance x' c' = Tokens.total_issuance x c' + at_key c d c'.
Proof.
  intros Hi Hv c'. unfold Tokens.total_issuance, at_key in *. rewrite Hi. case_bool_decide as Hc.
  - subst c'. rewrite lookup_insert_eq. simpl. lia.
  - rewrite lookup_insert_ne by congruence. lia.
Qed.
Lemma at_key_zero {K : Type} `{EqDecision K} (k k' : K) : at_key k 0 k' = 0.
Proof. unfold at_key. by case_bool_decide. Qed.

Lemma tokens_mint c a v (x x' : X) w :
  ledger_inv x -> 0 <= v -> Tokens.mint_into cfg nd deposit_result c a v x = (x', Ok w) ->
  ledger_inv x' /\ w = v /\
  (forall c', Tokens.total_issuance x' c' = Tokens.total_issuance x c' + at_key c v c') /\
  (forall c' a', Tokens.free_balance x' c' a' = Tokens.free_balance x c' a' + at_key (c, a) v (c', a')).
Proof.
  intros Hi Hv Hr. unfold Tokens.mint_into in Hr. run_inv. split; [by eapply do_deposit_inv|].
  destruct (decide (v = 0)) as [->|Hv0].
  { unfold do_deposit in Hr. cbn [Z.eqb] in Hr. run_inv.
    split_and!; [done|intros; rewrite at_key_zero; lia..]. }
  apply do_deposit_Ok in Hr as (-> & Hmax & Ha & Hs & _); [|done].
  destruct (ledger_lk x a c Hi) as (Hd & Htot & Hm). unfold acc_ok, tot in Hd, Htot.
  rewrite sat_add_exact in Ha by lia. split_and!; [done|by eapply issuance_insert|].
  eapply free_wr; [exact Ha|unfold acc_ok; simpl; lia|done].
Qed.
Lemma withdraw_consequence_extra c a v (x : X) e :
  ledger_inv x -> 0 <= v ->
  withdraw_result (withdraw_consequence cfg a c v (account_of x a c) x) = Ok e ->
  0 <= e /\ v + e <= U128_MAX.
Proof.
  intros Hi Hv Hq. destruct (ledger_lk x a c Hi) as (Hd & Htot & Hm).
  rewrite account_of_lk in Hq. apply withdraw_extra in Hq. unfold withdraw_consequence in Hq.
  pose proof (held_nonneg c _ (balances_ok _ Hi)). pose proof (total_exact (lk (accounts x) a c)) as Ht.
  destruct (Z.eqb_spec v 0) as [->|]; [destruct Hq as [[_ ->]| ?]; [|done]; unfold U128_MAX; lia|].
  destruct (checked_sub (total_issuance x c) v) as [i|] eqn:Ei; [|naive_solver].
  apply checked_sub_Some in Ei as [-> Ei].
  destruct (checked_sub (total _) v) as [rest|] eqn:En; [|naive_solver]. apply checked_sub_Some in En as [-> En].
  rewrite Ht in Hq, En by lia.
  destruct Hq as [[_ ->]|Hq]; [lia|].
  destruct (_ <? ExistentialDeposits cfg c); [destruct (can_dec_provider _ _); [|done]|];
    (destruct (checked_sub (free _) v) as [k|]; [|done]); destruct (k <? _); try done.
  injection Hq as <-. lia.
Qed.
Lemma tokens_burn c a v (x x' : X) w :
  ledger_inv x -> 0 <= v -> Tokens.burn_from cfg nd withdraw_result c a v x = (x', Ok w) ->
  ledger_inv x' /\ v <= w /\
  (forall c', Tokens.total_issuance x' c' = Tokens.total_issuance x c' - at_key c w c') /\
  (forall c' a', Tokens.free_balance x' c' a' = Tokens.free_balance x c' a' - at_key (c, a) w (c', a')).
Proof.
  intros Hi Hv Hr. unfold Tokens.burn_from in Hr. run_inv.
  match goal with Hq : withdraw_result _ = Ok ?e |- _ =>
    apply withdraw_consequence_extra in Hq as [He Hm]; [|done..]; rewrite (sat_add_exact _ v e Hm) in * end.
  match goal with Hr : do_withdraw _ _ _ _ ?w _ _ _ = _ |- _ => rename Hr into Hw; remember w as n eqn:En end.
  assert (0 <= n) by lia. split; [by eapply do_withdraw_inv|]. split; [lia|].
  destruct (decide (n = 0)) as [E|Hn].
  { unfold do_withdraw in Hw. rewrite E in *. cbn [Z.eqb] in Hw. run_inv. split; intros; rewrite at_key_zero; lia. }
  apply do_withdraw_Ok in Hw as (Hle & _ & Ha & Hs & _); [|done].
  destruct (ledger_lk x a c Hi) as (Hd & Htot & Hmx). unfold acc_ok, tot in Hd, Htot.
  rewrite !sat_sub_exact in * by lia. split; intros.
  - rewrite (issuance_insert _ _ (- n) _ _ Hs) by lia. unfold at_key. case_bool_decide; lia.
  - rewrite (free_wr _ _ _ _ _ (- n) Ha); [unfold at_key; case_bool_decide; lia|unfold acc_ok; simpl; lia|simpl; lia].
Qed.
(** Every balance after a transfer. *)
Lemma do_transfer_balances c a b v er (x x' : X) u :
  ledger_inv x -> 0 <= v -> do_transfer cfg nd c a b v er x = (x', Ok u) ->
  ledger_inv x' /\
  (forall c', Tokens.total_issuance x' c' = Tokens.total_issuance x c') /\
  (forall c' a', Tokens.free_balance x' c' a' = Tokens.free_balance x c' a'
    - at_key (c, a) v (c', a') + at_key (c, b) v (c', a')).
Proof.
  intros Hi Hv Ht. split; [by eapply do_transfer_inv|].
  destruct (decide (v = 0 \/ a = b)) as [E|E].
  { unfold do_transfer in Ht.
    assert ((v =? 0) || bool_decide (a = b) = true) as Hz
      by (destruct E as [->| ->]; [done|by rewrite bool_decide_eq_true_2, orb_true_r]).
    rewrite Hz in Ht. run_inv. split; [done|]. intros. destruct E as [->| ->]; rewrite ?at_key_zero; lia. }
  apply do_transfer_Ok in Ht as (Hle & _ & _ & _ & _ & Ha & Hs & _); [|naive_solver..].
  destruct (ledger_lk x a c Hi) as (HF & _). destruct (ledger_lk x b c Hi) as (HT & _).
  split; [intros; unfold Tokens.total_issuance; by rewrite Hs|]. intros c' a'.
  set (y := set_accounts (wr cfg c a (debit v (lk (accounts x) a c)) (accounts x)) x).
  rewrite (free_wr c b (credit v (lk (accounts x) b c)) y x' v).
  - rewrite (free_wr c a (debit v (lk (accounts x) a c)) x y (- v)); [unfold at_key; repeat case_bool_decide; lia|done|..].
    + by apply acc_ok_debit.
    + done.
  - exact Ha.
  - by apply acc_ok_credit.
  - unfold y. cbn [accounts set_accounts]. rewrite lk_wr_ne by naive_solver. done.
Qed.
Lemma tokens_transfer c a b v p (x x' : X) w :
  ledger_inv x -> 0 <= v -> Tokens.fungibles_transfer cfg nd c a b v p x = (x', Ok w) ->
  ledger_inv x' /\ w = v /\
  (forall c', Tokens.total_issuance x' c' = Tokens.total_issuance x c') /\
  (forall c' a', Tokens.free_balance x' c' a' = Tokens.free_balance x c' a'
    - at_key (c, a) v (c', a') + at_key (c, b) v (c', a')).
Proof.
  intros Hi Hv Hr. unfold Tokens.fungibles_transfer in Hr. apply bind_Ok in Hr as (u & x1 & Ht & Hr).
  apply ret_Ok in Hr as [-> ->]. destruct (do_transfer_balances _ _ _ _ _ _ _ _ Hi Hv Ht) as (? & ? & ?). done.
Qed.

#[export] Instance tokens_fungibles_laws : FungiblesLaws ledger_inv tokens_fungibles.
Proof using withdraw_extra.
  split; cbn [tokens_fungibles fs_balance fs_total_issuance fs_mint_into fs_burn_from fs_transfer].
  - intros x c a Hi. destruct (ledger_lk x a c Hi) as (Hd & Htot & Hm). unfold acc_ok, tot in *.
    unfold Tokens.free_balance. rewrite account_of_lk. lia.
  - intros c x x' Hi Ho. destruct Ho as [a v x x' w Hv Hr|a v p f x x' w Hv Hr|a b v p x x' w Hv Hr];
      [by destruct (tokens_mint _ _ _ _ _ _ Hi Hv Hr)|by destruct (tokens_burn _ _ _ _ _ _ Hi Hv Hr)
      |by destruct (tokens_transfer _ _ _ _ _ _ _ _ Hi Hv Hr)].
  - intros c a v x x' w Hi Hv Hr. by destruct (tokens_mint _ _ _ _ _ _ Hi Hv Hr).
  - intros c a v p f x x' w Hi Hv Hr. by destruct (tokens_burn _ _ _ _ _ _ Hi Hv Hr).
  - intros c a b v p x x' w Hi Hv Hr. by destruct (tokens_transfer _ _ _ _ _ _ _ _ Hi Hv Hr).
Qed.
End tokens.

(** ** Witnesses *)
Module FungiblesWitness.
Import TokensWitness.
Definition deposit_result0 (q : DepositConsequence) : res DispatchError unit :=
  match q with DepositSuccess => Ok tt | _ => Err (Token "cannot deposit") end.
Definition withdraw_result0 (q : WithdrawConsequence) : res DispatchError Z :=
  match q with WithdrawSuccess => Ok 0 | ReducedToZero d => Ok d | _ => Err (Token "cannot withdraw") end.
Lemma extra0 q e : withdraw_result0 q = Ok e -> (q = WithdrawSuccess /\ e = 0) \/ q = ReducedToZero e.
Proof. destruct q; intros [= <-]; auto. Qed.
(** Currency 0 of the ledger [w1] as the single asset, the ledger itself as the family. *)
Definition T0 : Fungibles W Z Z := tokens_fungibles cfg0 deposit_result0 withdraw_result0.
Definition laws0 : FungiblesLaws ledger_inv T0 := tokens_fungibles_laws cfg0 deposit_result0 withdraw_result0 extra0.
Definition F0 : Fungible W Z := adapter_fungible T0 0.
Definition K0 : Fungibles W Z Z := combiner F0 T0 (Z.eqb 0).
Definition minted0 : W := (combiner_mint_into F0 T0 (Z.eqb 0) 0 1 5 w1).1.
Lemma minted0_eq : fs_mint_into (Fungibles := K0) 0 1 5 w1 = (minted0, Ok 5).
Proof. vm_compute. reflexivity. Qed.
Lemma one_key0 c : Z.eqb 0 c = true <-> c = 0.
Proof. rewrite Z.eqb_eq. lia. Qed.
Lemma combiner_lawful_witness :
  combiner_balance F0 T0 (Z.eqb 0) minted0 0 1 = combiner_balance F0 T0 (Z.eqb 0) w1 0 1 + 5 /\
  combiner_balance F0 T0 (Z.eqb 0) minted0 7 1 = combiner_balance F0 T0 (Z.eqb 0) w1 7 1 + 0.
Proof.
  pose proof (@combiner_lawful W Z Z _ _ ledger_inv F0 T0 0 (@adapter_laws _ _ _ _ _ ledger_inv T0 laws0 0)
    laws0 (@adapter_separate _ _ _ _ _ ledger_inv T0 laws0 0) (Z.eqb 0) one_key0) as L.
  destruct (@fsl_mint _ _ _ _ _ _ _ L 0 1 5 w1 minted0 5 w1_inv ltac:(lia) minted0_eq) as (_ & _ & Hb).
  split; [exact (Hb 0 1)|exact (Hb 7 1)].
Defined.

(** The same currency in units of ten. *)
Definition V0 : ConvertBalance Z := scale_by 10.
Definition moved0 : W := (mapper_transfer T0 V0 0 1 2 3 Expendable w1).1.
Lemma moved0_eq : mapper_transfer T0 V0 0 1 2 3 Expendable w1 = (moved0, Ok 30).
Proof. vm_compute. reflexivity. Qed.
Lemma mapper_moves_witness :
  mapper_balance T0 V0 0 moved0 1 = mapper_balance T0 V0 0 w1 1 - 3 /\
  mapper_balance T0 V0 0 moved0 2 = mapper_balance T0 V0 0 w1 2 + 3.
Proof.
  destruct (@mapper_moves W Z Z _ _ ledger_inv T0 V0 0 laws0 (scale_laws 10 0 ltac:(lia))
    w1 moved0 1 2 3 Expendable Polite Exact 30 w1_inv) as (_ & Ht & _); [lia|lia|].
  apply Ht. exact moved0_eq.
Defined.

(** Units mix: with an outer unit of ten inner ones, minting 3 answers that 30 were minted
    although the balance grew by 3; writing a balance of 50 leaves a balance of 5, and
    setting the issuance to 20 makes it read 2. *)
Theorem mapper_units_mixed :
  (mapper_mint_into T0 V0 0 1 3 w1).2 = Ok 30 /\
  mapper_balance T0 V0 0 (mapper_mint_into T0 V0 0 1 3 w1).1 1 = mapper_balance T0 V0 0 w1 1 + 3 /\
  (mapper_write_balance T0 0 2 50 w1).2 = Ok None /\
  mapper_balance T0 V0 0 (mapper_write_balance T0 0 2 50 w1).1 2 = 5 /\
  mapper_total_issuance T0 V0 0 (mapper_set_total_issuance T0 0 20 w1) = 2.
Proof. vm_compute. done. Qed.
End FungiblesWitness.
