(* ===== verification/StorageMeter.v ===== *)
(** * The storage meter of the EVM runner

    Models [src/modules/evm/src/runner/storage_meter.rs].

    A [StorageMeter] counts the bytes a contract call uses and refunds against a
    limit, and forwards its own usage to its [handler] when it finishes.  The
    handler is a trait object: the meter of the calling contract, or the runtime
    ([StorageMeterHandlerImpl]) for the outermost call.  Here the chain of mutable
    borrows is the list of the ancestors' meters, innermost first; the empty list is
    the runtime, reached through the class [StorageMeterHandler]. *)

From S2P Require Import Prelude.
From stdpp Require Import base gmap list strings.
From Stdlib Require Import ZArith Lia.

Local Open Scope Z_scope.

(** The trait [StorageMeterHandler], as implemented over a storage [S]. *)
Class StorageMeterHandler (S : Type) : Type := {
  reserve_storage : Z -> M S DispatchError unit;
  unreserve_storage : Z -> Z -> Z -> M S DispatchError unit;
  charge_storage : H160 -> Z -> Z -> M S DispatchError unit;
  handler_out_of_storage_error : DispatchError;
}.

Record StorageMeter : Type := mkMeter {
  contract : H160;
  limit : Z;
  total_used : Z;
  self_used : Z;
  total_refunded : Z;
  self_refunded : Z;
  result : res DispatchError unit;
}.

Definition with_used (m : StorageMeter) (total self : Z) : StorageMeter :=
  mkMeter (contract m) (limit m) total self (total_refunded m) (self_refunded m) (result m).
Definition with_refunded (m : StorageMeter) (total self : Z) : StorageMeter :=
  mkMeter (contract m) (limit m) (total_used m) (self_used m) total self (result m).

(** [handle]: an operation of a meter whose result is an error does nothing. *)
Definition handle (m : StorageMeter) (f : StorageMeter) : StorageMeter * res DispatchError unit :=
  match result m with
  | Ok _ => (f, Ok tt)
  | Err e => (m, Err e)
  | Panic => (m, Panic)
  end.

Definition available_storage (m : StorageMeter) : Z :=
  if is_ok (result m)
  then sat_sub (sat_add U32_MAX (limit m) (total_refunded m)) (total_used m)
  else 0.

(** [-x] on [i32]: the minimum is its own negation. *)
Definition neg_i32 (x : Z) : Z := if x =? -2147483648 then x else - x.

Definition used_storage (m : StorageMeter) : Z :=
  if total_refunded m <? total_used m
  then as_i32 (total_used m - total_refunded m)
  else neg_i32 (as_i32 (total_refunded m - total_used m)).

Definition charge (m : StorageMeter) (storage : Z) : StorageMeter * res DispatchError unit :=
  handle m (with_used m (sat_add U32_MAX (total_used m) storage)
                        (sat_add U32_MAX (self_used m) storage)).

Definition uncharge (m : StorageMeter) (storage : Z) : StorageMeter * res DispatchError unit :=
  handle m (with_used m (sat_sub (total_used m) storage) (sat_sub (self_used m) storage)).

Definition refund (m : StorageMeter) (storage : Z) : StorageMeter * res DispatchError unit :=
  handle m (with_refunded m (sat_add U32_MAX (total_refunded m) storage)
                            (sat_add U32_MAX (self_refunded m) storage)).

(** The [StorageMeter] implementation of [out_of_storage_error]. *)
Definition out_of_storage_error : DispatchError := Other "OutOfStorage".

Section handlers.
Context {S : Type} `{StorageMeterHandler S}.

(** The three handler operations of a [&mut dyn StorageMeterHandler]. *)
Definition dyn_reserve_storage (limit : Z) : M (S * list StorageMeter) DispatchError unit :=
  fun '(s, ps) =>
    match ps with
    | [] => let '(s', r) := reserve_storage limit s in ((s', []), r)
    | _ :: _ => ((s, ps), Ok tt)
    end.

Definition dyn_unreserve_storage (limit used refunded : Z)
  : M (S * list StorageMeter) DispatchError unit :=
  fun '(s, ps) =>
    match ps with
    | [] => let '(s', r) := unreserve_storage limit used refunded s in ((s', []), r)
    | _ :: _ => ((s, ps), Ok tt)
    end.

Fixpoint dyn_charge_storage (ps : list StorageMeter) (contract : H160) (used refunded : Z) (s : S)
  : (S * list StorageMeter) * res DispatchError unit :=
  match ps with
  | [] => let '(s', r) := charge_storage contract used refunded s in ((s', []), r)
  | m :: ps' =>
      match result m with
      | Err e => ((s, ps), Err e)
      | Panic => ((s, ps), Panic)
      | Ok _ =>
          let m1 := with_refunded m (sat_add U32_MAX (total_refunded m) refunded) (self_refunded m) in
          let m2 := with_used m1 (sat_add U32_MAX (total_used m1) used) (self_used m1) in
          let '((s', ps''), r) := dyn_charge_storage ps' contract used refunded s in
          ((s', m2 :: ps''), r)
      end
  end.

(** [StorageMeter::new] on the handler in the state. *)
Definition new (contract : H160) (limit : Z) : M (S * list StorageMeter) DispatchError StorageMeter :=
  do! dyn_reserve_storage limit in
  ret (mkMeter contract limit 0 0 0 0 (Ok tt)).

(** [child_meter] of the meter at the head of the state's chain. *)
Definition child_meter (contract : H160) : M (S * list StorageMeter) DispatchError StorageMeter :=
  fun '(s, ps) =>
    match ps with
    | [] => ((s, ps), Panic)
    | m :: _ =>
        match result m with
        | Ok _ => new contract (available_storage m) (s, ps)
        | Err e => ((s, ps), Err e)
        | Panic => ((s, ps), Panic)
        end
    end.

Definition finish_new_limit (m : StorageMeter) : Z :=
  sat_sub (sat_sub (sat_add U32_MAX (sat_add U32_MAX (limit m) (self_used m)) (total_refunded m))
                   (total_used m))
          (self_refunded m).

(** [finish] consumes the meter; its handler is in the state. *)
Definition finish (m : StorageMeter) : M (S * list StorageMeter) DispatchError unit :=
  do! mlift (result m) in
  if limit m <? sat_sub (total_used m) (total_refunded m)
  then throw out_of_storage_error
  else
    do! (fun '(s, ps) => dyn_charge_storage ps (contract m) (self_used m) (self_refunded m) s) in
    dyn_unreserve_storage (finish_new_limit m) (self_used m) (self_refunded m).

End handlers.

(** ** Runs of a meter

    What the runner does with the meter of a call: charges and refunds of its own,
    and sub-calls, each in a storage transaction of its own ([run_sub_transaction]
    of [handler.rs]); a sub-call that does not commit drops its meter. *)
Inductive MeterOp : Type :=
| OpCharge (storage : Z)
| OpRefund (storage : Z)
| OpChild (contract : H160) (ops : list MeterOp) (commit : bool).

Section runs.
Context {S : Type} `{StorageMeterHandler S}.

Fixpoint run_op (op : MeterOp) (s : S) (m : StorageMeter) (ps : list StorageMeter)
  : S * StorageMeter * list StorageMeter :=
  match op with
  | OpCharge n => (s, (charge m n).1, ps)
  | OpRefund n => (s, (refund m n).1, ps)
  | OpChild c ops commit =>
      match child_meter c (s, m :: ps) with
      | ((s1, _), Ok child) =>
          let '(s2, child', hs) :=
            (fix run_list (ops : list MeterOp) (s : S) (m : StorageMeter) (ps : list StorageMeter) :=
               match ops with
               | [] => (s, m, ps)
               | op :: ops' => let '(s', m', ps') := run_op op s m ps in run_list ops' s' m' ps'
               end) ops s1 child (m :: ps) in
          if commit then
            match finish child' (s2, hs) with
            | ((s3, m' :: ps'), Ok _) => (s3, m', ps')
            | ((_, m' :: ps'), _) => (s, m', ps')
            | ((_, []), _) => (s, m, ps)
            end
          else
            match hs with
            | m' :: ps' => (s, m', ps')
            | [] => (s, m, ps)
            end
      | _ => (s, m, ps)
      end
  end.

Fixpoint run_ops (ops : list MeterOp) (s : S) (m : StorageMeter) (ps : list StorageMeter)
  : S * StorageMeter * list StorageMeter :=
  match ops with
  | [] => (s, m, ps)
  | op :: ops' => let '(s', m', ps') := run_op op s m ps in run_ops ops' s' m' ps'
  end.

(** An outermost call: reserve the limit, run, and finish ([run_transaction]). *)
Definition run_meter (c : H160) (lim : Z) (ops : list MeterOp) : M S DispatchError StorageMeter :=
  fun s =>
    match new c lim (s, []) with
    | ((s1, _), Ok m) =>
        let '(s2, m', ps) := run_ops ops s1 m [] in
        let '((s3, _), r) := finish m' (s2, ps) in
        if is_ok r then (s3, Ok m') else (s, rbind r (fun _ => Panic))
    | (_, Err e) => (s, Err e)
    | (_, Panic) => (s, Panic)
    end.
End runs.

(** ** Measures of a run *)

(** The number of bytes a run charges and refunds, over all its meters. *)
Fixpoint op_weight (op : MeterOp) : Z :=
  match op with
  | OpCharge n => n
  | OpRefund n => n
  | OpChild _ ops _ => foldr (fun o acc => op_weight o + acc) 0 ops
  end.
Definition ops_weight (ops : list MeterOp) : Z := foldr (fun o acc => op_weight o + acc) 0 ops.

Fixpoint op_nonneg (op : MeterOp) : bool :=
  match op with
  | OpCharge n => 0 <=? n
  | OpRefund n => 0 <=? n
  | OpChild _ ops _ => forallb op_nonneg ops
  end.

Definition is_child (op : MeterOp) : bool :=
  match op with OpChild _ _ _ => true | _ => false end.

(** No sub-call that is rolled back has made a sub-call of its own. *)
Fixpoint op_clean (op : MeterOp) : bool :=
  match op with
  | OpChild _ ops true => forallb op_clean ops
  | OpChild _ ops false => forallb (fun o => negb (is_child o)) ops
  | _ => true
  end.

(** An ancestor of a call that has been charged [u] and refunded [r] bytes. *)
Definition bump (u r : Z) (m : StorageMeter) : StorageMeter :=
  mkMeter (contract m) (limit m) (total_used m + u) (self_used m)
          (total_refunded m + r) (self_refunded m) (result m).

(** A meter that is not in error and can count [w] more bytes without saturating. *)
Definition roomy (w : Z) (m : StorageMeter) : Prop :=
  result m = Ok tt /\
  0 <= self_used m <= total_used m /\ total_used m + w <= U32_MAX /\
  0 <= self_refunded m <= total_refunded m /\ total_refunded m + w <= U32_MAX.

(** The meter after it has charged [c] and refunded [f] bytes of its own and its
    sub-calls [u] and [r]. *)
Definition advance (c f u r : Z) (m : StorageMeter) : StorageMeter :=
  mkMeter (contract m) (limit m) (total_used m + c + u) (self_used m + c)
          (total_refunded m + f + r) (self_refunded m + f) (Ok tt).

Lemma MeterOp_nested_ind (P : MeterOp -> Prop) :
  (forall n, P (OpCharge n)) -> (forall n, P (OpRefund n)) ->
  (forall c ops b, Forall P ops -> P (OpChild c ops b)) ->
  forall op, P op.
Proof.
  intros Hc Hr Hch. fix IH 1. intros [n|n|c ops b]; [apply Hc|apply Hr|].
  apply Hch. induction ops; constructor; [apply IH|assumption].
Qed.

Lemma op_weight_child c ops b : op_weight (OpChild c ops b) = ops_weight ops.
Proof. reflexivity. Qed.

Lemma op_weight_nonneg op : op_nonneg op = true -> 0 <= op_weight op.
Proof.
  induction op as [n|n|c ops b IH] using MeterOp_nested_ind; simpl; [lia|lia|].
  intros Hops. induction IH as [|o os Ho _ IHos]; simpl in *; [lia|].
  apply andb_prop in Hops as [Ho' Hos']. specialize (Ho Ho'); specialize (IHos Hos'). lia.
Qed.

Lemma ops_weight_nonneg ops : forallb op_nonneg ops = true -> 0 <= ops_weight ops.
Proof. apply (op_weight_nonneg (OpChild [] ops true)). Qed.

Lemma roomy_weaken w w' m : w' <= w -> roomy w m -> roomy w' m.
Proof. unfold roomy. naive_solver lia. Qed.

Lemma roomy_bump w u r m : 0 <= u -> 0 <= r -> u <= w -> r <= w -> roomy w m ->
  forall w', w' + u <= w -> w' + r <= w -> roomy w' (bump u r m).
Proof. unfold roomy, bump; simpl. naive_solver lia. Qed.

Lemma bump_0 m : bump 0 0 m = m.
Proof. destruct m; unfold bump; simpl. by rewrite !Z.add_0_r. Qed.

Lemma bump_bump u r u' r' m : bump u r (bump u' r' m) = bump (u' + u) (r' + r) m.
Proof. unfold bump; simpl. by rewrite !Z.add_assoc. Qed.

Lemma bump_list_bump u r u' r' (ps : list StorageMeter) : bump u r <$> (bump u' r' <$> ps) = bump (u' + u) (r' + r) <$> ps.
Proof. rewrite <- list_fmap_compose. apply list_fmap_ext. intros. apply bump_bump. Qed.

Lemma bump_list_0 (ps : list StorageMeter) : bump 0 0 <$> ps = ps.
Proof. induction ps as [|m ps IH]; [done|]. csimpl. by rewrite bump_0, IH. Qed.

(** ** What a run costs

    The bytes that a meter counts itself, those its sub-calls count in the counters above
    them, and what each contract and the user pay, read off the operations alone. *)
Definition zsum {T} (f : T -> Z) (l : list T) : Z := foldr (fun x acc => f x + acc) 0 l.
Definition charged (op : MeterOp) : Z := match op with OpCharge n => n | _ => 0 end.
Definition refunded (op : MeterOp) : Z := match op with OpRefund n => n | _ => 0 end.
Definition own_used (ops : list MeterOp) : Z := zsum charged ops.
Definition own_refunded (ops : list MeterOp) : Z := zsum refunded ops.
Fixpoint sub_used (op : MeterOp) : Z :=
  match op with OpChild _ ops true => own_used ops + zsum sub_used ops | _ => 0 end.
Fixpoint sub_refunded (op : MeterOp) : Z :=
  match op with OpChild _ ops true => own_refunded ops + zsum sub_refunded ops | _ => 0 end.
(** The net bytes of the contract [c] in the sub-calls that commit; the bytes it has to give
    back on the way; and the number of meters that end with more bytes used than refunded. *)
Fixpoint net_on (c : H160) (op : MeterOp) : Z :=
  match op with
  | OpChild d ops true => (if bool_decide (c = d) then own_used ops - own_refunded ops else 0) + zsum (net_on c) ops
  | _ => 0
  end.
Fixpoint demand (c : H160) (op : MeterOp) : Z :=
  match op with
  | OpChild d ops true => (if bool_decide (c = d) then Z.max 0 (own_refunded ops - own_used ops) else 0) + zsum (demand c) ops
  | _ => 0
  end.
Fixpoint fees (op : MeterOp) : Z :=
  match op with
  | OpChild _ ops true => (if own_refunded ops <? own_used ops then 1 else 0) + zsum fees ops
  | _ => 0
  end.
Fixpoint contracts_in (P : H160 -> Prop) (op : MeterOp) : Prop :=
  match op with
  | OpChild d ops _ => P d /\ foldr (fun o acc => contracts_in P o /\ acc) True ops
  | _ => True
  end.
Definition contracts_all (P : H160 -> Prop) (ops : list MeterOp) : Prop := foldr (fun o acc => contracts_in P o /\ acc) True ops.

Lemma zsum_nonneg {T} (f : T -> Z) l : (forall x, x ∈ l -> 0 <= f x) -> 0 <= zsum f l.
Proof.
  induction l as [|x l IH]; intros Hf; cbn; [lia|]. specialize (IH ltac:(intros; apply Hf; by right)).
  pose proof (Hf x ltac:(by left)). fold (zsum f l). lia.
Qed.
Lemma zsum_le {T} (f g : T -> Z) l : (forall x, x ∈ l -> f x <= g x) -> zsum f l <= zsum g l.
Proof.
  induction l as [|x l IH]; intros Hf; cbn; [lia|]. specialize (IH ltac:(intros; apply Hf; by right)).
  pose proof (Hf x ltac:(by left)). fold (zsum f l) (zsum g l). lia.
Qed.
Lemma zsum_cons {T} (f : T -> Z) x l : zsum f (x :: l) = f x + zsum f l.
Proof. done. Qed.

Lemma demand_nonneg c op : 0 <= demand c op.
Proof.
  induction op as [n|n|d ops b IH] using MeterOp_nested_ind; cbn; [lia|lia|]. destruct b; [|lia].
  rewrite Forall_forall in IH. pose proof (zsum_nonneg (demand c) ops IH). case_bool_decide; lia.
Qed.
Lemma fees_nonneg op : 0 <= fees op.
Proof.
  induction op as [n|n|d ops b IH] using MeterOp_nested_ind; cbn; [lia|lia|]. destruct b; [|lia].
  rewrite Forall_forall in IH. pose proof (zsum_nonneg fees ops IH). destruct (_ <? _); lia.
Qed.
Lemma net_demand c op : - demand c op <= net_on c op.
Proof.
  induction op as [n|n|d ops b IH] using MeterOp_nested_ind; cbn; [lia|lia|]. destruct b; [|lia].
  assert (- zsum (demand c) ops <= zsum (net_on c) ops) as Hs.
  { clear -IH. induction IH as [|o os Ho _ IHos]; [done|]. rewrite !zsum_cons. lia. }
  case_bool_decide; lia.
Qed.
(** Every byte a run counts is one of its operations. *)
Definition counted (op : MeterOp) : Prop :=
  0 <= charged op /\ 0 <= refunded op /\ 0 <= sub_used op /\ 0 <= sub_refunded op /\
  charged op + refunded op + sub_used op + sub_refunded op <= op_weight op.
Lemma counted_all ops : Forall counted ops ->
  0 <= own_used ops /\ 0 <= own_refunded ops /\ 0 <= zsum sub_used ops /\ 0 <= zsum sub_refunded ops /\
  own_used ops + own_refunded ops + zsum sub_used ops + zsum sub_refunded ops <= ops_weight ops.
Proof.
  unfold own_used, own_refunded. induction 1 as [|o os (? & ? & ? & ? & ?) _ IH]; [done|]. rewrite !zsum_cons.
  change (ops_weight (o :: os)) with (op_weight o + ops_weight os). lia.
Qed.
Lemma op_counted op : op_nonneg op = true -> counted op.
Proof.
  induction op as [n|n|d ops b IH] using MeterOp_nested_ind; intros Hn; unfold counted; cbn in *; [lia|lia|].
  fold (ops_weight ops).
  assert (Forall counted ops) as Hc.
  { clear -IH Hn. induction IH as [|o os Ho _ IHos]; [done|]. cbn in Hn. apply andb_prop in Hn as [H1 H2].
    constructor; [by apply Ho|by apply IHos]. }
  pose proof (counted_all ops Hc). pose proof (ops_weight_nonneg ops Hn). destruct b; lia.
Qed.
Lemma ops_counted ops : forallb op_nonneg ops = true -> Forall counted ops.
Proof.
  induction ops as [|o os IH]; cbn; [done|]. intros [H1 H2]%andb_prop. constructor; [by apply op_counted|by apply IH].
Qed.

(** ** The books of a handler

    What is observed of a handler that keeps the deposits of the user and of the contracts
    in a currency: the user's reserved balance and the funds it can spend, the balance held
    in reserve by a contract, and whether the account of a contract exists; [bk_unit] is the
    deposit of a byte, and [bk_fee] what a charge transfers beside the deposit. *)
Record Books (S : Type) : Type := mkBooks {
  bk_wf : S -> Prop;
  bk_known : H160 -> Prop;
  bk_reserved : S -> Z;
  bk_funds : S -> Z;
  bk_held : S -> H160 -> Z;
  bk_alive : S -> H160 -> Prop;
  bk_unit : Z;
  bk_fee : Z;
}.
Arguments bk_wf {S}. Arguments bk_known {S}. Arguments bk_reserved {S}. Arguments bk_funds {S}.
Arguments bk_held {S}. Arguments bk_alive {S}. Arguments bk_unit {S}. Arguments bk_fee {S}.

(** The books change by these amounts. *)
Record entry {S} (B : Books S) (s s' : S) (reserved funds : Z) (held : H160 -> Z) : Prop := {
  en_wf : bk_wf B s';
  en_reserved : bk_reserved B s' = bk_reserved B s + reserved;
  en_funds : bk_funds B s' = bk_funds B s + funds;
  en_held c : bk_known B c -> bk_held B s' c = bk_held B s c + held c;
  en_alive c : bk_known B c -> bk_alive B s c -> bk_alive B s' c;
}.
Definition nothing (c : H160) : Z := 0.
Definition only (c : H160) (v : Z) (c' : H160) : Z := if bool_decide (c' = c) then v else 0.

(** A handler that moves exactly these deposits, as long as they are there. *)
Class AccountingHandler (S : Type) `{StorageMeterHandler S} (B : Books S) : Prop := {
  ah_unit : 0 <= bk_unit B;
  ah_fee : 0 <= bk_fee B;
  ah_reserve l s : bk_wf B s -> 0 <= l <= U32_MAX -> bk_unit B * l <= bk_funds B s ->
    exists s', reserve_storage l s = (s', Ok tt) /\ entry B s s' (bk_unit B * l) (- (bk_unit B * l)) nothing;
  ah_unreserve l u r n s : bk_wf B s -> sat_sub (sat_add U32_MAX l r) u = n ->
    0 <= n <= U32_MAX -> bk_unit B * n <= bk_reserved B s ->
    exists s', unreserve_storage l u r s = (s', Ok tt) /\ entry B s s' (- (bk_unit B * n)) (bk_unit B * n) nothing;
  ah_charge c u r s : bk_wf B s -> bk_known B c -> 0 <= u <= U32_MAX -> 0 <= r <= U32_MAX ->
    (r < u -> bk_unit B * (u - r) <= bk_reserved B s /\ bk_fee B <= bk_funds B s) ->
    (u < r -> bk_unit B * (r - u) <= bk_held B s c /\ bk_alive B s c /\ 0 <= bk_funds B s) ->
    exists s', charge_storage c u r s = (s', Ok tt) /\
      entry B s s' (- (bk_unit B * (u - r))) (- (if r <? u then bk_fee B else 0)) (only c (bk_unit B * (u - r)));
}.

Section accounting.
Context {S : Type} {B : Books S} `{AccountingHandler S B}.
Abbreviation unit_ := (bk_unit B).
Abbreviation fee_ := (bk_fee B).

Lemma entry_refl s : bk_wf B s -> entry B s s 0 0 nothing.
Proof. intros Hw. split; [done|lia|lia|intros; unfold nothing; lia|done]. Qed.
Lemma entry_trans s1 s2 s3 r r' f f' h h' : entry B s1 s2 r f h -> entry B s2 s3 r' f' h' ->
  entry B s1 s3 (r + r') (f + f') (fun c => h c + h' c).
Proof.
  intros [? J2 J3 J4 J5] [? K2 K3 K4 K5]. split; [done|lia|lia| |].
  - intros c Hc. rewrite K4, J4 by done. lia.
  - intros c Hc Ha. by apply K5, J5.
Qed.
Lemma entry_eq s s' r r' f f' h h' : entry B s s' r f h -> r = r' -> f = f' -> (forall c, h c = h' c) -> entry B s s' r' f' h'.
Proof. intros [? J2 J3 J4 J5] <- <- Hh. split; try done. intros c Hc. by rewrite <- Hh, J4. Qed.

(** The deposits that a run needs are there: [w] bytes of the user, the transfers of [n]
    charges, and the bytes each contract gives back. *)
Record covered (w n : Z) (dem : H160 -> Z) (s : S) : Prop := {
  cv_wf : bk_wf B s;
  cv_reserved : unit_ * w <= bk_reserved B s;
  cv_funds : fee_ * n <= bk_funds B s;
  cv_held c : bk_known B c -> unit_ * dem c <= bk_held B s c /\ (0 < dem c -> bk_alive B s c);
}.
Lemma covered_weaken w w' n n' dem dem' s : w' <= w -> n' <= n -> (forall c, dem' c <= dem c) ->
  covered w n dem s -> covered w' n' dem' s.
Proof.
  intros Hw Hn Hd [? ? ? Hh]. pose proof (ah_unit (B := B)). pose proof (ah_fee (B := B)). split; [done|nia|nia|].
  intros c Hc. destruct (Hh c Hc) as [J1 J2]. specialize (Hd c). split; [nia|]. intros. apply J2. lia.
Qed.
(** What is left after a part of the run. *)
Lemma covered_step w w' n n' dem dem' net u s s' : 0 <= u -> u <= w -> (forall c, - dem c <= net c) ->
  (forall c, 0 <= dem c) -> covered (w + w') (n + n') (fun c => dem c + dem' c) s ->
  forall r, r <= u -> entry B s s' (- (unit_ * r)) (- (fee_ * n)) (fun c => unit_ * net c) -> covered w' n' dem' s'.
Proof.
  intros Hu Hw Hn Hd [? Hr Hf Hh] r Hru [? E2 E3 E4 E5]. pose proof (ah_unit (B := B)). pose proof (ah_fee (B := B)).
  split; [done|rewrite E2; nia|rewrite E3; nia|]. intros c Hc. destruct (Hh c Hc) as [J1 J2]. rewrite (E4 c Hc).
  specialize (Hn c). specialize (Hd c). split; [nia|]. intros Hp. apply E5; [done|]. apply J2. lia.
Qed.

(** *** Meters *)
Lemma roomy_step W W' c f u r m ps :
  0 <= c -> 0 <= f -> 0 <= u -> 0 <= r -> c + f + u + r <= W ->
  Forall (roomy (W + W')) (m :: ps) ->
  Forall (roomy W') (advance c f u r m :: (bump u r <$> ps)).
Proof.
  intros Hc Hf Hu Hr HW [Hm Hps]%Forall_cons. constructor.
  - unfold roomy, advance in *; simpl. naive_solver lia.
  - apply Forall_fmap. eapply Forall_impl; [exact Hps|]. intros p Hp. simpl.
    unfold roomy, bump in *; simpl. naive_solver lia.
Qed.
Lemma advance_advance c f u r c' f' u' r' m :
  advance c' f' u' r' (advance c f u r m) = advance (c + c') (f + f') (u + u') (r + r') m.
Proof. unfold advance; simpl. f_equal; lia. Qed.
Lemma advance_0 m : result m = Ok tt -> advance 0 0 0 0 m = m.
Proof. destruct m; unfold advance; simpl. intros ->. by rewrite !Z.add_0_r. Qed.
Lemma bump_advance u r m : result m = Ok tt -> bump u r m = advance 0 0 u r m.
Proof. destruct m; unfold bump, advance; simpl. intros ->. by rewrite !Z.add_0_r. Qed.

(** A charge goes up to the handler, and is counted by every meter on the way. *)
Lemma dyn_charge_exact ps c u r w s :
  0 <= u <= w -> 0 <= r <= w -> w <= U32_MAX -> Forall (roomy w) ps -> bk_wf B s -> bk_known B c ->
  (r < u -> unit_ * (u - r) <= bk_reserved B s /\ fee_ <= bk_funds B s) ->
  (u < r -> unit_ * (r - u) <= bk_held B s c /\ bk_alive B s c /\ 0 <= bk_funds B s) ->
  exists s', dyn_charge_storage ps c u r s = ((s', bump u r <$> ps), Ok tt) /\
    entry B s s' (- (unit_ * (u - r))) (- (if r <? u then fee_ else 0)) (only c (unit_ * (u - r))).
Proof.
  intros Hu Hr Hw Hps Hwf Hk J1 J2. induction Hps as [|m ps Hm Hps IH]; simpl.
  - destruct (ah_charge c u r s) as (s' & -> & He); [done|done|lia|lia|done|done|]. by exists s'.
  - destruct IH as (s' & -> & He). exists s'. split; [|done].
    destruct Hm as (-> & Hm). simpl. do 3 f_equal.
    unfold with_used, with_refunded, bump; simpl.
    rewrite !sat_add_exact by lia. done.
Qed.
Lemma run_op_child c ops b s m ps :
  run_op (OpChild c ops b) s m ps =
  match child_meter c (s, m :: ps) with
  | ((s1, _), Ok child) =>
      let '(s2, child', hs) := run_ops ops s1 child (m :: ps) in
      if b then
        match finish child' (s2, hs) with
        | ((s3, m' :: ps'), Ok _) => (s3, m', ps')
        | ((_, m' :: ps'), _) => (s, m', ps')
        | ((_, []), _) => (s, m, ps)
        end
      else match hs with m' :: ps' => (s, m', ps') | [] => (s, m, ps) end
  | _ => (s, m, ps)
  end.
Proof. reflexivity. Qed.
Lemma child_meter_ok c s m ps :
  result m = Ok tt ->
  child_meter c (s, m :: ps) =
    ((s, m :: ps), Ok (mkMeter c (available_storage m) 0 0 0 0 (Ok tt))).
Proof. unfold child_meter. by intros ->. Qed.
(** A meter that finishes under its limit charges its own usage to its ancestors. *)
Lemma finish_child_ok m s ps h w :
  result m = Ok tt -> 0 <= self_used m <= w -> 0 <= self_refunded m <= w -> w <= U32_MAX ->
  Forall (roomy w) (h :: ps) -> sat_sub (total_used m) (total_refunded m) <= limit m ->
  bk_wf B s -> bk_known B (contract m) ->
  (self_refunded m < self_used m -> unit_ * (self_used m - self_refunded m) <= bk_reserved B s /\ fee_ <= bk_funds B s) ->
  (self_used m < self_refunded m -> unit_ * (self_refunded m - self_used m) <= bk_held B s (contract m) /\
     bk_alive B s (contract m) /\ 0 <= bk_funds B s) ->
  exists s', finish m (s, h :: ps) =
      ((s', bump (self_used m) (self_refunded m) <$> (h :: ps)), Ok tt) /\
    entry B s s' (- (unit_ * (self_used m - self_refunded m))) (- (if self_refunded m <? self_used m then fee_ else 0))
      (only (contract m) (unit_ * (self_used m - self_refunded m))).
Proof.
  intros Hm Hu Hr Hw Hroom Hle Hwf Hk J1 J2.
  destruct (dyn_charge_exact (h :: ps) (contract m) (self_used m) (self_refunded m) w s)
    as (s' & Heq & Hres); [done..|].
  exists s'. split; [|done]. unfold finish, bind, mlift. rewrite Hm.
  destruct (Z.ltb_spec (limit m) (sat_sub (total_used m) (total_refunded m))); [lia|].
  rewrite Heq. reflexivity.
Qed.

(** *** Runs *)
(** The meters have room for [w] bytes, the limit allows them, and their deposits are there. *)
Record ready (w n : Z) (dem : H160 -> Z) (s : S) (m : StorageMeter) (ps : list StorageMeter) : Prop := {
  rd_roomy : Forall (roomy w) (m :: ps);
  rd_limit : w <= limit m + total_refunded m - total_used m;
  rd_covered : covered w n dem s;
}.
(** The meter at hand has counted what it and its sub-calls count, every ancestor what the
    sub-calls count, and the deposits of these bytes are in the books. *)
Definition op_effect (op : MeterOp) (s : S) (m : StorageMeter) (ps : list StorageMeter) : Prop :=
  exists s', run_op op s m ps =
      (s', advance (charged op) (refunded op) (sub_used op) (sub_refunded op) m, bump (sub_used op) (sub_refunded op) <$> ps) /\
    entry B s s' (- (unit_ * (sub_used op - sub_refunded op))) (- (fee_ * fees op)) (fun c => unit_ * net_on c op).
Definition ops_effect (ops : list MeterOp) (s : S) (m : StorageMeter) (ps : list StorageMeter) : Prop :=
  exists s', run_ops ops s m ps =
      (s', advance (own_used ops) (own_refunded ops) (zsum sub_used ops) (zsum sub_refunded ops) m,
       bump (zsum sub_used ops) (zsum sub_refunded ops) <$> ps) /\
    entry B s s' (- (unit_ * (zsum sub_used ops - zsum sub_refunded ops))) (- (fee_ * zsum fees ops))
      (fun c => unit_ * zsum (net_on c) ops).
Definition op_sound (op : MeterOp) : Prop := forall s m ps,
  op_nonneg op = true -> op_clean op = true -> contracts_in (bk_known B) op ->
  ready (op_weight op) (fees op) (fun c => demand c op) s m ps -> op_effect op s m ps.

Lemma run_ops_effect ops : Forall op_sound ops -> forall s m ps,
  forallb op_nonneg ops = true -> forallb op_clean ops = true -> contracts_all (bk_known B) ops ->
  ready (ops_weight ops) (zsum fees ops) (fun c => zsum (demand c) ops) s m ps -> ops_effect ops s m ps.
Proof.
  intros IH. induction IH as [|op ops Hop _ IHops]; intros s m ps Hnn Hcl Hk [Hroom Hlim Hcov].
  - exists s. split.
    + cbn. rewrite bump_list_0, advance_0; [done|]. by apply Forall_cons in Hroom as [[? _] _].
    + eapply entry_eq; [apply entry_refl, (cv_wf _ _ _ _ Hcov)|cbn; lia..|]. intros c. unfold nothing. cbn. lia.
  - cbn in Hnn, Hcl. apply andb_prop in Hnn as [Hnn Hnns]. apply andb_prop in Hcl as [Hcl Hcls]. destruct Hk as [Hk Hks].
    change (ops_weight (op :: ops)) with (op_weight op + ops_weight ops) in *. rewrite zsum_cons in Hcov.
    pose proof (op_counted op Hnn) as (? & ? & ? & ? & HW). pose proof (ops_weight_nonneg _ Hnns).
    pose proof (op_weight_nonneg _ Hnn). pose proof (fees_nonneg op).
    pose proof (zsum_nonneg fees ops ltac:(intros; apply fees_nonneg)).
    assert (forall c, 0 <= zsum (demand c) ops) as Hdem by (intros c; apply zsum_nonneg; intros; apply demand_nonneg).
    destruct (Hop s m ps Hnn Hcl Hk) as (s1 & Heq & He).
    { split; [eapply Forall_impl; [exact Hroom|intros p; apply roomy_weaken; lia]|lia|].
      eapply covered_weaken; [..|exact Hcov]; [lia|lia|]. intros c. cbv beta. rewrite zsum_cons. specialize (Hdem c). lia. }
    destruct (IHops s1 (advance (charged op) (refunded op) (sub_used op) (sub_refunded op) m)
      (bump (sub_used op) (sub_refunded op) <$> ps) Hnns Hcls Hks) as (s2 & Heq' & He').
    { split; [by eapply roomy_step; [..|exact Hroom]|cbn; lia|].
      eapply (covered_step (op_weight op) _ (fees op) _ (fun c => demand c op) _ (fun c => net_on c op) (sub_used op));
        [lia|lia|intros; apply net_demand|intros; apply demand_nonneg|exact Hcov| |exact He]. lia. }
    exists s2. split.
    + cbn [run_ops]. rewrite Heq. cbn [fst snd]. rewrite Heq', advance_advance, bump_list_bump. done.
    + eapply entry_eq; [exact (entry_trans _ _ _ _ _ _ _ _ _ He He')|rewrite ?zsum_cons; lia..|]. intros c. rewrite zsum_cons. lia.
Qed.

(** Sub-calls without sub-calls of their own do not reach the handler. *)
Lemma leaves ops : forallb (fun o => negb (is_child o)) ops = true ->
  forallb op_clean ops = true /\ zsum sub_used ops = 0 /\ zsum sub_refunded ops = 0 /\ zsum fees ops = 0 /\
  forall c, zsum (demand c) ops = 0.
Proof.
  induction ops as [|o os IH]; cbn; [done|]. intros [Ho (K1 & K2 & K3 & K4 & K5)%IH]%andb_prop.
  destruct o; [..|done]; cbn; fold (zsum sub_used os) (zsum sub_refunded os) (zsum fees os);
    (split_and!; [done|lia|lia|lia|]); intros c; specialize (K5 c); fold (zsum (demand c) os); lia.
Qed.
(** The end of a sub-call that commits. *)
Lemma child_commits d ops s s2 m ps :
  let op := OpChild d ops true in
  let child := mkMeter d (available_storage m) 0 0 0 0 (Ok tt) in
  let m2 := advance (own_used ops) (own_refunded ops) (zsum sub_used ops) (zsum sub_refunded ops) child in
  Forall counted ops -> bk_known B d -> ready (op_weight op) (fees op) (fun c => demand c op) s m ps ->
  entry B s s2 (- (unit_ * (zsum sub_used ops - zsum sub_refunded ops))) (- (fee_ * zsum fees ops))
    (fun c => unit_ * zsum (net_on c) ops) ->
  exists s3, finish m2 (s2, bump (zsum sub_used ops) (zsum sub_refunded ops) <$> (m :: ps)) =
      ((s3, bump (sub_used op) (sub_refunded op) <$> (m :: ps)), Ok tt) /\
    entry B s s3 (- (unit_ * (sub_used op - sub_refunded op))) (- (fee_ * fees op)) (fun c => unit_ * net_on c op).
Proof.
  intros op child m2 Hc Hk [Hroom Hlim Hcov] He.
  pose proof (counted_all ops Hc) as (C1 & C2 & C3 & C4 & C5). change (op_weight op) with (ops_weight ops) in *.
  assert (forall c, - zsum (demand c) ops <= zsum (net_on c) ops) as Hnd.
  { intros c. clear. induction ops as [|o os IH]; [done|]. rewrite !zsum_cons. pose proof (net_demand c o). lia. }
  pose proof (zsum_nonneg fees ops ltac:(intros; apply fees_nonneg)) as Hfs.
  pose proof (ah_unit (B := B)) as Hunit. pose proof (ah_fee (B := B)) as Hfee.
  pose proof Hroom as [[Hm Hm'] _]%Forall_cons.
  set (U := own_used ops) in *. set (R := own_refunded ops) in *.
  set (su := zsum sub_used ops) in *. set (sr := zsum sub_refunded ops) in *. set (W := ops_weight ops) in *.
  assert (available_storage m = Z.max (Z.min (limit m + total_refunded m) U32_MAX - total_used m) 0) as Hav
    by (unfold available_storage; rewrite Hm; reflexivity).
  assert (Forall (roomy (W - su - sr)) (bump su sr m :: (bump su sr <$> ps))) as Hroom'.
  { rewrite <- fmap_cons. apply Forall_fmap. eapply Forall_impl; [exact Hroom|].
    intros p Hp. eapply (roomy_bump W); [..|exact Hp| |]; lia. }
  destruct Hcov as [Hwf Hres Hfunds Hheld]. destruct (Hheld d Hk) as [Hh Ha]. unfold op in Hh, Ha, Hfunds |- *. cbn [demand fees] in Hh, Ha, Hfunds.
  rewrite bool_decide_eq_true_2 in Hh, Ha by done. fold U R in Hh, Ha, Hfunds.
  pose proof (zsum_nonneg (demand d) ops ltac:(intros; apply demand_nonneg)) as Hdem. specialize (Hnd d) as Hndd.
  destruct (finish_child_ok m2 s2 (bump su sr <$> ps) (bump su sr m) (W - su - sr)) as (s3 & Hf & He3);
    [done|cbn; lia|cbn; lia|unfold U32_MAX in *; lia|done|cbn; unfold sat_sub, U32_MAX in *; lia|exact (en_wf _ _ _ _ _ _ He)|exact Hk|..].
  { cbn. intros Hlt. rewrite (en_reserved _ _ _ _ _ _ He), (en_funds _ _ _ _ _ _ He).
    rewrite (proj2 (Z.ltb_lt R U)) in Hfunds by lia. split; nia. }
  { cbn. intros Hlt. rewrite (en_held _ _ _ _ _ _ He) by done. rewrite (en_funds _ _ _ _ _ _ He).
    rewrite (proj2 (Z.ltb_ge R U)) in Hfunds by lia. split; [nia|]. split; [|nia].
    apply (en_alive _ _ _ _ _ _ He); [done|]. apply Ha. lia. }
  exists s3. split.
  - rewrite fmap_cons. rewrite Hf. cbn [self_used self_refunded m2 advance child]. rewrite !fmap_cons, bump_bump, bump_list_bump.
    cbn [sub_used sub_refunded]. fold U R su sr. rewrite !Z.add_0_l, (Z.add_comm su U), (Z.add_comm sr R). done.
  - eapply entry_eq; [exact (entry_trans _ _ _ _ _ _ _ _ _ He He3)|..]; cbn [self_used self_refunded m2 advance child sub_used sub_refunded fees contract].
    + fold U R su sr. lia.
    + fold U R. rewrite !Z.add_0_l. destruct (R <? U); lia.
    + intros c. cbn [net_on]. unfold only. fold U R. case_bool_decide; lia.
Qed.
Lemma run_op_effect op : op_sound op.
Proof.
  induction op as [n|n|d ops b IH] using MeterOp_nested_ind; intros s m ps Hnn Hcl Hk Hrd;
    pose proof Hrd as [Hroom Hlim Hcov]; pose proof Hroom as [[Hm Hm'] _]%Forall_cons.
  - cbn in Hnn, Hm'. exists s. split.
    + cbn. unfold charge, handle. rewrite Hm, bump_list_0. unfold with_used, advance. cbn [fst].
      rewrite !sat_add_exact, !Z.add_0_r, Hm by lia. done.
    + eapply entry_eq; [apply entry_refl, (cv_wf _ _ _ _ Hcov)|cbn; lia..|]. intros c. unfold nothing. cbn. lia.
  - cbn in Hnn, Hm'. exists s. split.
    + cbn. unfold refund, handle. rewrite Hm, bump_list_0. unfold with_refunded, advance. cbn [fst].
      rewrite !sat_add_exact, !Z.add_0_r, Hm by lia. done.
    + eapply entry_eq; [apply entry_refl, (cv_wf _ _ _ _ Hcov)|cbn; lia..|]. intros c. unfold nothing. cbn. lia.
  - destruct Hk as [Hkd Hk]. cbn [op_nonneg] in Hnn. pose proof (ops_counted ops Hnn) as Hc. unfold op_effect.
    rewrite run_op_child, child_meter_ok by done. rewrite op_weight_child in Hroom, Hlim, Hcov, Hm'.
    pose proof (ops_weight_nonneg ops Hnn) as HW0.
    assert (forallb op_clean ops = true /\ (b = false -> forallb (fun o => negb (is_child o)) ops = true)) as [Hcls Hleaf].
    { cbn [op_clean] in Hcl. destruct b; (split; [|intros Hb]); [done|done|exact (proj1 (leaves ops Hcl))|exact Hcl]. }
    assert (available_storage m = Z.max (Z.min (limit m + total_refunded m) U32_MAX - total_used m) 0) as Hav
      by (unfold available_storage; rewrite Hm; reflexivity).
    destruct (run_ops_effect ops IH s (mkMeter d (available_storage m) 0 0 0 0 (Ok tt)) (m :: ps) Hnn Hcls Hk)
      as (s2 & -> & He).
    { split; [constructor; [|done]; unfold roomy; cbn; unfold U32_MAX in *; split_and!; lia || done
             |cbn; unfold U32_MAX in *; lia|].
      eapply covered_weaken; [..|exact Hcov]; [lia|..]; cbn [fees demand].
      - destruct b; [destruct (_ <? _); lia|]. destruct (leaves ops (Hleaf eq_refl)) as (_ & _ & _ & -> & _). lia.
      - intros c. destruct b; [case_bool_decide; lia|]. destruct (leaves ops (Hleaf eq_refl)) as (_ & _ & _ & _ & ->). lia. }
    destruct b.
    + destruct (child_commits d ops s s2 m ps Hc Hkd Hrd He) as (s3 & -> & He3). exists s3. rewrite fmap_cons. split; [|exact He3].
      cbn [charged refunded]. by rewrite bump_advance.
    + destruct (leaves ops (Hleaf eq_refl)) as (_ & -> & -> & _ & _). exists s. rewrite bump_list_0. split.
      * cbn [charged refunded sub_used sub_refunded]. by rewrite advance_0, bump_list_0.
      * eapply entry_eq; [apply entry_refl, (cv_wf _ _ _ _ Hcov)|cbn; lia..|]. intros c. unfold nothing. cbn. lia.
Qed.

(** *** Outermost calls *)
(** What the outermost meter gives back: the unused part of the limit, or its own net refund
    when that is more. *)
Lemma settle_amount m :
  roomy 0 m -> limit m + self_used m + total_refunded m <= U32_MAX ->
  total_used m - total_refunded m <= limit m -> 0 <= limit m ->
  sat_sub (sat_add U32_MAX (finish_new_limit m) (self_refunded m)) (self_used m) =
  Z.max (limit m + total_refunded m - total_used m) (self_refunded m - self_used m).
Proof. intros (Hm & ? & ? & ? & ?) ? ? ?. unfold finish_new_limit. uints. Qed.
Lemma finish_root_settles m s u r back :
  roomy 0 m -> limit m + self_used m + total_refunded m <= U32_MAX ->
  total_used m - total_refunded m <= limit m -> 0 <= limit m -> bk_wf B s -> bk_known B (contract m) ->
  self_used m = u -> self_refunded m = r -> Z.max (limit m + total_refunded m - total_used m) (r - u) = back ->
  (r < u -> unit_ * (u - r) <= bk_reserved B s /\ fee_ <= bk_funds B s) ->
  (u < r -> unit_ * (r - u) <= bk_held B s (contract m) /\ bk_alive B s (contract m) /\ 0 <= bk_funds B s) ->
  unit_ * back <= bk_reserved B s - unit_ * (u - r) ->
  exists s', finish m (s, []) = ((s', []), Ok tt) /\
    entry B s s' (- (unit_ * (u - r)) - unit_ * back) (unit_ * back - (if r <? u then fee_ else 0))
      (only (contract m) (unit_ * (u - r))).
Proof.
  intros Hroom Hmax Hle Hlim Hwf Hk Eu Er Eb Hu Hr Hb. pose proof (settle_amount m Hroom Hmax Hle Hlim) as Hset.
  rewrite Eu, Er, Eb in Hset. destruct Hroom as (Hm & ? & ? & ? & ?).
  assert (limit m <? sat_sub (total_used m) (total_refunded m) = false) as Hl by (apply Z.ltb_ge; unfold sat_sub; lia).
  destruct (ah_charge (contract m) u r s) as (s1 & Hc & He1); [done|done|lia|lia|done|done|].
  pose proof (en_reserved _ _ _ _ _ _ He1) as Hres1.
  destruct (ah_unreserve (finish_new_limit m) u r back s1 (en_wf _ _ _ _ _ _ He1) Hset) as (s2 & Hun & He2); [lia|lia|].
  exists s2. split.
  - unfold finish, bind, mlift. rewrite Hm, Hl, Eu, Er. unfold dyn_charge_storage. rewrite Hc.
    unfold dyn_unreserve_storage. by rewrite Hun.
  - eapply entry_eq; [exact (entry_trans _ _ _ _ _ _ _ _ _ He1 He2)|lia|lia|]. intros c. unfold nothing. lia.
Qed.
Lemma new_root_ok c lim s : bk_wf B s -> 0 <= lim <= U32_MAX -> unit_ * lim <= bk_funds B s ->
  exists s', new c lim (s, []) = ((s', []), Ok (mkMeter c lim 0 0 0 0 (Ok tt))) /\
    entry B s s' (unit_ * lim) (- (unit_ * lim)) nothing.
Proof.
  intros Hwf Hl Hf. destruct (ah_reserve lim s Hwf Hl Hf) as (s' & Heq & He). exists s'.
  unfold new, bind, dyn_reserve_storage. by rewrite Heq.
Qed.

(** An outermost call as the sub-call of nobody: its own bytes count like those of the calls
    below it. *)
Abbreviation whole c ops := (OpChild c ops true).
(** The outermost call: the reservation is all charged or given back, and the books say to
    whom. *)
Lemma run_meter_settles c lim ops s :
  forallb op_nonneg ops = true -> forallb op_clean ops = true ->
  ops_weight ops <= lim -> lim + 2 * ops_weight ops <= U32_MAX ->
  bk_known B c -> contracts_all (bk_known B) ops -> bk_wf B s -> 0 <= bk_reserved B s ->
  unit_ * lim + fee_ * fees (whole c ops) <= bk_funds B s ->
  (forall d, bk_known B d -> unit_ * demand d (whole c ops) <= bk_held B s d /\ (0 < demand d (whole c ops) -> bk_alive B s d)) ->
  exists s' m, run_meter c lim ops s = (s', Ok m) /\
    total_used m = sub_used (whole c ops) /\ total_refunded m = sub_refunded (whole c ops) /\
    entry B s s' 0 (- (unit_ * (sub_used (whole c ops) - sub_refunded (whole c ops)) + fee_ * fees (whole c ops)))
      (fun d => unit_ * net_on d (whole c ops)).
Proof.
  intros Hnn Hcl Hlim Hmax Hkc Hk Hwf Hres Hfunds Hheld. pose proof (ops_weight_nonneg ops Hnn) as HW.
  pose proof (ah_unit (B := B)) as Hunit. pose proof (ah_fee (B := B)) as Hfee.
  pose proof (counted_all ops (ops_counted ops Hnn)) as (C1 & C2 & C3 & C4 & C5).
  pose proof (zsum_nonneg fees ops ltac:(intros; apply fees_nonneg)) as Hfs.
  pose proof (fees_nonneg (whole c ops)) as Hfw. cbn [fees] in Hfunds, Hfw.
  unfold run_meter. destruct (new_root_ok c lim s) as (s1 & -> & He1); [done|lia|nia|].
  destruct (run_ops_effect ops ltac:(apply Forall_forall; intros; apply run_op_effect) s1 (mkMeter c lim 0 0 0 0 (Ok tt)) [] Hnn Hcl Hk)
    as (s2 & -> & He2).
  { split; [constructor; [|constructor]; unfold roomy; cbn; split_and!; done || lia|cbn; lia|]. split.
    - exact (en_wf _ _ _ _ _ _ He1).
    - rewrite (en_reserved _ _ _ _ _ _ He1). nia.
    - rewrite (en_funds _ _ _ _ _ _ He1). destruct (_ <? _) in Hfunds; nia.
    - intros d Hd. rewrite (en_held _ _ _ _ _ _ He1) by done. unfold nothing. destruct (Hheld d Hd) as [K1 K2]. cbn [demand] in K1, K2.
      split; [case_bool_decide; nia|]. intros Hp. apply (en_alive _ _ _ _ _ _ He1); [done|]. apply K2. case_bool_decide; lia. }
  pose proof (entry_trans _ _ _ _ _ _ _ _ _ He1 He2) as He12.
  set (U := own_used ops) in *. set (R := own_refunded ops) in *.
  set (su := zsum sub_used ops) in *. set (sr := zsum sub_refunded ops) in *. set (W := ops_weight ops) in *.
  assert (forall d, - zsum (demand d) ops <= zsum (net_on d) ops) as Hnd.
  { intros d. clear. induction ops as [|o os IH]; [done|]. rewrite !zsum_cons. pose proof (net_demand d o). lia. }
  pose proof (zsum_nonneg (demand c) ops ltac:(intros; apply demand_nonneg)) as Hdem. specialize (Hnd c) as Hndc.
  destruct (Hheld c Hkc) as [Hh Ha]. cbn [demand] in Hh, Ha. rewrite bool_decide_eq_true_2 in Hh, Ha by done. fold U R in Hh, Ha.
  destruct (finish_root_settles (advance U R su sr (mkMeter c lim 0 0 0 0 (Ok tt))) s2 U R (lim + R + sr - (U + su))) as (s3 & Hf & He3);
    [unfold roomy; cbn; split_and!; done || lia|cbn; lia|cbn; lia|cbn; lia|exact (en_wf _ _ _ _ _ _ He12)|exact Hkc|cbn; lia|cbn; lia|cbn; lia|..].
  { cbn. intros Hlt. rewrite (en_reserved _ _ _ _ _ _ He12), (en_funds _ _ _ _ _ _ He12).
    fold U R in Hfunds. rewrite (proj2 (Z.ltb_lt R U)) in Hfunds by lia. split; nia. }
  { cbn. intros Hlt. rewrite (en_held _ _ _ _ _ _ He12) by done. rewrite (en_funds _ _ _ _ _ _ He12).
    fold U R in Hfunds. rewrite (proj2 (Z.ltb_ge R U)) in Hfunds by lia. unfold nothing. split; [nia|]. split; [|nia].
    apply (en_alive _ _ _ _ _ _ He12); [done|]. apply Ha. lia. }
  { rewrite (en_reserved _ _ _ _ _ _ He12). nia. }
  change (bump su sr <$> []) with (@nil StorageMeter). rewrite Hf. cbn [is_ok]. eexists _, _. split; [reflexivity|].
  cbn [total_used total_refunded advance sub_used sub_refunded]. fold U R su sr. split; [lia|]. split; [lia|].
  cbn [advance contract] in He3.
  eapply entry_eq; [exact (entry_trans _ _ _ _ _ _ _ _ _ He12 He3)|..].
  - lia.
  - cbn [fees]. fold U R. destruct (R <? U); lia.
  - intros d. cbn [net_on]. unfold only, nothing. fold U R. case_bool_decide; lia.
Qed.

(** *** Where the reservation does not come out even *)
(** A sub-call that is rolled back after a sub-call of its own has committed
    leaves the committed bytes in the counters of the calls above it although the
    storage transaction has undone the charge: the outermost call succeeds and
    reports [n] bytes used, and the deposit of [n] bytes stays reserved. *)
Theorem reverted_subcall_leaks_reservation c b d lim n s :
  0 <= n <= lim -> lim <= U32_MAX -> bk_known B c -> bk_known B d -> bk_wf B s -> 0 <= bk_reserved B s ->
  unit_ * lim + fee_ <= bk_funds B s ->
  exists s' m, run_meter c lim [OpChild b [OpChild d [OpCharge n] true] false] s = (s', Ok m) /\
    total_used m = n /\ bk_reserved B s' = bk_reserved B s + unit_ * n.
Proof.
  intros Hn Hmax Hkc Hkd Hwf Hr0 Hfunds. pose proof (ah_unit (B := B)) as Hunit. pose proof (ah_fee (B := B)) as Hfee.
  unfold run_meter. destruct (new_root_ok c lim s) as (s1 & -> & He1); [done|lia|nia|].
  pose proof (en_reserved _ _ _ _ _ _ He1) as Hres1. pose proof (en_funds _ _ _ _ _ _ He1) as Hf1.
  cbn [run_ops]. rewrite run_op_child, child_meter_ok by done. cbn [run_ops].
  rewrite run_op_child, child_meter_ok by done. cbn [run_ops run_op].
  assert (available_storage (mkMeter c lim 0 0 0 0 (Ok tt)) = lim) as Hav.
  { unfold available_storage; simpl. uints. }
  assert (available_storage (mkMeter b lim 0 0 0 0 (Ok tt)) = lim) as Hav' by exact Hav.
  rewrite Hav, Hav'. unfold charge, handle. simpl. rewrite !sat_add_exact, !Z.add_0_l by lia.
  destruct (finish_child_ok (mkMeter d lim n n 0 0 (Ok tt)) s1
     [mkMeter c lim 0 0 0 0 (Ok tt)] (mkMeter b lim 0 0 0 0 (Ok tt)) n) as (s2 & Hf & _);
    [done|simpl; lia|simpl; lia|lia|repeat constructor; simpl; lia|simpl; unfold sat_sub; lia|exact (en_wf _ _ _ _ _ _ He1)|exact Hkd|..].
  { cbn. intros _. rewrite Hres1, Hf1. split; nia. } { cbn. lia. }
  unfold with_used. simpl in *. rewrite Hf.
  destruct (finish_root_settles (bump n 0 (mkMeter c lim 0 0 0 0 (Ok tt))) s1 0 0 (lim - n)) as (s3 & Hf3 & He3);
    [unfold roomy, bump; simpl; split_and!; done || lia|simpl; lia..|exact (en_wf _ _ _ _ _ _ He1)|exact Hkc|done|done|simpl; lia
    |lia|lia|rewrite Hres1; nia|].
  rewrite Hf3. eexists _, _. split; [done|]. simpl in *. split; [lia|]. rewrite (en_reserved _ _ _ _ _ _ He3), Hres1. lia.
Qed.

Lemma run_ops_refund n ops (s : S) m ps :
  run_ops (OpRefund n :: ops) s m ps = run_ops ops s (refund m n).1 ps.
Proof. reflexivity. Qed.

(** When a call refunds [n] bytes of its own and a sub-call then uses them, the
    settlement gives back [n] bytes more than were reserved for the call: the
    amount reserved by earlier calls shrinks by [n]. *)
Theorem refunded_bytes_overdraw_reservation c d n s :
  0 < n -> 2 * n <= U32_MAX -> bk_known B c -> bk_known B d -> c <> d -> bk_wf B s ->
  unit_ * n <= bk_reserved B s -> fee_ <= bk_funds B s -> unit_ * n <= bk_held B s c -> bk_alive B s c ->
  exists s' m, run_meter c 0 [OpRefund n; OpChild d [OpCharge n] true] s = (s', Ok m) /\
    used_storage m = 0 /\ bk_reserved B s' = bk_reserved B s - unit_ * n.
Proof.
  intros Hn Hmax Hkc Hkd Hcd Hwf Hr0 Hfunds Hheld Hal. pose proof (ah_unit (B := B)) as Hunit. pose proof (ah_fee (B := B)) as Hfee.
  unfold run_meter. destruct (new_root_ok c 0 s) as (s1 & -> & He1); [done|lia|lia|].
  pose proof (en_reserved _ _ _ _ _ _ He1) as Hres1. pose proof (en_funds _ _ _ _ _ _ He1) as Hf1.
  rewrite run_ops_refund. unfold refund, handle. cbn [result fst total_refunded self_refunded].
  rewrite !sat_add_exact, !Z.add_0_l by lia.
  unfold with_refunded. cbn [contract limit total_used self_used result run_ops].
  rewrite run_op_child, child_meter_ok by done. cbn [run_ops run_op].
  assert (available_storage (mkMeter c 0 0 0 n n (Ok tt)) = n) as -> by (unfold available_storage; simpl; uints).
  unfold charge, handle. simpl. rewrite !sat_add_exact, !Z.add_0_l by lia.
  destruct (finish_child_ok (mkMeter d n n n 0 0 (Ok tt)) s1 [] (mkMeter c 0 0 0 n n (Ok tt)) n)
    as (s2 & Hf & He2);
    [done|simpl; lia|simpl; lia|lia|repeat constructor; simpl; lia|simpl; unfold sat_sub; lia|exact (en_wf _ _ _ _ _ _ He1)|exact Hkd|..].
  { cbn. intros _. rewrite Hres1, Hf1. split; nia. } { cbn. lia. }
  cbn [self_used self_refunded contract] in He2. rewrite (proj2 (Z.ltb_lt 0 n)) in He2 by lia.
  pose proof (entry_trans _ _ _ _ _ _ _ _ _ He1 He2) as He12.
  pose proof (en_reserved _ _ _ _ _ _ He12) as Hres2. pose proof (en_funds _ _ _ _ _ _ He12) as Hf2.
  pose proof (en_held _ _ _ _ _ _ He12 c Hkc) as Hh2. cbn beta in Hh2. unfold nothing, only in Hh2.
  rewrite bool_decide_eq_false_2 in Hh2 by done.
  unfold with_used. simpl in *. rewrite Hf.
  destruct (finish_root_settles (bump n 0 (mkMeter c 0 0 0 n n (Ok tt))) s2 0 n n) as (s3 & Hf3 & He3);
    [unfold roomy, bump; simpl; split_and!; done || lia|simpl; lia..|exact (en_wf _ _ _ _ _ _ He12)|exact Hkc|done|done|simpl; lia
    |lia| |rewrite Hres2; nia|].
  { intros _. cbn. rewrite Hh2, Hf2. split; [nia|]. split; [by apply (en_alive _ _ _ _ _ _ He12)|nia]. }
  rewrite Hf3. eexists _, _. split; [done|]. simpl in *. split.
  { unfold used_storage, neg_i32, as_i32; simpl.
    rewrite Z.add_0_r, Z.ltb_irrefl, Z.sub_diag. done. }
  rewrite (en_reserved _ _ _ _ _ _ He3), Hres2. lia.
Qed.
End accounting.
