(* ===== verification/EvmAccounts.v ===== *)
(** * The EVM accounts pallet

    Models [src/modules/evm-accounts/src/lib.rs]: the two-way mapping between
    Substrate accounts (32 bytes) and EVM addresses (20 bytes), the two claim
    extrinsics, the message a claim signs, and the reaping hook.

    Outside the repository, and parameters here: the hash functions
    ([keccak_256], [blake2_256]), the signature recovery, the existence test of
    [frame_system], the [TransferAll] and [OnClaim] hooks of the runtime (over a
    storage [X] of the other pallets), and the bound of [usize]. *)

From stdpp Require Import base gmap list strings.
From Stdlib Require Import ZArith Lia.
From S2P Require Import Prelude.

Local Open Scope Z_scope.

(** [AccountId32], a byte string of length 32. *)
Abbreviation AccountId := (list Z).

(** The bytes of [b"evm:"], [b"reef evm:"] and of the Ethereum message prefix. *)
Definition EVM_PREFIX : bytes := [101; 118; 109; 58].
Definition REEF_PREFIX : bytes := [114; 101; 101; 102; 32; 101; 118; 109; 58].
Definition ETH_PREFIX : bytes :=
  [25; 69; 116; 104; 101; 114; 101; 117; 109; 32; 83; 105; 103; 110; 101; 100; 32; 77; 101; 115;
   115; 97; 103; 101; 58; 10].

Module EvmAccountsError.
Inductive t : Type :=
| AccountIdHasMapped
| EthAddressHasMapped
| BadSignature
| InvalidSignature
| NonZeroRefCount
| StillHasActiveReserved
| NumOverflow
| VecInsufficientCapacity.

Definition name (e : t) : string :=
  match e with
  | AccountIdHasMapped => "AccountIdHasMapped"
  | EthAddressHasMapped => "EthAddressHasMapped"
  | BadSignature => "BadSignature"
  | InvalidSignature => "InvalidSignature"
  | NonZeroRefCount => "NonZeroRefCount"
  | StillHasActiveReserved => "StillHasActiveReserved"
  | NumOverflow => "NumOverflow"
  | VecInsufficientCapacity => "VecInsufficientCapacity"
  end.
End EvmAccountsError.
Definition acc_err (e : EvmAccountsError.t) : DispatchError := Module (EvmAccountsError.name e).

(** The only event of the pallet, [ClaimAccount]. *)
Record ClaimAccount : Type := mkClaim { account_id : AccountId; evm_address : H160 }.

(** The storage of the pallet, next to that of the others. *)
Record EvmAccounts (X : Type) : Type := mkEvmAccounts {
  Accounts : gmap H160 AccountId;
  EvmAddresses : gmap AccountId H160;
  ClaimEvents : list ClaimAccount;
  Ext : X;
}.
Arguments mkEvmAccounts {X}.
Arguments Accounts {X}.
Arguments EvmAddresses {X}.
Arguments ClaimEvents {X}.
Arguments Ext {X}.

(** ** The signed message *)
Section message.
(** [usize::MAX], [2^32 - 1] on the wasm runtime and [2^64 - 1] natively. *)
Variable usize_max : Z.

(** [push_nibble]. *)
Definition push_nibble (nibble : Z) (r : bytes) : res DispatchError bytes :=
  let? value := ok_or (if nibble <? 10 then checked_add U8_MAX 48 nibble
                       else match checked_sub 97 10 with
                            | Some sum => checked_add U8_MAX sum nibble
                            | None => None
                            end)
                      (acc_err EvmAccountsError.NumOverflow) in
  Ok (r ++ [value]).

(** The loop of [convert_to_ascii_hex]. *)
Fixpoint push_hex (data : bytes) (r : bytes) : res DispatchError bytes :=
  match data with
  | [] => Ok r
  | b :: data' =>
      let? r1 := push_nibble (b / 16) r in
      let? r2 := push_nibble (b mod 16) r1 in
      push_hex data' r2
  end.

Definition convert_to_ascii_hex (data : bytes) : res DispatchError bytes :=
  let? len := ok_or (checked_mul usize_max (Z.of_nat (length data)) 2)
                    (acc_err EvmAccountsError.NumOverflow) in
  (* isize::MAX is half of usize::MAX, rounded down *)
  let? _ := rensure (len <? usize_max / 2) (acc_err EvmAccountsError.VecInsufficientCapacity) in
  push_hex data [].

(** The [while l > 0] loop of [ethereum_signable_message]: the decimal digits of
    [l], last one first.  [fuel] bounds the iterations; [Z.to_nat l] is enough. *)
Fixpoint rev_digits (fuel : nat) (l : Z) : bytes :=
  match fuel with
  | O => []
  | S fuel' => if 0 <? l then (48 + l mod 10) :: rev_digits fuel' (l / 10) else []
  end.

Definition ethereum_signable_message (what extra : bytes) : res DispatchError bytes :=
  let? l := ok_or (match checked_add usize_max (Z.of_nat (length REEF_PREFIX)) (Z.of_nat (length what)) with
                   | Some sum => checked_add usize_max sum (Z.of_nat (length extra))
                   | None => None
                   end) (acc_err EvmAccountsError.NumOverflow) in
  Ok (ETH_PREFIX ++ rev (rev_digits (Z.to_nat l) l) ++ REEF_PREFIX ++ what ++ extra).
End message.

(** ** The mapping *)
Section pallet.
Context {X : Type}.
Variable usize_max : Z.
Variable keccak_256 : bytes -> bytes.
Variable blake2_256 : bytes -> bytes.
(** [secp256k1_ecdsa_recover signature message]: the public key, or a failure. *)
Variable secp256k1_ecdsa_recover : bytes -> bytes -> option bytes.
Variable account_exists : X -> AccountId -> bool.
Variable transfer_all : AccountId -> AccountId -> M X DispatchError unit.
Variable on_claim : AccountId -> M X DispatchError unit.

Abbreviation St := (EvmAccounts X).

Definition set_mapping (acs : gmap H160 AccountId) (evs : gmap AccountId H160) (s : St) : St :=
  mkEvmAccounts acs evs (ClaimEvents s) (Ext s).
Definition deposit_claim (e : ClaimAccount) (s : St) : St :=
  mkEvmAccounts (Accounts s) (EvmAddresses s) (ClaimEvents s ++ [e]) (Ext s).
(** A call into another pallet. *)
Definition on_ext {A} (m : M X DispatchError A) : M St DispatchError A :=
  fun s => let '(x, r) := m (Ext s) in
           (mkEvmAccounts (Accounts s) (EvmAddresses s) (ClaimEvents s) x, r).

(** [copy_from_slice] of the last 20 bytes of a hash. *)
Definition eth_recover (sig what extra : bytes) : res DispatchError H160 :=
  let? m := ethereum_signable_message usize_max what extra in
  let msg := keccak_256 m in
  let? pk := ok_or (secp256k1_ecdsa_recover sig msg) (acc_err EvmAccountsError.BadSignature) in
  let h := keccak_256 pk in
  slice 12 (length h) h.

(** The SCALE encoding of [(b"evm:", account_id)] is the concatenation. *)
Definition account_to_default_evm_address (account_id : AccountId) : H160 :=
  take 20 (blake2_256 (EVM_PREFIX ++ account_id)).

Definition padded_account_id (address : H160) : AccountId :=
  EVM_PREFIX ++ address ++ replicate 8 0.

Definition get_account_id (s : St) (address : H160) : AccountId :=
  match Accounts s !! address with
  | Some acc => acc
  | None => padded_account_id address
  end.

Definition get_evm_address (s : St) (account_id : AccountId) : option H160 :=
  match EvmAddresses s !! account_id with
  | Some a => Some a
  | None =>
      if starts_with EVM_PREFIX account_id then Some (take 20 (drop 4 account_id)) else None
  end.

Definition get_or_create_evm_address (s : St) (account_id : AccountId) : St * H160 :=
  match get_evm_address s account_id with
  | Some a => (s, a)
  | None =>
      let addr := account_to_default_evm_address account_id in
      (set_mapping (<[addr := account_id]> (Accounts s)) (<[account_id := addr]> (EvmAddresses s)) s,
       addr)
  end.

Definition get_default_evm_address (account_id : AccountId) : H160 :=
  account_to_default_evm_address account_id.

Definition is_linked (s : St) (account_id : AccountId) (evm : H160) : bool :=
  bool_decide (get_evm_address s account_id = Some evm) ||
  bool_decide (account_to_default_evm_address account_id = evm).

(** The extrinsic [claim_account]. *)
Definition claim_account (origin : Origin AccountId) (eth_address : H160) (eth_signature : bytes)
  : M St DispatchError unit :=
  transactional (
    let! who := mlift (ensure_signed origin) in
    let! s := mget in
    do! mensure (negb (bool_decide (is_Some (EvmAddresses s !! who))))
                (acc_err EvmAccountsError.AccountIdHasMapped) in
    do! mensure (negb (bool_decide (is_Some (Accounts s !! eth_address))))
                (acc_err EvmAccountsError.EthAddressHasMapped) in
    let! hex := mlift (convert_to_ascii_hex usize_max who) in
    let! address := mlift (eth_recover eth_signature hex []) in
    do! mensure (bool_decide (eth_address = address)) (acc_err EvmAccountsError.InvalidSignature) in
    let account_id := get_account_id s eth_address in
    do! mwhen (account_exists (Ext s) account_id) (on_ext (transfer_all account_id who)) in
    do! mmodify (fun s => set_mapping (<[eth_address := who]> (Accounts s)) (EvmAddresses s) s) in
    do! mmodify (fun s => set_mapping (Accounts s) (<[who := eth_address]> (EvmAddresses s)) s) in
    do! on_ext (on_claim who) in
    mmodify (deposit_claim (mkClaim who eth_address))).

(** The extrinsic [claim_default_account]. *)
Definition claim_default_account (origin : Origin AccountId) : M St DispatchError unit :=
  let! who := mlift (ensure_signed origin) in
  let! s := mget in
  do! mensure (negb (bool_decide (is_Some (EvmAddresses s !! who))))
              (acc_err EvmAccountsError.AccountIdHasMapped) in
  let! eth_address := (fun s => let '(s', a) := get_or_create_evm_address s who in (s', Ok a)) in
  do! on_ext (on_claim who) in
  mmodify (deposit_claim (mkClaim who eth_address)).

(** [CallKillAccount::on_killed_account]. *)
Definition on_killed_account (who : AccountId) (s : St) : St :=
  let s1 := set_mapping (delete (account_to_default_evm_address who) (Accounts s)) (EvmAddresses s) s in
  match EvmAddresses s1 !! who with
  | Some evm_addr =>
      set_mapping (delete evm_addr (Accounts s1)) (delete who (EvmAddresses s1)) s1
  | None => s1
  end.

(** [StaticLookup]: only a 20-byte address resolves. *)
Inductive MultiAddress : Type :=
| Id (a : AccountId)
| Index (i : Z)
| Raw (l : bytes)
| Address32 (l : bytes)
| Address20 (l : bytes).

Definition lookup_source (s : St) (a : MultiAddress) : res DispatchError AccountId :=
  match a with
  | Address20 i => Ok (get_account_id s i)
  | _ => Err CannotLookup
  end.

Definition unlookup (a : AccountId) : MultiAddress := Id a.
End pallet.

(** ** The signed message determines the account *)

Definition hex_digit (n : Z) : Z := if n <? 10 then 48 + n else 87 + n.

Lemma push_nibble_eq n r : 0 <= n < 16 -> push_nibble n r = Ok (r ++ [hex_digit n]).
Proof.
  intros Hn. unfold push_nibble, hex_digit. change (checked_sub 97 10) with (Some 87).
  unfold checked_add, U8_MAX. destruct (Z.ltb_spec n 10).
  - by rewrite (proj2 (Z.leb_le (48 + n) 255)) by lia.
  - by rewrite (proj2 (Z.leb_le (87 + n) 255)) by lia.
Qed.

Definition hex_of (data : bytes) : bytes :=
  data ≫= (fun b => [hex_digit (b / 16); hex_digit (b mod 16)]).

Lemma push_hex_eq data r : is_bytes data -> push_hex data r = Ok (r ++ hex_of data).
Proof.
  intros Hd. revert r. induction Hd as [|b data Hb _ IH]; intros r; simpl.
  - by rewrite app_nil_r.
  - unfold is_byte in Hb. pose proof (Z.mod_pos_bound b 16).
    assert (0 <= b / 16 < 16) by (split; [apply Z.div_pos|apply Z.div_lt_upper_bound]; lia).
    rewrite push_nibble_eq by lia. simpl. rewrite push_nibble_eq by lia. simpl.
    rewrite IH, <- !app_assoc. done.
Qed.

Lemma hex_digit_inj x y : 0 <= x < 16 -> 0 <= y < 16 -> hex_digit x = hex_digit y -> x = y.
Proof. unfold hex_digit. destruct (Z.ltb_spec x 10), (Z.ltb_spec y 10); lia. Qed.

Lemma hex_of_inj d1 d2 : is_bytes d1 -> is_bytes d2 -> hex_of d1 = hex_of d2 -> d1 = d2.
Proof.
  intros H1. revert d2. induction H1 as [|b d1 Hb _ IH]; intros d2 H2 He.
  - destruct H2; [done|discriminate].
  - destruct H2 as [|b' d2 Hb' H2]; [discriminate|].
    change ([hex_digit (b / 16); hex_digit (b mod 16)] ++ hex_of d1 =
            [hex_digit (b' / 16); hex_digit (b' mod 16)] ++ hex_of d2) in He.
    simpl in He. injection He as Hhi Hlo Htl. unfold is_byte in *.
    pose proof (Z.mod_pos_bound b 16). pose proof (Z.mod_pos_bound b' 16).
    assert (0 <= b / 16 < 16) by (split; [apply Z.div_pos|apply Z.div_lt_upper_bound]; lia).
    assert (0 <= b' / 16 < 16) by (split; [apply Z.div_pos|apply Z.div_lt_upper_bound]; lia).
    apply hex_digit_inj in Hhi; [|lia..]. apply hex_digit_inj in Hlo; [|lia..].
    f_equal; [|by apply IH].
    pose proof (Z.div_mod b 16). pose proof (Z.div_mod b' 16). lia.
Qed.

Lemma convert_to_ascii_hex_Ok um d h :
  is_bytes d -> convert_to_ascii_hex um d = Ok h -> h = hex_of d.
Proof.
  intros Hd. unfold convert_to_ascii_hex. intros H. run_inv.
  rewrite push_hex_eq in H by done. by simplify_eq.
Qed.

Lemma length_hex_of d : length (hex_of d) = (2 * length d)%nat.
Proof.
  induction d as [|b d IH]; [done|].
  change (hex_of (b :: d)) with (hex_digit (b / 16) :: hex_digit (b mod 16) :: hex_of d).
  simpl. lia.
Qed.

(** The digits of the length are its decimal representation. *)
Definition digits_val (ds : bytes) : Z := foldl (fun acc d => acc * 10 + (d - 48)) 0 ds.

Lemma rev_digits_spec fuel l :
  0 <= l <= Z.of_nat fuel ->
  digits_val (rev (rev_digits fuel l)) = l /\
  Forall (fun d => 48 <= d < 58) (rev_digits fuel l).
Proof.
  revert l. induction fuel as [|fuel IH]; intros l Hl; simpl.
  - split; [unfold digits_val; simpl; lia|constructor].
  - destruct (Z.ltb_spec 0 l) as [Hpos|]; [|split; [unfold digits_val; simpl; lia|constructor]].
    pose proof (Z.mod_pos_bound l 10). pose proof (Z.div_mod l 10).
    assert (0 <= l / 10 < l) by (split; [apply Z.div_pos|apply Z.div_lt]; lia).
    destruct (IH (l / 10)) as [Hv Hd]; [lia|]. split.
    + unfold digits_val in *. simpl. rewrite foldl_app, Hv. simpl. lia.
    + constructor; [lia|done].
Qed.

Lemma signable_message_inj um w1 w2 m :
  length w1 = length w2 ->
  ethereum_signable_message um w1 [] = Ok m -> ethereum_signable_message um w2 [] = Ok m -> w1 = w2.
Proof.
  intros Hlen H1 H2. unfold ethereum_signable_message in *. rewrite <- Hlen in H2.
  apply rbind_Ok in H1 as (l & Hl & H1). rewrite Hl in H2. simpl in H2. rewrite <- H2 in H1.
  injection H1 as He. apply app_inv_head in He. injection He as He. by rewrite !app_nil_r in He.
Qed.

Section mapping_theorems.
Context {X : Type}.
Variable usize_max : Z.
Variable keccak_256 : bytes -> bytes.
Variable blake2_256 : bytes -> bytes.
Variable secp256k1_ecdsa_recover : bytes -> bytes -> option bytes.
Variable account_exists : X -> AccountId -> bool.
Variable transfer_all : AccountId -> AccountId -> M X DispatchError unit.
Variable on_claim : AccountId -> M X DispatchError unit.

Abbreviation claim := (claim_account usize_max keccak_256 secp256k1_ecdsa_recover
                         account_exists transfer_all on_claim).
Abbreviation claim_default := (claim_default_account blake2_256 on_claim).
Abbreviation default_address := (account_to_default_evm_address blake2_256).

(** The two maps are inverse to each other. *)
Definition mapped (s : EvmAccounts X) : Prop :=
  forall a acc, Accounts s !! a = Some acc <-> EvmAddresses s !! acc = Some a.

Lemma on_ext_mapping {A} (m : M X DispatchError A) s s' r :
  on_ext m s = (s', r) ->
  Accounts s' = Accounts s /\ EvmAddresses s' = EvmAddresses s /\ ClaimEvents s' = ClaimEvents s.
Proof. unfold on_ext. destruct (m (Ext s)). naive_solver. Qed.

Lemma on_ext_when_mapping b (m : M X DispatchError unit) s s' r :
  mwhen b (on_ext m) s = (s', r) ->
  Accounts s' = Accounts s /\ EvmAddresses s' = EvmAddresses s /\ ClaimEvents s' = ClaimEvents s.
Proof. destruct b; [apply on_ext_mapping|]. unfold mwhen, ret. naive_solver. Qed.

Lemma mapped_insert s s' a acc :
  mapped s -> Accounts s !! a = None -> EvmAddresses s !! acc = None ->
  Accounts s' = <[a := acc]> (Accounts s) -> EvmAddresses s' = <[acc := a]> (EvmAddresses s) ->
  mapped s'.
Proof using Type.
  clear blake2_256 keccak_256 secp256k1_ecdsa_recover account_exists transfer_all on_claim usize_max.
  intros Hs Ha Hacc E1 E2 a' acc'. rewrite E1, E2, !lookup_insert.
  repeat case_decide; subst; try naive_solver.
  - split; [naive_solver|]. intros H2%Hs. congruence.
  - split; [|naive_solver]. intros H2%Hs. congruence.
  - apply Hs.
Qed.

(** The effect of a successful [claim_account] on the pallet's own storage. *)
Lemma claim_account_Ok who a sig s s' :
  claim (Signed who) a sig s = (s', Ok tt) ->
  Accounts s !! a = None /\ EvmAddresses s !! who = None /\
  (exists hex, convert_to_ascii_hex usize_max who = Ok hex /\
     eth_recover usize_max keccak_256 secp256k1_ecdsa_recover sig hex [] = Ok a) /\
  Accounts s' = <[a := who]> (Accounts s) /\ EvmAddresses s' = <[who := a]> (EvmAddresses s) /\
  ClaimEvents s' = ClaimEvents s ++ [mkClaim who a].
Proof.
  unfold claim_account. intros H. run_inv.
  repeat match goal with
  | H : mwhen _ (on_ext _) _ = _ |- _ => apply on_ext_when_mapping in H as (? & ? & ?)
  | H : on_ext _ _ = _ |- _ => apply on_ext_mapping in H as (? & ? & ?)
  end. simpl in *. subst. split_and!; try done; try congruence.
  eexists; split; done.
Qed.

(** The default address of [who] is not the image of another account: the hash has
    no collision among the accounts in use. *)
Definition collision_free (who : AccountId) (s : EvmAccounts X) : Prop :=
  forall acc, Accounts s !! default_address who = Some acc -> acc = who.

Lemma get_or_create_mapped who s s' a :
  mapped s -> collision_free who s ->
  get_or_create_evm_address blake2_256 s who = (s', a) ->
  mapped s' /\ get_evm_address s' who = Some a.
Proof.
  intros Hs Hc. unfold get_or_create_evm_address.
  destruct (get_evm_address s who) eqn:Hg; intros [= <- <-]; [done|].
  assert (EvmAddresses s !! who = None) as Hw.
  { unfold get_evm_address in Hg. by destruct (EvmAddresses s !! who). }
  assert (Accounts s !! default_address who = None) as Ha.
  { destruct (Accounts s !! default_address who) as [acc|] eqn:E; [|done].
    pose proof (Hc _ E) as ->. apply Hs in E. congruence. }
  split; [by eapply mapped_insert|].
  unfold get_evm_address; simpl. by rewrite lookup_insert_eq.
Qed.

Lemma on_killed_mapped who s : mapped s -> collision_free who s -> mapped (on_killed_account blake2_256 who s).
Proof.
  intros Hs Hc. unfold on_killed_account; simpl.
  destruct (EvmAddresses s !! who) as [a0|] eqn:Hw; simpl; intros a acc; simpl.
  - pose proof (proj2 (Hs _ _) Hw) as Ha0.
    rewrite !lookup_delete_Some, (Hs a acc). split.
    + intros (Hne & Hne' & Hacc). split; [|done]. intros <-. congruence.
    + intros (Hne & Hacc). split_and!; [|  |done].
      * intros <-. apply Hs in Hacc. congruence.
      * intros Hd. rewrite <- Hd in Hacc. apply Hs, Hc in Hacc. congruence.
  - rewrite lookup_delete_Some, (Hs a acc). split; [naive_solver|].
    intros Hacc. split; [|done]. intros Hd. rewrite <- Hd in Hacc.
    pose proof Hacc as Hacc'. apply Hs, Hc in Hacc'. congruence.
Qed.

(** The steps of the chain that touch the mapping: the two claims, the creation of
    a default address by another pallet, and the reaping of an account. *)
Inductive acc_step : EvmAccounts X -> EvmAccounts X -> Prop :=
| step_claim who a sig s s' : claim (Signed who) a sig s = (s', Ok tt) -> acc_step s s'
| step_claim_default who s s' :
    collision_free who s -> claim_default (Signed who) s = (s', Ok tt) -> acc_step s s'
| step_create who s s' a :
    collision_free who s -> get_or_create_evm_address blake2_256 s who = (s', a) -> acc_step s s'
| step_killed who s : collision_free who s -> acc_step s (on_killed_account blake2_256 who s)
| step_elsewhere s s' :
    Accounts s' = Accounts s -> EvmAddresses s' = EvmAddresses s -> acc_step s s'.

Lemma claim_default_Ok who s s' :
  claim_default (Signed who) s = (s', Ok tt) ->
  EvmAddresses s !! who = None /\
  exists s1 a, get_or_create_evm_address blake2_256 s who = (s1, a) /\
    Accounts s' = Accounts s1 /\ EvmAddresses s' = EvmAddresses s1.
Proof.
  unfold claim_default_account. intros H. run_inv.
  destruct (get_or_create_evm_address blake2_256 s who) as [s1 a] eqn:Hg.
  match goal with H : (s1, Ok a) = _ |- _ => injection H as <- <- end.
  match goal with H : on_ext _ _ = _ |- _ => apply on_ext_mapping in H as (E1 & E2 & _) end.
  split; [done|]. exists s1, a. simpl. done.
Qed.

Lemma acc_step_mapped s s' : mapped s -> acc_step s s' -> mapped s'.
Proof.
  intros Hs. destruct 1 as [who a sig s s' H|who s s' Hc H|who s s' a Hc H|who s Hc|s s' E1 E2].
  - apply claim_account_Ok in H as (Ha & Hw & _ & E1 & E2 & _). by eapply mapped_insert.
  - apply claim_default_Ok in H as (Hw & s1 & a & H & E1 & E2).
    destruct (get_or_create_mapped who s s1 a Hs Hc H) as [Hs1 _].
    intros a' acc. rewrite E1, E2. apply Hs1.
  - by eapply get_or_create_mapped.
  - by apply on_killed_mapped.
  - intros a' acc. rewrite E1, E2. apply Hs.
Qed.

(** C4. In every state the chain can reach, an EVM address belongs to an account
    exactly when the account's address is that EVM address: no account owns two
    addresses and no address has two owners (as long as default addresses do not
    collide). *)
Theorem reachable_mapping_bijective s0 s :
  mapped s0 -> rtc acc_step s0 s ->
  forall a acc, Accounts s !! a = Some acc <-> EvmAddresses s !! acc = Some a.
Proof. intros H0 Hr. induction Hr; [done|]. apply IHHr. by eapply acc_step_mapped. Qed.

(** A successful claim links the claimed address with the caller in both
    directions, was signed for by the address (the recovered address is the claimed
    one) and changes no other address. *)
Theorem claim_account_links who a sig s s' :
  claim (Signed who) a sig s = (s', Ok tt) ->
  get_account_id s' a = who /\ get_evm_address s' who = Some a /\
  (exists hex, convert_to_ascii_hex usize_max who = Ok hex /\
     eth_recover usize_max keccak_256 secp256k1_ecdsa_recover sig hex [] = Ok a) /\
  (forall b, b <> a -> get_account_id s' b = get_account_id s b) /\
  (forall acc, acc <> who -> get_evm_address s' acc = get_evm_address s acc).
Proof.
  intros H. apply claim_account_Ok in H as (Ha & Hw & Hrec & E1 & E2 & _).
  unfold get_account_id, get_evm_address. rewrite E1, E2, !lookup_insert_eq.
  split_and!; [done|done|done| |]; intros; by rewrite lookup_insert_ne.
Qed.

(** A claim fails with the first guard that does not hold and then leaves the
    whole storage as it was. *)
Theorem claim_account_guards who a sig s :
  (is_Some (EvmAddresses s !! who) ->
   claim (Signed who) a sig s = (s, Err (acc_err EvmAccountsError.AccountIdHasMapped))) /\
  (EvmAddresses s !! who = None -> is_Some (Accounts s !! a) ->
   claim (Signed who) a sig s = (s, Err (acc_err EvmAccountsError.EthAddressHasMapped))) /\
  (forall s' r, claim (Signed who) a sig s = (s', r) -> is_ok r = false -> s' = s).
Proof.
  split_and!.
  - intros Hw. unfold claim_account, transactional, bind, mlift, mget, mensure, mlift, rensure; simpl.
    by rewrite (bool_decide_eq_true_2 _ Hw).
  - intros Hw Ha. unfold claim_account, transactional, bind, mlift, mget, mensure, mlift, rensure; simpl.
    rewrite Hw. simpl. by rewrite (bool_decide_eq_true_2 _ Ha).
  - intros s' r. apply transactional_rollback.
Qed.

(** Reaping an account removes its mapping in both directions and keeps that of
    every other account. *)
Theorem killed_account_unmapped who s :
  mapped s -> collision_free who s ->
  let s' := on_killed_account blake2_256 who s in
  EvmAddresses s' !! who = None /\ (forall a, Accounts s' !! a <> Some who) /\
  (forall acc, acc <> who -> EvmAddresses s' !! acc = EvmAddresses s !! acc) /\
  (forall a acc, acc <> who -> Accounts s !! a = Some acc -> Accounts s' !! a = Some acc).
Proof.
  intros Hs Hc s'. pose proof (on_killed_mapped who s Hs Hc) as Hs'.
  assert (EvmAddresses s' !! who = None) as Hw.
  { unfold s', on_killed_account; simpl.
    destruct (EvmAddresses s !! who) eqn:E; simpl; [by rewrite lookup_delete_eq|done]. }
  assert (forall acc, acc <> who -> EvmAddresses s' !! acc = EvmAddresses s !! acc) as Hne.
  { intros acc Hacc. unfold s', on_killed_account; simpl.
    destruct (EvmAddresses s !! who) eqn:E; simpl; [by rewrite lookup_delete_ne|done]. }
  split_and!; [done| |done|].
  - intros a Ha. apply Hs' in Ha. unfold s' in Hw. congruence.
  - intros a acc Hacc Ha. apply Hs'. fold s'. rewrite Hne by done. by apply Hs.
Qed.
End mapping_theorems.

(** ** The message of a claim *)

(** What [claim_account] hands to the recovery: the message for the account in hex. *)
Definition claim_message (usize_max : Z) (who : AccountId) : res DispatchError bytes :=
  let? hex := convert_to_ascii_hex usize_max who in
  ethereum_signable_message usize_max hex [].

Lemma claim_message_eq um who :
  U32_MAX <= um -> is_bytes who -> length who = 32%nat ->
  claim_message um who = Ok (ETH_PREFIX ++ [55; 51] ++ REEF_PREFIX ++ hex_of who).
Proof.
  intros Hum Hb Hl. unfold claim_message, convert_to_ascii_hex.
  rewrite Hl. change (Z.of_nat 32) with 32. unfold checked_mul.
  rewrite (proj2 (Z.leb_le (32 * 2) um)) by uints. cbn [ok_or rbind].
  rewrite (proj2 (Z.ltb_lt (32 * 2) (um / 2))).
  2:{ apply Z.lt_le_trans with 65; [lia|]. apply Z.div_le_lower_bound; uints. }
  cbn [rensure rbind]. rewrite push_hex_eq by done. cbn [rbind].
  unfold ethereum_signable_message, checked_add. rewrite app_nil_l, length_hex_of, Hl.
  change (Z.of_nat (length REEF_PREFIX)) with 9. change (Z.of_nat (2 * 32)) with 64.
  rewrite (proj2 (Z.leb_le (9 + 64) um)) by uints. change (Z.of_nat (length [])) with 0.
  rewrite (proj2 (Z.leb_le (9 + 64 + 0) um)) by uints. cbn [ok_or rbind].
  by rewrite app_nil_r.
Qed.

(** The message of a claim exists for every account, carries its own length
    ("73") and the account in hex, and no two accounts have the same message, so a
    signature is valid for one account only. *)
Theorem claim_message_binds_account um w1 w2 :
  U32_MAX <= um -> is_bytes w1 -> is_bytes w2 -> length w1 = 32%nat -> length w2 = 32%nat ->
  claim_message um w1 = Ok (ETH_PREFIX ++ [55; 51] ++ REEF_PREFIX ++ hex_of w1) /\
  (claim_message um w1 = claim_message um w2 -> w1 = w2).
Proof.
  intros Hum H1 H2 L1 L2. rewrite !claim_message_eq by done. split; [done|].
  intros He. injection He as He. by apply hex_of_inj.
Qed.

(** [ethereum_signable_message] fails only when the lengths do not fit in
    [usize]; otherwise its loop ends and writes the total length in decimal. *)
Theorem signable_message_length um what extra :
  let total := 9 + Z.of_nat (length what) + Z.of_nat (length extra) in
  (um < total ->
   ethereum_signable_message um what extra = Err (acc_err EvmAccountsError.NumOverflow)) /\
  (total <= um -> exists ds,
     ethereum_signable_message um what extra = Ok (ETH_PREFIX ++ ds ++ REEF_PREFIX ++ what ++ extra) /\
     digits_val ds = total /\ Forall (fun d => 48 <= d < 58) ds).
Proof.
  unfold ethereum_signable_message, checked_add.
  change (Z.of_nat (length REEF_PREFIX)) with 9. split; intros Hle.
  - destruct (Z.leb_spec (9 + Z.of_nat (length what)) um); [|done].
    destruct (Z.leb_spec (9 + Z.of_nat (length what) + Z.of_nat (length extra)) um); [lia|done].
  - rewrite (proj2 (Z.leb_le (9 + Z.of_nat (length what)) um)) by lia.
    rewrite (proj2 (Z.leb_le (9 + Z.of_nat (length what) + Z.of_nat (length extra)) um)) by lia.
    cbn [ok_or rbind].
    destruct (rev_digits_spec (Z.to_nat (9 + Z.of_nat (length what) + Z.of_nat (length extra)))
                (9 + Z.of_nat (length what) + Z.of_nat (length extra))) as [Hv Hd]; [lia|].
    eexists. split; [done|]. split; [done|]. by apply Forall_rev.
Qed.

(** ** Executable instances, and the theorems on concrete states *)
Module EvmAccountsWitness.
(** Stand-ins for the hash functions and the recovery (the key is the signature). *)
Definition toy_hash (l : bytes) : bytes := take 32 (l ++ replicate 32 0).
Definition toy_recover (sig msg : bytes) : option bytes := Some sig.
Definition alice : AccountId := replicate 32 1.
Definition bob : AccountId := replicate 32 2.
Definition addr : H160 := replicate 20 7.
Definition sig : bytes := replicate 12 0 ++ addr.
Definition empty_state : EvmAccounts unit := mkEvmAccounts ∅ ∅ [] tt.
Definition noop : AccountId -> AccountId -> M unit DispatchError unit := fun _ _ => ret tt.
Definition noclaim : AccountId -> M unit DispatchError unit := fun _ => ret tt.
Definition claimed : EvmAccounts unit :=
  mkEvmAccounts {[ addr := alice ]} {[ alice := addr ]} [mkClaim alice addr] tt.

Example claim_runs :
  claim_account U32_MAX toy_hash toy_recover (fun _ _ => true) noop noclaim (Signed alice) addr sig
    empty_state = (claimed, Ok tt).
Proof. vm_compute. reflexivity. Qed.

Lemma empty_mapped : mapped empty_state.
Proof. intros a acc. unfold empty_state; simpl. by rewrite !lookup_empty. Qed.

Lemma reachable_mapping_bijective_witness :
  Accounts claimed !! addr = Some alice <-> EvmAddresses claimed !! alice = Some addr.
Proof.
  apply (reachable_mapping_bijective U32_MAX toy_hash toy_hash toy_recover (fun _ _ => true) noop noclaim
           empty_state claimed).
  - exact empty_mapped.
  - apply rtc_once, (step_claim _ _ _ _ _ _ _ alice addr sig). exact claim_runs.
Defined.

Lemma claim_account_links_witness : get_account_id claimed addr = alice.
Proof.
  exact (proj1 (claim_account_links U32_MAX toy_hash toy_recover (fun _ _ => true) noop noclaim
           alice addr sig empty_state claimed claim_runs)).
Defined.

Lemma claim_account_guards_witness :
  claim_account U32_MAX toy_hash toy_recover (fun _ _ => true) noop noclaim (Signed alice) addr sig
    claimed = (claimed, Err (acc_err EvmAccountsError.AccountIdHasMapped)).
Proof.
  apply (proj1 (claim_account_guards U32_MAX toy_hash toy_recover (fun _ _ => true) noop noclaim
           alice addr sig claimed)).
  vm_compute. eauto.
Defined.

Lemma claimed_mapped : mapped claimed.
Proof. eapply mapped_insert; [exact empty_mapped|done..]. Qed.

Lemma killed_account_unmapped_witness :
  EvmAddresses (on_killed_account toy_hash alice claimed) !! alice = None.
Proof.
  refine (proj1 (killed_account_unmapped toy_hash alice claimed claimed_mapped _)).
  intros acc. vm_compute. discriminate.
Defined.

Lemma claim_message_binds_account_witness :
  claim_message U32_MAX alice <> claim_message U32_MAX bob.
Proof.
  intros He. assert (alice = bob) as Hab; [|discriminate Hab]. revert He.
  apply (claim_message_binds_account U32_MAX alice bob); try reflexivity.
  all: repeat constructor; vm_compute; discriminate.
Defined.

Lemma signable_message_length_witness :
  exists ds, ethereum_signable_message U32_MAX [1; 2] [] = Ok (ETH_PREFIX ++ ds ++ REEF_PREFIX ++ [1; 2] ++ [])
    /\ digits_val ds = 11 /\ Forall (fun d => 48 <= d < 58) ds.
Proof.
  apply (proj2 (signable_message_length U32_MAX [1; 2] [])). vm_compute. discriminate.
Defined.
End EvmAccountsWitness.
