(* ===== verification/EvmPallet.v ===== *)
(** * The EVM pallet: storage, contracts and their maintenance

    Models [src/modules/evm/src/lib.rs] except for the extrinsics that run EVM code
    (those are in [EvmRunner]): the accounts, codes and contract storages, the
    reference counts of the codes, the maintainer operations, the developer deposit,
    the queued events, and the hooks.

    The other pallets are a storage [X] behind the classes of [Interfaces]; the hash
    [Keccak256] is the parameter [code_hash].  When an account is reaped the system calls
    [on_killed_account] of this pallet, in the middle of the operation that took the last
    funds.  That happens inside [deploy] and [remove_contract] as it does in the code
    ([on_rest_reaping]); the second holds the account it removes while it is called back.
    Elsewhere nothing is held across a call to another pallet, and the callback is a step
    of its own ([st_killed]). *)

From stdpp Require Import base gmap list strings.
From Stdlib Require Import ZArith Lia.
From S2P Require Import Prelude Interfaces.

Local Open Scope Z_scope.

Abbreviation AccountId := (list Z).

(** [evm::ExitError]: the two values the repository makes, and the rest of the
    enumeration of the [evm] crate by its position. *)
Inductive ExitError : Type :=
| OutOfGas
| ExitOther (msg : string)
| ExitErrorCode (n : Z).
Inductive ExitSucceed : Type := Stopped | Returned | Suicided.
(** [ExitRevert] has one value; [ExitFatal] is kept by position. *)
Inductive ExitReason : Type :=
| Succeed (s : ExitSucceed)
| ErrorExit (e : ExitError)
| Revert
| Fatal (n : Z).

Definition is_succeed (r : ExitReason) : bool :=
  match r with Succeed _ => true | _ => false end.

Record Log : Type := mkLog { log_address : H160; topics : list H256; data : bytes }.

Record ContractInfo : Type := mkContractInfo {
  ci_code_hash : H256;
  maintainer : H160;
  deployed : bool;
}.

Record EvmAccountInfo : Type := mkAccountInfo {
  nonce : Z;
  contract_info : option ContractInfo;
  developer_deposit : option Z;
}.

(** [EvmAccountInfo::new]. *)
Definition account_info_new (nonce : Z) (ci : option ContractInfo) : EvmAccountInfo :=
  mkAccountInfo nonce ci None.

Record CodeInfo : Type := mkCodeInfo { code_size : Z; ref_count : Z }.

Inductive Event : Type :=
| LogEvent (l : Log)
| Created (maintainer contract : H160) (used : Z * Z)
| CreatedFailed (maintainer contract : H160) (reason : ExitReason) (output : bytes) (used : Z * Z)
| Executed (from contract : H160) (used_gas used_storage : Z)
| ExecutedFailed (caller contract : H160) (reason : ExitReason) (output : bytes) (used : Z * Z)
| BalanceDeposit (sender : AccountId) (address : H160) (value : Z)
| BalanceWithdraw (sender : AccountId) (address : H160) (value : Z)
| AddStorageQuota (address : H160) (quota : Z)
| RemoveStorageQuota (address : H160) (quota : Z)
| TransferredMaintainer (contract address : H160)
| CanceledTransferMaintainer (contract address : H160)
| ConfirmedTransferMaintainer (contract address : H160)
| RejectedTransferMaintainer (contract address : H160)
| ContractDevelopmentEnabled (who : AccountId)
| ContractDevelopmentDisabled (who : AccountId)
| ContractDeployed (contract : H160)
| ContractSetCode (contract : H160)
| ContractSelfdestructed (caller contract : H160).

Module EvmError.
Inductive t : Type :=
| AddressNotMapped
| ContractNotFound
| NoPermission
| NumOutOfBound
| StorageExceedsStorageLimit
| ContractDevelopmentNotEnabled
| ContractDevelopmentAlreadyEnabled
| ContractAlreadyDeployed
| ContractExceedsMaxCodeSize
| OutOfStorage
| ChargeFeeFailed
| ConflictContractAddress.

Definition name (e : t) : string :=
  match e with
  | AddressNotMapped => "AddressNotMapped"
  | ContractNotFound => "ContractNotFound"
  | NoPermission => "NoPermission"
  | NumOutOfBound => "NumOutOfBound"
  | StorageExceedsStorageLimit => "StorageExceedsStorageLimit"
  | ContractDevelopmentNotEnabled => "ContractDevelopmentNotEnabled"
  | ContractDevelopmentAlreadyEnabled => "ContractDevelopmentAlreadyEnabled"
  | ContractAlreadyDeployed => "ContractAlreadyDeployed"
  | ContractExceedsMaxCodeSize => "ContractExceedsMaxCodeSize"
  | OutOfStorage => "OutOfStorage"
  | ChargeFeeFailed => "ChargeFeeFailed"
  | ConflictContractAddress => "ConflictContractAddress"
  end.
End EvmError.
Definition evm_err (e : EvmError.t) : DispatchError := Module (EvmError.name e).

(** The constants of the pallet's [Config]. *)
Record EvmConfig : Type := mkEvmConfig {
  NewContractExtraBytes : Z;
  StorageDepositPerByte : Z;
  MaxCodeSize : Z;
  DeveloperDeposit : Z;
  DeploymentFee : Z;
  NetworkContractSource : H160;
  with_ethereum_compatibility : bool;
  NetworkContractOrigin : Origin AccountId -> bool;
  FreeDeploymentOrigin : Origin AccountId -> bool;
}.

(** The storage of the pallet, the deposited events, and the other pallets. *)
Record Evm (X : Type) : Type := mkEvm {
  accounts : gmap H160 EvmAccountInfo;
  account_storages : gmap (H160 * H256) H256;
  codes : gmap H256 bytes;
  code_infos : gmap H256 CodeInfo;
  network_contract_index : Z;
  extrinsic_origin : option AccountId;
  queued_events : list Event;
  events : list Event;
  rest : X;
}.
Arguments mkEvm {X}.
Arguments accounts {X}.
Arguments account_storages {X}.
Arguments codes {X}.
Arguments code_infos {X}.
Arguments network_contract_index {X}.
Arguments extrinsic_origin {X}.
Arguments queued_events {X}.
Arguments events {X}.
Arguments rest {X}.

(** Writes to one storage item. *)
Section writes.
Context {X : Type}.
Implicit Types s : Evm X.
Definition set_accounts v s : Evm X :=
  mkEvm v (account_storages s) (codes s) (code_infos s) (network_contract_index s)
        (extrinsic_origin s) (queued_events s) (events s) (rest s).
Definition set_storages v s : Evm X :=
  mkEvm (accounts s) v (codes s) (code_infos s) (network_contract_index s)
        (extrinsic_origin s) (queued_events s) (events s) (rest s).
Definition set_codes v s : Evm X :=
  mkEvm (accounts s) (account_storages s) v (code_infos s) (network_contract_index s)
        (extrinsic_origin s) (queued_events s) (events s) (rest s).
Definition set_code_infos v s : Evm X :=
  mkEvm (accounts s) (account_storages s) (codes s) v (network_contract_index s)
        (extrinsic_origin s) (queued_events s) (events s) (rest s).
Definition set_network_contract_index v s : Evm X :=
  mkEvm (accounts s) (account_storages s) (codes s) (code_infos s) v
        (extrinsic_origin s) (queued_events s) (events s) (rest s).
Definition set_extrinsic_origin v s : Evm X :=
  mkEvm (accounts s) (account_storages s) (codes s) (code_infos s) (network_contract_index s)
        v (queued_events s) (events s) (rest s).
Definition set_queued_events v s : Evm X :=
  mkEvm (accounts s) (account_storages s) (codes s) (code_infos s) (network_contract_index s)
        (extrinsic_origin s) v (events s) (rest s).
Definition set_events v s : Evm X :=
  mkEvm (accounts s) (account_storages s) (codes s) (code_infos s) (network_contract_index s)
        (extrinsic_origin s) (queued_events s) v (rest s).
Definition set_rest v s : Evm X :=
  mkEvm (accounts s) (account_storages s) (codes s) (code_infos s) (network_contract_index s)
        (extrinsic_origin s) (queued_events s) (events s) v.

Definition deposit_event (e : Event) (s : Evm X) : Evm X := set_events (events s ++ [e]) s.
Definition queue_event (e : Event) (s : Evm X) : Evm X := set_queued_events (queued_events s ++ [e]) s.

(** [remove_prefix] of the contract's storage map. *)
Definition remove_storage (address : H160) (s : Evm X) : Evm X :=
  set_storages (filter (fun kv => kv.1.1 <> address) (account_storages s)) s.

(** A call into another pallet. *)
Definition on_rest {E A} (m : M X E A) : M (Evm X) E A :=
  fun s => let '(x, r) := m (rest s) in (set_rest x s, r).
End writes.

(** ** Operations *)
Section pallet.
Context {X : Type} `{Currency X AccountId} `{TransferAll X AccountId} `{Reaping X AccountId} `{AddressMapping X AccountId}.
Variable cfg : EvmConfig.
(** [Keccak256::digest]. *)
Variable code_hash : bytes -> H256.

Abbreviation St := (Evm X).
Abbreviation MS := (M (Evm X) DispatchError).

(** The reference to a code is taken: [CodeInfos::mutate_exists] of
    [on_contract_initialization] and of [do_set_code]. *)
Definition acquire_code (h : H256) (code : bytes) (s : St) : St :=
  match code_infos s !! h with
  | Some ci =>
      set_code_infos (<[h := mkCodeInfo (code_size ci) (sat_add U32_MAX (ref_count ci) 1)]> (code_infos s)) s
  | None =>
      set_codes (<[h := code]> (codes s))
        (set_code_infos (<[h := mkCodeInfo (wrap U32_MAX (Z.of_nat (length code))) 1]> (code_infos s)) s)
  end.

(** The reference to a code is dropped, the last one with the code itself:
    [CodeInfos::mutate_exists] of [remove_account] and of [remove_contract]. *)
Definition release_code (h : H256) (s : St) : St :=
  match code_infos s !! h with
  | Some ci =>
      let rc := sat_sub (ref_count ci) 1 in
      if rc =? 0
      then set_code_infos (delete h (code_infos s)) (set_codes (delete h (codes s)) s)
      else set_code_infos (<[h := mkCodeInfo (code_size ci) rc]> (code_infos s)) s
  | None => s
  end.

(** [process_queued_events]. *)
Definition process_queued_events : MS unit :=
  fun s => (set_queued_events [] (foldl (fun s e => deposit_event e s) s (queued_events s)), Ok tt).

(** [remove_account]; the size of the code is the result. *)
Definition remove_account (address : H160) (s : St) : St * res ExitError Z :=
  let '(s1, size) :=
    match accounts s !! address with
    | Some (mkAccountInfo _ (Some ci) _) =>
        (release_code (ci_code_hash ci) s,
         match code_infos s !! ci_code_hash ci with Some info => code_size info | None => 0 end)
    | _ => (s, 0)
    end in
  (remove_storage address (set_accounts (delete address (accounts s1)) s1), Ok size).

(** [CallKillAccount::on_killed_account]. *)
Definition on_killed_account (who : AccountId) (s : St) : St :=
  let s1 := match get_evm_address (rest s) who with
            | Some address => (remove_account address s).1
            | None => s
            end in
  (remove_account (get_default_evm_address who) s1).1.

(** A call into another pallet that may reap accounts.  The callbacks come before the
    mapping of a reaped account is removed: [OnKilledAccount] of the runtime has this pallet
    first, then [module_evm_accounts]. *)
Definition on_rest_reaping {E A} (m : M X E A) : M St E A :=
  fun s => let '(x, r) := m (rest s) in
           (set_rest x (foldl (fun s who => on_killed_account who s) s (reaped (rest s) x)), r).

(** [account_basic]: nonce and balance of an address. *)
Definition account_basic (s : St) (address : H160) : Z * Z :=
  let account_id := get_account_id (rest s) address in
  (match accounts s !! address with Some i => nonce i | None => 0 end,
   free_balance (rest s) account_id).

Definition code_hash_at_address (s : St) (address : H160) : H256 :=
  match accounts s !! address with
  | Some (mkAccountInfo _ (Some ci) _) => ci_code_hash ci
  | _ => code_hash []
  end.

Definition code_at_address (s : St) (address : H160) : bytes :=
  default [] (codes s !! code_hash_at_address s address).

Definition on_contract_initialization (address mt : H160) (code : bytes) (used : Z * Z)
    (s : St) : St * res ExitError unit :=
  let ch := code_hash code in
  let info := mkContractInfo ch mt (with_ethereum_compatibility cfg) in
  if MaxCodeSize cfg <? wrap U32_MAX (Z.of_nat (length code)) then (s, Err OutOfGas)
  else
    let s1 := acquire_code ch code s in
    let ai := match accounts s1 !! address with
              | Some ai => mkAccountInfo (nonce ai) (Some info) (developer_deposit ai)
              | None => account_info_new 0 (Some info)
              end in
    (queue_event (Created mt address used) (set_accounts (<[address := ai]> (accounts s1)) s1), Ok tt).

(** [Handler::inc_nonce] of [runner/handler.rs]; the nonce is a [u32]. *)
Definition inc_nonce (address : H160) (s : St) : St :=
  let ai := match accounts s !! address with
            | Some ai => mkAccountInfo (wrap_add U32_MAX (nonce ai) 1) (contract_info ai) (developer_deposit ai)
            | None => mkAccountInfo 1 None None
            end in
  set_accounts (<[address := ai]> (accounts s)) s.

(** [do_transfer_maintainer]. *)
Definition do_transfer_maintainer (who : AccountId) (contract new_maintainer : H160) : MS unit :=
  let! s := mget in
  match accounts s !! contract with
  | None => throw (evm_err EvmError.ContractNotFound)
  | Some ai =>
      match contract_info ai with
      | None => throw (evm_err EvmError.ContractNotFound)
      | Some ci =>
          let! mt := mlift (ok_or (get_evm_address (rest s) who) (evm_err EvmError.AddressNotMapped)) in
          do! mensure (bool_decide (maintainer ci = mt)) (evm_err EvmError.NoPermission) in
          mmodify (fun s =>
            set_accounts (<[contract := mkAccountInfo (nonce ai)
                              (Some (mkContractInfo (ci_code_hash ci) new_maintainer (deployed ci)))
                              (developer_deposit ai)]> (accounts s)) s)
      end
  end.

(** [mark_deployed]. *)
Definition mark_deployed (contract : H160) (mt : option H160) : MS unit :=
  let! s := mget in
  match accounts s !! contract with
  | Some (mkAccountInfo n (Some ci) dd) =>
      do! match mt with
          | Some m => mensure (bool_decide (maintainer ci = m)) (evm_err EvmError.NoPermission)
          | None => ret tt
          end in
      do! mensure (negb (deployed ci)) (evm_err EvmError.ContractAlreadyDeployed) in
      mmodify (fun s =>
        set_accounts (<[contract := mkAccountInfo n
                          (Some (mkContractInfo (ci_code_hash ci) (maintainer ci) true)) dd]> (accounts s)) s)
  | _ => throw (evm_err EvmError.ContractNotFound)
  end.

(** [do_set_code]; [None] is the root origin, [Some signer] a signed one. *)
Definition do_set_code (root_or_signed : option AccountId) (contract : H160) (code : bytes) : MS unit :=
  let! s := mget in
  match accounts s !! contract with
  | None => throw (evm_err EvmError.ContractNotFound)
  | Some ai =>
      match contract_info ai with
      | None => throw (evm_err EvmError.ContractNotFound)
      | Some ci =>
          do! match root_or_signed with
              | Some signer =>
                  let! mt := mlift (ok_or (get_evm_address (rest s) signer)
                                          (evm_err EvmError.AddressNotMapped)) in
                  do! mensure (bool_decide (maintainer ci = mt)) (evm_err EvmError.NoPermission) in
                  mensure (negb (deployed ci)) (evm_err EvmError.ContractAlreadyDeployed)
              | None => ret tt
              end in
          let size := wrap U32_MAX (Z.of_nat (length code)) in
          let ch := code_hash code in
          if bool_decide (ch = ci_code_hash ci) then ret tt
          else
            do! mensure (size <=? MaxCodeSize cfg) (evm_err EvmError.ContractExceedsMaxCodeSize) in
            mmodify (acquire_code ch code)
      end
  end.

(** [remove_contract].  [Accounts::try_mutate_exists] reads the account first and writes it
    last: a callback in between finds the contract still there, and what it writes to the
    account is overwritten. *)
Definition remove_contract (caller contract : H160) : MS unit :=
  transactional (
    let! s := mget in
    match accounts s !! contract with
    | None => throw (evm_err EvmError.ContractNotFound)
    | Some ai =>
        match contract_info ai with
        | None => throw (evm_err EvmError.ContractNotFound)
        | Some ci =>
            do! mmodify (remove_storage contract) in
            do! mmodify (release_code (ci_code_hash ci)) in
            let! s1 := mget in
            let contract_account_id := get_account_id (rest s1) contract in
            do! on_rest (fun x => let '(x', _) := unreserve contract_account_id
                                       (reserved_balance x contract_account_id) x in (x', Ok tt)) in
            let! s2 := mget in
            let who := get_account_id (rest s2) caller in
            do! on_rest_reaping (transfer_all contract_account_id who) in
            mmodify (fun s => set_accounts (<[contract := mkAccountInfo (nonce ai) None
                                                (developer_deposit ai)]> (accounts s)) s)
        end
    end).

(** [do_selfdestruct]. *)
Definition do_selfdestruct (caller contract : H160) : MS unit :=
  let! s := mget in
  let! ai := mlift (ok_or (accounts s !! contract) (evm_err EvmError.ContractNotFound)) in
  let! ci := mlift (ok_or (contract_info ai) (evm_err EvmError.ContractNotFound)) in
  do! mensure (bool_decide (maintainer ci = caller)) (evm_err EvmError.NoPermission) in
  do! mensure (negb (deployed ci)) (evm_err EvmError.ContractAlreadyDeployed) in
  remove_contract caller contract.

(** ** Extrinsics *)
Definition transfer_maintainer (origin : Origin AccountId) (contract new_maintainer : H160) : MS unit :=
  transactional (
    let! who := mlift (ensure_signed origin) in
    do! do_transfer_maintainer who contract new_maintainer in
    mmodify (deposit_event (TransferredMaintainer contract new_maintainer))).

Definition deploy (origin : Origin AccountId) (contract : H160) : MS unit :=
  transactional (
    let! who := mlift (ensure_signed origin) in
    let! s := mget in
    let! address := mlift (ok_or (get_evm_address (rest s) who) (evm_err EvmError.AddressNotMapped)) in
    do! on_rest_reaping (withdraw who (DeploymentFee cfg) AllowDeath) in
    do! mark_deployed contract (Some address) in
    mmodify (deposit_event (ContractDeployed contract))).

Definition deploy_free (origin : Origin AccountId) (contract : H160) : MS unit :=
  transactional (
    do! mensure (FreeDeploymentOrigin cfg origin) BadOrigin in
    do! mark_deployed contract None in
    mmodify (deposit_event (ContractDeployed contract))).

Definition enable_contract_development (origin : Origin AccountId) : MS unit :=
  transactional (
    let! who := mlift (ensure_signed origin) in
    let! address := (fun s => let '(x, a) := get_or_create_evm_address (rest s) who in (set_rest x s, Ok a)) in
    do! on_rest (reserve who (DeveloperDeposit cfg)) in
    let! s := mget in
    do! match accounts s !! address with
        | Some ai =>
            do! mensure (bool_decide (developer_deposit ai = None))
                        (evm_err EvmError.ContractDevelopmentAlreadyEnabled) in
            mmodify (fun s => set_accounts (<[address := mkAccountInfo (nonce ai) (contract_info ai)
                                                (Some (DeveloperDeposit cfg))]> (accounts s)) s)
        | None =>
            mmodify (fun s => set_accounts (<[address := mkAccountInfo 0 None
                                                (Some (DeveloperDeposit cfg))]> (accounts s)) s)
        end in
    mmodify (deposit_event (ContractDevelopmentEnabled who))).

Definition disable_contract_development (origin : Origin AccountId) : MS unit :=
  transactional (
    let! who := mlift (ensure_signed origin) in
    let! s := mget in
    let! address := mlift (ok_or (get_evm_address (rest s) who) (evm_err EvmError.AddressNotMapped)) in
    let! ai := mlift (ok_or (accounts s !! address) (evm_err EvmError.ContractDevelopmentNotEnabled)) in
    let! deposit := mlift (ok_or (developer_deposit ai) (evm_err EvmError.ContractDevelopmentNotEnabled)) in
    do! mmodify (fun s => set_accounts (<[address := mkAccountInfo (nonce ai) (contract_info ai) None]>
                                          (accounts s)) s) in
    do! on_rest (fun x => let '(x', _) := unreserve who deposit x in (x', Ok tt)) in
    mmodify (deposit_event (ContractDevelopmentDisabled who))).

(** [ensure_root_or_signed]. *)
Definition ensure_root_or_signed (o : Origin AccountId) : res DispatchError (option AccountId) :=
  match o with
  | Root => Ok None
  | Signed who => Ok (Some who)
  | NoneOrigin => Err BadOrigin
  end.

Definition set_code (origin : Origin AccountId) (contract : H160) (code : bytes) : MS unit :=
  transactional (
    let! root_or_signed := mlift (ensure_root_or_signed origin) in
    do! do_set_code root_or_signed contract code in
    mmodify (deposit_event (ContractSetCode contract))).

Definition selfdestruct (origin : Origin AccountId) (contract : H160) : MS unit :=
  transactional (
    let! who := mlift (ensure_signed origin) in
    let! s := mget in
    let! caller := mlift (ok_or (get_evm_address (rest s) who) (evm_err EvmError.AddressNotMapped)) in
    do! do_selfdestruct caller contract in
    mmodify (deposit_event (ContractSelfdestructed caller contract))).

(** ** Queries and hooks *)
Definition query_maintainer (s : St) (contract : H160) : res DispatchError H160 :=
  match accounts s !! contract with
  | None => Err (evm_err EvmError.ContractNotFound)
  | Some ai => match contract_info ai with
               | None => Err (evm_err EvmError.ContractNotFound)
               | Some ci => Ok (maintainer ci)
               end
  end.

(** [GenesisConfig::build]: the accounts of the genesis, in the order of their map. *)
Record GenesisAccount : Type := mkGenesis {
  g_nonce : Z; g_balance : Z; g_storage : list (H256 * H256); g_code : bytes;
}.

Definition build_account (address : H160) (account : GenesisAccount) : MS unit :=
  let! s := mget in
  let account_id := get_account_id (rest s) address in
  do! mmodify (fun s => set_accounts (<[address := account_info_new (g_nonce account) None]> (accounts s)) s) in
  do! on_rest (fun x => (deposit_creating account_id (g_balance account) x, Ok tt)) in
  mwhen (negb (bool_decide (g_code account = []))) (
    do! (fun s => let '(s', r) := on_contract_initialization address H160_default (g_code account) (0, 0) s in
                  (s', match r with Ok u => Ok u | _ => Panic end)) in
    do! mwhen (negb (with_ethereum_compatibility cfg))
          (fun s => let '(s', r) := mark_deployed address None s in
                    (s', match r with Ok u => Ok u | _ => Panic end)) in
    mmodify (fun s => set_storages
               (foldl (fun m kv => <[(address, kv.1) := kv.2]> m) (account_storages s) (g_storage account)) s)).

Fixpoint build_accounts (l : list (H160 * GenesisAccount)) : MS unit :=
  match l with
  | [] => ret tt
  | (address, account) :: l' => do! build_account address account in build_accounts l'
  end.

(** [primitives::NETWORK_CONTRACT_START]. *)
Definition NETWORK_CONTRACT_START : Z := 4096.

Definition genesis_build (l : list (H160 * GenesisAccount)) : MS unit :=
  do! build_accounts l in mmodify (set_network_contract_index NETWORK_CONTRACT_START).

(** The [SetEvmOrigin] signed extension and the [EVM] trait's origin. *)
Definition pre_dispatch (who : AccountId) (s : St) : St := set_extrinsic_origin (Some who) s.
Definition post_dispatch (s : St) : St := set_extrinsic_origin None s.
Definition get_origin (s : St) : option AccountId := extrinsic_origin s.
Definition set_origin (origin : AccountId) (s : St) : St := set_extrinsic_origin (Some origin) s.
End pallet.

(** ** The codes of the contracts *)
Section code_theorems.
Context {X : Type} `{Currency X AccountId} `{TransferAll X AccountId} `{Reaping X AccountId} `{AddressMapping X AccountId}.
Variable cfg : EvmConfig.
Variable code_hash : bytes -> H256.

(** Whether an account runs the code [h], and how many accounts do. *)
Definition runs (h : H256) (ai : EvmAccountInfo) : Z :=
  match contract_info ai with
  | Some ci => if bool_decide (ci_code_hash ci = h) then 1 else 0
  | None => 0
  end.
Definition runs_opt (h : H256) (o : option EvmAccountInfo) : Z :=
  match o with Some ai => runs h ai | None => 0 end.
Definition uses (h : H256) (accs : gmap H160 EvmAccountInfo) : Z := map_sum (runs h) accs.

(** Codes and reference counts agree, up to [lost] references: a counted code is stored
    under its own hash, and the references with the lost ones are at least the contracts
    that run it; a code without a count is not stored. *)
Definition code_inv (lost : H256 -> Z) (s : Evm X) : Prop :=
  forall h, 0 <= lost h /\
    match code_infos s !! h with
    | Some ci =>
        (exists code, codes s !! h = Some code /\ code_hash code = h) /\
        1 <= ref_count ci <= U32_MAX /\ uses h (accounts s) <= ref_count ci + lost h
    | None => codes s !! h = None /\ uses h (accounts s) <= lost h
    end.
Definition no_loss (h : H256) : Z := 0.
(** One more reference is lost. *)
Definition lose (l : option H256) (lost : H256 -> Z) (h : H256) : Z :=
  lost h + match l with Some h0 => if bool_decide (h = h0) then 1 else 0 | None => 0 end.
Lemma lose_nonneg l lost h : 0 <= lost h -> 0 <= lose l lost h.
Proof. unfold lose. destruct l; [case_bool_decide|]; lia. Qed.

Lemma runs_range h ai : 0 <= runs h ai <= 1.
Proof. unfold runs. destruct (contract_info ai); [case_bool_decide|]; lia. Qed.

Lemma runs_opt_range h o : 0 <= runs_opt h o <= 1.
Proof. destruct o; simpl; [apply runs_range|lia]. Qed.

Lemma uses_insert h accs a ai : uses h (<[a := ai]> accs) = uses h accs - runs_opt h (accs !! a) + runs h ai.
Proof.
  unfold uses. destruct (accs !! a) as [old|] eqn:E; simpl.
  - by rewrite (map_sum_insert _ _ _ _ old).
  - rewrite map_sum_insert_new by done. lia.
Qed.

Lemma uses_delete h accs a : uses h (delete a accs) = uses h accs - runs_opt h (accs !! a).
Proof.
  unfold uses. destruct (accs !! a) as [old|] eqn:E; simpl.
  - by rewrite (map_sum_delete _ _ _ old).
  - rewrite delete_id by done. lia.
Qed.

Lemma uses_nonneg h accs : 0 <= uses h accs.
Proof. apply map_sum_nonneg. intros k v _. apply runs_range. Qed.

Lemma uses_le_size h accs : uses h accs <= Z.of_nat (size accs).
Proof.
  unfold uses. induction accs as [|a ai accs Ha IH] using map_ind.
  - rewrite map_sum_empty, map_size_empty. lia.
  - rewrite map_sum_insert_new, map_size_insert_None by done. pose proof (runs_range h ai). lia.
Qed.

(** Losing more references, or using the code less. *)
Lemma code_inv_weaken lost lost' s s' :
  codes s' = codes s -> code_infos s' = code_infos s -> (forall h, 0 <= lost' h) ->
  (forall h, uses h (accounts s') - lost' h <= uses h (accounts s) - lost h) -> code_inv lost s -> code_inv lost' s'.
Proof.
  intros E1 E2 H0' Hu Hi h. specialize (Hi h) as [Hl Hi]. specialize (Hu h). rewrite E1, E2. split; [done|].
  destruct (code_infos s !! h); naive_solver lia.
Qed.
Lemma code_inv_lost lost s h : code_inv lost s -> 0 <= lost h.
Proof. intros Hi. apply (Hi h). Qed.

Lemma code_inv_same lost s s' :
  codes s' = codes s -> code_infos s' = code_infos s -> accounts s' = accounts s ->
  code_inv lost s -> code_inv lost s'.
Proof.
  intros E1 E2 E3 Hi. apply (code_inv_weaken lost lost s); [done|done|intros; by eapply code_inv_lost| |done].
  intros h. by rewrite E3.
Qed.

(** Taking a reference and giving the code to one more account. *)
Lemma code_inv_acquire lost s s' code accs :
  code_inv lost s ->
  codes s' = codes (acquire_code (code_hash code) code s) ->
  code_infos s' = code_infos (acquire_code (code_hash code) code s) ->
  accounts s' = accs ->
  (forall h, uses h accs <= uses h (accounts s) + (if bool_decide (h = code_hash code) then 1 else 0)) ->
  (forall h, uses h accs <= U32_MAX) -> code_inv lost s'.
Proof.
  intros Hi E1 E2 E3 Hu Hmax h. specialize (Hu h). specialize (Hmax h). pose proof (Hi h) as [Hl Hh].
  rewrite E1, E2, E3. unfold acquire_code. pose proof (uses_nonneg h accs). split; [done|].
  destruct (decide (h = code_hash code)) as [->|Hne].
  - rewrite bool_decide_eq_true_2 in Hu by done.
    destruct (code_infos s !! code_hash code) as [ci|] eqn:E; simpl; rewrite ?lookup_insert_eq; simpl.
    + destruct Hh as (Hc & Hr & Hle). split; [done|]. uints.
    + destruct Hh as (Hc & Hle). split; [by eexists|]. uints.
  - rewrite bool_decide_eq_false_2 in Hu by done.
    destruct (code_infos s !! code_hash code) as [ci|] eqn:E; simpl; rewrite ?lookup_insert_ne by done.
    + destruct (code_infos s !! h); naive_solver lia.
    + destruct (code_infos s !! h); naive_solver lia.
Qed.

(** Dropping a reference: of an account that no longer runs the code, or else a lost one. *)
Lemma code_inv_release lost lost' s s' h0 accs :
  code_inv lost s -> codes s' = codes (release_code h0 s) -> code_infos s' = code_infos (release_code h0 s) ->
  accounts s' = accs -> (forall h, 0 <= lost' h) ->
  (forall h, uses h accs - lost' h <= uses h (accounts s) - lost h - (if bool_decide (h = h0) then 1 else 0)) ->
  code_inv lost' s'.
Proof.
  intros Hi E1 E2 E3 Hl' Hu h. specialize (Hu h). specialize (Hl' h). pose proof (Hi h) as [Hl Hh]. pose proof (Hi h0) as [_ Hh0].
  rewrite E1, E2, E3. unfold release_code. split; [done|].
  destruct (code_infos s !! h0) as [ci|] eqn:E; simpl in *.
  - destruct (decide (h = h0)) as [->|Hne].
    + rewrite bool_decide_eq_true_2 in Hu by done. destruct Hh0 as (Hc & Hr & Hle).
      destruct (Z.eqb_spec (sat_sub (ref_count ci) 1) 0); simpl.
      * rewrite !lookup_delete_eq. split; [done|]. uints.
      * rewrite lookup_insert_eq. simpl. split; [done|]. uints.
    + rewrite bool_decide_eq_false_2 in Hu by done.
      destruct (sat_sub (ref_count ci) 1 =? 0); simpl;
        rewrite ?lookup_delete_ne, ?lookup_insert_ne by done;
        destruct (code_infos s !! h); naive_solver lia.
  - destruct (decide (h = h0)) as [->|Hne].
    + rewrite bool_decide_eq_true_2 in Hu by done. rewrite E. naive_solver lia.
    + rewrite bool_decide_eq_false_2 in Hu by done.
      destruct (code_infos s !! h); naive_solver lia.
Qed.

Lemma code_inv_update_account lost s s' a ai :
  codes s' = codes s -> code_infos s' = code_infos s ->
  accounts s' = <[a := ai]> (accounts s) ->
  (forall h, runs h ai <= runs_opt h (accounts s !! a)) -> code_inv lost s -> code_inv lost s'.
Proof.
  intros E1 E2 E3 Hr Hi. apply (code_inv_weaken lost lost s); [done|done|intros; by eapply code_inv_lost| |done]. intros h.
  rewrite E3, uses_insert. specialize (Hr h). lia.
Qed.

(** A call into another pallet leaves this one as it is. *)
Lemma on_rest_frame {E A} (m : M X E A) (s s' : Evm X) r :
  on_rest m s = (s', r) -> s' = set_rest (rest s') s.
Proof. unfold on_rest. destruct (m (rest s)). by intros [= <- <-]. Qed.

Lemma remove_account_inv lost a s s' r :
  code_inv lost s -> remove_account a s = (s', r) -> code_inv lost s'.
Proof.
  intros Hi. assert (forall h, 0 <= lost h) as Hl by (intros; by eapply code_inv_lost). unfold remove_account.
  destruct (accounts s !! a) as [[n [ci|] dd]|] eqn:E; intros [= <- <-].
  - eapply (code_inv_release lost lost s _ (ci_code_hash ci) (delete a (accounts s))); [done|reflexivity..| |done|].
    + simpl. unfold release_code. by destruct (code_infos s !! ci_code_hash ci) as [i|]; [case_match|].
    + intros h. rewrite uses_delete, E. simpl. unfold runs; simpl.
      do 2 case_bool_decide; subst; try congruence; lia.
  - eapply (code_inv_weaken lost lost s); [reflexivity..|done| |exact Hi]. intros h. simpl. rewrite uses_delete, E.
    pose proof (runs_range h (mkAccountInfo n None dd)). simpl. lia.
  - eapply (code_inv_weaken lost lost s); [reflexivity..|done| |exact Hi]. intros h. simpl. rewrite uses_delete, E. simpl. lia.
Qed.

Lemma acquire_accounts h code (s : Evm X) : accounts (acquire_code h code s) = accounts s.
Proof. unfold acquire_code. by destruct (code_infos s !! h). Qed.
Lemma release_accounts h (s : Evm X) : accounts (release_code h s) = accounts s.
Proof. unfold release_code. destruct (code_infos s !! h); [case_match|]; done. Qed.

Lemma initialization_inv lost a mt code used s s' r :
  code_inv lost s -> on_contract_initialization cfg code_hash a mt code used s = (s', r) ->
  Z.of_nat (size (accounts s')) <= U32_MAX -> code_inv lost s'.
Proof.
  intros Hi. unfold on_contract_initialization.
  destruct (MaxCodeSize cfg <? _); intros [= <- <-]; [done|]. intros Hsz.
  eapply code_inv_acquire; [exact Hi|reflexivity..| |].
  - intros h. simpl. rewrite uses_insert, acquire_accounts.
    pose proof (runs_opt_range h (accounts s !! a)).
    match goal with |- _ - _ + runs h ?ai <= _ =>
      assert (runs h ai = if bool_decide (code_hash code = h) then 1 else 0) as ->
        by (destruct (accounts s !! a); reflexivity) end.
    repeat case_bool_decide; subst; try congruence; lia.
  - intros h. etrans; [apply uses_le_size|]. exact Hsz.
Qed.

Lemma do_set_code_inv lost who c code s s' :
  code_inv lost s -> Z.of_nat (size (accounts s)) <= U32_MAX ->
  do_set_code cfg code_hash who c code s = (s', Ok tt) -> code_inv lost s'.
Proof.
  intros Hi Hsz. unfold do_set_code. intros Hrun. run_inv.
  destruct (accounts s !! c) as [ai|]; run_inv. destruct (contract_info ai) as [ci|]; run_inv.
  assert (s0 = s) as ->.
  { destruct who; run_inv; reflexivity. }
  destruct (bool_decide _); run_inv; [done|].
  eapply (code_inv_acquire lost s _ code (accounts s)); [exact Hi|reflexivity..| | |].
  - apply acquire_accounts.
  - intros h. case_bool_decide; lia.
  - intros h. etrans; [apply uses_le_size|done].
Qed.

(** *** Reaped accounts *)
(** Whether the callback for a reaped account removes the EVM account [a]. *)
Definition kills (x : X) (a : H160) (who : AccountId) : bool :=
  bool_decide (get_evm_address x who = Some a) || bool_decide (get_default_evm_address who = a).
Lemma remove_account_rest a (s : Evm X) :
  rest (remove_account a s).1 = rest s /\ accounts (remove_account a s).1 = delete a (accounts s).
Proof.
  unfold remove_account, release_code. destruct (accounts s !! a) as [[n [ci|] dd]|]; [|done..].
  destruct (code_infos s !! _); [case_match|]; done.
Qed.
Lemma killed_fields who (s : Evm X) a :
  rest (on_killed_account who s) = rest s /\
  accounts (on_killed_account who s) !! a = if kills (rest s) a who then None else accounts s !! a.
Proof.
  unfold on_killed_account, kills. destruct (get_evm_address (rest s) who) as [e|].
  - destruct (remove_account_rest e s) as [Hr1 Ha1].
    destruct (remove_account_rest (get_default_evm_address who) (remove_account e s).1) as [-> ->].
    rewrite Hr1, Ha1. split; [done|]. rewrite !lookup_delete. repeat case_decide; repeat case_bool_decide; naive_solver.
  - destruct (remove_account_rest (get_default_evm_address who) s) as [-> ->]. split; [done|].
    rewrite lookup_delete. case_decide; repeat case_bool_decide; naive_solver.
Qed.
Lemma killed_all_fields l (s : Evm X) a :
  rest (foldl (fun s who => on_killed_account who s) s l) = rest s /\
  accounts (foldl (fun s who => on_killed_account who s) s l) !! a =
    if existsb (kills (rest s) a) l then None else accounts s !! a.
Proof.
  revert s. induction l as [|who l IH]; intros s; [done|]. cbn [foldl existsb].
  destruct (IH (on_killed_account who s)) as [-> ->]. destruct (killed_fields who s a) as [-> ->].
  split; [done|]. destruct (kills _ _ _), (existsb _ _); done.
Qed.
Lemma killed_inv lost who s : code_inv lost s -> code_inv lost (on_killed_account who s).
Proof.
  intros Hi. unfold on_killed_account.
  destruct (get_evm_address (rest s) who) as [a|].
  - destruct (remove_account a s) as [s1 r] eqn:E1; simpl.
    destruct (remove_account _ s1) as [s2 r2] eqn:E2; simpl.
    eapply remove_account_inv; [|exact E2]. by eapply remove_account_inv.
  - destruct (remove_account _ s) as [s2 r2] eqn:E2; simpl. by eapply remove_account_inv.
Qed.
Lemma killed_all_inv lost l s : code_inv lost s -> code_inv lost (foldl (fun s who => on_killed_account who s) s l).
Proof. revert s. induction l as [|who l IH]; intros s Hi; [done|]. by apply IH, killed_inv. Qed.

(** The other pallets when [transfer_all] starts, and whether the account of the contract
    is reaped by it. *)
Definition unreserved_rest (c : H160) (s : Evm X) : X :=
  let account := get_account_id (rest s) c in (unreserve account (reserved_balance (rest s) account) (rest s)).1.
Definition removal_reaps (c : H160) (s s' : Evm X) : bool :=
  existsb (kills (unreserved_rest c s) c) (reaped (unreserved_rest c s) (rest s')).
(** The code that loses a reference when [c] is removed. *)
Definition removal_loss (c : H160) (s s' : Evm X) : option H256 :=
  match accounts s !! c with
  | Some (mkAccountInfo _ (Some ci) _) => if removal_reaps c s s' then Some (ci_code_hash ci) else None
  | _ => None
  end.

(** What a removal does: release, callbacks, and the write of the account that was held. *)
Lemma remove_contract_Ok caller c (s s' : Evm X) :
  remove_contract caller c s = (s', Ok tt) ->
  exists n ci dd, accounts s !! c = Some (mkAccountInfo n (Some ci) dd) /\
    let s1 := set_rest (unreserved_rest c s) (release_code (ci_code_hash ci) (remove_storage c s)) in
    let s2 := foldl (fun s who => on_killed_account who s) s1 (reaped (unreserved_rest c s) (rest s')) in
    s' = set_accounts (<[c := mkAccountInfo n None dd]> (accounts s2)) (set_rest (rest s') s2).
Proof.
  unfold remove_contract. intros Hrun. run_inv.
  destruct (accounts s !! c) as [[n [ci|] dd]|] eqn:Ea; cbn [contract_info] in *; run_inv.
  assert (rest (release_code (ci_code_hash ci) (remove_storage c s)) = rest s) as Hrest
    by (unfold release_code; destruct (code_infos _ !! _); [case_match|]; done).
  rewrite Hrest in *.
  match goal with H : on_rest _ _ = (?t, _) |- _ =>
    assert (t = set_rest (unreserved_rest c s) (release_code (ci_code_hash ci) (remove_storage c s))) as ->
      by (revert H; unfold on_rest, unreserved_rest; rewrite Hrest; destruct (unreserve _ _ _); by intros [= <- _]); clear H end.
  match goal with H : on_rest_reaping _ _ = _ |- _ => revert H end. unfold on_rest_reaping. cbn [rest set_rest].
  destruct (transfer_all _ _ _) as [x r]. intros [= <- ->]. exists n, ci, dd. split; [done|]. cbn [rest set_rest set_accounts nonce developer_deposit]. done.
Qed.
Lemma remove_contract_inv lost caller c s s' :
  code_inv lost s -> remove_contract caller c s = (s', Ok tt) -> code_inv (lose (removal_loss c s s') lost) s'.
Proof.
  intros Hi Hrun. apply remove_contract_Ok in Hrun as (n & ci & dd & Ea & Hs'). cbv zeta in Hs'.
  assert (forall h, 0 <= lost h) as Hl by (intros; by eapply code_inv_lost).
  set (h0 := ci_code_hash ci) in *.
  set (s1 := set_rest _ _) in Hs'. set (s2 := foldl _ _ _) in Hs'.
  assert (code_inv (lose (Some h0) lost) s2) as Hi2.
  { apply killed_all_inv. apply (code_inv_release lost _ s s1 h0 (accounts s)); [done|..].
    1, 2: unfold s1, release_code; simpl; destruct (code_infos s !! h0); [case_match|]; done.
    - unfold s1. cbn [accounts set_rest]. by rewrite release_accounts.
    - intros h. by apply lose_nonneg.
    - intros h. unfold lose. lia. }
  destruct (killed_all_fields (reaped (unreserved_rest c s) (rest s')) s1 c) as [_ Hc]. fold s2 in Hc.
  change (rest s1) with (unreserved_rest c s) in Hc. fold (removal_reaps c s s') in Hc.
  assert (accounts s1 !! c = Some (mkAccountInfo n (Some ci) dd)) as Hc1
    by (unfold s1; cbn [accounts set_rest]; by rewrite release_accounts).
  rewrite Hc1 in Hc. unfold removal_loss. rewrite Ea. fold h0.
  apply (code_inv_weaken (lose (Some h0) lost) _ s2); [by rewrite Hs'|by rewrite Hs'|intros h; by apply lose_nonneg| |done].
  intros h. rewrite Hs' at 1. cbn [accounts set_accounts]. rewrite uses_insert, Hc. unfold lose.
  destruct (removal_reaps c s s'); unfold runs_opt, runs; cbn [contract_info]; [lia|]. fold h0.
  repeat case_bool_decide; subst; try congruence; lia.
Qed.

Lemma mark_deployed_Ok c mt (s s' : Evm X) :
  mark_deployed c mt s = (s', Ok tt) ->
  exists n ci dd, accounts s !! c = Some (mkAccountInfo n (Some ci) dd) /\ deployed ci = false /\
    (forall m, mt = Some m -> maintainer ci = m) /\
    s' = set_accounts (<[c := mkAccountInfo n
           (Some (mkContractInfo (ci_code_hash ci) (maintainer ci) true)) dd]> (accounts s)) s.
Proof.
  unfold mark_deployed. intros Hrun. run_inv.
  destruct (accounts s !! c) as [[n [ci|] dd]|] eqn:E; run_inv.
  exists n, ci, dd. destruct mt as [m|]; run_inv; split_and!; naive_solver.
Qed.

Lemma do_transfer_maintainer_Ok who c nm (s s' : Evm X) :
  do_transfer_maintainer who c nm s = (s', Ok tt) ->
  exists n ci dd, accounts s !! c = Some (mkAccountInfo n (Some ci) dd) /\
    get_evm_address (rest s) who = Some (maintainer ci) /\
    s' = set_accounts (<[c := mkAccountInfo n
           (Some (mkContractInfo (ci_code_hash ci) nm (deployed ci))) dd]> (accounts s)) s.
Proof.
  unfold do_transfer_maintainer. intros Hrun. run_inv.
  destruct (accounts s !! c) as [[n [ci|] dd]|] eqn:E; simpl in *; run_inv.
  exists n, ci, dd. split_and!; [done| |done]. congruence.
Qed.

Lemma do_set_code_Ok who c code (s s' : Evm X) :
  do_set_code cfg code_hash who c code s = (s', Ok tt) ->
  exists n ci dd, accounts s !! c = Some (mkAccountInfo n (Some ci) dd) /\
    (forall w, who = Some w -> get_evm_address (rest s) w = Some (maintainer ci) /\ deployed ci = false) /\
    s' = if bool_decide (code_hash code = ci_code_hash ci) then s
         else acquire_code (code_hash code) code s.
Proof.
  unfold do_set_code. intros Hrun. run_inv.
  destruct (accounts s !! c) as [[n [ci|] dd]|] eqn:E; simpl in *; run_inv.
  exists n, ci, dd. split; [done|].
  destruct who as [w|]; run_inv; case_bool_decide; run_inv; split; try done; naive_solver.
Qed.

(** The steps that change the accounts of the pallet or its codes. *)
Inductive evm_step : option H256 -> Evm X -> Evm X -> Prop :=
| st_transfer_maintainer o c m s s' : transfer_maintainer o c m s = (s', Ok tt) -> evm_step None s s'
| st_deploy o c s s' : deploy cfg o c s = (s', Ok tt) -> evm_step None s s'
| st_deploy_free o c s s' : deploy_free cfg o c s = (s', Ok tt) -> evm_step None s s'
| st_enable o s s' : enable_contract_development cfg o s = (s', Ok tt) -> evm_step None s s'
| st_disable o s s' : disable_contract_development o s = (s', Ok tt) -> evm_step None s s'
| st_set_code o c code s s' : set_code cfg code_hash o c code s = (s', Ok tt) -> evm_step None s s'
| st_selfdestruct o c s s' : selfdestruct o c s = (s', Ok tt) -> evm_step (removal_loss c s s') s s'
(* what executions and the other pallets do *)
| st_initialization a mt code used s s' :
    on_contract_initialization cfg code_hash a mt code used s = (s', Ok tt) -> evm_step None s s'
| st_remove_account a s s' r : remove_account a s = (s', r) -> evm_step None s s'
| st_inc_nonce a s : evm_step None s (inc_nonce a s)
| st_hand_over who c m s s' : do_transfer_maintainer who c m s = (s', Ok tt) -> evm_step None s s'
| st_mark_deployed c m s s' : mark_deployed c m s = (s', Ok tt) -> evm_step None s s'
| st_killed who s : evm_step None s (on_killed_account who s)
| st_storages m s : evm_step None s (set_storages m s)
| st_index n s : evm_step None s (set_network_contract_index n s)
| st_origin o s : evm_step None s (set_extrinsic_origin o s)
| st_queue q s : evm_step None s (set_queued_events q s)
| st_events es s : evm_step None s (set_events es s)
| st_rest x s : evm_step None s (set_rest x s).

(** Runs, with the references that were lost on the way, and no more than [2^32 - 1]
    accounts at a time. *)
Inductive evm_run (s0 : Evm X) : (H256 -> Z) -> Evm X -> Prop :=
| run_start : evm_run s0 no_loss s0
| run_step lost s l s' : evm_run s0 lost s ->
    Z.of_nat (size (accounts s)) <= U32_MAX -> Z.of_nat (size (accounts s')) <= U32_MAX ->
    evm_step l s s' -> evm_run s0 (lose l lost) s'.

(** What each extrinsic does to the accounts, the codes and their counts. *)
Definition same_codes (s s' : Evm X) : Prop := codes s' = codes s /\ code_infos s' = code_infos s.

(** One account is replaced by one that runs no other code. *)
Definition account_updated (s s' : Evm X) : Prop :=
  same_codes s s' /\ exists a ai, accounts s' = <[a := ai]> (accounts s) /\
    forall h, runs h ai <= runs_opt h (accounts s !! a).

Lemma account_updated_inv lost s s' : account_updated s s' -> code_inv lost s -> code_inv lost s'.
Proof. intros [[E1 E2] (a & ai & E3 & Hr)]. by eapply code_inv_update_account. Qed.

Lemma transfer_maintainer_Ok o c nm (s s' : Evm X) :
  transfer_maintainer o c nm s = (s', Ok tt) ->
  exists who n ci dd, o = Signed who /\ accounts s !! c = Some (mkAccountInfo n (Some ci) dd) /\
    get_evm_address (rest s) who = Some (maintainer ci) /\ same_codes s s' /\
    accounts s' = <[c := mkAccountInfo n (Some (mkContractInfo (ci_code_hash ci) nm (deployed ci))) dd]>
                    (accounts s).
Proof.
  unfold transfer_maintainer. intros Hrun. run_inv.
  match goal with H : do_transfer_maintainer _ _ _ _ = (_, Ok ?u) |- _ =>
    destruct u; apply do_transfer_maintainer_Ok in H as (n & ci & dd & E & Hg & ->) end.
  by eexists _, n, ci, dd.
Qed.

(** The fee can take the last funds of the caller; the contract is looked up after that. *)
Lemma deploy_Ok o c (s s' : Evm X) :
  deploy cfg o c s = (s', Ok tt) ->
  exists who l n ci dd, let s1 := foldl (fun s who => on_killed_account who s) s l in
    o = Signed who /\ accounts s !! c = Some (mkAccountInfo n (Some ci) dd) /\
    accounts s1 !! c = Some (mkAccountInfo n (Some ci) dd) /\
    get_evm_address (rest s) who = Some (maintainer ci) /\ deployed ci = false /\ same_codes s1 s' /\
    accounts s' = <[c := mkAccountInfo n (Some (mkContractInfo (ci_code_hash ci) (maintainer ci) true)) dd]>
                    (accounts s1).
Proof.
  unfold deploy. intros Hrun. run_inv.
  match goal with H : mark_deployed _ _ _ = (_, Ok ?u) |- _ =>
    destruct u; apply mark_deployed_Ok in H as (n & ci & dd & E & Hd & Hmt & ->) end.
  match goal with H : on_rest_reaping _ _ = _ |- _ => revert H end. unfold on_rest_reaping.
  destruct (withdraw _ _ _ _) as [x r]. intros [= <- ->]. cbn [accounts set_rest] in E.
  match type of E with accounts (foldl _ _ ?l) !! _ = _ => set (killed := l) in *; destruct (killed_all_fields killed s c) as [_ Hk] end.
  eexists _, killed, n, ci, dd. cbv zeta. split_and!; [done| |done| |done|done|done].
  - rewrite Hk in E. by destruct (existsb _ _).
  - by rewrite (Hmt _ eq_refl).
Qed.

Lemma deploy_free_Ok o c (s s' : Evm X) :
  deploy_free cfg o c s = (s', Ok tt) ->
  exists n ci dd, FreeDeploymentOrigin cfg o = true /\
    accounts s !! c = Some (mkAccountInfo n (Some ci) dd) /\ deployed ci = false /\ same_codes s s' /\
    accounts s' = <[c := mkAccountInfo n (Some (mkContractInfo (ci_code_hash ci) (maintainer ci) true)) dd]>
                    (accounts s).
Proof.
  unfold deploy_free. intros Hrun. run_inv.
  match goal with H : mark_deployed _ _ _ = (_, Ok ?u) |- _ =>
    destruct u; apply mark_deployed_Ok in H as (n & ci & dd & E & Hd & Hmt & ->) end.
  by exists n, ci, dd.
Qed.

Lemma enable_Ok o (s s' : Evm X) :
  enable_contract_development cfg o s = (s', Ok tt) ->
  exists who a x, o = Signed who /\ get_or_create_evm_address (rest s) who = (x, a) /\
    reserve who (DeveloperDeposit cfg) x = (rest s', Ok tt) /\ same_codes s s' /\
    match accounts s !! a with
    | Some ai => developer_deposit ai = None /\
        accounts s' = <[a := mkAccountInfo (nonce ai) (contract_info ai) (Some (DeveloperDeposit cfg))]> (accounts s)
    | None => accounts s' = <[a := mkAccountInfo 0 None (Some (DeveloperDeposit cfg))]> (accounts s)
    end.
Proof.
  unfold enable_contract_development. intros Hrun. run_inv.
  match goal with H : context [get_or_create_evm_address ?r ?w] |- _ =>
    destruct (get_or_create_evm_address r w) as [x ad] eqn:Hg end.
  match goal with H : (set_rest _ _, Ok _) = _ |- _ => injection H as <- <- end.
  match goal with H : on_rest _ _ = (_, Ok ?u) |- _ =>
    unfold on_rest in H; simpl in H; destruct u; destruct (reserve _ _ _) as [x' r] eqn:Hres;
    injection H as <- -> end.
  eexists _, ad, x. simpl in *.
  destruct (accounts s !! ad) as [ai|]; run_inv; simpl in *; by split_and!.
Qed.

Lemma disable_Ok o (s s' : Evm X) :
  disable_contract_development o s = (s', Ok tt) ->
  exists who a ai d, o = Signed who /\ get_evm_address (rest s) who = Some a /\
    accounts s !! a = Some ai /\ developer_deposit ai = Some d /\ same_codes s s' /\
    rest s' = (unreserve who d (rest s)).1 /\
    accounts s' = <[a := mkAccountInfo (nonce ai) (contract_info ai) None]> (accounts s).
Proof.
  unfold disable_contract_development. intros Hrun. run_inv.
  match goal with H : on_rest _ _ = (_, Ok ?u) |- _ =>
    unfold on_rest in H; simpl in H; destruct (unreserve _ _ _) as [x' r] eqn:Hres;
    injection H as <- _ end.
  eexists _, _, _, _. simpl. rewrite Hres. by split_and!.
Qed.

Lemma selfdestruct_Ok o c (s s' : Evm X) :
  selfdestruct o c s = (s', Ok tt) ->
  exists who n ci dd s1, o = Signed who /\ accounts s !! c = Some (mkAccountInfo n (Some ci) dd) /\
    get_evm_address (rest s) who = Some (maintainer ci) /\ deployed ci = false /\
    remove_contract (maintainer ci) c s = (s1, Ok tt) /\ accounts s' = accounts s1 /\ same_codes s1 s' /\
    rest s' = rest s1.
Proof.
  unfold selfdestruct, do_selfdestruct. intros Hrun. run_inv.
  match goal with H : contract_info ?ai = Some ?ci |- _ => destruct ai as [n ci' dd]; simpl in H; subst ci' end.
  match goal with H : remove_contract _ _ _ = (_, Ok ?u) |- _ => destruct u end.
  subst. eexists _, n, _, dd, _. by split_and!.
Qed.

Lemma inc_nonce_updated a s : account_updated s (inc_nonce a s).
Proof.
  split; [done|]. unfold inc_nonce. eexists a, _. split; [reflexivity|].
  intros h. destruct (accounts s !! a); simpl; unfold runs; simpl; lia.
Qed.

Lemma updated_at c n ci ci' dd (s1 s' : Evm X) :
  same_codes s1 s' -> accounts s1 !! c = Some (mkAccountInfo n (Some ci) dd) -> ci_code_hash ci' = ci_code_hash ci ->
  accounts s' = <[c := mkAccountInfo n (Some ci') dd]> (accounts s1) -> account_updated s1 s'.
Proof. intros Hc E Hh Ha. split; [done|]. eexists _, _. split; [done|]. intros h. rewrite E. unfold runs_opt, runs; cbn. by rewrite Hh. Qed.
Lemma extrinsic_step_inv lost l s s' :
  Z.of_nat (size (accounts s)) <= U32_MAX -> Z.of_nat (size (accounts s')) <= U32_MAX ->
  evm_step l s s' -> code_inv lost s -> code_inv (lose l lost) s'.
Proof.
  intros Hsz Hsz' Hstep Hi.
  assert (forall l', l' = None -> code_inv lost s' -> code_inv (lose l' lost) s') as Hnone.
  { intros l' -> Hx. apply (code_inv_weaken lost _ s'); [done|done| |intros h; unfold lose; lia|done].
    intros h. by eapply lose_nonneg, code_inv_lost. }
  destruct Hstep as [o c m s s' Hr|o c s s' Hr|o c s s' Hr|o s s' Hr|o s s' Hr|o c code s s' Hr|o c s s' Hr|a mt code used s s' Hr
    |a s s' r Hr|a s|who c m s s' Hr|c m s s' Hr|who s| | | | | |]; try (apply Hnone; [reflexivity|]); try done.
  - apply transfer_maintainer_Ok in Hr as (w & n & ci & dd & _ & E & _ & Hc & Ha).
    eapply account_updated_inv; [by eapply updated_at; [| | |exact Ha]|done].
  - apply deploy_Ok in Hr as (w & l & n & ci & dd & _ & _ & E & _ & _ & Hc & Ha).
    eapply account_updated_inv; [by eapply updated_at; [| | |exact Ha]|by apply killed_all_inv].
  - apply deploy_free_Ok in Hr as (n & ci & dd & _ & E & _ & Hc & Ha).
    eapply account_updated_inv; [by eapply updated_at; [| | |exact Ha]|done].
  - apply enable_Ok in Hr as (w & a & x & _ & _ & _ & Hc & Ha).
    eapply account_updated_inv; [|done]. split; [done|].
    destruct (accounts s !! a) as [ai|] eqn:E; [destruct Ha as [_ Ha]|]; eexists a, _; (split; [done|]);
      intros h; by rewrite E.
  - apply disable_Ok in Hr as (w & a & ai & d & _ & _ & E & _ & Hc & _ & Ha).
    eapply account_updated_inv; [|done]. split; [done|]. eexists _, _. split; [done|]. intros h. by rewrite E.
  - unfold set_code in Hr. run_inv.
    match goal with H : do_set_code _ _ _ _ _ _ = (_, Ok ?u) |- _ => destruct u; eapply do_set_code_inv in H; [|done..] end.
    by eapply code_inv_same; [..|eassumption].
  - apply selfdestruct_Ok in Hr as (w & n & ci & dd & s1 & _ & _ & _ & _ & Hrm & Ha & [Hc1 Hc2] & Hrest).
    assert (removal_loss c s s' = removal_loss c s s1) as -> by (unfold removal_loss, removal_reaps; by rewrite Hrest).
    eapply remove_contract_inv in Hrm; [|done]. by eapply code_inv_same; [..|exact Hrm].
  - by eapply initialization_inv.
  - by eapply remove_account_inv.
  - eapply account_updated_inv; [apply inc_nonce_updated|done].
  - apply do_transfer_maintainer_Ok in Hr as (n & ci & dd & E & _ & ->).
    apply (account_updated_inv lost s); [by apply (updated_at c n ci (mkContractInfo (ci_code_hash ci) m (deployed ci)) dd); [by split|..]|done].
  - apply mark_deployed_Ok in Hr as (n & ci & dd & E & _ & _ & ->).
    apply (account_updated_inv lost s); [by apply (updated_at c n ci (mkContractInfo (ci_code_hash ci) (maintainer ci) true) dd); [by split|..]|done].
  - by apply killed_inv.
Qed.

(** The code of a contract is there while the counts agree. *)
Lemma uses_pos (s : Evm X) a ai ci : accounts s !! a = Some ai -> contract_info ai = Some ci -> 1 <= uses (ci_code_hash ci) (accounts s).
Proof.
  intros Ha Hc. etrans; [|apply (map_sum_lookup_le (runs (ci_code_hash ci)) _ a ai); [|done]].
  - unfold runs. rewrite Hc. by rewrite bool_decide_eq_true_2.
  - intros k v _. apply runs_range.
Qed.
Lemma code_inv_available lost s a ai ci : code_inv lost s -> accounts s !! a = Some ai -> contract_info ai = Some ci ->
  lost (ci_code_hash ci) < uses (ci_code_hash ci) (accounts s) ->
  code_hash (code_at_address code_hash s a) = ci_code_hash ci /\ is_Some (codes s !! ci_code_hash ci).
Proof.
  intros Hi Ha Hc Hu. specialize (Hi (ci_code_hash ci)) as [_ Hi].
  destruct (code_infos s !! ci_code_hash ci) as [info|]; [|destruct Hi; lia].
  destruct Hi as ((code & Hcode & Hh) & _). unfold code_at_address, code_hash_at_address.
  destruct ai as [n ci' dd]; simpl in *; subst. rewrite Ha, Hcode. simpl. by split.
Qed.
Lemma evm_run_inv s0 lost s : code_inv no_loss s0 -> evm_run s0 lost s -> code_inv lost s.
Proof. intros H0'. induction 1 as [|lost s l s' Hr IH Hsz Hsz' Hst]; [done|]. exact (extrinsic_step_inv lost l s s' Hsz Hsz' Hst IH). Qed.
Definition references (s : Evm X) (h : H256) : Z := match code_infos s !! h with Some ci => ref_count ci | None => 0 end.

(** C1. Codes are counted and kept.  In every state that is reached by the calls of the
    pallet, by running contracts, and by accounts that are reaped in the middle of them, a
    code has at least as many references as there are contracts running it, except for the
    references it lost, and as long as it has lost fewer than there are such contracts,
    the code the interpreter gets for each of them is the one whose hash the contract was
    created with.  A code loses a reference only when a contract running it is removed by
    [selfdestruct] and the account of the contract is reaped by that very call. *)
Theorem contract_code_available s0 lost s :
  code_inv no_loss s0 -> evm_run s0 lost s ->
  (forall h, uses h (accounts s) <= references s h + lost h) /\
  forall a ai ci, accounts s !! a = Some ai -> contract_info ai = Some ci ->
    lost (ci_code_hash ci) < uses (ci_code_hash ci) (accounts s) ->
    code_hash (code_at_address code_hash s a) = ci_code_hash ci /\
    is_Some (codes s !! ci_code_hash ci) /\ 1 <= references s (ci_code_hash ci).
Proof.
  intros H0' Hr. pose proof (evm_run_inv _ _ _ H0' Hr) as Hi. split.
  - intros h. specialize (Hi h) as [_ Hi]. unfold references. destruct (code_infos s !! h); naive_solver lia.
  - intros a ai ci Ha Hc Hu. destruct (code_inv_available lost s a ai ci Hi Ha Hc Hu) as [H3 H4]. split_and!; [done|done|].
    specialize (Hi (ci_code_hash ci)) as [_ Hi]. unfold references. destruct (code_infos s !! _); naive_solver lia.
Qed.

(** *** A removal that reaps its account *)
(** The code [h] is gone, or the contract [c] holds the last reference to it. *)
Definition last_reference (h : H256) (c : H160) (s : Evm X) : Prop :=
  (code_infos s !! h = None /\ codes s !! h = None) \/
  (exists ci, code_infos s !! h = Some ci /\ ref_count ci = 1) /\
  exists n info dd, accounts s !! c = Some (mkAccountInfo n (Some info) dd) /\ ci_code_hash info = h.
Lemma release_last h h' (s : Evm X) :
  (code_infos s !! h = None /\ codes s !! h = None \/ exists ci, code_infos s !! h = Some ci /\ ref_count ci = 1) ->
  let s' := release_code h' s in
  if bool_decide (h' = h) then code_infos s' !! h = None /\ codes s' !! h = None
  else code_infos s' !! h = code_infos s !! h /\ codes s' !! h = codes s !! h.
Proof.
  intros Hs. cbv zeta. unfold release_code. case_bool_decide as Hh.
  - subst h'. destruct Hs as [[Hn Hc]|(ci & Hci & Hr)]; [by rewrite Hn|]. rewrite Hci, Hr.
    change (sat_sub 1 1 =? 0) with true. cbn [code_infos codes set_code_infos set_codes]. by rewrite !lookup_delete_eq.
  - destruct (code_infos s !! h') as [ci|]; [|done]. case_match; cbn; by rewrite ?lookup_delete_ne, ?lookup_insert_ne by done.
Qed.
Lemma remove_account_last h c a (s : Evm X) : last_reference h c s -> last_reference h c (remove_account a s).1.
Proof.
  intros Hl. assert (code_infos s !! h = None /\ codes s !! h = None \/ exists ci, code_infos s !! h = Some ci /\ ref_count ci = 1) as Hs
    by (destruct Hl as [?|[? _]]; auto).
  destruct (remove_account_rest a s) as [_ Ha]. unfold last_reference. rewrite Ha.
  unfold remove_account. destruct (accounts s !! a) as [[n [ci|] dd]|] eqn:Ea; cbn [fst set_accounts remove_storage set_storages code_infos codes].
  - pose proof (release_last h (ci_code_hash ci) s Hs) as Hx. cbv zeta in Hx. case_bool_decide as Hh; [by left|].
    destruct Hx as [-> ->]. destruct Hl as [?|[Hc (n' & i & dd' & Hi & Hhash)]]; [by left|]. right. split; [done|].
    exists n', i, dd'. split; [|done]. rewrite lookup_delete_ne; [done|]. intros ->. congruence.
  - destruct Hl as [?|[Hc (n' & i & dd' & Hi & Hhash)]]; [by left|]. right. split; [done|]. exists n', i, dd'.
    split; [|done]. rewrite lookup_delete_ne; [done|]. intros ->. congruence.
  - destruct Hl as [?|[Hc (n' & i & dd' & Hi & Hhash)]]; [by left|]. right. split; [done|]. exists n', i, dd'.
    split; [|done]. rewrite lookup_delete_ne; [done|]. intros ->. congruence.
Qed.
Lemma killed_all_last h c l (s : Evm X) :
  last_reference h c s -> last_reference h c (foldl (fun s who => on_killed_account who s) s l).
Proof.
  revert s. induction l as [|who l IH]; intros s Hl; [done|]. cbn [foldl]. apply IH. unfold on_killed_account.
  apply remove_account_last. destruct (get_evm_address _ _); [by apply remove_account_last|done].
Qed.

(** C10. A removal can drop the code of another contract.  Let two contracts run the same
    code, both counted, and let the maintainer of one of them remove it, whereby the
    account of that contract, and not that of the other, is reaped.  The code is then
    released twice, by the removal and by the callback for the reaped account: its count
    and the code itself are gone, while the other contract is still registered with it and
    gets the empty code to run.  The account of the removed contract, which the callback
    has deleted, is written back. *)
Theorem removal_drops_shared_code o c c' n ci dd ai' size (s s' : Evm X) :
  accounts s !! c = Some (mkAccountInfo n (Some ci) dd) ->
  accounts s !! c' = Some ai' -> ci_code_hash <$> contract_info ai' = Some (ci_code_hash ci) -> c <> c' ->
  code_infos s !! ci_code_hash ci = Some (mkCodeInfo size 2) ->
  selfdestruct o c s = (s', Ok tt) -> removal_reaps c s s' = true ->
  existsb (kills (unreserved_rest c s) c') (reaped (unreserved_rest c s) (rest s')) = false ->
  accounts s' !! c' = Some ai' /\ accounts s' !! c = Some (mkAccountInfo n None dd) /\
  code_infos s' !! ci_code_hash ci = None /\ codes s' !! ci_code_hash ci = None /\
  code_at_address code_hash s' c' = [].
Proof.
  intros Hc Hc' Hsame Hne Hinfo Hr Hreaps Hother. set (h := ci_code_hash ci) in *.
  apply selfdestruct_Ok in Hr as (w & n1 & ci1 & dd1 & t & _ & _ & _ & _ & Hrm & Ha & [Hcodes Hinfos] & Hrest).
  apply remove_contract_Ok in Hrm as (n2 & ci2 & dd2 & Hc2 & Ht). cbv zeta in Ht. simplify_eq. fold h in Ht.
  unfold removal_reaps in Hreaps. rewrite Hrest in Hreaps, Hother.
  set (s1 := set_rest _ _) in Ht. set (l := reaped _ _) in *. set (s2 := foldl _ _ _) in Ht.
  assert (accounts s1 = accounts s) as Ha1 by (unfold s1; cbn [accounts set_rest]; by rewrite release_accounts).
  assert (last_reference h c s2) as Hl.
  { apply killed_all_last. right. rewrite Ha1. split; [|by eexists _, _, _]. exists (mkCodeInfo size 1).
    unfold s1, release_code. cbn [code_infos remove_storage set_storages set_rest]. rewrite Hinfo.
    cbn [ref_count code_size]. change (sat_sub 2 1) with 1. change (1 =? 0) with false. cbn [code_infos set_code_infos]. by rewrite lookup_insert_eq. }
  destruct (killed_all_fields l s1 c) as [_ Hk]. destruct (killed_all_fields l s1 c') as [_ Hk'].
  change (rest s1) with (unreserved_rest c s) in Hk, Hk'. rewrite Hreaps in Hk. rewrite Hother, Ha1, Hc' in Hk'. fold s2 in Hk, Hk'.
  destruct Hl as [[Hn1 Hn2]|[_ (? & ? & ? & Hx & _)]]; [|congruence].
  assert (accounts s' !! c' = Some ai') as Hac' by (rewrite Ha, Ht; cbn [accounts set_accounts]; by rewrite lookup_insert_ne).
  assert (codes s' !! h = None) as Hcn by (rewrite Hcodes, Ht; done).
  split_and!; [done|rewrite Ha, Ht; cbn [accounts set_accounts]; by rewrite lookup_insert_eq|rewrite Hinfos, Ht; done|done|].
  unfold code_at_address, code_hash_at_address. rewrite Hac'. destruct ai' as [n' [i|] d']; [|done].
  cbn in Hsame. injection Hsame as ->. by rewrite Hcn.
Qed.

(** [set_code] never changes the code a contract runs: it stores the new code
    and counts a reference to it, but the contract keeps the hash of the old one. *)
Theorem set_code_keeps_old_code o c code (s s' : Evm X) :
  set_code cfg code_hash o c code s = (s', Ok tt) ->
  accounts s' = accounts s /\ code_at_address code_hash s' c = code_at_address code_hash s c.
Proof.
  unfold set_code. intros Hrun. run_inv.
  match goal with H : do_set_code _ _ _ _ _ _ = (_, Ok ?u) |- _ =>
    destruct u; apply do_set_code_Ok in H as (n & ci & dd & E & _ & ->) end.
  case_bool_decide as Hne; [done|]. unfold code_at_address, code_hash_at_address; simpl.
  rewrite acquire_accounts, E. split; [done|]. f_equal.
  unfold acquire_code. destruct (code_infos s !! code_hash code); simpl; [done|].
  by rewrite lookup_insert_ne.
Qed.

(** A signed caller can hand over, deploy, re-code or destroy a contract only
    when its EVM address is the contract's maintainer, and the last three only
    before the contract is deployed; a refused call changes nothing. *)
Theorem only_maintainer_manages who c (s : Evm X) :
  let owner := exists ci ai, accounts s !! c = Some ai /\ contract_info ai = Some ci /\
                 get_evm_address (rest s) who = Some (maintainer ci) in
  let open := exists ci ai, accounts s !! c = Some ai /\ contract_info ai = Some ci /\ deployed ci = false in
  (forall nm s', transfer_maintainer (Signed who) c nm s = (s', Ok tt) ->
     owner /\ query_maintainer s' c = Ok nm) /\
  (forall s', deploy cfg (Signed who) c s = (s', Ok tt) -> owner /\ open) /\
  (forall code s', set_code cfg code_hash (Signed who) c code s = (s', Ok tt) -> owner /\ open) /\
  (forall s', selfdestruct (Signed who) c s = (s', Ok tt) -> owner /\ open).
Proof.
  intros owner open. split_and!.
  - intros nm s' Hr. apply transfer_maintainer_Ok in Hr as (w & n & ci & dd & Hw & E & Hg & _ & Ha).
    injection Hw as <-. split; [by exists ci, (mkAccountInfo n (Some ci) dd)|].
    unfold query_maintainer. by rewrite Ha, lookup_insert_eq.
  - intros s' Hr. apply deploy_Ok in Hr as (w & l & n & ci & dd & Hw & E & _ & Hg & Hd & _).
    injection Hw as <-. split; by exists ci, (mkAccountInfo n (Some ci) dd).
  - intros code s' Hr. unfold set_code in Hr. run_inv.
    match goal with H : ensure_root_or_signed _ = Ok _ |- _ => injection H as <- end.
    match goal with H : do_set_code _ _ _ _ _ _ = (_, Ok ?u) |- _ =>
      destruct u; apply do_set_code_Ok in H as (n & ci & dd & E & Hw & _) end.
    destruct (Hw _ eq_refl). split; by exists ci, (mkAccountInfo n (Some ci) dd).
  - intros s' Hr. apply selfdestruct_Ok in Hr as (w & n & ci & dd & s1 & Hw & E & Hg & Hd & _).
    injection Hw as <-. split; by exists ci, (mkAccountInfo n (Some ci) dd).
Qed.

(** Enabling contract development reserves the deposit; disabling it right
    after succeeds, clears the mark and restores both balances. *)
Theorem developer_deposit_round_trip `{!CurrencyLaws X AccountId} `{!AddressMappingLaws X AccountId}
    who (s s1 : Evm X) :
  (forall x x' a v, reserve a v x = (x', Ok tt) -> forall w, get_evm_address x' w = get_evm_address x w) ->
  0 <= DeveloperDeposit cfg ->
  0 <= reserved_balance (get_or_create_evm_address (rest s) who).1 who ->
  enable_contract_development cfg (Signed who) s = (s1, Ok tt) ->
  let x0 := (get_or_create_evm_address (rest s) who).1 in
  reserved_balance (rest s1) who = reserved_balance x0 who + DeveloperDeposit cfg /\
  exists s2, disable_contract_development (Signed who) s1 = (s2, Ok tt) /\
    free_balance (rest s2) who = free_balance x0 who /\
    reserved_balance (rest s2) who = reserved_balance x0 who.
Proof.
  intros Hkeep Hd Hpos Hr x0. apply enable_Ok in Hr as (w & a & x & Hw & Hg & Hres & _ & Ha).
  injection Hw as <-. unfold x0. rewrite Hg. simpl. rewrite Hg in Hpos. simpl in Hpos.
  pose proof (create_found _ _ _ _ Hg) as Hfound.
  apply reserve_moves in Hres as Hmv. destruct Hmv as (_ & Hf & Hrs). split; [done|].
  assert (exists ai, accounts s1 !! a = Some ai /\ developer_deposit ai = Some (DeveloperDeposit cfg)) as (ai & Eai & Edd).
  { destruct (accounts s !! a) as [old|]; [destruct Ha as [_ ->]|rewrite Ha];
      rewrite lookup_insert_eq; eexists; done. }
  destruct (unreserve who (DeveloperDeposit cfg) (rest s1)) as [x' rem] eqn:Hun.
  apply unreserve_moves in Hun as Hmv; [|lia..]. simpl in Hmv. destruct Hmv as (_ & Hf' & Hrs').
  unfold disable_contract_development, transactional, bind, mlift, mget; simpl.
  rewrite (Hkeep _ _ _ _ Hres), Hfound. simpl. rewrite Eai. simpl. rewrite Edd. simpl.
  unfold on_rest; simpl. rewrite Hun. simpl. eexists. split; [reflexivity|]. simpl. lia.
Qed.

(** Processing the queue deposits the queued events in their order after the
    earlier ones, empties the queue, and touches nothing else. *)
Lemma process_queued_events_eq (s : Evm X) :
  process_queued_events s =
    (set_queued_events [] (set_events (events s ++ queued_events s) s), Ok tt).
Proof.
  unfold process_queued_events. f_equal.
  enough (forall l t, foldl (fun s e => deposit_event e s) t l = set_events (events t ++ l) t) as ->; [done|].
  clear. induction l as [|e l IH]; intros t; simpl.
  - rewrite app_nil_r. by destruct t.
  - rewrite IH. unfold deposit_event; simpl. rewrite <- app_assoc. done.
Qed.
End code_theorems.

(** ** Executable instances, and the theorems on concrete states *)
Module EvmPalletWitness.
Import SimpleLedger.
(** Accounts are addresses in this instance: the first 20 bytes. *)
#[export] Instance toy_mapping : AddressMapping (gmap AccountId (Z * Z)) AccountId := {
  get_account_id _ a := a;
  get_evm_address _ acc := Some (take 20 acc);
  get_or_create_evm_address x acc := (x, take 20 acc);
  get_default_evm_address acc := take 20 acc;
  is_linked _ acc a := bool_decide (take 20 acc = a);
}.
#[export] Instance toy_mapping_laws : AddressMappingLaws (gmap AccountId (Z * Z)) AccountId.
Proof. split; simpl; naive_solver. Qed.

Definition cfg0 : EvmConfig :=
  mkEvmConfig 100 1 61440 1000 10 (replicate 20 9) false
    (fun o => match o with Root => true | _ => false end)
    (fun o => match o with Root => true | _ => false end).
Definition hash0 (code : bytes) : H256 := take 32 (code ++ replicate 32 0).
Definition alice : AccountId := replicate 32 1.
Definition alice_evm : H160 := replicate 20 1.
Definition shop : H160 := replicate 20 5.
Definition genesis : Evm (gmap AccountId (Z * Z)) :=
  mkEvm ∅ ∅ ∅ ∅ 4096 None [] [] {[ alice := (5000, 0) ]}.
Definition with_shop : Evm (gmap AccountId (Z * Z)) :=
  (on_contract_initialization cfg0 hash0 shop alice_evm [96; 1] (21000, 166) genesis).1.

Lemma genesis_inv : code_inv hash0 no_loss genesis.
Proof. intros h. unfold genesis, uses; simpl. rewrite !lookup_empty, map_sum_empty. done. Qed.

Lemma shop_created :
  on_contract_initialization cfg0 hash0 shop alice_evm [96; 1] (21000, 166) genesis = (with_shop, Ok tt).
Proof. vm_compute. reflexivity. Qed.

Definition shop_info : EvmAccountInfo :=
  mkAccountInfo 0 (Some (mkContractInfo (hash0 [96; 1]) alice_evm false)) None.

Lemma shop_run : evm_run cfg0 hash0 genesis (lose None no_loss) with_shop.
Proof.
  apply (run_step cfg0 hash0 genesis no_loss genesis None with_shop); [apply run_start|vm_compute; discriminate..|].
  by apply (st_initialization _ _ shop alice_evm [96; 1] (21000, 166)), shop_created.
Qed.
Lemma shop_found : accounts with_shop !! shop = Some shop_info.
Proof. vm_compute. reflexivity. Qed.
Lemma shop_counted : lose None no_loss (hash0 [96; 1]) < uses (hash0 [96; 1]) (accounts with_shop).
Proof. vm_compute. reflexivity. Qed.
Lemma contract_code_available_witness :
  hash0 (code_at_address hash0 with_shop shop) = hash0 [96; 1].
Proof.
  exact (proj1 (proj2 (contract_code_available cfg0 hash0 genesis (lose None no_loss) with_shop genesis_inv shop_run)
           shop shop_info (mkContractInfo (hash0 [96; 1]) alice_evm false) shop_found eq_refl shop_counted)).
Defined.

(** Two contracts with the same code; the first has a storage deposit. *)
Definition branch : H160 := replicate 20 6.
Definition with_branch : Evm (gmap AccountId (Z * Z)) :=
  set_rest {[ alice := (5000, 0); shop := (0, 166); branch := (0, 166) ]}
    (on_contract_initialization cfg0 hash0 branch alice_evm [96; 1] (21000, 166) with_shop).1.
Definition shop_removed : Evm (gmap AccountId (Z * Z)) := (selfdestruct (Signed alice) shop with_branch).1.
Lemma shop_removed_eq : selfdestruct (Signed alice) shop with_branch = (shop_removed, Ok tt).
Proof. vm_compute. reflexivity. Qed.
Lemma branch_there : accounts with_branch !! shop = Some shop_info /\ accounts with_branch !! branch = Some shop_info /\
  code_infos with_branch !! hash0 [96; 1] = Some (mkCodeInfo 2 2) /\ removal_reaps shop with_branch shop_removed = true /\
  existsb (kills (unreserved_rest shop with_branch) branch)
    (reaped (unreserved_rest shop with_branch) (rest shop_removed)) = false.
Proof. split_and!; vm_compute; reflexivity. Qed.
Lemma branch_ne : shop <> branch.
Proof. vm_compute. discriminate. Qed.
Lemma removal_drops_shared_code_witness :
  accounts shop_removed !! branch = Some shop_info /\ code_at_address hash0 with_branch branch = [96; 1] /\
  code_at_address hash0 shop_removed branch = [].
Proof.
  destruct branch_there as (H1 & H2 & H3 & H4 & H5).
  destruct (removal_drops_shared_code hash0 (Signed alice) shop branch 0 (mkContractInfo (hash0 [96; 1]) alice_evm false) None
    shop_info 2 with_branch shop_removed H1 H2 eq_refl branch_ne H3 shop_removed_eq H4 H5) as (Ha & _ & _ & _ & Hcode).
  split; [exact Ha|]. split; [vm_compute; reflexivity|exact Hcode].
Defined.

Definition recoded : Evm (gmap AccountId (Z * Z)) :=
  (set_code cfg0 hash0 (Signed alice) shop [96; 2] with_shop).1.

Lemma recoded_eq : set_code cfg0 hash0 (Signed alice) shop [96; 2] with_shop = (recoded, Ok tt).
Proof. vm_compute. reflexivity. Qed.

(** The new code is stored, and the contract still runs the old one. *)
Lemma set_code_keeps_old_code_witness :
  codes recoded !! hash0 [96; 2] = Some [96; 2] /\ code_at_address hash0 recoded shop = [96; 1].
Proof.
  split; [vm_compute; reflexivity|].
  rewrite (proj2 (set_code_keeps_old_code cfg0 hash0 (Signed alice) shop [96; 2] with_shop recoded
                    recoded_eq)).
  vm_compute. reflexivity.
Defined.

Definition enabled : Evm (gmap AccountId (Z * Z)) :=
  (enable_contract_development cfg0 (Signed alice) genesis).1.

Lemma developer_deposit_round_trip_witness :
  reserved_balance (rest enabled) alice =
  reserved_balance (get_or_create_evm_address (rest genesis) alice).1 alice + DeveloperDeposit cfg0.
Proof.
  refine (proj1 (developer_deposit_round_trip cfg0 alice genesis enabled _ _ _ _)).
  - done.
  - vm_compute. discriminate.
  - vm_compute. discriminate.
  - vm_compute. reflexivity.
Defined.
End EvmPalletWitness.
