(* ===== verification/EvmHandler.v ===== *)
(** * The handler of the EVM interpreter

    Models [src/modules/evm/src/runner/handler.rs]: how a running contract reads and
    writes the chain, pays for gas and storage, and calls or creates other contracts,
    each in a storage transaction of its own.

    Outside the repository: the interpreter ([evm::Runtime]), the gas meter
    ([evm_gasometer::Gasometer], class [Gasometer]), RLP and Keccak, and the
    precompiles (modelled in files of their own and a parameter here).  An execution
    of the interpreter is the tree of its calls to the handler, [Prog]: the parameter
    [evm_run] gives the tree for a code, an input and a context. *)

From stdpp Require Import base gmap list strings.
From Stdlib Require Import ZArith Lia.
From S2P Require Import Prelude Interfaces StorageMeter EvmPallet.

Local Open Scope Z_scope.

(** Storage key size and storage value size. *)
Definition STORAGE_SIZE : Z := 64.

(** [primitives::SYSTEM_CONTRACT_ADDRESS_PREFIX]. *)
Definition SYSTEM_CONTRACT_ADDRESS_PREFIX : bytes := replicate 11 0.

(** The gas meter; an operation that fails may change it. *)
Class Gasometer (G : Type) : Type := {
  gas_new : Z -> G;
  gas : G -> Z;
  total_used_gas : G -> Z;
  refunded_gas : G -> Z;
  record_cost : Z -> G -> G * res ExitError unit;
  record_dynamic_cost : Z -> option (Z * Z) -> G -> G * res ExitError unit;
  record_stipend : Z -> G -> G * res ExitError unit;
  record_refund : Z -> G -> G * res ExitError unit;
  record_deposit : nat -> G -> G * res ExitError unit;
  record_transaction : Z -> G -> G * res ExitError unit;
  gas_fail : G -> G;
}.

Record Context : Type := mkContext { ctx_address : H160; ctx_caller : H160; apparent_value : Z }.
Record Transfer : Type := mkTransfer { source : H160; target : H160; value : Z }.
Inductive CreateScheme : Type :=
| Legacy (caller : H160)
| Create2 (caller : H160) (code_hash salt : H256)
| Fixed (address : H160).

(** The cost of an opcode, as the gas meter's tables give it: a gas cost, for a
    dynamic one with the memory range (offset and length) it touches. *)
Inductive OpCost : Type :=
| StaticCost (cost : Z)
| DynamicCost (cost : res ExitError (Z * option (Z * Z))).

(** The calls of a running contract to its handler.  A continuation gets what the
    handler answers. *)
Inductive Prog : Type :=
| PExit (reason : ExitReason) (out : bytes)
| PBalance (address : H160) (k : Z -> Prog)
| PCodeSize (address : H160) (k : Z -> Prog)
| PCodeHash (address : H160) (k : H256 -> Prog)
| PCode (address : H160) (k : bytes -> Prog)
| PStorage (address : H160) (index : H256) (k : H256 -> Prog)
| PGasLeft (k : Z -> Prog)
| POrigin (k : H160 -> Prog)
| PPreValidate (cost : bool -> OpCost) (k : res ExitError unit -> Prog)
| PSetStorage (address : H160) (index val : H256) (k : res ExitError unit -> Prog)
| PLog (address : H160) (tps : list H256) (d : bytes) (k : res ExitError unit -> Prog)
| PMarkDelete (address tgt : H160) (k : res ExitError unit -> Prog)
| PCreate (caller : H160) (scheme : CreateScheme) (val : Z) (init_code : bytes) (target_gas : option Z)
    (k : ExitReason * option H160 * bytes -> Prog)
| PCall (code_address : H160) (transfer : option Transfer) (input : bytes) (target_gas : option Z)
    (is_static : bool) (context : Context) (k : ExitReason * bytes -> Prog).

Section handler.
Context {X : Type} `{Currency X AccountId} `{TransferAll X AccountId} `{AddressMapping X AccountId}.
Context {G : Type} `{Gasometer G}.
Variable cfg : EvmConfig.
Variable keccak : bytes -> H256.
(** The RLP list of an address and a nonce. *)
Variable rlp_list : H160 -> Z -> bytes.
(** The fields of [evm::Config] the handler reads. *)
Variable call_l64_after_gas : bool.
Variable call_stipend : Z.
Variable evm_run : bytes -> bytes -> Context -> Prog.
(** [T::Precompiles::execute]. *)
Variable precompiles : H160 -> bytes -> option Z -> Context -> Evm X ->
  Evm X * option (res ExitError (ExitSucceed * bytes * Z)).
(** [vicinity.origin], who pays for the storage. *)
Variable origin : H160.

(** ** Storage deposits: [StorageMeterHandlerImpl] *)
Definition impl_reserve_storage (lim : Z) : M (Evm X) DispatchError unit :=
  if lim =? 0 then ret tt
  else fun s =>
    let user := get_account_id (rest s) origin in
    let amount := sat_mul U128_MAX (StorageDepositPerByte cfg) lim in
    on_rest (reserve user amount) s.

Definition impl_unreserve_storage (lim used refunded : Z) : M (Evm X) DispatchError unit :=
  let total := sat_add U32_MAX lim refunded in
  let unused := sat_sub total used in
  if unused =? 0 then ret tt
  else fun s =>
    let user := get_account_id (rest s) origin in
    let amount := sat_mul U128_MAX (StorageDepositPerByte cfg) unused in
    on_rest (fun x => let '(x', _) := unreserve user amount x in (x', Ok tt)) s.

Definition impl_charge_storage (contract : H160) (used refunded : Z) : M (Evm X) DispatchError unit :=
  if used =? refunded then ret tt
  else fun s =>
    let user := get_account_id (rest s) origin in
    let contract_acc := get_account_id (rest s) contract in
    if refunded <? used then
      let amount := sat_mul U128_MAX (StorageDepositPerByte cfg) (used - refunded) in
      (do! on_rest (fun x => let '(x', _) := unreserve user amount x in (x', Ok tt)) in
       let transfer_amount := sat_add U128_MAX amount minimum_balance in
       do! on_rest (transfer user contract_acc transfer_amount AllowDeath) in
       on_rest (reserve contract_acc amount)) s
    else
      let amount := sat_mul U128_MAX (StorageDepositPerByte cfg) (refunded - used) in
      (let! _ := on_rest (repatriate_reserved contract_acc user amount Reserved) in ret tt) s.

#[local] Instance StorageMeterHandlerImpl : StorageMeterHandler (Evm X) := {
  reserve_storage := impl_reserve_storage;
  unreserve_storage := impl_unreserve_storage;
  charge_storage := impl_charge_storage;
  handler_out_of_storage_error := evm_err EvmError.OutOfStorage;
}.

(** ** The state of a running call *)
Record HState : Type := mkHState {
  store : Evm X;
  gasometer : G;
  storage_meter : StorageMeter;
  parents : list StorageMeter;
}.

Definition with_store (s : Evm X) (h : HState) : HState :=
  mkHState s (gasometer h) (storage_meter h) (parents h).
Definition with_gas (g : G) (h : HState) : HState :=
  mkHState (store h) g (storage_meter h) (parents h).
Definition with_meter (m : StorageMeter) (h : HState) : HState :=
  mkHState (store h) (gasometer h) m (parents h).

Definition l64 (gas : Z) : Z := gas - gas / 64.

(** [used_gas]: total used minus the refund, which is at most half of it; the
    refund, an [i64], is cast to [u64]. *)
Definition used_gas (g : G) : Z :=
  total_used_gas g - Z.min (total_used_gas g / 2) (wrap U64_MAX (refunded_gas g)).

(** [Handler::transfer]. *)
Definition handler_transfer (t : Transfer) (s : Evm X) : Evm X * res ExitError unit :=
  let src := get_account_id (rest s) (source t) in
  let tgt := get_account_id (rest s) (target t) in
  let '(s', r) := on_rest (transfer src tgt (Z.min (value t) U128_MAX) AllowDeath) s in
  (s', rmap_err (fun _ => OutOfGas) r).

(** [create_address]. *)
Definition create_address (scheme : CreateScheme) (s : Evm X) : res ExitError H160 :=
  let address :=
    match scheme with
    | Create2 caller ch salt => drop 12 (keccak ([255] ++ caller ++ salt ++ ch))
    | Legacy caller => drop 12 (keccak (rlp_list caller (account_basic s caller).1))
    | Fixed naddress => naddress
    end in
  if starts_with SYSTEM_CONTRACT_ADDRESS_PREFIX address
  then Err (ExitOther (EvmError.name EvmError.ConflictContractAddress))
  else Ok address.

Definition is_undeployed_contract (s : Evm X) (address : H160) : bool :=
  match accounts s !! address with
  | Some (mkAccountInfo _ (Some ci) _) => negb (deployed ci)
  | _ => false
  end.

Definition has_permission_to_call (s : Evm X) (address : H160) : bool :=
  match accounts s !! address with
  | Some ai => bool_decide (is_Some (contract_info ai)) || bool_decide (is_Some (developer_deposit ai))
  | None => false
  end.

(** ** Reads and writes of a running contract *)
Definition handler_storage (s : Evm X) (address : H160) (index : H256) : H256 :=
  default H256_default (account_storages s !! (address, index)).

Inductive StorageChange : Type := NoChange | Added | Removed.

(** What [set_storage] does to the contract's storage, and which change it is. *)
Definition write_storage (address : H160) (index val : H256) (s : Evm X) : Evm X * StorageChange :=
  let is_prev_value_default := bool_decide (handler_storage s address index = H256_default) in
  if bool_decide (val = H256_default) then
    (set_storages (delete (address, index) (account_storages s)) s,
     if is_prev_value_default then NoChange else Removed)
  else
    (set_storages (<[(address, index) := val]> (account_storages s)) s,
     if is_prev_value_default then Added else NoChange).

Definition set_storage (is_static : bool) (address : H160) (index val : H256) (h : HState)
  : HState * res ExitError unit :=
  if is_static then (h, Err OutOfGas)
  else
    let '(s', change) := write_storage address index val (store h) in
    let '(m', r) :=
      match change with
      | Added => charge (storage_meter h) STORAGE_SIZE
      | Removed => refund (storage_meter h) STORAGE_SIZE
      | NoChange => (storage_meter h, Ok tt)
      end in
    (with_meter m' (with_store s' h), rmap_err (fun _ => OutOfGas) r).

Definition handler_log (address : H160) (tps : list H256) (d : bytes) (h : HState)
  : HState * res ExitError unit :=
  (with_store (deposit_event (LogEvent (mkLog address tps d)) (store h)) h, Ok tt).

Definition mark_delete (is_static : bool) (address tgt : H160) (h : HState)
  : HState * res ExitError unit :=
  if is_static then (h, Err OutOfGas)
  else
    let src := get_account_id (rest (store h)) address in
    let dest := get_account_id (rest (store h)) tgt in
    let '(s1, r1) := remove_account address (store h) in
    match r1 with
    | Ok _ =>
        let '(s2, r2) := on_rest (transfer_all src dest) s1 in
        match r2 with
        | Ok _ => (with_store (queue_event (ContractSelfdestructed tgt address) s2) h, Ok tt)
        | Err _ => (with_store s2 h, Err (ExitOther "TransferAllError"))
        | Panic => (with_store s2 h, Panic)
        end
    | Err e => (with_store s1 h, Err e)
    | Panic => (with_store s1 h, Panic)
    end.

Definition pre_validate (is_static : bool) (cost : bool -> OpCost) (h : HState)
  : HState * res ExitError unit :=
  match cost is_static with
  | StaticCost c => let '(g, r) := record_cost c (gasometer h) in (with_gas g h, r)
  | DynamicCost (Ok (c, mem)) =>
      let '(g, r) := record_dynamic_cost c mem (gasometer h) in (with_gas g h, r)
  | DynamicCost (Err e) => (h, Err e)
  | DynamicCost Panic => (h, Panic)
  end.

(** ** Sub-transactions *)

(** How an execution ends: with a result, in a panic, or deeper than the fuel. *)
Inductive Outcome (R : Type) : Type :=
| Done (r : R)
| Panicked
| OutOfFuel.
#[global] Arguments Done {R} r.
#[global] Arguments Panicked {R}.
#[global] Arguments OutOfFuel {R}.

(** [f] runs in the state of the sub-call and on the gas meter of the caller. *)
Definition run_sub_transaction {R : Type} (h : HState) (gas_limit : Z) (contract : H160)
    (f : HState -> G -> HState * G * Outcome (TransactionOutcome R))
  : HState * Outcome (R + DispatchError) :=
  match child_meter contract (store h, storage_meter h :: parents h) with
  | ((s1, _), Ok child) =>
      let sub := mkHState s1 (gas_new gas_limit) child (storage_meter h :: parents h) in
      let '(sub', g', out) := f sub (gasometer h) in
      (* the meters of the caller and of its ancestors, as the sub-call left them *)
      let back s hs := match hs with
                       | m' :: ps' => mkHState s g' m' ps'
                       | [] => mkHState s g' (storage_meter h) (parents h)
                       end in
      match out with
      | Done (Commit r) =>
          match finish (storage_meter sub') (store sub', parents sub') with
          | ((s', hs), Ok _) => (back s' hs, Done (inl r))
          | ((_, hs), Err e) => (back (store h) hs, Done (inr e))
          | ((_, hs), Panic) => (back (store h) hs, Panicked)
          end
      | Done (Rollback r) => (back (store h) (parents sub'), Done (inl r))
      | Panicked => (back (store h) (parents sub'), Panicked)
      | OutOfFuel => (back (store h) (parents sub'), OutOfFuel)
      end
  | ((_, _), Err e) => (h, Done (inr e))
  | ((_, _), Panic) => (h, Panicked)
  end.

(** What a sub-transaction does next with a fallible step: [try_or_rollback!]. *)
Definition try_or_rollback {R : Type} (map_err : ExitError -> R) (sub : HState) (g : G)
    (r : res ExitError unit) (k : HState * G * Outcome (TransactionOutcome R))
  : HState * G * Outcome (TransactionOutcome R) :=
  match r with
  | Ok _ => k
  | Err e => (sub, g, Done (Rollback (map_err e)))
  | Panic => (sub, g, Panicked)
  end.

(** The unused gas and the refunds of a finished sub-call go to the caller's meter. *)
Definition return_gas {R : Type} (map_err : ExitError -> R) (sub : HState) (g : G)
    (k : G -> HState * G * Outcome (TransactionOutcome R))
  : HState * G * Outcome (TransactionOutcome R) :=
  let '(g1, r1) := record_stipend (gas (gasometer sub)) g in
  try_or_rollback map_err sub g1 r1
    (let '(g2, r2) := record_refund (refunded_gas (gasometer sub)) g1 in
     try_or_rollback map_err sub g2 r2 (k g2)).

(** The gas of a sub-call: all but one 64th, or what the contract asks for. *)
Definition sub_gas (g : G) (target_gas : option Z) : Z :=
  let after_gas := if call_l64_after_gas then l64 (gas g) else gas g in
  Z.min (default after_gas target_gas) after_gas.

(** A call that transfers a value gets a stipend. *)
Definition call_gas (g : G) (transfer : option Transfer) (target_gas : option Z) : Z :=
  let target_gas := sub_gas g target_gas in
  match transfer with
  | Some t => if value t =? 0 then target_gas else sat_add U64_MAX target_gas call_stipend
  | None => target_gas
  end.

Section sub_calls.
(** [Handler::execute] of the sub-call. *)
Variable execute : bool -> H160 -> H160 -> Z -> bytes -> bytes -> HState ->
  HState * Outcome (ExitReason * bytes).

(** ** [Handler::create] *)
Abbreviation CreateResult := (ExitReason * option H160 * bytes)%type.
Definition create_err (e : ExitError) : CreateResult := (ErrorExit e, None, []).

(** The deposit, the stipend, the charge and the registration of a new contract. *)
Definition create_finish (s : ExitSucceed) (address : H160) (out : bytes) (sub : HState) (g : G)
  : HState * G * Outcome (TransactionOutcome CreateResult) :=
  let '(gd, rd) := record_deposit (length out) (gasometer sub) in
  let sub := with_gas gd sub in
  try_or_rollback create_err sub g rd
    (let gas_used := gas (gasometer sub) in
     return_gas create_err sub g (fun g =>
       let sub := with_store (inc_nonce address (store sub)) sub in
       let storage_used :=
         sat_add U32_MAX (wrap U32_MAX (Z.of_nat (length out))) (NewContractExtraBytes cfg) in
       let '(m, rm) := charge (storage_meter sub) storage_used in
       let sub := with_meter m sub in
       try_or_rollback create_err sub g (rmap_err (fun _ => OutOfGas) rm)
         (let '(s', ri) := on_contract_initialization cfg keccak address origin out
                             (gas_used, as_i32 storage_used) (store sub) in
          let sub := with_store s' sub in
          try_or_rollback create_err sub g ri
            (sub, g, Done (Commit (Succeed s, Some address, [])))))).

Definition create_body (caller address : H160) (val : Z) (init_code : bytes) (is_static : bool)
    (sub : HState) (g : G) : HState * G * Outcome (TransactionOutcome CreateResult) :=
  let '(s1, rt) := handler_transfer (mkTransfer caller address val) (store sub) in
  let sub := with_store s1 sub in
  try_or_rollback create_err sub g rt
    (let '(sub, r) := execute is_static caller address val init_code [] sub in
     match r with
     | Panicked => (sub, g, Panicked)
     | OutOfFuel => (sub, g, OutOfFuel)
     | Done (Succeed s, out) => create_finish s address out sub g
     | Done (Revert, out) => (sub, g, Done (Rollback (Revert, None, out)))
     | Done (ErrorExit e, _) => (sub, g, Done (Rollback (create_err e)))
     | Done (Fatal e, _) => (sub, gas_fail g, Done (Rollback (Fatal e, None, [])))
     end).

Definition create (is_static : bool) (caller : H160) (scheme : CreateScheme) (val : Z)
    (init_code : bytes) (target_gas : option Z) (h : HState) : HState * Outcome CreateResult :=
  if is_static then (h, Done (create_err OutOfGas))
  else
    let target_gas := sub_gas (gasometer h) target_gas in
    let '(g, rc) := record_cost target_gas (gasometer h) in
    let h := with_gas g h in
    match rc with
    | Panic => (h, Panicked)
    | Err e => (h, Done (create_err e))
    | Ok _ =>
        match create_address scheme (store h) with
        | Panic => (h, Panicked)
        | Err e => (h, Done (create_err e))
        | Ok address =>
            let h := with_store (inc_nonce caller (store h)) h in
            let '(h, r) := run_sub_transaction h target_gas address
                             (create_body caller address val init_code is_static) in
            (h, match r with
                | Done (inl x) => Done x
                | Done (inr e) => Done (create_err (ExitOther (dispatch_error_str e)))
                | Panicked => Panicked
                | OutOfFuel => OutOfFuel
                end)
        end
    end.

(** ** [Handler::call] *)
Abbreviation CallResult := (ExitReason * bytes)%type.
Definition call_err (e : ExitError) : CallResult := (ErrorExit e, []).

Definition call_body (code_address : H160) (code : bytes) (transfer : option Transfer) (input : bytes)
    (target_gas : Z) (is_static : bool) (context : Context) (sub : HState) (g : G)
  : HState * G * Outcome (TransactionOutcome CallResult) :=
  let '(s1, rt) := match transfer with
                   | Some t => handler_transfer t (store sub)
                   | None => (store sub, Ok tt)
                   end in
  let sub := with_store s1 sub in
  try_or_rollback call_err sub g rt
    (let '(g, rc) := record_cost target_gas g in
     try_or_rollback call_err sub g rc
       (let '(s2, rp) := precompiles code_address input (Some target_gas) context (store sub) in
        let sub := with_store s2 sub in
        match rp with
        | Some (Ok (s, out, cost)) =>
            let '(gs, rg) := record_cost cost (gasometer sub) in
            let sub := with_gas gs sub in
            try_or_rollback call_err sub g rg
              (return_gas call_err sub g (fun g => (sub, g, Done (Commit (Succeed s, out)))))
        | Some (Err e) => (sub, g, Done (Rollback (call_err e)))
        | Some Panic => (sub, g, Panicked)
        | None =>
            let '(sub, r) := execute is_static (ctx_caller context) (ctx_address context)
                               (apparent_value context) code input sub in
            match r with
            | Panicked => (sub, g, Panicked)
            | OutOfFuel => (sub, g, OutOfFuel)
            | Done (Succeed s, out) =>
                return_gas call_err sub g (fun g => (sub, g, Done (Commit (Succeed s, out))))
            | Done (Revert, out) => (sub, g, Done (Rollback (Revert, out)))
            | Done (ErrorExit e, _) => (sub, g, Done (Rollback (call_err e)))
            | Done (Fatal e, _) => (sub, gas_fail g, Done (Rollback (Fatal e, [])))
            end
        end)).

Definition call (self_static : bool) (code_address : H160) (transfer : option Transfer)
    (input : bytes) (target_gas : option Z) (is_static : bool) (context : Context) (h : HState)
  : HState * Outcome CallResult :=
  if self_static && bool_decide (is_Some transfer) then (h, Done (call_err OutOfGas))
  else
    let target_gas := call_gas (gasometer h) transfer target_gas in
    let code := code_at_address keccak (store h) code_address in
    let '(h, r) := run_sub_transaction h target_gas (ctx_address context)
                     (call_body code_address code transfer input target_gas
                        (self_static || is_static) context) in
    (h, match r with
        | Done (inl x) => Done x
        | Done (inr e) => Done (call_err (ExitOther (dispatch_error_str e)))
        | Panicked => Panicked
        | OutOfFuel => OutOfFuel
        end).

(** ** The interpreter's calls, answered by the handler *)
Fixpoint interp (st : bool) (p : Prog) (h : HState) : HState * Outcome CallResult :=
  let answer (hr : HState * res ExitError unit) (k : res ExitError unit -> HState -> HState * Outcome CallResult) :=
    match hr with
    | (h', Panic) => (h', Panicked)
    | (h', r) => k r h'
    end in
  match p with
  | PExit reason out => (h, Done (reason, out))
  | PBalance a k => interp st (k (account_basic (store h) a).2) h
  | PCodeSize a k =>
      interp st (k (match codes (store h) !! code_hash_at_address keccak (store h) a with
                    | Some c => Z.of_nat (length c)
                    | None => 0
                    end)) h
  | PCodeHash a k => interp st (k (code_hash_at_address keccak (store h) a)) h
  | PCode a k => interp st (k (code_at_address keccak (store h) a)) h
  | PStorage a i k => interp st (k (handler_storage (store h) a i)) h
  | PGasLeft k => interp st (k (gas (gasometer h))) h
  | POrigin k => interp st (k origin) h
  | PPreValidate c k => answer (pre_validate st c h) (fun r => interp st (k r))
  | PSetStorage a i v k => answer (set_storage st a i v h) (fun r => interp st (k r))
  | PLog a t d k => answer (handler_log a t d h) (fun r => interp st (k r))
  | PMarkDelete a t k => answer (mark_delete st a t h) (fun r => interp st (k r))
  | PCreate c sch v ic tg k =>
      match create st c sch v ic tg h with
      | (h', Done x) => interp st (k x) h'
      | (h', Panicked) => (h', Panicked)
      | (h', OutOfFuel) => (h', OutOfFuel)
      end
  | PCall ca t i tg is_static ctx k =>
      match call st ca t i tg is_static ctx h with
      | (h', Done x) => interp st (k x) h'
      | (h', Panicked) => (h', Panicked)
      | (h', OutOfFuel) => (h', OutOfFuel)
      end
  end.
End sub_calls.

(** ** [Handler::execute]

    The fuel bounds the depth of the calls. *)
Fixpoint execute (fuel : nat) (is_static : bool) (caller address : H160) (val : Z)
    (code input : bytes) (h : HState) : HState * Outcome (ExitReason * bytes) :=
  match fuel with
  | O => (h, OutOfFuel)
  | S fuel' =>
      let context := mkContext address caller val in
      match interp (execute fuel') is_static (evm_run code input context) h with
      | (h', Done (Succeed s, out)) => (h', Done (Succeed s, out))
      | (h', Done (ErrorExit e, _)) => (h', Done (ErrorExit e, []))
      | (h', Done (Revert, out)) => (h', Done (Revert, out))
      | (h', Done (Fatal e, _)) => (with_gas (gas_fail (gasometer h')) h', Done (Fatal e, []))
      | (h', Panicked) => (h', Panicked)
      | (h', OutOfFuel) => (h', OutOfFuel)
      end
  end.
End handler.

(** ** What an execution can do to the chain *)

Section executions.
Context {X : Type} `{Currency X AccountId} `{TransferAll X AccountId} `{AddressMapping X AccountId}.
Context {G : Type} `{Gasometer G}.
Variable cfg : EvmConfig.
Variable keccak : bytes -> H256.
Variable rlp_list : H160 -> Z -> bytes.
Variable call_l64_after_gas : bool.
Variable call_stipend : Z.
Variable evm_run : bytes -> bytes -> Context -> Prog.
Variable precompiles : H160 -> bytes -> option Z -> Context -> Evm X ->
  Evm X * option (res ExitError (ExitSucceed * bytes * Z)).
Variable origin : H160.

Abbreviation HS := (HState (X := X) (G := G)).
Abbreviation run := (execute cfg keccak rlp_list call_l64_after_gas call_stipend evm_run precompiles origin).
#[local] Hint Extern 0 (StorageMeterHandler _) =>
  exact (StorageMeterHandlerImpl cfg origin) : typeclass_instances.

(** A relation on the storage that every single write of a handler respects, those
    of a static handler with [true]. *)
Record write_closed (R : bool -> Evm X -> Evm X -> Prop) : Prop := mkWriteClosed {
  wc_refl st s : R st s s;
  wc_trans st s1 s2 s3 : R st s1 s2 -> R st s2 s3 -> R st s1 s3;
  wc_static s s' : R true s s' -> R false s s';
  wc_log st l s : R st s (deposit_event (LogEvent l) s);
  wc_precompile st a i g c s : R st s (precompiles a i g c s).1;
  wc_rest x s : R false s (set_rest x s);
  wc_storage a i v s : R false s (write_storage a i v s).1;
  wc_remove a s s' r : remove_account a s = (s', r) -> R false s s';
  wc_queue e s : R false s (queue_event e s);
  wc_nonce a s : R false s (inc_nonce a s);
  wc_init a mt code used s s' :
    on_contract_initialization cfg keccak a mt code used s = (s', Ok tt) -> R false s s';
}.

(** The bytes a meter has charged and refunded itself. *)
Definition selfs (m : StorageMeter) : Z * Z := (self_used m, self_refunded m).

(** The storage moves by [R st], the own bytes of the ancestors' meters stay, and so
    do those of the call's meter if [mt]. *)
Definition moves (R : bool -> Evm X -> Evm X -> Prop) (st mt : bool) (h h' : HS) : Prop :=
  R st (store h) (store h') /\ map selfs (parents h') = map selfs (parents h) /\
  (mt = true -> selfs (storage_meter h') = selfs (storage_meter h)).

Lemma dyn_charge_frame ps c u r (s s' : Evm X) ps' o :
  dyn_charge_storage ps c u r s = ((s', ps'), o) ->
  map selfs ps' = map selfs ps /\ s' = set_rest (rest s') s /\ (u = r -> s' = s).
Proof.
  revert ps' s' o; induction ps as [|m ps IH]; intros ps' s' o; simpl.
  - unfold impl_charge_storage. destruct (Z.eqb_spec u r) as [->|Hne].
    + intros [= <- <- <-]. by destruct s.
    + destruct (r <? u); unfold bind; intros Hrun;
        repeat match goal with
        | Hr : context [on_rest ?m ?s0] |- _ =>
            let s1 := fresh "s" in let r1 := fresh "r" in let Hf := fresh "Hf" in
            destruct (on_rest m s0) as [s1 r1] eqn:Hf; apply on_rest_frame in Hf; destruct r1
        end; simplify_eq/=; split_and!; try done;
        repeat match goal with Hf : ?a = set_rest _ _ |- _ => is_var a; rewrite Hf; clear Hf end; done.
  - destruct (result m); [|intros [= <- <- <-]; by destruct s..].
    destruct (dyn_charge_storage ps c u r s) as [[s1 ps1] o1] eqn:E.
    intros [= <- <- <-]. destruct (IH _ _ _ eq_refl) as (Hs & Hf & Hp). simpl. by rewrite Hs.
Qed.

Lemma finish_frame m (s s' : Evm X) ps ps' o :
  finish m (s, ps) = ((s', ps'), o) ->
  map selfs ps' = map selfs ps /\ s' = set_rest (rest s') s /\
  (self_used m = self_refunded m -> ps <> [] -> s' = s).
Proof.
  unfold finish, bind, mlift. destruct (result m); [|intros [= <- <- <-]; by destruct s..].
  destruct (_ <? _); [intros [= <- <- <-]; by destruct s|].
  destruct (dyn_charge_storage _ _ _ _ _) as [[s1 ps1] r1] eqn:E.
  apply dyn_charge_frame in E as (Hs & Hf & Hp).
  destruct r1; [|intros [= <- <- <-]; split_and!; [done|done|by intros He _; apply Hp]..].
  destruct ps1 as [|m1 ps1]; simpl.
  - destruct (impl_unreserve_storage _ _ _ _ _ _) as [s2 r2] eqn:E2. intros [= <- <- <-].
    assert (s2 = set_rest (rest s2) s1) as E3.
    { revert E2. unfold impl_unreserve_storage. case_match; [intros [= <- <-]; by destruct s1|].
      apply on_rest_frame. }
    rewrite E3, Hf. split_and!; [done|done|]. intros _ Hne. destruct ps; [done|discriminate Hs].
  - intros [= <- <- <-]. split_and!; [done|done|by intros He _; apply Hp].
Qed.

Context (R : bool -> Evm X -> Evm X -> Prop) (HR : write_closed R).

Lemma wc_rest_frame s s' : s' = set_rest (rest s') s -> R false s s'.
Proof using HR. intros ->. by apply wc_rest. Qed.

Lemma moves_refl st mt h : moves R st mt h h.
Proof using HR. split_and!; [by apply wc_refl|done..]. Qed.

Lemma moves_gas st mt g h : moves R st mt h (with_gas g h).
Proof using HR. split_and!; [by apply wc_refl|done..]. Qed.

Lemma moves_trans st mt h1 h2 h3 : moves R st mt h1 h2 -> moves R st mt h2 h3 -> moves R st mt h1 h3.
Proof using HR.
  intros (R1 & P1 & S1) (R2 & P2 & S2). split_and!; [by eapply wc_trans|congruence|].
  intros Hm. rewrite S2, S1 by done. done.
Qed.

Lemma moves_store st mt h s : R st (store h) s -> moves R st mt h (with_store s h).
Proof. intros Hs. by split_and!. Qed.

Lemma moves_weaken st mt h h' : moves R mt mt h h' -> (st = true -> mt = true) -> moves R st mt h h'.
Proof using HR.
  intros (Hr & Hp & Hs) Hi. split_and!; [|done..].
  destruct st, mt; try done; [by specialize (Hi eq_refl)|]. by apply wc_static.
Qed.

Lemma handler_transfer_R t s s' r : handler_transfer t s = (s', r) -> R false s s'.
Proof using HR.
  unfold handler_transfer. destruct (on_rest _ s) as [s1 r1] eqn:E. intros [= <- <-].
  by apply on_rest_frame, wc_rest_frame in E.
Qed.

Lemma run_sub_transaction_moves {T} st mt h gl c (f : HS -> G -> HS * G * Outcome (TransactionOutcome T)) h' r :
  (st = true -> mt = true) ->
  (forall sub g sub' g' out, f sub g = (sub', g', out) -> moves R st mt sub sub') ->
  run_sub_transaction cfg origin h gl c f = (h', r) -> moves R st st h h'.
Proof using HR.
  intros Hst Hf. unfold run_sub_transaction.
  destruct (child_meter c _) as [[s1 ps1] [child| |]] eqn:Ec;
    [|intros [= <- <-]; apply moves_refl..].
  simpl in Ec. destruct (result (storage_meter h)); [|discriminate..].
  unfold new, bind in Ec; simpl in Ec. injection Ec as <- <- <-.
  destruct (f _ _) as [[sub' g'] out] eqn:E. apply Hf in E as (Hr & Hp & Hs). simpl in Hr, Hp, Hs.
  destruct (parents sub') as [|m' ps'] eqn:Eps; [discriminate|]. injection Hp as Hm1 Hm2 Hp.
  assert (Hback : forall g, moves R st st h (mkHState (store h) g m' ps')).
  { intros g. split_and!; simpl; [by apply wc_refl|done|]. intros _. unfold selfs. congruence. }
  destruct out as [[x|x]| |]; [|intros [= <- <-]; apply Hback..].
  destruct (finish _ _) as [[s2 hs] o] eqn:Ef. apply finish_frame in Ef as (Hps & Hframe & Hpure).
  destruct hs as [|m2 ps2]; [discriminate|]. injection Hps as Hm3 Hm4 Hps.
  assert (Hsel : selfs m2 = selfs (storage_meter h)) by (unfold selfs; congruence).
  destruct o; intros [= <- <-]; split_and!; simpl; try congruence; try by apply wc_refl.
  destruct st.
  - rewrite Hpure; [done| |done]. specialize (Hs (Hst eq_refl)). unfold selfs in Hs. simpl in Hs. congruence.
  - eapply wc_trans; [done|exact Hr|]. by apply wc_rest_frame.
Qed.

(** A sub-execution that moves the storage of its call by [R]. *)
Definition exec_moves (ex : bool -> H160 -> H160 -> Z -> bytes -> bytes -> HS -> HS * Outcome (ExitReason * bytes)) : Prop :=
  forall st c a v code i h h' r, ex st c a v code i h = (h', r) -> moves R st st h h'.

Lemma try_or_rollback_moves {T} st mt (me : ExitError -> T) h sub g r k sub' g' out :
  moves R st mt h sub -> (forall s1 g1 o1, k = (s1, g1, o1) -> moves R st mt h s1) ->
  try_or_rollback me sub g r k = (sub', g', out) -> moves R st mt h sub'.
Proof.
  intros Hsub Hk. unfold try_or_rollback. destruct r; [by apply Hk|intros [= <- <- <-]; done..].
Qed.

Lemma return_gas_moves {T} st mt (me : ExitError -> T) h sub g k sub' g' out :
  moves R st mt h sub -> (forall g0 s1 g1 o1, k g0 = (s1, g1, o1) -> moves R st mt h s1) ->
  return_gas me sub g k = (sub', g', out) -> moves R st mt h sub'.
Proof.
  intros Hsub Hk. unfold return_gas. destruct (record_stipend _ g) as [g1 r1].
  apply try_or_rollback_moves; [done|]. intros s1 g2 o1. destruct (record_refund _ g1) as [g3 r3].
  apply try_or_rollback_moves; [done|]. apply Hk.
Qed.

Lemma create_finish_moves s a out (sub : HS) g sub' g' o :
  create_finish cfg keccak origin s a out sub g = (sub', g', o) -> moves R false false sub sub'.
Proof using HR.
  unfold create_finish. destruct (record_deposit _ _) as [gd rd].
  apply try_or_rollback_moves; [by apply moves_gas|]. intros s1 g1 o1.
  apply return_gas_moves; [by apply moves_gas|]. intros g0 s2 g2 o2.
  destruct (charge _ _) as [m rm].
  assert (Hn : moves R false false sub (with_meter m (with_store (inc_nonce a (store sub)) (with_gas gd sub)))).
  { split_and!; [by apply wc_nonce|done|discriminate]. }
  apply try_or_rollback_moves; [exact Hn|]. intros s3 g3 o3.
  destruct (on_contract_initialization _ _ _ _ _ _ _) as [s' ri] eqn:Ei.
  unfold try_or_rollback. cbn [store with_meter with_store with_gas] in Ei.
  assert (Hs : R false (inc_nonce a (store sub)) s').
  { destruct ri as [[]|e|]; [by eapply wc_init|..];
      revert Ei; unfold on_contract_initialization; case_match; intros [= <-]; by apply wc_refl. }
  destruct ri; intros [= <- <- <-]; split_and!; try done;
    (eapply (wc_trans R HR); [apply (wc_nonce R HR)|exact Hs]).
Qed.

Lemma create_moves ex st c sch v ic tg h h' r :
  exec_moves ex ->
  create cfg keccak rlp_list call_l64_after_gas origin ex st c sch v ic tg h = (h', r) ->
  moves R st st h h'.
Proof using HR.
  intros Hex. unfold create. destruct st; [intros [= <- <-]; by apply moves_refl|].
  destruct (record_cost _ _) as [g [u|e|]]; [|intros [= <- <-]; by apply moves_gas..].
  destruct (create_address _ _ _ _) as [a|e|]; [|intros [= <- <-]; by apply moves_gas..].
  destruct (run_sub_transaction _ _ _ _ _ _) as [h1 r1] eqn:E. intros [= <- _].
  eapply moves_trans; [apply (moves_store false false h (inc_nonce c (store h))); by apply wc_nonce|].
  eapply (run_sub_transaction_moves false false) in E; [|done|].
  { destruct E as (Hr & Hp & Hs). by split_and!. }
  intros sub gs sub' g' out. unfold create_body.
  destruct (handler_transfer _ _) as [s1 rt] eqn:Et. apply handler_transfer_R in Et.
  apply try_or_rollback_moves; [by apply moves_store|]. intros s2 g2 o2.
  destruct (ex _ _ _ _ _ _ _) as [sub2 r2] eqn:Ex. apply Hex in Ex.
  assert (Hm : moves R false false sub sub2) by (eapply moves_trans; [by apply moves_store|exact Ex]).
  destruct r2 as [[[] o]| |]; intros Hrun; try (injection Hrun as <- <- <-; exact Hm).
  eapply moves_trans; [exact Hm|]. by eapply create_finish_moves.
Qed.

Lemma call_moves ex st ca t i tg iss ctx h h' r :
  exec_moves ex ->
  call cfg keccak call_l64_after_gas call_stipend precompiles origin ex st ca t i tg iss ctx h = (h', r) ->
  moves R st st h h'.
Proof using HR.
  intros Hex. unfold call.
  destruct (st && bool_decide (is_Some t)) eqn:Est; [intros [= <- <-]; by apply moves_refl|].
  destruct (run_sub_transaction _ _ _ _ _ _) as [h1 r1] eqn:E. intros [= <- _].
  eapply (run_sub_transaction_moves st (st || iss)) in E; [exact E|by destruct st|].
  intros sub gs sub' g' out. unfold call_body.
  destruct (match t with Some _ => _ | None => _ end) as [s1 rt] eqn:Et.
  assert (Hm1 : moves R st (st || iss) sub (with_store s1 sub)).
  { apply moves_store. destruct t as [t|]; [|injection Et as <- <-; by apply wc_refl].
    destruct st; [discriminate|]. by eapply handler_transfer_R. }
  apply try_or_rollback_moves; [exact Hm1|]. intros s2 g2 o2.
  destruct (record_cost _ gs) as [g1 rc].
  apply try_or_rollback_moves; [exact Hm1|]. intros s3 g3 o3.
  destruct (precompiles _ _ _ _ _) as [s4 rp] eqn:Ep.
  assert (Hm4 : moves R st (st || iss) sub (with_store s4 (with_store s1 sub))).
  { eapply moves_trans; [exact Hm1|]. apply moves_store.
    match type of Ep with ?l = _ => replace s4 with (l.1) by (by rewrite Ep) end.
    by apply wc_precompile. }
  destruct rp as [[[[sc out1] cost]|e|]|].
  - destruct (record_cost cost _) as [gs' rg].
    apply try_or_rollback_moves; [exact Hm4|]. intros s5 g5 o5.
    apply return_gas_moves; [exact Hm4|]. intros g0 s6 g6 o6 [= <- <- <-]. exact Hm4.
  - intros [= <- <- <-]. exact Hm4.
  - intros [= <- <- <-]. exact Hm4.
  - destruct (ex _ _ _ _ _ _ _) as [sub2 r2] eqn:Ex. apply Hex in Ex.
    assert (Hm5 : moves R st (st || iss) sub sub2).
    { eapply moves_trans; [exact Hm4|]. apply moves_weaken; [exact Ex|by destruct st]. }
    destruct r2 as [[[] o]| |]; intros Hrun; try (injection Hrun as <- <- <-; exact Hm5).
    revert Hrun. apply return_gas_moves; [exact Hm5|]. intros g0 s6 g6 o6 [= <- <- <-]. exact Hm5.
Qed.

Lemma set_storage_moves st a i v (h h' : HS) r : set_storage st a i v h = (h', r) -> moves R st st h h'.
Proof using HR.
  unfold set_storage. destruct st; [intros [= <- <-]; by apply moves_refl|].
  destruct (write_storage _ _ _ _) as [s' ch] eqn:E.
  assert (Hs : R false (store h) s').
  { replace s' with (write_storage a i v (store h)).1 by (by rewrite E). by apply wc_storage. }
  destruct (match ch with NoChange => _ | Added => _ | Removed => _ end) as [m' rm].
  intros [= <- <-]. by split_and!.
Qed.

Lemma mark_delete_moves st a t (h h' : HS) r : mark_delete st a t h = (h', r) -> moves R st st h h'.
Proof using HR.
  unfold mark_delete. destruct st; [intros [= <- <-]; by apply moves_refl|].
  destruct (remove_account _ _) as [s1 r1] eqn:E1. apply (wc_remove R HR) in E1.
  destruct r1; [|intros [= <- <-]; by apply moves_store..].
  destruct (on_rest _ s1) as [s2 r2] eqn:E2. apply on_rest_frame, wc_rest_frame in E2.
  assert (E3 : R false (store h) s2) by (by eapply wc_trans).
  destruct r2; intros [= <- <-]; apply moves_store; try done.
  eapply wc_trans; [done|exact E3|by apply wc_queue].
Qed.

Lemma interp_moves ex st p h h' r :
  exec_moves ex ->
  interp cfg keccak rlp_list call_l64_after_gas call_stipend precompiles origin ex st p h = (h', r) ->
  moves R st st h h'.
Proof using HR.
  intros Hex. revert h. induction p; intros h; cbn [interp]; eauto.
  - intros [= <- <-]. by apply moves_refl.
  - destruct (pre_validate _ _ _) as [h1 r1] eqn:E.
    assert (moves R st st h h1).
    { revert E. unfold pre_validate. destruct (cost st) as [c|[[c mem]|e|]];
        [destruct (record_cost _ _)|destruct (record_dynamic_cost _ _ _)|..];
        intros [= <- <-]; first [by apply moves_gas|by apply moves_refl]. }
    destruct r1; [..|intros [= <- <-]; done]; intros Hrun; eapply moves_trans; eauto.
  - destruct (set_storage _ _ _ _ _) as [h1 r1] eqn:E. apply set_storage_moves in E.
    destruct r1; [..|intros [= <- <-]; done]; intros Hrun; eapply moves_trans; eauto.
  - unfold handler_log. intros Hrun. eapply moves_trans; [|by eauto].
    apply moves_store. by apply wc_log.
  - destruct (mark_delete _ _ _ _) as [h1 r1] eqn:E. apply mark_delete_moves in E.
    destruct r1; [..|intros [= <- <-]; done]; intros Hrun; eapply moves_trans; eauto.
  - destruct (create _ _ _ _ _ _ _ _ _ _ _ _ _) as [h1 r1] eqn:E. apply create_moves in E; [|done].
    destruct r1; [|intros [= <- <-]; done..]; intros Hrun; eapply moves_trans; eauto.
  - destruct (call _ _ _ _ _ _ _ _ _ _ _ _ _ _ _) as [h1 r1] eqn:E. apply call_moves in E; [|done].
    destruct r1; [|intros [= <- <-]; done..]; intros Hrun; eapply moves_trans; eauto.
Qed.

Lemma execute_moves fuel : exec_moves (run fuel).
Proof using HR.
  induction fuel as [|n IH]; intros st c a v code i h h' r; cbn [execute].
  - intros [= <- <-]. by apply moves_refl.
  - destruct (interp _ _ _ _ _ _ _ _ _ _ _) as [h1 r1] eqn:E. apply interp_moves in E; [|done].
    destruct r1 as [[[] o]| |]; intros [= <- <-]; done.
Qed.
End executions.

(** ** Theorems on executions *)
Section theorems.
Context {X : Type} `{Currency X AccountId} `{TransferAll X AccountId} `{AddressMapping X AccountId}.
Context {G : Type} `{Gasometer G}.
Variable cfg : EvmConfig.
Variable keccak : bytes -> H256.
Variable rlp_list : H160 -> Z -> bytes.
Variable call_l64_after_gas : bool.
Variable call_stipend : Z.
Variable evm_run : bytes -> bytes -> Context -> Prog.
Variable precompiles : H160 -> bytes -> option Z -> Context -> Evm X ->
  Evm X * option (res ExitError (ExitSucceed * bytes * Z)).
Variable origin : H160.

Abbreviation HS := (HState (X := X) (G := G)).
Abbreviation run := (execute cfg keccak rlp_list call_l64_after_gas call_stipend evm_run precompiles origin).

(** Only events are added. *)
Definition frozen (s s' : Evm X) : Prop :=
  exists es, s' = set_events (events s ++ es) s.

Lemma frozen_refl s : frozen s s.
Proof. exists []. rewrite app_nil_r. by destruct s. Qed.
Lemma frozen_trans s1 s2 s3 : frozen s1 s2 -> frozen s2 s3 -> frozen s1 s3.
Proof. intros [e1 ->] [e2 ->]. exists (e1 ++ e2). simpl. by rewrite app_assoc. Qed.

Lemma frozen_write_closed :
  (forall a i g c s, frozen s (precompiles a i g c s).1) ->
  write_closed cfg keccak precompiles (fun st s s' => if st then frozen s s' else True).
Proof.
  intros Hp. split; try done.
  - intros [] s; [apply frozen_refl|done].
  - intros [] s1 s2 s3; [apply frozen_trans|done].
  - intros [] l s; [by exists [LogEvent l]|done].
  - intros [] a i g c s; [apply Hp|done].
Qed.

(** C2. A static execution writes nothing: whatever code runs, however deep it
    calls, and whether it ends in a result, an error, a panic or without fuel, the
    accounts, codes, contract storages, balances, queued events and every other
    pallet are unchanged, and the events are those of before plus new ones, provided the
    precompiles write nothing themselves. *)
Theorem static_execution_pure fuel caller address val code input (h h' : HS) r :
  (forall a i g c s, frozen s (precompiles a i g c s).1) ->
  run fuel true caller address val code input h = (h', r) -> frozen (store h) (store h').
Proof.
  intros Hp Hrun.
  by destruct (execute_moves _ _ _ _ _ _ _ _ _ (frozen_write_closed Hp) _ _ _ _ _ _ _ _ _ _ Hrun).
Qed.

(** A sub-transaction keeps what the sub-call did only if it commits. *)
Lemma run_sub_transaction_commits {T} h gl c (f : HS -> G -> HS * G * Outcome (TransactionOutcome T)) h' r :
  run_sub_transaction cfg origin h gl c f = (h', r) ->
  store h' = store h \/
  exists sub g sub' g' t, f sub g = (sub', g', Done (Commit t)) /\ r = Done (inl t).
Proof.
  unfold run_sub_transaction.
  destruct (child_meter c _) as [[s1 ps1] [child| |]] eqn:Ec; [|intros [= <- <-]; by left..].
  destruct (f _ _) as [[sub' g'] [[x|x]| |]] eqn:E; intros Hrun; [|left..].
  - destruct (finish _ _) as [[s2 hs] [u|e|]]; injection Hrun as <- <-;
      [right; by eexists _, _, _, _, _|left; by destruct hs..].
  - injection Hrun as <- <-. by destruct (parents sub').
  - injection Hrun as <- <-. by destruct (parents sub').
  - injection Hrun as <- <-. by destruct (parents sub').
Qed.

Lemma try_or_rollback_Commit {T} (me : ExitError -> T) (sub : HS) g r k sub' g' t :
  try_or_rollback me sub g r k = (sub', g', Done (Commit t)) -> k = (sub', g', Done (Commit t)).
Proof. by destruct r. Qed.

Lemma return_gas_Commit {T} (me : ExitError -> T) (sub : HS) (g : G) k sub' g' t :
  return_gas me sub g k = (sub', g', Done (Commit t)) -> exists g0, k g0 = (sub', g', Done (Commit t)).
Proof.
  unfold return_gas. destruct (record_stipend _ g) as [g1 r1]. intros Hrun%try_or_rollback_Commit.
  revert Hrun. destruct (record_refund _ g1) as [g2 r2]. intros Hrun%try_or_rollback_Commit. by eexists.
Qed.

Lemma call_body_Commit ex ca code t i tg st ctx (sub : HS) g sub' g' reason out :
  call_body precompiles ex ca code t i tg st ctx sub g = (sub', g', Done (Commit (reason, out))) ->
  is_succeed reason = true.
Proof.
  unfold call_body. destruct (match t with Some _ => _ | None => _ end) as [s1 rt].
  intros Hrun%try_or_rollback_Commit. revert Hrun. destruct (record_cost tg g) as [g1 rc].
  intros Hrun%try_or_rollback_Commit. revert Hrun.
  destruct (precompiles _ _ _ _ _) as [s2 [[[[sc out1] cost]|e|]|]]; try discriminate.
  - destruct (record_cost cost _) as [gs rg].
    by intros [g0 [= <- <- <-]]%try_or_rollback_Commit%return_gas_Commit.
  - destruct (ex _ _ _ _ _ _ _) as [sub2 [[[] o]| |]]; try discriminate.
    by intros [g0 [= <- <- <-]]%return_gas_Commit.
Qed.

Lemma create_body_Commit ex c a v ic st (sub : HS) g sub' g' reason oa out :
  create_body cfg keccak origin ex c a v ic st sub g = (sub', g', Done (Commit (reason, oa, out))) ->
  is_succeed reason = true /\ oa = Some a.
Proof.
  unfold create_body. destruct (handler_transfer _ _) as [s1 rt].
  intros Hrun%try_or_rollback_Commit. revert Hrun.
  destruct (ex _ _ _ _ _ _ _) as [sub2 [[[] o]| |]]; try discriminate.
  unfold create_finish. destruct (record_deposit _ _) as [gd rd].
  intros [g0 Hrun]%try_or_rollback_Commit%return_gas_Commit. revert Hrun.
  destruct (charge _ _) as [m rm]. intros Hrun%try_or_rollback_Commit. revert Hrun.
  destruct (on_contract_initialization _ _ _ _ _ _ _) as [s' ri].
  by intros [= <- <- <- <- <-]%try_or_rollback_Commit.
Qed.

(** C9. A contract call or creation that does not succeed is undone: after a
    failed call the storage is the one before it, and after a failed creation it
    differs only in the creator's nonce, or in nothing if the address was refused. *)
Theorem failed_subcall_undone ex st (h : HS) :
  (forall ca t i tg iss ctx h' reason out,
     call cfg keccak call_l64_after_gas call_stipend precompiles origin ex st ca t i tg iss ctx h
       = (h', Done (reason, out)) ->
     is_succeed reason = false -> store h' = store h) /\
  (forall c sch v ic tg h' reason oa out,
     create cfg keccak rlp_list call_l64_after_gas origin ex st c sch v ic tg h
       = (h', Done (reason, oa, out)) ->
     is_succeed reason = false \/ oa = None ->
     store h' = store h \/ store h' = inc_nonce c (store h)).
Proof.
  split.
  - intros ca t i tg iss ctx h' reason out. unfold call.
    destruct (st && _); [by intros [= <- <- <-]|].
    destruct (run_sub_transaction _ _ _ _ _ _) as [h1 r1] eqn:E.
    apply run_sub_transaction_commits in E as [Hs|(sub & g & sub' & g' & [re o] & Hf & ->)].
    + by intros [= <- _].
    + apply call_body_Commit in Hf. intros [= <- <- <-]. congruence.
  - intros c sch v ic tg h' reason oa out. unfold create. destruct st; [intros [= <- <- <- <-]; by left|].
    destruct (record_cost _ _) as [g [u|e|]]; [|intros [= <- <- <- <-]; by left|discriminate].
    destruct (create_address _ _ _ _) as [a|e|]; [|intros [= <- <- <- <-]; by left|discriminate].
    destruct (run_sub_transaction _ _ _ _ _ _) as [h1 r1] eqn:E.
    apply run_sub_transaction_commits in E as [Hs|(sub & gs & sub' & g' & [[re oa'] o] & Hf & ->)].
    + intros [= <- _] _. by right.
    + apply create_body_Commit in Hf as [Hf ->]. intros [= <- <- <- <-] [Hx|Hx]; congruence.
Qed.
End theorems.

(** ** Metering of the contract storage *)
Section metering.
Context {X G : Type}.
Abbreviation HS := (HState (X := X) (G := G)).

(** No slot holds the zero value, which stands for an absent one. *)
Definition no_zero (s : Evm X) : Prop :=
  forall k v, account_storages s !! k = Some v -> v <> H256_default.
Definition slots (s : Evm X) : Z := Z.of_nat (size (account_storages s)).
(** Net bytes on a meter. *)
Definition net_used (m : StorageMeter) : Z := total_used m - total_refunded m.

(** A sequence of storage writes of one call; it stops at the first error. *)
Fixpoint set_storage_all (ws : list (H160 * H256 * H256)) (h : HS) : HS * res ExitError unit :=
  match ws with
  | [] => (h, Ok tt)
  | (a, i, v) :: ws' =>
      match set_storage false a i v h with
      | (h', Ok _) => set_storage_all ws' h'
      | (h', r) => (h', r)
      end
  end.

Lemma no_zero_present (s : Evm X) a i :
  no_zero s -> account_storages s !! (a, i) = None <-> handler_storage s a i = H256_default.
Proof.
  intros Hz. unfold handler_storage. destruct (account_storages s !! (a, i)) as [v|] eqn:E; simpl; [|done].
  split; [done|]. intros ->. by apply Hz in E.
Qed.

Definition change_bytes (c : StorageChange) : Z :=
  match c with NoChange => 0 | Added => STORAGE_SIZE | Removed => - STORAGE_SIZE end.

Lemma write_storage_spec a i v (s s' : Evm X) ch :
  no_zero s -> write_storage a i v s = (s', ch) ->
  no_zero s' /\ STORAGE_SIZE * (slots s' - slots s) = change_bytes ch /\
  handler_storage s' a i = v.
Proof.
  intros Hz. unfold write_storage. pose proof (no_zero_present s a i Hz) as Hn.
  destruct (bool_decide (v = H256_default)) eqn:Ev; run_inv; intros [= <- <-].
  - split_and!.
    + intros k w. simpl. rewrite lookup_delete_Some. intros [_ Hk]. by apply Hz in Hk.
    + unfold slots; simpl. case_bool_decide as Hd.
      * rewrite delete_id by (by apply Hn). simpl. lia.
      * assert (is_Some (account_storages s !! (a, i))) as [w Hw] by (apply not_eq_None_Some; tauto).
        rewrite <- (insert_delete_id _ _ _ Hw) at 2.
        rewrite map_size_insert_None by apply lookup_delete_eq. simpl. unfold STORAGE_SIZE. lia.
    + unfold handler_storage; simpl. rewrite lookup_delete_eq. simpl. done.
  - split_and!.
    + intros k w. simpl. rewrite lookup_insert_Some. intros [[_ <-]|[_ Hk]]; [done|by apply Hz in Hk].
    + unfold slots; simpl. case_bool_decide as Hd.
      * rewrite map_size_insert_None by (by apply Hn). simpl. unfold STORAGE_SIZE. lia.
      * assert (is_Some (account_storages s !! (a, i))) as [w Hw] by (apply not_eq_None_Some; tauto).
        rewrite map_size_insert_Some by done. simpl. lia.
    + unfold handler_storage; simpl. by rewrite lookup_insert_eq.
Qed.

(** One write: the meter moves by the bytes of the slot that appears or disappears. *)
Lemma set_storage_spec a i v (h h' : HS) :
  no_zero (store h) -> set_storage false a i v h = (h', Ok tt) ->
  in_u U32_MAX (total_used (storage_meter h)) -> in_u U32_MAX (total_refunded (storage_meter h)) ->
  total_used (storage_meter h) + STORAGE_SIZE <= U32_MAX ->
  total_refunded (storage_meter h) + STORAGE_SIZE <= U32_MAX ->
  no_zero (store h') /\
  net_used (storage_meter h') - net_used (storage_meter h) = STORAGE_SIZE * (slots (store h') - slots (store h)) /\
  total_used (storage_meter h) <= total_used (storage_meter h') <= total_used (storage_meter h) + STORAGE_SIZE /\
  total_refunded (storage_meter h) <= total_refunded (storage_meter h') <= total_refunded (storage_meter h) + STORAGE_SIZE /\
  handler_storage (store h') a i = v.
Proof.
  intros Hz. unfold set_storage. destruct (write_storage a i v (store h)) as [s' ch] eqn:E.
  apply write_storage_spec in E as (Hz' & Hsl & Hv); [|done].
  destruct ch; unfold charge, refund, handle; destruct (result (storage_meter h));
    intros [= <-] Hu Hr Hmu Hmr; simpl; rewrite Hsl; unfold net_used; simpl;
    split_and!; try done; unfold STORAGE_SIZE in *; uints.
Qed.

(** Storage is metered slot by slot: when a call's writes all succeed, the
    bytes charged less the bytes refunded are 64 for each storage slot that came
    to exist less 64 for each that ceased to, no slot ever holds the zero value,
    and a slot reads back what was written to it last. *)
Theorem storage_bytes_accounted ws (h h' : HS) :
  no_zero (store h) ->
  in_u U32_MAX (total_used (storage_meter h)) -> in_u U32_MAX (total_refunded (storage_meter h)) ->
  total_used (storage_meter h) + STORAGE_SIZE * Z.of_nat (length ws) <= U32_MAX ->
  total_refunded (storage_meter h) + STORAGE_SIZE * Z.of_nat (length ws) <= U32_MAX ->
  set_storage_all ws h = (h', Ok tt) ->
  no_zero (store h') /\
  net_used (storage_meter h') - net_used (storage_meter h) = STORAGE_SIZE * (slots (store h') - slots (store h)) /\
  (forall ws' a i v, ws = ws' ++ [(a, i, v)] -> handler_storage (store h') a i = v).
Proof.
  revert h. induction ws as [|[[a i] v] ws IH]; intros h Hz Hu Hr Hbu Hbr; cbn [set_storage_all].
  - intros [= <-]. split_and!; [done|lia|]. by intros [|] ? ? ?.
  - destruct (set_storage false a i v h) as [h1 [[]|e|]] eqn:E; [|discriminate..]. intros Hrun.
    cbn [length] in *. rewrite Nat2Z.inj_succ in *.
    apply set_storage_spec in E as (Hz1 & Hn1 & Hu1 & Hr1 & Hv1); [|unfold STORAGE_SIZE in *; uints || done..].
    destruct (IH h1) as (Hz2 & Hn2 & Hv2); [unfold STORAGE_SIZE in *; uints || done..|].
    split_and!; [done|lia|]. intros [|w ws'] a' i' v' Hws; simplify_eq/=.
    + done.
    + by eapply Hv2.
Qed.
End metering.

(** ** Witnesses *)
Module HandlerWitness.
Import SimpleLedger EvmPalletWitness.
(** Gas left, as a number. *)
#[export] Instance toy_gas : Gasometer Z := {
  gas_new g := g;
  gas g := g;
  total_used_gas _ := 0;
  refunded_gas _ := 0;
  record_cost c g := if c <=? g then (g - c, Ok tt) else (g, Err OutOfGas);
  record_dynamic_cost c _ g := if c <=? g then (g - c, Ok tt) else (g, Err OutOfGas);
  record_stipend c g := (g + c, Ok tt);
  record_refund _ g := (g, Ok tt);
  record_deposit _ g := (g, Ok tt);
  record_transaction c g := if c <=? g then (g - c, Ok tt) else (g, Err OutOfGas);
  gas_fail _ := 0;
}.
Abbreviation W := (gmap AccountId (Z * Z)).
Definition one : H256 := replicate 31 0 ++ [1].
Definition no_precompile (a : H160) (i : bytes) (g : option Z) (c : Context) (s : Evm W)
  : Evm W * option (res ExitError (ExitSucceed * bytes * Z)) := (s, None).
(** Code [96; 1] logs, tries to write its storage, and calls the code [7] of
    another contract; every other code returns at once. *)
Definition toy_run (code input : bytes) (ctx : Context) : Prog :=
  if bool_decide (code = [96; 1]) then
    PLog (ctx_address ctx) [] [1] (fun _ =>
      PSetStorage (ctx_address ctx) one one (fun _ =>
        PCall (replicate 20 6) None [] None false (mkContext (replicate 20 6) (ctx_address ctx) 0)
          (fun r => PExit r.1 r.2)))
  else PExit (Succeed Returned) [7].
Definition rlp0 (a : H160) (n : Z) : bytes := a ++ [n].
Definition run0 := execute (X := W) (G := Z) cfg0 hash0 rlp0 true 2300 toy_run no_precompile alice_evm.
Definition h0 : HState (X := W) (G := Z) :=
  mkHState with_shop 100000 (mkMeter shop 1000 0 0 0 0 (Ok tt)) [].

Lemma no_precompile_frozen a i g c s : frozen s (no_precompile a i g c s).1.
Proof. apply frozen_refl. Qed.

Lemma static_run_eq :
  run0 3 true alice_evm shop 0 [96; 1] [] h0 =
  ((run0 3 true alice_evm shop 0 [96; 1] [] h0).1, Done (Succeed Returned, [7])).
Proof. vm_compute. reflexivity. Qed.

(** The static call runs, logs, and stores nothing. *)
Lemma static_execution_pure_witness :
  frozen with_shop (store (run0 3 true alice_evm shop 0 [96; 1] [] h0).1).
Proof.
  exact (static_execution_pure _ _ _ _ _ _ _ _ _ _ _ _ _ _ h0 _ _ no_precompile_frozen static_run_eq).
Defined.

Definition two_writes : list (H160 * H256 * H256) :=
  [(shop, one, one); (shop, H256_default, one); (shop, one, H256_default)].
Lemma two_writes_eq : set_storage_all two_writes h0 = ((set_storage_all two_writes h0).1, Ok tt).
Proof. vm_compute. reflexivity. Qed.
Lemma h0_no_zero : no_zero (store h0).
Proof. intros k v. vm_compute. discriminate. Qed.

Lemma storage_bytes_accounted_witness :
  net_used (storage_meter (set_storage_all two_writes h0).1) - 0 = 64 * (1 - 0).
Proof.
  refine (proj1 (proj2 (storage_bytes_accounted two_writes h0 _ h0_no_zero _ _ _ _ two_writes_eq)));
    vm_compute; try split; discriminate.
Defined.
End HandlerWitness.
