(* ===== verification/StorageDeposits.v ===== *)
(** * The storage deposits of a call

    The meters of [StorageMeter.v] over the handler that the runtime gives them,
    [StorageMeterHandlerImpl] of [src/modules/evm/src/runner/handler.rs]: deposits are
    reserved on the account of the origin, moved to the accounts of the contracts together
    with an existential deposit when bytes are charged, moved back into the origin's reserve
    when bytes are refunded, and the rest is released.

    The balances ([pallet_balances]) are not part of the repository; the laws below are what
    its documentation says of operations on accounts that have the funds. *)

From stdpp Require Import base gmap list strings.
From Stdlib Require Import ZArith Lia.
From S2P Require Import Prelude Interfaces StorageMeter EvmPallet EvmHandler.

Local Open Scope Z_scope.

(** [v] for the account [a] alone. *)
Definition for_ (a : AccountId) (v : Z) (w : AccountId) : Z := if bool_decide (w = a) then v else 0.

(** What can be spent and what is reserved change by these amounts, and accounts keep their
    addresses. *)
Definition shifts {X} `{Currency X AccountId} `{AddressMapping X AccountId} (spendable : X -> AccountId -> Z)
    (x x' : X) (ds dr : AccountId -> Z) : Prop :=
  (forall w, spendable x' w = spendable x w + ds w /\ reserved_balance x' w = reserved_balance x w + dr w) /\
  (forall e, get_account_id x' e = get_account_id x e).

(** [spendable] is the free balance less what is frozen, or less the existential deposit if
    that is more: an operation within it succeeds, and no account dies. *)
Class DepositLaws (X : Type) `{Currency X AccountId} `{AddressMapping X AccountId}
    (spendable : X -> AccountId -> Z) : Prop := {
  dl_minimum : 0 <= minimum_balance (X := X) (A := AccountId);
  dl_reserve a v x : 0 <= v <= spendable x a ->
    exists x', reserve a v x = (x', Ok tt) /\ shifts spendable x x' (for_ a (- v)) (for_ a v);
  dl_unreserve a v x : 0 <= v <= reserved_balance x a ->
    exists x', unreserve a v x = (x', 0) /\ shifts spendable x x' (for_ a v) (for_ a (- v));
  dl_transfer a b v er x : a <> b -> minimum_balance (X := X) (A := AccountId) <= v <= spendable x a ->
    exists x', transfer a b v er x = (x', Ok tt) /\
      shifts spendable x x' (fun w => for_ a (- v) w + for_ b v w) (fun _ => 0);
  dl_repatriate a b v x : a <> b -> 0 <= v <= reserved_balance x a -> 0 <= spendable x a -> 0 <= spendable x b ->
    exists x', repatriate_reserved a b v Reserved x = (x', Ok 0) /\
      shifts spendable x x' (fun _ => 0) (fun w => for_ a (- v) w + for_ b v w);
}.

Section deposits.
Context {X : Type} `{Currency X AccountId} `{TransferAll X AccountId} `{AddressMapping X AccountId}.
Context {spendable : X -> AccountId -> Z} {laws : DepositLaws X spendable}.
Variable cfg : EvmConfig.
Variable origin : H160.
#[local] Instance runtime_handler : StorageMeterHandler (Evm X) := StorageMeterHandlerImpl cfg origin.
Abbreviation ed := (minimum_balance (X := X) (A := AccountId)).
Abbreviation per_byte := (StorageDepositPerByte cfg).

(** The accounts of the addresses during the call, and the contracts that take part: their
    accounts are neither the origin's nor shared. *)
Variable acc : H160 -> AccountId.
Variable known : H160 -> Prop.
Hypothesis known_user : forall c, known c -> acc c <> acc origin.
Hypothesis known_inj : forall c d, known c -> known d -> acc c = acc d -> c = d.
(** The deposit of any number of bytes is a balance. *)
Hypothesis deposit_fits : 0 <= per_byte /\ per_byte * U32_MAX + ed <= U128_MAX.

(** Addresses have these accounts, and nothing is frozen on the contracts' accounts. *)
Definition placed (s : Evm X) : Prop :=
  (forall e, get_account_id (rest s) e = acc e) /\ (forall c, known c -> - ed <= spendable (rest s) (acc c)).
Definition deposit_books : Books (Evm X) := {|
  bk_wf := placed;
  bk_known := known;
  bk_reserved s := reserved_balance (rest s) (acc origin);
  bk_funds s := spendable (rest s) (acc origin);
  bk_held s c := reserved_balance (rest s) (acc c);
  bk_alive s c := 0 <= spendable (rest s) (acc c);
  bk_unit := per_byte;
  bk_fee := ed;
|}.

Lemma deposit_exact n : 0 <= n <= U32_MAX ->
  sat_mul U128_MAX per_byte n = per_byte * n /\ sat_add U128_MAX (per_byte * n) ed = per_byte * n + ed /\ 0 <= per_byte * n.
Proof using deposit_fits laws.
  intros Hn. destruct deposit_fits as [Hb Hmax]. pose proof (dl_minimum (spendable := spendable)) as Hm.
  assert (per_byte * n <= per_byte * U32_MAX) by nia. unfold sat_mul, sat_add. split_and!; nia.
Qed.
Lemma for_same a v : for_ a v a = v.
Proof. unfold for_. by rewrite bool_decide_eq_true_2. Qed.
Lemma for_ne a v w : w <> a -> for_ a v w = 0.
Proof. intros. unfold for_. by rewrite bool_decide_eq_false_2. Qed.

(** From a change of the balances to an entry of the books. *)
Lemma books_entry (s : Evm X) x' ds dr held : placed s -> shifts spendable (rest s) x' ds dr ->
  (forall c, known c -> 0 <= ds (acc c)) -> (forall c, known c -> dr (acc c) = held c) ->
  entry deposit_books s (set_rest x' s) (dr (acc origin)) (ds (acc origin)) held.
Proof.
  intros [Hp1 Hp2] [Hs Hm] Hds Hdr. split; cbn.
  - split; [intros e; cbn; by rewrite Hm|]. intros c Hc. cbn. rewrite (proj1 (Hs _)). specialize (Hp2 c Hc). specialize (Hds c Hc). lia.
  - apply Hs.
  - apply Hs.
  - intros c Hc. rewrite (proj2 (Hs _)). by rewrite Hdr.
  - intros c Hc Ha. rewrite (proj1 (Hs _)). specialize (Hds c Hc). lia.
Qed.
Lemma shifts_trans x1 x2 x3 ds dr ds' dr' : shifts spendable x1 x2 ds dr -> shifts spendable x2 x3 ds' dr' ->
  shifts spendable x1 x3 (fun w => ds w + ds' w) (fun w => dr w + dr' w).
Proof.
  intros [K1 K2] [K3 K4]. split; [|intros e; by rewrite K4].
  intros w. destruct (K1 w), (K3 w). split; lia.
Qed.
Lemma entry_change (s s' : Evm X) r r' f f' h h' : entry deposit_books s s' r f h ->
  r = r' -> f = f' -> (forall c, known c -> h c = h' c) -> entry deposit_books s s' r' f' h'.
Proof. intros [? ? ? Hh ?] <- <- He. split; try done. intros c Hc. by rewrite <- He, Hh. Qed.

Lemma reserve_kept l (s : Evm X) : placed s -> 0 <= l <= U32_MAX -> per_byte * l <= spendable (rest s) (acc origin) ->
  exists s', impl_reserve_storage cfg origin l s = (s', Ok tt) /\
    entry deposit_books s s' (per_byte * l) (- (per_byte * l)) nothing.
Proof using laws known_user deposit_fits.
  intros Hp Hl Hf. unfold impl_reserve_storage. destruct (Z.eqb_spec l 0) as [->|Hne].
  { exists s. split; [done|]. eapply entry_change; [by apply entry_refl|lia|lia|done]. }
  destruct (deposit_exact l Hl) as (-> & _ & Hd). rewrite (proj1 Hp). unfold on_rest.
  destruct (dl_reserve (acc origin) (per_byte * l) (rest s)) as (x' & -> & Hs); [lia|].
  exists (set_rest x' s). split; [done|].
  eapply entry_change; [apply (books_entry s x' _ _ nothing Hp Hs)|by rewrite for_same|by rewrite for_same|done].
  - intros c Hc. rewrite for_ne by auto. done.
  - intros c Hc. rewrite for_ne by auto. done.
Qed.
Lemma unreserve_kept l u r n (s : Evm X) : placed s -> sat_sub (sat_add U32_MAX l r) u = n ->
  0 <= n <= U32_MAX -> per_byte * n <= reserved_balance (rest s) (acc origin) ->
  exists s', impl_unreserve_storage cfg origin l u r s = (s', Ok tt) /\
    entry deposit_books s s' (- (per_byte * n)) (per_byte * n) nothing.
Proof using laws known_user deposit_fits.
  intros Hp Hn Hb Hr. unfold impl_unreserve_storage. rewrite Hn. destruct (Z.eqb_spec n 0) as [->|Hne].
  { exists s. split; [done|]. eapply entry_change; [by apply entry_refl|lia|lia|done]. }
  destruct (deposit_exact n Hb) as (-> & _ & Hd). rewrite (proj1 Hp). unfold on_rest.
  destruct (dl_unreserve (acc origin) (per_byte * n) (rest s)) as (x' & -> & Hs); [lia|].
  exists (set_rest x' s). split; [done|].
  eapply entry_change; [apply (books_entry s x' _ _ nothing Hp Hs)|by rewrite for_same|by rewrite for_same|done].
  - intros c Hc. rewrite for_ne by auto. done.
  - intros c Hc. rewrite for_ne by auto. done.
Qed.
(** Bytes used: the deposit leaves the origin's reserve for the contract's, and an
    existential deposit goes with it. *)
Lemma charge_used_kept c n (s : Evm X) : placed s -> known c -> 0 < n <= U32_MAX ->
  per_byte * n <= reserved_balance (rest s) (acc origin) -> ed <= spendable (rest s) (acc origin) ->
  exists x', (do! on_rest (fun x => let '(x', _) := unreserve (acc origin) (per_byte * n) x in (x', Ok tt)) in
      do! on_rest (transfer (acc origin) (acc c) (per_byte * n + ed) AllowDeath) in
      on_rest (reserve (acc c) (per_byte * n))) s = (set_rest x' s, Ok (E := DispatchError) tt) /\
    entry deposit_books s (set_rest x' s) (- (per_byte * n)) (- ed) (only c (per_byte * n)).
Proof using laws known_user known_inj deposit_fits.
  intros Hp Hk Hn Hr Hf. destruct (deposit_exact n ltac:(lia)) as (_ & _ & Hd).
  pose proof (dl_minimum (spendable := spendable)) as Hm. pose proof (known_user c Hk) as Hne. pose proof (proj2 Hp c Hk) as Hc.
  destruct (dl_unreserve (acc origin) (per_byte * n) (rest s)) as (x1 & E1 & S1); [lia|].
  destruct (dl_transfer (acc origin) (acc c) (per_byte * n + ed) AllowDeath x1) as (x2 & E2 & S2); [done| |].
  { rewrite (proj1 (proj1 S1 _)), for_same. lia. }
  pose proof (shifts_trans _ _ _ _ _ _ _ S1 S2) as S12.
  destruct (dl_reserve (acc c) (per_byte * n) x2) as (x3 & E3 & S3).
  { rewrite (proj1 (proj1 S12 _)). rewrite !for_ne, for_same by done. lia. }
  pose proof (shifts_trans _ _ _ _ _ _ _ S12 S3) as S. exists x3. split.
  { unfold bind, on_rest. rewrite E1. cbn [rest set_rest]. rewrite E2. cbn [rest set_rest]. rewrite E3. done. }
  eapply entry_change; [apply (books_entry s x3 _ _ (only c (per_byte * n)) Hp S)|..|done].
  - intros d Hdk. rewrite !(for_ne (acc origin)) by auto. destruct (decide (d = c)) as [->|Hdc].
    + rewrite !for_same. lia.
    + rewrite !for_ne by (intros He; apply Hdc; by apply known_inj). lia.
  - intros d Hdk. rewrite !(for_ne (acc origin)) by auto. unfold only. case_bool_decide as Hdc.
    + subst d. rewrite !for_same. lia.
    + rewrite !for_ne by (intros He; apply Hdc; by apply known_inj). lia.
  - rewrite !for_same, !for_ne by auto. lia.
  - rewrite !for_same, !for_ne by auto. lia.
Qed.
(** Bytes refunded: the deposit goes from the contract's reserve to the origin's. *)
Lemma charge_refunded_kept c n (s : Evm X) : placed s -> known c -> 0 < n <= U32_MAX ->
  per_byte * n <= reserved_balance (rest s) (acc c) -> 0 <= spendable (rest s) (acc c) -> 0 <= spendable (rest s) (acc origin) ->
  exists x', (let! _ := on_rest (repatriate_reserved (acc c) (acc origin) (per_byte * n) Reserved) in ret tt) s =
      (set_rest x' s, Ok (E := DispatchError) tt) /\
    entry deposit_books s (set_rest x' s) (per_byte * n) 0 (only c (- (per_byte * n))).
Proof using laws known_user known_inj deposit_fits.
  intros Hp Hk Hn Hr Ha Hf. destruct (deposit_exact n ltac:(lia)) as (_ & _ & Hd). pose proof (known_user c Hk) as Hne.
  destruct (dl_repatriate (acc c) (acc origin) (per_byte * n) (rest s)) as (x' & E & S); [done|lia|done|done|].
  exists x'. split; [unfold bind, on_rest; by rewrite E|].
  eapply entry_change; [apply (books_entry s x' _ _ (only c (- (per_byte * n))) Hp S)|..|done].
  - done.
  - intros d Hdk. rewrite !(for_ne (acc origin)) by auto. unfold only. case_bool_decide as Hdc.
    + subst d. rewrite for_same. lia.
    + rewrite !for_ne by (intros He; apply Hdc; by apply known_inj). lia.
  - cbv beta. rewrite for_same, for_ne by auto. lia.
  - done.
Qed.
(** The runtime's handler keeps these books. *)
#[local] Instance deposits_accounted : AccountingHandler (Evm X) deposit_books.
Proof using laws known_user known_inj deposit_fits.
  split.
  - apply deposit_fits.
  - apply (dl_minimum (spendable := spendable)).
  - exact reserve_kept.
  - exact unreserve_kept.
  - intros c u r s Hp Hk Hu Hr Hused Href. cbn [bk_unit bk_fee bk_reserved bk_funds bk_held bk_alive deposit_books] in *.
    change (exists s', impl_charge_storage cfg origin c u r s = (s', Ok tt) /\
      entry deposit_books s s' (- (per_byte * (u - r))) (- (if r <? u then ed else 0)) (only c (per_byte * (u - r)))).
    unfold impl_charge_storage. destruct (Z.eqb_spec u r) as [->|Hne].
    { exists s. split; [done|]. rewrite Z.ltb_irrefl.
      eapply entry_change; [by apply entry_refl|lia|lia|]. intros d _. unfold nothing, only. case_bool_decide; lia. }
    rewrite !(proj1 Hp). destruct (Z.ltb_spec r u) as [Hlt|Hge].
    + destruct (deposit_exact (u - r)) as (-> & -> & _); [lia|]. destruct (Hused Hlt) as [H1' H2'].
      destruct (charge_used_kept c (u - r) s Hp Hk) as (x' & Hrun & He); [lia|done|done|]. exists (set_rest x' s). by split.
    + destruct (deposit_exact (r - u)) as (-> & _ & _); [lia|]. destruct (Href ltac:(lia)) as (H1' & H2' & H3').
      destruct (charge_refunded_kept c (r - u) s Hp Hk) as (x' & Hrun & He); [lia|done|done|done|].
      exists (set_rest x' s). split; [done|]. eapply entry_change; [exact He|lia|lia|]. intros d _. unfold only. case_bool_decide; lia.
Qed.


(** C35. A deposit that does not come back.  When a sub-call is rolled back after a sub-call
    of its own has committed [n] bytes, the outermost call succeeds and reports [n] bytes
    used although nothing was stored for them, and the deposit of [n] bytes stays reserved on
    the origin's account: the rollback undoes the charge in the storage, but not in the
    counters of the calls above. *)
Theorem rolled_back_call_keeps_deposit c b d lim n s :
  0 <= n <= lim -> lim <= U32_MAX -> known c -> known d -> placed s -> 0 <= reserved_balance (rest s) (acc origin) ->
  per_byte * lim + ed <= spendable (rest s) (acc origin) ->
  exists s' m, run_meter c lim [OpChild b [OpChild d [OpCharge n] true] false] s = (s', Ok m) /\
    total_used m = n /\
    reserved_balance (rest s') (acc origin) = reserved_balance (rest s) (acc origin) + per_byte * n.
Proof using laws known_user known_inj deposit_fits.
  intros Hn Hl Hc Hd Hp Hr Hf. exact (reverted_subcall_leaks_reservation (B := deposit_books) c b d lim n s Hn Hl Hc Hd Hp Hr Hf).
Qed.
End deposits.

(** ** Witness *)
Module DepositsWitness.
Import EvmPalletWitness.
Abbreviation W := (gmap AccountId (Z * Z)).
Abbreviation bal x a := (SimpleLedger.balance_of (A := AccountId) x a).
Abbreviation put := (SimpleLedger.put (A := AccountId)).
Definition low : DispatchError := Module "InsufficientBalance".
(** Free and reserved balances, with an existential deposit of 5. *)
Definition spendable5 (x : W) (a : AccountId) : Z := (bal x a).1 - 5.
#[export] Instance currency5 : Currency W AccountId := {
  free_balance x a := (bal x a).1;
  reserved_balance x a := (bal x a).2;
  total_issuance x := map_sum (fun b => b.1 + b.2) x;
  minimum_balance := 5;
  transfer a b v _ := fun x =>
    if v <=? spendable5 x a then
      let x1 := put a ((bal x a).1 - v, (bal x a).2) x in (put b ((bal x1 b).1 + v, (bal x1 b).2) x1, Ok tt)
    else (x, Err low);
  withdraw a v _ := fun x =>
    if v <=? spendable5 x a then (put a ((bal x a).1 - v, (bal x a).2) x, Ok tt) else (x, Err low);
  reserve a v := fun x =>
    if v <=? spendable5 x a then (put a ((bal x a).1 - v, (bal x a).2 + v) x, Ok tt) else (x, Err low);
  unreserve a v := fun x =>
    let m := Z.min v (bal x a).2 in (put a ((bal x a).1 + m, (bal x a).2 - m) x, v - m);
  repatriate_reserved a b v st := fun x =>
    let m := Z.min v (bal x a).2 in
    let x1 := put a ((bal x a).1, (bal x a).2 - m) x in
    (match st with
     | Free => put b ((bal x1 b).1 + m, (bal x1 b).2) x1
     | Reserved => put b ((bal x1 b).1, (bal x1 b).2 + m) x1
     end, Ok (v - m));
  deposit_into_existing a v := fun x => (put a ((bal x a).1 + v, (bal x a).2) x, Ok tt);
  deposit_creating a v := fun x => put a ((bal x a).1 + v, (bal x a).2) x;
}.
#[export] Instance transfer_all5 : TransferAll W AccountId := {
  transfer_all a b := fun x => transfer a b (free_balance x a) AllowDeath x;
}.
Lemma of_put (x : W) a b w : bal (put a b x) w = if bool_decide (w = a) then b else bal x w.
Proof.
  unfold SimpleLedger.balance_of, SimpleLedger.put. case_bool_decide as Hw; [by rewrite Hw, lookup_insert_eq|by rewrite lookup_insert_ne].
Qed.
Ltac books := split; [|done]; intros w; unfold spendable5, for_; cbn; rewrite !of_put;
  repeat (case_bool_decide; subst; cbn); try done; lia.
#[export] Instance laws5 : DepositLaws W spendable5.
Proof.
  split; cbn -[Z.min Z.sub].
  - lia.
  - intros a v x Hv. rewrite (proj2 (Z.leb_le v _)) by lia. eexists. split; [done|]. books.
  - intros a v x Hv. rewrite Z.min_l by lia. eexists. split; [by rewrite Z.sub_diag|]. books.
  - intros a b v er x Hne Hv. rewrite (proj2 (Z.leb_le v _)) by lia. eexists. split; [done|]. books.
  - intros a b v x Hne Hv _ _. rewrite Z.min_l by lia. eexists. split; [by rewrite Z.sub_diag|]. books.
Qed.

(** The origin calls a shop, which calls a bank and, in vain, the shop's owner. *)
Definition user : H160 := replicate 20 1.
Definition bank : H160 := replicate 20 6.
Definition vain : H160 := replicate 20 7.
Definition before : Evm W := mkEvm ∅ ∅ ∅ ∅ 4096 None [] [] {[ user := (5000, 7); bank := (5, 200) ]}.
Definition parties (c : H160) : Prop := c ∈ [shop; bank; vain].
Lemma parties_user c : parties c -> c <> user.
Proof. unfold parties. intros Hc. repeat (apply elem_of_cons in Hc as [->|Hc]; [done|]). by apply elem_of_nil in Hc. Qed.
Lemma parties_inj c d : parties c -> parties d -> id c = id d -> c = d.
Proof. done. Qed.
Lemma fits : 0 <= StorageDepositPerByte cfg0 /\ StorageDepositPerByte cfg0 * U32_MAX + minimum_balance (X := W) (A := AccountId) <= U128_MAX.
Proof. vm_compute. split; discriminate. Qed.
Lemma before_placed : placed (spendable := spendable5) id parties before.
Proof.
  split; [done|]. unfold parties. intros c Hc.
  repeat (apply elem_of_cons in Hc as [->|Hc]; [vm_compute; discriminate|]). by apply elem_of_nil in Hc.
Qed.
(** The shop's sub-call to the vain contract calls the bank, which stores 64 bytes, and is
    then rolled back. *)
Lemma rolled_back_call_keeps_deposit_witness :
  exists s' m, @run_meter _ (StorageMeterHandlerImpl cfg0 user) shop 300 [OpChild vain [OpChild bank [OpCharge 64] true] false] before = (s', Ok m) /\
    total_used m = 64 /\ reserved_balance (rest s') user = 7 + 64 * StorageDepositPerByte cfg0.
Proof.
  destruct (rolled_back_call_keeps_deposit (spendable := spendable5) cfg0 user id parties parties_user parties_inj fits shop vain bank 300 64 before)
    as (s' & m & Hrun & Hu & Hr).
  - lia.
  - vm_compute. discriminate.
  - unfold parties. left.
  - unfold parties. right. left.
  - exact before_placed.
  - vm_compute. discriminate.
  - vm_compute. discriminate.
  - exists s', m. split; [exact Hrun|]. split; [exact Hu|]. rewrite (Hr : reserved_balance (rest s') user = _). reflexivity.
Defined.
End DepositsWitness.
