(* ===== verification/EvmRunner.v ===== *)
(** * The EVM runner and the extrinsics that run contracts

    Models [src/modules/evm/src/runner/mod.rs] ([Runner]), [run_transaction] of
    [runner/handler.rs], and of [src/modules/evm/src/lib.rs] the extrinsics [call],
    [scheduled_call], [create], [create2], [create_network_contract] and [execute] of
    the [EVM] trait.

    [fuel] bounds the depth of contract calls; an execution that needs more is the
    error [NoFuel] of the model, which no Rust value stands for. *)

From stdpp Require Import base gmap list strings.
From Stdlib Require Import ZArith Lia.
From S2P Require Import Prelude Interfaces StorageMeter EvmPallet EvmHandler.

Local Open Scope Z_scope.

Record CallInfo : Type := mkCallInfo {
  exit_reason : ExitReason;
  output : bytes;
  info_used_gas : Z;
  info_used_storage : Z;
}.

Record CreateInfo : Type := mkCreateInfo {
  ci_exit_reason : ExitReason;
  ci_address : H160;
  ci_output : bytes;
  ci_used_gas : Z;
  ci_used_storage : Z;
}.

Inductive ExecutionMode : Type := Execute | View | EstimateGas.

Record InvokeContext : Type := mkInvokeContext {
  ic_contract : H160;
  ic_sender : H160;
  ic_origin : H160;
}.

(** Errors of the runner, and executions deeper than the fuel. *)
Inductive RunError : Type :=
| Dispatch (e : DispatchError)
| NoFuel.

Section runner.
Context {X : Type} `{Currency X AccountId} `{TransferAll X AccountId} `{AddressMapping X AccountId}.
Context `{TransactionPayment X AccountId}.
Context {G : Type} `{Gasometer G}.
Variable cfg : EvmConfig.
Variable keccak : bytes -> H256.
Variable rlp_list : H160 -> Z -> bytes.
Variable call_l64_after_gas : bool.
Variable call_stipend : Z.
(** The interpreter; the flag is the [estimate] field of its configuration. *)
Variable evm_run : bool -> bytes -> bytes -> Context -> Prog.
Variable precompiles : H160 -> bytes -> option Z -> Context -> Evm X ->
  Evm X * option (res ExitError (ExitSucceed * bytes * Z)).
(** [gasometer::call_transaction_cost]. *)
Variable call_transaction_cost : bytes -> Z.
(** [T::GasToWeight::convert]. *)
Variable GasToWeight : Z -> Z.
Variable fuel : nat.

Abbreviation HS := (HState (X := X) (G := G)).
Abbreviation MR := (M (Evm X) RunError).
Abbreviation dispatch m := (mmap_err Dispatch m).

(** [Handler::run_transaction]. *)
Definition run_transaction {R : Type} (origin : H160) (gas_limit storage_limit : Z) (contract : H160)
    (f : HS -> HS * Outcome (TransactionOutcome (R + DispatchError))) : MR R :=
  fun s =>
    match @new _ (StorageMeterHandlerImpl cfg origin) contract storage_limit (s, []) with
    | ((s1, _), Ok m) =>
        let '(sub, out) := f (mkHState s1 (gas_new gas_limit) m []) in
        let flat r := match r with inl x => Ok x | inr e => Err (Dispatch e) end in
        match out with
        | Done (Commit r) =>
            match @finish _ (StorageMeterHandlerImpl cfg origin) (storage_meter sub)
                    (store sub, parents sub) with
            | ((s', _), Ok _) => (s', flat r)
            | (_, Err e) => (s, Err (Dispatch e))
            | (_, Panic) => (s, Panic)
            end
        | Done (Rollback r) => (s, flat r)
        | Panicked => (s, Panic)
        | OutOfFuel => (s, Err NoFuel)
        end
    | (_, Err e) => (s, Err (Dispatch e))
    | (_, Panic) => (s, Panic)
    end.

(** [Runner::transfer]. *)
Definition runner_transfer (source target : H160) (value : Z) (s : Evm X)
  : Evm X * res DispatchError unit :=
  if value =? 0 then (s, Ok tt)
  else on_rest (transfer (get_account_id (rest s) source) (get_account_id (rest s) target)
                  value AllowDeath) s.

Definition exec (estimate : bool) (origin : H160) :=
  execute (X := X) (G := G) cfg keccak rlp_list call_l64_after_gas call_stipend (evm_run estimate)
    precompiles origin fuel.

(** ** [Runner::call] *)
Definition call_tx (estimate : bool) (sender origin target : H160) (input : bytes) (value : Z) (sub : HS)
  : HS * Outcome (TransactionOutcome (CallInfo + DispatchError)) :=
  let '(s1, rt) := runner_transfer sender target value (store sub) in
  let sub := with_store s1 sub in
  match rt with
  | Err e => (sub, Done (Rollback (inr e)))
  | Panic => (sub, Panicked)
  | Ok _ =>
      let code := code_at_address keccak (store sub) target in
      let '(g, rg) := record_transaction (call_transaction_cost code) (gasometer sub) in
      let sub := with_gas g sub in
      match rg with
      | Panic => (sub, Panicked)
      | Err _ => (sub, Done (Rollback (inr (Other "OutOfGas"))))
      | Ok _ =>
          let '(sub, r) := exec estimate origin false sender target value code input sub in
          match r with
          | Panicked => (sub, Panicked)
          | OutOfFuel => (sub, OutOfFuel)
          | Done (reason, out) =>
              let call_info := mkCallInfo reason out (used_gas (gasometer sub))
                                 (used_storage (storage_meter sub)) in
              if is_succeed reason then (sub, Done (Commit (inl call_info)))
              else (sub, Done (Rollback (inl call_info)))
          end
      end
  end.

Definition runner_call (estimate : bool) (sender origin target : H160) (input : bytes)
    (value gas_limit storage_limit : Z) : MR CallInfo :=
  let! s := mget in
  if is_undeployed_contract s target && negb (has_permission_to_call s sender)
  then throw (Dispatch (evm_err EvmError.NoPermission))
  else
    do! mmodify (inc_nonce sender) in
    run_transaction origin gas_limit storage_limit target
      (call_tx estimate sender origin target input value).

(** ** [Runner::inner_create] *)
Definition with_ci (reason : ExitReason) (out : bytes) (info : CreateInfo) : CreateInfo :=
  mkCreateInfo reason (ci_address info) out (ci_used_gas info) (ci_used_storage info).

(** From the code the constructor returned to the registered contract. *)
Definition create_tx_finish (source address : H160) (out : bytes) (info : CreateInfo) (sub : HS)
  : HS * Outcome (TransactionOutcome (CreateInfo + DispatchError)) :=
  let '(g, rd) := record_deposit (length out) (gasometer sub) in
  let sub := with_gas g sub in
  match rd with
  | Panic => (sub, Panicked)
  | Err e => (sub, Done (Rollback (inl (with_ci (ErrorExit e) [] info))))
  | Ok _ =>
      let ug := used_gas (gasometer sub) in
      let sub := with_store (inc_nonce address (store sub)) sub in
      let '(m, rm) := charge (storage_meter sub)
                        (sat_add U32_MAX (wrap U32_MAX (Z.of_nat (length out))) (NewContractExtraBytes cfg)) in
      let sub := with_meter m sub in
      let info := mkCreateInfo (ci_exit_reason info) address [] ug (ci_used_storage info) in
      match rm with
      | Panic => (sub, Panicked)
      | Err _ => (sub, Done (Rollback (inl (with_ci (ErrorExit OutOfGas) [] info))))
      | Ok _ =>
          let us := used_storage (storage_meter sub) in
          let info := mkCreateInfo (ci_exit_reason info) address [] ug us in
          let '(s', ri) := on_contract_initialization cfg keccak address source out
                             (Z.min ug U64_MAX, us) (store sub) in
          let sub := with_store s' sub in
          match ri with
          | Panic => (sub, Panicked)
          | Err e => (sub, Done (Rollback (inl (with_ci (ErrorExit e) [] info))))
          | Ok _ => (sub, Done (Commit (inl info)))
          end
      end
  end.

Definition create_tx (estimate : bool) (source address : H160) (init : bytes) (value : Z) (sub : HS)
  : HS * Outcome (TransactionOutcome (CreateInfo + DispatchError)) :=
  let '(s1, rt) := runner_transfer source address value (store sub) in
  let sub := with_store s1 sub in
  match rt with
  | Err e => (sub, Done (Rollback (inr e)))
  | Panic => (sub, Panicked)
  | Ok _ =>
      let '(g, rg) := record_transaction (call_transaction_cost init) (gasometer sub) in
      let sub := with_gas g sub in
      match rg with
      | Panic => (sub, Panicked)
      | Err _ => (sub, Done (Rollback (inr (Other "OutOfGas"))))
      | Ok _ =>
          let '(sub, r) := exec estimate source false source address value init [] sub in
          match r with
          | Panicked => (sub, Panicked)
          | OutOfFuel => (sub, OutOfFuel)
          | Done (reason, out) =>
              let create_info := mkCreateInfo reason address [] (used_gas (gasometer sub))
                                   (used_storage (storage_meter sub)) in
              if is_succeed reason then create_tx_finish source address out create_info sub
              else (sub, Done (Rollback (inl (with_ci reason out create_info))))
          end
      end
  end.

Definition inner_create (estimate : bool) (source : H160) (init : bytes) (value gas_limit storage_limit : Z)
    (assigned_address : option H160) (salt : option H256) : MR CreateInfo :=
  let! s := mget in
  let! address :=
    match assigned_address with
    | Some addr => ret addr
    | None =>
        let scheme := match salt with
                      | Some sl => Create2 source (keccak init) sl
                      | None => Legacy source
                      end in
        mlift (rmap_err (fun _ => Dispatch (evm_err EvmError.ConflictContractAddress))
                 (create_address keccak rlp_list scheme s))
    end in
  do! mmodify (inc_nonce source) in
  run_transaction source gas_limit storage_limit address (create_tx estimate source address init value).

Definition runner_create (estimate : bool) (source : H160) (init : bytes) (value gas_limit storage_limit : Z) : MR CreateInfo :=
  inner_create estimate source init value gas_limit storage_limit None None.
Definition runner_create2 (estimate : bool) (source : H160) (init : bytes) (salt : H256)
    (value gas_limit storage_limit : Z) : MR CreateInfo :=
  inner_create estimate source init value gas_limit storage_limit None (Some salt).
Definition runner_create_at_address (estimate : bool) (source : H160) (init : bytes) (value : Z) (assigned_address : H160)
    (gas_limit storage_limit : Z) : MR CreateInfo :=
  inner_create estimate source init value gas_limit storage_limit (Some assigned_address) None.

(** ** Extrinsics; the result is the actual weight *)
Definition mk_address (who : AccountId) : MR H160 :=
  fun s => let '(x, a) := get_or_create_evm_address (rest s) who in (set_rest x s, Ok a).

(** The event of a finished call. *)
Definition call_event (from caller target : H160) (gas_limit : Z) (info : CallInfo) : Event :=
  if is_succeed (exit_reason info)
  then Executed from target (Z.min (info_used_gas info) U64_MAX) (info_used_storage info)
  else ExecutedFailed caller target (exit_reason info) (output info) (gas_limit, 0).

Definition call_extrinsic (origin : Origin AccountId) (target : H160) (input : bytes)
    (value gas_limit storage_limit : Z) : MR Z :=
  transactional (
    let! who := dispatch (mlift (ensure_signed origin)) in
    let! source := mk_address who in
    let! info := runner_call false source source target input value gas_limit storage_limit in
    let ug := Z.min (info_used_gas info) U64_MAX in
    do! mmodify (deposit_event (call_event source source target gas_limit info)) in
    do! dispatch process_queued_events in
    ret (GasToWeight ug)).

Definition scheduled_call (origin : Origin AccountId) (from target : H160) (input : bytes)
    (value gas_limit storage_limit : Z) : MR Z :=
  transactional (
    do! dispatch (mlift (ensure_root origin)) in
    let! s := mget in
    let from_account := get_account_id (rest s) from in
    let! payed :=
      if with_ethereum_compatibility cfg then ret 0
      else
        let! p := mmap_err (fun _ => Dispatch (evm_err EvmError.ChargeFeeFailed))
                    (on_rest (unreserve_and_charge_fee from_account (GasToWeight gas_limit))) in
        ret p.2 in
    let! info := runner_call false from from target input value gas_limit storage_limit in
    let ug := Z.min (info_used_gas info) U64_MAX in
    do! mmodify (deposit_event (call_event from from target gas_limit info)) in
    do! (if with_ethereum_compatibility cfg then ret tt
         else
           let refund_gas := sat_sub gas_limit ug in
           if refund_gas =? 0
           then mmodify (fun s => set_rest (drop_negative_imbalance payed (rest s)) s)
           else mignore (mmap_err (fun _ => NoFuel)
                  (on_rest (refund_fee from_account (GasToWeight refund_gas) payed)))) in
    do! dispatch process_queued_events in
    ret (GasToWeight ug)).

(** What the three creating extrinsics do with a finished creation. *)
Definition report_create (source : H160) (gas_limit : Z) (info : CreateInfo) : MR Z :=
  do! mwhen (negb (is_succeed (ci_exit_reason info)))
        (mmodify (deposit_event (CreatedFailed source (ci_address info) (ci_exit_reason info)
                                   (ci_output info) (gas_limit, 0)))) in
  do! dispatch process_queued_events in
  ret (GasToWeight (Z.min (ci_used_gas info) U64_MAX)).

Definition create_extrinsic (origin : Origin AccountId) (init : bytes)
    (value gas_limit storage_limit : Z) : MR Z :=
  transactional (
    let! who := dispatch (mlift (ensure_signed origin)) in
    let! source := mk_address who in
    let! info := runner_create false source init value gas_limit storage_limit in
    report_create source gas_limit info).

Definition create2_extrinsic (origin : Origin AccountId) (init : bytes) (salt : H256)
    (value gas_limit storage_limit : Z) : MR Z :=
  transactional (
    let! who := dispatch (mlift (ensure_signed origin)) in
    let! source := mk_address who in
    let! info := runner_create2 false source init salt value gas_limit storage_limit in
    report_create source gas_limit info).

Definition create_network_contract (origin : Origin AccountId) (init : bytes)
    (value gas_limit storage_limit : Z) : MR Z :=
  transactional (
    do! mensure (NetworkContractOrigin cfg origin) (Dispatch BadOrigin) in
    let source := NetworkContractSource cfg in
    let! s := mget in
    let address := from_low_u64_be (network_contract_index s) in
    let! info := runner_create_at_address false source init value address gas_limit storage_limit in
    do! mmodify (fun s => set_network_contract_index
                            (sat_add U64_MAX (network_contract_index s) 1) s) in
    report_create source gas_limit info).

(** ** [EVMTrait::execute] *)
Definition evm_execute (context : InvokeContext) (input : bytes) (value gas_limit storage_limit : Z)
    (mode : ExecutionMode) : MR CallInfo :=
  with_transaction (fun s =>
    let estimate := match mode with EstimateGas => true | _ => false end in
    match runner_call estimate (ic_sender context) (ic_origin context) (ic_contract context) input
            value gas_limit storage_limit s with
    | (s', Ok info) =>
        match mode with
        | Execute =>
            let s'' := deposit_event (call_event (ic_sender context) (ic_origin context)
                                        (ic_contract context) gas_limit info) s' in
            (s'', if is_succeed (exit_reason info) then Commit (Ok info) else Rollback (Ok info))
        | View | EstimateGas => (s', Rollback (Ok info))
        end
    | (s', Err e) => (s', Rollback (Err e))
    | (s', Panic) => (s', Rollback Panic)
    end).
End runner.

(** ** Theorems *)
Section theorems.
Context {X : Type} `{Currency X AccountId} `{TransferAll X AccountId} `{AddressMapping X AccountId}.
Context `{TransactionPayment X AccountId}.
Context {G : Type} `{Gasometer G}.
Variable cfg : EvmConfig.
Variable keccak : bytes -> H256.
Variable rlp_list : H160 -> Z -> bytes.
Variable call_l64_after_gas : bool.
Variable call_stipend : Z.
Variable evm_run : bool -> bytes -> bytes -> Context -> Prog.
Variable precompiles : H160 -> bytes -> option Z -> Context -> Evm X ->
  Evm X * option (res ExitError (ExitSucceed * bytes * Z)).
Variable call_transaction_cost : bytes -> Z.
Variable GasToWeight : Z -> Z.
Variable fuel : nat.

Abbreviation HS := (HState (X := X) (G := G)).
Abbreviation rcall := (runner_call cfg keccak rlp_list call_l64_after_gas call_stipend evm_run
  precompiles call_transaction_cost fuel).
Abbreviation rcreate := (inner_create cfg keccak rlp_list call_l64_after_gas call_stipend evm_run
  precompiles call_transaction_cost fuel).
Abbreviation call_ext := (call_extrinsic cfg keccak rlp_list call_l64_after_gas call_stipend evm_run
  precompiles call_transaction_cost GasToWeight fuel).
Abbreviation net_create := (create_network_contract cfg keccak rlp_list call_l64_after_gas call_stipend evm_run
  precompiles call_transaction_cost GasToWeight fuel).
Abbreviation execute_evm := (evm_execute cfg keccak rlp_list call_l64_after_gas call_stipend evm_run
  precompiles call_transaction_cost fuel).

(** A transaction that does not commit leaves the storage as it was. *)
Lemma run_transaction_commits {R} origin gl sl c
    (f : HS -> HS * Outcome (TransactionOutcome (R + DispatchError))) s s' r :
  run_transaction cfg origin gl sl c f s = (s', r) ->
  s' = s \/
  exists sub sub' t, f sub = (sub', Done (Commit t)) /\ s' = set_rest (rest s') (store sub') /\
    r = match t with inl x => Ok x | inr e => Err (Dispatch e) end.
Proof.
  unfold run_transaction.
  destruct (new _ _ _) as [[s1 ps1] [m|e|]]; [|intros [= <- <-]; by left..].
  destruct (f _) as [sub [[t|t]| |]] eqn:Ef; intros Hrun; [|injection Hrun as <- <-; by left..].
  destruct (finish _ _) as [[s2 hs] [u|e|]] eqn:Efi; injection Hrun as <- <-; [right|by left..].
  apply finish_frame in Efi as (_ & Hf & _). eauto 10.
Qed.

Lemma call_tx_Commit est sender origin target input value (sub sub' : HS) t :
  call_tx cfg keccak rlp_list call_l64_after_gas call_stipend evm_run precompiles
    call_transaction_cost fuel est sender origin target input value sub = (sub', Done (Commit t)) ->
  exists info, t = inl info /\ is_succeed (exit_reason info) = true.
Proof.
  unfold call_tx. destruct (runner_transfer _ _ _ _) as [s1 [u|e|]]; try discriminate.
  destruct (record_transaction _ _) as [g [u'|e|]]; try discriminate.
  destruct (exec _ _ _ _ _ _ _ _ _ _ _ _ _ _ _ _ _) as [sub2 [[reason out]| |]]; try discriminate.
  destruct (is_succeed reason) eqn:Es; [|discriminate]. intros [= <- <-]. by eexists.
Qed.

(** A call of the runner that does not succeed. *)
Lemma runner_call_failed est sender origin target input value gl sl s s' r :
  rcall est sender origin target input value gl sl s = (s', r) ->
  (forall info, r = Ok info -> is_succeed (exit_reason info) = false) ->
  s' = s /\ r = Err (Dispatch (evm_err EvmError.NoPermission)) \/ s' = inc_nonce sender s.
Proof.
  unfold runner_call, bind, mget, mmodify, throw. destruct (_ && _).
  - intros [= <- <-] _. by left.
  - intros [?|(sub & sub' & t & Hc & _ & Hr)]%run_transaction_commits Hf; [by right|].
    apply call_tx_Commit in Hc as (info & -> & Hs). specialize (Hf info Hr). congruence.
Qed.

(** C7. A failed contract call costs the caller its nonce and reports the failure,
    and does nothing else: when the EVM exits with an error or a revert, the
    extrinsic [call] succeeds, and the storage is the one before it with the
    caller's EVM address made, its nonce raised by one, and the [ExecutedFailed]
    event followed by the events queued before. *)
Theorem failed_call_effects who source target input value gl sl s s1 x info :
  get_or_create_evm_address (rest s) who = (x, source) ->
  rcall false source source target input value gl sl (set_rest x s) = (s1, Ok info) ->
  is_succeed (exit_reason info) = false ->
  exists s',
    call_ext (Signed who) target input value gl sl s
      = (s', Ok (GasToWeight (Z.min (info_used_gas info) U64_MAX))) /\
    s' = (process_queued_events
            (deposit_event (ExecutedFailed source target (exit_reason info) (output info) (gl, 0))
               (inc_nonce source (set_rest x s)))).1.
Proof.
  intros Hm Hr Hf. eexists. split; [|reflexivity].
  unfold call_extrinsic, transactional, bind, mk_address, mmap_err, mlift. simpl.
  rewrite Hm. simpl. rewrite Hr. cbn [mmodify]. unfold call_event. rewrite Hf.
  apply runner_call_failed in Hr as [[_ Hr]|Hr]; [discriminate|by subst|by intros ? [= <-]].
Qed.

(** An undeployed contract can be called only by a developer or a contract:
    any other caller gets [NoPermission] from the extrinsic and from the [EVM]
    trait, and the storage is unchanged. *)
Theorem undeployed_call_refused who source target input value gl sl mode s x :
  get_or_create_evm_address (rest s) who = (x, source) ->
  is_undeployed_contract (set_rest x s) target = true ->
  has_permission_to_call (set_rest x s) source = false ->
  call_ext (Signed who) target input value gl sl s
    = (s, Err (Dispatch (evm_err EvmError.NoPermission))) /\
  execute_evm (mkInvokeContext target source source) input value gl sl mode s
    = (s, Err (Dispatch (evm_err EvmError.NoPermission))).
Proof.
  intros Hm Hu Hp. split.
  - unfold call_extrinsic, transactional, bind, mk_address, mmap_err, mlift. simpl. rewrite Hm. simpl.
    unfold runner_call, bind, mget. rewrite Hu, Hp. done.
  - unfold evm_execute, with_transaction, runner_call, bind, mget. simpl.
    change (is_undeployed_contract s target) with (is_undeployed_contract (set_rest x s) target).
    change (has_permission_to_call s source) with (has_permission_to_call (set_rest x s) source).
    rewrite Hu, Hp. done.
Qed.

(** C8. [EVMTrait::execute] changes the storage only when it executes and
    succeeds: a view, a gas estimation, an error and a failed execution leave the
    storage exactly as it was; that includes the [ExecutedFailed] event the function
    deposits, which its own rollback discards. *)
Theorem execute_commits_only_success ctx input value gl sl mode s s' r :
  execute_evm ctx input value gl sl mode s = (s', r) ->
  s' = s \/
  mode = Execute /\ exists info, r = Ok info /\ is_succeed (exit_reason info) = true /\
    last (events s') = Some (Executed (ic_sender ctx) (ic_contract ctx)
                               (Z.min (info_used_gas info) U64_MAX) (info_used_storage info)).
Proof.
  unfold evm_execute, with_transaction.
  destruct (rcall _ _ _ _ _ _ _ _ _) as [s1 [info|e|]]; [|intros [= <- <-]; by left..].
  destruct mode; [|intros [= <- <-]; by left..].
  destruct (is_succeed (exit_reason info)) eqn:Es; intros [= <- <-]; [right|by left].
  split; [done|]. exists info. split_and!; [done..|].
  unfold call_event. rewrite Es. simpl. by rewrite last_snoc.
Qed.

Lemma initialization_registers a mt code used (s s' : Evm X) :
  on_contract_initialization cfg keccak a mt code used s = (s', Ok tt) ->
  wrap U32_MAX (Z.of_nat (length code)) <= MaxCodeSize cfg /\
  exists n dd, accounts s' !! a =
    Some (mkAccountInfo n (Some (mkContractInfo (keccak code) mt (with_ethereum_compatibility cfg))) dd).
Proof.
  unfold on_contract_initialization.
  destruct (Z.ltb_spec (MaxCodeSize cfg) (wrap U32_MAX (Z.of_nat (length code)))); [discriminate|].
  intros [= <-]. split; [done|]. simpl. rewrite lookup_insert_eq.
  destruct (accounts _ !! a); eauto.
Qed.

Lemma create_tx_finish_Commit source address out info (sub sub' : HS) t :
  create_tx_finish cfg keccak source address out info sub = (sub', Done (Commit t)) ->
  exists info', t = inl info' /\ ci_exit_reason info' = ci_exit_reason info /\ ci_address info' = address /\
    wrap U32_MAX (Z.of_nat (length out)) <= MaxCodeSize cfg /\
    exists n dd, accounts (store sub') !! address =
      Some (mkAccountInfo n (Some (mkContractInfo (keccak out) source (with_ethereum_compatibility cfg))) dd).
Proof.
  unfold create_tx_finish. destruct (record_deposit _ _) as [g [u|e|]]; try discriminate.
  destruct (charge _ _) as [m [u'|e|]]; try discriminate.
  destruct (on_contract_initialization _ _ _ _ _ _ _) as [s1 [[]|e|]] eqn:E; try discriminate.
  apply initialization_registers in E as [Hsz Hreg]. intros [= <- <-]. eexists. split_and!; eauto.
Qed.

Lemma create_tx_Commit est source address init value (sub sub' : HS) t :
  create_tx cfg keccak rlp_list call_l64_after_gas call_stipend evm_run precompiles
    call_transaction_cost fuel est source address init value sub = (sub', Done (Commit t)) ->
  exists info, t = inl info /\ is_succeed (ci_exit_reason info) = true /\ ci_address info = address /\
    exists code n dd, wrap U32_MAX (Z.of_nat (length code)) <= MaxCodeSize cfg /\
      accounts (store sub') !! address =
      Some (mkAccountInfo n (Some (mkContractInfo (keccak code) source (with_ethereum_compatibility cfg))) dd).
Proof.
  unfold create_tx. destruct (runner_transfer _ _ _ _) as [s1 [u|e|]]; try discriminate.
  destruct (record_transaction _ _) as [g [u'|e|]]; try discriminate.
  destruct (exec _ _ _ _ _ _ _ _ _ _ _ _ _ _ _ _ _) as [sub2 [[reason out]| |]]; try discriminate.
  destruct (is_succeed reason) eqn:Es; [|discriminate].
  intros (info & -> & Hr & Ha & Hsz & n & dd & Hreg)%create_tx_finish_Commit.
  exists info. split_and!; [done|by rewrite Hr|done|]. by exists out, n, dd.
Qed.

Lemma create_tx_Rollback est source address init value (sub sub' : HS) info :
  create_tx cfg keccak rlp_list call_l64_after_gas call_stipend evm_run precompiles
    call_transaction_cost fuel est source address init value sub = (sub', Done (Rollback (inl info))) ->
  is_succeed (ci_exit_reason info) = false.
Proof.
  unfold create_tx. destruct (runner_transfer _ _ _ _) as [s1 [u|e|]]; try discriminate.
  destruct (record_transaction _ _) as [g [u'|e|]]; try discriminate.
  destruct (exec _ _ _ _ _ _ _ _ _ _ _ _ _ _ _ _ _) as [sub2 [[reason out]| |]]; try discriminate.
  destruct (is_succeed reason) eqn:Es; [|by intros [= <- <-]].
  unfold create_tx_finish. destruct (record_deposit _ _) as [g' [u''|e|]]; try discriminate;
    [|by intros [= <- <-]].
  destruct (charge _ _) as [m [u3|e|]]; try discriminate; [|by intros [= <- <-]].
  destruct (on_contract_initialization _ _ _ _ _ _ _) as [s2 [[]|e|]]; try discriminate.
  by intros [= <- <-].
Qed.

Lemma run_transaction_Ok {R} origin gl sl c
    (f : HS -> HS * Outcome (TransactionOutcome (R + DispatchError))) s s' x :
  run_transaction cfg origin gl sl c f s = (s', Ok x) ->
  exists sub sub',
    f sub = (sub', Done (Commit (inl x))) /\ s' = set_rest (rest s') (store sub') \/
    f sub = (sub', Done (Rollback (inl x))) /\ s' = s.
Proof.
  unfold run_transaction. destruct (new _ _ _) as [[s1 ps1] [m|e|]]; [|discriminate..].
  destruct (f _) as [sub [[[t|t]|[t|t]]| |]] eqn:Ef; try discriminate.
  - destruct (finish _ _) as [[s2 hs] [u|e|]] eqn:Efi; [|discriminate..]. intros [= <- <-].
    apply finish_frame in Efi as (_ & Hf & _). eauto 10.
  - by destruct (finish _ _) as [[s2 hs] [u|e|]].
  - intros [= <- <-]. eauto 10.
Qed.

(** The outcome of a creation: nothing but a nonce, or a registered contract at the
    assigned address or at one outside the system contracts' range. *)
Lemma inner_create_spec est source init value gl sl oa salt s s' info :
  rcreate est source init value gl sl oa salt s = (s', Ok info) ->
  is_succeed (ci_exit_reason info) = false /\ s' = inc_nonce source s \/
  is_succeed (ci_exit_reason info) = true /\
  match oa with
  | Some a => ci_address info = a
  | None => starts_with SYSTEM_CONTRACT_ADDRESS_PREFIX (ci_address info) = false
  end /\
  exists code n dd, wrap U32_MAX (Z.of_nat (length code)) <= MaxCodeSize cfg /\
    accounts s' !! ci_address info =
    Some (mkAccountInfo n (Some (mkContractInfo (keccak code) source (with_ethereum_compatibility cfg))) dd).
Proof.
  unfold inner_create. intros Hrun. run_inv.
  match goal with Hm : (match oa with _ => _ end) _ = (?s2, Ok ?a) |- _ =>
    assert (s2 = s /\ match oa with Some a' => a = a'
              | None => starts_with SYSTEM_CONTRACT_ADDRESS_PREFIX a = false end) as [-> Hoa];
    [destruct oa as [a'|]; run_inv; [done|]; split; [done|]; revert Hm | clear Hm] end.
  { unfold create_address. destruct (starts_with _ _) eqn:E; [discriminate|]. intros [= <-]. exact E. }
  apply run_transaction_Ok in Hrun as (sub & sub' & [[Hc Hst]|[Hc ->]]).
  - right. apply create_tx_Commit in Hc as (info' & [= <-] & Hs & Had & code & n & dd & Hsz & Hreg).
    rewrite Had, Hst. split_and!; [done|by destruct oa|]. by exists code, n, dd.
  - left. by apply create_tx_Rollback in Hc.
Qed.

(** A creation registers the contract or leaves only the creator's nonce: when
    it succeeds, the contract has an address outside the system contracts' range,
    the creator is its maintainer, its code hash is the one of a code no longer
    than the maximum, and it counts as not deployed (unless the chain is in
    Ethereum compatibility mode). *)
Theorem create_registers_contract est source init value gl sl salt s s' info :
  rcreate est source init value gl sl None salt s = (s', Ok info) ->
  if is_succeed (ci_exit_reason info) then
    starts_with SYSTEM_CONTRACT_ADDRESS_PREFIX (ci_address info) = false /\
    exists code n dd, wrap U32_MAX (Z.of_nat (length code)) <= MaxCodeSize cfg /\
      accounts s' !! ci_address info =
      Some (mkAccountInfo n (Some (mkContractInfo (keccak code) source (with_ethereum_compatibility cfg))) dd)
  else s' = inc_nonce source s.
Proof. intros [[-> ->]|(-> & Hp & Hreg)]%inner_create_spec; done. Qed.

Lemma from_low_u64_be_inj i j : in_u U64_MAX i -> in_u U64_MAX j ->
  from_low_u64_be i = from_low_u64_be j -> i = j.
Proof.
  intros Hi Hj He%app_inv_head.
  apply (be_bytes_inj 8); [unfold in_u, U64_MAX in *; lia..|done].
Qed.

Lemma network_address_prefix i : starts_with SYSTEM_CONTRACT_ADDRESS_PREFIX (from_low_u64_be i) = true.
Proof.
  replace (from_low_u64_be i) with (SYSTEM_CONTRACT_ADDRESS_PREFIX ++ 0 :: be_bytes 8 i) by done.
  apply starts_with_app.
Qed.

Lemma next_network_address i :
  0 <= i < U64_MAX -> from_low_u64_be (sat_add U64_MAX i 1) <> from_low_u64_be i.
Proof.
  intros Hr. rewrite sat_add_exact by lia. intros He.
  enough (i + 1 = i) by lia. apply from_low_u64_be_inj; [unfold in_u; lia..|exact He].
Qed.

Lemma report_create_frame source gl info (s s' : Evm X) w :
  report_create GasToWeight source gl info s = (s', Ok w) ->
  network_contract_index s' = network_contract_index s /\ accounts s' = accounts s.
Proof.
  unfold report_create. intros Hrun. run_inv.
  match goal with Hq : process_queued_events ?sa = _, Hw : mwhen _ _ _ = _ |- _ =>
    rewrite process_queued_events_eq in Hq; injection Hq as <-;
    unfold mwhen, mmodify, ret in Hw; destruct (negb _); injection Hw as <- end; done.
Qed.

(** ** The index of the network contracts *)
Section index.
Hypothesis precompiles_index : forall a i g c s,
  network_contract_index (precompiles a i g c s).1 = network_contract_index s.

Abbreviation same_index := (fun (_ : bool) (s s' : Evm X) => network_contract_index s' = network_contract_index s).

Lemma initialization_index a mt code used (s s' : Evm X) r :
  on_contract_initialization cfg keccak a mt code used s = (s', r) ->
  network_contract_index s' = network_contract_index s.
Proof.
  unfold on_contract_initialization, acquire_code. case_match; intros [= <- <-]; [done|].
  by destruct (code_infos s !! keccak code).
Qed.

Lemma index_write_closed : write_closed cfg keccak precompiles same_index.
Proof using precompiles_index.
  split; try done; intros.
  - congruence.
  - unfold write_storage. by case_bool_decide.
  - match goal with Hr : remove_account _ _ = _ |- _ => revert Hr end.
    unfold remove_account, release_code.
    destruct (accounts s !! a) as [[n [ci|] dd]|]; [|by intros [= <- <-]..].
    destruct (code_infos s !! ci_code_hash ci) as [ci'|]; [case_match|]; by intros [= <- <-].
  - by eapply initialization_index.
Qed.

Lemma runner_transfer_index a b v (s s' : Evm X) r :
  runner_transfer a b v s = (s', r) -> network_contract_index s' = network_contract_index s.
Proof.
  unfold runner_transfer. case_match; [by intros [= <- <-]|]. by intros ->%on_rest_frame.
Qed.

Lemma create_tx_index est source address init value (sub sub' : HS) r :
  create_tx cfg keccak rlp_list call_l64_after_gas call_stipend evm_run precompiles
    call_transaction_cost fuel est source address init value sub = (sub', r) ->
  network_contract_index (store sub') = network_contract_index (store sub).
Proof using precompiles_index.
  unfold create_tx. destruct (runner_transfer _ _ _ _) as [s1 rt] eqn:Et. apply runner_transfer_index in Et.
  destruct rt as [u|e|]; [|by intros [= <- <-]..].
  destruct (record_transaction _ _) as [g [u'|e|]]; [|by intros [= <- <-]..].
  destruct (exec _ _ _ _ _ _ _ _ _ _ _ _ _ _ _ _ _) as [sub2 rx] eqn:Ex.
  destruct (execute_moves _ _ _ _ _ _ _ _ _ index_write_closed _ _ _ _ _ _ _ _ _ _ Ex) as [Hx _].
  simpl in Hx. destruct rx as [[reason out]| |]; [|intros [= <- <-]; congruence..].
  destruct (is_succeed reason); [|intros [= <- <-]; congruence].
  unfold create_tx_finish. destruct (record_deposit _ _) as [g' [u''|e|]];
    [|intros [= <- <-]; simpl; congruence..].
  destruct (charge _ _) as [m [u3|e|]]; [|intros [= <- <-]; simpl; congruence..].
  destruct (on_contract_initialization _ _ _ _ _ _ _) as [s2 ri] eqn:Ei. apply initialization_index in Ei.
  simpl in Ei. destruct ri; intros [= <- <-]; simpl; congruence.
Qed.

Lemma run_transaction_index {R} origin gl sl c
    (f : HS -> HS * Outcome (TransactionOutcome (R + DispatchError))) s s' r :
  (forall sub sub' o, f sub = (sub', o) ->
     network_contract_index (store sub') = network_contract_index (store sub)) ->
  run_transaction cfg origin gl sl c f s = (s', r) ->
  network_contract_index s' = network_contract_index s.
Proof.
  intros Hf. unfold run_transaction.
  destruct (new _ _ _) as [[s1 ps1] [m|e|]] eqn:En; [|by intros [= <- <-]..].
  assert (network_contract_index s1 = network_contract_index s) as E1.
  { revert En. unfold new, bind. simpl. unfold impl_reserve_storage.
    destruct (sl =? 0); [by intros [= <- <- <-]|].
    destruct (on_rest _ s) as [s0 [u|e|]] eqn:Eo; try discriminate. apply on_rest_frame in Eo.
    intros [= <- <- <-]. by rewrite Eo. }
  destruct (f _) as [sub [[t|t]| |]] eqn:Ef; apply Hf in Ef; simpl in Ef; [|by intros [= <- <-]..].
  destruct (finish _ _) as [[s2 hs] [u|e|]] eqn:Efi; [|by intros [= <- <-]..].
  apply finish_frame in Efi as (_ & Hfr & _). intros [= <- <-]. rewrite Hfr. simpl. congruence.
Qed.

Lemma inner_create_index est source init value gl sl oa salt s s' info :
  rcreate est source init value gl sl oa salt s = (s', Ok info) ->
  network_contract_index s' = network_contract_index s.
Proof using precompiles_index.
  unfold inner_create. intros Hrun. run_inv.
  apply run_transaction_index in Hrun; [|intros ? ? ?; apply create_tx_index]. rewrite Hrun.
  match goal with Hm : (match oa with _ => _ end) _ = _ |- _ => destruct oa; run_inv; reflexivity end.
Qed.

(** Network contracts get addresses of their own: a network contract is
    created by the permitted origin, at the address of the current index, in the
    system contracts' range and so apart from every contract that users create, and
    the index then moves on by one, so the next network contract has another
    address, until the 64-bit index is exhausted. *)
Theorem network_contract_address o init value gl sl s s' w :
  net_create o init value gl sl s = (s', Ok w) ->
  let i := network_contract_index s in
  NetworkContractOrigin cfg o = true /\
  starts_with SYSTEM_CONTRACT_ADDRESS_PREFIX (from_low_u64_be i) = true /\
  (exists s1 info,
     rcreate false (NetworkContractSource cfg) init value gl sl (Some (from_low_u64_be i)) None s = (s1, Ok info) /\
     accounts s' = accounts s1) /\
  network_contract_index s' = sat_add U64_MAX i 1 /\
  (0 <= i < U64_MAX -> from_low_u64_be (network_contract_index s') <> from_low_u64_be i).
Proof using precompiles_index.
  unfold create_network_contract. intros Hrun. run_inv.
  apply report_create_frame in Hrun as [E1 E2].
  match goal with Hm : runner_create_at_address _ _ _ _ _ _ _ _ _ _ _ _ _ _ _ _ _ = _ |- _ =>
    rename Hm into Hcr end.
  unfold runner_create_at_address in Hcr. apply inner_create_index in Hcr as E3.
  cbv zeta. rewrite E1. cbn [network_contract_index set_network_contract_index]. rewrite E3.
  split_and!; [done|apply network_address_prefix| |done|apply next_network_address].
  eexists _, _. split; [exact Hcr|exact E2].
Qed.
End index.
End theorems.

(** ** Witnesses *)
Module RunnerWitness.
Import SimpleLedger EvmPalletWitness HandlerWitness.
#[export] Instance toy_payment : TransactionPayment (gmap AccountId (Z * Z)) AccountId := {
  reserve_fee _ _ := ret 0;
  unreserve_fee _ _ x := x;
  unreserve_and_charge_fee _ _ := ret (0, 0);
  refund_fee _ _ _ := ret tt;
  drop_negative_imbalance _ x := x;
}.
(** Code that reverts, and code that returns two bytes. *)
Definition reverts (estimate : bool) (code input : bytes) (ctx : Context) : Prog := PExit Revert [9].
Definition returns (estimate : bool) (code input : bytes) (ctx : Context) : Prog :=
  PExit (Succeed Returned) [96; 2].
Definition cost0 (code : bytes) : Z := 21000.
Definition weight0 (gas : Z) : Z := 10 * gas.
Definition funded : Evm (gmap AccountId (Z * Z)) :=
  set_rest {[ alice_evm := (5000, 0) ]} with_shop.
Definition nowhere : H160 := replicate 20 8.
Definition call0 run := runner_call (X := W) (G := Z) cfg0 hash0 rlp0 true 2300 run no_precompile cost0 5.
Definition create0 run := inner_create (X := W) (G := Z) cfg0 hash0 rlp0 true 2300 run no_precompile cost0 5.
Definition reverted : CallInfo := mkCallInfo Revert [9] 0 0.

Lemma reverted_eq :
  call0 reverts false alice_evm alice_evm nowhere [] 0 100000 1000 funded =
  ((call0 reverts false alice_evm alice_evm nowhere [] 0 100000 1000 funded).1, Ok reverted).
Proof. vm_compute. reflexivity. Qed.

Lemma failed_call_effects_witness :
  exists s', call_extrinsic (X := W) (G := Z) cfg0 hash0 rlp0 true 2300 reverts no_precompile cost0 weight0 5
    (Signed alice) nowhere [] 0 100000 1000 funded = (s', Ok 0) /\
    s' = (process_queued_events
            (deposit_event (ExecutedFailed alice_evm nowhere Revert [9] (100000, 0))
               (inc_nonce alice_evm (set_rest (rest funded) funded)))).1.
Proof.
  exact (failed_call_effects cfg0 hash0 rlp0 true 2300 reverts no_precompile cost0 weight0 5
           alice alice_evm nowhere [] 0 100000 1000 funded _ (rest funded) reverted
           eq_refl reverted_eq eq_refl).
Defined.

Lemma shop_undeployed : is_undeployed_contract (set_rest (rest funded) funded) shop = true.
Proof. vm_compute. reflexivity. Qed.
Lemma alice_no_permission : has_permission_to_call (set_rest (rest funded) funded) alice_evm = false.
Proof. vm_compute. reflexivity. Qed.

Lemma undeployed_call_refused_witness :
  call_extrinsic (X := W) (G := Z) cfg0 hash0 rlp0 true 2300 returns no_precompile cost0 weight0 5
    (Signed alice) shop [] 0 100000 1000 funded
    = (funded, Err (Dispatch (evm_err EvmError.NoPermission))).
Proof.
  exact (proj1 (undeployed_call_refused cfg0 hash0 rlp0 true 2300 returns no_precompile cost0 weight0 5
           alice alice_evm shop [] 0 100000 1000 View funded (rest funded)
           eq_refl shop_undeployed alice_no_permission)).
Defined.

Definition exec0 run := evm_execute (X := W) (G := Z) cfg0 hash0 rlp0 true 2300 run no_precompile cost0 5.
Definition ctx0 : InvokeContext := mkInvokeContext nowhere alice_evm alice_evm.

(** A failed execution keeps no event; a successful one ends with [Executed]. *)
Lemma execute_commits_only_success_witness :
  (exec0 reverts ctx0 [] 0 100000 1000 Execute funded).1 = funded \/
  Execute = Execute /\ exists info, (exec0 reverts ctx0 [] 0 100000 1000 Execute funded).2 = Ok info /\
    is_succeed (exit_reason info) = true /\
    last (events (exec0 reverts ctx0 [] 0 100000 1000 Execute funded).1) =
      Some (Executed alice_evm nowhere (Z.min (info_used_gas info) U64_MAX) (info_used_storage info)).
Proof.
  exact (execute_commits_only_success cfg0 hash0 rlp0 true 2300 reverts no_precompile cost0 5
           ctx0 [] 0 100000 1000 Execute funded _ _ (surjective_pairing _)).
Defined.

Definition created : Evm W * res RunError CreateInfo :=
  create0 returns false alice_evm [1] 0 100000 1000 None None funded.
Definition created_info : CreateInfo :=
  match created.2 with Ok i => i | _ => mkCreateInfo Revert [] [] 0 0 end.

Lemma created_eq :
  create0 returns false alice_evm [1] 0 100000 1000 None None funded = (created.1, Ok created_info) /\
  is_succeed (ci_exit_reason created_info) = true.
Proof. vm_compute. done. Qed.

Lemma create_registers_contract_witness :
  starts_with SYSTEM_CONTRACT_ADDRESS_PREFIX (ci_address created_info) = false.
Proof.
  pose proof (create_registers_contract cfg0 hash0 rlp0 true 2300 returns no_precompile cost0 5
                false alice_evm [1] 0 100000 1000 None funded _ _ (proj1 created_eq)) as Hc.
  rewrite (proj2 created_eq) in Hc. exact (proj1 Hc).
Defined.

Definition network_funded : Evm W := set_rest {[ replicate 20 9 := (5000, 0) ]} with_shop.
Definition network_created : Evm W * res RunError Z :=
  create_network_contract (X := W) (G := Z) cfg0 hash0 rlp0 true 2300 returns no_precompile cost0 weight0 5
    Root [1] 0 100000 1000 network_funded.
Lemma network_created_eq :
  create_network_contract (X := W) (G := Z) cfg0 hash0 rlp0 true 2300 returns no_precompile cost0 weight0 5
    Root [1] 0 100000 1000 network_funded = (network_created.1, Ok 0).
Proof. vm_compute. reflexivity. Qed.

Lemma no_precompile_index a i g c s :
  network_contract_index (no_precompile a i g c s).1 = network_contract_index s.
Proof. done. Qed.

Lemma network_contract_address_witness : network_contract_index network_created.1 = 4097.
Proof.
  exact (proj1 (proj2 (proj2 (proj2 (network_contract_address cfg0 hash0 rlp0 true 2300 returns
           no_precompile cost0 weight0 5 no_precompile_index Root [1] 0 100000 1000 network_funded _ _
           network_created_eq))))).
Defined.
End RunnerWitness.
