(* ===== verification/Precompiles.v ===== *)
(** * The precompiled contracts

    Models the parameter decoding of [src/runtime/common/src/precompile/input.rs], the
    dispatch of [precompile/mod.rs] with the caller filter of
    [src/runtime/common/src/lib.rs], the precompiles [multicurrency.rs],
    [state_rent.rs] and [schedule_call.rs], and the builtin ones of
    [src/modules/evm/src/precompiles.rs] (the hash functions and the signature recovery
    are parameters).

    A precompile is a computation on the storage of the EVM pallet; a panic of the
    Rust code (a slice out of range) is the result [Panic].  [usize_max] is the largest
    [usize]: 2^32 - 1 in the WebAssembly runtime. *)

From stdpp Require Import base gmap list strings.
From Stdlib Require Import ZArith Lia.
From S2P Require Import Prelude Interfaces Primitives StorageMeter EvmPallet EvmHandler.

Local Open Scope Z_scope.

(** ** Parameters *)
Definition PER_PARAM_BYTES : nat := 32.

Definition nth_param (content : bytes) (n : nat) : res ExitError bytes :=
  let start := (PER_PARAM_BYTES * n)%nat in
  let stop := (start + PER_PARAM_BYTES)%nat in
  let? _ := rensure (stop <=? length content)%nat (ExitOther "invalid input") in
  slice start stop content.

Definition input_action {Action} (try_from : Z -> option Action) (content : bytes) : res ExitError Action :=
  let? param := nth_param content 0 in
  let? action_u8 := expect (last param) in
  ok_or (try_from action_u8) (ExitOther "invalid action").

Definition evm_address_at (content : bytes) (index : nat) : res ExitError H160 :=
  let? param := nth_param content index in
  slice 12 (length param) param.

Definition currency_id_at (content : bytes) (index : nat) : res ExitError CurrencyId :=
  let? param := nth_param content index in
  let? v := (if (length param =? 32)%nat then Ok param
             else Err (ExitOther "currency id param bytes too short")) in
  ok_or (currency_id_try_from v) (ExitOther "invalid currency id").

(** The last [n] bytes of a parameter, big-endian. *)
Definition uint_at (n : nat) (content : bytes) (index : nat) : res ExitError Z :=
  let? param := nth_param content index in
  let? num := slice (PER_PARAM_BYTES - n) (length param) param in
  Ok (be_val num).
Definition balance_at : bytes -> nat -> res ExitError Z := uint_at 16.
Definition u64_at : bytes -> nat -> res ExitError Z := uint_at 8.
Definition u32_at : bytes -> nat -> res ExitError Z := uint_at 4.
(** [i128::from_be_bytes]. *)
Definition amount_at (content : bytes) (index : nat) : res ExitError Z :=
  let? v := uint_at 16 content index in
  Ok (if v <? 2 ^ 127 then v else v - 2 ^ 128).

(** [bytes_at]: [start + len] is unchecked. *)
Definition bytes_at (usize_max : Z) (content : bytes) (start len : Z) : res ExitError bytes :=
  let stop := wrap_add usize_max start len in
  let? _ := rensure (stop <=? Z.of_nat (length content)) (ExitOther "invalid bytes input") in
  slice (Z.to_nat start) (Z.to_nat stop) content.

(** ** Builtin precompiles *)
Abbreviation PrecompileResult := (res ExitError (ExitSucceed * bytes * Z)).

Section builtin.
Variable usize_max : Z.
Variable keccak256 sha256 ripemd160 sha3_256 sha3_512 : bytes -> bytes.
(** [secp256k1_ecdsa_recover] on a signature and a message. *)
Variable ecdsa_recover : bytes -> bytes -> option bytes.

Definition ensure_linear_cost (target_gas : option Z) (len base word : Z) : res ExitError Z :=
  let? words := ok_or (checked_mul usize_max word (sat_add usize_max len 31 / 32)) OutOfGas in
  let? sum := ok_or (checked_add usize_max base words) OutOfGas in
  let cost := Z.min sum U64_MAX in
  match target_gas with
  | Some tg => if tg <? cost then Err OutOfGas else Ok cost
  | None => Ok cost
  end.

Definition hash_precompile (base word : Z) (h : bytes -> bytes) (input : bytes) (target_gas : option Z)
  : PrecompileResult :=
  let? cost := ensure_linear_cost target_gas (Z.of_nat (length input)) base word in
  Ok (Returned, h input, cost).
Definition Identity_execute := hash_precompile 15 3 (fun i => i).
Definition Sha256_execute := hash_precompile 60 12 sha256.
Definition Ripemd160_execute := hash_precompile 600 120 (fun i => replicate 12 0 ++ ripemd160 i).
Definition Sha3FIPS256_execute := hash_precompile 60 12 sha3_256.
Definition Sha3FIPS512_execute := hash_precompile 60 12 sha3_512.

(** The input filled up with zeros to 128 bytes; the message and the signature. *)
Definition recover_input (i : bytes) : bytes := take 128 i ++ replicate (128 - length i) 0.
Definition recover_pubkey (i : bytes) : res ExitError bytes :=
  let input := recover_input i in
  let msg := take 32 input in
  let sig := take 32 (drop 64 input) ++ take 32 (drop 96 input) ++ take 1 (drop 63 input) in
  ok_or (ecdsa_recover sig msg) (ExitOther "Public key recover failed").

Definition ECRecover_execute (i : bytes) (target_gas : option Z) : PrecompileResult :=
  let? cost := ensure_linear_cost target_gas (Z.of_nat (length i)) 3000 0 in
  let? pubkey := recover_pubkey i in
  Ok (Returned, replicate 12 0 ++ drop 12 (keccak256 pubkey), cost).
Definition ECRecoverPublicKey_execute (i : bytes) (target_gas : option Z) : PrecompileResult :=
  let? cost := ensure_linear_cost target_gas (Z.of_nat (length i)) 3000 0 in
  let? pubkey := recover_pubkey i in
  Ok (Returned, pubkey, cost).

Definition EvmPrecompiles_execute (address : H160) (input : bytes) (target_gas : option Z)
  : option PrecompileResult :=
  let at_ n := bool_decide (address = from_low_u64_be n) in
  if at_ 1 then Some (ECRecover_execute input target_gas)
  else if at_ 2 then Some (Sha256_execute input target_gas)
  else if at_ 3 then Some (Ripemd160_execute input target_gas)
  else if at_ 4 then Some (Identity_execute input target_gas)
  else if at_ 128 then Some (ECRecoverPublicKey_execute input target_gas)
  else if at_ 129 then Some (Sha3FIPS256_execute input target_gas)
  else if at_ 130 then Some (Sha3FIPS512_execute input target_gas)
  else None.
End builtin.

(** ** The caller filter *)
Definition SYSTEM_CONTRACT_LEADING_ZERO_BYTES : nat := 12.
Definition is_system_contract (address : H160) : bool :=
  bool_decide (take SYSTEM_CONTRACT_LEADING_ZERO_BYTES address
               = replicate SYSTEM_CONTRACT_LEADING_ZERO_BYTES 0).
(** Addresses are ordered like the numbers they spell. *)
Definition is_core_precompile (address : H160) : bool :=
  (PRECOMPILE_ADDRESS_START <=? be_val address) && (be_val address <? PREDEPLOY_ADDRESS_START).
(** [SystemContractsFilter::is_allowed]. *)
Definition is_allowed (caller : H160) : bool := is_system_contract caller.

Definition RATIO : Z := 9000.
(** [GasToWeight::convert]. *)
Definition GasToWeight (gas : Z) : Z := sat_mul U64_MAX gas RATIO.

(** [vec_u8_from_balance] and [vec_u8_from_u32]. *)
Definition vec_u8 (b : Z) : bytes := be_bytes 32 b.

(** ** The chain's precompiles *)

(** A scheduled [scheduled_call] of the EVM pallet. *)
Record ScheduledCall : Type := mkScheduledCall {
  sc_from : H160;
  sc_target : H160;
  sc_input : bytes;
  sc_value : Z;
  sc_gas_limit : Z;
  sc_storage_limit : Z;
}.
Record TaskInfo : Type := mkTaskInfo {
  task_prefix : bytes;
  task_id : Z;
  task_sender : H160;
  task_fee : Z;
}.

(** The trait [ScheduleNamed] (pallet-scheduler), and the storage [EvmSchedulerNextID]. *)
Class Scheduler (X : Type) : Type := {
  schedule_named : bytes -> Z -> ScheduledCall -> M X unit unit;
  cancel_named : bytes -> M X unit unit;
  reschedule_named : bytes -> Z -> M X DispatchError unit;
  next_id : X -> Z;
  set_next_id : Z -> X -> X;
}.

Section precompiles.
Context {X : Type} `{Currency X AccountId} `{AddressMapping X AccountId}.
Context `{MultiCurrency X AccountId CurrencyId} `{TransactionPayment X AccountId} `{Scheduler X}.
Variable cfg : EvmConfig.
Variable usize_max : Z.
(** The SCALE codec of [TaskInfo]. *)
Variable encode_task : TaskInfo -> bytes.
Variable decode_task : bytes -> option TaskInfo.
(** The runtime's [GasToWeight]. *)
Variable gas_to_weight : Z -> Z.

Abbreviation MP := (M (Evm X) ExitError).
Abbreviation Answer := (ExitSucceed * bytes * Z)%type.

Definition account_id_at (content : bytes) (index : nat) : MP AccountId :=
  let! a := mlift (evm_address_at content index) in
  mgets (fun s => get_account_id (rest s) a).

(** The error of another pallet as an EVM error. *)
Definition exit_other (e : DispatchError) : ExitError := ExitOther (dispatch_error_str e).

(** *** MultiCurrency *)
Inductive McAction : Type := QueryTotalIssuance | QueryBalance | TransferAction.
Definition mc_action (v : Z) : option McAction :=
  if v =? 0 then Some QueryTotalIssuance else if v =? 1 then Some QueryBalance
  else if v =? 2 then Some TransferAction else None.

Definition multicurrency_execute (input : bytes) : MP Answer :=
  let! action := mlift (input_action mc_action input) in
  let! currency_id := mlift (currency_id_at input 1) in
  match action with
  | QueryTotalIssuance =>
      let! s := mget in ret (Returned, vec_u8 (mc_total_issuance (rest s) currency_id), 0)
  | QueryBalance =>
      let! who := account_id_at input 2 in
      let! s := mget in ret (Returned, vec_u8 (mc_total_balance (rest s) currency_id who), 0)
  | TransferAction =>
      let! from := account_id_at input 2 in
      let! to := account_id_at input 3 in
      let! amount := mlift (balance_at input 4) in
      do! mmap_err exit_other (on_rest (mc_transfer currency_id from to amount)) in
      ret (Returned, [], 0)
  end.

(** *** StateRent *)
Inductive SrAction : Type :=
| QueryNewContractExtraBytes | QueryStorageDepositPerByte | QueryMaintainer
| QueryDeveloperDeposit | QueryDeploymentFee | TransferMaintainer.
Definition sr_action (v : Z) : option SrAction :=
  if v =? 0 then Some QueryNewContractExtraBytes
  else if v =? 1 then Some QueryStorageDepositPerByte
  else if v =? 2 then Some QueryMaintainer
  else if v =? 3 then Some QueryDeveloperDeposit
  else if v =? 4 then Some QueryDeploymentFee
  else if v =? 128 then Some TransferMaintainer else None.

Definition state_rent_execute (input : bytes) : MP Answer :=
  let! action := mlift (input_action sr_action input) in
  match action with
  | QueryNewContractExtraBytes => ret (Returned, vec_u8 (NewContractExtraBytes cfg), 0)
  | QueryStorageDepositPerByte => ret (Returned, vec_u8 (StorageDepositPerByte cfg), 0)
  | QueryMaintainer =>
      let! contract := mlift (evm_address_at input 1) in
      let! s := mget in
      let! mt := mlift (rmap_err exit_other (query_maintainer s contract)) in
      ret (Returned, replicate 12 0 ++ mt, 0)
  | QueryDeveloperDeposit => ret (Returned, vec_u8 (DeveloperDeposit cfg), 0)
  | QueryDeploymentFee => ret (Returned, vec_u8 (DeploymentFee cfg), 0)
  | TransferMaintainer =>
      let! from := account_id_at input 1 in
      let! contract := mlift (evm_address_at input 2) in
      let! new_maintainer := mlift (evm_address_at input 3) in
      do! mmap_err exit_other (do_transfer_maintainer from contract new_maintainer) in
      ret (Returned, [], 0)
  end.

(** *** ScheduleCall *)
Inductive ScAction : Type := Schedule | Cancel | Reschedule.
Definition sc_action (v : Z) : option ScAction :=
  if v =? 0 then Some Schedule else if v =? 1 then Some Cancel
  else if v =? 2 then Some Reschedule else None.

(** [b"ScheduleCall"]. *)
Definition schedule_prefix : bytes := [83; 99; 104; 101; 100; 117; 108; 101; 67; 97; 108; 108].

(** The result of [Schedule]: 96 bytes, the length of the task id and the task id. *)
Definition task_id_with_len (id : bytes) : res ExitError bytes :=
  let head := be_bytes 32 (Z.of_nat (length id)) in
  if (length id <=? 64)%nat then Ok (head ++ id ++ replicate (64 - length id) 0) else Panic.

Definition schedule (input : bytes) : MP Answer :=
  let! from := mlift (evm_address_at input 1) in
  let! target := mlift (evm_address_at input 2) in
  let! val := mlift (balance_at input 3) in
  let! gas_limit := mlift (u64_at input 4) in
  let! storage_limit := mlift (u32_at input 5) in
  let! min_delay := mlift (u32_at input 6) in
  let! input_len := mlift (u32_at input 7) in
  let! input_data := mlift (bytes_at usize_max input 256 input_len) in
  let! fee :=
    if with_ethereum_compatibility cfg then ret 0
    else
      let! s := mget in
      mmap_err exit_other
        (on_rest (reserve_fee (get_account_id (rest s) from) (gas_to_weight gas_limit))) in
  let call := mkScheduledCall from target input_data val gas_limit storage_limit in
  let! s := mget in
  let current_id := next_id (rest s) in
  let! nid := mlift (ok_or (checked_add U32_MAX current_id 1) (ExitOther "Scheduler next id overflow")) in
  do! mmodify (fun s => set_rest (set_next_id nid (rest s)) s) in
  let id := encode_task (mkTaskInfo schedule_prefix current_id from fee) in
  do! mmap_err (fun _ => ExitOther "Schedule failed") (on_rest (schedule_named id min_delay call)) in
  let! out := mlift (task_id_with_len id) in
  ret (Returned, out, 0).

(** The task of a cancellation or a postponement, owned by [from]. *)
Definition owned_task (from : H160) (id : bytes) : MP TaskInfo :=
  let! info := mlift (ok_or (decode_task id) (ExitOther "Decode task_id failed")) in
  do! mensure (bool_decide (task_sender info = from)) (ExitOther "NoPermission") in
  ret info.

Definition cancel (input : bytes) : MP Answer :=
  let! from := mlift (evm_address_at input 1) in
  let! task_id_len := mlift (u32_at input 2) in
  let! id := mlift (bytes_at usize_max input 96 task_id_len) in
  let! info := owned_task from id in
  do! mmap_err (fun _ => ExitOther "Cancel schedule failed") (on_rest (cancel_named id)) in
  do! (if with_ethereum_compatibility cfg then ret tt
       else mmodify (fun s =>
         set_rest (unreserve_fee (get_account_id (rest s) from) (task_fee info) (rest s)) s)) in
  ret (Returned, [], 0).

Definition reschedule (input : bytes) : MP Answer :=
  let! from := mlift (evm_address_at input 1) in
  let! min_delay := mlift (u32_at input 2) in
  let! task_id_len := mlift (u32_at input 3) in
  let! id := mlift (bytes_at usize_max input 128 task_id_len) in
  let! _ := owned_task from id in
  do! mmap_err exit_other (on_rest (reschedule_named id min_delay)) in
  ret (Returned, [], 0).

Definition schedule_call_execute (raw : bytes) : MP Answer :=
  let! input := mlift (slice 32 (length raw) raw) in
  let! action := mlift (input_action sc_action input) in
  match action with
  | Schedule => schedule input
  | Cancel => cancel input
  | Reschedule => reschedule input
  end.

(** *** Dispatch: [AllPrecompiles::execute] *)
Variable builtin : H160 -> bytes -> option Z -> option PrecompileResult.

Definition AllPrecompiles_execute (address : H160) (input : bytes) (target_gas : option Z)
    (context : Context) (s : Evm X) : Evm X * option PrecompileResult :=
  match builtin address input target_gas with
  | Some r => (s, Some r)
  | None =>
      if is_core_precompile address && negb (is_allowed (ctx_caller context))
      then (s, Some (Err (ExitOther "no permission")))
      else
        let at_ n := bool_decide (address = from_low_u64_be n) in
        let some (m : MP Answer) := let '(s', r) := m s in (s', Some r) in
        if at_ PRECOMPILE_ADDRESS_START then some (multicurrency_execute input)
        else if at_ (PRECOMPILE_ADDRESS_START + 2) then some (state_rent_execute input)
        else if at_ (PRECOMPILE_ADDRESS_START + 4) then some (schedule_call_execute input)
        else (s, None)
  end.
End precompiles.

(** ** Decoding of parameters *)

(** The input made of 32-byte words. *)
Definition words (ws : list bytes) : bytes := concat ws.
Definition all_words (ws : list bytes) : Prop := Forall (fun w => length w = 32%nat) ws.

Lemma length_words ws : all_words ws -> length (words ws) = (32 * length ws)%nat.
Proof.
  induction 1 as [|w ws Hw _ IH]; [done|]. unfold words in *. cbn [concat length].
  rewrite length_app, IH, Hw. lia.
Qed.

Lemma words_slice ws n w :
  all_words ws -> ws !! n = Some w -> take 32 (drop (32 * n) (words ws)) = w.
Proof.
  intros Hw. revert n. induction Hw as [|w0 ws Hw0 Hws IH]; intros n; [done|].
  unfold words in *. destruct n as [|n]; cbn [concat lookup list_lookup].
  - intros [= ->]. rewrite Nat.mul_0_r, drop_0. by apply take_app_length'.
  - intros Hn. rewrite drop_app_ge by lia. rewrite <- (IH n Hn). do 2 f_equal. lia.
Qed.

(** The [n]-th word of an input is its [n]-th parameter. *)
Lemma nth_param_words ws n w : all_words ws -> ws !! n = Some w -> nth_param (words ws) n = Ok w.
Proof.
  intros Hw Hn. unfold nth_param. pose proof (lookup_lt_Some _ _ _ Hn) as Hlt.
  rewrite length_words by done. unfold PER_PARAM_BYTES.
  destruct (Nat.leb_spec (32 * n + 32) (32 * length ws)); [|lia]. cbn [andb rbind rensure].
  apply slice_Ok. rewrite length_words by done. split; [lia|].
  rewrite <- (words_slice ws n w Hw Hn) at 1. f_equal. lia.
Qed.

Lemma nth_param_total content n :
  nth_param content n = Err (ExitOther "invalid input") \/
  exists w, nth_param content n = Ok w /\ length w = 32%nat.
Proof.
  unfold nth_param, PER_PARAM_BYTES. destruct (Nat.leb_spec (32 * n + 32) (length content)) as [Hle|]; [|by left].
  right. cbn [andb rbind rensure]. unfold slice.
  destruct (Nat.leb_spec (32 * n) (32 * n + 32)); [|lia].
  destruct (Nat.leb_spec (32 * n + 32) (length content)); [|lia].
  eexists. split; [reflexivity|]. rewrite length_take, length_drop. lia.
Qed.

Lemma be_bytes_app n m z :
  be_bytes (n + m) z = be_bytes n (z / 256 ^ Z.of_nat m) ++ be_bytes m z.
Proof.
  revert z. induction m as [|m IH]; intros z.
  - by rewrite Nat.add_0_r, Z.div_1_r, app_nil_r.
  - rewrite Nat.add_succ_r. cbn [be_bytes]. rewrite IH, app_assoc. do 3 f_equal.
    rewrite Nat2Z.inj_succ, Z.pow_succ_r by lia. by rewrite Z.div_div by lia.
Qed.

Lemma uint_at_word k ws n v :
  (k <= 32)%nat -> all_words ws -> 0 <= v < 256 ^ Z.of_nat k ->
  ws !! n = Some (be_bytes 32 v) -> uint_at k (words ws) n = Ok v.
Proof.
  intros Hk Hw Hv Hn. unfold uint_at. rewrite (nth_param_words ws n _ Hw Hn). cbn [andb rbind rensure].
  unfold slice. rewrite length_be_bytes. unfold PER_PARAM_BYTES.
  destruct (Nat.leb_spec (32 - k) 32); [|lia]. destruct (Nat.leb_spec 32 32); [|lia]. cbn [andb rbind rensure].
  assert (drop (32 - k) (be_bytes 32 v) = be_bytes k v) as ->.
  { replace (be_bytes 32 v) with (be_bytes ((32 - k) + k) v) by (f_equal; lia).
    rewrite be_bytes_app. apply drop_app_length'. by rewrite length_be_bytes. }
  rewrite take_ge by (rewrite length_be_bytes; lia).
  f_equal. by apply be_val_be_bytes_small.
Qed.

(** Arguments of a precompile survive their ABI encoding: in an input made of
    32-byte words, a number that fits is read back from its word, an address from
    its left-padded word, and a token or liquidity share from its 32-byte form; a
    parameter beyond the end is the error [invalid input]. *)
Theorem params_round_trip ws n :
  all_words ws ->
  (forall v, ws !! n = Some (be_bytes 32 v) ->
     (0 <= v <= U128_MAX -> balance_at (words ws) n = Ok v) /\
     (0 <= v <= U64_MAX -> u64_at (words ws) n = Ok v) /\
     (0 <= v <= U32_MAX -> u32_at (words ws) n = Ok v)) /\
  (forall a, length a = 20%nat -> ws !! n = Some (replicate 12 0 ++ a) ->
     evm_address_at (words ws) n = Ok a) /\
  (forall c, is_token_currency_id c = true \/ is_dex_share_currency_id c = true ->
     ws !! n = Some (currency_id_bytes c) -> currency_id_at (words ws) n = Ok c) /\
  ((length ws <= n)%nat -> nth_param (words ws) n = Err (ExitOther "invalid input")).
Proof.
  intros Hw. split_and!.
  - intros v Hn. split_and!; intros Hv; apply uint_at_word; try done; try lia;
      unfold U128_MAX, U64_MAX, U32_MAX in Hv; simpl; lia.
  - intros a Ha Hn. unfold evm_address_at. rewrite (nth_param_words ws n _ Hw Hn). cbn [andb rbind rensure].
    apply slice_Ok. rewrite length_app, length_replicate, Ha. split; [lia|].
    rewrite drop_app_length' by done. by rewrite take_ge by lia.
  - intros c Hc Hn. unfold currency_id_at. rewrite (nth_param_words ws n _ Hw Hn). cbn [andb rbind rensure].
    rewrite length_currency_id_bytes. cbn [Nat.eqb rbind]. by rewrite currency_id_decode.
  - intros Hn. unfold nth_param, PER_PARAM_BYTES. rewrite length_words by done.
    destruct (Nat.leb_spec (32 * n + 32) (32 * length ws)); [lia|done].
Qed.

(** ** Panics *)

(** [bytes_at] panics exactly when [start + len] leaves [usize]. *)
Lemma bytes_at_panics usize_max content start len :
  0 <= start <= Z.of_nat (length content) -> Z.of_nat (length content) <= usize_max ->
  0 <= len <= usize_max ->
  bytes_at usize_max content start len = Panic <-> usize_max < start + len.
Proof.
  intros Hs Hc Hl. unfold bytes_at, wrap_add, wrap. destruct (Z.ltb_spec usize_max (start + len)) as [Ho|Ho].
  - split; [done|]. intros _.
    assert ((start + len) mod (usize_max + 1) = start + len - (usize_max + 1)) as ->.
    { symmetry. apply (Z.mod_unique _ _ 1); lia. }
    destruct (Z.leb_spec (start + len - (usize_max + 1)) (Z.of_nat (length content))); [|lia].
    cbn [rbind rensure]. unfold slice.
    destruct (Nat.leb_spec (Z.to_nat start) (Z.to_nat (start + len - (usize_max + 1)))); [lia|done].
  - rewrite Z.mod_small by lia. split; [|lia].
    destruct (Z.leb_spec (start + len) (Z.of_nat (length content))); [|discriminate].
    cbn [rbind rensure]. unfold slice.
    destruct (Nat.leb_spec (Z.to_nat start) (Z.to_nat (start + len))); [|lia].
    by destruct (Nat.leb_spec (Z.to_nat (start + len)) (length content)); [|lia].
Qed.

Section schedule_theorems.
Context {X : Type} `{Currency X AccountId} `{AddressMapping X AccountId}.
Context `{MultiCurrency X AccountId CurrencyId} `{TransactionPayment X AccountId} `{Scheduler X}.
Variable cfg : EvmConfig.
Variable encode_task : TaskInfo -> bytes.
Variable decode_task : bytes -> option TaskInfo.
Variable gas_to_weight : Z -> Z.

(** The scheduling precompile panics on malformed input: on every input shorter
    than 32 bytes, and, where [usize] has 32 bits as in the WebAssembly runtime, on
    a request whose eight words decode and whose announced data length brings the
    end of the data past [usize] (the unchecked sum wraps around and the slice ends
    before it starts); a smaller announced length never panics. *)
Theorem schedule_call_panics raw (s : Evm X) :
  ((length raw < 32)%nat ->
     schedule_call_execute cfg U32_MAX encode_task decode_task gas_to_weight raw s = (s, Panic)) /\
  (forall ws len v, all_words ws -> length ws = 8%nat ->
     ws !! 7%nat = Some (be_bytes 32 len) -> 0 <= len <= U32_MAX ->
     is_ok (evm_address_at (words ws) 1) = true -> is_ok (evm_address_at (words ws) 2) = true ->
     v = words ws ->
     (bytes_at U32_MAX v 256 len = Panic <-> U32_MAX - 256 < len) /\
     (U32_MAX - 256 < len ->
      (schedule cfg U32_MAX encode_task gas_to_weight v s) = (s, Panic))).
Proof.
  split.
  - intros Hl. unfold schedule_call_execute, bind, mlift, slice.
    destruct (Nat.leb_spec 32 (length raw)); [lia|done].
  - intros ws len v Hw H8 H7 Hlen H1' H2' ->.
    assert (Hb : bytes_at U32_MAX (words ws) 256 len = Panic <-> U32_MAX - 256 < len).
    { rewrite bytes_at_panics; rewrite ?length_words, ?H8 by done; unfold U32_MAX in *; lia. }
    split; [exact Hb|]. intros Hbig. apply Hb in Hbig. unfold schedule, bind, mlift.
    assert (Hu : forall k n, (k <= 32)%nat -> (n < 8)%nat -> exists v, uint_at k (words ws) n = Ok v).
    { intros k n Hk Hn. destruct (lookup_lt_is_Some_2 ws n ltac:(lia)) as [w Hwn].
      unfold uint_at. rewrite (nth_param_words ws n w Hw Hwn). cbn [rbind].
      unfold all_words in Hw. rewrite Forall_lookup in Hw. rewrite (Hw n w Hwn). unfold slice, PER_PARAM_BYTES.
      destruct (Nat.leb_spec (32 - k) 32); [|lia].
      destruct (Nat.leb_spec 32 (length w)); [|rewrite (Hw n w Hwn) in *; lia].
      cbn [andb rbind]. by eexists. }
    destruct (evm_address_at (words ws) 1) as [from|e|]; [|discriminate..].
    destruct (evm_address_at (words ws) 2) as [tgt|e|]; [|discriminate..].
    destruct (Hu 16%nat 3%nat) as [v3 E3]; [lia..|]. destruct (Hu 8%nat 4%nat) as [v4 E4]; [lia..|].
    destruct (Hu 4%nat 5%nat) as [v5 E5]; [lia..|]. destruct (Hu 4%nat 6%nat) as [v6 E6]; [lia..|].
    unfold balance_at, u64_at, u32_at. rewrite E3, E4, E5, E6.
    rewrite (uint_at_word 4 ws 7 len) by (done || lia || (unfold U32_MAX in *; simpl; lia)).
    by rewrite Hbig.
Qed.
End schedule_theorems.

(** ** Permissions *)
Lemma be_val_zeros n l : be_val (replicate n 0 ++ l) = be_val l.
Proof.
  unfold be_val. rewrite foldl_app. f_equal. induction n as [|n IH]; simpl; [done|exact IH].
Qed.

Lemma be_val_low n : 0 <= n <= U64_MAX -> be_val (from_low_u64_be n) = n.
Proof.
  intros Hn. unfold from_low_u64_be. rewrite be_val_zeros.
  apply be_val_be_bytes_small. unfold U64_MAX in Hn. simpl. lia.
Qed.

Lemma starts_with_take p l : starts_with p l = true <-> take (length p) l = p.
Proof. unfold starts_with. by rewrite bool_decide_eq_true. Qed.

(** A system contract's address has the prefix that is refused to created contracts. *)
Lemma system_contract_prefix a :
  is_system_contract a = true -> starts_with SYSTEM_CONTRACT_ADDRESS_PREFIX a = true.
Proof.
  unfold is_system_contract, SYSTEM_CONTRACT_LEADING_ZERO_BYTES. rewrite bool_decide_eq_true. intros Ha.
  apply starts_with_take. unfold SYSTEM_CONTRACT_ADDRESS_PREFIX. rewrite length_replicate.
  replace (take 11 a) with (take 11 (take 12 a)) by (by rewrite take_take). by rewrite Ha.
Qed.

Section permissions.
Context {X : Type} `{Currency X AccountId} `{AddressMapping X AccountId}.
Context `{MultiCurrency X AccountId CurrencyId} `{TransactionPayment X AccountId} `{Scheduler X}.
Variable cfg : EvmConfig.
Variable usize_max : Z.
Variable encode_task : TaskInfo -> bytes.
Variable decode_task : bytes -> option TaskInfo.
Variable gas_to_weight : Z -> Z.
Variable keccak : bytes -> H256.
Variable rlp_list : H160 -> Z -> bytes.
Variable keccak256 sha256 ripemd160 sha3_256 sha3_512 : bytes -> bytes.
Variable ecdsa_recover : bytes -> bytes -> option bytes.

Abbreviation builtins := (EvmPrecompiles_execute usize_max keccak256 sha256 ripemd160 sha3_256 sha3_512
  ecdsa_recover).
Abbreviation all_precompiles :=
  (AllPrecompiles_execute cfg usize_max encode_task decode_task gas_to_weight builtins).

(** No builtin precompile lies in the chain's range. *)
Lemma builtins_below address input tg :
  is_core_precompile address = true -> builtins address input tg = None.
Proof.
  unfold is_core_precompile, PRECOMPILE_ADDRESS_START, PREDEPLOY_ADDRESS_START. intros Hc.
  assert (Hne : forall n, 0 <= n < 1024 -> bool_decide (address = from_low_u64_be n) = false).
  { intros n Hn. apply bool_decide_eq_false. intros ->. rewrite be_val_low in Hc by (unfold U64_MAX; lia). lia. }
  unfold EvmPrecompiles_execute. by rewrite !Hne by lia.
Qed.

Lemma create_address_prefix scheme (s0 : Evm X) a :
  create_address keccak rlp_list scheme s0 = Ok a -> starts_with SYSTEM_CONTRACT_ADDRESS_PREFIX a = false.
Proof. unfold create_address. destruct (starts_with _ _) eqn:E; [discriminate|]. by intros [= <-]. Qed.

(** C17. Contracts that users create cannot reach the chain's precompiles: a contract
    address that the EVM hands out never passes the caller filter, and its call to
    any address of the precompile range is refused with [no permission] and changes
    nothing. *)
Theorem user_contract_refused scheme (s0 s : Evm X) address input tg context :
  create_address keccak rlp_list scheme s0 = Ok (ctx_caller context) ->
  is_core_precompile address = true ->
  is_allowed (ctx_caller context) = false /\
  all_precompiles address input tg context s = (s, Some (Err (ExitOther "no permission"))).
Proof.
  intros Hcr Hcore.
  assert (Hn : is_allowed (ctx_caller context) = false).
  { apply not_true_iff_false. intros Ha%system_contract_prefix.
    apply create_address_prefix in Hcr. congruence. }
  split; [done|]. unfold AllPrecompiles_execute. rewrite builtins_below by done. by rewrite Hcore, Hn.
Qed.

Lemma task_id_with_len_Ok id out :
  task_id_with_len id = Ok out ->
  out = be_bytes 32 (Z.of_nat (length id)) ++ id ++ replicate (64 - length id) 0.
Proof. unfold task_id_with_len. destruct (length id <=? 64)%nat; congruence. Qed.

(** The fee of a scheduled call, and the storage after its reservation. *)
Definition reserved_fee (from : H160) (gas_limit : Z) (x x' : X) (fee : Z) : Prop :=
  if with_ethereum_compatibility cfg then x' = x /\ fee = 0
  else reserve_fee (get_account_id x from) (gas_to_weight gas_limit) x = (x', Ok fee).

(** A scheduled call belongs to who scheduled it: when the task codec decodes
    what it encodes, a successful request has reserved the fee for the gas limit from
    the sender, and returns the id of a task with that sender, that fee and the
    number of the scheduler's counter; cancelling or moving the task is allowed to
    that sender and refused to every other. *)
Theorem scheduled_task_owned input from (s s' : Evm X) r out g :
  (forall t, decode_task (encode_task t) = Some t) ->
  evm_address_at input 1 = Ok from ->
  schedule cfg usize_max encode_task gas_to_weight input s = (s', Ok (r, out, g)) ->
  exists id fee x' gl pad,
    u64_at input 4 = Ok gl /\ reserved_fee from gl (rest s) x' fee /\
    out = be_bytes 32 (Z.of_nat (length id)) ++ id ++ pad /\
    decode_task id = Some (mkTaskInfo schedule_prefix (next_id x') from fee) /\
    (forall other (t : Evm X), other <> from ->
       owned_task decode_task other id t = (t, Err (ExitOther "NoPermission"))) /\
    (forall t : Evm X, owned_task decode_task from id t
       = (t, Ok (mkTaskInfo schedule_prefix (next_id x') from fee))).
Proof.
  intros Hcodec Hfrom. unfold schedule. intros Hrun. run_inv.
  match goal with Hx : evm_address_at input 1 = Ok ?f |- _ =>
    lazymatch f with from => fail | _ => rewrite Hfrom in Hx; injection Hx as <- end end.
  match goal with Hid : task_id_with_len ?i = Ok _, Hg : u64_at input 4 = Ok ?gl,
    Hf : (if with_ethereum_compatibility cfg then _ else _) s = (?s2, Ok ?fee) |- _ =>
    exists i, fee, (rest s2), gl, (replicate (64 - length i) 0); apply task_id_with_len_Ok in Hid;
    assert (reserved_fee from gl (rest s) (rest s2) fee) as Hres
  end.
  { unfold reserved_fee. match goal with Hf : (if with_ethereum_compatibility cfg then _ else _) s = _ |- _ =>
      revert Hf end.
    destruct (with_ethereum_compatibility cfg); intros Hf; run_inv; [done|].
    match goal with Hf : on_rest ?m s = _ |- _ => revert Hf; unfold on_rest;
      destruct (m (rest s)) as [x r1] eqn:Em end.
    intros [= <- ->]. done. }
  split_and!; [done|exact Hres|congruence|apply Hcodec|..].
  - intros other t Hne. unfold owned_task, bind, mlift. rewrite Hcodec. simpl.
    by rewrite bool_decide_eq_false_2 by congruence.
  - intros t. unfold owned_task, bind, mlift. rewrite Hcodec. simpl.
    by rewrite bool_decide_eq_true_2.
Qed.
End permissions.

(** ** Witnesses, and a static call that moves balances *)
Module PrecompilesWitness.
Import SimpleLedger EvmPalletWitness HandlerWitness.
(** One ledger for every currency, and a scheduler that keeps nothing. *)
#[export] Instance toy_multi : MultiCurrency W AccountId CurrencyId := {
  mc_minimum_balance _ := 0;
  mc_total_issuance x _ := total_issuance x;
  mc_total_balance x _ a := free_balance x a + reserved_balance x a;
  mc_free_balance x _ a := free_balance x a;
  mc_ensure_can_withdraw _ a v := fun x => (x, if v <=? free_balance x a then Ok tt else Err low);
  mc_transfer _ a b v := transfer a b v AllowDeath;
  mc_deposit _ a v := deposit_into_existing a v;
  mc_withdraw _ a v := withdraw a v AllowDeath;
  mc_can_slash x _ a v := v <=? free_balance x a;
  mc_slash _ a v := fun x => (x, v);
}.
#[export] Instance toy_fees : TransactionPayment W AccountId := {
  reserve_fee a w := fun x => let '(x', r) := reserve a w x in (x', rbind r (fun _ => Ok w));
  unreserve_fee a v x := (unreserve a v x).1;
  unreserve_and_charge_fee _ _ := ret (0, 0);
  refund_fee _ _ _ := ret tt;
  drop_negative_imbalance _ x := x;
}.
#[export] Instance toy_scheduler : Scheduler W := {
  schedule_named _ _ _ := ret tt;
  cancel_named _ := ret tt;
  reschedule_named _ _ := ret tt;
  next_id _ := 7;
  set_next_id _ x := x;
}.
Definition encode0 (t : TaskInfo) : bytes :=
  [Zpos (encode (task_prefix t, task_id t, task_sender t, task_fee t))].
Definition decode0 (l : bytes) : option TaskInfo :=
  match l with
  | [Zpos p] => (fun '(pr, i, se, fe) => mkTaskInfo pr i se fe) <$> decode p
  | _ => None
  end.
Lemma decode0_encode0 t : decode0 (encode0 t) = Some t.
Proof. unfold decode0, encode0. rewrite decode_encode. by destruct t. Qed.

Definition no_builtin (a : H160) (i : bytes) (g : option Z) : option PrecompileResult := None.
Definition all0 := AllPrecompiles_execute (X := W) cfg0 U32_MAX encode0 decode0 id no_builtin.

Definition bob : H160 := replicate 20 2.
Definition word (a : bytes) : bytes := replicate 12 0 ++ a.
(** Transfer 10 of the native token from alice to bob. *)
Definition transfer_words : list bytes :=
  [be_bytes 32 2; currency_id_bytes (Token REEF); word alice_evm; word bob; be_bytes 32 10].
Lemma transfer_words_ok : all_words transfer_words.
Proof. repeat constructor. Qed.

Lemma params_round_trip_witness : balance_at (words transfer_words) 4 = Ok 10.
Proof.
  refine (proj1 (proj1 (params_round_trip transfer_words 4 transfer_words_ok) 10 eq_refl) _).
  vm_compute. split; discriminate.
Defined.

Definition user : H160 := drop 12 (hash0 (rlp0 alice_evm 0)).
Lemma user_created : create_address hash0 rlp0 (Legacy alice_evm) genesis = Ok user.
Proof. vm_compute. reflexivity. Qed.
Lemma core_1024 : is_core_precompile (from_low_u64_be 1024) = true.
Proof. vm_compute. reflexivity. Qed.
Definition hash32 (b : bytes) : bytes := replicate 32 0.
Definition user_ctx : Context := mkContext (from_low_u64_be 1024) user 0.

Lemma user_contract_refused_witness : is_allowed user = false.
Proof.
  exact (proj1 (user_contract_refused cfg0 U32_MAX encode0 decode0 id hash0 rlp0 hash32 hash32 hash32
           hash32 hash32 (fun _ _ => None) (Legacy alice_evm) genesis genesis
           (from_low_u64_be 1024) [] None user_ctx user_created core_1024)).
Defined.

Definition request : bytes :=
  words [be_bytes 32 0; word alice_evm; word shop; be_bytes 32 0; be_bytes 32 100; be_bytes 32 0;
         be_bytes 32 5; be_bytes 32 2; be_bytes 32 0].
Definition rich : Evm W := set_rest {[ alice_evm := (5000, 0) ]} with_shop.
Definition scheduled : Evm W * res ExitError (ExitSucceed * bytes * Z) :=
  schedule (X := W) cfg0 U32_MAX encode0 id request rich.
Definition scheduled_out : bytes :=
  match scheduled.2 with Ok (_, out, _) => out | _ => [] end.
Lemma request_from : evm_address_at request 1 = Ok alice_evm.
Proof. vm_compute. reflexivity. Qed.
Lemma scheduled_eq :
  schedule (X := W) cfg0 U32_MAX encode0 id request rich = (scheduled.1, Ok (Returned, scheduled_out, 0)).
Proof. vm_compute. reflexivity. Qed.

Lemma scheduled_task_owned_witness :
  exists id0 fee x' gl pad,
    u64_at request 4 = Ok gl /\ reserved_fee (X := W) cfg0 id alice_evm gl (rest rich) x' fee /\
    scheduled_out = be_bytes 32 (Z.of_nat (length id0)) ++ id0 ++ pad /\
    decode0 id0 = Some (mkTaskInfo schedule_prefix (next_id x') alice_evm fee) /\
    (forall other (t : Evm W), other <> alice_evm ->
       owned_task decode0 other id0 t = (t, Err (ExitOther "NoPermission"))) /\
    (forall t : Evm W, owned_task decode0 alice_evm id0 t
       = (t, Ok (mkTaskInfo schedule_prefix (next_id x') alice_evm fee))).
Proof.
  exact (scheduled_task_owned cfg0 U32_MAX encode0 decode0 id request alice_evm rich scheduled.1
           Returned scheduled_out 0 decode0_encode0 request_from scheduled_eq).
Defined.

(** The pre-deployed token contract at 0x800 passes a request on to the precompile. *)
Definition token_contract : H160 := from_low_u64_be 2048.
Definition token_run (code input : bytes) (ctx : Context) : Prog :=
  PCall (from_low_u64_be 1024) None input None false
    (mkContext (from_low_u64_be 1024) (ctx_address ctx) 0) (fun r => PExit r.1 r.2).
Definition static_transfer :=
  execute (X := W) (G := Z) cfg0 hash0 rlp0 true 2300 token_run all0 alice_evm
    3 true user token_contract 0 [] (words transfer_words)
    (mkHState rich 100000 (mkMeter token_contract 0 0 0 0 0 (Ok tt)) []).

(** A static call can move balances: the precompiles are not told that the call
    is static, so when a pre-deployed token contract, itself called statically by a
    user contract, passes a transfer on to the MultiCurrency precompile, the static
    execution succeeds and the receiver's balance has grown. *)
Theorem static_call_moves_balances :
  static_transfer.2 = Done (Succeed Returned, []) /\
  free_balance (rest (store static_transfer.1)) bob = free_balance (rest rich) bob + 10 /\
  free_balance (rest (store static_transfer.1)) alice_evm = free_balance (rest rich) alice_evm - 10.
Proof. vm_compute. done. Qed.
End PrecompilesWitness.
