(* ===== verification/TxPayment.v ===== *)
(** * The transaction payment pallet

    Models [src/modules/transaction_payment/src/lib.rs]: the fee of a transaction, the
    signed extension that withdraws it before and settles it after the dispatch, the
    fee multiplier that follows the load of the blocks, and the implementation of
    [TransactionPayment] through which the EVM pallet charges scheduled calls.

    [FixedU128] (a [u128] in units of 10^-18) and [Perquintill] belong to
    [sp_arithmetic]: their multiplications and quotients are the operations of the class
    [FixedArith], with the laws [FixedLaws] that their documentation gives; addition and
    comparison act on the inner integers.  [WeightToFee], [FeeDetails::final_fee] and the
    corrections of [PostDispatchInfo] are arguments, with laws where theorems need them.
    A weight is its reference time, the only component the pallet looks at.  Imbalances
    are amounts, as in [Tokens]. *)

From stdpp Require Import base gmap list strings.
From Stdlib Require Import ZArith Lia.
From S2P Require Import Prelude Interfaces Primitives Tokens.

Local Open Scope Z_scope.

(** ** Arithmetic of multipliers *)
Definition DIV : Z := 1000000000000000000.

Class FixedArith : Type := {
  (** [FixedU128::saturating_from_rational], [saturating_mul], [saturating_mul_int], [/]. *)
  fx_from_rational : Z -> Z -> Z;
  fx_mul : Z -> Z -> Z;
  fx_mul_int : Z -> Z -> Z;
  fx_div : Z -> Z -> Z;
  (** [Perquintill * u64]. *)
  pq_mul : Z -> Z -> Z;
}.
Definition fx_from_integer (n : Z) : Z := sat_mul U128_MAX n DIV.

(** A result that does not saturate is off by less than one unit. *)
Definition rounds (r n d : Z) : Prop := n - d < r * d < n + d.
Class FixedLaws `{FixedArith} : Prop := {
  fx_from_rational_rounds n d : 0 <= n -> 0 < d -> n * DIV <= U128_MAX * d ->
    0 <= fx_from_rational n d /\ rounds (fx_from_rational n d) (n * DIV) d;
  fx_mul_rounds a b : 0 <= a -> 0 <= b -> a * b <= U128_MAX * DIV ->
    0 <= fx_mul a b /\ rounds (fx_mul a b) (a * b) DIV;
  fx_mul_range a b : 0 <= a -> 0 <= b -> in_u U128_MAX (fx_mul a b);
  fx_mul_int_mono a n m : 0 <= a -> 0 <= n <= m ->
    0 <= fx_mul_int a n <= fx_mul_int a m /\ fx_mul_int a m <= U128_MAX;
  fx_div_rounds a b : 0 <= a -> 0 < b -> a * DIV <= U128_MAX * b ->
    0 <= fx_div a b /\ rounds (fx_div a b) (a * DIV) b;
  pq_mul_rounds p n : 0 <= p <= DIV -> 0 <= n -> 0 <= pq_mul p n <= n /\ rounds (pq_mul p n) (p * n) DIV;
}.

(** ** Configuration *)
Inductive DispatchClass : Type := Normal | Operational | Mandatory.
Inductive Pays : Type := PaysYes | PaysNo.

Record DispatchInfo : Type := mkInfo { info_weight : Z; info_class : DispatchClass; info_pays : Pays }.
Record InclusionFee : Type := mkInclusion { base_fee : Z; len_fee : Z; adjusted_weight_fee : Z }.
Record FeeDetails : Type := mkFeeDetails { inclusion_fee : option InclusionFee; fd_tip : Z }.

(** [BlockWeights], [BlockLength], [TransactionByteFee], [AllNonNativeCurrencyIds] and
    the parameters of [TargetedFeeAdjustment]. *)
Record PaymentConfig : Type := mkPaymentConfig {
  max_block : Z;
  normal_max_total : option Z;
  base_extrinsic : DispatchClass -> Z;
  max_length_normal : Z;
  TransactionByteFee : Z;
  AllNonNativeCurrencyIds : list CurrencyId;
  NativeCurrencyId : CurrencyId;
  TargetBlockFullness : Z;
  AdjustmentVariable : Z;
  MinimumMultiplier : Z;
}.

(** ** The multiplier *)
Section multiplier.
Context `{FixedArith} (cfg : PaymentConfig).

(** [TargetedFeeAdjustment::convert], with the weight of the normal class in the
    block as an argument. *)
Definition convert (block_weight_normal previous : Z) : Z :=
  let min_multiplier := MinimumMultiplier cfg in
  let previous := Z.max previous min_multiplier in
  let normal_max_weight := default (max_block cfg) (normal_max_total cfg) in
  let normal_block_weight := Z.min block_weight_normal normal_max_weight in
  let s := TargetBlockFullness cfg in
  let v := AdjustmentVariable cfg in
  let target_weight := pq_mul s normal_max_weight in
  let block_weight := normal_block_weight in
  let positive := target_weight <=? block_weight in
  let diff_abs := Z.max block_weight target_weight - Z.min block_weight target_weight in
  let diff := fx_from_rational diff_abs (Z.max normal_max_weight 1) in
  let diff_squared := fx_mul diff diff in
  let v_squared_2 := fx_div (fx_mul v v) (fx_from_integer 2) in
  let first_term := fx_mul v diff in
  let second_term := fx_mul v_squared_2 diff_squared in
  if positive then
    let excess := fx_mul (sat_add U128_MAX first_term second_term) previous in
    Z.max (sat_add U128_MAX previous excess) min_multiplier
  else
    let negative := fx_mul (sat_sub first_term second_term) previous in
    Z.max (sat_sub previous negative) min_multiplier.

(** [integrity_test]: the multiplier can hold the block weight, and at its minimum it
    grows on a block one percent above the target.  [expect] panics without a limit
    for the normal class. *)
Definition integrity_test : res DispatchError bool :=
  let? max_total := expect (normal_max_total cfg) in
  let target := pq_mul (TargetBlockFullness cfg) max_total in
  let addition := target / 100 in
  let fits := (max_block cfg * DIV <=? U128_MAX) in
  Ok (fits && ((addition =? 0)
               || (MinimumMultiplier cfg <? convert (target + addition) (MinimumMultiplier cfg)))).
End multiplier.

(** ** The pallet *)
Record TxEvent (A : Type) : Type := TransactionFeePaid { paid_by : A; actual_fee : Z; actual_tip : Z }.
Arguments TransactionFeePaid {A}.

Record TxPayment (X A : Type) `{Countable A} : Type := mkTxPayment {
  NextFeeMultiplier : Z;
  DefaultFeeCurrencyId : gmap A CurrencyId;
  tx_events : list (TxEvent A);
  tx_rest : X;
}.
Arguments mkTxPayment {X A EqDecision0 H}. Arguments NextFeeMultiplier {X A EqDecision0 H}.
Arguments DefaultFeeCurrencyId {X A EqDecision0 H}. Arguments tx_events {X A EqDecision0 H}.
Arguments tx_rest {X A EqDecision0 H}.

Definition DefaultFeeMultiplier : Z := fx_from_integer 1.

(** [Currency] and [ReservableCurrency] with the imbalances as amounts.  The flag is
    the reason: with or without a tip. *)
Class FeeCurrency (X A : Type) : Type := {
  fc_free_balance : X -> A -> Z;
  fc_reserved_balance : X -> A -> Z;
  fc_ensure_can_withdraw : A -> Z -> bool -> Z -> X -> res DispatchError unit;
  fc_withdraw : A -> Z -> bool -> ExistenceRequirement -> M X DispatchError Z;
  fc_deposit_into_existing : A -> Z -> M X DispatchError Z;
  fc_reserve : A -> Z -> M X DispatchError unit;
  fc_unreserve : A -> Z -> X -> X * Z;
  fc_drop_positive : Z -> X -> X;
  fc_drop_negative : Z -> X -> X;
}.

Section pallet.
Context {X A : Type} `{Countable A} `{FeeCurrency X A} `{FixedArith}.
Variable cfg : PaymentConfig.
(** [WeightToFeePolynomial::weight_to_fee] of the configured polynomial. *)
Variable WeightToFee : Z -> Z.
Variable LengthToFee : Z -> Z.
(** [FeeDetails::final_fee], [PostDispatchInfo::calc_actual_weight] and [pays_fee]. *)
Variable final_fee : FeeDetails -> Z.
Context {PostInfo : Type}.
Variable calc_actual_weight : PostInfo -> DispatchInfo -> Z.
Variable post_pays_fee : PostInfo -> DispatchInfo -> Pays.
(** [OnTransactionPayment::on_unbalanceds]. *)
Variable on_unbalanceds : list Z -> X -> X.
Abbreviation St := (TxPayment X A).
Implicit Types s : St.

Definition set_tx_rest x s : St := mkTxPayment (NextFeeMultiplier s) (DefaultFeeCurrencyId s) (tx_events s) x.
Definition set_multiplier m s : St := mkTxPayment m (DefaultFeeCurrencyId s) (tx_events s) (tx_rest s).
Definition set_default_currencies d s : St := mkTxPayment (NextFeeMultiplier s) d (tx_events s) (tx_rest s).
Definition tx_event e s : St :=
  mkTxPayment (NextFeeMultiplier s) (DefaultFeeCurrencyId s) (tx_events s ++ [e]) (tx_rest s).
Definition on_currency {E B} (m : M X E B) : M St E B := fun s =>
  let '(x, r) := m (tx_rest s) in (set_tx_rest x s, r).

(** ** Hooks and calls *)
Definition on_finalize (block_weight_normal : Z) s : St :=
  set_multiplier (convert cfg block_weight_normal (NextFeeMultiplier s)) s.

Definition set_default_fee_token (origin : Origin A) (fee_token : option CurrencyId) : M St DispatchError unit :=
  let! who := mlift (ensure_signed origin) in
  match fee_token with
  | Some c => mmodify (fun s => set_default_currencies (<[who := c]> (DefaultFeeCurrencyId s)) s)
  | None => mmodify (fun s => set_default_currencies (delete who (DefaultFeeCurrencyId s)) s)
  end.

(** ** Fees *)
Definition weight_to_fee (weight : Z) : Z := WeightToFee (Z.min weight (max_block cfg)).
Definition length_to_fee (length : Z) : Z := LengthToFee length.

Definition compute_fee_raw s (len weight tip : Z) (pays_fee : Pays) (class : DispatchClass) : FeeDetails :=
  match pays_fee with
  | PaysYes =>
      let fixed_len_fee := sat_mul U128_MAX (TransactionByteFee cfg) len in
      let unadjusted_weight_fee := weight_to_fee weight in
      let adjusted := fx_mul_int (NextFeeMultiplier s) unadjusted_weight_fee in
      let base := weight_to_fee (base_extrinsic cfg class) in
      mkFeeDetails (Some (mkInclusion base fixed_len_fee adjusted)) tip
  | PaysNo => mkFeeDetails None tip
  end.
Definition compute_fee_details s (len : Z) (info : DispatchInfo) (tip : Z) : FeeDetails :=
  compute_fee_raw s len (info_weight info) tip (info_pays info) (info_class info).
Definition compute_fee s (len : Z) (info : DispatchInfo) (tip : Z) : Z :=
  final_fee (compute_fee_details s len info tip).
Definition compute_actual_fee_details s (len : Z) (info : DispatchInfo) (post : PostInfo) (tip : Z) : FeeDetails :=
  compute_fee_raw s len (calc_actual_weight post info) tip (post_pays_fee post info) (info_class info).
Definition compute_actual_fee s (len : Z) (info : DispatchInfo) (post : PostInfo) (tip : Z) : Z :=
  final_fee (compute_actual_fee_details s len info post tip).

(** [RuntimeDispatchInfo] is the weight, the class and the fee. *)
Definition query_info s (info : DispatchInfo) (len : Z) : Z * DispatchClass * Z :=
  (info_weight info, info_class info, compute_fee s len info 0).
Definition query_fee_details s (info : DispatchInfo) (len : Z) : FeeDetails := compute_fee_details s len info 0.
Definition estimate_call_fee s (encoded_size : Z) (info : DispatchInfo) (post : PostInfo) : Z :=
  compute_actual_fee s (wrap U32_MAX encoded_size) info post 0.
(** [Convert<Weight, Balance>]. *)
Definition convert_weight s (weight : Z) : Z := fx_mul_int (NextFeeMultiplier s) (weight_to_fee weight).

(** [Vec::dedup]: consecutive repetitions are removed. *)
Fixpoint dedup (l : list CurrencyId) : list CurrencyId :=
  match l with
  | [] => []
  | c :: l' =>
      match dedup l' with
      | [] => [c]
      | d :: r => if bool_decide (c = d) then d :: r else c :: d :: r
      end
  end.
Definition charge_fee_order s (who : A) : list CurrencyId :=
  dedup (match DefaultFeeCurrencyId s !! who with
         | Some c => [c; NativeCurrencyId cfg] ++ AllNonNativeCurrencyIds cfg
         | None => [NativeCurrencyId cfg] ++ AllNonNativeCurrencyIds cfg
         end).
Definition native_is_enough (x : X) (who : A) (fee : Z) (tip : bool) : bool :=
  match checked_sub (fc_free_balance x who) fee with
  | Some new_free => is_ok (fc_ensure_can_withdraw who fee tip new_free x)
  | None => false
  end.
(** The swaps of other currencies are commented out: the loop reads and writes
    nothing; here it tells whether it was left early. *)
Fixpoint find_fee_currency (x : X) (who : A) (fee : Z) (tip : bool) (order : list CurrencyId) : bool :=
  match order with
  | [] => false
  | c :: order' =>
      if bool_decide (c = NativeCurrencyId cfg)
      then if native_is_enough x who fee tip then true else find_fee_currency x who fee tip order'
      else find_fee_currency x who fee tip order'
  end.
Definition ensure_can_charge_fee s (who : A) (fee : Z) (tip : bool) : bool :=
  find_fee_currency (tx_rest s) who fee tip (charge_fee_order s who).

(** ** [ChargeTransactionPayment]

    The errors are all [InvalidTransaction::Payment]. *)
Definition withdraw_fee (tip : Z) (who : A) (info : DispatchInfo) (len : Z) : M St unit (Z * option Z) :=
  let! s := mget in
  let fee := compute_fee s (wrap U32_MAX len) info tip in
  let has_tip := negb (tip =? 0) in
  let _ := ensure_can_charge_fee s who fee has_tip in
  let! imbalance := on_currency (mmap_err (fun _ => tt) (fc_withdraw who fee has_tip KeepAlive)) in
  ret (fee, Some imbalance).

Definition get_priority (info : DispatchInfo) (len final_fee : Z) : Z :=
  let weight_saturation := max_block cfg / Z.max (info_weight info) 1 in
  let len_saturation := max_length_normal cfg / Z.max len 1 in
  let coefficient := Z.min weight_saturation len_saturation in
  Z.min (sat_mul U128_MAX final_fee coefficient) U64_MAX.

(** The imbalance of the withdrawal is dropped. *)
Definition validate (tip : Z) (who : A) (info : DispatchInfo) (len : Z) : M St unit Z :=
  let! r := withdraw_fee tip who info len in
  do! mmodify (fun s => set_tx_rest (match r.2 with Some i => fc_drop_negative i (tx_rest s)
                                                  | None => tx_rest s end) s) in
  ret (get_priority info len r.1).

Record Pre : Type := mkPre { pre_tip : Z; pre_who : A; pre_imbalance : option Z; pre_fee : Z }.
Definition pre_dispatch (tip : Z) (who : A) (info : DispatchInfo) (len : Z) : M St unit Pre :=
  let! r := withdraw_fee tip who info len in
  ret (mkPre tip who r.2 r.1).

(** The refund and what is left of the payment, shared by [post_dispatch] and
    [refund_fee].  A refund above the payment is an error, with what exceeds it
    dropped. *)
Definition settle_refund (who : A) (refund payed : Z) : M X unit Z := fun x =>
  match fc_deposit_into_existing who refund x with
  | (x', Ok refund_imbalance) =>
      match imbalance_offset payed refund_imbalance with
      | Same actual_payment => (x', Ok actual_payment)
      | Neither => (x', Ok 0)
      | OtherSide rest => (fc_drop_positive rest x', Err tt)
      end
  | (x', Err _) => (x', Ok payed)
  | (x', Panic) => (x', Panic)
  end.

Definition post_dispatch (pre : option Pre) (info : DispatchInfo) (post : PostInfo) (len : Z) : M St unit unit :=
  match pre with
  | Some (mkPre tip who (Some payed) fee) =>
      let! s := mget in
      let actual_fee := compute_actual_fee s (wrap U32_MAX len) info post tip in
      let refund := sat_sub fee actual_fee in
      let! actual_payment := on_currency (settle_refund who refund payed) in
      let imbalances := imbalance_split actual_payment tip in
      do! mmodify (fun s => set_tx_rest (on_unbalanceds [imbalances.1; imbalances.2] (tx_rest s)) s) in
      mmodify (tx_event (TransactionFeePaid who actual_fee tip))
  | _ => ret tt
  end.

(** ** [TransactionPayment] for the EVM pallet

    [reserve_fee] also calls [ensure_can_charge_fee], which has no effect. *)
Definition reserve_fee_of (who : A) (weight : Z) : M X DispatchError Z :=
  let fee := weight_to_fee weight in
  do! fc_reserve who fee in ret fee.
Definition unreserve_fee_of (who : A) (fee : Z) (x : X) : X := (fc_unreserve who fee x).1.
Definition unreserve_and_charge_fee_of (who : A) (weight : Z) : M X unit (Z * Z) :=
  let fee := weight_to_fee weight in
  do! mmodify (fun x => (fc_unreserve who fee x).1) in
  let! imbalance := mmap_err (fun _ => tt) (fc_withdraw who fee false KeepAlive) in
  ret (fee, imbalance).
Definition refund_fee_of (who : A) (refund_weight payed : Z) : M X unit unit :=
  let refund := weight_to_fee refund_weight in
  let! actual_payment := settle_refund who refund payed in
  let imbalances := imbalance_split actual_payment 0 in
  mmodify (on_unbalanceds [imbalances.1; imbalances.2]).

#[export] Instance transaction_payment : TransactionPayment X A := {
  reserve_fee := reserve_fee_of;
  unreserve_fee := unreserve_fee_of;
  unreserve_and_charge_fee := unreserve_and_charge_fee_of;
  refund_fee := refund_fee_of;
  drop_negative_imbalance := fc_drop_negative;
}.
End pallet.

(** ** Theorems about the multiplier *)
Section multiplier_theorems.
Context {arith : FixedArith} {laws : FixedLaws}.
Variable cfg : PaymentConfig.
(** The runtime's parameters: v = 0.00001, a target of a quarter of the normal
    capacity [W], and a least multiplier of 10^-9. *)
Record runtime_rates (W : Z) : Prop := {
  rr_v : AdjustmentVariable cfg = 10 ^ 13;
  rr_min : MinimumMultiplier cfg = 10 ^ 9;
  rr_target : TargetBlockFullness cfg = 25 * 10 ^ 16;
  rr_max : normal_max_total cfg = Some W;
  rr_W : 1000 <= W <= U64_MAX;
}.

Lemma sat_mul_two : fx_from_integer 2 = 2 * DIV.
Proof. reflexivity. Qed.
Lemma half_v_squared : fx_div (fx_mul (10 ^ 13) (10 ^ 13)) (fx_from_integer 2) = 5 * 10 ^ 7.
Proof.
  destruct (fx_mul_rounds (10 ^ 13) (10 ^ 13)) as [Ha Hb]; [lia|unfold DIV; lia|unfold U128_MAX, DIV; lia|].
  unfold rounds, DIV in Hb. assert (fx_mul (10 ^ 13) (10 ^ 13) = 10 ^ 8) as -> by lia.
  rewrite sat_mul_two. destruct (fx_div_rounds (10 ^ 8) (2 * DIV)) as [Hc He]; [lia|unfold DIV; lia|unfold U128_MAX, DIV; lia|].
  unfold rounds, DIV in *. lia.
Qed.

(** How far a block is from the target, as a fraction of the capacity. *)
Lemma diff_bounds W d : 1000 <= W <= U64_MAX -> W <= 100 * (d + 1) -> 0 <= d <= W ->
  88 * 10 ^ 14 <= fx_from_rational d W <= DIV.
Proof.
  intros HW Hd Hd2. destruct (fx_from_rational_rounds d W) as [Ha Hb].
  - lia.
  - lia.
  - unfold U128_MAX, U64_MAX, DIV in *. nia.
  - unfold rounds, DIV in *. split; nia.
Qed.
Lemma terms_bounds diff : 88 * 10 ^ 14 <= diff <= DIV ->
  87 * 10 ^ 9 <= fx_mul (10 ^ 13) diff <= 10 ^ 13 /\
  0 <= fx_mul (5 * 10 ^ 7) (fx_mul diff diff) <= 5 * 10 ^ 7.
Proof.
  intros Hd. destruct (fx_mul_rounds (10 ^ 13) diff) as [Ha Hb].
  1,2: unfold DIV in *; lia.
  { unfold U128_MAX, DIV in *. lia. }
  destruct (fx_mul_rounds diff diff) as [Hc He].
  1,2: unfold DIV in *; lia.
  { unfold U128_MAX, DIV in *. nia. }
  assert (fx_mul diff diff <= DIV). { unfold rounds in *. unfold DIV in *. nia. }
  destruct (fx_mul_rounds (5 * 10 ^ 7) (fx_mul diff diff)) as [Hf Hg].
  1,2: lia.
  { unfold U128_MAX, DIV in *. nia. }
  unfold rounds, DIV in *. split; nia.
Qed.

Section rates.
Variable W : Z.
Hypothesis rates : runtime_rates W.

Lemma target_bounds : W - 4 < 4 * pq_mul (25 * 10 ^ 16) W < W + 4 /\ 0 <= pq_mul (25 * 10 ^ 16) W <= W.
Proof.
  pose proof (rr_W _ rates). destruct (pq_mul_rounds (25 * 10 ^ 16) W) as [Ha Hb]; [unfold DIV; lia|lia|].
  unfold rounds, DIV in *. lia.
Qed.

(** A block at least a hundredth of the capacity above the target. *)
Lemma congested_step w m :
  26 * W <= 100 * w -> 10 ^ 9 <= m <= U128_MAX -> Z.min (m + 1) U128_MAX <= convert cfg w m <= U128_MAX.
Proof.
  intros Hw Hm. pose proof target_bounds as Ht. pose proof (rr_W _ rates) as HW. unfold convert.
  rewrite (rr_v _ rates), (rr_min _ rates), (rr_target _ rates), (rr_max _ rates). cbn [default from_option id].
  rewrite half_v_squared. rewrite (Z.max_l m) by lia. rewrite (Z.max_l W 1) by lia.
  set (t := pq_mul _ W) in *. set (b := Z.min w W). assert (26 * W <= 100 * b <= 100 * W) by lia.
  rewrite (proj2 (Z.leb_le t b)), (Z.max_l b t), (Z.min_r b t) by lia.
  destruct (terms_bounds (fx_from_rational (b - t) W)) as [Hf Hs]; [apply diff_bounds; lia|].
  set (f := fx_mul (10 ^ 13) _) in *. set (g := fx_mul (5 * 10 ^ 7) _) in *.
  rewrite (sat_add_exact _ f g) by (unfold U128_MAX; lia).
  destruct (fx_mul_rounds (f + g) m) as [Ha Hb]; [lia|lia|unfold U128_MAX, DIV in *; nia|].
  assert (1 <= fx_mul (f + g) m) by (unfold rounds, DIV in *; nia).
  unfold sat_add, U128_MAX in *. lia.
Qed.

(** A block at least a hundredth of the capacity below the target. *)
Lemma idle_step w m :
  0 <= w -> 100 * w <= 24 * W -> 10 ^ 9 <= m <= U128_MAX -> 10 ^ 9 <= convert cfg w m <= Z.max (m - 1) (10 ^ 9).
Proof.
  intros Hw0 Hw Hm. pose proof target_bounds as Ht. pose proof (rr_W _ rates) as HW. unfold convert.
  rewrite (rr_v _ rates), (rr_min _ rates), (rr_target _ rates), (rr_max _ rates). cbn [default from_option id].
  rewrite half_v_squared. rewrite (Z.max_l m) by lia. rewrite (Z.max_l W 1) by lia.
  set (t := pq_mul _ W) in *. rewrite (Z.min_l w W) by lia.
  rewrite (proj2 (Z.leb_gt t w)), (Z.max_r w t), (Z.min_l w t) by lia.
  destruct (terms_bounds (fx_from_rational (t - w) W)) as [Hf Hs]; [apply diff_bounds; lia|].
  set (f := fx_mul (10 ^ 13) _) in *. set (g := fx_mul (5 * 10 ^ 7) _) in *.
  rewrite (sat_sub_exact f g) by lia.
  destruct (fx_mul_rounds (f - g) m) as [Ha Hb]; [lia|lia|unfold U128_MAX, DIV in *; nia|].
  assert (1 <= fx_mul (f - g) m) by (unfold rounds, DIV in *; nia).
  unfold sat_sub. lia.
Qed.
End rates.

(** The multiplier stays in its range and moves with the load, for any parameters. *)
Lemma convert_range w m :
  0 <= MinimumMultiplier cfg <= U128_MAX ->
  in_u U128_MAX m -> MinimumMultiplier cfg <= convert cfg w m <= U128_MAX.
Proof.
  intros Hmin [Hm0 Hm]. unfold convert.
  destruct (_ <=? _); (split; [lia|]).
  - unfold sat_add. lia.
  - apply Z.max_lub; [|lia]. unfold sat_sub.
    assert (forall a, 0 <= fx_mul (Z.max a 0) (Z.max m (MinimumMultiplier cfg))) as Hp.
    { intros a. apply fx_mul_range; lia. }
    set (a := fx_mul _ _ - fx_mul _ _). specialize (Hp a). lia.
Qed.

Section blocks.
Context {X A : Type} `{Countable A}.
(** The state after [n] blocks with the weights [ws 0], [ws 1], ... *)
Fixpoint blocks (ws : nat -> Z) (n : nat) (s : TxPayment X A) : TxPayment X A :=
  match n with
  | O => s
  | S n' => on_finalize cfg (ws n') (blocks ws n' s)
  end.

Lemma congested_blocks W ws n s : runtime_rates W -> (forall i, 26 * W <= 100 * ws i) ->
  10 ^ 9 <= NextFeeMultiplier s <= U128_MAX ->
  Z.min (NextFeeMultiplier s + Z.of_nat n) U128_MAX <= NextFeeMultiplier (blocks ws n s) <= U128_MAX.
Proof.
  intros HW Hws Hm. induction n as [|n IH]; [cbn [blocks]; lia|].
  cbn [blocks on_finalize set_multiplier NextFeeMultiplier].
  pose proof (congested_step W HW (ws n) (NextFeeMultiplier (blocks ws n s)) (Hws n) ltac:(lia)). lia.
Qed.
Lemma idle_blocks W ws n s : runtime_rates W -> (forall i, 0 <= ws i /\ 100 * ws i <= 24 * W) ->
  10 ^ 9 <= NextFeeMultiplier s <= U128_MAX ->
  10 ^ 9 <= NextFeeMultiplier (blocks ws n s) <= Z.max (NextFeeMultiplier s - Z.of_nat n) (10 ^ 9).
Proof.
  intros HW Hws Hm. induction n as [|n IH]; [cbn [blocks]; lia|].
  cbn [blocks on_finalize set_multiplier NextFeeMultiplier]. destruct (Hws n) as [H0 H1].
  pose proof (idle_step W HW (ws n) (NextFeeMultiplier (blocks ws n s)) H0 H1 ltac:(lia)). lia.
Qed.

(** C31. With the runtime's parameters the fee multiplier never gets stuck.  Under blocks
    that stay a hundredth of the capacity above the target it eventually exceeds any
    given value; under blocks that stay a hundredth below it comes down to the minimum in
    finitely many blocks and is there after every later block.  This is the guarantee
    behind the note that the multiplier must not drop to a value it cannot recover from. *)
Theorem multiplier_adapts W s :
  runtime_rates W -> 10 ^ 9 <= NextFeeMultiplier s <= U128_MAX ->
  (forall ws B, (forall i, 26 * W <= 100 * ws i) -> B <= U128_MAX ->
     exists n, forall k, (n <= k)%nat -> B <= NextFeeMultiplier (blocks ws k s)) /\
  (forall ws, (forall i, 0 <= ws i /\ 100 * ws i <= 24 * W) ->
     exists n, forall k, (n <= k)%nat -> NextFeeMultiplier (blocks ws k s) = MinimumMultiplier cfg).
Proof.
  intros HW Hm. split.
  - intros ws B Hws HB. exists (Z.to_nat B). intros k Hk.
    pose proof (congested_blocks W ws k s HW Hws Hm). lia.
  - intros ws Hws. exists (Z.to_nat (NextFeeMultiplier s)). intros k Hk. rewrite (rr_min _ HW).
    pose proof (idle_blocks W ws k s HW Hws Hm). lia.
Qed.
End blocks.
End multiplier_theorems.

(** ** Theorems about charging *)

(** What the documentation of [Currency] and [ReservableCurrency] says of the balances. *)
Class FeeCurrencyLaws (X A : Type) `{FeeCurrency X A} : Prop := {
  fcl_withdraw a v t er x x' i : 0 <= v -> fc_withdraw a v t er x = (x', Ok i) ->
    i = v /\ fc_free_balance x' a = fc_free_balance x a - v /\ fc_reserved_balance x' a = fc_reserved_balance x a;
  fcl_deposit a v x x' i : 0 <= v -> fc_deposit_into_existing a v x = (x', Ok i) ->
    i = v /\ fc_free_balance x' a = fc_free_balance x a + v /\ fc_reserved_balance x' a = fc_reserved_balance x a;
  fcl_reserve a v x x' u : 0 <= v -> fc_reserve a v x = (x', Ok u) ->
    fc_free_balance x' a = fc_free_balance x a - v /\ fc_reserved_balance x' a = fc_reserved_balance x a + v;
  fcl_unreserve a v x x' r : 0 <= v -> 0 <= fc_reserved_balance x a -> fc_unreserve a v x = (x', r) ->
    let m := Z.min v (fc_reserved_balance x a) in
    r = v - m /\ fc_free_balance x' a = fc_free_balance x a + m /\
    fc_reserved_balance x' a = fc_reserved_balance x a - m;
  fcl_no_panic a v x : 0 <= v -> (fc_deposit_into_existing a v x).2 <> Panic;
}.

Section charging.
Context {X A : Type} `{Countable A} `{FeeCurrencyLaws X A} {arith : FixedArith} {laws : FixedLaws}.
Variable cfg : PaymentConfig.
Variable WeightToFee : Z -> Z.
Variable final_fee : FeeDetails -> Z.
Context {PostInfo : Type}.
Variable calc_actual_weight : PostInfo -> DispatchInfo -> Z.
Variable post_pays_fee : PostInfo -> DispatchInfo -> Pays.
Variable on_unbalanceds : list Z -> X -> X.
(** More weight never costs less. *)
Hypothesis WeightToFee_mono : forall w w', 0 <= w <= w' -> 0 <= WeightToFee w <= WeightToFee w'.
(** The final fee is the sum of its parts, as far as it fits. *)
Hypothesis final_fee_sum : forall d,
  final_fee d = Z.min (match inclusion_fee d with
                       | Some i => base_fee i + len_fee i + adjusted_weight_fee i
                       | None => 0
                       end + fd_tip d) U128_MAX.
(** The post dispatch corrections only lower the weight and only waive the fee. *)
Hypothesis actual_weight_le : forall post info,
  0 <= info_weight info -> 0 <= calc_actual_weight post info <= info_weight info.
Hypothesis waives_only : forall post info, info_pays info = PaysNo -> post_pays_fee post info = PaysNo.
Hypothesis cfg_ok : 0 <= max_block cfg /\ 0 <= TransactionByteFee cfg /\ forall c, 0 <= base_extrinsic cfg c.

Abbreviation St := (TxPayment X A).
Implicit Types s : St.
Abbreviation w2f := (weight_to_fee cfg WeightToFee).
Abbreviation fee_of := (compute_fee cfg WeightToFee final_fee).
Abbreviation actual_of := (compute_actual_fee cfg WeightToFee final_fee calc_actual_weight post_pays_fee).

Lemma w2f_mono w w' : 0 <= w <= w' -> 0 <= w2f w <= w2f w'.
Proof. intros Hw. unfold weight_to_fee. apply WeightToFee_mono. lia. Qed.

(** What is charged in the end lies between the tip and what was withdrawn. *)
Lemma actual_fee_bounds s s' len info post tip :
  0 <= len -> 0 <= info_weight info -> in_u U128_MAX tip -> 0 <= NextFeeMultiplier s ->
  NextFeeMultiplier s' = NextFeeMultiplier s ->
  tip <= actual_of s' len info post tip <= fee_of s len info tip /\ fee_of s len info tip <= U128_MAX.
Proof.
  intros Hl Hw Ht Hm Hmm. destruct cfg_ok as (Hb & Hbyte & Hbase).
  unfold compute_actual_fee, compute_fee, compute_actual_fee_details, compute_fee_details, compute_fee_raw.
  rewrite !final_fee_sum, Hmm. pose proof (actual_weight_le post info Hw) as Ha.
  pose proof (w2f_mono _ _ Ha) as Hf. pose proof (fx_mul_int_mono (NextFeeMultiplier s) _ _ Hm Hf) as [Hx _].
  assert (0 <= w2f (base_extrinsic cfg (info_class info))) as Hbf.
  { specialize (Hbase (info_class info)). apply (w2f_mono _ (base_extrinsic cfg (info_class info))). lia. }
  assert (0 <= sat_mul U128_MAX (TransactionByteFee cfg) len) by (unfold sat_mul, U128_MAX; lia).
  destruct Ht as [Ht0 Ht]. destruct (info_pays info) eqn:Ep.
  - destruct (post_pays_fee post info); cbn [inclusion_fee fd_tip base_fee len_fee adjusted_weight_fee]; lia.
  - rewrite waives_only by done. cbn [inclusion_fee fd_tip]. lia.
Qed.

Lemma pre_dispatch_Ok tip who info len s s' pre :
  0 <= fee_of s (wrap U32_MAX len) info tip ->
  pre_dispatch cfg WeightToFee final_fee tip who info len s = (s', Ok pre) ->
  let fee := fee_of s (wrap U32_MAX len) info tip in
  pre = mkPre tip who (Some fee) fee /\ NextFeeMultiplier s' = NextFeeMultiplier s /\
  fc_free_balance (tx_rest s') who = fc_free_balance (tx_rest s) who - fee.
Proof.
  intros Hf Hr. unfold pre_dispatch, withdraw_fee in Hr. run_inv. cbn [fst snd].
  match goal with Hx : on_currency _ _ = _ |- _ => unfold on_currency in Hx; rename Hx into Hc end.
  destruct (mmap_err _ _ _) as [x1 r1] eqn:Em. injection Hc as <- ->. run_inv.
  apply fcl_withdraw in Em as (-> & Hfree & _); [|done]. done.
Qed.

(** The refund of [d] out of a payment of [p]. *)
Lemma settle_refund_spec who d p (x x' : X) r :
  0 <= d <= p -> settle_refund who d p x = (x', r) ->
  exists left, r = Ok left /\
    (fc_deposit_into_existing who d x = (x', Ok d) /\ left = p - d /\
     fc_free_balance x' who = fc_free_balance x who + d \/
     (exists e, fc_deposit_into_existing who d x = (x', Err e)) /\ left = p).
Proof.
  intros Hd. unfold settle_refund. pose proof (fcl_no_panic who d x ltac:(lia)) as Hnp.
  destruct (fc_deposit_into_existing who d x) as [x1 [i|e|]] eqn:Ed; cbn [snd] in Hnp; [| |done].
  - pose proof Ed as Ed'. apply fcl_deposit in Ed as (-> & Hf & _); [|lia]. unfold imbalance_offset.
    destruct (Z.ltb_spec d p); [|destruct (Z.ltb_spec p d); [lia|]]; intros [= <- <-].
    + eexists; split; [done|]. left. rewrite sat_sub_exact by lia. done.
    + eexists; split; [done|]. left. split_and!; [done|lia|done].
  - intros [= <- <-]. eexists; split; [done|]. right. eauto.
Qed.

(** C30. A signed transaction pays what its dispatch turns out to cost.  The extension first
    withdraws the fee for the announced weight; after the dispatch the actual fee lies
    between the tip and that amount, so settling never fails: the difference is given back
    and the handler of fees gets the tip and the rest of the actual fee (if the account no
    longer exists, nothing is given back and the handler gets all of it), and the event
    names the actual fee and the tip. *)
Theorem transaction_settled tip who info len post s0 s1 s2 pre :
  0 <= info_weight info -> in_u U128_MAX tip -> 0 <= NextFeeMultiplier s0 ->
  pre_dispatch cfg WeightToFee final_fee tip who info len s0 = (s1, Ok pre) ->
  NextFeeMultiplier s2 = NextFeeMultiplier s0 ->
  let fee := fee_of s0 (wrap U32_MAX len) info tip in
  let actual := actual_of s2 (wrap U32_MAX len) info post tip in
  fc_free_balance (tx_rest s1) who = fc_free_balance (tx_rest s0) who - fee /\
  tip <= actual <= fee /\
  exists x charged,
    post_dispatch cfg WeightToFee final_fee calc_actual_weight post_pays_fee on_unbalanceds (Some pre) info post len s2
      = (tx_event (TransactionFeePaid who actual tip)
           (set_tx_rest (on_unbalanceds [tip; charged - tip] x) s2), Ok tt) /\
    (charged = actual /\ fc_free_balance x who = fc_free_balance (tx_rest s2) who + (fee - actual) \/
     charged = fee /\ exists e, fc_deposit_into_existing who (fee - actual) (tx_rest s2) = (x, Err e)).
Proof.
  intros Hw Ht Hm Hpre Hm2 fee actual. assert (0 <= wrap U32_MAX len) as Hl by (apply wrap_range; done).
  destruct (actual_fee_bounds s0 s2 _ info post tip Hl Hw Ht Hm Hm2) as [Hb _]. fold fee actual in Hb.
  apply pre_dispatch_Ok in Hpre as (-> & _ & Hfree); [|destruct Ht; fold fee; lia].
  split; [exact Hfree|]. split; [exact Hb|].
  unfold post_dispatch, bind, mget, mmodify, on_currency. fold actual. fold fee.
  destruct Ht as [Ht0 _]. rewrite sat_sub_exact by lia.
  destruct (settle_refund who (fee - actual) fee (tx_rest s2)) as [x r] eqn:Es.
  apply settle_refund_spec in Es as (left & -> & Hcases); [|lia]. exists x, left.
  assert (tip <= left) as Htl by (destruct Hcases as [(_ & -> & _)|[_ ->]]; lia).
  split.
  - unfold imbalance_split. cbn [fst snd]. rewrite Z.min_r by lia. rewrite sat_sub_exact by lia. done.
  - destruct Hcases as [(_ & -> & Hf)|[He ->]]; [left; split; [lia|exact Hf]|right; split; [done|exact He]].
Qed.

(** What a scheduled EVM call costs: the fee for its gas limit is reserved when it is
    scheduled and comes out of that reserve when it runs, so that the free balance is not
    touched; afterwards the refund for the unused weight is given back and the handler of
    fees gets exactly the rest. *)
Theorem scheduled_fee_paid_from_reserve who w rw (x x1 x2 x3 x4 : X) fee r :
  0 <= rw <= w ->
  reserve_fee (TransactionPayment := transaction_payment cfg WeightToFee on_unbalanceds) who w x = (x1, Ok fee) ->
  fee <= fc_reserved_balance x2 who ->
  unreserve_and_charge_fee (TransactionPayment := transaction_payment cfg WeightToFee on_unbalanceds) who w x2
    = (x3, Ok r) ->
  fc_free_balance x1 who = fc_free_balance x who - fee /\
  fc_reserved_balance x1 who = fc_reserved_balance x who + fee /\
  r = (fee, fee) /\
  fc_free_balance x3 who = fc_free_balance x2 who /\
  fc_reserved_balance x3 who = fc_reserved_balance x2 who - fee /\
  exists x5 refund, 0 <= refund <= fee /\
    refund_fee (TransactionPayment := transaction_payment cfg WeightToFee on_unbalanceds) who rw r.2 x4
      = (on_unbalanceds [0; fee - refund] x5, Ok tt) /\
    (refund = w2f rw /\ fc_free_balance x5 who = fc_free_balance x4 who + refund \/
     refund = 0 /\ exists e, fc_deposit_into_existing who (w2f rw) x4 = (x5, Err e)).
Proof.
  intros Hrw Hres Henough Hcharge. pose proof (w2f_mono _ _ Hrw) as Hmono.
  cbn [reserve_fee transaction_payment] in Hres. unfold reserve_fee_of in Hres. run_inv.
  match goal with Hx : fc_reserve _ _ _ = _ |- _ => apply fcl_reserve in Hx as [Hf1 Hr1]; [|lia] end.
  cbn [unreserve_and_charge_fee transaction_payment] in Hcharge. unfold unreserve_and_charge_fee_of in Hcharge. run_inv.
  destruct (fc_unreserve who (w2f w) x2) as [y rem] eqn:Eu. cbn [fst] in *.
  apply fcl_unreserve in Eu as (_ & Hfu & Hru); [|lia|lia]. rewrite Z.min_l in Hfu, Hru by lia.
  match goal with Hx : fc_withdraw _ _ _ _ _ = _ |- _ => apply fcl_withdraw in Hx as (-> & Hfw & Hrw'); [|lia] end.
  split_and!; [lia|lia|done|lia|lia|]. cbn [snd refund_fee transaction_payment]. unfold refund_fee_of, bind, mmodify.
  destruct (settle_refund who (w2f rw) (w2f w) x4) as [x5 rr] eqn:Es.
  apply settle_refund_spec in Es as (left & -> & Hcases); [|lia].
  exists x5. unfold imbalance_split. cbn [fst snd].
  destruct Hcases as [(_ & -> & Hf)|[He ->]]; [exists (w2f rw)|exists 0];
    rewrite !(Z.min_r _ 0) by lia; rewrite sat_sub_exact by lia; rewrite ?Z.sub_0_r; split_and!; eauto; lia.
Qed.
End charging.

(** ** Witnesses *)
Module TxWitness.
(** Fixed point arithmetic that rounds down. *)
#[export] Instance floor_arith : FixedArith := {
  fx_from_rational n d := Z.min (n * DIV / d) U128_MAX;
  fx_mul a b := Z.min (a * b / DIV) U128_MAX;
  fx_mul_int a n := Z.min (a * n / DIV) U128_MAX;
  fx_div a b := Z.min (a * DIV / b) U128_MAX;
  pq_mul p n := p * n / DIV;
}.
Lemma floor_rounds n d : 0 <= n -> 0 < d -> n <= U128_MAX * d ->
  0 <= Z.min (n / d) U128_MAX /\ rounds (Z.min (n / d) U128_MAX) n d.
Proof.
  intros Hn Hd Hle. assert (n / d <= U128_MAX) by (apply Z.div_le_upper_bound; lia).
  pose proof (Z.div_pos n d Hn Hd). rewrite Z.min_l by lia. split; [done|]. unfold rounds.
  pose proof (Z.div_mod n d ltac:(lia)). pose proof (Z.mod_pos_bound n d Hd). nia.
Qed.
#[export] Instance floor_laws : FixedLaws.
Proof.
  split; cbn [fx_from_rational fx_mul fx_mul_int fx_div pq_mul floor_arith].
  - intros. apply floor_rounds; [unfold DIV in *|..]; lia.
  - intros. apply floor_rounds; [nia|done|done].
  - intros a b Ha Hb. pose proof (Z.div_pos (a * b) DIV ltac:(nia) ltac:(done)). unfold in_u, U128_MAX. lia.
  - intros a n m Ha Hn. assert (a * n / DIV <= a * m / DIV) by (apply Z.div_le_mono; [done|nia]).
    pose proof (Z.div_pos (a * n) DIV ltac:(nia) ltac:(done)). unfold U128_MAX. lia.
  - intros. apply floor_rounds; [unfold DIV in *; lia|done|done].
  - intros p n Hp Hn. assert (p * n / DIV <= n) by (apply Z.div_le_upper_bound; [done|unfold DIV in *; nia]).
    pose proof (Z.div_pos (p * n) DIV ltac:(nia) ltac:(done)). split; [done|]. unfold rounds.
    pose proof (Z.div_mod (p * n) DIV ltac:(done)). pose proof (Z.mod_pos_bound (p * n) DIV ltac:(done)). lia.
Qed.

(** The runtime's parameters; 8,000,000 per unit of weight is one thousandth of a REEF
    per base extrinsic. *)
Definition cfg0 : PaymentConfig := {|
  max_block := 2000000000000; normal_max_total := Some 1500000000000; base_extrinsic _ := 125000000;
  max_length_normal := 3932160; TransactionByteFee := 10000000000000000;
  AllNonNativeCurrencyIds := []; NativeCurrencyId := Token REEF;
  TargetBlockFullness := 25 * 10 ^ 16; AdjustmentVariable := 10 ^ 13; MinimumMultiplier := 10 ^ 9;
|}.
Lemma rates0 : runtime_rates cfg0 1500000000000.
Proof. split; try reflexivity. unfold U64_MAX. lia. Qed.
Lemma integrity_ok : integrity_test cfg0 = Ok true.
Proof. vm_compute. reflexivity. Qed.

Definition w2f0 (w : Z) : Z := 8000000 * w.
Definition final0 (d : FeeDetails) : Z :=
  Z.min (match inclusion_fee d with
         | Some i => base_fee i + len_fee i + adjusted_weight_fee i
         | None => 0
         end + fd_tip d) U128_MAX.
(** The actual weight of the post dispatch information, if any. *)
Definition actual0 (post : option Z) (info : DispatchInfo) : Z :=
  match post with Some w => Z.min (Z.max w 0) (info_weight info) | None => info_weight info end.
Definition pays0 (_ : option Z) (info : DispatchInfo) : Pays := info_pays info.

(** A ledger of free and reserved balances, where accounts do not die. *)
Abbreviation L := (gmap Z (Z * Z)).
Definition bal (x : L) (a : Z) : Z * Z := default (0, 0) (x !! a).
#[export] Instance fee_ledger : FeeCurrency L Z := {
  fc_free_balance x a := (bal x a).1;
  fc_reserved_balance x a := (bal x a).2;
  fc_ensure_can_withdraw _ _ _ _ _ := Ok tt;
  fc_withdraw a v _ _ x :=
    if v <=? (bal x a).1 then (<[a := ((bal x a).1 - v, (bal x a).2)]> x, Ok v) else (x, Err (Other "balance"));
  fc_deposit_into_existing a v x :=
    if bool_decide (is_Some (x !! a)) then (<[a := ((bal x a).1 + v, (bal x a).2)]> x, Ok v)
    else (x, Err (Other "dead account"));
  fc_reserve a v x :=
    if v <=? (bal x a).1 then (<[a := ((bal x a).1 - v, (bal x a).2 + v)]> x, Ok tt) else (x, Err (Other "balance"));
  fc_unreserve a v x :=
    let m := Z.min v (bal x a).2 in (<[a := ((bal x a).1 + m, (bal x a).2 - m)]> x, v - m);
  fc_drop_positive _ x := x;
  fc_drop_negative _ x := x;
}.
Lemma bal_insert a b (x : L) : bal (<[a := b]> x) a = b.
Proof. unfold bal. by rewrite lookup_insert_eq. Qed.
#[export] Instance fee_ledger_laws : FeeCurrencyLaws L Z.
Proof.
  split; cbn [fc_withdraw fc_deposit_into_existing fc_reserve fc_unreserve fc_free_balance fc_reserved_balance
    fee_ledger]; intros.
  - destruct (_ <=? _); [|done]. simplify_eq. by rewrite bal_insert.
  - case_bool_decide; [|done]. simplify_eq. by rewrite bal_insert.
  - destruct (_ <=? _); [|done]. simplify_eq. by rewrite bal_insert.
  - simplify_eq. by rewrite bal_insert.
  - by case_bool_decide.
Qed.

Definition s0 : TxPayment L Z := mkTxPayment DIV ∅ [] {[ 7 := (10 ^ 21, 0) ]}.
Definition info0 : DispatchInfo := mkInfo 1000000000 Normal PaysYes.
Definition burn0 (_ : list Z) (x : L) : L := x.
Definition s1 : TxPayment L Z := (pre_dispatch cfg0 w2f0 final0 5 7 info0 100 s0).1.
Definition pre1 : Pre (A := Z) := mkPre 5 7 (Some 1009000000000000005) 1009000000000000005.
Lemma pre_eq : pre_dispatch cfg0 w2f0 final0 5 7 info0 100 s0 = (s1, Ok pre1).
Proof. vm_compute. reflexivity. Qed.

Lemma multiplier_adapts_witness :
  exists n, forall k, (n <= k)%nat -> NextFeeMultiplier (blocks cfg0 (fun _ => 0) k s0) = 10 ^ 9.
Proof.
  apply (multiplier_adapts cfg0 1500000000000 s0 rates0).
  - vm_compute. split; discriminate.
  - intros i. lia.
Defined.

Lemma w2f0_mono w w' : 0 <= w <= w' -> 0 <= w2f0 w <= w2f0 w'.
Proof. unfold w2f0. lia. Qed.
Lemma actual0_le post info : 0 <= info_weight info -> 0 <= actual0 post info <= info_weight info.
Proof. unfold actual0. destruct post; lia. Qed.
Lemma payment_cfg0_ok : 0 <= max_block cfg0 /\ 0 <= TransactionByteFee cfg0 /\ forall c, 0 <= base_extrinsic cfg0 c.
Proof. split_and!; [done..|]. intros c. cbn. lia. Qed.

(** The call used half of its weight: the fee for the other half comes back. *)
Lemma transaction_settled_witness :
  fc_free_balance (tx_rest s1) 7 = fc_free_balance (tx_rest s0) 7 - 1009000000000000005 /\
  exists x charged,
    post_dispatch cfg0 w2f0 final0 actual0 pays0 burn0 (Some pre1) info0 (Some 500000000) 100 s1
      = (tx_event (TransactionFeePaid 7 1005000000000000005 5)
           (set_tx_rest (burn0 [5; charged - 5] x) s1), Ok tt).
Proof.
  assert (in_u U128_MAX 5) as H5 by (vm_compute; split; discriminate).
  destruct (transaction_settled cfg0 w2f0 final0 actual0 pays0 burn0 w2f0_mono (fun d => eq_refl) actual0_le
    (fun post info Hp => Hp) payment_cfg0_ok 5 7 info0 100 (Some 500000000) s0 s1 s1 pre1) as (Hf & _ & x & charged & Hp & _).
  - vm_compute. discriminate.
  - exact H5.
  - vm_compute. discriminate.
  - exact pre_eq.
  - reflexivity.
  - split; [exact Hf|]. exists x, charged. exact Hp.
Defined.

Definition x0 : L := {[ 7 := (10 ^ 21, 0) ]}.
Definition x1 : L := (reserve_fee_of cfg0 w2f0 7 1000000 x0).1.
Definition x2 : L := (unreserve_and_charge_fee_of cfg0 w2f0 7 1000000 x1).1.
Lemma scheduled_fee_paid_from_reserve_witness : fc_free_balance x2 7 = fc_free_balance x1 7.
Proof.
  destruct (scheduled_fee_paid_from_reserve cfg0 w2f0 burn0 w2f0_mono payment_cfg0_ok 7 1000000 250000 x0 x1 x1 x2 x2
    8000000000000 (8000000000000, 8000000000000)) as (_ & _ & _ & Hf & _).
  - lia.
  - vm_compute. reflexivity.
  - vm_compute. discriminate.
  - vm_compute. reflexivity.
  - exact Hf.
Defined.
End TxWitness.
