(* ===== verification/EvmBridge.v ===== *)
(** * The bridge to ERC20 contracts

    Models [src/modules/evm-bridge/src/lib.rs]: the calls by which the runtime reads
    and moves ERC20 tokens, and the decoding of their answers.

    The EVM is behind the class [EVM] (the trait of [src/modules/support/src/lib.rs]);
    [EvmRunner] implements it ([runner_evm] below), and the law the bridge relies on is
    proved of that implementation.  [usize_max] is the largest [usize]; the conversion
    of a byte string to [U256] is the parameter [u256_from]. *)

From stdpp Require Import base gmap list strings.
From Stdlib Require Import ZArith Lia.
From S2P Require Import Prelude Interfaces StorageMeter EvmPallet EvmHandler EvmRunner.

Local Open Scope Z_scope.

(** The trait [EVM]. *)
Class EVM (X A : Type) : Type := {
  trait_execute : InvokeContext -> bytes -> Z -> Z -> Z -> ExecutionMode -> M X DispatchError CallInfo;
  trait_get_origin : X -> option A;
  trait_set_origin : A -> X -> X;
}.

(** Execution in [View] mode, and a failed execution, leave no trace. *)
Class EVMLaws (X A : Type) `{EVM X A} : Prop := {
  view_pure : forall ctx input v gl sl x x' r,
    trait_execute ctx input v gl sl View x = (x', r) -> x' = x;
  failure_pure : forall ctx input v gl sl mode x x' r,
    trait_execute ctx input v gl sl mode x = (x', r) ->
    (forall info, r = Ok info -> is_succeed (exit_reason info) = false) -> x' = x;
}.

(** ** The implementation by the EVM pallet *)
Section implementation.
Context {X : Type} `{Currency X AccountId} `{TransferAll X AccountId} `{AddressMapping X AccountId}.
Context `{TransactionPayment X AccountId}.
Context {G : Type} `{Gasometer G}.
Variable cfg : EvmConfig.
Variable keccak : bytes -> H256.
Variable rlp_list : H160 -> Z -> bytes.
Variable call_l64_after_gas : bool.
Variable call_stipend : Z.
Variable evm_run : bool -> bytes -> bytes -> Context -> Prog.
Variable precompiles : H160 -> bytes -> option Z -> Context -> Evm X ->
  Evm X * option (res ExitError (ExitSucceed * bytes * Z)).
Variable call_transaction_cost : bytes -> Z.
Variable fuel : nat.

(** An execution deeper than the fuel is reported as an error. *)
Definition run_error (e : RunError) : DispatchError :=
  match e with Dispatch e => e | NoFuel => Other "NoFuel" end.

Definition runner_evm : EVM (Evm X) AccountId := {|
  trait_execute ctx input v gl sl mode :=
    mmap_err run_error
      (evm_execute (G := G) cfg keccak rlp_list call_l64_after_gas call_stipend evm_run precompiles
         call_transaction_cost fuel ctx input v gl sl mode);
  trait_get_origin := get_origin;
  trait_set_origin := set_origin;
|}.

Lemma evm_execute_keeps ctx input v gl sl mode (s s' : Evm X) r :
  evm_execute (G := G) cfg keccak rlp_list call_l64_after_gas call_stipend evm_run precompiles
    call_transaction_cost fuel ctx input v gl sl mode s = (s', r) ->
  mode <> Execute \/ (forall info, r = Ok info -> is_succeed (exit_reason info) = false) -> s' = s.
Proof.
  unfold evm_execute, with_transaction.
  destruct (runner_call _ _ _ _ _ _ _ _ _ _ _ _ _ _ _ _ _ _) as [s1 [info|e|]]; [|by intros [= <- <-]..].
  destruct mode; [|by intros [= <- <-]..].
  destruct (is_succeed (exit_reason info)) eqn:Es; intros [= <- <-] [Hm|Hf]; try done.
  specialize (Hf info eq_refl). congruence.
Qed.

(** The EVM pallet keeps the promises of the trait. *)
Lemma runner_evm_laws : @EVMLaws (Evm X) AccountId runner_evm.
Proof.
  split; simpl.
  - intros ctx input v gl sl x x' r. unfold mmap_err.
    destruct (evm_execute _ _ _ _ _ _ _ _ _ _ _ _ _ _ _ _) as [s1 r1] eqn:E. intros [= <- _].
    eapply evm_execute_keeps; [exact E|]. left. discriminate.
  - intros ctx input v gl sl mode x x' r. unfold mmap_err.
    destruct (evm_execute _ _ _ _ _ _ _ _ _ _ _ _ _ _ _ _) as [s1 r1] eqn:E. intros [= <- <-] Hf.
    eapply evm_execute_keeps; [exact E|]. right. intros info ->. by apply Hf.
Qed.
End implementation.

(** ** The bridge *)
Inductive BridgeError : Type :=
| ExecutionFail | ExecutionRevert | ExecutionFatal | ExecutionError | InvalidReturnValue.
Definition bridge_err (e : BridgeError) : DispatchError :=
  Module match e with
         | ExecutionFail => "ExecutionFail"
         | ExecutionRevert => "ExecutionRevert"
         | ExecutionFatal => "ExecutionFatal"
         | ExecutionError => "ExecutionError"
         | InvalidReturnValue => "InvalidReturnValue"
         end.

Definition handle_exit_reason (r : ExitReason) : res DispatchError unit :=
  match r with
  | Succeed Returned => Ok tt
  | Succeed Stopped => Ok tt
  | Succeed _ => Err (bridge_err ExecutionFail)
  | Revert => Err (bridge_err ExecutionRevert)
  | Fatal _ => Err (bridge_err ExecutionFatal)
  | ErrorExit _ => Err (bridge_err ExecutionError)
  end.

(** [decode_string]; [offset + 32] and the total are checked sums on [usize]. *)
Definition decode_string (usize_max : Z) (output : bytes) : res DispatchError bytes :=
  let len := Z.of_nat (length output) in
  let bad := bridge_err InvalidReturnValue in
  let? _ := rensure ((64 <=? len) && (len mod 32 =? 0)) bad in
  let? head := slice 0 32 output in
  let offset := be_val head in
  let? _ := rensure (offset <=? usize_max) bad in
  let? data_start := ok_or (checked_add usize_max offset 32) bad in
  let? len_word := slice (Z.to_nat offset) (Z.to_nat data_start) output in
  let length := be_val len_word in
  let? _ := rensure (length <=? usize_max) bad in
  let? stop := ok_or (checked_add usize_max data_start length) bad in
  let? _ := rensure (stop <=? len) bad in
  slice (Z.to_nat data_start) (Z.to_nat stop) output.

Section bridge.
Context {X A : Type} `{EVM X A}.
Variable usize_max : Z.
(** [U256::from(&[u8])]. *)
Variable u256_from : bytes -> res DispatchError Z.

Abbreviation MX := (M X DispatchError).

(** A read-only call. *)
Definition view_call (ctx : InvokeContext) (input : bytes) : MX bytes :=
  let! info := trait_execute ctx input 0 2100000 0 View in
  do! mlift (handle_exit_reason (exit_reason info)) in
  ret (output info).

Definition evm_name (ctx : InvokeContext) : MX bytes :=
  let! out := view_call ctx [6; 253; 222; 3] in mlift (decode_string usize_max out).
Definition symbol (ctx : InvokeContext) : MX bytes :=
  let! out := view_call ctx [149; 216; 155; 65] in mlift (decode_string usize_max out).
Definition decimals (ctx : InvokeContext) : MX Z :=
  let! out := view_call ctx [49; 60; 229; 103] in
  do! mensure (length out =? 32)%nat (bridge_err InvalidReturnValue) in
  let! v := mlift (u256_from out) in
  ret (Z.min v U8_MAX).
Definition total_supply (ctx : InvokeContext) : MX Z :=
  let! out := view_call ctx [24; 22; 13; 221] in
  let! v := mlift (u256_from out) in
  ret (Z.min v U128_MAX).
(** [H256::from(address)] fills up with zeros on the left. *)
Definition balance_of_input (address : H160) : bytes := [112; 160; 130; 49] ++ replicate 12 0 ++ address.
Definition balance_of (ctx : InvokeContext) (address : H160) : MX Z :=
  let! out := view_call ctx (balance_of_input address) in
  let! v := mlift (u256_from out) in
  ret (Z.min v U128_MAX).

Definition transfer_input (to : H160) (value : Z) : bytes :=
  [169; 5; 156; 187] ++ (replicate 12 0 ++ to) ++ be_bytes 32 value.
Definition bridge_transfer (ctx : InvokeContext) (to : H160) (value : Z) : MX unit :=
  let storage_limit := if bool_decide (ic_origin ctx = H160_default) then 0 else 1000 in
  let! info := trait_execute ctx (transfer_input to value) 0 2100000 storage_limit Execute in
  do! mlift (handle_exit_reason (exit_reason info)) in
  mensure (bool_decide (output info <> []) && bool_decide (output info = be_bytes 32 1))
    (bridge_err InvalidReturnValue).

Definition bridge_get_origin (x : X) : option A := trait_get_origin x.
Definition bridge_set_origin (a : A) (x : X) : X := trait_set_origin a x.
End bridge.

(** ** Strings *)

(** The ABI encoding of a string result. *)
Definition encode_string (s : bytes) : bytes :=
  be_bytes 32 32 ++ be_bytes 32 (Z.of_nat (length s)) ++ s ++
  replicate (Z.to_nat ((- Z.of_nat (length s)) mod 32)) 0.

Lemma length_encode_string s :
  Z.of_nat (length (encode_string s)) = 64 + Z.of_nat (length s) + (- Z.of_nat (length s)) mod 32.
Proof.
  unfold encode_string. rewrite !length_app, !length_be_bytes, length_replicate.
  pose proof (Z.mod_pos_bound (- Z.of_nat (length s)) 32). lia.
Qed.

Lemma encode_string_aligned s : Z.of_nat (length (encode_string s)) mod 32 = 0.
Proof.
  rewrite length_encode_string. set (n := Z.of_nat (length s)).
  rewrite <- Z.add_assoc. pose proof (Z.div_mod (- n) 32 ltac:(lia)).
  replace (64 + (n + (- n) mod 32)) with ((2 - (- n) / 32) * 32) by lia. apply Z.mod_mul. lia.
Qed.

(** A slice of a concatenation. *)
Lemma slice_app {E} (p m t : bytes) :
  slice (E := E) (length p) (length p + length m) (p ++ m ++ t) = Ok m.
Proof.
  apply slice_Ok. rewrite !length_app. split; [lia|].
  rewrite drop_app_length. replace (length p + length m - length p)%nat with (length m) by lia.
  by rewrite take_app_length.
Qed.

(** [decode_string] undoes the ABI encoding of every string that fits into
    [usize], and an answer that is too short or not a whole number of words is
    [InvalidReturnValue]. *)
Theorem decode_string_round_trip usize_max s :
  64 + Z.of_nat (length s) <= usize_max -> usize_max <= U64_MAX ->
  decode_string usize_max (encode_string s) = Ok s /\
  (forall output, Z.of_nat (length output) < 64 \/ Z.of_nat (length output) mod 32 <> 0 ->
     decode_string usize_max output = Err (bridge_err InvalidReturnValue)).
Proof.
  intros Hs Hmax. split.
  - unfold decode_string. rewrite encode_string_aligned.
    pose proof (length_encode_string s) as Hl.
    pose proof (Z.mod_pos_bound (- Z.of_nat (length s)) 32 ltac:(lia)).
    destruct (Z.leb_spec 64 (Z.of_nat (length (encode_string s)))); [|lia].
    cbn [andb Z.eqb rensure rbind].
    assert (slice (E := DispatchError) 0 32 (encode_string s) = Ok (be_bytes 32 32)) as ->.
    { exact (slice_app [] (be_bytes 32 32) _). }
    cbn [rbind]. rewrite be_val_be_bytes_small by (simpl; lia).
    destruct (Z.leb_spec 32 usize_max); [|lia]. cbn [rensure rbind].
    rewrite (proj2 (checked_add_Some usize_max 32 32 64)) by lia. cbn [ok_or rbind].
    assert (slice (E := DispatchError) (Z.to_nat 32) (Z.to_nat 64) (encode_string s)
            = Ok (be_bytes 32 (Z.of_nat (length s)))) as ->.
    { exact (slice_app (be_bytes 32 32) (be_bytes 32 (Z.of_nat (length s))) _). }
    cbn [rbind]. rewrite be_val_be_bytes_small by (unfold U64_MAX in Hmax; simpl; lia).
    destruct (Z.leb_spec (Z.of_nat (length s)) usize_max); [|lia]. cbn [rensure rbind].
    rewrite (proj2 (checked_add_Some usize_max 64 (Z.of_nat (length s)) _)) by (split; [reflexivity|lia]).
    cbn [ok_or rbind].
    destruct (Z.leb_spec (64 + Z.of_nat (length s)) (Z.of_nat (length (encode_string s)))); [|lia].
    cbn [rensure rbind].
    pose proof (slice_app (E := DispatchError) (be_bytes 32 32 ++ be_bytes 32 (Z.of_nat (length s))) s
                  (replicate (Z.to_nat ((- Z.of_nat (length s)) mod 32)) 0)) as Hsl.
    rewrite <- app_assoc, length_app, !length_be_bytes in Hsl. fold (encode_string s) in Hsl.
    replace (Z.to_nat 64) with (32 + 32)%nat by lia.
    replace (Z.to_nat (64 + Z.of_nat (length s))) with (32 + 32 + length s)%nat by lia. exact Hsl.
  - intros output Ho. unfold decode_string.
    destruct (Z.leb_spec 64 (Z.of_nat (length output))); [|done].
    destruct (Z.eqb_spec (Z.of_nat (length output) mod 32) 0); [|done]. lia.
Qed.

(** An ERC20 contract can make the runtime panic: when its answer to [name] or
    [symbol] is at least two whole words and the offset in the first word is a
    [usize] but does not leave room for a word before the end of the answer,
    [decode_string] slices out of range; in all other cases it returns a value or
    [InvalidReturnValue]. *)
Theorem decode_string_panics usize_max output :
  let len := Z.of_nat (length output) in
  let offset := be_val (take 32 output) in
  is_bytes output -> len <= usize_max ->
  decode_string usize_max output = Panic <->
  64 <= len /\ len mod 32 = 0 /\ offset + 32 <= usize_max /\ len < offset + 32.
Proof.
  intros len offset Hb Hmax. unfold decode_string. fold len.
  assert (Hlen : len = Z.of_nat (length output)) by done. clearbody len.
  destruct (Z.leb_spec 64 len) as [H64|H64]; [|split; [discriminate|lia]].
  destruct (Z.eqb_spec (len mod 32) 0) as [Hal|Hal]; [|split; [discriminate|lia]].
  cbn [andb rensure rbind].
  assert (slice (E := DispatchError) 0 32 output = Ok (take 32 output)) as ->.
  { apply slice_Ok. split; [lia|done]. }
  cbn [rbind]. fold offset.
  assert (0 <= offset) as Hoff.
  { unfold offset. apply be_val_range. by apply Forall_take. }
  clearbody offset.
  destruct (Z.leb_spec offset usize_max) as [Ho|Ho]; [|split; [discriminate|lia]]. cbn [rensure rbind].
  unfold checked_add at 1. destruct (Z.leb_spec (offset + 32) usize_max) as [Ho2|Ho2];
    [|split; [discriminate|lia]]. cbn [ok_or rbind].
  unfold slice at 1. destruct (Nat.leb_spec (Z.to_nat offset) (Z.to_nat (offset + 32))) as [_|]; [|lia].
  destruct (Nat.leb_spec (Z.to_nat (offset + 32)) (length output)) as [Hin|Hout]; cbn [andb rbind];
    [|split; [lia|done]].
  split; [|lia]. intros Hp. exfalso. revert Hp.
  set (l := be_val _). assert (0 <= l).
  { unfold l. apply be_val_range. by apply Forall_take, Forall_drop. }
  destruct (l <=? usize_max); [|discriminate]. cbn [rensure rbind].
  destruct (checked_add usize_max (offset + 32) l) as [stop|] eqn:Ec; [|discriminate].
  apply checked_add_Some in Ec as [-> _]. cbn [ok_or rbind].
  destruct (Z.leb_spec (offset + 32 + l) len); [|discriminate]. cbn [rensure rbind].
  unfold slice. destruct (Nat.leb_spec (Z.to_nat (offset + 32)) (Z.to_nat (offset + 32 + l))); [|lia].
  by destruct (Nat.leb_spec (Z.to_nat (offset + 32 + l)) (length output)); [|lia].
Qed.

(** ** Calls *)
Section theorems.
Context {X A : Type} `{EVMLaws X A}.
Variable usize_max : Z.
Variable u256_from : bytes -> res DispatchError Z.

Lemma view_call_pure ctx input x x' r : view_call ctx input x = (x', r) -> x' = x.
Proof.
  unfold view_call, bind, mlift, ret.
  destruct (trait_execute _ _ _ _ _ _ x) as [x1 r1] eqn:E. apply view_pure in E as ->.
  destruct r1 as [info|e|]; [destruct (handle_exit_reason _)|..]; by intros [= <- <-].
Qed.

Lemma after_view_pure {B} ctx input (k : bytes -> res DispatchError B) x x' r :
  (let! out := view_call ctx input in mlift (k out)) x = (x', r) -> x' = x.
Proof.
  unfold bind, mlift. destruct (view_call ctx input x) as [x1 r1] eqn:E. apply view_call_pure in E as ->.
  destruct r1; by intros [= <- <-].
Qed.

(** Reading a token changes nothing, and moving one needs its consent: the five
    queries leave the storage as it was whatever the contract answers; and a
    transfer succeeds only if the contract's execution succeeded and answered
    exactly the 32-byte word one, and an execution that fails leaves the storage
    as it was. *)
Theorem bridge_calls ctx address to value x :
  (evm_name usize_max ctx x).1 = x /\ (symbol usize_max ctx x).1 = x /\
  (decimals u256_from ctx x).1 = x /\ (total_supply u256_from ctx x).1 = x /\
  (balance_of u256_from ctx address x).1 = x /\
  (forall x', bridge_transfer ctx to value x = (x', Ok tt) ->
     exists info, trait_execute ctx (transfer_input to value) 0 2100000
                    (if bool_decide (ic_origin ctx = H160_default) then 0 else 1000) Execute x = (x', Ok info) /\
       is_succeed (exit_reason info) = true /\ output info = be_bytes 32 1) /\
  (forall x' info, trait_execute ctx (transfer_input to value) 0 2100000
       (if bool_decide (ic_origin ctx = H160_default) then 0 else 1000) Execute x = (x', Ok info) ->
     is_succeed (exit_reason info) = false ->
     exists e, bridge_transfer ctx to value x = (x, Err e)).
Proof.
  split_and!.
  - destruct (evm_name usize_max ctx x) as [x' r] eqn:E. by apply after_view_pure in E.
  - destruct (symbol usize_max ctx x) as [x' r] eqn:E. by apply after_view_pure in E.
  - unfold decimals, bind, mensure, mlift, ret. destruct (view_call _ _ x) as [x1 r1] eqn:E.
    apply view_call_pure in E as ->.
    destruct r1; [|done..]. destruct (rensure _ _); [|done..]. by destruct (u256_from _).
  - unfold total_supply, bind, mlift, ret. destruct (view_call _ _ x) as [x1 r1] eqn:E.
    apply view_call_pure in E as ->. destruct r1; [|done..]. by destruct (u256_from _).
  - unfold balance_of, bind, mlift, ret. destruct (view_call _ _ x) as [x1 r1] eqn:E.
    apply view_call_pure in E as ->. destruct r1; [|done..]. by destruct (u256_from _).
  - intros x' Hrun. unfold bridge_transfer in Hrun. run_inv.
    match goal with Hx : trait_execute _ _ _ _ _ _ x = (?x1, Ok ?i) |- _ => exists i; split; [exact Hx|] end.
    match goal with Hb : andb _ _ = true |- _ => apply andb_true_iff in Hb as [_ Hb] end. run_inv.
    split; [|done]. match goal with Hh : handle_exit_reason (exit_reason ?i) = Ok _ |- _ =>
      by destruct (exit_reason i) end.
  - intros x' info Hx Hf. assert (x' = x) as -> by (eapply failure_pure; [exact Hx|by intros ? [= <-]]).
    unfold bridge_transfer, bind, mlift. rewrite Hx.
    destruct (exit_reason info) as [[]| | |]; try discriminate Hf; simpl; by eexists.
Qed.
End theorems.

(** ** Witnesses *)
Module BridgeWitness.
Import SimpleLedger EvmPalletWitness HandlerWitness RunnerWitness.

(** "RUSD". *)
Definition rusd : bytes := [82; 85; 83; 68].
Lemma decode_string_round_trip_witness : decode_string U32_MAX (encode_string rusd) = Ok rusd.
Proof.
  refine (proj1 (decode_string_round_trip U32_MAX rusd _ _)); vm_compute; discriminate.
Defined.

(** Two words, the first announcing an offset of 64. *)
Definition hostile : bytes := be_bytes 32 64 ++ be_bytes 32 0.
Lemma hostile_bytes : is_bytes hostile.
Proof. apply Forall_app. split; apply be_bytes_is_bytes. Qed.
Lemma decode_string_panics_witness : decode_string U32_MAX hostile = Panic.
Proof.
  refine (proj2 (decode_string_panics U32_MAX hostile hostile_bytes _) _).
  - vm_compute. discriminate.
  - vm_compute. split_and!; try reflexivity; discriminate.
Defined.

Definition evm0 : EVM (Evm W) AccountId :=
  runner_evm (G := Z) cfg0 hash0 rlp0 true 2300 returns no_precompile cost0 5.
Definition evm0_laws : @EVMLaws (Evm W) AccountId evm0 :=
  runner_evm_laws (G := Z) cfg0 hash0 rlp0 true 2300 returns no_precompile cost0 5.

Lemma bridge_calls_witness : (@evm_name (Evm W) AccountId evm0 U32_MAX ctx0 funded).1 = funded.
Proof.
  exact (proj1 (@bridge_calls (Evm W) AccountId evm0 evm0_laws U32_MAX (fun _ => Ok 0)
                  ctx0 alice_evm alice_evm 5 funded)).
Defined.
End BridgeWitness.
