(* ===== verification/Currencies.v ===== *)
(** * The currencies pallet

    Models [src/modules/currencies/src/lib.rs]: every multi-currency operation goes to
    the native currency (REEF), to an ERC20 contract through the EVM bridge, or to the
    tokens pallet, by the currency id.  Reserves of an ERC20 token are balances of a
    derived address.

    The three back ends are classes: [BasicCurrency] (the bounds of
    [Config::NativeCurrency]), [MultiCurrencyFull] (those of [Config::MultiCurrency])
    and [EVMBridge].  [BasicCurrencyAdapter] builds the first from a
    [frame_support] currency; [Tokens] implements all but the bridge, which [EvmBridge]
    implements ([bridge_evm] below). *)

From stdpp Require Import base gmap list strings.
From Stdlib Require Import ZArith Lia.
From S2P Require Import Prelude Interfaces Primitives Tokens TokensLedger.
From S2P Require Import StorageMeter EvmPallet EvmHandler EvmRunner EvmBridge.

Local Open Scope Z_scope.

(** [BasicCurrencyExtended], [BasicLockableCurrency] and [BasicReservableCurrency]. *)
Class BasicCurrency (X A : Type) : Type := {
  bc_minimum_balance : Z;
  bc_total_issuance : X -> Z;
  bc_total_balance : X -> A -> Z;
  bc_free_balance : X -> A -> Z;
  bc_ensure_can_withdraw : A -> Z -> X -> res DispatchError unit;
  bc_transfer : A -> A -> Z -> M X DispatchError unit;
  bc_deposit : A -> Z -> M X DispatchError unit;
  bc_withdraw : A -> Z -> M X DispatchError unit;
  bc_can_slash : X -> A -> Z -> bool;
  bc_slash : A -> Z -> X -> X * Z;
  bc_update_balance : A -> Z -> M X DispatchError unit;
  bc_set_lock : Z -> A -> Z -> M X DispatchError unit;
  bc_extend_lock : Z -> A -> Z -> M X DispatchError unit;
  bc_remove_lock : Z -> A -> M X DispatchError unit;
  bc_can_reserve : X -> A -> Z -> bool;
  bc_slash_reserved : A -> Z -> X -> X * Z;
  bc_reserved_balance : X -> A -> Z;
  bc_reserve : A -> Z -> M X DispatchError unit;
  bc_unreserve : A -> Z -> X -> X * Z;
  bc_repatriate_reserved : A -> A -> Z -> BalanceStatus -> M X DispatchError Z;
}.

(** [MultiCurrencyExtended], [MultiLockableCurrency], [MultiReservableCurrency] and
    [TransferAll], beside [MultiCurrency]. *)
Class MultiCurrencyFull (X A C : Type) : Type := {
  mf_basic :: MultiCurrency X A C;
  mf_update_balance : C -> A -> Z -> M X DispatchError unit;
  mf_set_lock : Z -> C -> A -> Z -> M X DispatchError unit;
  mf_extend_lock : Z -> C -> A -> Z -> M X DispatchError unit;
  mf_remove_lock : Z -> C -> A -> M X DispatchError unit;
  mf_can_reserve : X -> C -> A -> Z -> bool;
  mf_slash_reserved : C -> A -> Z -> X -> X * Z;
  mf_reserved_balance : X -> C -> A -> Z;
  mf_reserve : C -> A -> Z -> M X DispatchError unit;
  mf_unreserve : C -> A -> Z -> X -> X * Z;
  mf_repatriate_reserved : C -> A -> A -> Z -> BalanceStatus -> M X DispatchError Z;
  mf_transfer_all : A -> A -> M X DispatchError unit;
}.

(** The calls of the trait [EVMBridge] that move or read balances. *)
Class EVMBridge (X A : Type) : Type := {
  eb_total_supply : InvokeContext -> M X DispatchError Z;
  eb_balance_of : InvokeContext -> H160 -> M X DispatchError Z;
  eb_transfer : InvokeContext -> H160 -> Z -> M X DispatchError unit;
  eb_get_origin : X -> option A;
}.

Definition bridge_evm {X A : Type} `{EVM X A} (u256_from : bytes -> res DispatchError Z) : EVMBridge X A := {|
  eb_total_supply := total_supply u256_from;
  eb_balance_of := balance_of u256_from;
  eb_transfer := bridge_transfer;
  eb_get_origin := bridge_get_origin;
|}.

(** ** [BasicCurrencyAdapter] *)

(** [Currency], [LockableCurrency] and [ReservableCurrency] of [frame_support], with
    the imbalances as amounts and their drops. *)
Class PalletCurrency (X A : Type) : Type := {
  pc_minimum_balance : Z;
  pc_total_issuance : X -> Z;
  pc_total_balance : X -> A -> Z;
  pc_free_balance : X -> A -> Z;
  pc_ensure_can_withdraw : A -> Z -> Z -> X -> res DispatchError unit;
  pc_transfer : A -> A -> Z -> ExistenceRequirement -> M X DispatchError unit;
  pc_deposit_creating : A -> Z -> X -> X * Z;
  pc_withdraw : A -> Z -> ExistenceRequirement -> M X DispatchError Z;
  pc_can_slash : X -> A -> Z -> bool;
  pc_slash : A -> Z -> X -> X * (Z * Z);
  pc_drop_positive : Z -> X -> X;
  pc_drop_negative : Z -> X -> X;
  pc_set_lock : Z -> A -> Z -> X -> X;
  pc_extend_lock : Z -> A -> Z -> X -> X;
  pc_remove_lock : Z -> A -> X -> X;
  pc_can_reserve : X -> A -> Z -> bool;
  pc_slash_reserved : A -> Z -> X -> X * (Z * Z);
  pc_reserved_balance : X -> A -> Z;
  pc_reserve : A -> Z -> M X DispatchError unit;
  pc_unreserve : A -> Z -> X -> X * Z;
  pc_repatriate_reserved : A -> A -> Z -> BalanceStatus -> M X DispatchError Z;
}.

Module CurrenciesError.
Inductive t :=
| AmountIntoBalanceFailed | BalanceTooLow | ERC20InvalidOperation | EvmAccountNotFound
| RealOriginNotFound | DepositFailed.
Definition name (e : t) : string :=
  match e with
  | AmountIntoBalanceFailed => "AmountIntoBalanceFailed"
  | BalanceTooLow => "BalanceTooLow"
  | ERC20InvalidOperation => "ERC20InvalidOperation"
  | EvmAccountNotFound => "EvmAccountNotFound"
  | RealOriginNotFound => "RealOriginNotFound"
  | DepositFailed => "DepositFailed"
  end.
End CurrenciesError.
Definition cur_err (e : CurrenciesError.t) : DispatchError := Module (CurrenciesError.name e).

Section adapter.
Context {X A : Type} `{PalletCurrency X A}.

Definition bca_ensure_can_withdraw (who : A) (amount : Z) (x : X) : res DispatchError unit :=
  let? new_balance := ok_or (checked_sub (pc_free_balance x who) amount)
                            (cur_err CurrenciesError.BalanceTooLow) in
  pc_ensure_can_withdraw who amount new_balance x.

(** The imbalance is dropped at the end of the block, after the check as well. *)
Definition bca_deposit (who : A) (amount : Z) : M X DispatchError unit :=
  if amount =? 0 then ret tt
  else fun x =>
    let '(x, actual_deposit) := pc_deposit_creating who amount x in
    (pc_drop_positive actual_deposit x,
     rensure (actual_deposit =? amount) (cur_err CurrenciesError.DepositFailed)).

Definition bca_withdraw (who : A) (amount : Z) : M X DispatchError unit :=
  let! i := pc_withdraw who amount AllowDeath in mmodify (pc_drop_negative i).

Definition bca_slash (who : A) (amount : Z) (x : X) : X * Z :=
  let '(x, (i, gap)) := pc_slash who amount x in (pc_drop_negative i x, gap).
Definition bca_slash_reserved (who : A) (value : Z) (x : X) : X * Z :=
  let '(x, (i, gap)) := pc_slash_reserved who value x in (pc_drop_negative i x, gap).

(** [abs] of the least [i128] wraps around to itself, which does not convert. *)
Definition bca_update_balance (who : A) (by_amount : Z) : M X DispatchError unit :=
  let abs := if by_amount =? I128_MIN then I128_MIN else Z.abs by_amount in
  let! by_balance := mlift (if in_ub U128_MAX abs then Ok abs
                            else Err (cur_err CurrenciesError.AmountIntoBalanceFailed)) in
  if 0 <? by_amount then bca_deposit who by_balance else bca_withdraw who by_balance.

#[export] Instance basic_currency_adapter : BasicCurrency X A := {
  bc_minimum_balance := pc_minimum_balance;
  bc_total_issuance := pc_total_issuance;
  bc_total_balance := pc_total_balance;
  bc_free_balance := pc_free_balance;
  bc_ensure_can_withdraw := bca_ensure_can_withdraw;
  bc_transfer from to amount := pc_transfer from to amount AllowDeath;
  bc_deposit := bca_deposit;
  bc_withdraw := bca_withdraw;
  bc_can_slash := pc_can_slash;
  bc_slash := bca_slash;
  bc_update_balance := bca_update_balance;
  bc_set_lock id who amount := mmodify (pc_set_lock id who amount);
  bc_extend_lock id who amount := mmodify (pc_extend_lock id who amount);
  bc_remove_lock id who := mmodify (pc_remove_lock id who);
  bc_can_reserve := pc_can_reserve;
  bc_slash_reserved := bca_slash_reserved;
  bc_reserved_balance := pc_reserved_balance;
  bc_reserve := pc_reserve;
  bc_unreserve := pc_unreserve;
  bc_repatriate_reserved := pc_repatriate_reserved;
}.
End adapter.

(** ** The pallet *)
Inductive CurrenciesEvent (A : Type) : Type :=
| Transferred (c : CurrencyId) (from to : A) (amount : Z)
| BalanceUpdated (c : CurrencyId) (who : A) (amount : Z)
| Deposited (c : CurrencyId) (who : A) (amount : Z)
| Withdrawn (c : CurrencyId) (who : A) (amount : Z).
Arguments Transferred {A}. Arguments BalanceUpdated {A}.
Arguments Deposited {A}. Arguments Withdrawn {A}.

(** The pallet has no storage of its own, only events. *)
Record Currencies (X A : Type) : Type := mkCurrencies {
  cur_events : list (CurrenciesEvent A);
  cur_rest : X;
}.
Arguments mkCurrencies {X A}. Arguments cur_events {X A}. Arguments cur_rest {X A}.

Section pallet.
Context {X A : Type} `{EqDecision A} `{BasicCurrency X A} `{MultiCurrencyFull X A CurrencyId}.
Context `{EVMBridge X A} `{AddressMapping X A}.
Variable blake2_256 : bytes -> bytes.
Abbreviation St := (Currencies X A).
Abbreviation MC := (M St DispatchError).
Implicit Types s : St.

Definition deposit_event e s : St := mkCurrencies (cur_events s ++ [e]) (cur_rest s).
Definition on_back {B} (m : M X DispatchError B) : MC B := fun s =>
  let '(x, r) := m (cur_rest s) in (mkCurrencies (cur_events s) x, r).
Definition on_back_z (m : X -> X * Z) (s : St) : St * Z :=
  let '(x, r) := m (cur_rest s) in (mkCurrencies (cur_events s) x, r).

(** [b"erc20:"]. *)
Definition reserve_address (address : H160) : H160 :=
  take 20 (blake2_256 ([101; 114; 99; 50; 48; 58] ++ address)).

(** A read-only bridge call with [unwrap_or_default]: it leaves no trace, an error reads
    as zero, a panic goes on. *)
Definition read_erc20 (m : M X DispatchError Z) (x : X) : res DispatchError Z :=
  match (m x).2 with Ok v => Ok v | Err _ => Ok 0 | Panic => Panic end.
Definition anonymous (contract : H160) : InvokeContext := mkInvokeContext contract H160_default H160_default.
Definition erc20_balance (contract address : H160) (x : X) : res DispatchError Z :=
  read_erc20 (eb_balance_of (anonymous contract) address) x.

Definition minimum_balance (c : CurrencyId) : Z :=
  match c with
  | ERC20 _ => 0
  | Token REEF => bc_minimum_balance
  | _ => mc_minimum_balance c
  end.

Definition total_issuance s (c : CurrencyId) : res DispatchError Z :=
  match c with
  | ERC20 contract => read_erc20 (eb_total_supply (anonymous contract)) (cur_rest s)
  | Token REEF => Ok (bc_total_issuance (cur_rest s))
  | _ => Ok (mc_total_issuance (cur_rest s) c)
  end.

Definition total_balance s (c : CurrencyId) (who : A) : res DispatchError Z :=
  match c with
  | ERC20 contract =>
      match get_evm_address (cur_rest s) who with
      | Some address => erc20_balance contract address (cur_rest s)
      | None => Ok 0
      end
  | Token REEF => Ok (bc_total_balance (cur_rest s) who)
  | _ => Ok (mc_total_balance (cur_rest s) c who)
  end.

Definition free_balance s (c : CurrencyId) (who : A) : res DispatchError Z :=
  match c with
  | ERC20 contract =>
      match get_evm_address (cur_rest s) who with
      | Some address => erc20_balance contract address (cur_rest s)
      | None => Ok 0
      end
  | Token REEF => Ok (bc_free_balance (cur_rest s) who)
  | _ => Ok (mc_free_balance (cur_rest s) c who)
  end.

Definition ensure_can_withdraw (c : CurrencyId) (who : A) (amount : Z) : MC unit :=
  let! s := mget in
  match c with
  | ERC20 contract =>
      let! address := mlift (ok_or (get_evm_address (cur_rest s) who)
                                   (cur_err CurrenciesError.EvmAccountNotFound)) in
      let! balance := mlift (erc20_balance contract address (cur_rest s)) in
      mensure (amount <=? balance) (cur_err CurrenciesError.BalanceTooLow)
  | Token REEF => mlift (bc_ensure_can_withdraw who amount (cur_rest s))
  | _ => on_back (mc_ensure_can_withdraw c who amount)
  end.

(** [get_or_create_evm_address] as a step. *)
Definition evm_address_for (who : A) : MC H160 := fun s =>
  let '(x, a) := get_or_create_evm_address (cur_rest s) who in (mkCurrencies (cur_events s) x, Ok a).

Definition transfer (c : CurrencyId) (from to : A) (amount : Z) : MC unit :=
  if (amount =? 0) || bool_decide (from = to) then ret tt
  else
    do! (match c with
         | ERC20 contract =>
             let! s := mget in
             let! sender := mlift (ok_or (get_evm_address (cur_rest s) from)
                                         (cur_err CurrenciesError.EvmAccountNotFound)) in
             let! origin := mlift (ok_or (eb_get_origin (cur_rest s))
                                         (cur_err CurrenciesError.RealOriginNotFound)) in
             let! origin_address := evm_address_for origin in
             let! address := evm_address_for to in
             on_back (eb_transfer (mkInvokeContext contract sender origin_address) address amount)
         | Token REEF => on_back (bc_transfer from to amount)
         | _ => on_back (mc_transfer c from to amount)
         end) in
    mmodify (deposit_event (Transferred c from to amount)).

Definition deposit (c : CurrencyId) (who : A) (amount : Z) : MC unit :=
  if amount =? 0 then ret tt
  else
    do! (match c with
         | ERC20 _ => throw (cur_err CurrenciesError.ERC20InvalidOperation)
         | Token REEF => on_back (bc_deposit who amount)
         | _ => on_back (mc_deposit c who amount)
         end) in
    mmodify (deposit_event (Deposited c who amount)).

Definition withdraw (c : CurrencyId) (who : A) (amount : Z) : MC unit :=
  if amount =? 0 then ret tt
  else
    do! (match c with
         | ERC20 _ => throw (cur_err CurrenciesError.ERC20InvalidOperation)
         | Token REEF => on_back (bc_withdraw who amount)
         | _ => on_back (mc_withdraw c who amount)
         end) in
    mmodify (deposit_event (Withdrawn c who amount)).

Definition can_slash s (c : CurrencyId) (who : A) (amount : Z) : bool :=
  match c with
  | ERC20 _ => false
  | Token REEF => bc_can_slash (cur_rest s) who amount
  | _ => mc_can_slash (cur_rest s) c who amount
  end.

Definition slash (c : CurrencyId) (who : A) (amount : Z) (s : St) : St * Z :=
  match c with
  | ERC20 _ => (s, 0)
  | Token REEF => on_back_z (bc_slash who amount) s
  | _ => on_back_z (mc_slash c who amount) s
  end.

Definition update_balance (c : CurrencyId) (who : A) (by_amount : Z) : MC unit :=
  do! (match c with
       | ERC20 _ => throw (cur_err CurrenciesError.ERC20InvalidOperation)
       | Token REEF => on_back (bc_update_balance who by_amount)
       | _ => on_back (mf_update_balance c who by_amount)
       end) in
  mmodify (deposit_event (BalanceUpdated c who by_amount)).

(** ** Locks and reserves *)
Definition set_lock (id : Z) (c : CurrencyId) (who : A) (amount : Z) : MC unit :=
  match c with
  | ERC20 _ => throw (cur_err CurrenciesError.ERC20InvalidOperation)
  | Token REEF => on_back (bc_set_lock id who amount)
  | _ => on_back (mf_set_lock id c who amount)
  end.
Definition extend_lock (id : Z) (c : CurrencyId) (who : A) (amount : Z) : MC unit :=
  match c with
  | ERC20 _ => throw (cur_err CurrenciesError.ERC20InvalidOperation)
  | Token REEF => on_back (bc_extend_lock id who amount)
  | _ => on_back (mf_extend_lock id c who amount)
  end.
Definition remove_lock (id : Z) (c : CurrencyId) (who : A) : MC unit :=
  match c with
  | ERC20 _ => throw (cur_err CurrenciesError.ERC20InvalidOperation)
  | Token REEF => on_back (bc_remove_lock id who)
  | _ => on_back (mf_remove_lock id c who)
  end.

Definition can_reserve s (c : CurrencyId) (who : A) (value : Z) : res DispatchError bool :=
  match c with
  | ERC20 _ =>
      match (ensure_can_withdraw c who value s).2 with
      | Ok _ => Ok true
      | Err _ => Ok false
      | Panic => Panic
      end
  | Token REEF => Ok (bc_can_reserve (cur_rest s) who value)
  | _ => Ok (mf_can_reserve (cur_rest s) c who value)
  end.

Definition slash_reserved (c : CurrencyId) (who : A) (value : Z) : MC Z :=
  match c with
  | ERC20 contract => fun s =>
      match get_evm_address (cur_rest s) who with
      | Some address =>
          (s, let? account_balance := erc20_balance contract address (cur_rest s) in
              Ok (if value <? account_balance then value else account_balance))
      | None => (s, Ok value)
      end
  | Token REEF => fun s => let '(s', r) := on_back_z (bc_slash_reserved who value) s in (s', Ok r)
  | _ => fun s => let '(s', r) := on_back_z (mf_slash_reserved c who value) s in (s', Ok r)
  end.

Definition reserved_balance s (c : CurrencyId) (who : A) : res DispatchError Z :=
  match c with
  | ERC20 contract =>
      match get_evm_address (cur_rest s) who with
      | Some address => erc20_balance contract (reserve_address address) (cur_rest s)
      | None => Ok 0
      end
  | Token REEF => Ok (bc_reserved_balance (cur_rest s) who)
  | _ => Ok (mf_reserved_balance (cur_rest s) c who)
  end.

Definition reserve (c : CurrencyId) (who : A) (value : Z) : MC unit :=
  match c with
  | ERC20 contract =>
      if value =? 0 then ret tt
      else
        let! s := mget in
        let! address := mlift (ok_or (get_evm_address (cur_rest s) who)
                                     (cur_err CurrenciesError.EvmAccountNotFound)) in
        on_back (eb_transfer (mkInvokeContext contract address address) (reserve_address address) value)
  | Token REEF => on_back (bc_reserve who value)
  | _ => on_back (mf_reserve c who value)
  end.

(** The result of a bridge transfer whose error is only looked at: the storage it
    leaves stays, a panic goes on. *)
Definition unreserve (c : CurrencyId) (who : A) (value : Z) : MC Z :=
  match c with
  | ERC20 contract =>
      if value =? 0 then ret value
      else
        let! s := mget in
        match get_evm_address (cur_rest s) who with
        | Some address =>
            let sender := reserve_address address in
            let! reserved_balance := mlift (erc20_balance contract sender (cur_rest s)) in
            let actual := Z.min reserved_balance value in
            fun s =>
              match on_back (eb_transfer (mkInvokeContext contract sender address) address actual) s with
              | (s', Ok _) => (s', Ok (value - actual))
              | (s', Err _) => (s', Ok value)
              | (s', Panic) => (s', Panic)
              end
        | None => ret value
        end
  | Token REEF => fun s => let '(s', r) := on_back_z (bc_unreserve who value) s in (s', Ok r)
  | _ => fun s => let '(s', r) := on_back_z (mf_unreserve c who value) s in (s', Ok r)
  end.

Definition repatriate_reserved (c : CurrencyId) (slashed beneficiary : A) (value : Z)
    (status : BalanceStatus) : MC Z :=
  match c with
  | ERC20 contract =>
      if value =? 0 then ret value
      else if bool_decide (slashed = beneficiary) then
        match status with
        | Free => unreserve c slashed value
        | Reserved =>
            let! s := mget in
            let! r := mlift (reserved_balance s c slashed) in
            ret (sat_sub value r)
        end
      else
        let! s := mget in
        let! slashed_address := mlift (ok_or (get_evm_address (cur_rest s) slashed)
                                             (cur_err CurrenciesError.EvmAccountNotFound)) in
        let! beneficiary_address := evm_address_for beneficiary in
        let! s := mget in
        let slashed_reserve := reserve_address slashed_address in
        let! slashed_reserve_balance := mlift (erc20_balance contract slashed_reserve (cur_rest s)) in
        let actual := Z.min slashed_reserve_balance value in
        let to := match status with
                  | Free => beneficiary_address
                  | Reserved => reserve_address beneficiary_address
                  end in
        do! on_back (eb_transfer (mkInvokeContext contract slashed_reserve slashed_address) to actual) in
        ret (value - actual)
  | Token REEF => on_back (bc_repatriate_reserved slashed beneficiary value status)
  | _ => on_back (mf_repatriate_reserved c slashed beneficiary value status)
  end.

Definition transfer_all (source dest : A) : MC unit :=
  transactional (
    do! on_back (mf_transfer_all source dest) in
    let! s := mget in
    on_back (bc_transfer source dest (bc_free_balance (cur_rest s) source))).

(** [TransferDust::on_dust] of this pallet. *)
Definition currencies_on_dust (treasury who : A) (c : CurrencyId) (amount : Z) (s : St) : St :=
  match c with
  | ERC20 _ => s
  | Token REEF => (on_back (bc_transfer who treasury amount) s).1
  | _ => (on_back (mc_transfer c who treasury amount) s).1
  end.

(** ** Calls *)
Section calls.
Context {Source : Type} (lookup : Source -> res DispatchError A).

Definition transfer_ext (origin : Origin A) (dest : Source) (c : CurrencyId) (amount : Z) : MC unit :=
  let! from := mlift (ensure_signed origin) in
  let! to := mlift (lookup dest) in
  transfer c from to amount.
Definition transfer_native_currency (origin : Origin A) (dest : Source) (amount : Z) : MC unit :=
  let! from := mlift (ensure_signed origin) in
  let! to := mlift (lookup dest) in
  do! on_back (bc_transfer from to amount) in
  mmodify (deposit_event (Transferred (Token REEF) from to amount)).
Definition update_balance_ext (origin : Origin A) (who : Source) (c : CurrencyId) (amount : Z) : MC unit :=
  do! mlift (ensure_root origin) in
  let! dest := mlift (lookup who) in
  update_balance c dest amount.
End calls.
End pallet.

(** ** The pallet over the tokens pallet *)

(** What a native currency promises about an invariant of the storage: it holds again
    once the imbalance of the operation is dropped. *)
Class KeepsInvariant {X A : Type} (Inv : X -> Prop) `{PalletCurrency X A} : Prop := {
  ki_transfer a b v er x x' u : 0 <= v -> Inv x -> pc_transfer a b v er x = (x', Ok u) -> Inv x';
  ki_deposit a v x x' : 0 < v -> Inv x -> pc_deposit_creating a v x = (x', v) -> Inv (pc_drop_positive v x');
  ki_withdraw a v er x x' i : 0 <= v -> Inv x -> pc_withdraw a v er x = (x', Ok i) -> Inv (pc_drop_negative i x');
  ki_slash a v x x' i g : 0 <= v -> Inv x -> pc_slash a v x = (x', (i, g)) -> Inv (pc_drop_negative i x');
  ki_slash_reserved a v x x' i g :
    0 <= v -> Inv x -> pc_slash_reserved a v x = (x', (i, g)) -> Inv (pc_drop_negative i x');
  ki_set_lock id a v x : Inv x -> Inv (pc_set_lock id a v x);
  ki_extend_lock id a v x : Inv x -> Inv (pc_extend_lock id a v x);
  ki_remove_lock id a x : Inv x -> Inv (pc_remove_lock id a x);
  ki_reserve a v x x' u : 0 <= v -> Inv x -> pc_reserve a v x = (x', Ok u) -> Inv x';
  ki_unreserve a v x x' r : 0 <= v -> Inv x -> pc_unreserve a v x = (x', r) -> Inv x';
  ki_repatriate a b v st x x' r : 0 <= v -> Inv x -> pc_repatriate_reserved a b v st x = (x', Ok r) -> Inv x';
  ki_free x a : Inv x -> 0 <= pc_free_balance x a;
}.

Section adapter_laws.
Context {X A : Type} (Inv : X -> Prop) `{KeepsInvariant X A Inv}.

Lemma bca_deposit_inv who v x x' u :
  0 <= v -> Inv x -> bca_deposit who v x = (x', Ok u) -> Inv x'.
Proof.
  intros Hv Hinv. unfold bca_deposit. destruct (Z.eqb_spec v 0); [intros Hr; by run_inv|].
  destruct (pc_deposit_creating who v x) as [x1 i] eqn:Ed. unfold rensure.
  destruct (Z.eqb_spec i v) as [->|]; [|by intros [=]]. intros [= <- <-].
  eapply ki_deposit; [lia|done..].
Qed.
Lemma bca_withdraw_inv who v x x' u :
  0 <= v -> Inv x -> bca_withdraw who v x = (x', Ok u) -> Inv x'.
Proof. intros Hv Hinv Hr. unfold bca_withdraw in Hr. run_inv. by eapply ki_withdraw. Qed.
Lemma bca_slash_inv who v x x' r : 0 <= v -> Inv x -> bca_slash who v x = (x', r) -> Inv x'.
Proof.
  intros Hv Hinv. unfold bca_slash. destruct (pc_slash who v x) as [x1 [i g]] eqn:Es.
  intros [= <- <-]. by eapply ki_slash.
Qed.
Lemma bca_slash_reserved_inv who v x x' r :
  0 <= v -> Inv x -> bca_slash_reserved who v x = (x', r) -> Inv x'.
Proof.
  intros Hv Hinv. unfold bca_slash_reserved. destruct (pc_slash_reserved who v x) as [x1 [i g]] eqn:Es.
  intros [= <- <-]. by eapply ki_slash_reserved.
Qed.
Lemma bca_update_balance_inv who v x x' u :
  Inv x -> bca_update_balance who v x = (x', Ok u) -> Inv x'.
Proof.
  intros Hinv Hr. unfold bca_update_balance in Hr. run_inv. destruct (in_ub _ _) eqn:Eb in *; run_inv.
  match goal with Hv : Ok _ = Ok _ |- _ => injection Hv as <- end. apply in_ub_spec in Eb as [Hb _].
  destruct (0 <? v); [by eapply bca_deposit_inv|by eapply bca_withdraw_inv].
Qed.
End adapter_laws.

Section tokens_backend.
Context {R A : Type} `{Countable A} `{SystemRefs R A}.
Abbreviation X := (Tokens R A CurrencyId).
Variable cfg : TokensConfig A CurrencyId.
Abbreviation nd := (no_dust (X := R) (A := A) (C := CurrencyId)).
Abbreviation native := (Token REEF).

(** [CurrencyAdapter<Runtime, GetNativeCurrencyId>]. *)
Definition tokens_native : PalletCurrency X A := {|
  pc_minimum_balance := ExistentialDeposits cfg native;
  pc_total_issuance x := Tokens.total_issuance x native;
  pc_total_balance x who := Tokens.total_balance x native who;
  pc_free_balance x who := Tokens.free_balance x native who;
  pc_ensure_can_withdraw who amount _ x := Tokens.ensure_can_withdraw native who amount x;
  pc_transfer from to v er := do_transfer cfg nd native from to v er;
  pc_deposit_creating who v := adapter_deposit_creating cfg nd native who v;
  pc_withdraw who v er := adapter_withdraw cfg nd native who v er;
  pc_can_slash x who v := Tokens.can_slash x native who v;
  pc_slash who v := adapter_slash cfg nd native who v;
  pc_drop_positive := drop_positive native;
  pc_drop_negative := drop_negative native;
  pc_set_lock id who v := adapter_set_lock cfg nd id native who v;
  pc_extend_lock id who v x := (Tokens.extend_lock cfg nd id native who v x).1;
  pc_remove_lock id who x := (Tokens.remove_lock cfg nd id native who x).1;
  pc_can_reserve x who v := Tokens.can_reserve x native who v;
  pc_slash_reserved who v := adapter_slash_reserved cfg nd native who v;
  pc_reserved_balance x who := Tokens.reserved_balance x native who;
  pc_reserve who v := Tokens.reserve cfg nd native who v;
  pc_unreserve who v := Tokens.unreserve cfg nd native who v;
  pc_repatriate_reserved a b v st x :=
    let '(x, r) := Tokens.repatriate_reserved cfg nd native a b v st x in (x, Ok r);
|}.

Definition tokens_full : MultiCurrencyFull X A CurrencyId := {|
  mf_basic := tokens_multi_currency cfg nd;
  mf_update_balance := Tokens.update_balance cfg nd;
  mf_set_lock := Tokens.set_lock cfg nd;
  mf_extend_lock := Tokens.extend_lock cfg nd;
  mf_remove_lock := Tokens.remove_lock cfg nd;
  mf_can_reserve := Tokens.can_reserve;
  mf_slash_reserved := Tokens.slash_reserved cfg nd;
  mf_reserved_balance := Tokens.reserved_balance;
  mf_reserve := Tokens.reserve cfg nd;
  mf_unreserve := Tokens.unreserve cfg nd;
  mf_repatriate_reserved c a b v st x :=
    let '(x, r) := Tokens.repatriate_reserved cfg nd c a b v st x in (x, Ok r);
  mf_transfer_all := pallet_transfer_all cfg nd;
|}.
Lemma drop_nothing c (x : X) : ledger_inv x -> ledger_inv (drop_negative c 0 x).
Proof.
  intros Hi. unfold drop_negative. pose proof (held_nonneg c _ (balances_ok _ Hi)) as Hh.
  rewrite <- (issuance_held _ Hi) in Hh. rewrite sat_sub_exact by lia.
  eapply inv_drift; [apply drift_issue; [by apply drift_inv|pose proof (issuance_max _ Hi c); lia]|]. lia.
Qed.

Lemma update_locks_fst c who ls (f : X -> X) x :
  (forall y, ledger_inv y -> ledger_inv (f y)) -> ledger_inv x ->
  ledger_inv (bind (update_locks cfg nd c who ls) (fun _ => mmodify f) x).1.
Proof.
  intros Hf Hinv. unfold bind, mmodify. destruct (update_locks cfg nd c who ls x) as [x1 [u|e|]] eqn:Eu; simpl;
    [apply Hf|..]; by eapply update_locks_any.
Qed.

#[export] Instance tokens_native_inv : @KeepsInvariant X A ledger_inv tokens_native.
Proof.
  split; cbn [pc_transfer pc_deposit_creating pc_drop_positive pc_withdraw pc_drop_negative pc_slash
    pc_slash_reserved pc_set_lock pc_extend_lock pc_remove_lock pc_reserve pc_unreserve
    pc_repatriate_reserved pc_free_balance tokens_native].
  - intros. by eapply do_transfer_inv.
  - intros a v x x' Hv Hinv. unfold adapter_deposit_creating.
    destruct (do_deposit _ _ _ _ _ _ _ x) as [x1 [w|e|]] eqn:Ed; cbn [is_ok]; [intros [= <-]|intros [=]; lia..].
    eapply deposit_drop_inv; [lia|done..].
  - intros a v er x x' i Hv Hinv Hr. unfold adapter_withdraw in Hr. run_inv. by eapply withdraw_drop_inv.
  - intros. by eapply adapter_slash_inv.
  - intros a v x x' i g Hv Hinv. unfold adapter_slash_reserved.
    destruct (Tokens.slash_reserved _ _ _ _ _ x) as [x1 g1] eqn:Es. intros [= <- <- <-].
    apply drop_nothing. by eapply slash_reserved_spec.
  - intros id a v x Hinv. unfold adapter_set_lock, Tokens.set_lock. destruct (v =? 0); [done|].
    apply update_locks_fst; [|done]. intros y. by apply untouched_inv, emit_untouched.
  - intros id a v x Hinv. unfold Tokens.extend_lock. destruct (v =? 0); [done|]. unfold bind, mget; simpl.
    destruct (update_locks _ _ _ _ _ x) as [x1 r] eqn:Eu. by eapply update_locks_any.
  - intros id a x Hinv. unfold Tokens.remove_lock.
    apply update_locks_fst; [|done]. intros y. by apply untouched_inv, emit_untouched.
  - intros. by eapply reserve_inv.
  - intros. by eapply unreserve_inv.
  - intros a b v st x x' r Hv Hinv. destruct (Tokens.repatriate_reserved _ _ _ _ _ _ _ x) as [x1 r1] eqn:Er.
    intros [= <- <-]. by eapply repatriate_inv.
  - intros x a Hinv. unfold Tokens.free_balance. rewrite account_of_lk. apply lk_ok, Hinv.
Qed.
End tokens_backend.

Section conservation.
Context {R A : Type} `{Countable A} `{SystemRefs R A}.
Abbreviation X := (Tokens R A CurrencyId).
Variable cfg : TokensConfig A CurrencyId.
#[local] Instance runtime_tokens : MultiCurrencyFull X A CurrencyId := tokens_full cfg.
Context `{PalletCurrency X A} `{!KeepsInvariant (X := X) (A := A) ledger_inv}.
Context `{EVMBridge X A} `{AddressMapping X A}.
Variable blake2_256 : bytes -> bytes.
(** Execution of ERC20 contracts and new address mappings leave the ledger sound. *)
Hypothesis bridge_sound : forall ctx to v x x' r,
  ledger_inv x -> eb_transfer ctx to v x = (x', r) -> ledger_inv x'.
Hypothesis mapping_sound : forall x a x' e,
  ledger_inv x -> get_or_create_evm_address x a = (x', e) -> ledger_inv x'.

Abbreviation St := (Currencies X A).
Implicit Types s : St.

(** One operation of the pallet, as its caller commits it. *)
Inductive cur_step : St -> St -> Prop :=
| cs_transfer c a b v s s' u : 0 <= v -> transfer c a b v s = (s', Ok u) -> cur_step s s'
| cs_deposit c a v s s' u : 0 <= v -> deposit c a v s = (s', Ok u) -> cur_step s s'
| cs_withdraw c a v s s' u : 0 <= v -> withdraw c a v s = (s', Ok u) -> cur_step s s'
| cs_slash c a v s s' r : 0 <= v -> slash c a v s = (s', r) -> cur_step s s'
| cs_update_balance c a v s s' u : update_balance c a v s = (s', Ok u) -> cur_step s s'
| cs_set_lock id c a v s s' u : set_lock id c a v s = (s', Ok u) -> cur_step s s'
| cs_extend_lock id c a v s s' u : extend_lock id c a v s = (s', Ok u) -> cur_step s s'
| cs_remove_lock id c a s s' u : remove_lock id c a s = (s', Ok u) -> cur_step s s'
| cs_slash_reserved c a v s s' r : 0 <= v -> slash_reserved c a v s = (s', Ok r) -> cur_step s s'
| cs_reserve c a v s s' u : 0 <= v -> reserve blake2_256 c a v s = (s', Ok u) -> cur_step s s'
| cs_unreserve c a v s s' r : 0 <= v -> unreserve blake2_256 c a v s = (s', Ok r) -> cur_step s s'
| cs_repatriate c a b v st s s' r :
    0 <= v -> repatriate_reserved blake2_256 c a b v st s = (s', Ok r) -> cur_step s s'
| cs_transfer_all a b s s' u : transfer_all a b s = (s', Ok u) -> cur_step s s'
| cs_transfer_native {Source} (lookup : Source -> res DispatchError A) o dest v s s' u :
    0 <= v -> transfer_native_currency lookup o dest v s = (s', Ok u) -> cur_step s s'.

Lemma on_back_Ok {B} (m : M X DispatchError B) s s' r :
  on_back m s = (s', r) -> m (cur_rest s) = (cur_rest s', r).
Proof. unfold on_back. destruct (m (cur_rest s)). by intros [= <- <-]. Qed.
Lemma on_back_z_eq (m : X -> X * Z) s s' r : on_back_z m s = (s', r) -> m (cur_rest s) = (cur_rest s', r).
Proof. unfold on_back_z. destruct (m (cur_rest s)). by intros [= <- <-]. Qed.
Lemma on_back_z_Ok (m : X -> X * Z) s s' r :
  (let '(s1, r1) := on_back_z m s in (s1, Ok (E := DispatchError) r1)) = (s', Ok r) ->
  m (cur_rest s) = (cur_rest s', r).
Proof. destruct (on_back_z m s) as [s1 r1] eqn:E. intros [= <- <-]. by apply on_back_z_eq. Qed.
Lemma evm_address_for_Ok who s s' a :
  evm_address_for who s = (s', Ok a) -> get_or_create_evm_address (cur_rest s) who = (cur_rest s', a).
Proof. unfold evm_address_for. destruct (get_or_create_evm_address _ _). by intros [= <- <-]. Qed.

Abbreviation sound s := (ledger_inv (cur_rest s)).

Ltac open_backend Hx := cbn [runtime_tokens tokens_full tokens_multi_currency basic_currency_adapter mf_basic
  mc_transfer mc_deposit mc_withdraw mc_slash mf_update_balance mf_set_lock mf_extend_lock mf_remove_lock
  mf_slash_reserved mf_reserve mf_unreserve mf_repatriate_reserved mf_transfer_all bc_transfer bc_deposit
  bc_withdraw bc_slash bc_update_balance bc_slash_reserved bc_reserve bc_unreserve bc_repatriate_reserved
  bc_free_balance] in Hx.
(** From an operation of this pallet to the operation of the back end. *)
Ltac to_back :=
  run_inv;
  repeat match goal with
  | Hx : evm_address_for _ _ = (_, Ok _) |- _ => apply evm_address_for_Ok in Hx
  | Hx : on_back _ _ = (_, Ok _) |- _ => apply on_back_Ok in Hx; open_backend Hx
  | Hx : on_back_z _ _ = _ |- _ => apply on_back_z_eq in Hx; open_backend Hx
  | Hx : (let '(_, _) := on_back_z _ _ in _) = _ |- _ => apply on_back_z_Ok in Hx; open_backend Hx
  end; cbn [deposit_event cur_rest].

Lemma tokens_deposit_inv c a v (x x' : X) u :
  0 <= v -> ledger_inv x -> Tokens.deposit cfg no_dust c a v x = (x', Ok u) -> ledger_inv x'.
Proof. intros Hv Hinv Hr. unfold Tokens.deposit in Hr. run_inv. by eapply do_deposit_inv. Qed.
Lemma tokens_withdraw_inv c a v (x x' : X) u :
  0 <= v -> ledger_inv x -> Tokens.withdraw cfg no_dust c a v x = (x', Ok u) -> ledger_inv x'.
Proof. apply do_withdraw_inv. Qed.
Lemma tokens_slash_inv c a v (x x' : X) r :
  0 <= v -> ledger_inv x -> Tokens.slash cfg no_dust c a v x = (x', r) -> ledger_inv x'.
Proof. intros. by eapply slash_spec. Qed.
Lemma tokens_slash_reserved_inv c a v (x x' : X) r :
  0 <= v -> ledger_inv x -> Tokens.slash_reserved cfg no_dust c a v x = (x', r) -> ledger_inv x'.
Proof. intros. by eapply slash_reserved_spec. Qed.
Lemma tokens_repatriate_inv c a b v st (x x' : X) r :
  0 <= v -> ledger_inv x ->
  (let '(y, r) := Tokens.repatriate_reserved cfg no_dust c a b v st x in (y, Ok (E := DispatchError) r)) = (x', Ok r) ->
  ledger_inv x'.
Proof.
  intros Hv Hinv. destruct (Tokens.repatriate_reserved _ _ _ _ _ _ _ x) as [x1 r1] eqn:Er.
  intros [= <- <-]. by eapply repatriate_inv.
Qed.
(** The operations of the native currency, by the laws of [KeepsInvariant]. *)
Ltac native_law :=
  match goal with
  | Hx : pc_transfer _ _ _ _ _ = _ |- _ => apply ki_transfer in Hx
  | Hx : pc_reserve _ _ _ = _ |- _ => apply ki_reserve in Hx
  | Hx : pc_unreserve _ _ _ = _ |- _ => apply ki_unreserve in Hx
  | Hx : pc_repatriate_reserved _ _ _ _ _ = _ |- _ => apply ki_repatriate in Hx
  | Hx : bca_deposit _ _ _ = _ |- _ => apply (bca_deposit_inv ledger_inv) in Hx
  | Hx : bca_withdraw _ _ _ = _ |- _ => apply (bca_withdraw_inv ledger_inv) in Hx
  | Hx : bca_slash _ _ _ = _ |- _ => apply (bca_slash_inv ledger_inv) in Hx
  | Hx : bca_slash_reserved _ _ _ = _ |- _ => apply (bca_slash_reserved_inv ledger_inv) in Hx
  | Hx : bca_update_balance _ _ _ = _ |- _ => apply (bca_update_balance_inv ledger_inv) in Hx
  end; assumption.
(** The operations of the tokens pallet. *)
Ltac tokens_law :=
  match goal with
  | Hx : do_transfer _ _ _ _ _ _ _ _ = _ |- _ => apply do_transfer_inv in Hx
  | Hx : Tokens.deposit _ _ _ _ _ _ = _ |- _ => apply tokens_deposit_inv in Hx
  | Hx : Tokens.withdraw _ _ _ _ _ _ = _ |- _ => apply tokens_withdraw_inv in Hx
  | Hx : Tokens.slash _ _ _ _ _ _ = _ |- _ => apply tokens_slash_inv in Hx
  | Hx : Tokens.slash_reserved _ _ _ _ _ _ = _ |- _ => apply tokens_slash_reserved_inv in Hx
  | Hx : Tokens.update_balance _ _ _ _ _ _ = _ |- _ => apply update_balance_inv in Hx
  | Hx : Tokens.set_lock _ _ _ _ _ _ _ = _ |- _ => apply set_lock_inv in Hx
  | Hx : Tokens.extend_lock _ _ _ _ _ _ _ = _ |- _ => apply extend_lock_inv in Hx
  | Hx : Tokens.remove_lock _ _ _ _ _ _ = _ |- _ => apply remove_lock_inv in Hx
  | Hx : Tokens.reserve _ _ _ _ _ _ = _ |- _ => apply reserve_inv in Hx
  | Hx : Tokens.unreserve _ _ _ _ _ _ = _ |- _ => apply unreserve_inv in Hx
  | Hx : (let '(_, _) := Tokens.repatriate_reserved _ _ _ _ _ _ _ _ in _) = _ |- _ =>
      apply tokens_repatriate_inv in Hx
  end; assumption.
(** Calls of ERC20 contracts. *)
Ltac bridge_law :=
  repeat match goal with
  | Hx : get_or_create_evm_address _ _ = _ |- _ => apply mapping_sound in Hx; [|assumption]
  | Hx : eb_transfer _ _ _ _ = _ |- _ => apply bridge_sound in Hx; [|assumption]
  end; assumption.
Ltac settle := first [native_law|tokens_law|bridge_law|idtac].
Lemma on_native_lock (f : X -> X) s s' u :
  (forall x, ledger_inv x -> ledger_inv (f x)) -> sound s -> on_back (mmodify f) s = (s', Ok u) -> sound s'.
Proof. intros Hf Hinv Hr. apply on_back_Ok in Hr. cbn in Hr. injection Hr as <- _. by apply Hf. Qed.

Lemma cur_transfer_inv c a b v s s' u : 0 <= v -> sound s -> transfer c a b v s = (s', Ok u) -> sound s'.
Proof.
  intros Hv Hinv Hr. unfold transfer in Hr. destruct (_ || _); [by run_inv|].
  apply bind_Ok in Hr as (w & s1 & Ht & Hr). destruct c as [[]| |]; to_back; settle.
Qed.
Lemma cur_unreserve_inv c a v s s' r :
  0 <= v -> sound s -> unreserve blake2_256 c a v s = (s', Ok r) -> sound s'.
Proof.
  intros Hv Hinv Hr. unfold unreserve in Hr. destruct c as [[]| |]; to_back; settle.
  destruct (_ =? _); to_back; [done|]. destruct (get_evm_address _ _); to_back; [|done].
  destruct (on_back _ _) as [s1 r1] eqn:Eb. apply on_back_Ok in Eb.
  destruct r1; [injection Hr as <- <-; settle..|done].
Qed.
Lemma cur_repatriate_inv c a b v st s s' r :
  0 <= v -> sound s -> repatriate_reserved blake2_256 c a b v st s = (s', Ok r) -> sound s'.
Proof.
  intros Hv Hinv Hr. destruct c as [[]| |].
  4: { unfold repatriate_reserved in Hr. destruct (_ =? _); [by to_back|].
    destruct (bool_decide _); [|to_back; settle].
    destruct st; [by eapply cur_unreserve_inv|by to_back]. }
  all: unfold repatriate_reserved in Hr; to_back; settle.
Qed.
Lemma cur_transfer_all_inv a b s s' u : sound s -> transfer_all a b s = (s', Ok u) -> sound s'.
Proof.
  intros Hinv Hr. unfold transfer_all in Hr. to_back.
  match goal with Hm : pallet_transfer_all _ _ _ _ _ = _ |- _ => apply transfer_all_inv in Hm; [|done] end.
  eapply ki_transfer; [|eassumption..]. by apply ki_free.
Qed.
(** The operations that only choose a back end. *)
Ltac by_backend := match goal with c : CurrencyId |- _ => destruct c as [[]| |] end; to_back; settle.

Lemma cur_lock_inv id c a v s s' u m :
  m = set_lock id c a v \/ m = extend_lock id c a v \/ m = remove_lock id c a ->
  sound s -> m s = (s', Ok u) -> sound s'.
Proof.
  intros Hm Hinv Hr. destruct c as [[]| |], Hm as [->|[->| ->]]; cbn [set_lock extend_lock remove_lock] in Hr.
  1-3: by eapply on_native_lock; [|exact Hinv|exact Hr]; intros; first [apply ki_set_lock|apply ki_extend_lock|apply ki_remove_lock].
  all: to_back; settle.
Qed.

(** Through every operation of the currencies pallet that its caller commits
    (transfers, deposits, withdrawals, slashes, locks, reserves, [transfer_all], with the
    currency sent to the native currency, to an ERC20 contract or to the tokens pallet)
    the ledger of the tokens pallet stays sound: the total issuance of every currency is
    what the accounts hold, and no balance is negative or above its width.  The native
    currency is any that keeps this ledger once its imbalances are dropped; ERC20
    contracts and address mappings are assumed not to break it. *)
Theorem currencies_conserve s s' : cur_step s s' -> sound s -> sound s'.
Proof.
  intros Hs Hinv. destruct Hs as [c a b v s s' u Hv Hr|c a v s s' u Hv Hr|c a v s s' u Hv Hr|c a v s s' r Hv Hr
    |c a v s s' u Hr|id c a v s s' u Hr|id c a v s s' u Hr|id c a s s' u Hr|c a v s s' r Hv Hr|c a v s s' u Hv Hr
    |c a v s s' r Hv Hr|c a b v st s s' r Hv Hr|a b s s' u Hr|Source lookup o dest v s s' u Hv Hr].
  - by eapply cur_transfer_inv.
  - unfold deposit in Hr. destruct (_ =? _); [by run_inv|].
    apply bind_Ok in Hr as (w & s1 & Ht & Hr). by_backend.
  - unfold withdraw in Hr. destruct (_ =? _); [by run_inv|].
    apply bind_Ok in Hr as (w & s1 & Ht & Hr). by_backend.
  - unfold slash in Hr. by_backend. by injection Hr as <- <-.
  - unfold update_balance in Hr. apply bind_Ok in Hr as (w & s1 & Ht & Hr). by_backend.
  - by eapply cur_lock_inv; [left|..].
  - by eapply cur_lock_inv; [right; left|..].
  - by eapply (cur_lock_inv id c a 0); [right; right|..].
  - unfold slash_reserved in Hr. by_backend. destruct (get_evm_address _ _); by injection Hr as <-.
  - unfold reserve in Hr. by_backend. destruct (_ =? _); to_back; settle.
  - by eapply cur_unreserve_inv.
  - by eapply cur_repatriate_inv.
  - by eapply cur_transfer_all_inv.
  - unfold transfer_native_currency in Hr. to_back. settle.
Qed.
End conservation.

(** ** ERC20 currencies *)

(** What a well-behaved ERC20 token does behind the bridge: [bal contract address] is its
    ledger. *)
Definition moved (f : H160 -> H160 -> Z) (contract from to : H160) (v : Z) (c a : H160) : Z :=
  f c a - (if bool_decide (c = contract /\ a = from) then v else 0)
        + (if bool_decide (c = contract /\ a = to) then v else 0).

Class ERC20Laws (X A : Type) `{EVMBridge X A} `{AddressMapping X A} (bal : X -> H160 -> H160 -> Z) : Prop := {
  el_balance_of x ctx a : eb_balance_of ctx a x = (x, Ok (bal x (ic_contract ctx) a));
  el_transfer x ctx to v : 0 <= v <= bal x (ic_contract ctx) (ic_sender ctx) ->
    exists x', eb_transfer ctx to v x = (x', Ok tt) /\
      (forall c a, bal x' c a = moved (bal x) (ic_contract ctx) (ic_sender ctx) to v c a) /\
      (forall w : A, get_evm_address x' w = get_evm_address x w);
}.

Section erc20.
Context {X A : Type} `{EqDecision A} `{BasicCurrency X A} `{MultiCurrencyFull X A CurrencyId}.
Context (bal : X -> H160 -> H160 -> Z) `{ERC20Laws X A bal}.
Variable blake2_256 : bytes -> bytes.
Abbreviation St := (Currencies X A).
Implicit Types s : St.
Abbreviation reserve_of := (reserve_address blake2_256).

Lemma erc20_balance_bal contract a x : erc20_balance contract a x = Ok (bal x contract a).
Proof. unfold erc20_balance, read_erc20. by rewrite el_balance_of. Qed.

Lemma on_back_transfer contract from origin to v s :
  0 <= v <= bal (cur_rest s) contract from ->
  exists s', on_back (eb_transfer (mkInvokeContext contract from origin) to v) s = (s', Ok tt) /\
    (forall c a, bal (cur_rest s') c a = moved (bal (cur_rest s)) contract from to v c a) /\
    (forall w : A, get_evm_address (cur_rest s') w = get_evm_address (cur_rest s) w).
Proof.
  intros Hv. destruct (el_transfer (cur_rest s) (mkInvokeContext contract from origin) to v Hv) as (x' & He & Hb & Hm).
  unfold on_back. rewrite He. by eexists.
Qed.

Lemma moved_back f contract a b v c e : a <> b ->
  moved (moved f contract a b v) contract b a v c e = f c e.
Proof. intros Hab. unfold moved. repeat case_bool_decide; naive_solver lia. Qed.

(** For a well-behaved ERC20 token, reserving and unreserving are inverse: a reserve of
    what the account can pay moves it from the account's address to the derived reserve
    address, where [free_balance] and [reserved_balance] see it, and unreserving the same
    amount reports nothing left over and restores every balance of every token.  The
    reserve address is assumed to differ from the account's. *)
Theorem erc20_reserve_unreserve contract who a v s :
  get_evm_address (cur_rest s) who = Some a -> reserve_of a <> a ->
  0 < v <= bal (cur_rest s) contract a -> 0 <= bal (cur_rest s) contract (reserve_of a) ->
  exists s1 s2,
    reserve blake2_256 (ERC20 contract) who v s = (s1, Ok tt) /\
    free_balance s1 (ERC20 contract) who = Ok (bal (cur_rest s) contract a - v) /\
    reserved_balance blake2_256 s1 (ERC20 contract) who = Ok (bal (cur_rest s) contract (reserve_of a) + v) /\
    unreserve blake2_256 (ERC20 contract) who v s1 = (s2, Ok 0) /\
    (forall c b, bal (cur_rest s2) c b = bal (cur_rest s) c b) /\
    cur_events s2 = cur_events s.
Proof.
  intros Ha Hne Hv Hr.
  destruct (on_back_transfer contract a a (reserve_of a) v s ltac:(lia)) as (s1 & E1 & B1 & M1).
  assert (bal (cur_rest s1) contract (reserve_of a) = bal (cur_rest s) contract (reserve_of a) + v) as Br.
  { rewrite B1. unfold moved. repeat case_bool_decide; naive_solver lia. }
  destruct (on_back_transfer contract (reserve_of a) a a v s1 ltac:(lia)) as (s2 & E2 & B2 & M2).
  exists s1, s2. unfold reserve, free_balance, reserved_balance, unreserve, bind, mget, mlift, ret.
  rewrite (proj2 (Z.eqb_neq v 0)) by lia. rewrite Ha, M1, Ha. cbn [ok_or]. rewrite E1, !erc20_balance_bal.
  rewrite Br, Z.min_r by lia. rewrite E2, Z.sub_diag. split_and!; [done| |done|done| |].
  - f_equal. rewrite B1. unfold moved. repeat case_bool_decide; naive_solver lia.
  - intros c b. rewrite B2. rewrite <- (moved_back (bal (cur_rest s)) contract a (reserve_of a) v c b) by done.
    unfold moved at 1 3. by rewrite !B1.
  - clear -E1 E2. unfold on_back in *. destruct (eb_transfer _ _ _ (cur_rest s1)). destruct (eb_transfer _ _ _ (cur_rest s)).
    by injection E1 as <- _; injection E2 as <- _.
Qed.

(** The pallet has no ERC20 mint, burn, lock or balance update: these fail with
    [ERC20InvalidOperation] and leave everything as it was (an amount of zero is accepted
    and does nothing for deposits and withdrawals).  A slash of an ERC20 balance or
    reserve takes nothing either, but [slash] reports that nothing is left to slash and
    [slash_reserved] reports at most the free balance as the rest. *)
Theorem erc20_unsupported contract who id v s :
  deposit (ERC20 contract) who v s
    = (s, if v =? 0 then Ok tt else Err (cur_err CurrenciesError.ERC20InvalidOperation)) /\
  withdraw (ERC20 contract) who v s
    = (s, if v =? 0 then Ok tt else Err (cur_err CurrenciesError.ERC20InvalidOperation)) /\
  update_balance (ERC20 contract) who v s = (s, Err (cur_err CurrenciesError.ERC20InvalidOperation)) /\
  set_lock id (ERC20 contract) who v s = (s, Err (cur_err CurrenciesError.ERC20InvalidOperation)) /\
  extend_lock id (ERC20 contract) who v s = (s, Err (cur_err CurrenciesError.ERC20InvalidOperation)) /\
  remove_lock id (ERC20 contract) who s = (s, Err (cur_err CurrenciesError.ERC20InvalidOperation)) /\
  can_slash s (ERC20 contract) who v = false /\
  slash (ERC20 contract) who v s = (s, 0) /\
  slash_reserved (ERC20 contract) who v s =
    (s, Ok (match get_evm_address (cur_rest s) who with
            | Some a => Z.min v (bal (cur_rest s) contract a)
            | None => v
            end)).
Proof.
  split_and!; try done; try (unfold deposit, withdraw; by destruct (v =? 0)).
  unfold slash_reserved. destruct (get_evm_address _ _); [|done].
  rewrite erc20_balance_bal. cbn [rbind]. destruct (Z.ltb_spec v (bal (cur_rest s) contract l)); do 2 f_equal; lia.
Qed.
End erc20.

(** A token whose [transfer] answers nothing (as several deployed tokens do): the call is
    committed, the bridge reports [InvalidReturnValue], and [unreserve] reports that
    nothing was unreserved although the tokens have moved. *)
Section silent_token.
Context {X A : Type} `{EqDecision A} `{BasicCurrency X A} `{MultiCurrencyFull X A CurrencyId}.
Context `{EVM X A} `{AddressMapping X A} (u256_from : bytes -> res DispatchError Z).
#[local] Instance evm_behind : EVMBridge X A := bridge_evm u256_from.
Variable blake2_256 : bytes -> bytes.

Lemma silent_token_unreserve contract who a v r x' info (s : Currencies X A) :
  v <> 0 -> get_evm_address (cur_rest s) who = Some a ->
  erc20_balance contract (reserve_address blake2_256 a) (cur_rest s) = Ok r ->
  trait_execute (mkInvokeContext contract (reserve_address blake2_256 a) a) (transfer_input a (Z.min r v)) 0 2100000
    (if bool_decide (a = H160_default) then 0 else 1000) Execute (cur_rest s) = (x', Ok info) ->
  is_succeed (exit_reason info) = true -> output info = [] ->
  unreserve blake2_256 (ERC20 contract) who v s = (mkCurrencies (cur_events s) x', Ok v).
Proof.
  intros Hv Ha Hr Hx Hs Ho. unfold unreserve, bind, mget, mlift. rewrite (proj2 (Z.eqb_neq v 0)), Ha, Hr by done.
  unfold on_back. cbn [eb_transfer evm_behind bridge_evm]. unfold bridge_transfer, bind, mlift, mensure, rensure. cbn [ic_origin]. rewrite Hx.
  destruct (exit_reason info) as [[]| | |]; try discriminate Hs; cbn [handle_exit_reason]; by rewrite ?Ho.
Qed.
End silent_token.

(** ** Witnesses *)
Module CurrenciesWitness.
(** Contracts keep a ledger in the rest of the storage; accounts are their addresses. *)
Abbreviation Ledger := (gmap (H160 * H160) Z).
Abbreviation X0 := (Tokens Ledger H160 CurrencyId).
#[export] Instance refs0 : SystemRefs Ledger H160 := {|
  can_dec_provider _ _ := true; inc_providers _ x := x; dec_providers _ x := x;
  inc_consumers _ x := x; dec_consumers _ x := x;
|}.
#[export] Instance mapping0 : AddressMapping X0 H160 := {|
  get_account_id _ a := a; get_evm_address _ a := Some a; get_or_create_evm_address x a := (x, a);
  get_default_evm_address a := a; is_linked _ _ _ := true;
|}.
Definition bal0 (x : X0) (c a : H160) : Z := default 0 (tok_rest x !! (c, a)).
Definition credit0 (c a : H160) (v : Z) (x : X0) : X0 := Tokens.on_rest (fun l => <[(c, a) := default 0 (l !! (c, a)) + v]> l) x.
#[export] Instance bridge0 : EVMBridge X0 H160 := {|
  eb_total_supply _ x := (x, Ok 0);
  eb_balance_of ctx a x := (x, Ok (bal0 x (ic_contract ctx) a));
  eb_transfer ctx to v x :=
    if v <=? bal0 x (ic_contract ctx) (ic_sender ctx)
    then (credit0 (ic_contract ctx) to v (credit0 (ic_contract ctx) (ic_sender ctx) (- v) x), Ok tt)
    else (x, Err (Other "transfer amount exceeds balance"));
  eb_get_origin _ := Some (H160_default);
|}.
Lemma bal_credit0 c a v x c' a' :
  bal0 (credit0 c a v x) c' a' = bal0 x c' a' + (if bool_decide (c' = c /\ a' = a) then v else 0).
Proof.
  unfold bal0, credit0, Tokens.on_rest. cbn [tok_rest]. case_bool_decide as Hc.
  - destruct Hc as [-> ->]. by rewrite lookup_insert_eq.
  - rewrite lookup_insert_ne by naive_solver. lia.
Qed.
#[export] Instance laws0 : ERC20Laws X0 H160 bal0.
Proof.
  split; [done|]. intros x ctx to v Hv. cbn. rewrite (proj2 (Z.leb_le _ _)) by lia.
  eexists; split; [done|]. split; [|done]. intros c a. rewrite !bal_credit0. unfold moved.
  repeat case_bool_decide; lia.
Qed.

Definition cfg0 : TokensConfig H160 CurrencyId := {|
  ExistentialDeposits _ := 0; MaxLocks := 10%nat; MaxReserves := 10%nat; DustRemovalWhitelist _ := false;
|}.

#[export] Instance full0 : MultiCurrencyFull X0 H160 CurrencyId := tokens_full cfg0.
#[export] Instance native0 : PalletCurrency X0 H160 := tokens_native cfg0.
Definition alice : H160 := replicate 20 1.
Definition bob : H160 := replicate 20 2.
Definition token0 : H160 := replicate 20 9.
Definition blake0 (b : bytes) : bytes := b.
Definition endowed0 : list (H160 * CurrencyId * Z) := [(alice, Token RUSD, 100); (bob, Token REEF, 7)].
Definition x00 : X0 := (Tokens.genesis_build cfg0 no_dust endowed0 (no_tokens ∅)).1.
Definition x0 : X0 := credit0 token0 alice 50 x00.
Definition s0 : Currencies X0 H160 := mkCurrencies [] x0.
Definition s1 : Currencies X0 H160 := (transfer (Token RUSD) alice bob 40 s0).1.

Lemma x00_eq : Tokens.genesis_build cfg0 no_dust endowed0 (no_tokens ∅) = (x00, Ok tt).
Proof. unfold x00. apply run_result. vm_compute. reflexivity. Qed.
Lemma x0_inv : ledger_inv x0.
Proof.
  apply (TokensLedger.untouched_inv x00); [apply on_rest_untouched|].
  apply (ti_ledger cfg0), (TokensLedger.reachable_inv cfg0 (fun a : H160 => Ok a) ∅ endowed0).
  exists x00, tt. split_and!; [|exact x00_eq|apply rtc_refl]. repeat constructor; simpl; lia.
Qed.
Lemma transfer_eq : transfer (Token RUSD) alice bob 40 s0 = (s1, Ok tt).
Proof. unfold s1. apply run_result. vm_compute. reflexivity. Qed.
Lemma bridge0_sound (ctx : InvokeContext) (to : H160) (v : Z) (x x' : X0) (r : res DispatchError unit) :
  ledger_inv x -> eb_transfer ctx to v x = (x', r) -> ledger_inv x'.
Proof.
  intros Hinv. cbn. destruct (_ <=? _); intros [= <- <-]; [|done]. by apply (TokensLedger.untouched_inv x).
Qed.
Lemma currencies_conserve_witness : ledger_inv (cur_rest s1).
Proof.
  apply (currencies_conserve cfg0 blake0) with (s := s0); [exact bridge0_sound| | |exact x0_inv].
  - intros x a x' e Hinv [= <- <-]. exact Hinv.
  - eapply cs_transfer; [|exact transfer_eq]. lia.
Defined.

Lemma erc20_reserve_unreserve_witness :
  exists s1 s2 : Currencies X0 H160,
    reserve blake0 (ERC20 token0) alice 30 s0 = (s1, Ok tt) /\
    free_balance s1 (ERC20 token0) alice = Ok 20 /\
    unreserve blake0 (ERC20 token0) alice 30 s1 = (s2, Ok 0).
Proof.
  destruct (erc20_reserve_unreserve bal0 blake0 token0 alice alice 30 s0) as (s1 & s2 & Hr & Hf & _ & Hu & _).
  - reflexivity.
  - vm_compute. discriminate.
  - vm_compute. split; [reflexivity|discriminate].
  - vm_compute. discriminate.
  - exists s1, s2. split; [exact Hr|]. split; [rewrite Hf; reflexivity|exact Hu].
Defined.
Lemma erc20_unsupported_witness : slash (ERC20 token0) alice 30 s0 = (s0, 0).
Proof. apply (erc20_unsupported bal0 token0 alice 0 30 s0). Defined.
End CurrenciesWitness.
