(* ===== verification/OrmlCurrencies.v ===== *)
(** * The orml currencies pallet

    Models [src/orml/currencies/src/lib.rs], from which the pallet of [Currencies] was
    derived: a native currency and a multi-currency system behind one interface, routed by
    the currency id; [Currency], one currency of the pallet as a basic currency; and the
    named reserves of [BasicCurrencyAdapter] (its other methods are those of
    [Currencies.basic_currency_adapter]).  The pallet keeps no storage and deposits no
    events: its operations act on the storage [X] of the two back ends.

    The back ends are the classes of [Currencies], and the pallet is itself shown to be an
    instance of them; reserve identifiers are integers. *)

From stdpp Require Import base gmap list strings.
From Stdlib Require Import ZArith Lia.
From S2P Require Import Prelude Interfaces Primitives Tokens TokensLedger Fungibles Currencies.

Local Open Scope Z_scope.

(** [NamedBasicReservableCurrency]. *)
Class NamedBasic (X A : Type) : Type := {
  nb_slash_reserved_named : Z -> A -> Z -> X -> X * Z;
  nb_reserved_balance_named : X -> Z -> A -> Z;
  nb_reserve_named : Z -> A -> Z -> M X DispatchError unit;
  nb_unreserve_named : Z -> A -> Z -> X -> X * Z;
  nb_repatriate_reserved_named : Z -> A -> A -> Z -> BalanceStatus -> M X DispatchError Z;
}.
(** [NamedMultiReservableCurrency]. *)
Class NamedMulti (X A C : Type) : Type := {
  nm_slash_reserved_named : Z -> C -> A -> Z -> X -> X * Z;
  nm_reserved_balance_named : X -> Z -> C -> A -> Z;
  nm_reserve_named : Z -> C -> A -> Z -> M X DispatchError unit;
  nm_unreserve_named : Z -> C -> A -> Z -> X -> X * Z;
  nm_repatriate_reserved_named : Z -> C -> A -> A -> Z -> BalanceStatus -> M X DispatchError Z;
}.
(** [NamedReservableCurrency] of [frame_support], with the imbalance as an amount. *)
Class PalletNamed (X A : Type) : Type := {
  pn_slash_reserved_named : Z -> A -> Z -> X -> X * (Z * Z);
  pn_reserved_balance_named : X -> Z -> A -> Z;
  pn_reserve_named : Z -> A -> Z -> M X DispatchError unit;
  pn_unreserve_named : Z -> A -> Z -> X -> X * Z;
  pn_repatriate_reserved_named : Z -> A -> A -> Z -> BalanceStatus -> M X DispatchError Z;
}.

(** ** The pallet *)
Section pallet.
Context {X A C : Type} `{EqDecision A} `{EqDecision C}.
Context (N : BasicCurrency X A) (NN : NamedBasic X A).
Context (T : MultiCurrencyFull X A C) (TN : NamedMulti X A C).
(** [T::GetNativeCurrencyId::get()]. *)
Variable native_id : C.
Abbreviation MX := (M X DispatchError).
Abbreviation is_native c := (bool_decide (c = native_id)).

Definition o_minimum_balance (c : C) : Z :=
  if is_native c then bc_minimum_balance (BasicCurrency := N) else mc_minimum_balance c.
Definition o_total_issuance (x : X) (c : C) : Z :=
  if is_native c then bc_total_issuance x else mc_total_issuance x c.
Definition o_total_balance (x : X) (c : C) (who : A) : Z :=
  if is_native c then bc_total_balance x who else mc_total_balance x c who.
Definition o_free_balance (x : X) (c : C) (who : A) : Z :=
  if is_native c then bc_free_balance x who else mc_free_balance x c who.
Definition o_ensure_can_withdraw (c : C) (who : A) (amount : Z) : MX unit :=
  if is_native c then fun x => (x, bc_ensure_can_withdraw who amount x)
  else mc_ensure_can_withdraw c who amount.
Definition o_transfer (c : C) (from to : A) (amount : Z) : MX unit :=
  if (amount =? 0) || bool_decide (from = to) then ret tt
  else if is_native c then bc_transfer from to amount else mc_transfer c from to amount.
Definition o_deposit (c : C) (who : A) (amount : Z) : MX unit :=
  if amount =? 0 then ret tt
  else if is_native c then bc_deposit who amount else mc_deposit c who amount.
Definition o_withdraw (c : C) (who : A) (amount : Z) : MX unit :=
  if amount =? 0 then ret tt
  else if is_native c then bc_withdraw who amount else mc_withdraw c who amount.
Definition o_can_slash (x : X) (c : C) (who : A) (amount : Z) : bool :=
  if is_native c then bc_can_slash x who amount else mc_can_slash x c who amount.
Definition o_slash (c : C) (who : A) (amount : Z) (x : X) : X * Z :=
  if is_native c then bc_slash who amount x else mc_slash c who amount x.
Definition o_update_balance (c : C) (who : A) (by_amount : Z) : MX unit :=
  if is_native c then bc_update_balance who by_amount else mf_update_balance c who by_amount.

Definition o_set_lock (id : Z) (c : C) (who : A) (amount : Z) : MX unit :=
  if is_native c then bc_set_lock id who amount else mf_set_lock id c who amount.
Definition o_extend_lock (id : Z) (c : C) (who : A) (amount : Z) : MX unit :=
  if is_native c then bc_extend_lock id who amount else mf_extend_lock id c who amount.
Definition o_remove_lock (id : Z) (c : C) (who : A) : MX unit :=
  if is_native c then bc_remove_lock id who else mf_remove_lock id c who.

Definition o_can_reserve (x : X) (c : C) (who : A) (value : Z) : bool :=
  if is_native c then bc_can_reserve x who value else mf_can_reserve x c who value.
Definition o_slash_reserved (c : C) (who : A) (value : Z) (x : X) : X * Z :=
  if is_native c then bc_slash_reserved who value x else mf_slash_reserved c who value x.
Definition o_reserved_balance (x : X) (c : C) (who : A) : Z :=
  if is_native c then bc_reserved_balance x who else mf_reserved_balance x c who.
Definition o_reserve (c : C) (who : A) (value : Z) : MX unit :=
  if is_native c then bc_reserve who value else mf_reserve c who value.
Definition o_unreserve (c : C) (who : A) (value : Z) (x : X) : X * Z :=
  if is_native c then bc_unreserve who value x else mf_unreserve c who value x.
Definition o_repatriate_reserved (c : C) (slashed beneficiary : A) (value : Z) (status : BalanceStatus) : MX Z :=
  if is_native c then bc_repatriate_reserved slashed beneficiary value status
  else mf_repatriate_reserved c slashed beneficiary value status.

Definition o_slash_reserved_named (id : Z) (c : C) (who : A) (value : Z) (x : X) : X * Z :=
  if is_native c then nb_slash_reserved_named id who value x else nm_slash_reserved_named id c who value x.
Definition o_reserved_balance_named (x : X) (id : Z) (c : C) (who : A) : Z :=
  if is_native c then nb_reserved_balance_named x id who else nm_reserved_balance_named x id c who.
Definition o_reserve_named (id : Z) (c : C) (who : A) (value : Z) : MX unit :=
  if is_native c then nb_reserve_named id who value else nm_reserve_named id c who value.
Definition o_unreserve_named (id : Z) (c : C) (who : A) (value : Z) (x : X) : X * Z :=
  if is_native c then nb_unreserve_named id who value x else nm_unreserve_named id c who value x.
Definition o_repatriate_reserved_named (id : Z) (c : C) (slashed beneficiary : A) (value : Z)
    (status : BalanceStatus) : MX Z :=
  if is_native c then nb_repatriate_reserved_named id slashed beneficiary value status
  else nm_repatriate_reserved_named id c slashed beneficiary value status.

Definition o_transfer_all (source dest : A) : MX unit :=
  transactional (
    do! mf_transfer_all source dest in
    let! x := mget in
    bc_transfer source dest (bc_free_balance x source)).

(** The pallet implements the traits it routes. *)
Definition orml_multi : MultiCurrencyFull X A C := {|
  mf_basic := {|
    mc_minimum_balance := o_minimum_balance;
    mc_total_issuance := o_total_issuance;
    mc_total_balance := o_total_balance;
    mc_free_balance := o_free_balance;
    mc_ensure_can_withdraw := o_ensure_can_withdraw;
    mc_transfer := o_transfer;
    mc_deposit := o_deposit;
    mc_withdraw := o_withdraw;
    mc_can_slash := o_can_slash;
    mc_slash := o_slash;
  |};
  mf_update_balance := o_update_balance;
  mf_set_lock := o_set_lock;
  mf_extend_lock := o_extend_lock;
  mf_remove_lock := o_remove_lock;
  mf_can_reserve := o_can_reserve;
  mf_slash_reserved := o_slash_reserved;
  mf_reserved_balance := o_reserved_balance;
  mf_reserve := o_reserve;
  mf_unreserve := o_unreserve;
  mf_repatriate_reserved := o_repatriate_reserved;
  mf_transfer_all := o_transfer_all;
|}.
Definition orml_named : NamedMulti X A C := {|
  nm_slash_reserved_named := o_slash_reserved_named;
  nm_reserved_balance_named := o_reserved_balance_named;
  nm_reserve_named := o_reserve_named;
  nm_unreserve_named := o_unreserve_named;
  nm_repatriate_reserved_named := o_repatriate_reserved_named;
|}.

(** *** Calls *)
Section calls.
Context {Source : Type} (lookup : Source -> res DispatchError A).

Definition o_transfer_call (origin : Origin A) (dest : Source) (c : C) (amount : Z) : MX unit :=
  let! from := mlift (ensure_signed origin) in
  let! to := mlift (lookup dest) in
  o_transfer c from to amount.
Definition o_transfer_native_currency (origin : Origin A) (dest : Source) (amount : Z) : MX unit :=
  let! from := mlift (ensure_signed origin) in
  let! to := mlift (lookup dest) in
  bc_transfer from to amount.
Definition o_update_balance_call (origin : Origin A) (who : Source) (c : C) (amount : Z) : MX unit :=
  do! mlift (ensure_root origin) in
  let! dest := mlift (lookup who) in
  o_update_balance c dest amount.
End calls.
End pallet.

(** ** [Currency<T, GetCurrencyId>]: one currency as a basic currency

    [T] below is the pallet; the definition only uses its traits. *)
Section one_currency.
Context {X A C : Type} (T : MultiCurrencyFull X A C) (TN : NamedMulti X A C) (c : C).
Definition currency_of : BasicCurrency X A := {|
  bc_minimum_balance := mc_minimum_balance c;
  bc_total_issuance x := mc_total_issuance x c;
  bc_total_balance x who := mc_total_balance x c who;
  bc_free_balance x who := mc_free_balance x c who;
  bc_ensure_can_withdraw who amount x := (mc_ensure_can_withdraw c who amount x).2;
  bc_transfer from to amount := mc_transfer c from to amount;
  bc_deposit who amount := mc_deposit c who amount;
  bc_withdraw who amount := mc_withdraw c who amount;
  bc_can_slash x who amount := mc_can_slash x c who amount;
  bc_slash who amount := mc_slash c who amount;
  bc_update_balance who by_amount := mf_update_balance c who by_amount;
  bc_set_lock id who amount := mf_set_lock id c who amount;
  bc_extend_lock id who amount := mf_extend_lock id c who amount;
  bc_remove_lock id who := mf_remove_lock id c who;
  bc_can_reserve x who value := mf_can_reserve x c who value;
  bc_slash_reserved who value := mf_slash_reserved c who value;
  bc_reserved_balance x who := mf_reserved_balance x c who;
  bc_reserve who value := mf_reserve c who value;
  bc_unreserve who value := mf_unreserve c who value;
  bc_repatriate_reserved slashed beneficiary value status :=
    mf_repatriate_reserved c slashed beneficiary value status;
|}.
Definition named_currency_of : NamedBasic X A := {|
  nb_slash_reserved_named id who value := nm_slash_reserved_named id c who value;
  nb_reserved_balance_named x id who := nm_reserved_balance_named x id c who;
  nb_reserve_named id who value := nm_reserve_named id c who value;
  nb_unreserve_named id who value := nm_unreserve_named id c who value;
  nb_repatriate_reserved_named id slashed beneficiary value status :=
    nm_repatriate_reserved_named id c slashed beneficiary value status;
|}.
End one_currency.

(** ** Named reserves of [BasicCurrencyAdapter] *)
Section adapter.
Context {X A : Type} `{PalletCurrency X A} (P : PalletNamed X A).
Definition bca_slash_reserved_named (id : Z) (who : A) (value : Z) (x : X) : X * Z :=
  let '(x, (i, gap)) := pn_slash_reserved_named id who value x in (pc_drop_negative i x, gap).
Definition named_adapter : NamedBasic X A := {|
  nb_slash_reserved_named := bca_slash_reserved_named;
  nb_reserved_balance_named := pn_reserved_balance_named;
  nb_reserve_named := pn_reserve_named;
  nb_unreserve_named := pn_unreserve_named;
  nb_repatriate_reserved_named := pn_repatriate_reserved_named;
|}.
End adapter.

(** ** Over the tokens pallet *)
Section over_tokens.
Context {R A : Type} `{Countable A} `{SystemRefs R A}.
Variable cfg : TokensConfig A CurrencyId.
Abbreviation X := (Tokens R A CurrencyId).
Abbreviation nd := (no_dust (X := R) (A := A) (C := CurrencyId)).
Abbreviation native := (Token REEF).

(** The named reserves of the tokens pallet and of its [CurrencyAdapter]. *)
Definition tokens_named : NamedMulti X A CurrencyId := {|
  nm_slash_reserved_named := Tokens.slash_reserved_named cfg nd;
  nm_reserved_balance_named := Tokens.reserved_balance_named;
  nm_reserve_named := Tokens.reserve_named cfg nd;
  nm_unreserve_named := Tokens.unreserve_named cfg nd;
  nm_repatriate_reserved_named := Tokens.repatriate_reserved_named cfg nd;
|}.
Definition adapter_slash_reserved_named (id : Z) (who : A) (value : Z) (x : X) : X * (Z * Z) :=
  let '(x, actual) := Tokens.slash_reserved_named cfg nd id native who value x in (x, (0, actual)).
Definition tokens_native_named : PalletNamed X A := {|
  pn_slash_reserved_named := adapter_slash_reserved_named;
  pn_reserved_balance_named x id who := Tokens.reserved_balance_named x id native who;
  pn_reserve_named id who value := Tokens.reserve_named cfg nd id native who value;
  pn_unreserve_named id who value := Tokens.unreserve_named cfg nd id native who value;
  pn_repatriate_reserved_named id a b value status :=
    Tokens.repatriate_reserved_named cfg nd id native a b value status;
|}.

#[local] Instance native_side : PalletCurrency X A := tokens_native cfg.
Abbreviation N := (basic_currency_adapter (X := X) (A := A)).
Abbreviation NN := (named_adapter tokens_native_named).
Abbreviation T := (tokens_full cfg).

(** Setting the issuance commutes with the writing of an account. *)
Lemma try_mutate_issuance {E B} who c (f g : AccountData -> bool -> X -> X * res E (AccountData * B)) k i s s1 a r :
  f (default no_account (accounts s !! (who, c))) (bool_decide (is_Some (accounts s !! (who, c)))) s = (s1, Ok (a, r)) ->
  g (default no_account (accounts s !! (who, c))) (bool_decide (is_Some (accounts s !! (who, c)))) s
    = (set_issuance k i s1, Ok (a, r)) ->
  exists s', try_mutate_account cfg nd who c f s = (s', Ok (r, dust_of cfg who c a)) /\
    try_mutate_account cfg nd who c g s = (set_issuance k i s', Ok (r, dust_of cfg who c a)).
Proof.
  intros Hf Hg. unfold try_mutate_account. rewrite Hf, Hg. eexists. split; [done|].
  destruct (bool_decide _), (bool_decide _), (dust_of cfg who c a); done.
Qed.
Lemma try_mutate_Err {E B} who c (f : AccountData -> bool -> X -> X * res E (AccountData * B)) s s1 e :
  f (default no_account (accounts s !! (who, c))) (bool_decide (is_Some (accounts s !! (who, c)))) s = (s1, Err e) ->
  try_mutate_account cfg nd who c f s = (s1, Err e).
Proof. intros Hf. unfold try_mutate_account. by rewrite Hf. Qed.

(** The closure of [do_deposit], and the deposit around it when there are no hooks. *)
Definition deposit_closure (c : CurrencyId) (who : A) (v : Z) (req mint : bool)
    (account : AccountData) (existed : bool) : M X DispatchError (AccountData * unit) :=
  do! (if req
       then mensure existed (tok_err TokensError.DeadAccount)
       else mensure ((ExistentialDeposits cfg c <=? v) || existed || DustRemovalWhitelist cfg who)
                    (tok_err TokensError.ExistentialDeposit)) in
  let! s := mget in
  let! i := mlift (ok_or (checked_add U128_MAX (Tokens.total_issuance s c) v) overflow) in
  do! mmodify (fun s => if mint then set_issuance c i s else s) in
  ret (mkAcc (sat_add U128_MAX (free account) v) (reserved account) (frozen account), tt).
Lemma do_deposit_closure c who v req mint (s : X) : v <> 0 ->
  do_deposit cfg nd c who v req mint s =
  match try_mutate_account cfg nd who c (deposit_closure c who v req mint) s with
  | (s', Ok _) => (emit (EvDeposited c who v) s', Ok v)
  | (s', Err e) => (s', Err e)
  | (s', Panic) => (s', Panic)
  end.
Proof.
  intros Hv. unfold do_deposit. rewrite (proj2 (Z.eqb_neq v 0) Hv). unfold bind at 1.
  cbn [PreDeposit no_hooks]. rewrite hook_ret. unfold bind at 1. fold (deposit_closure c who v req mint).
  destruct (try_mutate_account _ _ _ _ _ s) as [s' [u|e|]]; [|done..].
  unfold bind at 1. cbn [PostDeposit no_hooks]. by rewrite hook_ret.
Qed.

(** Settling the issuance of a deposit afterwards is minting it inside. *)
Lemma do_deposit_mint c who v req (s : X) : v <> 0 ->
  do_deposit cfg nd c who v req true s =
  match do_deposit cfg nd c who v req false s with
  | (s', Ok w) => (set_issuance c (Tokens.total_issuance s c + v) s', Ok w)
  | r => r
  end.
Proof.
  intros Hv. rewrite !do_deposit_closure by done.
  set (F := deposit_closure c who v req false). set (G := deposit_closure c who v req true).
  set (d := default no_account (accounts s !! (who, c))). set (b := bool_decide (is_Some (accounts s !! (who, c)))).
  assert (Hc : (exists s1 a, F d b s = (s1, Ok (a, tt)) /\ G d b s = (set_issuance c (Tokens.total_issuance s c + v) s1, Ok (a, tt)))
    \/ exists e, F d b s = (s, Err e) /\ G d b s = (s, Err e)).
  { subst F G. unfold deposit_closure, bind, mensure, mlift, mget, mmodify, ret, rensure, checked_add.
    destruct req; [destruct b|destruct (_ || _)]; eauto; destruct (_ <=? U128_MAX); cbn [ok_or]; eauto 8. }
  destruct Hc as [(s1 & a & HF & HG)|(e & HF & HG)].
  - destruct (try_mutate_issuance who c F G c _ s s1 a tt HF HG) as (s' & -> & ->). done.
  - by rewrite (try_mutate_Err who c F s s e HF), (try_mutate_Err who c G s s e HG).
Qed.

(** The same for withdrawals. *)
Definition withdraw_closure (c : CurrencyId) (who : A) (v : Z) (er : ExistenceRequirement) (burn : bool)
    (account : AccountData) (existed : bool) : M X DispatchError (AccountData * unit) :=
  let! s := mget in
  do! mlift (Tokens.ensure_can_withdraw c who v s) in
  let previous_total := total account in
  let account' := mkAcc (sat_sub (free account) v) (reserved account) (frozen account) in
  let would_kill := would_be_dead cfg who c account' &&
    ((ExistentialDeposits cfg c <=? previous_total) || negb (previous_total =? 0)) in
  do! mensure (allows_death er || negb would_kill) (tok_err TokensError.KeepAlive) in
  do! mmodify (fun s => if burn then set_issuance c (sat_sub (Tokens.total_issuance s c) v) s else s) in
  do! mmodify (emit (EvWithdrawn c who v)) in
  ret (account', tt).
Lemma do_withdraw_closure c who v er burn (s : X) : v <> 0 ->
  do_withdraw cfg nd c who v er burn s =
  (do! try_mutate_account cfg nd who c (withdraw_closure c who v er burn) in ret tt) s.
Proof. intros Hv. unfold do_withdraw. by rewrite (proj2 (Z.eqb_neq v 0) Hv). Qed.
Lemma do_withdraw_burn c who v er (s : X) : v <> 0 ->
  do_withdraw cfg nd c who v er true s =
  match do_withdraw cfg nd c who v er false s with
  | (s', Ok w) => (set_issuance c (sat_sub (Tokens.total_issuance s c) v) s', Ok w)
  | r => r
  end.
Proof.
  intros Hv. rewrite !do_withdraw_closure by done. unfold bind.
  set (F := withdraw_closure c who v er false). set (G := withdraw_closure c who v er true).
  set (d := default no_account (accounts s !! (who, c))). set (b := bool_decide (is_Some (accounts s !! (who, c)))).
  assert (Hc : (exists s1 a, F d b s = (s1, Ok (a, tt)) /\ G d b s = (set_issuance c (sat_sub (Tokens.total_issuance s c) v) s1, Ok (a, tt)))
    \/ exists e, F d b s = (s, Err e) /\ G d b s = (s, Err e)).
  { subst F G. unfold withdraw_closure, Tokens.ensure_can_withdraw, bind, mensure, mlift, mget, mmodify, ret, rensure.
    rewrite (proj2 (Z.eqb_neq v 0) Hv). destruct (checked_sub _ v); cbn [ok_or rbind]; [|eauto].
    destruct (_ <=? _); [|eauto]. destruct (allows_death er || _); eauto 8. }
  destruct Hc as [(s1 & a & HF & HG)|(e & HF & HG)].
  - destruct (try_mutate_issuance who c F G c _ s s1 a tt HF HG) as (s' & -> & ->). done.
  - by rewrite (try_mutate_Err who c F s s e HF), (try_mutate_Err who c G s s e HG).
Qed.

(** Two computations with the same successes, result and storage included. *)
Definition same_success {B} (m m' : M X DispatchError B) (x : X) : Prop :=
  forall x' r, m x = (x', Ok r) <-> m' x = (x', Ok r).
Lemma same_refl {B} (m : M X DispatchError B) x : same_success m m x.
Proof. by intros. Qed.

Lemma native_deposit who v (x : X) : 0 < v ->
  same_success (bca_deposit who v) (Tokens.deposit cfg nd native who v) x.
Proof.
  intros Hv x' u. unfold bca_deposit, Tokens.deposit, bind, ret. rewrite (proj2 (Z.eqb_neq v 0)) by lia.
  cbn [pc_deposit_creating pc_drop_positive native_side tokens_native]. unfold adapter_deposit_creating.
  rewrite do_deposit_mint by lia. destruct (do_deposit cfg nd native who v false false x) as [x1 [w|e|]] eqn:E; cbn [is_ok].
  - pose proof (do_deposit_Ok cfg native who v _ _ x x1 w E ltac:(lia)) as (-> & Hm & _ & Hi & _). cbn beta iota in Hi.
    assert (Tokens.total_issuance x1 native = Tokens.total_issuance x native) as Ht
      by (unfold Tokens.total_issuance; by rewrite Hi).
    unfold drop_positive. rewrite Ht, sat_add_exact, Z.eqb_refl by done. by destruct u.
  - rewrite (proj2 (Z.eqb_neq 0 v)) by lia. done.
  - rewrite (proj2 (Z.eqb_neq 0 v)) by lia. done.
Qed.
Lemma native_withdraw who v (x : X) : 0 < v ->
  same_success (bca_withdraw who v) (Tokens.withdraw cfg nd native who v) x.
Proof.
  intros Hv x' u. unfold bca_withdraw, Tokens.withdraw.
  cbn [pc_withdraw pc_drop_negative native_side tokens_native]. unfold adapter_withdraw, bind, ret, mmodify.
  rewrite do_withdraw_burn by lia. destruct (do_withdraw cfg nd native who v AllowDeath false x) as [x1 [w|e|]] eqn:E; [|done..].
  pose proof (do_withdraw_Ok cfg native who v _ _ x x1 w E ltac:(lia)) as (_ & _ & _ & Hi & _). cbn beta iota in Hi.
  unfold drop_negative. unfold Tokens.total_issuance at 1. rewrite Hi. destruct w, u. done.
Qed.

(** Three layers make no difference: the pallet over the tokens pallet, with the native
    currency behind [BasicCurrencyAdapter] and [CurrencyAdapter], behaves for every
    currency as the tokens pallet alone: on a sound ledger, transfers, deposits,
    withdrawals, reserves and repatriations have the same successes with the same
    storage and result, unreserving and the named reserves are the same functions, a
    slash reports the same rest, and every balance reads the same. *)
Theorem orml_over_tokens c a b v st id (x : X) :
  ledger_inv x -> 0 <= v ->
  same_success (o_transfer N T native c a b v) (do_transfer cfg nd c a b v AllowDeath) x /\
  same_success (o_deposit N T native c a v) (Tokens.deposit cfg nd c a v) x /\
  same_success (o_withdraw N T native c a v) (Tokens.withdraw cfg nd c a v) x /\
  same_success (o_reserve N T native c a v) (Tokens.reserve cfg nd c a v) x /\
  same_success (o_repatriate_reserved N T native c a b v st) (mf_repatriate_reserved (MultiCurrencyFull := T) c a b v st) x /\
  o_unreserve N T native c a v x = Tokens.unreserve cfg nd c a v x /\
  (o_slash N T native c a v x).2 = (Tokens.slash cfg nd c a v x).2 /\
  o_reserve_named NN tokens_named native id c a v x = Tokens.reserve_named cfg nd id c a v x /\
  o_unreserve_named NN tokens_named native id c a v x = Tokens.unreserve_named cfg nd id c a v x /\
  o_repatriate_reserved_named NN tokens_named native id c a b v st x =
    Tokens.repatriate_reserved_named cfg nd id c a b v st x /\
  o_free_balance N T native x c a = Tokens.free_balance x c a /\
  o_reserved_balance N T native x c a = Tokens.reserved_balance x c a /\
  o_total_issuance N T native x c = Tokens.total_issuance x c.
Proof.
  intros Hi Hv.
  unfold o_transfer, o_deposit, o_withdraw, o_reserve, o_repatriate_reserved, o_unreserve, o_slash, o_reserve_named,
    o_unreserve_named, o_repatriate_reserved_named, o_free_balance, o_reserved_balance, o_total_issuance.
  destruct (decide (c = native)) as [->|Hc];
    [rewrite (bool_decide_eq_true_2 (native = native)) by done|rewrite (bool_decide_eq_false_2 (c = native)) by done].
  - split_and!; try done.
    + intros x' u. destruct (_ || _) eqn:E; [|done]. cbn. unfold do_transfer. by rewrite E.
    + destruct (Z.eqb_spec v 0) as [->|]; [|by apply native_deposit; lia]. intros x' []. cbn. unfold Tokens.deposit, do_deposit. done.
    + destruct (Z.eqb_spec v 0) as [->|]; [|by apply native_withdraw; lia]. by intros x' u.
    + cbn [bc_slash basic_currency_adapter]. unfold bca_slash. cbn [pc_slash pc_drop_negative native_side tokens_native mc_slash tokens_full mf_basic tokens_multi_currency].
      destruct (adapter_slash cfg nd native a v x) as [x1 [i g]] eqn:E1.
      destruct (Tokens.slash cfg nd native a v x) as [x2 r] eqn:E2.
      apply adapter_slash_inv in E1 as (_ & -> & ->); [|done..]. apply slash_spec in E2 as [_ ->]; [|done..]. done.
  - split_and!; try done.
    + intros x' u. destruct (_ || _) eqn:E; [|done]. cbn. unfold do_transfer. by rewrite E.
    + destruct (Z.eqb_spec v 0) as [->|]; [|done]. intros x' []. cbn. unfold Tokens.deposit, do_deposit. done.
    + destruct (Z.eqb_spec v 0) as [->|]; [|done]. by intros x' u.
Qed.

(** *** [transfer_all] *)

(** The loop over entries of different currencies that are still as they were. *)
Lemma transfer_each_moves a b l (x x' : X) u :
  a <> b -> ledger_inv x -> NoDup l.*1 -> Forall (fun e => free e.2 = Tokens.free_balance x e.1 a) l ->
  transfer_each cfg nd a b l x = (x', Ok u) ->
  ledger_inv x' /\ (forall c, Tokens.total_issuance x' c = Tokens.total_issuance x c) /\
  forall c who, Tokens.free_balance x' c who = Tokens.free_balance x c who
    - (if bool_decide (c ∈ l.*1) then at_key a (Tokens.free_balance x c a) who else 0)
    + (if bool_decide (c ∈ l.*1) then at_key b (Tokens.free_balance x c a) who else 0).
Proof.
  intros Hab. revert x. induction l as [|[c0 d] l IH]; intros x Hi Hnd Hl Hr; cbn [transfer_each fmap list_fmap fst] in *.
  { run_inv. split_and!; [done..|]. intros. rewrite bool_decide_eq_false_2 by set_solver. lia. }
  apply NoDup_cons in Hnd as [Hc0 Hnd]. apply Forall_cons in Hl as [Hd Hl]. cbn [fst snd] in Hd.
  apply bind_Ok in Hr as ([] & x1 & Ht & Hr). rewrite Hd in Ht.
  assert (0 <= Tokens.free_balance x c0 a) as Hv by (unfold Tokens.free_balance; rewrite account_of_lk; apply lk_ok, Hi).
  destruct (do_transfer_balances _ _ _ _ _ _ _ _ _ Hi Hv Ht) as (Hi1 & Hs1 & Hb1).
  assert (forall c, c <> c0 -> forall who, Tokens.free_balance x1 c who = Tokens.free_balance x c who) as Hne
    by (intros c Hc who; rewrite Hb1, !at_key_ne by congruence; lia).
  destruct (IH x1 Hi1 Hnd) as (Hi' & Hs' & Hb'); [|exact Hr|].
  { apply Forall_forall. intros e He. rewrite Hne; [by apply (proj1 (Forall_forall _ l) Hl)|].
    intros Ec. apply Hc0. rewrite <- Ec. by apply list_elem_of_fmap_2. }
  split_and!; [done|intros; by rewrite Hs', Hs1|]. intros c who. rewrite Hb'.
  destruct (decide (c = c0)) as [->|Hc].
  - rewrite (bool_decide_eq_false_2 (c0 ∈ l.*1)) by done. rewrite bool_decide_eq_true_2 by set_solver.
    rewrite Hb1, !at_key_pair. lia.
  - rewrite !Hne by done. rewrite (bool_decide_ext (c ∈ c0 :: l.*1) (c ∈ l.*1)) by set_solver. done.
Qed.

Lemma entries_of_spec (x : X) a :
  NoDup (entries_of x a).*1 /\ Forall (fun e => free e.2 = Tokens.free_balance x e.1 a) (entries_of x a) /\
  forall c, c ∉ (entries_of x a).*1 -> Tokens.free_balance x c a = 0.
Proof.
  unfold entries_of. split_and!.
  - rewrite <- list_fmap_compose. apply NoDup_fmap_2_strong; [|apply NoDup_filter, NoDup_map_to_list].
    intros [[a1 c1] d1] [[a2 c2] d2] [H1 E1]%list_elem_of_filter [H2 E2]%list_elem_of_filter. cbn in *. intros ->. subst.
    apply elem_of_map_to_list in E1, E2. congruence.
  - apply Forall_forall. intros e ([[a1 c1] d] & -> & [Ha He]%list_elem_of_filter)%list_elem_of_fmap. cbn in *. subst a1.
    apply elem_of_map_to_list in He. unfold Tokens.free_balance, account_of. by rewrite He.
  - intros c Hc. unfold Tokens.free_balance, account_of. destruct (accounts x !! (a, c)) as [d|] eqn:E; [|done].
    exfalso. apply Hc. rewrite <- list_fmap_compose. apply list_elem_of_fmap. exists ((a, c), d). split; [done|].
    apply list_elem_of_filter. split; [done|]. by apply elem_of_map_to_list.
Qed.

(** [transfer_all] moves everything or nothing: when it fails the storage is as before,
    and when it succeeds between two accounts of a sound ledger the source is left with no
    free balance in any currency, the native one included, the destination has got exactly
    what the source had, in each, and no other balance and no issuance has changed. *)
Theorem transfer_all_moves a b (x x' : X) r :
  ledger_inv x -> a <> b -> o_transfer_all N T a b x = (x', r) ->
  if is_ok r
  then (forall c, Tokens.free_balance x' c a = 0) /\
       (forall c, Tokens.free_balance x' c b = Tokens.free_balance x c b + Tokens.free_balance x c a) /\
       (forall c w, w <> a -> w <> b -> Tokens.free_balance x' c w = Tokens.free_balance x c w) /\
       (forall c, Tokens.total_issuance x' c = Tokens.total_issuance x c)
  else x' = x.
Proof.
  intros Hi Hab Hr. unfold o_transfer_all, transactional in Hr.
  destruct (bind _ _ x) as [x1 [u|e|]] eqn:E; injection Hr as <- <-; cbn [is_ok]; [|done..].
  apply bind_Ok in E as ([] & x2 & Hm & E). cbn [mf_transfer_all tokens_full] in Hm.
  unfold pallet_transfer_all, transactional in Hm. destruct (bind _ _ x) as [x3 [w|e|]] eqn:E3; injection Hm as <-; try done.
  apply bind_Ok in E3 as (y & x4 & Hg & E3). injection Hg as <- <-.
  destruct (entries_of_spec x a) as (Hnd & Hf & Hz).
  destruct (transfer_each_moves a b _ x x3 _ Hab Hi Hnd Hf E3) as (Hi3 & Hs & Hb).
  assert (forall c, Tokens.free_balance x3 c a = 0) as Hz0.
  { intros c. rewrite Hb. case_bool_decide as Hc; [rewrite at_key_eq, at_key_ne by congruence; lia|].
    rewrite (Hz c Hc). lia. }
  apply bind_Ok in E as (y & x4 & Hg & E). injection Hg as <- <-. cbn [bc_transfer bc_free_balance basic_currency_adapter] in E.
  cbn [pc_transfer pc_free_balance native_side tokens_native] in E. rewrite Hz0 in E. unfold do_transfer in E.
  cbn [Z.eqb orb] in E. run_inv. split_and!; [done|..|done].
  - intros c. rewrite Hb. case_bool_decide as Hc; [rewrite at_key_eq, at_key_ne by congruence; lia|].
    rewrite (Hz c Hc). lia.
  - intros c w' Ha Hb'. rewrite Hb. case_bool_decide; rewrite ?at_key_ne by congruence; lia.
Qed.
End over_tokens.

(** ** Witnesses *)
Module OrmlCurrenciesWitness.
Import CurrenciesWitness.
Abbreviation N0 := (@basic_currency_adapter X0 H160 (native_side cfg0)).
Abbreviation T0 := (tokens_full (R := Ledger) (A := H160) cfg0).
Definition all0 : X0 := (o_transfer_all N0 T0 alice bob x0).1.
Lemma all0_eq : o_transfer_all N0 T0 alice bob x0 = (all0, Ok tt).
Proof. unfold all0. apply run_result. vm_compute. reflexivity. Qed.
Lemma transfer_all_moves_witness :
  Tokens.free_balance all0 (Token RUSD) alice = 0 /\
  Tokens.free_balance all0 (Token RUSD) bob = Tokens.free_balance x0 (Token RUSD) bob + 100.
Proof.
  destruct (transfer_all_moves cfg0 alice bob x0 all0 (Ok tt) x0_inv ltac:(discriminate) all0_eq) as (Ha & Hb & _).
  split; [apply Ha|exact (Hb (Token RUSD))].
Defined.
Definition sent0 : X0 := (o_transfer N0 T0 (Token REEF) (Token REEF) bob alice 3 x0).1.
Lemma sent0_eq : o_transfer N0 T0 (Token REEF) (Token REEF) bob alice 3 x0 = (sent0, Ok tt).
Proof. unfold sent0. apply run_result. vm_compute. reflexivity. Qed.
Lemma orml_over_tokens_witness :
  do_transfer cfg0 no_dust (Token REEF) bob alice 3 AllowDeath x0 = (sent0, Ok tt) /\
  o_free_balance N0 T0 (Token REEF) x0 (Token REEF) bob = Tokens.free_balance x0 (Token REEF) bob.
Proof.
  destruct (orml_over_tokens cfg0 (Token REEF) bob alice 3 Free 0 x0 x0_inv ltac:(lia))
    as (Ht & _ & _ & _ & _ & _ & _ & _ & _ & _ & Hf & _).
  split; [exact (proj1 (Ht sent0 tt) sent0_eq)|exact Hf].
Defined.
(** A lock that the tokens pallet refuses is reported as set: [CurrencyAdapter] drops the
    error. *)
Definition full0_locks : TokensConfig H160 CurrencyId := {|
  ExistentialDeposits _ := 0; MaxLocks := 0%nat; MaxReserves := 10%nat; DustRemovalWhitelist _ := false;
|}.
Theorem native_lock_lost :
  let N1 := @basic_currency_adapter X0 H160 (native_side full0_locks) in
  let T1 := tokens_full (R := Ledger) full0_locks in
  (o_set_lock N1 T1 (Token REEF) 1 (Token REEF) bob 5 x0).2 = Ok tt /\
  Tokens.locks_of (o_set_lock N1 T1 (Token REEF) 1 (Token REEF) bob 5 x0).1 bob (Token REEF) = [] /\
  (o_set_lock N1 T1 (Token REEF) 1 (Token RUSD) bob 5 x0).2 = Err (tok_err TokensError.MaxLocksExceeded).
Proof. vm_compute. done. Qed.
End OrmlCurrenciesWitness.
