(* ===== verification/CurrencyViews.v ===== *)
(** * One currency of the currencies pallet

    Models the two adapters at the end of [src/modules/currencies/src/lib.rs]: [Currency],
    which is the pallet with the currency fixed, and the [fungible] traits of
    [BasicCurrencyAdapter], which forward to the adapted currency.  The theorems say that
    the view of the native currency has the effect of the native currency itself, that a
    view of an ERC20 token refuses what such a token cannot do, and that the forwarding
    keeps the laws of the traits. *)

From stdpp Require Import base gmap list strings.
From Stdlib Require Import ZArith Lia.
From S2P Require Import Prelude Interfaces Primitives Tokens StorageMeter EvmPallet EvmRunner EvmBridge Fungibles Currencies.

Local Open Scope Z_scope.

(** [BasicCurrencyExtended], [BasicLockableCurrency] and [BasicReservableCurrency] over
    reads that can panic. *)
Record CurrencyView (S A : Type) : Type := mkView {
  cv_minimum_balance : Z;
  cv_total_issuance : S -> res DispatchError Z;
  cv_total_balance : S -> A -> res DispatchError Z;
  cv_free_balance : S -> A -> res DispatchError Z;
  cv_ensure_can_withdraw : A -> Z -> M S DispatchError unit;
  cv_transfer : A -> A -> Z -> M S DispatchError unit;
  cv_deposit : A -> Z -> M S DispatchError unit;
  cv_withdraw : A -> Z -> M S DispatchError unit;
  cv_can_slash : S -> A -> Z -> bool;
  cv_slash : A -> Z -> S -> S * Z;
  cv_update_balance : A -> Z -> M S DispatchError unit;
  cv_set_lock : Z -> A -> Z -> M S DispatchError unit;
  cv_extend_lock : Z -> A -> Z -> M S DispatchError unit;
  cv_remove_lock : Z -> A -> M S DispatchError unit;
  cv_can_reserve : S -> A -> Z -> res DispatchError bool;
  cv_slash_reserved : A -> Z -> M S DispatchError Z;
  cv_reserved_balance : S -> A -> res DispatchError Z;
  cv_reserve : A -> Z -> M S DispatchError unit;
  cv_unreserve : A -> Z -> M S DispatchError Z;
  cv_repatriate_reserved : A -> A -> Z -> BalanceStatus -> M S DispatchError Z;
}.
Arguments cv_minimum_balance {S A}. Arguments cv_total_issuance {S A}. Arguments cv_total_balance {S A}.
Arguments cv_free_balance {S A}. Arguments cv_ensure_can_withdraw {S A}. Arguments cv_transfer {S A}.
Arguments cv_deposit {S A}. Arguments cv_withdraw {S A}. Arguments cv_can_slash {S A}. Arguments cv_slash {S A}.
Arguments cv_update_balance {S A}. Arguments cv_set_lock {S A}. Arguments cv_extend_lock {S A}.
Arguments cv_remove_lock {S A}. Arguments cv_can_reserve {S A}. Arguments cv_slash_reserved {S A}.
Arguments cv_reserved_balance {S A}. Arguments cv_reserve {S A}. Arguments cv_unreserve {S A}.
Arguments cv_repatriate_reserved {S A}.

Section views.
Context {X A : Type} `{EqDecision A} `{BasicCurrency X A} `{MultiCurrencyFull X A CurrencyId}.
Context `{EVMBridge X A} `{AddressMapping X A}.
Variable blake2_256 : bytes -> bytes.
Abbreviation St := (Currencies X A).

(** [Currency<T, GetCurrencyId>]. *)
Definition currency_view (c : CurrencyId) : CurrencyView St A := {|
  cv_minimum_balance := minimum_balance c;
  cv_total_issuance s := total_issuance s c;
  cv_total_balance s who := total_balance s c who;
  cv_free_balance s who := free_balance s c who;
  cv_ensure_can_withdraw who amount := ensure_can_withdraw c who amount;
  cv_transfer from to amount := transfer c from to amount;
  cv_deposit who amount := deposit c who amount;
  cv_withdraw who amount := withdraw c who amount;
  cv_can_slash s who amount := can_slash s c who amount;
  cv_slash who amount := slash c who amount;
  cv_update_balance who by_amount := update_balance c who by_amount;
  cv_set_lock lock_id who amount := set_lock lock_id c who amount;
  cv_extend_lock lock_id who amount := extend_lock lock_id c who amount;
  cv_remove_lock lock_id who := remove_lock lock_id c who;
  cv_can_reserve s who value := can_reserve s c who value;
  cv_slash_reserved who value := slash_reserved c who value;
  cv_reserved_balance s who := reserved_balance blake2_256 s c who;
  cv_reserve who value := reserve blake2_256 c who value;
  cv_unreserve who value := unreserve blake2_256 c who value;
  cv_repatriate_reserved slashed beneficiary value status :=
    repatriate_reserved blake2_256 c slashed beneficiary value status;
|}.

(** ** The view of the native currency *)
(** An operation of the pallet that has the result and the effect of one of its back end;
    only events of the pallet may be added. *)
Definition same_effect {T} (m : M St DispatchError T) (n : M X DispatchError T) : Prop :=
  forall s, (m s).2 = (n (cur_rest s)).2 /\ cur_rest (m s).1 = (n (cur_rest s)).1.
Lemma on_back_same {T} (n : M X DispatchError T) : same_effect (on_back n) n.
Proof. intros s. unfold on_back. by destruct (n (cur_rest s)). Qed.
Lemma with_event_same (n : M X DispatchError unit) e : same_effect (do! on_back n in mmodify (deposit_event e)) n.
Proof. intros s. unfold bind, on_back, mmodify. by destruct (n (cur_rest s)) as [x [[]|d|]]. Qed.

(** The view of the native currency is the native currency: every operation that changes
    something has its result and its effect, but for transfers to oneself and amounts of
    zero, which the pallet lets through without asking. *)
Theorem native_view_same from to who amount id value status :
  let v := currency_view (Token REEF) in
  (amount <> 0 -> from <> to -> same_effect (cv_transfer v from to amount) (bc_transfer from to amount)) /\
  (amount <> 0 -> same_effect (cv_deposit v who amount) (bc_deposit who amount) /\
                  same_effect (cv_withdraw v who amount) (bc_withdraw who amount)) /\
  (forall s, cv_transfer v from from amount s = (s, Ok tt) /\ cv_transfer v from to 0 s = (s, Ok tt) /\
             cv_deposit v who 0 s = (s, Ok tt) /\ cv_withdraw v who 0 s = (s, Ok tt)) /\
  same_effect (cv_update_balance v who value) (bc_update_balance who value) /\
  same_effect (cv_set_lock v id who value) (bc_set_lock id who value) /\
  same_effect (cv_extend_lock v id who value) (bc_extend_lock id who value) /\
  same_effect (cv_remove_lock v id who) (bc_remove_lock id who) /\
  same_effect (cv_reserve v who value) (bc_reserve who value) /\
  same_effect (cv_repatriate_reserved v from to value status) (bc_repatriate_reserved from to value status).
Proof.
  cbn. unfold transfer, deposit, withdraw, update_balance. split_and!; try apply with_event_same; try apply on_back_same.
  - intros Ha Hne. rewrite (proj2 (Z.eqb_neq _ _) Ha), bool_decide_eq_false_2 by done. apply with_event_same.
  - intros Ha. rewrite (proj2 (Z.eqb_neq _ _) Ha). split; apply with_event_same.
  - intros s. rewrite bool_decide_eq_true_2, orb_true_r by done. done.
Qed.

(** The view of an ERC20 token: what such a token cannot do fails at once, without a trace. *)
Theorem erc20_view_refuses contract who amount id s :
  let v := currency_view (ERC20 contract) in
  let refused (r : St * res DispatchError unit) := r = (s, Err (cur_err CurrenciesError.ERC20InvalidOperation)) in
  (amount <> 0 -> refused (cv_deposit v who amount s) /\ refused (cv_withdraw v who amount s)) /\
  refused (cv_update_balance v who amount s) /\ refused (cv_set_lock v id who amount s) /\
  refused (cv_extend_lock v id who amount s) /\ refused (cv_remove_lock v id who s) /\
  cv_can_slash v s who amount = false /\ cv_slash v who amount s = (s, 0).
Proof.
  cbn. unfold deposit, withdraw. split_and!; try done. intros Ha. by rewrite (proj2 (Z.eqb_neq _ _) Ha).
Qed.
End views.

(** ** The [fungible] traits of [BasicCurrencyAdapter] *)
Section fungible_adapter.
Context {X A : Type} (F : Fungible X A).
Definition native_fungible : Fungible X A := {|
  f_total_issuance := f_total_issuance (Fungible := F);
  f_minimum_balance := f_minimum_balance (Fungible := F);
  f_balance x who := f_balance (Fungible := F) x who;
  f_total_balance x who := f_total_balance (Fungible := F) x who;
  f_reducible_balance x who preservation force := f_reducible_balance (Fungible := F) x who preservation force;
  f_can_deposit x who amount provenance := f_can_deposit (Fungible := F) x who amount provenance;
  f_can_withdraw x who amount := f_can_withdraw (Fungible := F) x who amount;
  f_mint_into who amount := f_mint_into (Fungible := F) who amount;
  f_burn_from who amount precision fortitude := f_burn_from (Fungible := F) who amount precision fortitude;
  f_transfer source dest amount preservation := f_transfer (Fungible := F) source dest amount preservation;
  f_write_balance who amount := f_write_balance (Fungible := F) who amount;
  f_set_total_issuance amount := f_set_total_issuance (Fungible := F) amount;
|}.
End fungible_adapter.

(** [fungible::InspectHold], [UnbalancedHold] and [MutateHold]; [R] are the reasons. *)
Class FungibleHold (X A R : Type) : Type := {
  fh_balance_on_hold : X -> R -> A -> Z;
  fh_total_balance_on_hold : X -> A -> Z;
  fh_reducible_total_balance_on_hold : X -> A -> Fortitude -> Z;
  fh_hold_available : X -> R -> A -> bool;
  fh_can_hold : X -> R -> A -> Z -> bool;
  fh_set_balance_on_hold : R -> A -> Z -> M X DispatchError unit;
  fh_hold : R -> A -> Z -> M X DispatchError unit;
  fh_release : R -> A -> Z -> Precision -> M X DispatchError Z;
  fh_transfer_on_hold : R -> A -> A -> Z -> Precision -> Restriction -> Fortitude -> M X DispatchError Z;
}.
Definition native_holds {X A R : Type} (H : FungibleHold X A R) : FungibleHold X A R := {|
  fh_balance_on_hold x reason who := fh_balance_on_hold x reason who;
  fh_total_balance_on_hold x who := fh_total_balance_on_hold x who;
  fh_reducible_total_balance_on_hold x who force := fh_reducible_total_balance_on_hold x who force;
  fh_hold_available x reason who := fh_hold_available x reason who;
  fh_can_hold x reason who amount := fh_can_hold x reason who amount;
  fh_set_balance_on_hold reason who amount := fh_set_balance_on_hold reason who amount;
  fh_hold reason who amount := fh_hold reason who amount;
  fh_release reason who amount precision := fh_release reason who amount precision;
  fh_transfer_on_hold reason source dest amount precision restriction fortitude :=
    fh_transfer_on_hold reason source dest amount precision restriction fortitude;
|}.

(** Nothing is lost by the adapter: seen through it, a currency has the traits it has, so it
    keeps every law of them. *)
Lemma native_forwards {X A R : Type} (F : Fungible X A) (H : FungibleHold X A R) :
  native_fungible F = F /\ native_holds H = H.
Proof. by destruct F, H. Qed.
#[export] Instance native_fungible_laws {X A : Type} `{EqDecision A} (F : Fungible X A) (Inv : X -> Prop) :
  FungibleLaws Inv F -> FungibleLaws Inv (native_fungible F).
Proof. by destruct F. Qed.
