(* ===== verification/NamedReserves.v ===== *)
(** * Named reserves: the provided methods

    Models the methods that the traits of [src/orml/traits/src/currency.rs] provide on top
    of the named reserves of a currency, [NamedMultiReservableCurrency] and
    [NamedBasicReservableCurrency], and [TransferAll] of a tuple of pallets.

    Over the tokens pallet: as long as reserves are taken out by name only, what is reserved
    under the names of an account is covered by its reserved balance, and the provided
    methods then do what their documentation says. *)

From stdpp Require Import base gmap list strings sorting.
From Stdlib Require Import ZArith Lia.
From S2P Require Import Prelude Interfaces Primitives Currencies OrmlCurrencies Tokens TokensLedger.

Local Open Scope Z_scope.

(** ** [NamedMultiReservableCurrency] *)
Section multi.
Context {X A C : Type} {N : NamedMulti X A C}.
Abbreviation MX := (M X DispatchError).
Definition nm_ensure_reserved_named (id : Z) (c : C) (who : A) (value : Z) : MX unit := fun x =>
  let current := nm_reserved_balance_named x id c who in
  match Z.compare current value with
  | Lt => nm_reserve_named id c who (sat_sub value current) x
  | Eq => (x, Ok tt)
  | Gt => let '(x, _) := nm_unreserve_named id c who (sat_sub current value) x in (x, Ok tt)
  end.
Definition nm_unreserve_all_named (id : Z) (c : C) (who : A) (x : X) : X * Z :=
  let value := nm_reserved_balance_named x id c who in
  let '(x, _) := nm_unreserve_named id c who value x in (x, value).
Definition nm_slash_all_reserved_named (id : Z) (c : C) (who : A) (x : X) : X * Z :=
  let value := nm_reserved_balance_named x id c who in nm_slash_reserved_named id c who value x.
Definition nm_repatriate_all_reserved_named (id : Z) (c : C) (slashed beneficiary : A) (status : BalanceStatus) : MX unit :=
  fun x =>
  let value := nm_reserved_balance_named x id c slashed in
  (let! _ := nm_repatriate_reserved_named id c slashed beneficiary value status in ret tt) x.
End multi.

(** ** [NamedBasicReservableCurrency] *)
Section basic.
Context {X A : Type} {N : NamedBasic X A}.
Abbreviation MX := (M X DispatchError).
Definition nb_ensure_reserved_named (id : Z) (who : A) (value : Z) : MX unit := fun x =>
  let current := nb_reserved_balance_named x id who in
  match Z.compare current value with
  | Lt => nb_reserve_named id who (sat_sub value current) x
  | Eq => (x, Ok tt)
  | Gt => let '(x, _) := nb_unreserve_named id who (sat_sub current value) x in (x, Ok tt)
  end.
Definition nb_unreserve_all_named (id : Z) (who : A) (x : X) : X * Z :=
  let value := nb_reserved_balance_named x id who in
  let '(x, _) := nb_unreserve_named id who value x in (x, value).
Definition nb_slash_all_reserved_named (id : Z) (who : A) (x : X) : X * Z :=
  let value := nb_reserved_balance_named x id who in nb_slash_reserved_named id who value x.
Definition nb_repatriate_all_reserved_named (id : Z) (slashed beneficiary : A) (status : BalanceStatus) : MX unit := fun x =>
  let value := nb_reserved_balance_named x id slashed in
  (let! _ := nb_repatriate_reserved_named id slashed beneficiary value status in ret tt) x.
End basic.

(** ** [TransferAll] of a tuple: each in turn, all or none *)
Section tuple.
Context {X A : Type}.
Abbreviation MX := (M X DispatchError).
Fixpoint transfer_all_in_turn (parts : list (A -> A -> MX unit)) (source dest : A) : MX unit :=
  match parts with
  | [] => ret tt
  | p :: parts' => do! p source dest in transfer_all_in_turn parts' source dest
  end.
Definition tuple_transfer_all (parts : list (A -> A -> MX unit)) (source dest : A) : MX unit :=
  transactional (transfer_all_in_turn parts source dest).
End tuple.

(** ** Lists of named reserves *)
Fixpoint named_sum (rs : list ReserveData) : Z :=
  match rs with [] => 0 | r :: rs' => reserve_amount r + named_sum rs' end.
Definition amount_of (rs : list ReserveData) (id : Z) : Z :=
  match find_reserve rs id with inl i => amount_at rs i | inr _ => 0 end.

Section lists.
Implicit Types rs : list ReserveData.
Abbreviation sorted_ids rs := (StronglySorted Z.lt (reserve_id <$> rs)).

Lemma named_sum_app l k : named_sum (l ++ k) = named_sum l + named_sum k.
Proof. induction l as [|r l IH]; cbn; [done|]. rewrite IH. lia. Qed.
Lemma named_sum_set i v rs : (i < length rs)%nat -> named_sum (set_amount_at i v rs) = named_sum rs - amount_at rs i + v.
Proof.
  revert i. induction rs as [|r rs IH]; intros [|i] Hi; cbn [length] in Hi; try lia; [cbn; lia|].
  change (set_amount_at (S i) v (r :: rs)) with (r :: set_amount_at i v rs).
  change (amount_at (r :: rs) (S i)) with (amount_at rs i). cbn [named_sum]. rewrite (IH i) by lia. lia.
Qed.
Lemma named_sum_insert i r rs : named_sum (insert_reserve i r rs) = named_sum rs + reserve_amount r.
Proof.
  unfold insert_reserve. rewrite named_sum_app. cbn. rewrite <- (take_drop i rs) at 3. rewrite named_sum_app. lia.
Qed.
Lemma named_sum_remove i rs : named_sum (remove_reserve i rs) = named_sum rs - amount_at rs i.
Proof.
  revert i. unfold remove_reserve. induction rs as [|r rs IH]; intros i; [by destruct i|].
  destruct i as [|i]; [cbn; rewrite drop_0; unfold amount_at; cbn; lia|].
  change (amount_at (r :: rs) (S i)) with (amount_at rs i). cbn [take drop app named_sum]. rewrite IH. lia.
Qed.
Lemma named_sum_amount i rs : Forall (fun r => 0 <= reserve_amount r) rs -> 0 <= amount_at rs i <= named_sum rs.
Proof.
  intros Hrs. revert i. induction Hrs as [|r rs Hr Hrs IH]; intros i; [by destruct i|].
  pose proof (IH 0%nat) as H0. destruct i as [|i]; [unfold amount_at; cbn in *; lia|].
  specialize (IH i). change (amount_at (r :: rs) (S i)) with (amount_at rs i). cbn in *. lia.
Qed.

(** Reading a name by search is reading the entry with that name. *)
Lemma find_inl rs id i : sorted_ids rs -> find_reserve rs id = inl i -> exists r, rs !! i = Some r /\ reserve_id r = id.
Proof.
  intros Hs Hf. pose proof (search_spec (reserve_id <$> rs) id Hs) as H. unfold find_reserve in Hf. rewrite Hf in H.
  rewrite list_lookup_fmap in H. destruct (rs !! i) as [r|]; [|done]. exists r. by injection H.
Qed.
Lemma find_absent rs id i r j : sorted_ids rs -> find_reserve rs id = inr i -> rs !! j = Some r -> reserve_id r <> id.
Proof.
  intros Hs Hf Hj He. pose proof (search_spec (reserve_id <$> rs) id Hs) as H. unfold find_reserve in Hf. rewrite Hf in H.
  destruct H as (_ & Hlo & Hhi). assert ((reserve_id <$> rs) !! j = Some id) as Hx by (rewrite list_lookup_fmap, Hj; cbn; by rewrite He).
  destruct (decide (j < i)%nat); [specialize (Hlo j id)|specialize (Hhi j id)]; naive_solver lia.
Qed.
Lemma amount_of_mem rs r : sorted_ids rs -> r ∈ rs -> amount_of rs (reserve_id r) = reserve_amount r.
Proof.
  intros Hs [j Hj]%list_elem_of_lookup. unfold amount_of. destruct (find_reserve rs (reserve_id r)) as [i|i] eqn:Ef.
  - destruct (find_inl _ _ _ Hs Ef) as (r' & Hi & He). unfold amount_at. rewrite Hi.
    assert (i = j) as ->; [|congruence]. pose proof (f_equal (fmap reserve_id) Hi) as Ei. pose proof (f_equal (fmap reserve_id) Hj) as Ej.
    rewrite <- list_lookup_fmap in Ei, Ej. cbn in Ei, Ej. rewrite He in Ei.
    destruct (Nat.lt_total i j) as [Hl|[Hl|Hl]]; [|done|];
      [pose proof (sorted_lookup_lt _ _ _ _ _ Hs Ei Ej Hl)|pose proof (sorted_lookup_lt _ _ _ _ _ Hs Ej Ei Hl)]; lia.
  - by destruct (find_absent _ _ _ _ _ Hs Ef Hj).
Qed.
Lemma amount_of_none rs id : sorted_ids rs -> (forall r, r ∈ rs -> reserve_id r <> id) -> amount_of rs id = 0.
Proof.
  intros Hs Hn. unfold amount_of. destruct (find_reserve rs id) as [i|i] eqn:Ef; [|done].
  destruct (find_inl _ _ _ Hs Ef) as (r & Hi & He). by destruct (Hn r (list_elem_of_lookup_2 _ _ _ Hi)).
Qed.
(** So lists that agree on the entries of a name agree on its amount. *)
Lemma amount_of_same rs rs' id : sorted_ids rs -> sorted_ids rs' ->
  (forall r, reserve_id r = id -> r ∈ rs <-> r ∈ rs') -> amount_of rs id = amount_of rs' id.
Proof.
  intros Hs Hs' Hsame. destruct (find_reserve rs id) as [i|i] eqn:Ef.
  - destruct (find_inl _ _ _ Hs Ef) as (r & Hi & <-). pose proof (list_elem_of_lookup_2 _ _ _ Hi) as Hr.
    rewrite (amount_of_mem rs r Hs Hr). symmetry. apply amount_of_mem; [done|]. by apply Hsame.
  - assert (forall r, r ∈ rs -> reserve_id r <> id) as Hn.
    { intros r [j Hj]%list_elem_of_lookup. exact (find_absent _ _ _ _ _ Hs Ef Hj). }
    rewrite (amount_of_none rs id Hs Hn). symmetry. apply amount_of_none; [done|].
    intros r Hr He. apply (Hn r); [|done]. by apply Hsame.
Qed.
End lists.

Section edits.
Implicit Types rs : list ReserveData.
Abbreviation sorted_ids rs := (StronglySorted Z.lt (reserve_id <$> rs)).

Lemma find_lt rs id i : sorted_ids rs -> find_reserve rs id = inl i -> (i < length rs)%nat.
Proof. intros Hs Hf. destruct (find_inl _ _ _ Hs Hf) as (r & Hi & _). by apply lookup_lt_Some in Hi. Qed.
Lemma find_set rs id i v : find_reserve (set_amount_at i v rs) id = find_reserve rs id.
Proof. unfold find_reserve. by rewrite set_amount_ids. Qed.
Lemma amount_set rs id i v id' : sorted_ids rs -> find_reserve rs id = inl i ->
  amount_of (set_amount_at i v rs) id' = if bool_decide (id' = id) then v else amount_of rs id'.
Proof.
  intros Hs Hf. unfold amount_of. rewrite find_set. case_bool_decide as He.
  - subst id'. rewrite Hf. apply amount_at_set. by eapply find_lt.
  - destruct (find_reserve rs id') as [j|j] eqn:Ej; [|done]. unfold amount_at, set_amount_at.
    rewrite list_lookup_alter_ne; [done|]. intros ->.
    destruct (find_inl _ _ _ Hs Hf) as (r & Hr & H1), (find_inl _ _ _ Hs Ej) as (r' & Hr' & H2). congruence.
Qed.
Lemma amount_insert rs id i v id' : sorted_ids rs -> find_reserve rs id = inr i ->
  amount_of (insert_reserve i (mkReserve id v) rs) id' = if bool_decide (id' = id) then v else amount_of rs id'.
Proof.
  intros Hs Hf. assert (sorted_ids (insert_reserve i (mkReserve id v) rs)) as Hs'.
  { unfold insert_reserve. rewrite fmap_app, fmap_cons, fmap_take, fmap_drop. by apply insert_at_sorted. }
  assert (forall r, r ∈ insert_reserve i (mkReserve id v) rs <-> r = mkReserve id v \/ r ∈ rs) as Hin.
  { intros r. unfold insert_reserve. rewrite elem_of_app, elem_of_cons. rewrite <- (take_drop i rs) at 3. rewrite elem_of_app. tauto. }
  case_bool_decide as He.
  - subst id'. apply (amount_of_mem _ (mkReserve id v)); [done|]. apply Hin. by left.
  - apply amount_of_same; [done..|]. intros r Hr. rewrite Hin. split; [intros [->|]; done|tauto].
Qed.
Lemma amount_remove rs id i id' : sorted_ids rs -> find_reserve rs id = inl i ->
  amount_of (remove_reserve i rs) id' = if bool_decide (id' = id) then 0 else amount_of rs id'.
Proof.
  intros Hs Hf. destruct (find_inl _ _ _ Hs Hf) as (r & Hi & Hr).
  assert (sorted_ids (remove_reserve i rs)) as Hs'.
  { unfold remove_reserve. rewrite <- delete_take_drop, list_fmap_delete. by apply sorted_delete. }
  assert (rs = take i rs ++ r :: drop (S i) rs) as Esplit by (symmetry; by apply take_drop_middle).
  assert (forall r', r' ∈ rs <-> r' = r \/ r' ∈ remove_reserve i rs) as Hin.
  { intros r'. unfold remove_reserve. rewrite Esplit at 1. rewrite !elem_of_app, elem_of_cons. tauto. }
  case_bool_decide as He.
  - subst id'. apply amount_of_none; [done|]. intros r' Hr' He'. revert Hs.
    rewrite Esplit, fmap_app, fmap_cons. unfold remove_reserve in Hr'. intros Hs.
    apply elem_of_app in Hr' as [Hin'|Hin']; apply (list_elem_of_fmap_2 reserve_id) in Hin'; rewrite He' in Hin'.
    + apply StronglySorted_app_1_elem_of with (x1 := id) (x2 := reserve_id r) in Hs; [lia|done|set_solver].
    + apply StronglySorted_app_1_r, StronglySorted_inv in Hs as [_ Hs]. rewrite Forall_forall in Hs.
      specialize (Hs _ Hin'). lia.
  - apply amount_of_same; [done..|]. intros r' Hr'. rewrite Hin. split; [tauto|]. intros [->|]; [congruence|done].
Qed.
End edits.

(** ** What the operations of the tokens pallet move *)
Section moves.
Context {X A C : Type} `{Countable A} `{Countable C}.
Context `{SystemRefs X A} `{TokenHooks X A C}.
Variable cfg : TokensConfig A C.
Abbreviation St := (Tokens X A C).
Abbreviation nd := (no_dust (X := X) (A := A) (C := C)).
Implicit Types s : St.

(** An amount at one account, and under one of its names. *)
Definition at_ (c : C) (who : A) (v : Z) (c' : C) (who' : A) : Z := if bool_decide ((c', who') = (c, who)) then v else 0.
Definition at_name (id : Z) (c : C) (who : A) (v : Z) (id' : Z) (c' : C) (who' : A) : Z :=
  if bool_decide (id' = id) then at_ c who v c' who' else 0.
(** [N], [F] and [R]: by how much named reserves, free and reserved balances change; [S]:
    the sum of the named reserves of an account. *)
Record moves (N : Z -> C -> A -> Z) (S F R : C -> A -> Z) s s' : Prop := {
  mo_named id c who : reserved_balance_named s' id c who = reserved_balance_named s id c who + N id c who;
  mo_sum c who : named_sum (reserves_of s' who c) = named_sum (reserves_of s who c) + S c who;
  mo_free c who : free_balance s' c who = free_balance s c who + F c who;
  mo_reserved c who : reserved_balance s' c who = reserved_balance s c who + R c who;
}.
Definition backed s : Prop := forall c who, named_sum (reserves_of s who c) <= reserved_balance s c who.
Lemma moves_backed N S F R s s' : moves N S F R s s' -> (forall c who, S c who <= R c who) -> backed s -> backed s'.
Proof. intros [_ Hs _ Hr] Hle Hb c who. rewrite Hs, Hr. specialize (Hb c who). specialize (Hle c who). lia. Qed.

Lemma at_0 c who c' who' : at_ c who 0 c' who' = 0.
Proof. unfold at_. by case_bool_decide. Qed.
Lemma at_same c who v : at_ c who v c who = v.
Proof. unfold at_. by rewrite bool_decide_eq_true_2. Qed.
Lemma at_ne c who v c' who' : (c', who') <> (c, who) -> at_ c who v c' who' = 0.
Proof. intros. unfold at_. by rewrite bool_decide_eq_false_2. Qed.

(** Writing one account. *)
Lemma wr_moves who c a s s' : acc_ok a -> accounts s' = wr cfg c who a (accounts s) ->
  forall c' who',
    free_balance s' c' who' = free_balance s c' who' + at_ c who (free a - free_balance s c who) c' who' /\
    reserved_balance s' c' who' = reserved_balance s c' who' + at_ c who (reserved a - reserved_balance s c who) c' who'.
Proof.
  intros Ha Hw c' who'. unfold free_balance, reserved_balance. rewrite !account_of_lk, Hw.
  destruct (decide ((c', who') = (c, who))) as [[= -> ->]|Hne].
  - rewrite !at_same. destruct (lk_wr_balances cfg c who a (accounts s) Ha) as [-> ->]. lia.
  - rewrite !at_ne by done. rewrite lk_wr_ne by congruence. lia.
Qed.
(** Writing one list of named reserves. *)
Lemma reserves_of_put who c o s who' c' :
  reserves_of (set_reserves (partial_alter (fun _ => o) (who, c) (reserves s)) s) who' c' =
  if bool_decide ((c', who') = (c, who)) then default [] o else reserves_of s who' c'.
Proof.
  unfold reserves_of. cbn. case_bool_decide as E; [injection E as -> ->; by rewrite lookup_partial_alter_eq|].
  rewrite lookup_partial_alter_ne; [done|]. congruence.
Qed.
Lemma put_moves id c who rs' n s s1 :
  reserves s1 = reserves s ->
  (forall id', amount_of (default [] rs') id' = amount_of (reserves_of s who c) id' + if bool_decide (id' = id) then n else 0) ->
  named_sum (default [] rs') = named_sum (reserves_of s who c) + n ->
  let s' := set_reserves (partial_alter (fun _ => rs') (who, c) (reserves s1)) s1 in
  (forall id' c' who', reserved_balance_named s' id' c' who' =
     reserved_balance_named s id' c' who' + at_name id c who n id' c' who') /\
  (forall c' who', named_sum (reserves_of s' who' c') = named_sum (reserves_of s who' c') + at_ c who n c' who').
Proof.
  intros Hr Ha Hs. assert (forall who' c', reserves_of s1 who' c' = reserves_of s who' c') as Hof
    by (intros; unfold reserves_of; by rewrite Hr).
  cbn zeta. split; intros *.
  - change (reserved_balance_named ?t id' c' who') with (amount_of (reserves_of t who' c') id').
    rewrite reserves_of_put, Hof. unfold at_name. destruct (decide ((c', who') = (c, who))) as [[= -> ->]|Hne].
    + rewrite bool_decide_eq_true_2, at_same by done. apply Ha.
    + rewrite bool_decide_eq_false_2, at_ne by done. destruct (bool_decide _); lia.
  - rewrite reserves_of_put, Hof. destruct (decide ((c', who') = (c, who))) as [[= -> ->]|Hne].
    + rewrite bool_decide_eq_true_2, at_same by done. exact Hs.
    + rewrite bool_decide_eq_false_2, at_ne by done. lia.
Qed.

(** Balances only. *)
Definition shifts (F R : C -> A -> Z) s s' : Prop :=
  reserves s' = reserves s /\
  forall c who, free_balance s' c who = free_balance s c who + F c who /\
                reserved_balance s' c who = reserved_balance s c who + R c who.
Lemma wr_shifts who c a s s' : acc_ok a -> accounts s' = wr cfg c who a (accounts s) -> reserves s' = reserves s ->
  shifts (at_ c who (free a - free_balance s c who)) (at_ c who (reserved a - reserved_balance s c who)) s s'.
Proof. intros Ha Hw Hr. split; [done|]. by apply wr_moves. Qed.
Lemma shifts_same c who s s' : accounts s' = accounts s -> reserves s' = reserves s -> shifts (at_ c who 0) (at_ c who 0) s s'.
Proof.
  intros Ha Hr. split; [done|]. intros c' who'. unfold free_balance, reserved_balance, account_of. rewrite Ha, !at_0. lia.
Qed.
Lemma shifts_at c who f f' r r' s s' : f = f' -> r = r' ->
  shifts (at_ c who f) (at_ c who r) s s' -> shifts (at_ c who f') (at_ c who r') s s'.
Proof. by intros -> ->. Qed.

Lemma account_bounds s who c : ledger_inv s ->
  acc_ok (lk (accounts s) who c) /\ 0 <= free_balance s c who /\ 0 <= reserved_balance s c who /\
  free_balance s c who + reserved_balance s c who <= U128_MAX.
Proof.
  intros Hi. destruct (ledger_lk s who c Hi) as (Hok & Ht & Hm). unfold free_balance, reserved_balance.
  rewrite account_of_lk. unfold acc_ok, tot in *. split_and!; lia.
Qed.

Lemma reserve_shifts c who v s s' u : 0 < v -> ledger_inv s -> reserve cfg nd c who v s = (s', Ok u) ->
  v <= free_balance s c who /\ shifts (at_ c who (- v)) (at_ c who v) s s'.
Proof.
  intros Hv Hi Hr. destruct (account_bounds s who c Hi) as (Hok & Hf & Hre & Hm).
  apply reserve_Ok in Hr as (Hle & _ & Ha & _ & _ & Hrs); [|lia|done|lia].
  unfold free_balance, reserved_balance in *. rewrite account_of_lk in *. split; [done|].
  eapply shifts_at; [| |eapply wr_shifts; [|exact Ha|exact Hrs]].
  - unfold free_balance, account_of, to_reserved. cbn. unfold lk. lia.
  - unfold reserved_balance, account_of, to_reserved. cbn. unfold lk. lia.
  - unfold acc_ok, to_reserved in *. cbn. lia.
Qed.
Lemma unreserve_shifts c who v s s' rem : 0 <= v <= reserved_balance s c who -> ledger_inv s ->
  unreserve cfg nd c who v s = (s', rem) -> rem = 0 /\ shifts (at_ c who v) (at_ c who (- v)) s s'.
Proof.
  intros Hv Hi Hr. destruct (account_bounds s who c Hi) as (Hok & Hf & Hre & Hm).
  apply unreserve_spec in Hr as (-> & _ & _ & Hrs & Hz & Ha); [|lia|done].
  unfold free_balance, reserved_balance in *. rewrite account_of_lk in *. rewrite Z.min_r in * by lia. split; [lia|].
  destruct (decide (v = 0)) as [->|Hv0]; [rewrite (Hz eq_refl); by apply shifts_same|].
  eapply shifts_at; [| |eapply wr_shifts; [|exact (Ha Hv0)|exact Hrs]].
  - unfold free_balance, account_of, to_reserved. cbn. unfold lk. lia.
  - unfold reserved_balance, account_of, to_reserved. cbn. unfold lk. lia.
  - unfold acc_ok, to_reserved in *. cbn. lia.
Qed.
Lemma slash_reserved_shifts c who v s s' rem : 0 <= v <= reserved_balance s c who -> ledger_inv s ->
  slash_reserved cfg nd c who v s = (s', rem) -> rem = 0 /\ shifts (at_ c who 0) (at_ c who (- v)) s s'.
Proof.
  intros Hv Hi Hr. destruct (account_bounds s who c Hi) as (Hok & Hf & Hre & Hm).
  pose proof (slash_reserved_keeps cfg c who v s s' rem Hr) as [_ Hrs].
  unfold slash_reserved in Hr. destruct (Z.eqb_spec v 0) as [->|Hv0].
  { injection Hr as <- <-. split; [done|]. by apply shifts_same. }
  set (s0 := on_rest (OnSlash c who v) s) in *. change (reserved_balance s0 c who) with (reserved_balance s c who) in Hr.
  rewrite Z.min_r in Hr by lia. rewrite (sat_sub_exact (reserved_balance s c who) v), (sat_sub_exact v v), Z.sub_diag in Hr by lia.
  destruct (mutate_account_pure cfg who c (fun d => mkAcc (free d) (reserved_balance s c who - v) (frozen d))
              (fun _ s => s) (fun _ => tt) s0 ltac:(done)) as (s1 & Em & Ha & Hi' & Hl & Hr1).
  rewrite Em in Hr. cbn [fst] in Hr. injection Hr as <- <-. split; [done|].
  eapply shifts_at; [| |eapply wr_shifts; [|exact Ha|exact Hrs]].
  - unfold free_balance, account_of. cbn. unfold lk. lia.
  - cbn. lia.
  - unfold acc_ok in *. cbn. lia.
Qed.

Definition on_status (st : BalanceStatus) (free_case reserved_case : Z) : Z :=
  match st with Free => free_case | Reserved => reserved_case end.
Lemma repatriate_shifts c a b v st s s' rem : a <> b -> 0 <= v <= reserved_balance s c a -> ledger_inv s ->
  repatriate_reserved cfg nd c a b v st s = (s', rem) ->
  rem = 0 /\ shifts (at_ c b (on_status st v 0)) (fun c' who' => at_ c a (- v) c' who' + at_ c b (on_status st 0 v) c' who') s s'.
Proof.
  intros Hab Hv Hi Hr. destruct (account_bounds s a c Hi) as (Hoka & Hfa & Hra & Hma).
  destruct (account_bounds s b c Hi) as (Hokb & Hfb & Hrb & Hmb).
  pose proof (pair_bound cfg s a b c Hi Hab) as Hsum. unfold tot in Hsum. rewrite <- !account_of_lk in Hsum.
  change (free_balance s c a + reserved_balance s c a + (free_balance s c b + reserved_balance s c b) <= U128_MAX) in Hsum.
  pose proof (repatriate_inv cfg c a b v st s s' rem ltac:(lia) Hi Hr) as [_ Hrem].
  assert (rem = 0) as -> by (unfold reserved_balance in Hv; rewrite account_of_lk in Hv; lia). split; [done|].
  pose proof (repatriate_keeps cfg c a b v st s s' 0 ltac:(lia) (balances_ok _ Hi) Hr) as [_ Hrs]. split; [done|].
  unfold repatriate_reserved in Hr. destruct (Z.eqb_spec v 0) as [->|Hv0].
  { injection Hr as <-. intros c' who'. destruct st; cbn; rewrite !at_0; lia. }
  rewrite bool_decide_eq_false_2 in Hr by done. cbv zeta in Hr.
  change (reserved (account_of s a c)) with (reserved_balance s c a) in Hr.
  change (reserved (account_of s b c)) with (reserved_balance s c b) in Hr.
  change (free (account_of s b c)) with (free_balance s c b) in Hr.
  rewrite Z.min_r, (sat_sub_exact (reserved_balance s c a) v) in Hr by lia. injection Hr as <- _.
  set (s1 := match st with Free => _ | Reserved => _ end).
  assert (accounts s1 = wr cfg c b (mkAcc (sat_add U128_MAX (free_balance s c b) (on_status st v 0))
            (sat_add U128_MAX (reserved_balance s c b) (on_status st 0 v)) (frozen (lk (accounts s) b c))) (accounts s)) as E1.
  { unfold s1. destruct st; cbn [on_status].
    - destruct (set_free_eq cfg c b (sat_add U128_MAX (free_balance s c b) v) s) as [-> _].
      rewrite (sat_add_exact U128_MAX (reserved_balance s c b)) by lia. rewrite Z.add_0_r. done.
    - destruct (set_reserved_eq cfg c b (sat_add U128_MAX (reserved_balance s c b) v) s) as [-> _].
      rewrite (sat_add_exact U128_MAX (free_balance s c b)) by lia. rewrite Z.add_0_r. done. }
  assert (shifts (at_ c b (on_status st v 0)) (at_ c b (on_status st 0 v)) s (set_reserves (reserves s) s1)) as [_ Hs1].
  { eapply shifts_at; [| |eapply wr_shifts; [|exact E1|done]]; unfold acc_ok in *; destruct st; cbn; uints. }
  assert (reserved_balance s1 c a = reserved_balance s c a) as Er1.
  { destruct (Hs1 c a) as [_ E]. cbn in E. rewrite at_ne in E by congruence. rewrite Z.add_0_r in E. exact E. }
  set (s2 := set_reserved_balance cfg nd c a (reserved_balance s c a - v) s1).
  destruct (set_reserved_eq cfg c a (reserved_balance s c a - v) s1) as [E2 _]. fold s2 in E2.
  assert (lk (accounts s1) a c = lk (accounts s) a c) as El1 by (rewrite E1; apply lk_wr_ne; congruence).
  intros c' who'. destruct (Hs1 c' who') as [H1' H2'].
  assert (acc_ok (mkAcc (free (lk (accounts s1) a c)) (reserved_balance s c a - v) (frozen (lk (accounts s1) a c)))) as Ha2
    by (rewrite El1; unfold acc_ok in *; cbn; lia).
  destruct (wr_moves a c _ s1 s2 Ha2 E2 c' who') as [H3' H4'].
  cbn [free reserved] in H3', H4'. rewrite Er1 in H4'.
  replace (free (lk (accounts s1) a c) - free_balance s1 c a) with 0 in H3' by (unfold free_balance; rewrite account_of_lk; lia).
  rewrite at_0 in H3'. replace (reserved_balance s c a - v - reserved_balance s c a) with (- v) in H4' by lia.
  change (free_balance (emit ?e s2)) with (free_balance s2). change (reserved_balance (emit ?e s2)) with (reserved_balance s2).
  change (free_balance s1 c' who' = free_balance s c' who' + at_ c b (on_status st v 0) c' who') in H1'.
  change (reserved_balance s1 c' who' = reserved_balance s c' who' + at_ c b (on_status st 0 v) c' who') in H2'. lia.
Qed.

(** *** Named operations, in a ledger whose names are covered *)
Lemma named_bound s id c who : tokens_inv cfg s -> backed s ->
  0 <= reserved_balance_named s id c who <= reserved_balance s c who.
Proof.
  intros Hi Hb. pose proof (reserves_of_named cfg s who c Hi) as Hn. specialize (Hb c who).
  unfold reserved_balance_named. pose proof (fun i => named_sum_amount i _ (no_amounts _ _ Hn)) as Ha.
  destruct (find_reserve _ _) as [i|i]; [specialize (Ha i)|specialize (Ha 0%nat)]; lia.
Qed.
Lemma moves_of n id c who F R rs' s s1 :
  shifts F R s s1 ->
  (forall id', amount_of (default [] rs') id' = amount_of (reserves_of s who c) id' + if bool_decide (id' = id) then n else 0) ->
  named_sum (default [] rs') = named_sum (reserves_of s who c) + n ->
  moves (at_name id c who n) (at_ c who n) F R s (set_reserves (partial_alter (fun _ => rs') (who, c) (reserves s1)) s1).
Proof.
  intros [Hr Hf] Ha Hs. destruct (put_moves id c who rs' n s s1 Hr Ha Hs) as [H1' H2']. split; [exact H1'|exact H2'|..];
    intros c' who'; apply Hf.
Qed.
Lemma moves_none id c who s s' : accounts s' = accounts s -> reserves s' = reserves s ->
  moves (at_name id c who 0) (at_ c who 0) (at_ c who 0) (at_ c who 0) s s'.
Proof.
  intros Ha Hr. split; intros *; unfold at_name; rewrite ?at_0;
    unfold reserved_balance_named, free_balance, reserved_balance, reserves_of, account_of; rewrite ?Ha, ?Hr; try lia.
  destruct (bool_decide _); lia.
Qed.
(** What an edit of the entry [i] does to the amounts. *)
Lemma entry_set rs id i v : StronglySorted Z.lt (reserve_id <$> rs) -> find_reserve rs id = inl i ->
  (forall id', amount_of (set_amount_at i v rs) id' = amount_of rs id' + if bool_decide (id' = id) then v - amount_at rs i else 0) /\
  named_sum (set_amount_at i v rs) = named_sum rs + (v - amount_at rs i).
Proof.
  intros Hs Hf. split; [|rewrite named_sum_set by (by eapply find_lt); lia].
  intros id'. rewrite (amount_set rs id) by done. case_bool_decide as E; [|lia]. subst. unfold amount_of. rewrite Hf. lia.
Qed.
Lemma entry_insert rs id i v : StronglySorted Z.lt (reserve_id <$> rs) -> find_reserve rs id = inr i ->
  (forall id', amount_of (insert_reserve i (mkReserve id v) rs) id' = amount_of rs id' + if bool_decide (id' = id) then v else 0) /\
  named_sum (insert_reserve i (mkReserve id v) rs) = named_sum rs + v.
Proof.
  intros Hs Hf. split; [|by rewrite named_sum_insert].
  intros id'. rewrite (amount_insert rs id) by done. case_bool_decide as E; [|lia]. subst. unfold amount_of. rewrite Hf. lia.
Qed.
(** The list that [unreserve_named] stores: an entry that becomes zero is removed. *)
Lemma entry_left rs id i a : StronglySorted Z.lt (reserve_id <$> rs) -> find_reserve rs id = inl i -> 0 <= a <= amount_at rs i ->
  let left := amount_at rs i - a in
  let rs' := if left =? 0 then if (length rs =? 1)%nat then None else Some (remove_reserve i rs) else Some (set_amount_at i left rs) in
  (forall id', amount_of (default [] rs') id' = amount_of rs id' + if bool_decide (id' = id) then - a else 0) /\
  named_sum (default [] rs') = named_sum rs + (- a).
Proof.
  intros Hs Hf Ha. cbv zeta. destruct (Z.eqb_spec (amount_at rs i - a) 0) as [E0|E0].
  - replace (default [] (if (length rs =? 1)%nat then None else Some (remove_reserve i rs))) with (remove_reserve i rs).
    + split; [|rewrite named_sum_remove; lia]. intros id'. rewrite (amount_remove rs id) by done. case_bool_decide as E; [|lia].
      subst. unfold amount_of. rewrite Hf. lia.
    + destruct (Nat.eqb_spec (length rs) 1) as [E1|]; [|done]. pose proof (find_lt _ _ _ Hs Hf). destruct rs as [|r [|]]; [done| |done].
      by replace i with 0%nat by (cbn in *; lia).
  - change (default [] (Some ?l)) with l. destruct (entry_set rs id i (amount_at rs i - a) Hs Hf) as [H1' H2'].
    replace (amount_at rs i - a - amount_at rs i) with (- a) in * by lia. by split.
Qed.

Lemma reserve_named_moves id c who v s s' u : 0 < v -> tokens_inv cfg s -> backed s ->
  reserve_named cfg nd id c who v s = (s', Ok u) ->
  moves (at_name id c who v) (at_ c who v) (at_ c who (- v)) (at_ c who v) s s'.
Proof.
  intros Hv Hi Hb Hr. pose proof (named_bound s id c who Hi Hb) as Hn. pose proof (no_sorted _ _ (reserves_of_named cfg s who c Hi)) as Hs.
  destruct (account_bounds s who c (ti_ledger _ _ Hi)) as (_ & Hf & _ & Hm).
  unfold reserve_named in Hr. rewrite (proj2 (Z.eqb_neq v 0)) in Hr by lia. run_inv.
  match goal with Hx : reserve _ _ _ _ _ _ = _ |- _ => apply reserve_shifts in Hx as [Hle Hx]; [rename Hx into Hsh|done|apply Hi] end.
  change (put_reserves who c ?rs ?t) with (set_reserves (partial_alter (fun _ => Some rs) (who, c) (reserves t)) t).
  change (reserved_balance_named s id c who) with (amount_of (reserves_of s who c) id) in Hn. unfold amount_of in Hn.
  destruct (find_reserve (reserves_of s who c) id) as [i|i] eqn:Ef.
  - match goal with Hx : Ok _ = Ok _ |- _ => injection Hx as <- end.
    destruct (entry_set (reserves_of s who c) id i (amount_at (reserves_of s who c) i + v) Hs Ef) as [H1' H2'].
    rewrite sat_add_exact by lia.
    replace (amount_at (reserves_of s who c) i + v - amount_at (reserves_of s who c) i) with v in * by lia. by apply moves_of.
  - destruct (_ <? _)%nat; [|done]. match goal with Hx : Ok _ = Ok _ |- _ => injection Hx as <- end.
    destruct (entry_insert (reserves_of s who c) id i v Hs Ef) as [H1' H2']. by apply moves_of.
Qed.

Lemma unreserve_named_moves id c who v s s' rem : 0 <= v -> tokens_inv cfg s -> backed s ->
  unreserve_named cfg nd id c who v s = (s', rem) ->
  let a := Z.min (reserved_balance_named s id c who) v in
  rem = v - a /\ moves (at_name id c who (- a)) (at_ c who (- a)) (at_ c who a) (at_ c who (- a)) s s'.
Proof.
  intros Hv Hi Hb Hr. pose proof (named_bound s id c who Hi Hb) as Hn. pose proof (no_sorted _ _ (reserves_of_named cfg s who c Hi)) as Hs.
  cbv zeta. unfold unreserve_named in Hr. destruct (Z.eqb_spec v 0) as [->|Hv0].
  { injection Hr as <- <-. rewrite Z.min_r by lia. split; [done|]. by apply moves_none. }
  destruct (reserves s !! (who, c)) as [rs|] eqn:E.
  2:{ injection Hr as <- <-. replace (reserved_balance_named s id c who) with 0
        by (unfold reserved_balance_named, reserves_of; by rewrite E).
      rewrite Z.min_l by lia. split; [lia|]. by apply moves_none. }
  assert (reserves_of s who c = rs) as Er by (unfold reserves_of; by rewrite E). rewrite Er in Hs.
  assert (reserved_balance_named s id c who = amount_of rs id) as En by (by rewrite <- Er). rewrite En in *. unfold amount_of in *.
  destruct (find_reserve rs id) as [i|i] eqn:Ef.
  - set (a := Z.min (amount_at rs i) v) in *. destruct (unreserve _ _ _ _ _ _) as [s1 r1] eqn:Eu.
    apply unreserve_shifts in Eu as [-> Hsh]; [|unfold a; lia|apply Hi].
    rewrite (sat_sub_exact a 0), Z.sub_0_r, (sat_sub_exact _ a), (sat_sub_exact v a) in Hr by (unfold a; lia).
    injection Hr as <- <-. split; [done|].
    destruct (entry_left rs id i a Hs Ef ltac:(unfold a; lia)) as [H1' H2']. rewrite <- Er in H1', H2'. rewrite <- Er. by apply moves_of.
  - injection Hr as <- <-. rewrite Z.min_l by lia. split; [lia|]. apply moves_none; [done|]. cbn.
    rewrite insert_id; done.
Qed.

Lemma slash_named_moves id c who v s s' rem : 0 <= v -> tokens_inv cfg s -> backed s ->
  slash_reserved_named cfg nd id c who v s = (s', rem) ->
  let a := Z.min (reserved_balance_named s id c who) v in
  rem = v - a /\ moves (at_name id c who (- a)) (at_ c who (- a)) (at_ c who 0) (at_ c who (- a)) s s'.
Proof.
  intros Hv Hi Hb Hr. pose proof (named_bound s id c who Hi Hb) as Hn. pose proof (no_sorted _ _ (reserves_of_named cfg s who c Hi)) as Hs.
  cbv zeta. unfold slash_reserved_named in Hr. destruct (Z.eqb_spec v 0) as [->|Hv0].
  { injection Hr as <- <-. rewrite Z.min_r by lia. split; [done|]. by apply moves_none. }
  change (reserved_balance_named s id c who) with (amount_of (reserves_of s who c) id) in *. unfold amount_of in *.
  destruct (find_reserve (reserves_of s who c) id) as [i|i] eqn:Ef.
  - set (rs := reserves_of s who c) in *. set (a := Z.min (amount_at rs i) v) in *.
    destruct (slash_reserved _ _ _ _ _ _) as [s1 r1] eqn:Eu.
    apply slash_reserved_shifts in Eu as [-> Hsh]; [|unfold a; lia|apply Hi].
    rewrite (sat_sub_exact a 0), Z.sub_0_r, (sat_sub_exact _ a), (sat_sub_exact v a) in Hr by (unfold a; lia).
    injection Hr as <- <-. split; [done|].
    destruct (entry_set rs id i (amount_at rs i - a) Hs Ef) as [H1' H2'].
    replace (amount_at rs i - a - amount_at rs i) with (- a) in * by lia.
    exact (moves_of (- a) id c who _ _ (Some _) s (emit _ s1) Hsh H1' H2').
  - injection Hr as <- <-. rewrite Z.min_l by lia. split; [lia|].
    apply (moves_of (- 0) id c who _ _ (Some _) s s); [by apply shifts_same| |cbn; lia].
    intros id'. cbn. destruct (bool_decide _); lia.
Qed.

Lemma moves_seq N1 S1 F1 R1 N2 S2 F2 R2 s1 s2 s3 :
  moves N1 S1 F1 R1 s1 s2 -> moves N2 S2 F2 R2 s2 s3 ->
  moves (fun i c w => N2 i c w + N1 i c w) (fun c w => S2 c w + S1 c w) (fun c w => F1 c w + F2 c w) (fun c w => R1 c w + R2 c w) s1 s3.
Proof.
  intros [A1 A2 A3 A4] [B1 B2 B3 B4]. split; intros *; [rewrite B1, A1|rewrite B2, A2|rewrite B3, A3|rewrite B4, A4]; lia.
Qed.
Lemma moves_ext N S F R N' S' F' R' s s' :
  (forall i c w, N i c w = N' i c w) -> (forall c w, S c w = S' c w) -> (forall c w, F c w = F' c w) -> (forall c w, R c w = R' c w) ->
  moves N S F R s s' -> moves N' S' F' R' s s'.
Proof. intros E1 E2 E3 E4 [A1 A2 A3 A4]. split; intros *; rewrite <- ?E1, <- ?E2, <- ?E3, <- ?E4; auto. Qed.
Lemma at_name_0 id c who id' c' who' : at_name id c who 0 id' c' who' = 0.
Proof. unfold at_name. rewrite at_0. by destruct (bool_decide _). Qed.
Lemma at_opp c who v c' who' : at_ c who (- v) c' who' = - at_ c who v c' who'.
Proof. unfold at_. destruct (bool_decide _); lia. Qed.
Lemma at_name_opp id c who v id' c' who' : at_name id c who (- v) id' c' who' = - at_name id c who v id' c' who'.
Proof. unfold at_name. rewrite at_opp. destruct (bool_decide _); lia. Qed.

(** What a repatriation of [m] does. *)
Definition repatriates (id : Z) (c : C) (a b : A) (m : Z) (st : BalanceStatus) : St -> St -> Prop :=
  moves (fun i c' w => at_name id c a (- m) i c' w + at_name id c b (on_status st 0 m) i c' w)
        (fun c' w => at_ c a (- m) c' w + at_ c b (on_status st 0 m) c' w)
        (at_ c b (on_status st m 0))
        (fun c' w => at_ c a (- m) c' w + at_ c b (on_status st 0 m) c' w).

(** Within one account the funds become free, or stay where they are. *)
Lemma repatriate_self_moves id c a v st s s' rem : 0 <= v -> tokens_inv cfg s -> backed s ->
  repatriate_reserved_named cfg nd id c a a v st s = (s', Ok rem) ->
  let m := Z.min (reserved_balance_named s id c a) v in rem = v - m /\ repatriates id c a a m st s s'.
Proof.
  intros Hv Hi Hb Hr. pose proof (named_bound s id c a Hi Hb) as Hn. cbv zeta. unfold repatriates.
  assert (forall m, repatriates id c a a m Reserved s s) as Hstay.
  { intros m. eapply moves_ext; [..|apply (moves_none id c a s s); done]; intros; cbn [on_status];
      rewrite ?at_name_0, ?at_0, ?at_name_opp, ?at_opp; lia. }
  unfold repatriate_reserved_named in Hr. destruct (Z.eqb_spec v 0) as [->|Hv0].
  { injection Hr as <- <-. rewrite Z.min_r by lia. split; [done|].
    eapply moves_ext; [..|apply (moves_none id c a s s); done]; intros; destruct st; cbn [on_status];
      rewrite ?at_name_0, ?at_0; cbn; rewrite ?at_name_0, ?at_0; lia. }
  rewrite bool_decide_eq_true_2 in Hr by done. destruct st.
  - destruct (unreserve_named _ _ _ _ _ _ _) as [s1 r1] eqn:Eu. injection Hr as <- <-.
    apply unreserve_named_moves in Eu as [-> Hm]; [|done..]. split; [done|].
    eapply moves_ext; [..|exact Hm]; intros; cbn [on_status]; rewrite ?at_name_0, ?at_0; lia.
  - injection Hr as <- <-. split; [uints|]. apply Hstay.
Qed.

Lemma repatriate_named_moves id c a b v st s s' rem : 0 <= v -> tokens_inv cfg s -> backed s ->
  repatriate_reserved_named cfg nd id c a b v st s = (s', Ok rem) ->
  let m := Z.min (reserved_balance_named s id c a) v in rem = v - m /\ repatriates id c a b m st s s'.
Proof.
  intros Hv Hi Hb Hr. destruct (decide (a = b)) as [<-|Hab]; [by apply repatriate_self_moves|].
  pose proof (named_bound s id c a Hi Hb) as Hna. pose proof (named_bound s id c b Hi Hb) as Hnb.
  pose proof (no_sorted _ _ (reserves_of_named cfg s a c Hi)) as Hsa. pose proof (no_sorted _ _ (reserves_of_named cfg s b c Hi)) as Hsb.
  destruct (account_bounds s a c (ti_ledger _ _ Hi)) as (_ & Hfa & _ & _).
  destruct (account_bounds s b c (ti_ledger _ _ Hi)) as (_ & Hfb & _ & _).
  pose proof (pair_bound cfg s a b c (ti_ledger _ _ Hi) Hab) as Hsum. unfold tot in Hsum. rewrite <- !account_of_lk in Hsum.
  change (free_balance s c a + reserved_balance s c a + (free_balance s c b + reserved_balance s c b) <= U128_MAX) in Hsum.
  cbv zeta. unfold repatriate_reserved_named in Hr. destruct (Z.eqb_spec v 0) as [->|Hv0].
  { injection Hr as <- <-. rewrite Z.min_r by lia. split; [done|].
    eapply moves_ext; [..|apply (moves_none id c a s s); done]; intros; destruct st; cbn [on_status];
      rewrite ?at_name_0, ?at_0; cbn; rewrite ?at_name_0, ?at_0; lia. }
  rewrite bool_decide_eq_false_2 in Hr by done.
  change (reserved_balance_named s id c a) with (amount_of (reserves_of s a c) id) in *.
  change (reserved_balance_named s id c b) with (amount_of (reserves_of s b c) id) in *. unfold amount_of in *.
  set (rs := reserves_of s a c) in *. set (bs := reserves_of s b c) in *.
  destruct (find_reserve rs id) as [i|i] eqn:Ef.
  2:{ injection Hr as <- <-. rewrite Z.min_l by lia. split; [lia|].
      eapply moves_ext; [..|apply (moves_of 0 id c a (at_ c a 0) (at_ c a 0) (Some rs) s s); [by apply shifts_same| |by rewrite Z.add_0_r]].
      all: try (intros; destruct st; cbn [on_status]; rewrite ?at_name_0, ?at_0; cbn; rewrite ?at_name_0, ?at_0; lia).
      intros id'. destruct (bool_decide _); by rewrite Z.add_0_r. }
  set (m := Z.min (amount_at rs i) v) in *. destruct (repatriate_reserved _ _ _ _ _ _ _ _) as [s1 r1] eqn:Er.
  apply repatriate_shifts in Er as [-> Hsh]; [|done|unfold m; lia|apply Hi].
  rewrite (sat_sub_exact m 0), Z.sub_0_r, (sat_sub_exact _ m), (sat_sub_exact v m) in Hr by (unfold m; lia).
  destruct (entry_set rs id i (amount_at rs i - m) Hsa Ef) as [Hea Hsa'].
  replace (amount_at rs i - m - amount_at rs i) with (- m) in * by lia.
  destruct st; cbn [on_status] in Hsh.
  { injection Hr as <- <-. split; [done|].
    pose proof (moves_of (- m) id c a _ _ (Some _) s s1 Hsh Hea Hsa') as Hm.
    eapply moves_ext; [..|exact Hm]; intros; cbn [on_status]; rewrite ?at_name_0, ?at_0; lia. }
  (* the list of the beneficiary is written first, then that of the account *)
  assert (forall bs', (forall id', amount_of bs' id' = amount_of bs id' + if bool_decide (id' = id) then m else 0) ->
      named_sum bs' = named_sum bs + m ->
      repatriates id c a b m Reserved s (put_reserves a c (set_amount_at i (amount_at rs i - m) rs) (put_reserves b c bs' s1))) as Hgo.
  { intros bs' Hbs' Hsb'. pose proof (moves_of m id c b _ _ (Some bs') s s1 Hsh Hbs' Hsb') as Hm1.
    set (s2 := set_reserves _ s1) in Hm1. assert (reserves_of s2 a c = rs) as Er2.
    { unfold s2. rewrite reserves_of_put, bool_decide_eq_false_2 by congruence. unfold reserves_of. by rewrite (proj1 Hsh). }
    pose proof (moves_of (- m) id c a (at_ c a 0) (at_ c a 0) (Some (set_amount_at i (amount_at rs i - m) rs)) s2 s2
      (shifts_same c a s2 s2 eq_refl eq_refl)) as Hm2. rewrite Er2 in Hm2. specialize (Hm2 Hea Hsa').
    pose proof (moves_seq _ _ _ _ _ _ _ _ _ _ _ Hm1 Hm2) as Hm.
    eapply moves_ext; [..|exact Hm]; intros; cbn [on_status]; rewrite ?at_name_0, ?at_0; lia. }
  destruct (find_reserve bs id) as [j|j] eqn:Ej.
  - injection Hr as <- <-. split; [done|]. destruct (entry_set bs id j (amount_at bs j + m) Hsb Ej) as [H1' H2'].
    replace (amount_at bs j + m - amount_at bs j) with m in * by lia.
    rewrite (sat_add_exact U128_MAX (amount_at bs j) m) by (unfold m; lia). by apply Hgo.
  - destruct (_ <? _)%nat; [|done]. injection Hr as <- <-. split; [done|].
    destruct (entry_insert bs id j m Hsb Ej) as [H1' H2']. by apply Hgo.
Qed.
End moves.

(** ** Names stay covered *)
Section steps.
Context {X A C : Type} `{Countable A} `{Countable C}.
Context `{SystemRefs X A} `{TokenHooks X A C}.
Variable cfg : TokensConfig A C.
Context {Source : Type} (lookup : Source -> res DispatchError A).
Abbreviation St := (Tokens X A C).
Abbreviation nd := (no_dust (X := X) (A := A) (C := C)).
Implicit Types s : St.

(** The operations that leave reserves alone, add to them, or take them out by name. *)
Inductive named_step : St -> St -> Prop :=
| ns_transfer c a b v er s s' u : 0 <= v -> do_transfer cfg nd c a b v er s = (s', Ok u) -> named_step s s'
| ns_withdraw c a v er s s' u : 0 <= v -> do_withdraw cfg nd c a v er true s = (s', Ok u) -> named_step s s'
| ns_deposit c a v req s s' w : 0 <= v -> do_deposit cfg nd c a v req true s = (s', Ok w) -> named_step s s'
| ns_set_lock id c a v s s' u : set_lock cfg nd id c a v s = (s', Ok u) -> named_step s s'
| ns_extend_lock id c a v s s' u : extend_lock cfg nd id c a v s = (s', Ok u) -> named_step s s'
| ns_remove_lock id c a s s' u : remove_lock cfg nd id c a s = (s', Ok u) -> named_step s s'
| ns_reserve c a v s s' u : 0 <= v -> reserve cfg nd c a v s = (s', Ok u) -> named_step s s'
| ns_reserve_named id c a v s s' u : 0 <= v -> reserve_named cfg nd id c a v s = (s', Ok u) -> named_step s s'
| ns_unreserve_named id c a v s s' r : 0 <= v -> unreserve_named cfg nd id c a v s = (s', r) -> named_step s s'
| ns_slash_named id c a v s s' r : 0 <= v -> slash_reserved_named cfg nd id c a v s = (s', r) -> named_step s s'
| ns_repatriate_named id c a b v st s s' r :
    0 <= v -> repatriate_reserved_named cfg nd id c a b v st s = (s', Ok r) -> named_step s s'.

Lemma named_step_step s s' : named_step s s' -> step cfg lookup s s'.
Proof.
  destruct 1; [by eapply st_transfer|by eapply st_withdraw|by eapply st_deposit|by eapply st_set_lock|by eapply st_extend_lock
    |by eapply st_remove_lock|by eapply st_reserve|by eapply st_reserve_named|by eapply st_unreserve_named
    |by eapply st_slash_named|by eapply st_repatriate_named].
Qed.

Definition same_reserved s s' : Prop :=
  reserves s' = reserves s /\ forall c who, reserved_balance s' c who = reserved_balance s c who.
Lemma same_reserved_backed s s' : same_reserved s s' -> backed s -> backed s'.
Proof. intros [Hr Hb] Hs c who. rewrite Hb. unfold reserves_of. rewrite Hr. apply Hs. Qed.
Lemma same_reserved_wr who c a s s' : acc_ok a -> reserved a = reserved (lk (accounts s) who c) ->
  accounts s' = wr cfg c who a (accounts s) -> reserves s' = reserves s -> same_reserved s s'.
Proof.
  intros Ha Hra Hw Hr. split; [done|]. intros c' who'. destruct (wr_moves cfg who c a s s' Ha Hw c' who') as [_ ->].
  unfold reserved_balance at 2. rewrite account_of_lk, Hra, Z.sub_diag, at_0. lia.
Qed.
Lemma same_reserved_same s s' : accounts s' = accounts s -> reserves s' = reserves s -> same_reserved s s'.
Proof. intros Ha Hr. split; [done|]. intros c who. unfold reserved_balance, account_of. by rewrite Ha. Qed.

Lemma do_transfer_reserved c a b v er s s' u : 0 <= v -> ledger_inv s ->
  do_transfer cfg nd c a b v er s = (s', Ok u) -> same_reserved s s'.
Proof.
  intros Hv Hi Hr. destruct (ledger_lk s a c Hi) as (Hoka & _). destruct (ledger_lk s b c Hi) as (Hokb & _).
  destruct (decide (v = 0)) as [->|Hv0].
  { unfold do_transfer in Hr. cbn [orb Z.eqb] in Hr. run_inv. by apply same_reserved_same. }
  destruct (decide (a = b)) as [->|Hab].
  { unfold do_transfer in Hr. rewrite bool_decide_eq_true_2, orb_true_r in Hr by done. run_inv. by apply same_reserved_same. }
  apply do_transfer_Ok in Hr as (Hle & _ & _ & _ & _ & Hacc & _ & _ & Hr); [|done..].
  set (s1 := set_accounts (wr cfg c a (debit v (lk (accounts s) a c)) (accounts s)) s).
  destruct (same_reserved_wr a c (debit v (lk (accounts s) a c)) s s1) as [R1 B1]; [by apply acc_ok_debit|done..|].
  destruct (same_reserved_wr b c (credit v (lk (accounts s) b c)) s1 s') as [R2 B2];
    [by apply acc_ok_credit|unfold s1; cbn; rewrite lk_wr_ne by congruence; done|exact Hacc|exact Hr|].
  split; [done|]. intros c' who'. by rewrite B2, B1.
Qed.
Lemma do_withdraw_reserved c a v er s s' u : 0 <= v -> ledger_inv s ->
  do_withdraw cfg nd c a v er true s = (s', Ok u) -> same_reserved s s'.
Proof.
  intros Hv Hi Hr. destruct (ledger_lk s a c Hi) as (Hok & _). destruct (decide (v = 0)) as [->|Hv0].
  { unfold do_withdraw in Hr. simpl in Hr. run_inv. by apply same_reserved_same. }
  apply do_withdraw_Ok in Hr as (Hle & _ & Ha & _ & _ & Hr); [|done].
  eapply same_reserved_wr; [|..|exact Ha|exact Hr]; [|done]. unfold acc_ok in *. cbn. uints.
Qed.
Lemma do_deposit_reserved c a v req s s' w : 0 <= v -> ledger_inv s ->
  do_deposit cfg nd c a v req true s = (s', Ok w) -> same_reserved s s'.
Proof.
  intros Hv Hi Hr. destruct (ledger_lk s a c Hi) as (Hok & _). destruct (decide (v = 0)) as [->|Hv0].
  { unfold do_deposit in Hr. simpl in Hr. run_inv. by apply same_reserved_same. }
  apply do_deposit_Ok in Hr as (_ & _ & Ha & _ & _ & Hr); [|done].
  eapply same_reserved_wr; [|..|exact Ha|exact Hr]; [|done]. unfold acc_ok in *. cbn. uints.
Qed.
Lemma update_locks_reserved c a ls s s' u : ledger_inv s -> update_locks cfg nd c a ls s = (s', Ok u) -> same_reserved s s'.
Proof.
  intros Hi Hr. destruct (ledger_lk s a c Hi) as (Hok & _). apply update_locks_Ok in Hr as (Ha & _ & Hr & _).
  eapply same_reserved_wr; [|..|exact Ha|exact Hr]; [|done].
  pose proof (max_lock_nonneg ls). unfold acc_ok, freeze in *. cbn. lia.
Qed.

Lemma named_step_backed s s' : tokens_inv cfg s -> named_step s s' -> backed s -> backed s'.
Proof.
  intros Hi Hstep Hb. destruct Hstep.
  - eapply same_reserved_backed; [|exact Hb]. eapply do_transfer_reserved; eauto using ti_ledger.
  - eapply same_reserved_backed; [|exact Hb]. eapply do_withdraw_reserved; eauto using ti_ledger.
  - eapply same_reserved_backed; [|exact Hb]. eapply do_deposit_reserved; eauto using ti_ledger.
  - unfold set_lock in *. destruct (v =? 0); run_inv; [done|].
    eapply (same_reserved_backed s); [|exact Hb]. change (same_reserved s (emit ?e ?t)) with (same_reserved s t).
    eapply update_locks_reserved; eauto using ti_ledger.
  - unfold extend_lock in *. destruct (v =? 0); run_inv; [done|].
    eapply same_reserved_backed; [|exact Hb]. eapply update_locks_reserved; eauto using ti_ledger.
  - unfold remove_lock in *. run_inv. eapply (same_reserved_backed s); [|exact Hb].
    change (same_reserved s (emit ?e ?t)) with (same_reserved s t). eapply update_locks_reserved; eauto using ti_ledger.
  - destruct (decide (v = 0)) as [->|Hv0]; [unfold reserve in *; simpl in *; by run_inv|].
    match goal with Hx : reserve _ _ _ _ _ _ = _ |- _ => apply reserve_shifts in Hx as [_ [Hr Hs]]; [|lia|apply Hi] end.
    intros c' who'. destruct (Hs c' who') as [_ ->]. unfold reserves_of. rewrite Hr. specialize (Hb c' who').
    unfold reserves_of in Hb. unfold at_. destruct (bool_decide _); lia.
  - destruct (decide (v = 0)) as [->|Hv0]; [unfold reserve_named in *; simpl in *; by run_inv|].
    match goal with Hx : reserve_named _ _ _ _ _ _ _ = _ |- _ => apply reserve_named_moves in Hx; [|lia|done..] end.
    by eapply moves_backed.
  - match goal with Hx : unreserve_named _ _ _ _ _ _ _ = _ |- _ => apply unreserve_named_moves in Hx as [_ Hx]; [|done..] end.
    by eapply moves_backed.
  - match goal with Hx : slash_reserved_named _ _ _ _ _ _ _ = _ |- _ => apply slash_named_moves in Hx as [_ Hx]; [|done..] end.
    by eapply moves_backed.
  - match goal with Hx : repatriate_reserved_named _ _ _ _ _ _ _ _ _ = _ |- _ => apply repatriate_named_moves in Hx as [_ Hx]; [|done..] end.
    by eapply moves_backed.
Qed.

(** A ledger that genesis and such operations lead to. *)
Definition named_reachable (x : X) (l : list (A * C * Z)) s : Prop :=
  exists s0 u, Forall (fun e => 0 <= e.2) l /\ genesis_build cfg nd l (no_tokens x) = (s0, Ok u) /\ rtc named_step s0 s.
Lemma endow_reserves l : forall s s' u, endow cfg nd l s = (s', Ok u) -> reserves s' = reserves s.
Proof.
  induction l as [|[[who c] v] l IH]; intros s s' u Hr; cbn [endow] in Hr; [by run_inv|].
  apply bind_Ok in Hr as (u1 & s1 & H1' & Hr). assert (s1 = s) as -> by (destruct (_ <=? _) in H1'; run_inv; done).
  apply bind_Ok in Hr as (u2 & s2 & H2' & Hr). apply mmodify_Ok in H2' as ->.
  destruct (mutate_account_pure cfg who c (fun d => mkAcc v (reserved d) (frozen d)) (fun _ s => s) (fun _ => tt) s
              ltac:(done)) as (s1 & Em & _ & _ & _ & Hrs).
  cbv beta in Hr. rewrite Em in Hr. cbn [fst] in Hr. run_inv. apply IH in Hr. by rewrite Hr.
Qed.
Lemma named_reachable_inv x l s : named_reachable x l s -> tokens_inv cfg s /\ backed s.
Proof.
  intros (s0 & u & Hl & Hg & Hsteps).
  assert (tokens_inv cfg s0) as Hi0 by (apply (reachable_inv cfg lookup x l); exists s0, u; split_and!; [done|done|apply rtc_refl]).
  assert (backed s0) as Hb0.
  { assert (reserves s0 = ∅) as Hr.
    { unfold genesis_build in Hg. destruct (bool_decide _); run_inv; [|done]. by apply endow_reserves in Hg. }
    intros c who. destruct (account_bounds s0 who c (ti_ledger _ _ Hi0)) as (_ & _ & Hre & _).
    unfold reserves_of. rewrite Hr, lookup_empty. cbn. lia. }
  clear Hg. induction Hsteps as [|s1 s2 s3 Hs _ IH]; [done|].
  apply IH; [exact (step_inv cfg lookup s1 s2 (named_step_step s1 s2 Hs) Hi0)|by eapply named_step_backed].
Qed.
End steps.

(** ** The provided methods over the tokens pallet *)
Section provided.
Context {R A : Type} `{Countable A} `{SystemRefs R A}.
Variable cfg : TokensConfig A CurrencyId.
Context {Source : Type} (lookup : Source -> res DispatchError A).
Abbreviation X := (Tokens R A CurrencyId).
Abbreviation nd := (no_dust (X := R) (A := A) (C := CurrencyId)).
#[local] Instance named_side : NamedMulti X A CurrencyId := tokens_named cfg.
Implicit Types s : X.

(** What a successful call leaves: the name holds [v], the difference came from the free
    balance of the account, and nothing else has moved. *)
Definition name_set (id : Z) (c : CurrencyId) (who : A) (v : Z) s s' : Prop :=
  let n := v - reserved_balance_named s id c who in
  moves (at_name id c who n) (at_ c who n) (at_ c who (- n)) (at_ c who n) s s'.
(** There is an entry or room for one. *)
Definition has_slot s (id : Z) (c : CurrencyId) (who : A) : bool :=
  let rs := reserves_of s who c in
  match find_reserve rs id with inl _ => true | inr _ => (length rs <? MaxReserves cfg)%nat end.

Lemma reserve_outcome c who v s s' r : 0 < v -> reserve cfg nd c who v s = (s', r) ->
  (exists u, r = Ok u /\ ensure_can_withdraw c who v s = Ok u) \/
  (s' = s /\ is_ok r = false /\ is_ok (ensure_can_withdraw c who v s) = false).
Proof.
  intros Hv. unfold reserve. rewrite (proj2 (Z.eqb_neq v 0)) by lia. unfold bind, mget, mlift.
  destruct (ensure_can_withdraw c who v s) as [[]|e|] eqn:Ee; cbn; intros [= <- <-]; [left|right..]; eauto.
Qed.
Lemma reserve_named_outcome id c who v s s' r : 0 < v -> reserve_named cfg nd id c who v s = (s', r) ->
  (is_ok r = has_slot s id c who && is_ok (ensure_can_withdraw c who v s)) /\ (is_ok r = false -> s' = s).
Proof.
  intros Hv. unfold reserve_named, has_slot. rewrite (proj2 (Z.eqb_neq v 0)) by lia. unfold bind at 1 2, mget, mlift.
  set (rs := reserves_of s who c). set (m := match find_reserve rs id with inl _ => _ | inr _ => _ end).
  set (slot := match find_reserve rs id with inl _ => true | inr _ => _ end).
  assert (is_ok m = slot /\ m <> Panic) as [Em Hp].
  { unfold m, slot. destruct (find_reserve rs id); [done|]. by destruct (_ <? _)%nat. }
  rewrite <- Em. destruct m as [rs'|e|]; cbn [is_ok andb]; [|by intros [= <- <-]..].
  unfold bind. destruct (reserve cfg nd c who v s) as [s1 r1] eqn:Er. apply reserve_outcome in Er; [|done].
  destruct Er as [(u & -> & Ew)|(-> & E1 & E2)].
  - rewrite Ew. cbn. by intros [= <- <-].
  - rewrite E2. destruct r1 as [u|e|]; [done|..]; cbn; by intros [= <- <-].
Qed.

(** C38. Named reserves are covered and set exactly.  In every ledger that genesis and
    operations lead to that take reserves out by name only, each account's list of named
    reserves is strictly sorted by name and within the limit, and together its names hold
    no more than its reserved balance.  There [ensure_reserved_named] succeeds exactly when
    the value is not above the current one, or the difference can be withdrawn and the name
    has an entry or there is room for one; it then leaves exactly the value under the name,
    moves the difference between the free and the reserved balance of the account, and
    changes no other name or balance; if it fails it changes nothing.
    [unreserve_all_named] leaves nothing under the name and returns what it freed, and
    [slash_all_reserved_named] leaves nothing under the name or of its amount in the
    reserve, with nothing left to slash. *)
Theorem named_reserves_exact x l s id c who v :
  named_reachable cfg x l s -> 0 <= v ->
  let current := reserved_balance_named s id c who in
  (forall c who, StronglySorted Z.lt (reserve_id <$> reserves_of s who c) /\
     (length (reserves_of s who c) <= MaxReserves cfg)%nat /\
     named_sum (reserves_of s who c) <= reserved_balance s c who) /\
  (let '(s', r) := nm_ensure_reserved_named id c who v s in
   is_ok r = (v <=? current) || has_slot s id c who && is_ok (ensure_can_withdraw c who (v - current) s) /\
   (is_ok r = true -> name_set id c who v s s') /\ (is_ok r = false -> s' = s)) /\
  (let '(s', freed) := nm_unreserve_all_named id c who s in freed = current /\ name_set id c who 0 s s') /\
  (let '(s', rest) := nm_slash_all_reserved_named id c who s in rest = 0 /\
     moves (at_name id c who (- current)) (at_ c who (- current)) (at_ c who 0) (at_ c who (- current)) s s').
Proof.
  intros Hre Hv current. destruct (named_reachable_inv cfg lookup x l s Hre) as [Hi Hb].
  pose proof (named_bound cfg s id c who Hi Hb) as Hn. fold current in Hn. split_and!.
  - intros c' who'. destruct (reserves_of_named cfg s who' c' Hi) as [_ Hs Hl]. split_and!; [done|done|apply Hb].
  - unfold nm_ensure_reserved_named. cbn [nm_reserved_balance_named named_side tokens_named]. fold current.
    destruct (Z.compare_spec current v) as [E|E|E].
    + rewrite (proj2 (Z.leb_le v current)) by lia. split_and!; [done| |done]. intros _. unfold name_set. fold current.
      replace (v - current) with 0 by lia. by apply moves_none.
    + rewrite (proj2 (Z.leb_gt v current)) by lia. rewrite sat_sub_exact by lia. cbn [nm_reserve_named orb].
      destruct (reserve_named cfg nd id c who (v - current) s) as [s' r] eqn:Er. cbn. rewrite Er.
      destruct (reserve_named_outcome id c who (v - current) s s' r ltac:(lia) Er) as [Ho Hf]. split_and!; [done| |done].
      intros Hok. destruct r as [[]|e|]; [|done..]. unfold name_set. fold current.
      by eapply reserve_named_moves; [lia|done|done|exact Er].
    + rewrite (proj2 (Z.leb_le v current)) by lia. rewrite sat_sub_exact by lia. cbn.
      destruct (unreserve_named cfg nd id c who (current - v) s) as [s' r] eqn:Er.
      apply unreserve_named_moves in Er as [_ Hm]; [|lia|done..]. fold current in Hm.
      rewrite Z.min_r in Hm by lia. split_and!; [done| |done]. intros _. unfold name_set. fold current.
      replace (v - current) with (- (current - v)) by lia. rewrite Z.opp_involutive. exact Hm.
  - unfold nm_unreserve_all_named. cbn. fold current. destruct (unreserve_named cfg nd id c who current s) as [s' r] eqn:Er.
    split; [done|]. apply unreserve_named_moves in Er as [_ Hm]; [|lia|done..]. fold current in Hm. rewrite Z.min_id in Hm.
    unfold name_set. fold current. rewrite Z.sub_0_l, Z.opp_involutive. exact Hm.
  - unfold nm_slash_all_reserved_named. cbn. fold current. destruct (slash_reserved_named cfg nd id c who current s) as [s' r] eqn:Er.
    apply slash_named_moves in Er as [-> Hm]; [|lia|done..]. fold current in Hm. rewrite Z.min_id in Hm. split; [lia|exact Hm].
Qed.
End provided.

(** ** One currency, and tuples *)
Section basics.
Context {X A C : Type} {N : NamedMulti X A C}.
(** The basic methods of one currency of a multi-currency system are the multi-currency
    methods at that currency. *)
Lemma basic_as_multi (c : C) id (a b : A) v st (x : X) :
  let N1 := named_currency_of N c in
  nb_ensure_reserved_named (N := N1) id a v x = nm_ensure_reserved_named id c a v x /\
  nb_unreserve_all_named (N := N1) id a x = nm_unreserve_all_named id c a x /\
  nb_slash_all_reserved_named (N := N1) id a x = nm_slash_all_reserved_named id c a x /\
  nb_repatriate_all_reserved_named (N := N1) id a b st x = nm_repatriate_all_reserved_named id c a b st x.
Proof. done. Qed.

(** A tuple moves everything of every part, in order, or changes nothing. *)
Lemma tuple_all_or_none (parts : list (A -> A -> M X DispatchError unit)) a b x x' r :
  tuple_transfer_all parts a b x = (x', r) ->
  match r with
  | Ok _ => exists xs, length xs = length parts /\ last (x :: xs) = Some x' /\
      forall i p y y', parts !! i = Some p -> (x :: xs) !! i = Some y -> xs !! i = Some y' -> p a b y = (y', Ok tt)
  | _ => x' = x
  end.
Proof.
  unfold tuple_transfer_all, transactional. destruct (transfer_all_in_turn parts a b x) as [y [[]|e|]] eqn:E;
    intros [= <- <-]; [|done..].
  revert x E. induction parts as [|p parts IH]; intros x E; cbn [transfer_all_in_turn] in E.
  - apply ret_Ok in E as [-> _]. exists []. split_and!; [done|done|]. intros i p y1 y2 Hp. by rewrite lookup_nil in Hp.
  - apply bind_Ok in E as ([] & x1 & Ep & E). destruct (IH x1 E) as (xs & Hl & Hlast & Hall). exists (x1 :: xs).
    split_and!; [cbn; by rewrite Hl|exact Hlast|]. intros [|i] q y1 y2 Hq Hy1 Hy2.
    + injection Hq as <-. injection Hy1 as <-. injection Hy2 as <-. exact Ep.
    + by eapply Hall.
Qed.
End basics.

(** ** Witnesses *)
Module NamedWitness.
Import TokensWitness.
Abbreviation REEF_ := (Token REEF).
Abbreviation WN := (Tokens unit Z CurrencyId).
Definition cfgN : TokensConfig Z CurrencyId := mkTokensConfig _ _ (fun _ => 0) 1 2 (fun _ => false).
Abbreviation ndN := (no_dust (X := unit) (A := Z) (C := CurrencyId)).
#[local] Instance sideN : NamedMulti WN Z CurrencyId := tokens_named cfgN.
Definition endowedN : list (Z * CurrencyId * Z) := [(1, REEF_, 100)].
Definition n0 : WN := (genesis_build cfgN ndN endowedN (no_tokens tt)).1.
Definition n1 : WN := (reserve_named cfgN ndN 5 REEF_ 1 30 n0).1.
Definition n2 : WN := (nm_ensure_reserved_named 5 REEF_ 1 45 n1).1.
Lemma n0_eq : genesis_build cfgN ndN endowedN (no_tokens tt) = (n0, Ok tt).
Proof. unfold n0. apply run_result. vm_compute. reflexivity. Qed.
Lemma n1_eq : reserve_named cfgN ndN 5 REEF_ 1 30 n0 = (n1, Ok tt).
Proof. unfold n1. apply run_result. vm_compute. reflexivity. Qed.
Lemma n2_eq : nm_ensure_reserved_named 5 REEF_ 1 45 n1 = (n2, Ok tt).
Proof. unfold n2. apply run_result. vm_compute. reflexivity. Qed.
Lemma n1_reachable : named_reachable cfgN tt endowedN n1.
Proof.
  exists n0, tt. split_and!; [repeat constructor; cbn; lia|exact n0_eq|].
  apply rtc_once. eapply ns_reserve_named; [|exact n1_eq]. lia.
Qed.
Lemma named_reserves_exact_witness : reserved_balance_named n2 5 REEF_ 1 = 45.
Proof.
  pose proof (named_reserves_exact cfgN lookup0 tt endowedN n1 5 REEF_ 1 45 n1_reachable ltac:(lia)) as (_ & Hx & _).
  change (nm_ensure_reserved_named (N := named_side cfgN) 5 REEF_ 1 45 n1) with (nm_ensure_reserved_named 5 REEF_ 1 45 n1) in Hx.
  rewrite n2_eq in Hx. exact (eq_trans (mo_named _ _ _ _ _ _ (proj1 (proj2 Hx) eq_refl) 5 REEF_ 1) ltac:(vm_compute; reflexivity)).
Defined.
(** When 20 of the 30 are released without their name, releasing the name frees only the
    remaining 10, but reports 30, and 20 stay under the name. *)
Definition n3 : WN := (unreserve cfgN ndN REEF_ 1 20 n1).1.
Example unnamed_release_misreported :
  (nm_unreserve_all_named 5 REEF_ 1 n3).2 = 30 /\
  free_balance (nm_unreserve_all_named 5 REEF_ 1 n3).1 REEF_ 1 = free_balance n3 REEF_ 1 + 10 /\
  reserved_balance_named (nm_unreserve_all_named 5 REEF_ 1 n3).1 5 REEF_ 1 = 20.
Proof. vm_compute. done. Qed.
End NamedWitness.
