(* ===== verification/Poc.v ===== *)
(** * Proof of commitment

    Models [src/modules/poc/src/lib.rs]: commitments of locked funds, the unbonding
    of funds, the candidacies for the technical council, the votes and their
    rewards, and the election at the end of an era.

    An account id, 32 bytes, is the number the bytes spell in big-endian order, so
    that the order of ids is the order of numbers.  The currency, the membership hook
    and the arithmetic of [Perbill] are outside the repository: the first is the class
    [Currency], the others are parameters. *)

From stdpp Require Import base gmap list strings sorting.
From Stdlib Require Import ZArith Lia.
From S2P Require Import Prelude Interfaces Primitives.

Local Open Scope Z_scope.

Module Poc.

Inductive LockState : Type :=
| Committed
| Unbonding (start : Z).

Inductive LockDuration : Type := OneMonth | OneYear | TenYears.

Record Commitment : Type := mkCommitment {
  state : LockState;
  duration : LockDuration;
  amount : Z;
  candidate : Z;
}.

Record Era : Type := mkEra { index : Z; start : Z }.

Inductive PocEvent : Type :=
| CandidateAdded (who : Z)
| CandidateRemoved (who : Z)
| CommittedEvent (who amount : Z)
| FundsAdded (who amount : Z)
| UnbondingStarted (who amount : Z)
| BondWithdrawn (who amount : Z)
| Voted (who candidate power : Z)
| VoterRewarded (era who reward : Z)
| Elected (era who weight : Z).

Definition AlreadyCandidate : DispatchError := Module "AlreadyCandidate".
Definition NotCandidate : DispatchError := Module "NotCandidate".
Definition CannotLeave : DispatchError := Module "CannotLeave".
Definition MaxCandidatesReached : DispatchError := Module "MaxCandidatesReached".
Definition AlreadyCommitted : DispatchError := Module "AlreadyCommitted".
Definition CommitmentNotFound : DispatchError := Module "CommitmentNotFound".
Definition NotCommitted : DispatchError := Module "NotCommitted".
Definition CannotWithdrawLocked : DispatchError := Module "CannotWithdrawLocked".
Definition InsufficientAmount : DispatchError := Module "InsufficientAmount".
Definition OverSubscribed : DispatchError := Module "OverSubscribed".
Definition NoCommitmentsFound : DispatchError := Module "NoCommitmentsFound".

(** The constants of the pallet's [Config]; the two rates are parts per billion. *)
Record PocConfig : Type := mkPocConfig {
  EraDuration : Z;
  NominatorAPY : Z;
  CouncilInflation : Z;
  CandidacyDeposit : Z;
  MinLockAmount : Z;
  TotalLockedCap : Z;
  MaxCandidates : Z;
  MaxMembers : Z;
}.

(** The storage of the pallet, its events, and the other pallets. *)
Record Poc (X : Type) : Type := mkPoc {
  current_era : Era;
  voter_rewards : gmap (Z * Z) Z;
  commitments : gmap Z Commitment;
  members : list Z;
  candidates : gmap Z Z;
  candidates_count : Z;
  locked_amount : Z;
  events : list PocEvent;
  rest : X;
}.
Arguments mkPoc {X}.
Arguments current_era {X}.
Arguments voter_rewards {X}.
Arguments commitments {X}.
Arguments members {X}.
Arguments candidates {X}.
Arguments candidates_count {X}.
Arguments locked_amount {X}.
Arguments events {X}.
Arguments rest {X}.

Section writes.
Context {X : Type}.
Implicit Types s : Poc X.
Definition set_era v s : Poc X :=
  mkPoc v (voter_rewards s) (commitments s) (members s) (candidates s) (candidates_count s)
        (locked_amount s) (events s) (rest s).
Definition set_rewards v s : Poc X :=
  mkPoc (current_era s) v (commitments s) (members s) (candidates s) (candidates_count s)
        (locked_amount s) (events s) (rest s).
Definition set_commitments v s : Poc X :=
  mkPoc (current_era s) (voter_rewards s) v (members s) (candidates s) (candidates_count s)
        (locked_amount s) (events s) (rest s).
Definition set_members v s : Poc X :=
  mkPoc (current_era s) (voter_rewards s) (commitments s) v (candidates s) (candidates_count s)
        (locked_amount s) (events s) (rest s).
Definition set_candidates v n s : Poc X :=
  mkPoc (current_era s) (voter_rewards s) (commitments s) (members s) v n
        (locked_amount s) (events s) (rest s).
Definition set_locked v s : Poc X :=
  mkPoc (current_era s) (voter_rewards s) (commitments s) (members s) (candidates s)
        (candidates_count s) v (events s) (rest s).
Definition deposit_event e s : Poc X :=
  mkPoc (current_era s) (voter_rewards s) (commitments s) (members s) (candidates s)
        (candidates_count s) (locked_amount s) (events s ++ [e]) (rest s).
Definition set_rest v s : Poc X :=
  mkPoc (current_era s) (voter_rewards s) (commitments s) (members s) (candidates s)
        (candidates_count s) (locked_amount s) (events s) v.
Definition on_rest {E A} (m : M X E A) : M (Poc X) E A :=
  fun s => let '(x, r) := m (rest s) in (set_rest x s, r).
End writes.

Definition is_committed (st : LockState) : bool :=
  match st with Committed => true | Unbonding _ => false end.

(** [voting_weight]; the product is unchecked. *)
Definition multiplier (d : LockDuration) : Z :=
  match d with OneMonth => 1 | OneYear => 10 | TenYears => 100 end.
Definition voting_weight (c : Commitment) : Z :=
  if is_committed (state c) then wrap_mul U128_MAX (amount c) (multiplier (duration c)) else 0.

(** The unbonding period in blocks, a [u32]. *)
Definition lock_period (d : LockDuration) : Z :=
  wrap_mul U32_MAX (match d with OneMonth => 30 | OneYear => 365 | TenYears => 3650 end) DAYS.

Section pallet.
Context {X : Type} `{Currency X Z}.
Variable cfg : PocConfig.
(** [T::MembershipChanged::set_members_sorted]: new and old members. *)
Variable set_members_sorted : list Z -> list Z -> X -> X.
(** [Perbill * balance] and [PerThing::from_rational]. *)
Variable perbill_mul : Z -> Z -> Z.
Variable from_rational : Z -> Z -> Z.

Abbreviation St := (Poc X).
Abbreviation MS := (M (Poc X) DispatchError).

(** ** Rewards *)
Definition proportion_of_era_to_year : Z := from_rational (EraDuration cfg) (365 * DAYS).

Definition era_voter_reward (c : Commitment) : Z :=
  if is_committed (state c) then
    match duration c with
    | OneMonth => 0
    | _ => perbill_mul (NominatorAPY cfg) (perbill_mul proportion_of_era_to_year (amount c))
    end
  else 0.

Definition era_council_rewards (s : St) : Z :=
  perbill_mul proportion_of_era_to_year (perbill_mul (CouncilInflation cfg) (total_issuance (rest s))).

(** ** Extrinsics *)
Definition start_candidacy (origin : Origin Z) : MS unit :=
  let! who := mlift (ensure_signed origin) in
  let! s := mget in
  do! mensure (negb (bool_decide (is_Some (candidates s !! who)))) AlreadyCandidate in
  let n_candidates := candidates_count s in
  do! mensure (n_candidates <? MaxCandidates cfg) MaxCandidatesReached in
  let deposit := CandidacyDeposit cfg in
  do! on_rest (reserve who deposit) in
  do! mmodify (fun s => set_candidates (<[who := deposit]> (candidates s))
                          (sat_add U32_MAX n_candidates 1) s) in
  mmodify (deposit_event (CandidateAdded who)).

Definition stop_candidacy (origin : Origin Z) : MS unit :=
  let! who := mlift (ensure_signed origin) in
  let! s := mget in
  do! mensure (bool_decide (is_Some (candidates s !! who))) NotCandidate in
  do! mensure (negb (binary_search (members s) who)) CannotLeave in
  let deposit := default 0 (candidates s !! who) in
  do! on_rest (fun x => let '(x', _) := unreserve who deposit x in (x', Ok tt)) in
  do! mmodify (fun s => set_candidates (delete who (candidates s))
                          (sat_sub (candidates_count s) 1) s) in
  mmodify (deposit_event (CandidateRemoved who)).

Definition commit (origin : Origin Z) (amt : Z) (dur : LockDuration) (cand : Z) : MS unit :=
  transactional (
    let! who := mlift (ensure_signed origin) in
    let! s := mget in
    do! mensure (negb (bool_decide (is_Some (commitments s !! who)))) AlreadyCommitted in
    do! mensure (MinLockAmount cfg <=? amt) InsufficientAmount in
    let locked_total := sat_add U128_MAX (locked_amount s) amt in
    do! mensure (locked_total <? TotalLockedCap cfg) OverSubscribed in
    do! on_rest (withdraw who amt KeepAlive) in
    do! mmodify (set_locked locked_total) in
    do! mmodify (fun s => set_commitments
                  (<[who := mkCommitment Committed dur amt cand]> (commitments s)) s) in
    mmodify (deposit_event (CommittedEvent who amt))).

Definition add_funds (origin : Origin Z) (amt : Z) : MS unit :=
  transactional (
    let! who := mlift (ensure_signed origin) in
    let! s := mget in
    do! mensure (bool_decide (is_Some (commitments s !! who))) CommitmentNotFound in
    let! c := mlift (ok_or (commitments s !! who) NoCommitmentsFound) in
    do! mensure (0 <=? amt) InsufficientAmount in
    let locked_total := sat_add U128_MAX (locked_amount s) amt in
    do! mensure (locked_total <? TotalLockedCap cfg) OverSubscribed in
    do! on_rest (withdraw who amt KeepAlive) in
    let! amt' := mlift (ok_or (checked_add U128_MAX (amount c) amt) (Other "currency overflow")) in
    do! mmodify (set_locked locked_total) in
    do! mmodify (fun s => set_commitments
                  (<[who := mkCommitment Committed (duration c) amt' (candidate c)]> (commitments s)) s) in
    mmodify (deposit_event (FundsAdded who amt))).

Definition unbond (origin : Origin Z) (current_block : Z) : MS unit :=
  let! who := mlift (ensure_signed origin) in
  let! s := mget in
  do! mensure (bool_decide (is_Some (commitments s !! who))) CommitmentNotFound in
  let! c := mlift (ok_or (commitments s !! who) NoCommitmentsFound) in
  do! mensure (is_committed (state c)) NotCommitted in
  do! mmodify (fun s => set_commitments
                (<[who := mkCommitment (Unbonding current_block) (duration c) (amount c) (candidate c)]>
                   (commitments s)) s) in
  mmodify (deposit_event (UnbondingStarted who (amount c))).

Definition withdraw_bond (origin : Origin Z) (current_block : Z) : MS unit :=
  transactional (
    let! who := mlift (ensure_signed origin) in
    let! s := mget in
    do! mensure (bool_decide (is_Some (commitments s !! who))) CommitmentNotFound in
    let! c := mlift (ok_or (commitments s !! who) NoCommitmentsFound) in
    do! mensure (negb (is_committed (state c))) AlreadyCommitted in
    match state c with
    | Unbonding start_block =>
        if wrap_add U32_MAX start_block (lock_period (duration c)) <=? current_block then
          do! on_rest (deposit_into_existing who (amount c)) in
          do! mmodify (fun s => set_commitments (delete who (commitments s)) s) in
          do! mmodify (fun s => set_locked (sat_sub (locked_amount s) (amount c)) s) in
          mmodify (deposit_event (BondWithdrawn who (amount c)))
        else throw CannotWithdrawLocked
    | Committed => throw CannotWithdrawLocked
    end).

Definition vote_candidate (origin : Origin Z) (cand : Z) : MS unit :=
  transactional (
    let! who := mlift (ensure_signed origin) in
    let! s := mget in
    do! mensure (bool_decide (is_Some (commitments s !! who))) CommitmentNotFound in
    let! c := mlift (ok_or (commitments s !! who) NoCommitmentsFound) in
    do! mensure (is_committed (state c)) NotCommitted in
    let c' := mkCommitment (state c) (duration c) (amount c) cand in
    do! mwhen (negb (candidate c =? cand))
          (do! mmodify (fun s => set_commitments (<[who := c']> (commitments s)) s) in
           mmodify (deposit_event (Voted who cand (voting_weight c')))) in
    let era_reward := era_voter_reward c' in
    mwhen (0 <? era_reward)
      (let! s := mget in
       let era := index (current_era s) in
       mwhen (negb (bool_decide (is_Some (voter_rewards s !! (era, who)))))
         (do! mmodify (fun s => set_rewards (<[(era, who) := era_reward]> (voter_rewards s)) s) in
          do! on_rest (deposit_into_existing who era_reward) in
          mmodify (deposit_event (VoterRewarded era who era_reward))))).

(** ** The election *)

(** The votes per running candidate; the order of the iteration is that of the map. *)
Definition count_vote (s : St) (counter : gmap Z Z) (c : Commitment) : gmap Z Z :=
  if bool_decide (is_Some (candidates s !! candidate c)) then
    match counter !! candidate c with
    | Some acc_w => <[candidate c := sat_add U128_MAX (voting_weight c) acc_w]> counter
    | None => <[candidate c := voting_weight c]> counter
    end
  else counter.
Definition tally (s : St) : gmap Z Z :=
  foldl (count_vote s) ∅ (map_to_list (commitments s)).*2.

(** [Vec::from_iter] of a [BTreeMap] is in the order of the keys. *)
Definition by_key (a b : Z * Z) : bool := a.1 <=? b.1.
Definition by_weight (a b : Z * Z) : bool := b.2 <=? a.2.
Definition ranking (counter : gmap Z Z) : list (Z * Z) :=
  sort_by by_weight (sort_by by_key (map_to_list counter)).

Definition elected (s : St) : list (Z * Z) :=
  take (Z.to_nat (MaxMembers cfg)) (ranking (tally s)).

Fixpoint reward_winners (winners : list Z) (reward : Z) (s : St) : St :=
  match winners with
  | [] => s
  | w :: ws => reward_winners ws reward (on_rest (deposit_into_existing w reward) s).1
  end.

(** The election and its rewards; [s] is the storage with the new era. *)
Definition install_winners (new_index : Z) (s : St) : St :=
  let top := elected s in
  let s1 := foldl (fun s p => deposit_event (Elected new_index p.1 p.2) s) s top in
  let winners := sort_by Z.leb top.*1 in
  match winners with
  | [] => s1
  | _ =>
      let s2 := set_rest (set_members_sorted winners (members s1) (rest s1)) s1 in
      let s3 := set_members winners s2 in
      let rewards := era_council_rewards s3 in
      let reward := default 0 (checked_div rewards (wrap U32_MAX (Z.of_nat (length winners)))) in
      if 0 <? reward then reward_winners winners reward s3 else s3
  end.

Definition on_initialize (n : Z) (s : St) : St :=
  let era := current_era s in
  if wrap_add U32_MAX (start era) (EraDuration cfg) <=? n then
    let new_index := sat_add U32_MAX (index era) 1 in
    let s1 := set_era (mkEra new_index n) s in
    let s2 := set_rewards (filter (fun kv => kv.1.1 <> index era) (voter_rewards s1)) s1 in
    install_winners new_index s2
  else s.
End pallet.

(** ** The invariant *)
Section invariant.
Context {X : Type} `{Currency X Z}.
Variable cfg : PocConfig.
Variable set_members_sorted : list Z -> list Z -> X -> X.
Variable perbill_mul : Z -> Z -> Z.
Variable from_rational : Z -> Z -> Z.

(** The constants fit their types. *)
Definition config_ok : Prop :=
  0 <= MinLockAmount cfg /\ TotalLockedCap cfg <= U128_MAX /\
  0 <= MaxCandidates cfg <= U32_MAX /\ 0 <= MaxMembers cfg <= U32_MAX.

(** The total is the sum of the commitments and below the cap; the count is the
    number of candidates and within the limit; the members are in order, are
    candidates, and no more than the seats. *)
Record poc_inv (s : Poc X) : Prop := mkPocInv {
  inv_locked : locked_amount s = map_sum amount (commitments s);
  inv_amounts who c : commitments s !! who = Some c -> 0 <= amount c;
  inv_cap : locked_amount s = 0 \/ locked_amount s < TotalLockedCap cfg;
  inv_count : candidates_count s = Z.of_nat (size (candidates s));
  inv_max : candidates_count s <= MaxCandidates cfg;
  inv_deposit who d : candidates s !! who = Some d -> d = CandidacyDeposit cfg;
  inv_sorted : StronglySorted Z.lt (members s);
  inv_members m : m ∈ members s -> is_Some (candidates s !! m);
  inv_seats : Z.of_nat (length (members s)) <= MaxMembers cfg;
}.

Lemma poc_inv_frame (s s' : Poc X) :
  commitments s' = commitments s -> members s' = members s -> candidates s' = candidates s ->
  candidates_count s' = candidates_count s -> locked_amount s' = locked_amount s ->
  poc_inv s -> poc_inv s'.
Proof. intros E1 E2 E3 E4 E5 [? ? ? ? ? ? ? ? ?]. split; rewrite ?E1, ?E2, ?E3, ?E4, ?E5 in *; try done. Qed.

(** Commitments and their total change together. *)
Lemma poc_inv_commitments (s s' : Poc X) :
  members s' = members s -> candidates s' = candidates s -> candidates_count s' = candidates_count s ->
  locked_amount s' = map_sum amount (commitments s') ->
  (forall who c, commitments s' !! who = Some c -> 0 <= amount c) ->
  locked_amount s' = 0 \/ locked_amount s' < TotalLockedCap cfg ->
  poc_inv s -> poc_inv s'.
Proof. intros E2 E3 E4 ? ? ? [? ? ? ? ? ? ? ? ?]. split; rewrite ?E2, ?E3, ?E4 in *; try done. Qed.

Lemma poc_rest_frame {E A} (m : M X E A) (s s' : Poc X) r :
  on_rest m s = (s', r) -> s' = set_rest (rest s') s.
Proof. unfold on_rest. destruct (m (rest s)). by intros [= <- <-]. Qed.

(** Rewrites the states that calls into the currency leave. *)
Ltac frames :=
  repeat match goal with
  | Hf : on_rest _ _ = (_, _) |- _ => apply poc_rest_frame in Hf; rewrite Hf in *; clear Hf
  end.

Lemma amounts_insert (s : Poc X) who c :
  (forall w c, commitments s !! w = Some c -> 0 <= amount c) -> 0 <= amount c ->
  forall w c', <[who := c]> (commitments s) !! w = Some c' -> 0 <= amount c'.
Proof. intros Ha Hc w c' [[_ <-]|[_ Hw]]%lookup_insert_Some; [done|by eapply Ha]. Qed.

Lemma commit_inv o amt dur cand (s s' : Poc X) :
  config_ok -> poc_inv s -> commit cfg o amt dur cand s = (s', Ok tt) -> poc_inv s'.
Proof.
  intros (Hm & Hcap & _) Hi. unfold commit. intros Hrun. run_inv. frames. simpl in *.
  destruct Hi as [Hl Ha Hc ? ? ? ? ? ?].
  match goal with Hcp : (sat_add _ _ _ <? _) = true |- _ =>
    apply sat_add_capped in Hcp as [Heq Hlt]; [|done] end.
  assert (0 <= amt) by lia. rewrite Heq in *.
  eapply (poc_inv_commitments s); simpl; try done.
  - rewrite map_sum_insert_new, Hl by done. apply Z.add_comm.
  - apply amounts_insert; [exact Ha|done].
  - by right.
Qed.

Lemma add_funds_inv o amt (s s' : Poc X) :
  config_ok -> poc_inv s -> add_funds cfg o amt s = (s', Ok tt) -> poc_inv s'.
Proof.
  intros (Hm & Hcap & _) Hi. unfold add_funds. intros Hrun. run_inv. frames. simpl in *.
  destruct Hi as [Hl Ha Hc ? ? ? ? ? ?].
  match goal with Hc : commitments s !! ?w = Some ?c |- _ =>
    assert (0 <= amount c) by (by eapply Ha); rename Hc into Hcom; rename c into com; rename w into wh end.
  match goal with Hadd : checked_add _ _ _ = Some _ |- _ =>
    apply checked_add_Some in Hadd as [-> _] end.
  match goal with Hcp : (sat_add _ _ _ <? _) = true |- _ =>
    apply sat_add_capped in Hcp as [Heq Hlt]; [|done] end. rewrite Heq in *.
  eapply (poc_inv_commitments s); simpl; try done.
  - rewrite (map_sum_insert _ _ _ _ com), Hl by done. simpl. lia.
  - apply amounts_insert; [exact Ha|simpl; lia].
  - by right.
Qed.

(** A commitment is replaced by one of the same amount. *)
Lemma poc_inv_replace (s s' : Poc X) who c c' :
  commitments s !! who = Some c ->
  commitments s' = <[who := c']> (commitments s) -> amount c' = amount c ->
  members s' = members s -> candidates s' = candidates s -> candidates_count s' = candidates_count s ->
  locked_amount s' = locked_amount s -> poc_inv s -> poc_inv s'.
Proof.
  intros Hc E1 Ha E2 E3 E4 E5 Hi. destruct Hi as [Hl Ham Hcap ? ? ? ? ? ?].
  eapply (poc_inv_commitments s); try done.
  - rewrite E1, E5, (map_sum_insert _ _ _ _ c) by done. lia.
  - rewrite E1. apply amounts_insert; [exact Ham|]. rewrite Ha. by eapply Ham.
  - by rewrite E5.
Qed.

Lemma unbond_inv o n (s s' : Poc X) r :
  poc_inv s -> unbond o n s = (s', r) -> poc_inv s'.
Proof.
  intros Hi. unfold unbond, bind, mlift, mget, mensure, mmodify.
  destruct (ensure_signed o) as [who|e|]; [|by intros [= <- <-]..].
  destruct (commitments s !! who) as [c|] eqn:Ec; [|by intros [= <- <-]]. simpl.
  destruct (is_committed (state c)); [|by intros [= <- <-]]. simpl. intros [= <- <-].
  by eapply (poc_inv_replace s _ who c); [..|exact Hi].
Qed.

Lemma withdraw_inv o n (s s' : Poc X) :
  poc_inv s -> withdraw_bond o n s = (s', Ok tt) -> poc_inv s'.
Proof.
  intros Hi. unfold withdraw_bond. intros Hrun. run_inv.
  match goal with Hc : commitments s !! ?w = Some ?c |- _ =>
    rename Hc into Hcom; rename c into com; rename w into wh end.
  destruct (state com) as [|st]; [by run_inv|]. destruct (_ <=? _); [|by run_inv].
  run_inv. frames. simpl in *. destruct Hi as [Hl Ha Hc ? ? ? ? ? ?].
  pose proof (map_sum_lookup_le amount (commitments s) wh com Ha Hcom) as Hle.
  pose proof (Ha _ _ Hcom). rewrite <- Hl in Hle.
  eapply (poc_inv_commitments s); simpl; try done.
  - rewrite (map_sum_delete _ _ _ com), sat_sub_exact, Hl by done. done.
  - intros w c [_ Hw]%lookup_delete_Some. by eapply Ha.
  - rewrite sat_sub_exact by done. lia.
Qed.

Lemma vote_inv o cand (s s' : Poc X) :
  poc_inv s -> vote_candidate cfg perbill_mul from_rational o cand s = (s', Ok tt) -> poc_inv s'.
Proof.
  intros Hi. unfold vote_candidate. intros Hrun. run_inv.
  match goal with Hc : commitments s !! ?w = Some ?c |- _ =>
    rename Hc into Hcom; rename c into com; rename w into wh end.
  match goal with Hw : mwhen _ _ s = (?s1, Ok _) |- _ =>
    assert (poc_inv s1) as Hi1;
    [unfold mwhen in Hw; destruct (negb (candidate com =? cand)); run_inv; [|done];
     by eapply (poc_inv_replace s _ wh com); [..|exact Hi]|] end.
  unfold mwhen in Hrun. destruct (0 <? _); run_inv; [|done].
  unfold mwhen in Hrun. destruct (bool_decide _); simpl in Hrun; run_inv; [done|]. frames. simpl in *.
  by eapply poc_inv_frame; [..|exact Hi1].
Qed.

Lemma start_inv o (s s' : Poc X) r :
  config_ok -> poc_inv s -> start_candidacy cfg o s = (s', r) -> poc_inv s'.
Proof.
  intros (_ & _ & [? Hmax] & _) Hi.
  unfold start_candidacy, bind, mlift, mget, mensure, mmodify, rensure.
  destruct (ensure_signed o) as [who|e|]; [|by intros [= <- <-]..].
  destruct (candidates s !! who) as [d|] eqn:Ec; simpl; [by intros [= <- <-]|].
  destruct (Z.ltb_spec (candidates_count s) (MaxCandidates cfg)); [|by intros [= <- <-]].
  destruct (on_rest _ s) as [s1 r1] eqn:Ef. apply poc_rest_frame in Ef.
  destruct r1; intros [= <- <-]; rewrite Ef; [|by eapply poc_inv_frame; [..|exact Hi]..].
  destruct Hi as [Hl Ha Hc Hn ? Hd ? Hm ?]. split; simpl; try done.
  - rewrite map_size_insert_None, sat_add_exact by (done || lia). lia.
  - rewrite sat_add_exact by lia. lia.
  - intros w d [[_ <-]|[_ Hw]]%lookup_insert_Some; [done|by eapply Hd].
  - intros m Hin. destruct (decide (m = who)) as [->|]; [by rewrite lookup_insert_eq|].
    rewrite lookup_insert_ne by done. by apply Hm.
Qed.

Lemma stop_inv o (s s' : Poc X) r :
  poc_inv s -> stop_candidacy o s = (s', r) -> poc_inv s'.
Proof.
  intros Hi. unfold stop_candidacy, bind, mlift, mget, mensure, mmodify, rensure.
  destruct (ensure_signed o) as [who|e|]; [|by intros [= <- <-]..].
  destruct (candidates s !! who) as [d|] eqn:Ec; simpl; [|by intros [= <- <-]].
  destruct (binary_search (members s) who) eqn:Eb; simpl; [by intros [= <- <-]|].
  destruct (on_rest _ s) as [s1 r1] eqn:Ef. apply poc_rest_frame in Ef.
  destruct r1; intros [= <- <-]; rewrite Ef; [|by eapply poc_inv_frame; [..|exact Hi]..].
  destruct Hi as [Hl Ha Hc Hn ? Hd Hs Hm ?].
  assert (size (candidates s) = S (size (delete who (candidates s)))) as Hsz.
  { rewrite <- (insert_delete_id _ _ _ Ec) at 1. by rewrite map_size_insert_None by apply lookup_delete_eq. }
  split; simpl; try done.
  - rewrite sat_sub_exact by lia. lia.
  - rewrite sat_sub_exact by lia. lia.
  - intros w d' [_ Hw]%lookup_delete_Some. by eapply Hd.
  - intros m Hin. rewrite lookup_delete_ne; [by apply Hm|]. intros <-.
    apply (binary_search_spec _ _ Hs) in Hin. congruence.
Qed.

(** ** The count of the votes *)

(** The weight that the commitments of a list give to [cd]. *)
Definition vote_weight (cd : Z) (c : Commitment) : Z :=
  if candidate c =? cd then voting_weight c else 0.
Definition votes (s : Poc X) (cd : Z) : Z := map_sum (vote_weight cd) (commitments s).
Definition list_votes (cd : Z) (l : list Commitment) : Z := foldr (fun c acc => vote_weight cd c + acc) 0 l.

Lemma voting_weight_range c : in_u U128_MAX (voting_weight c).
Proof.
  unfold voting_weight. destruct (is_committed _); [|by vm_compute].
  apply wrap_range. by vm_compute.
Qed.

Lemma list_votes_nonneg cd l : 0 <= list_votes cd l.
Proof.
  induction l as [|c l IH]; simpl; [done|]. unfold vote_weight.
  pose proof (voting_weight_range c) as [? _]. destruct (_ =? _); lia.
Qed.

(** What the count holds for a candidate after the commitments of [l]. *)
Definition counted (s : Poc X) (l : list Commitment) (cd : Z) (before : option Z) : option Z :=
  if bool_decide (is_Some (candidates s !! cd)) && bool_decide (Exists (fun c => candidate c = cd) l)
  then Some (Z.min (default 0 before + list_votes cd l) U128_MAX)
  else before.

Lemma list_votes_none cd l : ¬ Exists (fun c => candidate c = cd) l -> list_votes cd l = 0.
Proof.
  induction l as [|c l IH]; intros Hne; [done|]. rewrite Exists_cons in Hne. simpl. unfold vote_weight at 1.
  destruct (Z.eqb_spec (candidate c) cd); [tauto|]. rewrite IH by tauto. lia.
Qed.

Lemma sat_chain mx a w v : 0 <= w -> 0 <= v -> Z.min (Z.min (w + a) mx + v) mx = Z.min (a + (w + v)) mx.
Proof. lia. Qed.

Lemma if_Some {A} (b : bool) (x y : A) : (if b then Some x else Some y) = Some (if b then x else y).
Proof. by destruct b. Qed.

Lemma foldl_count (s : Poc X) l cnt cd :
  foldl (count_vote s) cnt l !! cd = counted s l cd (cnt !! cd).
Proof.
  revert cnt. induction l as [|c l IH]; intros cnt; cbn [foldl].
  - unfold counted. rewrite (bool_decide_eq_false_2 (Exists _ [])) by (intros Hex; inversion Hex).
    by rewrite andb_false_r.
  - rewrite IH. unfold counted, count_vote.
    pose proof (voting_weight_range c) as [Hw0 Hw1]. pose proof (list_votes_nonneg cd l) as Hv0.
    replace (list_votes cd (c :: l))
      with ((if candidate c =? cd then voting_weight c else 0) + list_votes cd l) by done.
    destruct (Z.eqb_spec (candidate c) cd) as [<-|Hne].
    + destruct (bool_decide (is_Some (candidates s !! candidate c))) eqn:Ec; simpl; [|done].
      rewrite (bool_decide_eq_true_2 (Exists _ (c :: l))) by (by apply Exists_cons; left).
      destruct (cnt !! candidate c) as [acc|] eqn:Ea; rewrite lookup_insert_eq, if_Some; f_equal; simpl;
        destruct (bool_decide (Exists _ l)) eqn:Ex.
      * unfold sat_add. by apply sat_chain.
      * apply bool_decide_eq_false in Ex. rewrite (list_votes_none _ _ Ex). unfold sat_add.
        f_equal. lia.
      * f_equal.
      * apply bool_decide_eq_false in Ex. rewrite (list_votes_none _ _ Ex). rewrite Z.min_l by lia. lia.
    + assert (Hl : forall m : gmap Z Z, match m !! candidate c with
          | Some a => <[candidate c := sat_add U128_MAX (voting_weight c) a]> m
          | None => <[candidate c := voting_weight c]> m end !! cd = m !! cd).
      { intros m. destruct (m !! candidate c); by rewrite lookup_insert_ne. }
      destruct (bool_decide (is_Some (candidates s !! candidate c))); rewrite ?Hl;
        rewrite (bool_decide_ext (Exists (fun c0 => candidate c0 = cd) (c :: l))
                   (Exists (fun c0 => candidate c0 = cd) l)) by (rewrite Exists_cons; naive_solver);
        by rewrite Z.add_0_l.
Qed.

Lemma list_votes_map cd (m : gmap Z Commitment) :
  list_votes cd (map_to_list m).*2 = map_sum (vote_weight cd) m.
Proof.
  unfold map_sum, map_ksum. rewrite map_fold_foldr.
  generalize (map_to_list m). intros l. induction l as [|[k v] l IH]; [done|].
  cbn. cbn in IH. by rewrite <- IH.
Qed.

(** A candidate in the count is running and has the sum of its votes, at most
    [2^128 - 1]; every running candidate that a commitment names is in the count. *)
Lemma tally_spec (s : Poc X) cd :
  tally s !! cd =
    if bool_decide (is_Some (candidates s !! cd)) &&
       bool_decide (map_Exists (fun _ c => candidate c = cd) (commitments s))
    then Some (Z.min (votes s cd) U128_MAX) else None.
Proof.
  unfold tally. rewrite foldl_count. unfold counted. rewrite lookup_empty, list_votes_map. simpl.
  fold (votes s cd).
  rewrite (bool_decide_ext (Exists (fun c => candidate c = cd) (map_to_list (commitments s)).*2)
             (map_Exists (fun _ c => candidate c = cd) (commitments s))); [done|].
  rewrite Exists_exists. setoid_rewrite list_elem_of_fmap. split.
  - intros (c & ([k c'] & -> & Hin%elem_of_map_to_list) & Hc). by exists k, c'.
  - intros (who & c & Hw & Hc). exists c. split; [|done]. exists (who, c).
    by rewrite elem_of_map_to_list.
Qed.

(** ** The ranking *)
Lemma by_weight_total x y : by_weight x y = true \/ by_weight y x = true.
Proof. unfold by_weight. lia. Qed.
Lemma by_weight_trans x y z : by_weight x y = true -> by_weight y z = true -> by_weight x z = true.
Proof. unfold by_weight. lia. Qed.
Lemma by_key_total x y : by_key x y = true \/ by_key y x = true.
Proof. unfold by_key. lia. Qed.
Lemma by_key_trans x y z : by_key x y = true -> by_key y z = true -> by_key x z = true.
Proof. unfold by_key. lia. Qed.

Lemma ranking_perm cnt : ranking cnt ≡ₚ map_to_list cnt.
Proof. unfold ranking. by rewrite !sort_by_perm. Qed.

(** Heavier first, and the smaller account first among equals. *)
Lemma ranking_sorted cnt :
  StronglySorted (stable_order by_weight (fun a b => by_key a b = true)) (ranking cnt).
Proof.
  apply sort_by_stable; [apply by_weight_total|apply by_weight_trans|].
  apply sort_by_sorted; [apply by_key_total|apply by_key_trans].
Qed.

Lemma ranking_NoDup cnt : NoDup (ranking cnt).*1.
Proof. rewrite ranking_perm. apply NoDup_fst_map_to_list. Qed.

Lemma ranking_elem cnt cd w : (cd, w) ∈ ranking cnt <-> cnt !! cd = Some w.
Proof. rewrite ranking_perm. apply elem_of_map_to_list. Qed.

(** The members an election installs. *)
Definition winners_of (s : Poc X) : list Z := sort_by Z.leb (elected cfg s).*1.

Lemma winners_perm s : winners_of s ≡ₚ (elected cfg s).*1.
Proof. apply sort_by_perm. Qed.

Lemma winners_sorted s : StronglySorted Z.lt (winners_of s).
Proof.
  assert (StronglySorted (fun x y => (x <=? y) = true) (winners_of s)) as Hle
    by (apply sort_by_sorted; lia).
  assert (NoDup (winners_of s)) as Hnd.
  { rewrite winners_perm. unfold elected. rewrite fmap_take.
    apply (NoDup_app (take (Z.to_nat (MaxMembers cfg)) (ranking (tally s)).*1)
             (drop (Z.to_nat (MaxMembers cfg)) (ranking (tally s)).*1)).
    rewrite take_drop. apply ranking_NoDup. }
  induction Hle as [|x l Hl IH Hx]; [constructor|]. apply NoDup_cons in Hnd as [Hn Hnd].
  constructor; [by apply IH|]. rewrite Forall_forall in Hx |- *. intros y Hy.
  specialize (Hx y Hy). destruct (decide (x = y)) as [->|]; [done|lia].
Qed.

Lemma winners_elem s m :
  m ∈ winners_of s <-> exists w, (m, w) ∈ elected cfg s.
Proof.
  rewrite winners_perm, list_elem_of_fmap. split.
  - intros ([m' w] & -> & Hin). by exists w.
  - intros [w Hin]. by exists (m, w).
Qed.

(** Who is elected has at least the votes of who is not. *)
Lemma elected_best s m w cd v :
  (m, w) ∈ elected cfg s -> tally s !! cd = Some v -> ¬ cd ∈ winners_of s ->
  v <= w /\ (v = w -> m <= cd).
Proof.
  intros Hm Hc Hn. apply ranking_elem in Hc. revert Hm Hc. unfold elected in *.
  rewrite <- (take_drop (Z.to_nat (MaxMembers cfg)) (ranking (tally s))) at 2.
  intros Hm [Hc|Hc]%elem_of_app; [destruct Hn; apply winners_elem; by exists v|].
  pose proof (ranking_sorted (tally s)) as Hs.
  rewrite <- (take_drop (Z.to_nat (MaxMembers cfg)) (ranking (tally s))) in Hs.
  destruct (StronglySorted_app_1_elem_of _ _ _ _ _ Hs Hm Hc) as [Hw Hk].
  unfold by_weight, by_key in *. simpl in *. split; [lia|]. intros ->. assert (w <=? w = true) by lia. lia.
Qed.

(** What an election changes. *)
Lemma foldl_deposit_frame idx l (s : Poc X) :
  let s' := foldl (fun s p => deposit_event (Elected idx p.1 p.2) s) s l in
  commitments s' = commitments s /\ members s' = members s /\ candidates s' = candidates s /\
  candidates_count s' = candidates_count s /\ locked_amount s' = locked_amount s.
Proof. revert s. induction l as [|p l IH]; intros s; simpl; [done|]. exact (IH (deposit_event (Elected idx p.1 p.2) s)). Qed.

Lemma reward_winners_frame ws rw (s : Poc X) : reward_winners ws rw s = set_rest (rest (reward_winners ws rw s)) s.
Proof.
  revert s. induction ws as [|w ws IH]; intros s; simpl; [by destruct s|].
  rewrite IH. destruct (on_rest _ s) as [s1 r1] eqn:E. apply poc_rest_frame in E. simpl. by rewrite E.
Qed.

Abbreviation initialize := (on_initialize cfg set_members_sorted perbill_mul from_rational).
Definition era_over (n : Z) (s : Poc X) : bool :=
  wrap_add U32_MAX (start (current_era s)) (EraDuration cfg) <=? n.

Lemma initialize_frame n (s : Poc X) :
  let s' := initialize n s in
  commitments s' = commitments s /\ candidates s' = candidates s /\
  candidates_count s' = candidates_count s /\ locked_amount s' = locked_amount s /\
  members s' = if era_over n s then
                 match winners_of s with [] => members s | _ => winners_of s end
               else members s.
Proof.
  unfold on_initialize, era_over. destruct (_ <=? n); [|done]. unfold install_winners.
  set (s2 := set_rewards _ _).
  assert (elected cfg s2 = elected cfg s) as -> by done.
  pose proof (foldl_deposit_frame (sat_add U32_MAX (index (current_era s)) 1) (elected cfg s) s2) as Hf.
  cbv zeta in *. destruct Hf as (F1 & F2 & F3 & F4 & F5).
  set (s3 := foldl _ s2 _) in *. fold (winners_of s). simpl in F1, F2, F3, F4, F5.
  destruct (winners_of s) as [|x ws] eqn:Ew; [done|].
  destruct (0 <? _); [|simpl; by split_and!].
  match goal with |- context [reward_winners ?l ?r ?s0] => rewrite (reward_winners_frame l r s0) end.
  simpl. by split_and!.
Qed.

Lemma initialize_inv n s : config_ok -> poc_inv s -> poc_inv (initialize n s).
Proof.
  intros (_ & _ & _ & Hmm) Hi. destruct (initialize_frame n s) as (E1 & E3 & E4 & E5 & E2).
  destruct Hi as [Hl Ha Hc Hn ? Hd Hs Hm Hsz].
  assert (Hw : StronglySorted Z.lt (members (initialize n s)) /\
    (forall m, m ∈ members (initialize n s) -> is_Some (candidates s !! m)) /\
    Z.of_nat (length (members (initialize n s))) <= MaxMembers cfg).
  { rewrite E2. destruct (era_over n s); [|done].
    destruct (winners_of s) as [|x ws] eqn:Ew; [done|]. rewrite <- Ew. split_and!.
    - apply winners_sorted.
    - intros m [w Hin]%winners_elem.
      assert ((m, w) ∈ ranking (tally s)) as Hr%ranking_elem
        by (rewrite <- (take_drop (Z.to_nat (MaxMembers cfg))); apply elem_of_app; by left).
      rewrite tally_spec in Hr. destruct (bool_decide (is_Some _)) eqn:Eb; [|discriminate].
      by apply bool_decide_eq_true in Eb.
    - rewrite winners_perm, length_fmap. unfold elected. rewrite length_take. lia. }
  destruct Hw as (W1 & W2 & W3).
  split; rewrite ?E1, ?E3, ?E4, ?E5 in *; done.
Qed.

(** ** Reachable states *)
Inductive poc_step (s s' : Poc X) : Prop :=
| step_start o r : start_candidacy cfg o s = (s', r) -> poc_step s s'
| step_stop o r : stop_candidacy o s = (s', r) -> poc_step s s'
| step_commit o amt dur cand r : commit cfg o amt dur cand s = (s', r) -> poc_step s s'
| step_add_funds o amt r : add_funds cfg o amt s = (s', r) -> poc_step s s'
| step_unbond o n r : unbond o n s = (s', r) -> poc_step s s'
| step_withdraw o n r : withdraw_bond o n s = (s', r) -> poc_step s s'
| step_vote o cand r : vote_candidate cfg perbill_mul from_rational o cand s = (s', r) -> poc_step s s'
| step_block n : s' = initialize n s -> poc_step s s'
| step_elsewhere x : s' = set_rest x s -> poc_step s s'.

(** The storage before the first block. *)
Definition poc_genesis (x : X) : Poc X := mkPoc (mkEra 0 0) ∅ ∅ [] ∅ 0 0 [] x.

Lemma poc_genesis_inv x : config_ok -> poc_inv (poc_genesis x).
Proof.
  intros (_ & _ & [? _] & [? _]). split; simpl;
    first [done | by left | by constructor | intros m Hm; by apply not_elem_of_nil in Hm].
Qed.

(** A transactional extrinsic either succeeds or changes nothing. *)
Lemma transactional_inv {A} (m : M (Poc X) DispatchError A) s s' r :
  poc_inv s -> (forall a, m s = (s', Ok a) -> poc_inv s') -> transactional m s = (s', r) -> poc_inv s'.
Proof.
  intros Hi Hm Hr. destruct r as [a|e|]; [apply (Hm a); exact (proj1 (transactional_Ok _ _ _ _) Hr)|..];
    apply transactional_rollback in Hr; by subst.
Qed.

Lemma poc_step_inv s s' : config_ok -> poc_inv s -> poc_step s s' -> poc_inv s'.
Proof.
  intros Hc Hi [o r Hs|o r Hs|o amt dur cand r Hs|o amt r Hs|o n r Hs|o n r Hs|o cand r Hs|n ->|x ->].
  - by eapply start_inv.
  - by eapply stop_inv.
  - eapply transactional_inv; [exact Hi| |exact Hs]. intros [] Ha.
    eapply commit_inv; [done..|]. exact (proj2 (transactional_Ok _ _ _ _) Ha).
  - eapply transactional_inv; [exact Hi| |exact Hs]. intros [] Ha.
    eapply add_funds_inv; [done..|]. exact (proj2 (transactional_Ok _ _ _ _) Ha).
  - by eapply unbond_inv.
  - eapply transactional_inv; [exact Hi| |exact Hs]. intros [] Ha.
    eapply withdraw_inv; [done..|]. exact (proj2 (transactional_Ok _ _ _ _) Ha).
  - eapply transactional_inv; [exact Hi| |exact Hs]. intros [] Ha.
    eapply vote_inv; [done..|]. exact (proj2 (transactional_Ok _ _ _ _) Ha).
  - by apply initialize_inv.
  - by eapply poc_inv_frame; [..|exact Hi].
Qed.

(** C3. In every reachable state the recorded locked amount is the sum of the
    commitments and below the cap, the recorded number of candidates is right and
    within the limit, and the council members are in strict order, no more than the
    seats, and all of them still candidates with their deposit. *)
Theorem poc_state_consistent x s :
  config_ok -> rtc poc_step (poc_genesis x) s ->
  locked_amount s = map_sum amount (commitments s) /\
  (locked_amount s = 0 \/ locked_amount s < TotalLockedCap cfg) /\
  candidates_count s = Z.of_nat (size (candidates s)) /\ candidates_count s <= MaxCandidates cfg /\
  StronglySorted Z.lt (members s) /\ Z.of_nat (length (members s)) <= MaxMembers cfg /\
  forall m, m ∈ members s -> candidates s !! m = Some (CandidacyDeposit cfg).
Proof.
  intros Hc Hr. assert (poc_inv s) as [? ? ? ? ? Hd ? Hm ?].
  { pose proof (poc_genesis_inv x Hc) as Hi. induction Hr as [s|s1 s2 s3 Hs _ IH]; [done|].
    apply IH. by eapply poc_step_inv. }
  split_and!; try done. intros m Hin. destruct (Hm m Hin) as [d Hdm]. by rewrite Hdm, (Hd m d Hdm).
Qed.

(** C13. The election at the end of an era seats the heaviest candidates: the new
    members are in strict order, as many as there are seats or voted candidates,
    each is a running candidate; nobody left out has more votes than a member, and
    with equal votes the smaller account id is seated; and the votes that count
    are the sums of the weights of the commitments, at most [2^128 - 1]. *)
Theorem election_seats_heaviest n s :
  era_over n s = true -> elected cfg s <> [] ->
  let s' := initialize n s in
  StronglySorted Z.lt (members s') /\
  length (members s') = Nat.min (Z.to_nat (MaxMembers cfg)) (size (tally s)) /\
  (forall m, m ∈ members s' ->
     is_Some (candidates s !! m) /\ tally s !! m = Some (Z.min (votes s m) U128_MAX)) /\
  (forall m cd v, m ∈ members s' -> ¬ cd ∈ members s' -> tally s !! cd = Some v ->
     v <= Z.min (votes s m) U128_MAX /\ (v = Z.min (votes s m) U128_MAX -> m <= cd)).
Proof.
  intros Ho Hne s'. unfold s'. destruct (initialize_frame n s) as (_ & _ & _ & _ & ->). rewrite Ho.
  assert (winners_of s <> []) as Hw.
  { intros Hw. pose proof (winners_perm s) as Hp. rewrite Hw in Hp.
    symmetry in Hp. apply Permutation_nil_r in Hp. by apply fmap_nil_inv in Hp. }
  assert (match winners_of s with [] => members s | _ => winners_of s end = winners_of s) as ->
    by (by destruct (winners_of s)).
  assert (Hin : forall m w, (m, w) ∈ elected cfg s ->
    is_Some (candidates s !! m) /\ tally s !! m = Some w /\ w = Z.min (votes s m) U128_MAX).
  { intros m w Hm. assert ((m, w) ∈ ranking (tally s)) as Hr%ranking_elem.
    { rewrite <- (take_drop (Z.to_nat (MaxMembers cfg))). apply elem_of_app. by left. }
    rewrite Hr. rewrite tally_spec in Hr. destruct (bool_decide (is_Some _)) eqn:Eb; [|discriminate].
    apply bool_decide_eq_true in Eb. simpl in Hr. destruct (bool_decide _); [|discriminate].
    split_and!; [done..|congruence]. }
  split_and!.
  - apply winners_sorted.
  - rewrite winners_perm, length_fmap. unfold elected. rewrite length_take, ranking_perm.
    by rewrite length_map_to_list.
  - intros m [w Hm]%winners_elem. destruct (Hin m w Hm) as (? & ? & ->). done.
  - intros m cd v [w Hm]%winners_elem Hn Hc. destruct (Hin m w Hm) as (_ & _ & <-).
    by eapply elected_best.
Qed.

(** ** Locked funds *)

(** The three periods: 30, 365 and 3650 days of 8640 blocks. *)
Lemma lock_period_days d :
  lock_period d = 8640 * match d with OneMonth => 30 | OneYear => 365 | TenYears => 3650 end.
Proof. by destruct d. Qed.

Lemma withdraw_bond_spec who now s s' r :
  withdraw_bond (Signed who) now s = (s', r) ->
  match r with
  | Ok _ =>
      exists c st x', commitments s !! who = Some c /\ state c = Unbonding st /\
        (0 <= st <= U32_MAX - lock_period (duration c) -> st + lock_period (duration c) <= now) /\
        deposit_into_existing who (amount c) (rest s) = (x', Ok tt) /\ rest s' = x' /\
        commitments s' = delete who (commitments s) /\
        locked_amount s' = sat_sub (locked_amount s) (amount c)
  | _ => s' = s
  end.
Proof.
  intros Hrun. destruct r as [u|e|]; [|by apply transactional_rollback in Hrun..].
  destruct u. unfold withdraw_bond in Hrun. run_inv.
  match goal with Hc : commitments s !! who = Some ?c |- _ =>
    exists c; destruct (state c) as [|st] eqn:Est; [by run_inv|];
    destruct (Z.leb_spec (wrap_add U32_MAX st (lock_period (duration c))) now) as [Hle|]; [|by run_inv];
    exists st; rename c into com end.
  run_inv. match goal with Hf : on_rest _ s = (?s1, Ok ?u) |- _ =>
    unfold on_rest in Hf; destruct (deposit_into_existing who (amount com) (rest s)) as [x' [[]|e|]];
    try discriminate Hf; injection Hf as <-; exists x' end.
  simpl. split_and!; try done. intros [Hst1 Hst2].
  assert (0 <= lock_period (duration com)) by (rewrite lock_period_days; destruct (duration com); lia).
  unfold wrap_add in Hle. rewrite wrap_small in Hle by (unfold in_u; lia). done.
Qed.

(** C33. Locked funds stay locked for their whole period: a withdrawal succeeds only
    for a commitment whose unbonding started at some block and whose period (30, 365
    or 3650 days of blocks) has passed since; it then pays out exactly the committed
    amount, removes the commitment and lowers the locked total; and any withdrawal
    that fails leaves the storage as it was. *)
Theorem withdraw_only_after_period who now s s' r :
  withdraw_bond (Signed who) now s = (s', r) ->
  match r with
  | Ok _ =>
      exists c st x', commitments s !! who = Some c /\ state c = Unbonding st /\
        (0 <= st <= U32_MAX - lock_period (duration c) -> st + lock_period (duration c) <= now) /\
        deposit_into_existing who (amount c) (rest s) = (x', Ok tt) /\ rest s' = x' /\
        commitments s' = delete who (commitments s) /\
        locked_amount s' = sat_sub (locked_amount s) (amount c)
  | _ => s' = s
  end.
Proof. apply withdraw_bond_spec. Qed.

(** C34. Committing, unbonding and withdrawing gives the funds back: when the three
    steps succeed, the owner has exactly the free balance of before, and the
    commitments and the locked total are those of before. *)
Theorem commit_round_trip `{!CurrencyLaws X Z} who amt dur cand b now s s1 s2 s3 :
  config_ok -> poc_inv s ->
  commit cfg (Signed who) amt dur cand s = (s1, Ok tt) ->
  unbond (Signed who) b s1 = (s2, Ok tt) ->
  withdraw_bond (Signed who) now s2 = (s3, Ok tt) ->
  free_balance (rest s3) who = free_balance (rest s) who /\
  reserved_balance (rest s3) who = reserved_balance (rest s) who /\
  commitments s3 = commitments s /\ locked_amount s3 = locked_amount s.
Proof.
  intros (Hmin & Hcap & _) Hi Hc Hu Hw. unfold commit in Hc. run_inv.
  match goal with Hcp : (sat_add _ _ _ <? _) = true |- _ =>
    apply sat_add_capped in Hcp as [Heq _]; [|done] end.
  match goal with Hf : on_rest _ s = (?sa, Ok ?u) |- _ =>
    unfold on_rest in Hf; destruct (withdraw who amt KeepAlive (rest s)) as [x1 [[]|e|]] eqn:Ew;
    try discriminate Hf; injection Hf as <- end.
  apply withdraw_takes in Ew as (_ & Hf1 & Hr1).
  unfold unbond in Hu. run_inv.
  cbn [commitments locked_amount rest set_commitments set_locked set_rest deposit_event] in *.
  match goal with Hl : <[who := _]> _ !! who = Some ?c |- _ =>
    rewrite lookup_insert_eq in Hl; injection Hl as <- end.
  apply withdraw_bond_spec in Hw as (c & st & x' & Hl & _ & _ & Hd & Hx & Hcs & Hla).
  simpl in *. rewrite lookup_insert_eq in Hl. injection Hl as <-. simpl in *.
  apply deposit_gives in Hd as [Hf2 Hr2]. rewrite Hx. split_and!.
  - rewrite Hf2, Hf1. lia.
  - congruence.
  - rewrite Hcs, !delete_insert_eq. by apply delete_id.
  - rewrite Hla, Heq, sat_sub_exact; [lia|]. destruct Hi as [Hl Ha _ _ _ _ _ _ _].
    assert (0 <= locked_amount s) by (rewrite Hl; apply map_sum_nonneg; exact Ha). lia.
Qed.

(** ** Rewards of voters *)
Abbreviation vote := (vote_candidate cfg perbill_mul from_rational).
Abbreviation voter_reward := (era_voter_reward cfg perbill_mul from_rational).

(** Votes one after the other; a failed one is skipped. *)
Fixpoint vote_all (who : Z) (cands : list Z) (s : Poc X) : Poc X :=
  match cands with
  | [] => s
  | cand :: cands' => vote_all who cands' (vote (Signed who) cand s).1
  end.

(** The voter has had its reward for this era, or gets none. *)
Definition settled (who : Z) (s : Poc X) : Prop :=
  exists c, commitments s !! who = Some c /\
    (voter_reward c <= 0 \/ is_Some (voter_rewards s !! (index (current_era s), who))).

Lemma voter_reward_candidate c cand :
  voter_reward (mkCommitment (state c) (duration c) (amount c) cand) = voter_reward c.
Proof. done. Qed.

Lemma vote_settles who cand s s' :
  vote (Signed who) cand s = (s', Ok tt) ->
  settled who s' /\ (settled who s -> rest s' = rest s).
Proof.
  unfold vote_candidate. intros Hrun. run_inv.
  match goal with Hc : commitments s !! who = Some ?c |- _ => rename c into com; rename Hc into Hcom end.
  rewrite voter_reward_candidate in Hrun.
  match goal with Hw : mwhen _ _ s = (?sa, Ok _) |- _ =>
    assert (exists c, commitments sa !! who = Some c /\ voter_reward c = voter_reward com) as (c1 & Hc1 & Hrw);
    [|assert (rest sa = rest s /\ voter_rewards sa = voter_rewards s /\ current_era sa = current_era s)
       as (Er & Ev & Ee)];
    [unfold mwhen in Hw; destruct (negb (candidate com =? cand)); run_inv; simpl;
      [by eexists; rewrite lookup_insert_eq|by exists com]
    |unfold mwhen in Hw; destruct (negb (candidate com =? cand)); run_inv; done
    |rename sa into s1; clear Hw] end.
  unfold mwhen in Hrun. destruct (Z.ltb_spec 0 (voter_reward com)) as [Hpos|Hneg]; run_inv.
  - destruct (bool_decide _) eqn:Eb in Hrun; simpl in Hrun; run_inv.
    + split; [|done]. exists c1. split; [done|]. by right.
    + match goal with Hf : on_rest _ _ = (_, _) |- _ => apply poc_rest_frame in Hf; rewrite Hf end. simpl.
      split.
      * exists c1. split; [done|]. right. simpl. by rewrite lookup_insert_eq.
      * intros (c & Hc & [Hle|His]); [rewrite Hcom in Hc; injection Hc as <-; lia|].
        rewrite Ev, Ee in Eb. rewrite Eb in His. by destruct His.
  - split; [|done]. exists c1. split; [done|]. left. lia.
Qed.

Lemma vote_keeps_settled who cand s :
  settled who s -> rest (vote (Signed who) cand s).1 = rest s /\ settled who (vote (Signed who) cand s).1.
Proof.
  intros Hs. destruct (vote (Signed who) cand s) as [s' [[]|e|]] eqn:E; simpl.
  - apply vote_settles in E as [? ?]. auto.
  - apply transactional_rollback in E as ->; done.
  - apply transactional_rollback in E as ->; done.
Qed.

(** A voter is rewarded at most once in an era: after a first successful vote,
    no sequence of further votes of the same account in the same era changes any
    balance, whatever candidates they are for. *)
Theorem votes_rewarded_once who cand cands s s1 :
  vote (Signed who) cand s = (s1, Ok tt) -> rest (vote_all who cands s1) = rest s1.
Proof.
  intros [Hs _]%vote_settles. revert s1 Hs. induction cands as [|c cs IH]; intros s1 Hs; simpl; [done|].
  destruct (vote_keeps_settled who c s1 Hs) as [Hr Hs']. by rewrite (IH _ Hs').
Qed.
End invariant.

(** ** Witnesses *)
Module PocWitness.
Import SimpleLedger.
Abbreviation W := (gmap Z (Z * Z)).
Definition cfg0 : PocConfig := mkPocConfig 60480 100000000 10000000 50 100 1000000 10 2.
Definition mul0 (p x : Z) : Z := x * p / 1000000000.
Definition ratio0 (p q : Z) : Z := p * 1000000000 / q.
Definition hook0 (new old : list Z) (x : W) : W := x.
Definition bank : W := {[ 1 := (1000, 0); 2 := (1000, 0); 3 := (90000, 0); 4 := (90000, 0) ]}.
Definition g0 : Poc W := poc_genesis bank.
(** Accounts 1 and 2 are candidates; 3 and 4 commit funds. *)
Definition g1 : Poc W := (start_candidacy cfg0 (Signed 1) g0).1.
Definition g2 : Poc W := (start_candidacy cfg0 (Signed 2) g1).1.
Definition g3 : Poc W := (commit cfg0 (Signed 3) 50000 OneYear 2 g2).1.
Definition g4 : Poc W := (commit cfg0 (Signed 4) 70000 OneMonth 1 g3).1.
Definition g5 : Poc W := on_initialize cfg0 hook0 mul0 ratio0 60480 g4.
Abbreviation step0 := (poc_step cfg0 hook0 mul0 ratio0).

Lemma cfg0_ok : config_ok cfg0.
Proof. vm_compute. split_and!; discriminate. Qed.

Lemma g3_eq : commit cfg0 (Signed 3) 50000 OneYear 2 g2 = (g3, Ok tt).
Proof. vm_compute. reflexivity. Qed.

Lemma g4_reachable : rtc step0 g0 g4.
Proof.
  apply rtc_l with g1; [by eapply step_start, surjective_pairing|].
  apply rtc_l with g2; [by eapply step_start, surjective_pairing|].
  apply rtc_l with g3; [by eapply step_commit, surjective_pairing|].
  apply rtc_once. by eapply step_commit, surjective_pairing.
Qed.

Lemma g2_inv : poc_inv cfg0 g2.
Proof.
  eapply (start_inv cfg0); [exact cfg0_ok| |apply surjective_pairing].
  eapply (start_inv cfg0); [exact cfg0_ok| |apply surjective_pairing].
  apply poc_genesis_inv, cfg0_ok.
Qed.

Lemma poc_state_consistent_witness : locked_amount g4 = map_sum amount (commitments g4).
Proof.
  exact (proj1 (poc_state_consistent cfg0 hook0 mul0 ratio0 bank g4 cfg0_ok g4_reachable)).
Defined.

Lemma g4_era_over : era_over cfg0 60480 g4 = true.
Proof. vm_compute. reflexivity. Qed.
Lemma g4_elected : elected cfg0 g4 = [(2, 500000); (1, 70000)].
Proof. vm_compute. reflexivity. Qed.

Lemma election_seats_heaviest_witness :
  elected cfg0 g4 = [(2, 500000); (1, 70000)] /\ length (members g5) = Nat.min 2 (size (tally g4)).
Proof.
  split; [exact g4_elected|].
  refine (proj1 (proj2 (election_seats_heaviest cfg0 hook0 mul0 ratio0 60480 g4 g4_era_over _))).
  rewrite g4_elected. discriminate.
Defined.

Definition u1 : Poc W := (unbond (Signed 3) 100 g3).1.
Lemma u1_eq : unbond (Signed 3) 100 g3 = (u1, Ok tt).
Proof. vm_compute. reflexivity. Qed.
Definition u2 : Poc W := (withdraw_bond (Signed 3) 3153700 u1).1.
Lemma u2_eq : withdraw_bond (Signed 3) 3153700 u1 = (u2, Ok tt).
Proof. vm_compute. reflexivity. Qed.
Lemma early_eq : withdraw_bond (Signed 3) 3153699 u1 =
  ((withdraw_bond (Signed 3) 3153699 u1).1, Err CannotWithdrawLocked).
Proof. vm_compute. reflexivity. Qed.

(** One block too early nothing happens. *)
Lemma withdraw_only_after_period_witness : (withdraw_bond (Signed 3) 3153699 u1).1 = u1.
Proof. exact (withdraw_only_after_period 3 3153699 u1 _ _ early_eq). Defined.

Lemma commit_round_trip_witness : free_balance (rest u2) 3 = free_balance (rest g2) 3.
Proof.
  exact (proj1 (commit_round_trip cfg0 3 50000 OneYear 2 100 3153700 g2 g3 u1 u2
                  cfg0_ok g2_inv g3_eq u1_eq u2_eq)).
Defined.

Definition v1 : Poc W := (vote_candidate cfg0 mul0 ratio0 (Signed 3) 1 g4).1.
Lemma v1_eq : vote_candidate cfg0 mul0 ratio0 (Signed 3) 1 g4 = (v1, Ok tt).
Proof. vm_compute. reflexivity. Qed.
Lemma v1_rewarded : free_balance (rest v1) 3 = free_balance (rest g4) 3 + 95.
Proof. vm_compute. reflexivity. Qed.

Lemma votes_rewarded_once_witness :
  free_balance (rest v1) 3 = free_balance (rest g4) 3 + 95 /\
  rest (vote_all cfg0 mul0 ratio0 3 [2; 1; 2] v1) = rest v1.
Proof.
  split; [exact v1_rewarded|].
  exact (votes_rewarded_once cfg0 mul0 ratio0 3 1 [2; 1; 2] g4 v1 v1_eq).
Defined.
End PocWitness.
End Poc.
