(* ===== verification/StakingLedger.v ===== *)
(** * The ledger of a stash

    Models [StakingLedger] of [src/modules/staking/src/lib.rs]: what a stash has at
    stake, the chunks that are unlocking, and the operations that move funds between
    them or slash them.  [Perquintill] belongs to [sp_arithmetic]: its two operations are
    the class [Proportion], with the laws of their documentation. *)

From stdpp Require Import base gmap list strings.
From Stdlib Require Import ZArith Lia.
From S2P Require Import Prelude.

Local Open Scope Z_scope.

Record UnlockChunk : Type := mkChunk { chunk_value : Z; chunk_era : Z }.
Record StakingLedger (A : Type) : Type := mkLedger {
  stash : A;
  ledger_total : Z;
  active : Z;
  unlocking : list UnlockChunk;
  claimed_rewards : list Z;
}.
Arguments mkLedger {A}. Arguments stash {A}. Arguments ledger_total {A}. Arguments active {A}.
Arguments unlocking {A}. Arguments claimed_rewards {A}.

(** [Perquintill::from_rational_with_rounding] rounding up ([None] for its error), and
    [mul_ceil]. *)
Class Proportion : Type := {
  from_rational_up : Z -> Z -> option Z;
  mul_ceil : Z -> Z -> Z;
}.
Definition QUINTILL : Z := 1000000000000000000.
Class ProportionLaws `{Proportion} : Prop := {
  from_rational_up_spec p q r : 0 <= p -> 0 <= q -> from_rational_up p q = Some r ->
    0 <= r <= QUINTILL /\ p * QUINTILL <= r * q;
  mul_ceil_spec r v : 0 <= r <= QUINTILL -> 0 <= v ->
    r * v <= mul_ceil r v * QUINTILL < r * v + QUINTILL;
}.

Definition default_from {A} (stash : A) : StakingLedger A := mkLedger stash 0 0 [] [].

(** [consolidate_unlocked]: the closure of [filter] lowers the total. *)
Fixpoint drop_unlocked (current_era : Z) (chunks : list UnlockChunk) (total : Z) : list UnlockChunk * Z :=
  match chunks with
  | [] => ([], total)
  | c :: cs =>
      if current_era <? chunk_era c
      then let '(cs', total') := drop_unlocked current_era cs total in (c :: cs', total')
      else drop_unlocked current_era cs (sat_sub total (chunk_value c))
  end.
Definition consolidate_unlocked {A} (current_era : Z) (l : StakingLedger A) : StakingLedger A :=
  let '(unlocking', total') := drop_unlocked current_era (unlocking l) (ledger_total l) in
  mkLedger (stash l) total' (active l) unlocking' (claimed_rewards l).

(** [rebond]: the loop takes chunks from the end of the list, given here reversed.
    [+=] and [-] wrap around. *)
Fixpoint rebond_loop (value : Z) (rev_chunks : list UnlockChunk) (active unlocking_balance : Z)
    : list UnlockChunk * Z * Z :=
  match rev_chunks with
  | [] => ([], active, unlocking_balance)
  | last :: rest =>
      if wrap_add U128_MAX unlocking_balance (chunk_value last) <=? value then
        let unlocking_balance := wrap_add U128_MAX unlocking_balance (chunk_value last) in
        let active := wrap_add U128_MAX active (chunk_value last) in
        if value <=? unlocking_balance then (rest, active, unlocking_balance)
        else rebond_loop value rest active unlocking_balance
      else
        let diff := wrap_sub U128_MAX value unlocking_balance in
        let last' := mkChunk (wrap_sub U128_MAX (chunk_value last) diff) (chunk_era last) in
        (last' :: rest, wrap_add U128_MAX active diff, wrap_add U128_MAX unlocking_balance diff)
  end.
Definition ledger_rebond {A} (value : Z) (l : StakingLedger A) : StakingLedger A * Z :=
  let '(rev_chunks, active', rebonded) := rebond_loop value (rev (unlocking l)) (active l) 0 in
  (mkLedger (stash l) (ledger_total l) active' (rev rev_chunks) (claimed_rewards l), rebonded).

(** ** Slashing *)
Section slash.
Context `{Proportion}.
Variable BondingDuration : Z.

(** The closure [slash_out_of] on a target, the total and what remains to be slashed. *)
Definition slash_out_of (maybe_proportional : option Z) (minimum_balance target total remaining : Z) : Z * Z * Z :=
  let slash_from_target :=
    Z.min (Z.min (match maybe_proportional with Some ratio => mul_ceil ratio target | None => remaining end)
                 target) remaining in
  let target := target - slash_from_target in
  let '(target, slash_from_target) :=
    if target <? minimum_balance then (0, sat_add U128_MAX target slash_from_target)
    else (target, slash_from_target) in
  (target, sat_sub total slash_from_target, sat_sub remaining slash_from_target).

(** The index of the first chunk that is slashed in proportion. *)
Fixpoint position_from (start : Z) (chunks : list UnlockChunk) : option nat :=
  match chunks with
  | [] => None
  | c :: cs => if start <=? chunk_era c then Some O else S <$> position_from start cs
  end.

Definition chunk_values (chunks : list UnlockChunk) : list Z := chunk_value <$> chunks.
Definition sat_sum (l : list Z) : Z := foldl (sat_add U128_MAX) 0 l.

Definition slash_plan (slash_amount slash_era active : Z) (chunks : list UnlockChunk) : option Z * list nat :=
  match position_from (wrap_add U32_MAX slash_era BondingDuration) chunks with
  | Some first =>
      let unbonding_affected_balance := sat_sum (chunk_values (drop first chunks)) in
      let affected_balance := sat_add U128_MAX active unbonding_affected_balance in
      let ratio := default QUINTILL (from_rational_up slash_amount affected_balance) in
      (Some ratio, seq first (length chunks - first) ++ rev (seq 0 first))
  | None => (None, rev (seq 0 (length chunks)))
  end.

(** The loop over the chunks; [slashed] is the map given to [OnStakerSlash]. *)
Fixpoint slash_chunks (maybe_proportional : option Z) (minimum_balance : Z) (priority : list nat)
    (chunks : list UnlockChunk) (total remaining : Z) (slashed : gmap Z Z)
    : list UnlockChunk * Z * Z * gmap Z Z :=
  match priority with
  | [] => (chunks, total, remaining, slashed)
  | i :: priority' =>
      if remaining =? 0 then (chunks, total, remaining, slashed)
      else
        match chunks !! i with
        | Some c =>
            let '(value, total, remaining) :=
              slash_out_of maybe_proportional minimum_balance (chunk_value c) total remaining in
            slash_chunks maybe_proportional minimum_balance priority'
              (<[i := mkChunk value (chunk_era c)]> chunks) total remaining (<[chunk_era c := value]> slashed)
        | None => (chunks, total, remaining, slashed)
        end
  end.

(** The slashed ledger, the amount slashed, and the map that [OnStakerSlash::on_slash] gets
    beside the stash and the active amount, if it is called. *)
Definition ledger_slash {A} (slash_amount minimum_balance slash_era : Z) (l : StakingLedger A)
    : StakingLedger A * Z * option (gmap Z Z) :=
  if slash_amount =? 0 then (l, 0, None)
  else
    let '(maybe_proportional, priority) := slash_plan slash_amount slash_era (active l) (unlocking l) in
    let '(active', total, remaining) :=
      slash_out_of maybe_proportional minimum_balance (active l) (ledger_total l) slash_amount in
    let '(chunks, total, _, slashed) :=
      slash_chunks maybe_proportional minimum_balance priority (unlocking l) total remaining ∅ in
    let chunks := filter (fun c => chunk_value c <> 0) chunks in
    (mkLedger (stash l) total active' chunks (claimed_rewards l), sat_sub (ledger_total l) total, Some slashed).
End slash.

(** ** Theorems *)
Definition sum (l : list Z) : Z := foldr Z.add 0 l.
Definition unlocking_sum {A} (l : StakingLedger A) : Z := sum (chunk_values (unlocking l)).

(** The total is what is active and what is unlocking, and fits its width. *)
Record ledger_ok {A} (l : StakingLedger A) : Prop := {
  ok_active : 0 <= active l;
  ok_chunks : Forall (fun c => 0 <= chunk_value c) (unlocking l);
  ok_total : ledger_total l = active l + unlocking_sum l;
  ok_max : ledger_total l <= U128_MAX;
}.

Lemma sum_app l k : sum (l ++ k) = sum l + sum k.
Proof. induction l as [|x l IH]; simpl; lia. Qed.
Lemma sum_nonneg l : Forall (fun v => 0 <= v) l -> 0 <= sum l.
Proof. induction 1; simpl; lia. Qed.
Lemma chunks_sum_nonneg cs : Forall (fun c => 0 <= chunk_value c) cs -> 0 <= sum (chunk_values cs).
Proof. intros Hf. apply sum_nonneg. by apply Forall_fmap. Qed.
Lemma sum_rev l : sum (rev l) = sum l.
Proof. induction l as [|x l IH]; [done|]. simpl. rewrite sum_app, IH. simpl. lia. Qed.

Lemma chunks_filter (P : UnlockChunk -> Prop) `{forall c, Decision (P c)} (cs : list UnlockChunk) :
  Forall (fun c => 0 <= chunk_value c) cs -> Forall (fun c => 0 <= chunk_value c) (filter P cs).
Proof. rewrite !Forall_forall. intros Hf c [_ Hc]%list_elem_of_filter. by apply Hf. Qed.

(** *** Consolidation *)
Lemma drop_unlocked_spec era cs total : Forall (fun c => 0 <= chunk_value c) cs -> sum (chunk_values cs) <= total ->
  drop_unlocked era cs total =
    (filter (fun c => era < chunk_era c) cs,
     total - sum (chunk_values (filter (fun c => chunk_era c <= era) cs))).
Proof.
  intros Hf. revert total. induction Hf as [|c cs Hc Hf IH]; intros total Ht; simpl in *; [by rewrite Z.sub_0_r|].
  pose proof (chunks_sum_nonneg _ Hf). destruct (Z.ltb_spec era (chunk_era c)).
  - rewrite IH by lia. rewrite filter_cons_True, filter_cons_False by lia. done.
  - rewrite sat_sub_exact by lia. rewrite IH by lia. rewrite filter_cons_False, filter_cons_True by lia.
    f_equal. simpl. lia.
Qed.
Lemma sum_filter_split (P Q : UnlockChunk -> Prop) `{forall c, Decision (P c)} `{forall c, Decision (Q c)}
    (cs : list UnlockChunk) : (forall c, Q c <-> ~ P c) ->
  sum (chunk_values (filter P cs)) + sum (chunk_values (filter Q cs)) = sum (chunk_values cs).
Proof.
  intros HQ. induction cs as [|c cs IH]; [done|]. rewrite !filter_cons. specialize (HQ c).
  destruct (decide (P c)), (decide (Q c)); simpl in *; try lia; tauto.
Qed.

(** Consolidation releases the chunks whose era has come, and nothing else. *)
Lemma consolidate_spec {A} era (l : StakingLedger A) : ledger_ok l ->
  let l' := consolidate_unlocked era l in
  ledger_ok l' /\ active l' = active l /\ stash l' = stash l /\ claimed_rewards l' = claimed_rewards l /\
  unlocking l' = filter (fun c => era < chunk_era c) (unlocking l) /\
  ledger_total l' = ledger_total l - sum (chunk_values (filter (fun c => chunk_era c <= era) (unlocking l))).
Proof.
  intros [Ha Hc Ht Hm]. unfold consolidate_unlocked. rewrite drop_unlocked_spec; [|done|unfold unlocking_sum in Ht; lia].
  pose proof (sum_filter_split (fun c => era < chunk_era c) (fun c => chunk_era c <= era) (unlocking l)
    ltac:(intros c; cbv beta; lia)) as Hs.
  assert (0 <= sum (chunk_values (filter (fun c => chunk_era c <= era) (unlocking l)))).
  { apply chunks_sum_nonneg. by apply chunks_filter. }
  split_and!; try done. split; cbn [active unlocking ledger_total]; [done|by apply chunks_filter| |lia].
  unfold unlocking_sum in *. cbn [unlocking]. lia.
Qed.

Lemma chunk_values_rev cs : chunk_values (rev cs) = rev (chunk_values cs).
Proof. unfold chunk_values. induction cs as [|c cs IH]; [done|]. simpl. by rewrite fmap_app, IH. Qed.

(** *** Rebonding *)
Lemma rebond_loop_spec value cs : forall a u cs' a' u',
  Forall (fun c => 0 <= chunk_value c) cs -> 0 <= u <= value -> 0 <= a -> a + sum (chunk_values cs) <= U128_MAX ->
  value <= U128_MAX -> u + sum (chunk_values cs) <= U128_MAX ->
  rebond_loop value cs a u = (cs', a', u') ->
  Forall (fun c => 0 <= chunk_value c) cs' /\ u' = Z.min value (u + sum (chunk_values cs)) /\
  a' = a + (u' - u) /\ sum (chunk_values cs') = sum (chunk_values cs) - (u' - u) /\
  (length cs' <= length cs)%nat.
Proof.
  induction cs as [|c cs IH]; intros a u cs' a' u' Hf Hu Ha Hsum Hv Hus; simpl.
  { intros [= <- <- <-]. simpl. split_and!; [done|lia..]. }
  apply Forall_cons in Hf as [Hc Hf]. simpl in Hsum, Hus. pose proof (chunks_sum_nonneg _ Hf).
  unfold wrap_add, wrap_sub. rewrite (wrap_small _ (u + chunk_value c)) by (unfold in_u; lia).
  destruct (Z.leb_spec (u + chunk_value c) value) as [Hle|Hgt].
  - rewrite (wrap_small _ (a + chunk_value c)) by (unfold in_u; lia).
    destruct (Z.leb_spec value (u + chunk_value c)).
    + intros [= <- <- <-]. simpl. split_and!; [done|lia..].
    + intros Hr. apply IH in Hr as (Hf' & -> & -> & -> & Hl); [|done|lia..]. split_and!; [done|lia..].
  - rewrite (wrap_small _ (value - u)) by (unfold in_u; lia).
    rewrite (wrap_small _ (chunk_value c - (value - u))), (wrap_small _ (a + (value - u))),
      (wrap_small _ (u + (value - u))) by (unfold in_u; lia).
    intros [= <- <- <-]. simpl. split_and!; [constructor; [simpl; lia|done]|lia..].
Qed.

(** Rebonding moves what it can of the value from the unlocking chunks to the active
    amount; the total stays. *)
Lemma rebond_spec {A} value (l l' : StakingLedger A) r :
  ledger_ok l -> 0 <= value <= U128_MAX -> ledger_rebond value l = (l', r) ->
  ledger_ok l' /\ r = Z.min value (unlocking_sum l) /\ active l' = active l + r /\
  ledger_total l' = ledger_total l /\ stash l' = stash l /\ claimed_rewards l' = claimed_rewards l /\
  (length (unlocking l') <= length (unlocking l))%nat.
Proof.
  intros [Ha Hc Ht Hm] Hv. unfold ledger_rebond.
  destruct (rebond_loop value (rev (unlocking l)) (active l) 0) as [[cs a] u] eqn:Er. intros [= <- <-].
  unfold unlocking_sum in *. pose proof (chunks_sum_nonneg _ Hc).
  apply rebond_loop_spec in Er as (Hf & -> & -> & Hs & Hl); cycle 1.
  { by apply Forall_rev. }
  all: rewrite ?chunk_values_rev, ?sum_rev in *; try lia.
  cbn [active ledger_total stash claimed_rewards unlocking].
  rewrite !length_rev in *. split_and!; try done; try lia.
  split; cbn [active unlocking ledger_total]; [lia|by apply Forall_rev| |lia].
  unfold unlocking_sum. cbn [unlocking]. rewrite chunk_values_rev, sum_rev, Hs. lia.
Qed.

(** *** Slashing *)
Section slash_theorems.
Context `{ProportionLaws}.

(** What a proportion asks of a target. *)
Definition ideal (mp : option Z) (v : Z) : Z := match mp with Some r => mul_ceil r v | None => v end.
Definition ratio_ok (mp : option Z) : Prop := match mp with Some r => 0 <= r <= QUINTILL | None => True end.
Lemma ideal_bounds mp v : ratio_ok mp -> 0 <= v -> 0 <= ideal mp v <= v.
Proof.
  intros Hr Hv. destruct mp as [r|]; simpl in *; [|lia].
  pose proof (mul_ceil_spec r v Hr Hv). unfold QUINTILL in *. nia.
Qed.

Lemma slash_out_of_spec mp ed t total rem t' total' rem' :
  ratio_ok mp -> 0 <= t <= total -> total <= U128_MAX -> 0 <= rem ->
  slash_out_of mp ed t total rem = (t', total', rem') ->
  exists k, t' = t - k /\ total' = total - k /\ rem' = Z.max (rem - k) 0 /\ 0 <= k <= t /\
    k <= rem + Z.max (ed - 1) 0 /\ (0 < rem' -> ideal mp t <= k).
Proof.
  intros Hr Ht Hm Hrem. pose proof (ideal_bounds mp t Hr ltac:(lia)) as Hi. unfold slash_out_of.
  set (w := Z.min _ rem). assert (w = Z.min (ideal mp t) rem) as ->.
  { unfold w. destruct mp; simpl in *; lia. }
  destruct (Z.ltb_spec (t - Z.min (ideal mp t) rem) ed).
  - rewrite sat_add_exact by lia. rewrite (sat_sub_exact total) by lia. unfold sat_sub.
    intros [= <- <- <-]. exists t. split_and!; lia.
  - rewrite (sat_sub_exact total) by lia. unfold sat_sub.
    intros [= <- <- <-]. eexists. split_and!; [done|done|done|lia..].
Qed.

Lemma sum_insert (l : list Z) i x y : l !! i = Some x -> sum (<[i := y]> l) = sum l - x + y.
Proof.
  revert i. induction l as [|z l IH]; intros [|i] Hi; simpl in *; [done|done|injection Hi as ->; lia|].
  rewrite (IH _ Hi). lia.
Qed.
Lemma chunk_values_insert i c (cs : list UnlockChunk) : chunk_values (<[i := c]> cs) = <[i := chunk_value c]> (chunk_values cs).
Proof. unfold chunk_values. by rewrite list_fmap_insert. Qed.

Lemma sum_cons x l : sum (x :: l) = x + sum l.
Proof. done. Qed.

Definition value_at (cs : list UnlockChunk) (i : nat) : Z := default 0 (chunk_values cs !! i).
Definition ideals (mp : option Z) (cs : list UnlockChunk) (prio : list nat) : Z :=
  sum ((fun i => ideal mp (value_at cs i)) <$> prio).
Definition shrunk (c' c : UnlockChunk) : Prop := chunk_era c' = chunk_era c /\ 0 <= chunk_value c' <= chunk_value c.

Lemma shrunk_insert i c c' cs :
  Forall (fun c => 0 <= chunk_value c) cs -> cs !! i = Some c -> shrunk c' c -> Forall2 shrunk (<[i := c']> cs) cs.
Proof.
  intros Hf Hi Hs. apply Forall2_same_length_lookup_2; [by rewrite length_insert|].
  intros j x y Hx Hy. destruct (decide (i = j)) as [<-|Hne].
  - rewrite list_lookup_insert_eq in Hx by (by eapply lookup_lt_Some). congruence.
  - rewrite list_lookup_insert_ne in Hx by done. assert (x = y) as -> by congruence.
    pose proof (Forall_lookup_1 _ _ _ _ Hf Hy) as Hy0. cbv beta in Hy0. split; [done|]. lia.
Qed.
Lemma shrunk_trans l1 l2 l3 : Forall2 shrunk l1 l2 -> Forall2 shrunk l2 l3 -> Forall2 shrunk l1 l3.
Proof.
  intros H12. revert l3. induction H12 as [|x y l1 l2 [Ha Hb] H12 IH]; intros l3 H23; inversion H23 as [|? z ? ? [Hc Hd] H23']; subst.
  - constructor.
  - constructor; [split; [congruence|lia]|by apply IH].
Qed.
Lemma shrunk_refl cs : Forall (fun c => 0 <= chunk_value c) cs -> Forall2 shrunk cs cs.
Proof. intros Hf. induction Hf; constructor; [split; [done|lia]|done]. Qed.
Lemma shrunk_nonneg l k : Forall2 shrunk l k -> Forall (fun c => 0 <= chunk_value c) l.
Proof. induction 1 as [|x y ? ? [_ Hv]]; constructor; [lia|done]. Qed.
Lemma ideals_insert mp i c cs prio : i ∉ prio -> ideals mp (<[i := c]> cs) prio = ideals mp cs prio.
Proof.
  intros Hi. unfold ideals. f_equal. apply list_fmap_ext. intros k j Hk.
  assert (i <> j) by (intros ->; by apply Hi, list_elem_of_lookup_2 with k).
  unfold value_at. by rewrite chunk_values_insert, list_lookup_insert_ne.
Qed.

Lemma slash_chunks_spec mp ed prio : ratio_ok mp -> forall cs total rem m cs' total' rem' m',
  NoDup prio -> Forall (fun i => (i < length cs)%nat) prio -> Forall (fun c => 0 <= chunk_value c) cs ->
  sum (chunk_values cs) <= total -> total <= U128_MAX -> 0 <= rem ->
  slash_chunks mp ed prio cs total rem m = (cs', total', rem', m') ->
  exists k, Forall2 shrunk cs' cs /\ sum (chunk_values cs') = sum (chunk_values cs) - k /\
    total' = total - k /\ rem' = Z.max (rem - k) 0 /\ 0 <= k <= rem + Z.max (ed - 1) 0 /\
    (rem = 0 -> k = 0) /\ (0 < rem' -> ideals mp cs prio <= k).
Proof.
  intros Hr. induction prio as [|i prio IH]; intros cs total rem m cs' total' rem' m' Hnd Hlt Hf Hs Hm Hrem; simpl.
  { intros [= <- <- <- <-]. exists 0. split_and!; [by apply shrunk_refl|..]; unfold ideals; simpl; lia. }
  destruct (Z.eqb_spec rem 0) as [->|Hrem0].
  { intros [= <- <- <- <-]. exists 0. split_and!; [by apply shrunk_refl|..]; lia. }
  apply NoDup_cons in Hnd as [Hni Hnd]. apply Forall_cons in Hlt as [Hi Hlt].
  destruct (lookup_lt_is_Some_2 cs i Hi) as [c Hc]. rewrite Hc.
  assert (chunk_values cs !! i = Some (chunk_value c)) as Hv by (unfold chunk_values; by rewrite list_lookup_fmap, Hc).
  pose proof (Forall_lookup_1 _ _ _ _ Hf Hc) as Hc0. simpl in Hc0.
  assert (chunk_value c <= sum (chunk_values cs)) as Hcs.
  { pose proof (sum_insert _ _ _ 0 Hv). pose proof (chunks_sum_nonneg (<[i := mkChunk 0 0]> cs)) as Hn.
    rewrite chunk_values_insert in Hn. simpl in Hn. specialize (Hn ltac:(apply Forall_insert; [done|simpl; lia])). lia. }
  destruct (slash_out_of mp ed (chunk_value c) total rem) as [[v total1] rem1] eqn:Eo.
  apply slash_out_of_spec in Eo as (k1 & -> & -> & -> & Hk1 & Hmax1 & Hideal1); [|done|lia..].
  set (c' := mkChunk (chunk_value c - k1) (chunk_era c)).
  assert (shrunk c' c) as Hsh by (split; [done|simpl; lia]).
  pose proof (shrunk_insert i c c' cs Hf Hc Hsh) as Hsi.
  assert (sum (chunk_values (<[i := c']> cs)) = sum (chunk_values cs) - k1) as Hsum1.
  { rewrite chunk_values_insert, (sum_insert _ _ _ _ Hv). simpl. lia. }
  intros Hrun. apply IH in Hrun as (k2 & Hs2 & Hsum2 & -> & -> & Hk2 & Hz2 & Hi2); try done; try lia.
  2: by rewrite length_insert. 2: by eapply shrunk_nonneg.
  exists (k1 + k2). split_and!; [by eapply shrunk_trans|lia..|].
  intros Hpos. rewrite ideals_insert in Hi2 by done. specialize (Hi2 Hpos). specialize (Hideal1 ltac:(lia)).
  unfold ideals in *. cbn [fmap list_fmap sum foldr]. fold (sum ((fun j => ideal mp (value_at cs j)) <$> prio)).
  assert (value_at cs i = chunk_value c) as -> by (unfold value_at; by rewrite Hv). lia.
Qed.

Lemma ideals_app mp cs p q : ideals mp cs (p ++ q) = ideals mp cs p + ideals mp cs q.
Proof. unfold ideals. by rewrite fmap_app, sum_app. Qed.
Lemma ideals_cons mp cs i p : ideals mp cs (i :: p) = ideal mp (value_at cs i) + ideals mp cs p.
Proof. done. Qed.
Lemma ideals_rev mp cs p : ideals mp cs (rev p) = ideals mp cs p.
Proof.
  induction p as [|i p IH]; [done|]. cbn [rev]. rewrite ideals_app, IH, !ideals_cons.
  change (ideals mp cs []) with 0. lia.
Qed.
Lemma ideals_seq mp cs k : (k <= length cs)%nat ->
  ideals mp cs (seq k (length cs - k)) = sum (ideal mp <$> chunk_values (drop k cs)).
Proof.
  intros Hk. unfold ideals. f_equal. apply list_eq. intros i. rewrite !list_lookup_fmap.
  destruct (decide (i < length cs - k)%nat) as [Hi|Hi].
  - rewrite lookup_seq_lt by done. cbn [fmap option_fmap option_map]. unfold value_at, chunk_values.
    rewrite !list_lookup_fmap, lookup_drop. destruct (lookup_lt_is_Some_2 cs (k + i)%nat ltac:(lia)) as [c ->]. done.
  - rewrite lookup_seq_ge by lia. unfold chunk_values. rewrite list_lookup_fmap, lookup_drop, lookup_ge_None_2 by lia. done.
Qed.
Lemma ideals_nonneg mp cs p : ratio_ok mp -> Forall (fun c => 0 <= chunk_value c) cs -> 0 <= ideals mp cs p.
Proof.
  intros Hr Hf. apply sum_nonneg, Forall_fmap, Forall_true. intros i. cbn. apply ideal_bounds; [done|].
  unfold value_at, chunk_values. rewrite list_lookup_fmap. destruct (cs !! i) as [c|] eqn:Hc; [|done].
  by apply (Forall_lookup_1 _ _ _ _ Hf Hc).
Qed.
Lemma sum_ideal_some r l : 0 <= r <= QUINTILL -> Forall (fun v => 0 <= v) l ->
  r * sum l <= sum (ideal (Some r) <$> l) * QUINTILL.
Proof.
  intros Hr. induction 1 as [|v l Hv Hf IH]; [simpl; lia|]. rewrite fmap_cons, !sum_cons. cbn [ideal].
  pose proof (mul_ceil_spec r v Hr Hv). lia.
Qed.
Lemma sum_ideal_all mp l : mp = None \/ mp = Some QUINTILL -> Forall (fun v => 0 <= v) l ->
  sum (ideal mp <$> l) = sum l.
Proof.
  intros Hmp. induction 1 as [|v l Hv Hf IH]; [done|]. rewrite fmap_cons, !sum_cons, IH. f_equal. destruct Hmp as [->| ->]; [done|]. simpl.
  pose proof (mul_ceil_spec QUINTILL v ltac:(unfold QUINTILL; lia) Hv). unfold QUINTILL in *. lia.
Qed.
Lemma sat_add_le a v : 0 <= a -> 0 <= v -> 0 <= sat_add U128_MAX a v <= a + v.
Proof. intros. unfold sat_add, U128_MAX. lia. Qed.
Lemma sat_sum_le_from l : Forall (fun v => 0 <= v) l -> forall a, 0 <= a ->
  0 <= foldl (sat_add U128_MAX) a l <= a + sum l.
Proof.
  induction 1 as [|v l Hv Hf IH]; intros a Ha; [simpl; lia|]. rewrite sum_cons. cbn [foldl].
  pose proof (sat_add_le a v Ha Hv) as Hs. specialize (IH (sat_add U128_MAX a v) ltac:(lia)). lia.
Qed.
Lemma sat_sum_le l : Forall (fun v => 0 <= v) l -> 0 <= sat_sum l <= sum l.
Proof. intros Hf. apply (sat_sum_le_from l Hf 0). lia. Qed.
Lemma position_from_lt start cs i : position_from start cs = Some i -> (i < length cs)%nat.
Proof.
  revert i. induction cs as [|c cs IH]; intros i; simpl; [done|]. destruct (_ <=? _); [intros [= <-]; lia|].
  destruct (position_from start cs) as [j|]; [|done]. intros [= <-]. specialize (IH j eq_refl). lia.
Qed.

(** The plan is adequate: the targets' shares cover the slash, or everything. *)
Lemma slash_plan_spec bd amt era a cs mp prio :
  0 <= amt -> 0 <= a -> Forall (fun c => 0 <= chunk_value c) cs ->
  slash_plan bd amt era a cs = (mp, prio) ->
  ratio_ok mp /\ NoDup prio /\ Forall (fun i => (i < length cs)%nat) prio /\
  Z.min amt (a + sum (chunk_values cs)) <= ideal mp a + ideals mp cs prio.
Proof.
  intros Hamt Ha Hf. unfold slash_plan. destruct (position_from _ cs) as [first|] eqn:Ep; intros [= <- <-].
  - apply position_from_lt in Ep.
    assert (Forall (fun v => 0 <= v) (chunk_values (drop first cs))) as Hfd.
    { apply Forall_fmap. by apply Forall_drop. }
    assert (NoDup (seq first (length cs - first) ++ rev (seq 0 first))) as Hnd.
    { apply NoDup_app. split_and!; [apply NoDup_seq| |apply NoDup_ListNoDup, NoDup_rev, NoDup_ListNoDup, NoDup_seq].
      intros i Hi Hr. apply list_elem_of_In, in_rev, list_elem_of_In in Hr. rewrite elem_of_seq in Hi, Hr. lia. }
    split_and!; [|done| |].
    + destruct (from_rational_up _ _) as [r|] eqn:Er; simpl; [|unfold QUINTILL; lia].
      apply from_rational_up_spec in Er; [lia|lia|]. pose proof (sat_sum_le _ Hfd). unfold sat_add, U128_MAX. lia.
    + apply Forall_forall. intros i. rewrite elem_of_app, elem_of_seq. intros [Hi|Hr]; [lia|].
      apply list_elem_of_In, in_rev, list_elem_of_In, elem_of_seq in Hr. lia.
    + rewrite ideals_app, ideals_rev, ideals_seq by lia. pose proof (sat_sum_le _ Hfd) as Hss.
      destruct (from_rational_up _ _) as [r|] eqn:Er; cbn [default from_option id].
      * apply from_rational_up_spec in Er as [Hr Hle]; [|lia|unfold sat_add, U128_MAX; lia].
        pose proof (sum_ideal_some r _ Hr Hfd) as Hsi. pose proof (mul_ceil_spec r a Hr Ha) as Ham. cbn [ideal].
        pose proof (ideals_nonneg (Some r) cs (seq 0 first) Hr Hf).
        assert (sat_add U128_MAX a (sat_sum (chunk_values (drop first cs))) <= a + sum (chunk_values (drop first cs)))
          as Hsat by (unfold sat_add; lia).
        unfold QUINTILL in *. nia.
      * rewrite <- ideals_seq by lia. pose proof (ideals_seq (Some QUINTILL) cs 0 ltac:(lia)) as Ht.
        rewrite Nat.sub_0_r, drop_0 in Ht. replace (length cs) with (first + (length cs - first))%nat in Ht at 1 by lia.
        rewrite seq_app, ideals_app in Ht. cbn [Nat.add] in Ht.
        rewrite sum_ideal_all in Ht; [|by auto|by apply Forall_fmap].
        assert (ideal (Some QUINTILL) a = a); [|lia].
        pose proof (sum_ideal_all (Some QUINTILL) [a] ltac:(auto) ltac:(by constructor)) as Hone.
        rewrite fmap_cons, !sum_cons in Hone. simpl in *. lia.
  - rewrite ideals_rev. pose proof (ideals_seq None cs 0 ltac:(lia)) as Ht. rewrite Nat.sub_0_r, drop_0 in Ht.
    rewrite Ht, sum_ideal_all; [|by auto|by apply Forall_fmap]. split_and!; [done| | |cbn [ideal]; lia].
    + apply NoDup_ListNoDup, NoDup_rev, NoDup_ListNoDup, NoDup_seq.
    + apply Forall_forall. intros i Hr. apply list_elem_of_In, in_rev, list_elem_of_In, elem_of_seq in Hr. lia.
Qed.

Lemma sum_drop_zero (cs : list UnlockChunk) :
  sum (chunk_values (filter (fun c => chunk_value c <> 0) cs)) = sum (chunk_values cs).
Proof.
  induction cs as [|c cs IH]; [done|]. rewrite filter_cons. unfold chunk_values in *. cbn [fmap list_fmap].
  destruct (decide _) as [Hd|Hd]; cbn [fmap list_fmap]; rewrite ?sum_cons, IH; [done|]. lia.
Qed.

(** The result of a slash in full. *)
Lemma ledger_slash_spec {A} bd amt ed era (l l' : StakingLedger A) slashed m :
  ledger_ok l -> 0 <= amt <= U128_MAX -> ledger_slash bd amt ed era l = (l', slashed, m) ->
  ledger_ok l' /\ ledger_total l' = ledger_total l - slashed /\
  Z.min amt (ledger_total l) <= slashed <= Z.min (ledger_total l) (amt + Z.max (ed - 1) 0) /\
  stash l' = stash l /\ claimed_rewards l' = claimed_rewards l /\
  (length (unlocking l') <= length (unlocking l))%nat /\
  (amt <> 0 -> Forall (fun c => chunk_value c <> 0) (unlocking l')).
Proof.
  intros [Ha Hc Ht Hm] Hamt. unfold ledger_slash. pose proof (chunks_sum_nonneg _ Hc) as Hn.
  unfold unlocking_sum in Ht. destruct (Z.eqb_spec amt 0) as [->|Hamt0].
  { intros [= <- <- <-]. split_and!; try done; lia. }
  destruct (slash_plan bd amt era (active l) (unlocking l)) as [mp prio] eqn:Ep.
  apply slash_plan_spec in Ep as (Hr & Hnd & Hlt & Hplan); [|lia|done|done].
  destruct (slash_out_of mp ed (active l) (ledger_total l) amt) as [[a' t1] r1] eqn:Eo.
  apply slash_out_of_spec in Eo as (k0 & -> & -> & -> & Hk0 & Hmax0 & Hid0); [|done|lia..].
  destruct (slash_chunks _ _ _ _ _ _ _) as [[[cs t2] r2] m2] eqn:Es.
  apply slash_chunks_spec in Es as (k & Hsh & Hsum & -> & -> & Hk & Hz & Hid); [|done|done|done|done|lia..].
  intros [= <- <- <-]. rewrite sat_sub_exact by lia. pose proof (shrunk_nonneg _ _ Hsh) as Hf'.
  pose proof (chunks_sum_nonneg _ Hf').
  cbn [ledger_total stash claimed_rewards unlocking]. split_and!; try done.
  - split; cbn [active unlocking ledger_total]; [lia|by apply chunks_filter| |lia].
    unfold unlocking_sum. cbn [unlocking]. rewrite sum_drop_zero. lia.
  - lia.
  - lia.
  - lia.
  - rewrite <- (Forall2_length _ _ _ Hsh). apply length_filter.
  - intros _. apply Forall_forall. by intros c [Hc0 _]%list_elem_of_filter.
Qed.

(** C28. Slashing a ledger takes what it should.  For a ledger whose total is its active
    amount and its unlocking chunks: at least the amount asked for is taken, or all there
    is; never more than the amount and one less than the minimum balance on top of it
    (the rest of a part that would be left below the minimum goes too); the total falls by
    exactly what is reported, and stays the sum of the parts, and no chunk is empty. *)
Theorem ledger_slash_bounds {A} bd amt ed era (l l' : StakingLedger A) slashed m :
  ledger_ok l -> 0 <= amt <= U128_MAX -> ledger_slash bd amt ed era l = (l', slashed, m) ->
  ledger_ok l' /\ ledger_total l' = ledger_total l - slashed /\
  Z.min amt (ledger_total l) <= slashed <= Z.min (ledger_total l) (amt + Z.max (ed - 1) 0) /\
  (amt <> 0 -> Forall (fun c => chunk_value c <> 0) (unlocking l')).
Proof. intros Hok Ha Hs. apply ledger_slash_spec in Hs; [|done..]. tauto. Qed.
End slash_theorems.

(** Rebonding is inverse to unbonding: it moves what it can of the value, newest chunks
    first, from the unlocking chunks to the active amount and nothing else; the loop ends,
    the machine arithmetic in it does not overflow, and the total stays the sum of the
    parts. *)
Theorem rebond_moves_unlocking {A} value (l l' : StakingLedger A) r :
  ledger_ok l -> 0 <= value <= U128_MAX -> ledger_rebond value l = (l', r) ->
  ledger_ok l' /\ r = Z.min value (unlocking_sum l) /\ active l' = active l + r /\
  unlocking_sum l' = unlocking_sum l - r /\ ledger_total l' = ledger_total l.
Proof.
  intros Hok Hv Hr. apply rebond_spec in Hr as (Hok' & -> & Ha & Ht & _); [|done..].
  split_and!; [done..| |done]. pose proof (ok_total _ Hok). pose proof (ok_total _ Hok'). lia.
Qed.

(** ** Witnesses *)
Module LedgerWitness.
(** Exact proportions, rounded up. *)
#[export] Instance ceil_proportion : Proportion := {
  from_rational_up p q := if (q =? 0) || (q <? p) then None else Some (- ((- (p * QUINTILL)) / q));
  mul_ceil r v := - ((- (r * v)) / QUINTILL);
}.
Lemma ceil_bounds n d : 0 < d -> n <= - ((- n) / d) * d < n + d.
Proof. intros Hd. pose proof (Z.div_mod (- n) d ltac:(lia)). pose proof (Z.mod_pos_bound (- n) d Hd). lia. Qed.
#[export] Instance ceil_laws : ProportionLaws.
Proof.
  split; cbn [from_rational_up mul_ceil ceil_proportion].
  - intros p q r Hp Hq. destruct (Z.eqb_spec q 0) as [->|Hq0]; [done|]. destruct (Z.ltb_spec q p); [done|].
    cbn [orb]. pose proof (ceil_bounds (p * QUINTILL) q ltac:(lia)) as Hb.
    set (x := - (- (p * QUINTILL) / q)) in *. intros [= <-]. unfold QUINTILL in *. split; nia.
  - intros r v _ _. by apply ceil_bounds.
Qed.

(** 1000 active and 500 unlocking, in two chunks. *)
Definition l0 : StakingLedger Z := mkLedger 7 1500 1000 [mkChunk 200 5; mkChunk 300 30] [].
Lemma l0_ok : ledger_ok l0.
Proof. split; [done| |done|]; [|unfold U128_MAX; simpl; lia]. repeat constructor; simpl; lia. Qed.
Lemma slash_eq : ledger_slash 28 650 10 2 l0 = (mkLedger 7 850 500 [mkChunk 200 5; mkChunk 150 30] [], 650, Some {[ 30 := 150 ]}).
Proof. vm_compute. reflexivity. Qed.
Lemma ledger_slash_bounds_witness : Z.min 650 1500 <= 650 <= Z.min 1500 (650 + 9).
Proof.
  destruct (ledger_slash_bounds 28 650 10 2 l0 _ _ _ l0_ok ltac:(unfold U128_MAX; lia) slash_eq)
    as (_ & _ & Hb & _). exact Hb.
Defined.
(** More than the amount asked for: 995 of 1000 would leave 5, less than the minimum. *)
Example slash_above_amount :
  ledger_slash 28 995 10 2 (mkLedger 7 1000 1000 [] []) = (mkLedger 7 0 0 [] [], 1000, Some ∅).
Proof. vm_compute. reflexivity. Qed.
Lemma rebond_eq : ledger_rebond 400 l0 = (mkLedger 7 1500 1400 [mkChunk 100 5] [], 400).
Proof. vm_compute. reflexivity. Qed.
Lemma rebond_moves_unlocking_witness : 400 = Z.min 400 (unlocking_sum l0).
Proof.
  destruct (rebond_moves_unlocking 400 l0 _ _ l0_ok ltac:(unfold U128_MAX; lia) rebond_eq) as (_ & Hr & _). exact Hr.
Defined.
End LedgerWitness.
