(* ===== verification/SlashingSpans.v ===== *)
(** * Slashing spans

    Models [SlashingSpans] of [src/modules/staking/src/slashing.rs]: the history of a stash
    is cut into spans of eras, the last one still open, each with an index of its own;
    slashes in one span are compared with each other.  Eras and indices are [u32] and
    wrap around. *)

From stdpp Require Import base list strings.
From Stdlib Require Import ZArith Lia.
From S2P Require Import Prelude.

Local Open Scope Z_scope.

Abbreviation add32 := (wrap_add U32_MAX).
Abbreviation sub32 := (wrap_sub U32_MAX).

Record SlashingSpan : Type := mkSpan { span_idx : Z; span_start : Z; span_length : option Z }.
Definition contains_era (sp : SlashingSpan) (era : Z) : bool :=
  (span_start sp <=? era) &&
  match span_length sp with Some l => era <? add32 (span_start sp) l | None => true end.

Record SlashingSpans : Type := mkSpans {
  span_index : Z;
  last_start : Z;
  last_nonzero_slash : Z;
  prior : list Z;
}.

Definition spans_new (window_start : Z) : SlashingSpans := mkSpans 0 window_start 0 [].

(** The new spans, and whether a span was started. *)
Definition spans_end_span (now : Z) (s : SlashingSpans) : SlashingSpans * bool :=
  let next_start := add32 now 1 in
  if next_start <=? last_start s then (s, false)
  else (mkSpans (add32 (span_index s) 1) next_start (last_nonzero_slash s)
          (sub32 next_start (last_start s) :: prior s), true).

(** [iter]: the spans, most recent first. *)
Fixpoint prior_spans (start index : Z) (lengths : list Z) : list SlashingSpan :=
  match lengths with
  | [] => []
  | length :: rest =>
      let start := sub32 start length in
      let index := sub32 index 1 in
      mkSpan index start (Some length) :: prior_spans start index rest
  end.
Definition spans_iter (s : SlashingSpans) : list SlashingSpan :=
  mkSpan (span_index s) (last_start s) None :: prior_spans (last_start s) (span_index s) (prior s).

(** [InspectingSpans::era_span]. *)
Fixpoint find_span (era : Z) (l : list SlashingSpan) : option SlashingSpan :=
  match l with
  | [] => None
  | sp :: l' => if contains_era sp era then Some sp else find_span era l'
  end.
Definition era_span (s : SlashingSpans) (era : Z) : option SlashingSpan := find_span era (spans_iter s).

(** The first prior span that ended by the start of the window. *)
Definition is_old (window_start : Z) (sp : SlashingSpan) : bool :=
  match span_length sp with Some len => add32 (span_start sp) len <=? window_start | None => false end.
Fixpoint old_position (window_start : Z) (l : list SlashingSpan) : option nat :=
  match l with
  | [] => None
  | sp :: l' => if is_old window_start sp then Some O else S <$> old_position window_start l'
  end.
(** [prune]: the new spans, and the range of the indices that were dropped. *)
Definition spans_prune (window_start : Z) (s : SlashingSpans) : SlashingSpans * option (Z * Z) :=
  let old_idx := old_position window_start (drop 1 (spans_iter s)) in
  let earliest_span_index := sub32 (span_index s) (wrap U32_MAX (Z.of_nat (length (prior s)))) in
  let '(prior', pruned) :=
    match old_idx with
    | Some o =>
        let prior' := take o (prior s) in
        (prior', Some (earliest_span_index,
                       sub32 (span_index s) (wrap U32_MAX (Z.of_nat (length prior')))))
    | None => (prior s, None)
    end in
  (mkSpans (span_index s) (Z.max (last_start s) window_start) (last_nonzero_slash s) prior', pruned).

(** ** Theorems *)
Definition sum_prior (l : list Z) : Z := foldr Z.add 0 l.
Record spans_ok (s : SlashingSpans) : Prop := {
  so_prior : Forall (fun l => 0 < l) (prior s);
  so_start : sum_prior (prior s) <= last_start s <= U32_MAX;
  so_index : Z.of_nat (length (prior s)) <= span_index s <= U32_MAX;
}.

Lemma sum_prior_nonneg l : Forall (fun l => 0 < l) l -> 0 <= sum_prior l.
Proof. induction 1; simpl; lia. Qed.
Lemma add32_exact a b : 0 <= a + b <= U32_MAX -> add32 a b = a + b.
Proof. intros. by apply wrap_small. Qed.
Lemma sub32_exact a b : 0 <= a - b <= U32_MAX -> sub32 a b = a - b.
Proof. intros. by apply wrap_small. Qed.

(** The index of the span of an era, by a reading of the lengths that stops at the start
    of the spans. *)
Fixpoint prior_index (era start index : Z) (lengths : list Z) : option Z :=
  match lengths with
  | [] => None
  | length :: rest =>
      if start - length <=? era then Some (index - 1) else prior_index era (start - length) (index - 1) rest
  end.
Definition era_index (s : SlashingSpans) (era : Z) : option Z :=
  if last_start s <=? era then Some (span_index s) else prior_index era (last_start s) (span_index s) (prior s).

Lemma find_prior era lengths : forall start index,
  Forall (fun l => 0 < l) lengths -> sum_prior lengths <= start <= U32_MAX ->
  Z.of_nat (length lengths) <= index <= U32_MAX -> era < start ->
  span_idx <$> find_span era (prior_spans start index lengths) = prior_index era start index lengths.
Proof.
  induction lengths as [|len rest IH]; intros start index Hf Hs Hi He; [done|].
  apply Forall_cons in Hf as [Hlen Hf]. simpl in Hs. cbn [length] in Hi. pose proof (sum_prior_nonneg _ Hf).
  cbn [prior_spans find_span prior_index]. unfold contains_era. cbn [span_start span_length].
  rewrite (sub32_exact start len), (sub32_exact index 1), (add32_exact (start - len) len) by lia.
  replace (start - len + len) with start by lia. rewrite (proj2 (Z.ltb_lt era start)) by lia. rewrite andb_true_r.
  destruct (Z.leb_spec (start - len) era); [done|]. by apply IH; lia || done.
Qed.

(** The linear search of the code is the reading of the lengths. *)
Lemma era_span_index s era : spans_ok s -> span_idx <$> era_span s era = era_index s era.
Proof.
  intros [Hp Hs Hi]. unfold era_span, era_index, spans_iter.
  cbn [find_span]. unfold contains_era at 1. cbn [span_start span_length]. rewrite andb_true_r.
  destruct (Z.leb_spec (last_start s) era); [done|]. by apply find_prior.
Qed.

(** Where [prune] cuts, by the upper ends of the spans. *)
Fixpoint old_at (w start : Z) (lengths : list Z) : option nat :=
  match lengths with
  | [] => None
  | len :: rest => if start <=? w then Some O else S <$> old_at w (start - len) rest
  end.
Lemma old_position_at w lengths : forall start index,
  Forall (fun l => 0 < l) lengths -> sum_prior lengths <= start <= U32_MAX ->
  old_position w (prior_spans start index lengths) = old_at w start lengths.
Proof.
  induction lengths as [|len rest IH]; intros start index Hf Hs; [done|].
  apply Forall_cons in Hf as [Hlen Hf]. simpl in Hs. pose proof (sum_prior_nonneg _ Hf).
  cbn [prior_spans old_position old_at]. unfold is_old. cbn [span_length span_start].
  rewrite (sub32_exact start len), (add32_exact (start - len) len) by lia.
  replace (start - len + len) with start by lia. destruct (start <=? w); [done|]. by rewrite IH by (lia || done).
Qed.
Lemma prior_index_cut w era lengths : forall start index o,
  w <= era < start -> old_at w start lengths = Some o ->
  prior_index era start index (take o lengths) = prior_index era start index lengths.
Proof.
  induction lengths as [|len rest IH]; intros start index o He Ho; [done|]. cbn [old_at] in Ho.
  rewrite (proj2 (Z.leb_gt start w)) in Ho by lia. destruct (old_at w (start - len) rest) as [o'|] eqn:Eo; [|done].
  injection Ho as <-. cbn [take prior_index]. destruct (Z.leb_spec (start - len) era); [done|]. apply IH; [lia|done].
Qed.
Lemma sum_prior_take o l : Forall (fun l => 0 < l) l -> sum_prior (take o l) <= sum_prior l.
Proof.
  intros Hf. revert o. induction Hf as [|x l Hx Hf IH]; intros [|o]; simpl; try lia.
  - pose proof (sum_prior_nonneg _ Hf). lia.
  - specialize (IH o). lia.
Qed.
Lemma old_at_start w start lengths : start <= w -> old_at w start lengths = match lengths with [] => None | _ => Some O end.
Proof. intros. destruct lengths; [done|]. simpl. by rewrite (proj2 (Z.leb_le _ _)). Qed.

Lemma end_span_cases now s : spans_ok s -> 0 <= now < U32_MAX -> span_index s < U32_MAX ->
  spans_end_span now s =
    if now <? last_start s then (s, false)
    else (mkSpans (span_index s + 1) (now + 1) (last_nonzero_slash s) (now + 1 - last_start s :: prior s), true).
Proof.
  intros [Hp Hs Hi] Hn Hx. pose proof (sum_prior_nonneg _ Hp). unfold spans_end_span. rewrite (add32_exact now 1) by lia.
  destruct (Z.ltb_spec now (last_start s)); [by rewrite (proj2 (Z.leb_le _ _)) by lia|].
  rewrite (proj2 (Z.leb_gt _ _)), (add32_exact (span_index s) 1), sub32_exact by lia. done.
Qed.
Lemma prune_prior w s : spans_ok s ->
  prior (spans_prune w s).1 = match old_at w (last_start s) (prior s) with Some o => take o (prior s) | None => prior s end.
Proof.
  intros [Hp Hs Hi]. unfold spans_prune.
  change (drop 1 (spans_iter s)) with (prior_spans (last_start s) (span_index s) (prior s)).
  rewrite old_position_at by done. by destruct (old_at _ _ _).
Qed.
Lemma prune_fields w s : span_index (spans_prune w s).1 = span_index s /\
  last_start (spans_prune w s).1 = Z.max (last_start s) w /\
  last_nonzero_slash (spans_prune w s).1 = last_nonzero_slash s.
Proof. unfold spans_prune. by destruct (old_position _ _). Qed.

Lemma end_span_ok now s : spans_ok s -> 0 <= now < U32_MAX -> span_index s < U32_MAX ->
  spans_ok (spans_end_span now s).1.
Proof.
  intros Hok Hn Hx. pose proof Hok as [Hp Hs Hi]. rewrite end_span_cases by done.
  destruct (Z.ltb_spec now (last_start s)); [done|].
  split; cbn [fst prior last_start span_index sum_prior foldr length]; [constructor; [lia|done]| |lia].
  fold (sum_prior (prior s)). lia.
Qed.
Lemma prune_ok w s : spans_ok s -> in_u U32_MAX w -> spans_ok (spans_prune w s).1.
Proof.
  intros Hok [Hw0 Hw]. pose proof Hok as [Hp Hs Hi].
  destruct (prune_fields w s) as (Hi' & Hs' & _). pose proof (prune_prior w s Hok) as Hp'.
  assert (exists o, prior (spans_prune w s).1 = take o (prior s)) as [o Ho].
  { rewrite Hp'. destruct (old_at _ _ _) as [o|]; [by exists o|exists (length (prior s)); by rewrite take_ge]. }
  split; rewrite ?Hi', ?Hs', Ho.
  - by apply Forall_take.
  - pose proof (sum_prior_take o _ Hp). lia.
  - rewrite length_take. lia.
Qed.

Lemma end_span_index now s era : spans_ok s -> 0 <= now < U32_MAX -> span_index s < U32_MAX -> last_start s <= now ->
  span_idx <$> era_span (spans_end_span now s).1 era =
    if era <=? now then span_idx <$> era_span s era else Some (span_index s + 1).
Proof.
  intros Hok Hn Hx Hl. rewrite !era_span_index by eauto using end_span_ok. rewrite end_span_cases by done. unfold era_index.
  rewrite (proj2 (Z.ltb_ge _ _)) by lia. cbn [fst last_start span_index prior prior_index].
  destruct (Z.leb_spec era now); [rewrite (proj2 (Z.leb_gt _ _)) by lia|by rewrite (proj2 (Z.leb_le _ _)) by lia].
  replace (now + 1 - (now + 1 - last_start s)) with (last_start s) by lia.
  replace (span_index s + 1 - 1) with (span_index s) by lia. done.
Qed.
Lemma end_span_none now s : spans_ok s -> 0 <= now < U32_MAX -> span_index s < U32_MAX -> now < last_start s ->
  spans_end_span now s = (s, false).
Proof. intros Hok Hn Hx Hl. rewrite end_span_cases by done. by rewrite (proj2 (Z.ltb_lt _ _)). Qed.
Lemma prune_index w s era : spans_ok s -> in_u U32_MAX w -> w <= era ->
  span_idx <$> era_span (spans_prune w s).1 era = span_idx <$> era_span s era.
Proof.
  intros Hok Hw He. rewrite !era_span_index by eauto using prune_ok. unfold era_index.
  destruct (prune_fields w s) as (-> & -> & _). rewrite prune_prior by done.
  destruct (Z.leb_spec (last_start s) era) as [Hle|Hgt]; [by rewrite (proj2 (Z.leb_le _ _)) by lia|].
  rewrite (proj2 (Z.leb_gt _ _)), Z.max_l by lia.
  destruct (old_at w (last_start s) (prior s)) as [o|] eqn:Eo; [|done]. by apply (prior_index_cut w).
Qed.

(** The indices that pruning drops are below the index of every era of the window. *)
Lemma prior_index_lower era lengths : forall start index k, prior_index era start index lengths = Some k ->
  index - Z.of_nat (length lengths) <= k < index.
Proof.
  induction lengths as [|len rest IH]; intros start index k; cbn [prior_index length]; [done|].
  destruct (_ <=? _); [intros [= <-]; lia|]. intros Hk%IH. lia.
Qed.
Lemma era_index_lower s era k : era_index s era = Some k -> span_index s - Z.of_nat (length (prior s)) <= k <= span_index s.
Proof. unfold era_index. destruct (_ <=? _); [intros [= <-]; lia|]. intros Hk%prior_index_lower. lia. Qed.
Lemma pruned_below w s era k from to : spans_ok s -> in_u U32_MAX w -> w <= era ->
  span_idx <$> era_span s era = Some k -> (spans_prune w s).2 = Some (from, to) -> to <= k.
Proof.
  intros Hok Hw He Hk Hp. rewrite <- (prune_index w s era Hok Hw He) in Hk.
  pose proof (prune_ok w s Hok Hw) as Hok'. rewrite era_span_index in Hk by done. apply era_index_lower in Hk.
  unfold spans_prune in *. destruct (old_position _ _) as [o|]; [|done]. cbn [fst snd prior span_index] in *.
  injection Hp as _ <-. destruct Hok' as [_ _ Hi]. cbn [prior span_index] in Hi. pose proof (so_index _ Hok).
  rewrite wrap_small by (unfold in_u; lia). rewrite sub32_exact by lia. lia.
Qed.
(** What [era_span] reads. *)
Lemma era_span_shape s s' era : span_index s' = span_index s -> last_start s' = last_start s -> prior s' = prior s ->
  era_span s' era = era_span s era.
Proof. intros H1 H2 H3. unfold era_span, spans_iter. by rewrite H1, H2, H3. Qed.

(** *** What pruning keeps *)
(** The window that starts at [w] has left the span behind; of the open span it has only
    left the eras before [w]. *)
Definition left_behind (w era : Z) (sp : SlashingSpan) : bool :=
  match span_length sp with Some l => span_start sp + l <=? w | None => era <? w end.
(** How many prior spans pruning keeps. *)
Definition kept (w start : Z) (lengths : list Z) : nat := default (length lengths) (old_at w start lengths).

Lemma found_prior era lengths : forall start index sp,
  Forall (fun l => 0 < l) lengths -> sum_prior lengths <= start <= U32_MAX ->
  Z.of_nat (length lengths) <= index <= U32_MAX ->
  find_span era (prior_spans start index lengths) = Some sp ->
  exists l, span_length sp = Some l /\ span_start sp + l <= start /\ span_start sp <= era < span_start sp + l /\
    index - Z.of_nat (length lengths) <= span_idx sp < index.
Proof.
  induction lengths as [|len rest IH]; intros start index sp Hf Hs Hi; [done|].
  apply Forall_cons in Hf as [Hlen Hf]. simpl in Hs. cbn [length] in *. pose proof (sum_prior_nonneg _ Hf).
  cbn [prior_spans find_span]. unfold contains_era. cbn [span_start span_length].
  rewrite (sub32_exact start len), (sub32_exact index 1), (add32_exact (start - len) len) by lia.
  destruct (_ && _) eqn:E.
  - intros [= <-]. exists len. cbn. apply andb_true_iff in E as [?%Z.leb_le ?%Z.ltb_lt]. split_and!; (done || lia).
  - intros Hq. destruct (IH (start - len) (index - 1) sp) as (l & ? & ? & ? & ?); [done|lia|lia|done|].
    exists l. split_and!; (done || lia).
Qed.
Lemma kept_cons w start len rest :
  kept w start (len :: rest) = if start <=? w then O else S (kept w (start - len) rest).
Proof. unfold kept. cbn [old_at length]. destruct (_ <=? _); [done|]. by destruct (old_at _ _ _). Qed.
Lemma kept_le w lengths : forall start, (kept w start lengths <= length lengths)%nat.
Proof.
  induction lengths as [|len rest IH]; intros start; [done|]. rewrite kept_cons. cbn [length].
  destruct (_ <=? _); [lia|]. specialize (IH (start - len)). lia.
Qed.
Lemma find_kept w era lengths : forall start index,
  Forall (fun l => 0 < l) lengths -> sum_prior lengths <= start <= U32_MAX ->
  Z.of_nat (length lengths) <= index <= U32_MAX ->
  find_span era (prior_spans start index (take (kept w start lengths) lengths)) =
    (sp ← find_span era (prior_spans start index lengths); if left_behind w era sp then None else Some sp) /\
  (forall sp, find_span era (prior_spans start index lengths) = Some sp ->
     left_behind w era sp = true <-> span_idx sp < index - Z.of_nat (kept w start lengths)).
Proof.
  induction lengths as [|len rest IH]; intros start index Hf Hs Hi; [done|].
  pose proof (found_prior era (len :: rest) start index) as Hfound. rewrite kept_cons.
  destruct (Z.leb_spec start w) as [Hw|Hw].
  - assert (forall sp, find_span era (prior_spans start index (len :: rest)) = Some sp ->
      left_behind w era sp = true /\ span_idx sp < index) as Hall.
    { intros sp Hq. destruct (Hfound sp Hf Hs Hi Hq) as (l & E & ? & ? & ?). unfold left_behind. rewrite E. lia. }
    split.
    + destruct (find_span era (prior_spans start index (len :: rest))) as [sp|]; [|done].
      cbn. by rewrite (proj1 (Hall sp eq_refl)).
    + intros sp Hq. destruct (Hall sp Hq). split; [lia|done].
  - apply Forall_cons in Hf as [Hlen Hf]. simpl in Hs. cbn [length] in Hi. pose proof (sum_prior_nonneg _ Hf).
    pose proof (kept_le w rest (start - len)) as Hk.
    cbn [take prior_spans find_span]. unfold contains_era. cbn [span_start span_length].
    rewrite (sub32_exact start len), (sub32_exact index 1), (add32_exact (start - len) len) by lia.
    destruct (IH (start - len) (index - 1) Hf) as [IH1 IH2]; [lia|lia|].
    destruct (_ && _) eqn:E.
    + assert (left_behind w era (mkSpan (index - 1) (start - len) (Some len)) = false) as Hn
        by (unfold left_behind; cbn; lia).
      split; [cbn [mbind option_bind]; by rewrite Hn|]. intros sp [= <-]. rewrite Hn. cbn [span_idx]. split; [done|lia].
    + split; [exact IH1|]. intros sp Hq. rewrite (IH2 sp Hq). lia.
Qed.
Lemma prune_kept w s : spans_ok s ->
  prior (spans_prune w s).1 = take (kept w (last_start s) (prior s)) (prior s).
Proof.
  intros Hok. rewrite prune_prior by done. unfold kept. destruct (old_at _ _ _); [done|]. cbn. by rewrite firstn_all.
Qed.
(** Pruning maps each era to the span it had, unless the window has left that behind. *)
Lemma prune_span w s era : spans_ok s -> in_u U32_MAX w ->
  span_idx <$> era_span (spans_prune w s).1 era =
  span_idx <$> (sp ← era_span s era; if left_behind w era sp then None else Some sp).
Proof.
  intros Hok [Hw0 Hw]. pose proof Hok as [Hp Hs Hi]. unfold era_span at 1, spans_iter.
  destruct (prune_fields w s) as (-> & -> & _). rewrite prune_kept by done.
  unfold era_span, spans_iter. cbn [find_span]. unfold contains_era at 1 2. cbn [span_start span_length]. rewrite !andb_true_r.
  destruct (find_kept w era (prior s) (last_start s) (span_index s) Hp Hs Hi) as [Hk _].
  destruct (Z.leb_spec (last_start s) era) as [Hle|Hlt].
  - unfold mbind, option_bind, left_behind. cbn [span_length]. destruct (Z.ltb_spec era w) as [Hew|Hew].
    + rewrite (proj2 (Z.leb_gt _ _)) by lia. unfold kept. rewrite old_at_start by lia. by destruct (prior s).
    + by rewrite (proj2 (Z.leb_le _ _)) by lia.
  - rewrite (proj2 (Z.leb_gt _ _)) by lia. destruct (Z.le_gt_cases w (last_start s)) as [Hwl|Hwl].
    + rewrite Z.max_l by done. by rewrite Hk.
    + rewrite <- Hk. unfold kept. rewrite old_at_start by lia. by destruct (prior s).
Qed.
(** The range it reports is that of the spans it dropped. *)
Lemma prune_reported w s : spans_ok s ->
  (spans_prune w s).2 = let from := span_index s - Z.of_nat (length (prior s)) in
    match old_at w (last_start s) (prior s) with
    | Some o => Some (from, span_index s - Z.of_nat o) | None => None end.
Proof.
  intros [Hp Hs Hi]. unfold spans_prune.
  change (drop 1 (spans_iter s)) with (prior_spans (last_start s) (span_index s) (prior s)).
  rewrite old_position_at by done. cbv zeta. destruct (old_at w (last_start s) (prior s)) as [o|] eqn:E; [|done]. cbn [snd].
  assert (kept w (last_start s) (prior s) = o) as Hk by (unfold kept; by rewrite E).
  pose proof (kept_le w (prior s) (last_start s)). rewrite length_take, Nat.min_l by lia.
  rewrite !wrap_small by (unfold in_u; lia). by rewrite !sub32_exact by lia.
Qed.
Lemma prune_drops w s era sp : spans_ok s -> era_span s era = Some sp -> is_Some (span_length sp) ->
  left_behind w era sp = true <-> exists from to, (spans_prune w s).2 = Some (from, to) /\ from <= span_idx sp < to.
Proof.
  intros Hok Hsp [l Hl]. pose proof Hok as [Hp Hs Hi]. rewrite prune_reported by done. cbv zeta.
  revert Hsp. unfold era_span, spans_iter. cbn [find_span]. unfold contains_era at 1. cbn [span_start span_length]. rewrite andb_true_r.
  destruct (last_start s <=? era); [intros [= <-]; done|]. intros Hsp.
  destruct (found_prior _ _ _ _ _ Hp Hs Hi Hsp) as (l' & _ & _ & _ & Hr).
  destruct (find_kept w era (prior s) (last_start s) (span_index s) Hp Hs Hi) as [_ Hk]. rewrite (Hk sp Hsp). unfold kept.
  destruct (old_at _ _ _) as [o|]; cbn; [|split; [lia|naive_solver]].
  split; [intros; eexists _, _; split; [done|lia]|]. intros (from & to & [= <- <-] & ?). lia.
Qed.

(** C36. The spans of a stash account for its eras.  As long as eras and indices are below
    the end of [u32], every operation keeps the record well formed (positive lengths that do
    not reach back before era zero, no more of them than indices) and the era index that
    [era_span] reads off it is exact.  New spans have every era from the start of the window
    in span zero.  Ending the span at [now] starts a new one exactly if the open span had
    started by then: later eras get the next index, earlier ones keep theirs; otherwise
    nothing changes.  Pruning against a window forgets exactly the spans that are over by its
    start, and the eras before it of an open span; every other era keeps its index.  The
    range pruning reports holds the index of a finished span exactly if it forgot that
    span. *)
Theorem spans_account_for_eras w now s era :
  in_u U32_MAX w -> 0 <= now < U32_MAX -> spans_ok s -> span_index s < U32_MAX ->
  (spans_ok (spans_new w) /\ span_idx <$> era_span (spans_new w) era = if w <=? era then Some 0 else None) /\
  (spans_ok (spans_end_span now s).1 /\
   (spans_end_span now s).2 = (last_start s <=? now) /\
   (now < last_start s -> (spans_end_span now s).1 = s) /\
   (last_start s <= now -> span_idx <$> era_span (spans_end_span now s).1 era =
      if era <=? now then span_idx <$> era_span s era else Some (span_index s + 1))) /\
  (spans_ok (spans_prune w s).1 /\
   span_idx <$> era_span (spans_prune w s).1 era =
     span_idx <$> (sp ← era_span s era; if left_behind w era sp then None else Some sp) /\
   (forall sp, era_span s era = Some sp -> is_Some (span_length sp) ->
      left_behind w era sp = true <->
      exists from to, (spans_prune w s).2 = Some (from, to) /\ from <= span_idx sp < to)).
Proof.
  intros Hw Hn Hok Hx. split_and!.
  - destruct Hw. split; cbn; [constructor|lia|unfold U32_MAX; lia].
  - unfold era_span. cbn. unfold contains_era. cbn. rewrite andb_true_r. by destruct (w <=? era).
  - by apply end_span_ok.
  - rewrite end_span_cases by done. destruct (Z.ltb_spec now (last_start s)); cbn; lia.
  - intros Hl. by rewrite end_span_none.
  - by apply end_span_index.
  - by apply prune_ok.
  - by apply prune_span.
  - intros sp. by apply prune_drops.
Qed.

(** ** Witnesses *)
Module SpansWitness.
(** Spans 5-9 (index 0), 10-11 (index 1) and from 12 on (index 2). *)
Definition s0 : SlashingSpans := mkSpans 2 12 0 [2; 5].
Lemma s0_spans_ok : spans_ok s0.
Proof. split; [repeat constructor|vm_compute; split; discriminate..]. Qed.
Lemma in_window (n : Z) : (0 <=? n) && (n <=? U32_MAX) = true -> in_u U32_MAX n.
Proof. unfold in_u. lia. Qed.
Lemma below_end (n : Z) : (0 <=? n) && (n <? U32_MAX) = true -> 0 <= n < U32_MAX.
Proof. lia. Qed.
(** The window from 10 on leaves the first span behind: era 9 has no index any more, era 11
    keeps its own, and the report names index 0. *)
Lemma spans_account_for_eras_witness :
  span_idx <$> era_span (spans_end_span 20 s0).1 21 = Some 3 /\
  span_idx <$> era_span (spans_prune 10 s0).1 9 = None /\
  span_idx <$> era_span (spans_prune 10 s0).1 11 = Some 1 /\
  exists from to, (spans_prune 10 s0).2 = Some (from, to) /\ from <= 0 < to.
Proof.
  pose proof (spans_account_for_eras 10 20 s0 9 (in_window 10 eq_refl) (below_end 20 eq_refl) s0_spans_ok eq_refl) as (_ & _ & _ & H9 & Hr).
  pose proof (spans_account_for_eras 10 20 s0 11 (in_window 10 eq_refl) (below_end 20 eq_refl) s0_spans_ok eq_refl) as (_ & _ & _ & H11 & _).
  pose proof (spans_account_for_eras 10 20 s0 21 (in_window 10 eq_refl) (below_end 20 eq_refl) s0_spans_ok eq_refl) as (_ & (_ & _ & _ & He) & _).
  split; [rewrite He by (vm_compute; discriminate); reflexivity|]. split; [rewrite H9; reflexivity|].
  split; [rewrite H11; reflexivity|].
  apply (Hr (mkSpan 0 5 (Some 5)) eq_refl (mk_is_Some _ 5 eq_refl)). reflexivity.
Defined.
Example s0_pruned : spans_prune 10 s0 = (mkSpans 2 12 0 [2], Some (0, 1)).
Proof. reflexivity. Qed.
End SpansWitness.
