(* ===== verification/Staking.v ===== *)
(** * The staking pallet: bonds and roles

    Models the storage of [src/modules/staking/src/pallet/mod.rs], its calls, and the helpers
    of [src/modules/staking/src/pallet/impls.rs] that they use: bonding, unbonding and
    withdrawing, the roles of validators and nominators, administration.  The slashing
    metadata is cleared here ([clear_stash_metadata] of [slashing.rs]); [StakingSlashing]
    models the rest of it.

    The class [StakingHost] collects what the pallet asks of its [Config]: the lockable
    currency, the reference counters, the sorted list of voters, the session and the
    handlers.  [Percent], [Perbill] and [CurrencyToVote] are operations of it.  Stored
    nominations always decode in the model, so that [chill_other] has no case for the ones
    that do not. *)

From stdpp Require Import base gmap list strings.
From Stdlib Require Import ZArith Lia.
From S2P Require Import Prelude StakingLedger SlashingSpans.

Local Open Scope Z_scope.

(** ** Data *)
Inductive RewardDestination (A : Type) : Type :=
| ToStaked | ToStash | ToController | ToAccount (a : A) | ToNone.
Arguments ToStaked {A}. Arguments ToStash {A}. Arguments ToController {A}.
Arguments ToAccount {A}. Arguments ToNone {A}.
Record ValidatorPrefs : Type := mkPrefs { commission : Z; blocked : bool }.
Definition default_prefs : ValidatorPrefs := mkPrefs 0 false.
Record Nominations (A : Type) : Type := mkNominations { targets : list A; submitted_in : Z; suppressed : bool }.
Arguments mkNominations {A}. Arguments targets {A}. Arguments submitted_in {A}. Arguments suppressed {A}.
Record IndividualExposure (A : Type) : Type := mkIndividual { ie_who : A; ie_value : Z }.
Arguments mkIndividual {A}. Arguments ie_who {A}. Arguments ie_value {A}.
Record Exposure (A : Type) : Type := mkExposure { ex_total : Z; ex_own : Z; ex_others : list (IndividualExposure A) }.
Arguments mkExposure {A}. Arguments ex_total {A}. Arguments ex_own {A}. Arguments ex_others {A}.
Record UnappliedSlash (A : Type) : Type := mkUnapplied {
  us_validator : A; us_own : Z; us_others : list (A * Z); us_reporters : list A; us_payout : Z;
}.
Arguments mkUnapplied {A}. Arguments us_validator {A}. Arguments us_own {A}. Arguments us_others {A}.
Arguments us_reporters {A}. Arguments us_payout {A}.
Record SpanRecord : Type := mkSpanRecord { sr_slashed : Z; sr_paid_out : Z }.
Record ActiveEraInfo : Type := mkActiveEra { ai_index : Z; ai_start : option Z }.
Inductive Forcing : Type := NotForcing | ForceNew | ForceNone | ForceAlways.
Inductive ConfigOp (T : Type) : Type := Noop | SetTo (v : T) | Remove.
Arguments Noop {T}. Arguments SetTo {T}. Arguments Remove {T}.

Module StakingError.
Inductive t :=
| NotController | NotStash | AlreadyBonded | AlreadyPaired | EmptyTargets | DuplicateIndex | InvalidSlashIndex
| InsufficientBond | NoMoreChunks | NoUnlockChunk | FundedTarget | InvalidEraToReward
| InvalidNumberOfNominations | NotSortedAndUnique | AlreadyClaimed | IncorrectHistoryDepth
| IncorrectSlashingSpans | BadState | TooManyTargets | BadTarget | CannotChillOther | TooManyNominators
| TooManyValidators | CommissionTooLow | BoundNotMet.
Definition name (e : t) : string :=
  match e with
  | NotController => "NotController" | NotStash => "NotStash" | AlreadyBonded => "AlreadyBonded"
  | AlreadyPaired => "AlreadyPaired" | EmptyTargets => "EmptyTargets" | DuplicateIndex => "DuplicateIndex"
  | InvalidSlashIndex => "InvalidSlashIndex" | InsufficientBond => "InsufficientBond"
  | NoMoreChunks => "NoMoreChunks" | NoUnlockChunk => "NoUnlockChunk" | FundedTarget => "FundedTarget"
  | InvalidEraToReward => "InvalidEraToReward" | InvalidNumberOfNominations => "InvalidNumberOfNominations"
  | NotSortedAndUnique => "NotSortedAndUnique" | AlreadyClaimed => "AlreadyClaimed"
  | IncorrectHistoryDepth => "IncorrectHistoryDepth" | IncorrectSlashingSpans => "IncorrectSlashingSpans"
  | BadState => "BadState" | TooManyTargets => "TooManyTargets" | BadTarget => "BadTarget"
  | CannotChillOther => "CannotChillOther" | TooManyNominators => "TooManyNominators"
  | TooManyValidators => "TooManyValidators" | CommissionTooLow => "CommissionTooLow"
  | BoundNotMet => "BoundNotMet"
  end.
End StakingError.
Definition stk_err (e : StakingError.t) : DispatchError := Module (StakingError.name e).

Inductive StakingEvent (A : Type) : Type :=
| EvBonded (stash : A) (amount : Z)
| EvUnbonded (stash : A) (amount : Z)
| EvWithdrawn (stash : A) (amount : Z)
| EvKicked (nominator stash : A)
| EvChilled (stash : A)
| EvPrefsSet (stash : A) (prefs : ValidatorPrefs)
| EvForceEra (mode : Forcing)
| EvSlashed (staker : A) (amount : Z)
| EvSlashReported (validator : A) (fraction slash_era : Z)
| EvOldSlashingReportDiscarded (session_index : Z)
| EvEraPaid (era_index validator_payout remainder : Z)
| EvPayoutStarted (era_index : Z) (validator_stash : A)
| EvRewarded (stash : A) (amount : Z)
| EvStakersElected
| EvStakingElectionFailed.
Arguments EvBonded {A}. Arguments EvUnbonded {A}. Arguments EvWithdrawn {A}. Arguments EvKicked {A}.
Arguments EvChilled {A}. Arguments EvPrefsSet {A}. Arguments EvForceEra {A}. Arguments EvSlashed {A}.
Arguments EvSlashReported {A}. Arguments EvOldSlashingReportDiscarded {A}. Arguments EvEraPaid {A}.
Arguments EvPayoutStarted {A}. Arguments EvRewarded {A}. Arguments EvStakersElected {A}. Arguments EvStakingElectionFailed {A}.

(** ** Storage *)
Section storage.
Context (X A : Type) `{Countable A}.

(** Who is bonded, with which ledger, and in which role. *)
Record Stakes : Type := mkStakes {
  Bonded : gmap A A;
  Ledger : gmap A (StakingLedger A);
  Payee : gmap A (RewardDestination A);
  Validators : gmap A ValidatorPrefs;
  Nominators : gmap A (Nominations A);
}.
(** What root and the admin origin set. *)
Record Params : Type := mkParams {
  ValidatorCount : Z;
  MinimumValidatorCount : Z;
  MinNominatorBond : Z;
  MinValidatorBond : Z;
  MinCommission : Z;
  MaxValidatorsCount : option Z;
  MaxNominatorsCount : option Z;
  ChillThreshold : option Z;
  Invulnerables : list A;
  ForceEra : Forcing;
  SlashRewardFraction : Z;
}.
(** [EraRewardPoints]. *)
Record RewardPoints : Type := mkPoints { rp_total : Z; rp_individual : gmap A Z }.
(** The eras, planned ([CurrentEra]) and active, and what is kept of each. *)
Record Eras : Type := mkEras {
  CurrentEra : option Z;
  ActiveEra : option ActiveEraInfo;
  BondedEras : list (Z * Z);
  ErasStartSessionIndex : gmap Z Z;
  CurrentPlannedSession : Z;
  ErasStakers : gmap (Z * A) (Exposure A);
  ErasStakersClipped : gmap (Z * A) (Exposure A);
  ErasValidatorPrefs : gmap (Z * A) ValidatorPrefs;
  ErasValidatorReward : gmap Z Z;
  ErasRewardPoints : gmap Z RewardPoints;
  ErasTotalStake : gmap Z Z;
  MinimumActiveStake : Z;
}.
(** Slashing metadata and slashes that wait. *)
Record Slashes : Type := mkSlashes {
  SlashingSpansOf : gmap A SlashingSpans;
  SpanSlash : gmap (A * Z) SpanRecord;
  ValidatorSlashInEra : gmap (Z * A) (Z * Z);
  NominatorSlashInEra : gmap (Z * A) Z;
  UnappliedSlashes : gmap Z (list (UnappliedSlash A));
  OffendingValidators : list (Z * bool);
}.
Record Staking : Type := mkStaking {
  stakes : Stakes;
  params : Params;
  eras : Eras;
  slashes : Slashes;
  stk_events : list (StakingEvent A);
  stk_rest : X;
}.
End storage.
Arguments mkStakes {A EqDecision0 H}. Arguments Bonded {A EqDecision0 H}. Arguments Ledger {A EqDecision0 H}.
Arguments Payee {A EqDecision0 H}. Arguments Validators {A EqDecision0 H}. Arguments Nominators {A EqDecision0 H}.
Arguments mkParams {A}. Arguments ValidatorCount {A}. Arguments MinimumValidatorCount {A}.
Arguments MinNominatorBond {A}. Arguments MinValidatorBond {A}. Arguments MinCommission {A}.
Arguments MaxValidatorsCount {A}. Arguments MaxNominatorsCount {A}. Arguments ChillThreshold {A}.
Arguments Invulnerables {A}. Arguments ForceEra {A}. Arguments SlashRewardFraction {A}.
Arguments mkPoints {A EqDecision0 H}. Arguments rp_total {A EqDecision0 H}. Arguments rp_individual {A EqDecision0 H}.
Arguments mkEras {A EqDecision0 H}. Arguments CurrentEra {A EqDecision0 H}. Arguments ActiveEra {A EqDecision0 H}.
Arguments BondedEras {A EqDecision0 H}. Arguments ErasStartSessionIndex {A EqDecision0 H}.
Arguments CurrentPlannedSession {A EqDecision0 H}. Arguments ErasStakers {A EqDecision0 H}.
Arguments ErasStakersClipped {A EqDecision0 H}. Arguments ErasValidatorPrefs {A EqDecision0 H}.
Arguments ErasValidatorReward {A EqDecision0 H}. Arguments ErasRewardPoints {A EqDecision0 H}.
Arguments ErasTotalStake {A EqDecision0 H}. Arguments MinimumActiveStake {A EqDecision0 H}.
Arguments mkSlashes {A EqDecision0 H}. Arguments SlashingSpansOf {A EqDecision0 H}.
Arguments SpanSlash {A EqDecision0 H}. Arguments ValidatorSlashInEra {A EqDecision0 H}.
Arguments NominatorSlashInEra {A EqDecision0 H}. Arguments UnappliedSlashes {A EqDecision0 H}.
Arguments OffendingValidators {A EqDecision0 H}.
Arguments mkStaking {X A EqDecision0 H}. Arguments stakes {X A EqDecision0 H}. Arguments params {X A EqDecision0 H}.
Arguments eras {X A EqDecision0 H}. Arguments slashes {X A EqDecision0 H}.
Arguments stk_events {X A EqDecision0 H}. Arguments stk_rest {X A EqDecision0 H}.

(** ** What the pallet asks of the runtime *)
Class StakingHost (X A : Type) : Type := {
  (** The currency; imbalances are amounts, the lock is the one with [STAKING_ID]. *)
  sh_minimum_balance : Z;
  sh_total_issuance : X -> Z;
  sh_free_balance : X -> A -> Z;
  sh_total_balance : X -> A -> Z;
  sh_set_lock : A -> Z -> X -> X;
  sh_remove_lock : A -> X -> X;
  sh_slash : A -> Z -> X -> X * (Z * Z);
  sh_resolve_creating : A -> Z -> X -> X;
  (** [frame_system]; [inc_consumers] can fail. *)
  sh_inc_consumers : A -> X -> option X;
  sh_dec_consumers : A -> X -> X;
  (** [VoterList]; its errors are dropped. *)
  sh_voter_contains : X -> A -> bool;
  sh_voter_update : A -> Z -> X -> X;
  sh_voter_insert : A -> Z -> X -> X;
  sh_voter_remove : A -> X -> X;
  (** [CurrencyToVote::to_vote]. *)
  sh_to_vote : Z -> Z -> Z;
  (** [SessionInterface]. *)
  sh_validators : X -> list A;
  sh_disable_validator : Z -> X -> X;
  (** [OnStakerSlash::on_slash] and the handler [Slash] of imbalances. *)
  sh_on_staker_slash : A -> Z -> gmap Z Z -> X -> X;
  sh_on_slash_imbalance : Z -> X -> X;
  (** [Percent::mul_floor], [Percent * u32] and [Perbill *]. *)
  sh_percent_mul_floor : Z -> Z -> Z;
  sh_percent_mul : Z -> Z -> Z;
  sh_perbill_mul : Z -> Z -> Z;
}.
Record StakingConfig : Type := mkStakingConfig {
  MaxUnlockingChunks : Z;
  MaxNominations : Z;
  HistoryDepth : Z;
  BondingDuration : Z;
  SlashDeferDuration : Z;
  MaxWinners : Z;
  OffendingThreshold : Z;
  SessionsPerEra : Z;
  MaxNominatorRewardedPerValidator : Z;
}.

(** A call with its arguments.  [payout_stakers], which needs the eras and their rewards, is
    [StakingEras.payout_stakers]; runs take it as a step beside these calls. *)
Inductive Call (A Source : Type) : Type :=
| CallBond (value : Z) (payee : RewardDestination A) | CallBondExtra (max_additional : Z)
| CallUnbond (value : Z) | CallWithdrawUnbonded (spans : Z) | CallRebond (value : Z)
| CallValidate (prefs : ValidatorPrefs) | CallNominate (ts : list Source) | CallKick (who : list Source)
| CallChill | CallSetPayee (payee : RewardDestination A) | CallSetController
| CallSetValidatorCount (new : Z) | CallIncreaseValidatorCount (additional : Z) | CallScaleValidatorCount (factor : Z)
| CallForceNoEras | CallForceNewEra | CallForceNewEraAlways | CallSetInvulnerables (l : list A)
| CallForceUnstake (who : A) (spans : Z) | CallReapStash (who : A) (spans : Z)
| CallCancelDeferredSlash (era : Z) (indices : list Z) | CallSetMinCommission (new : Z)
| CallSetStakingConfigs (minnom minval maxnom maxval chill mincom : ConfigOp Z)
| CallChillOther (controller : A) | CallForceApplyMinCommission (validator : A).
Arguments CallBond {A Source}. Arguments CallBondExtra {A Source}. Arguments CallUnbond {A Source}.
Arguments CallWithdrawUnbonded {A Source}. Arguments CallRebond {A Source}.
Arguments CallValidate {A Source}. Arguments CallNominate {A Source}. Arguments CallKick {A Source}.
Arguments CallChill {A Source}. Arguments CallSetPayee {A Source}. Arguments CallSetController {A Source}.
Arguments CallSetValidatorCount {A Source}. Arguments CallIncreaseValidatorCount {A Source}.
Arguments CallScaleValidatorCount {A Source}. Arguments CallForceNoEras {A Source}.
Arguments CallForceNewEra {A Source}. Arguments CallForceNewEraAlways {A Source}.
Arguments CallSetInvulnerables {A Source}. Arguments CallForceUnstake {A Source}.
Arguments CallReapStash {A Source}. Arguments CallCancelDeferredSlash {A Source}.
Arguments CallSetMinCommission {A Source}. Arguments CallSetStakingConfigs {A Source}.
Arguments CallChillOther {A Source}. Arguments CallForceApplyMinCommission {A Source}.

Section pallet.
Context {X A : Type} `{Countable A} `{StakingHost X A}.
Variable cfg : StakingConfig.
Abbreviation St := (Staking X A).
Abbreviation MS := (M St DispatchError).
Implicit Types s : St.

Definition set_stakes v s : St := mkStaking v (params s) (eras s) (slashes s) (stk_events s) (stk_rest s).
Definition set_params v s : St := mkStaking (stakes s) v (eras s) (slashes s) (stk_events s) (stk_rest s).
Definition set_slashes v s : St := mkStaking (stakes s) (params s) (eras s) v (stk_events s) (stk_rest s).
Definition emit e s : St :=
  mkStaking (stakes s) (params s) (eras s) (slashes s) (stk_events s ++ [e]) (stk_rest s).
Definition on_host (f : X -> X) s : St :=
  mkStaking (stakes s) (params s) (eras s) (slashes s) (stk_events s) (f (stk_rest s)).

Definition set_bonded v s : St := set_stakes (mkStakes v (Ledger (stakes s)) (Payee (stakes s))
  (Validators (stakes s)) (Nominators (stakes s))) s.
Definition set_ledgers v s : St := set_stakes (mkStakes (Bonded (stakes s)) v (Payee (stakes s))
  (Validators (stakes s)) (Nominators (stakes s))) s.
Definition set_payees v s : St := set_stakes (mkStakes (Bonded (stakes s)) (Ledger (stakes s)) v
  (Validators (stakes s)) (Nominators (stakes s))) s.
Definition set_validators v s : St := set_stakes (mkStakes (Bonded (stakes s)) (Ledger (stakes s))
  (Payee (stakes s)) v (Nominators (stakes s))) s.
Definition set_nominators v s : St := set_stakes (mkStakes (Bonded (stakes s)) (Ledger (stakes s))
  (Payee (stakes s)) (Validators (stakes s)) v) s.

Definition bonded s (a : A) : option A := Bonded (stakes s) !! a.
Definition ledger s (a : A) : option (StakingLedger A) := Ledger (stakes s) !! a.
Definition spans_of s (a : A) : option SlashingSpans := SlashingSpansOf (slashes s) !! a.

(** ** Helpers *)
Definition slashable_balance_of s (who : A) : Z :=
  match bonded s who with
  | Some c => match ledger s c with Some l => active l | None => 0 end
  | None => 0
  end.
Definition weight_of s (who : A) : Z := sh_to_vote (slashable_balance_of s who) (sh_total_issuance (stk_rest s)).

Definition update_ledger (controller : A) (l : StakingLedger A) s : St :=
  let s := on_host (sh_set_lock (stash l) (ledger_total l)) s in
  set_ledgers (<[controller := l]> (Ledger (stakes s))) s.
(** [if VoterList::contains(..) { let _ = VoterList::on_update(..) }]. *)
Definition refresh_voter (who : A) s : St :=
  if sh_voter_contains (stk_rest s) who then on_host (sh_voter_update who (weight_of s who)) s else s.

Definition do_add_nominator (who : A) (n : Nominations A) s : St :=
  let s := if bool_decide (is_Some (Nominators (stakes s) !! who)) then s
           else on_host (sh_voter_insert who (weight_of s who)) s in
  set_nominators (<[who := n]> (Nominators (stakes s))) s.
Definition do_remove_nominator (who : A) s : St * bool :=
  if bool_decide (is_Some (Nominators (stakes s) !! who))
  then (on_host (sh_voter_remove who) (set_nominators (delete who (Nominators (stakes s))) s), true)
  else (s, false).
Definition do_add_validator (who : A) (p : ValidatorPrefs) s : St :=
  let s := if bool_decide (is_Some (Validators (stakes s) !! who)) then s
           else on_host (sh_voter_insert who (weight_of s who)) s in
  set_validators (<[who := p]> (Validators (stakes s))) s.
Definition do_remove_validator (who : A) s : St * bool :=
  if bool_decide (is_Some (Validators (stakes s) !! who))
  then (on_host (sh_voter_remove who) (set_validators (delete who (Validators (stakes s))) s), true)
  else (s, false).
Definition chill_stash (who : A) s : St :=
  let '(s, chilled_as_validator) := do_remove_validator who s in
  let '(s, chilled_as_nominator) := do_remove_nominator who s in
  if chilled_as_validator || chilled_as_nominator then emit (EvChilled who) s else s.

(** [slashing::clear_stash_metadata]. *)
Definition clear_stash_metadata (who : A) (num_slashing_spans : Z) : MS unit :=
  let! s := mget in
  match spans_of s who with
  | None => ret tt
  | Some spans =>
      do! mensure (Z.of_nat (length (spans_iter spans)) <=? num_slashing_spans)
                  (stk_err StakingError.IncorrectSlashingSpans) in
      mmodify (fun s => let sl := slashes s in
        set_slashes (mkSlashes (delete who (SlashingSpansOf sl))
          (foldl (fun m sp => delete (who, span_idx sp) m) (SpanSlash sl) (spans_iter spans))
          (ValidatorSlashInEra sl) (NominatorSlashInEra sl) (UnappliedSlashes sl) (OffendingValidators sl)) s)
  end.

Definition kill_stash (who : A) (num_slashing_spans : Z) : MS unit :=
  let! s := mget in
  let! controller := mlift (ok_or (bonded s who) (stk_err StakingError.NotStash)) in
  do! clear_stash_metadata who num_slashing_spans in
  mmodify (fun s =>
    let s := set_bonded (delete who (Bonded (stakes s))) s in
    let s := set_ledgers (delete controller (Ledger (stakes s))) s in
    let s := set_payees (delete who (Payee (stakes s))) s in
    let s := (do_remove_validator who s).1 in
    let s := (do_remove_nominator who s).1 in
    on_host (sh_dec_consumers who) s).

Definition do_withdraw_unbonded (controller : A) (num_slashing_spans : Z) : MS unit :=
  let! s := mget in
  let! l := mlift (ok_or (ledger s controller) (stk_err StakingError.NotController)) in
  let who := stash l in
  let old_total := ledger_total l in
  let l := match CurrentEra (eras s) with Some era => consolidate_unlocked era l | None => l end in
  do! (if bool_decide (unlocking l = []) && (active l <? sh_minimum_balance)
       then do! kill_stash who num_slashing_spans in mmodify (on_host (sh_remove_lock who))
       else mmodify (update_ledger controller l)) in
  mwhen (ledger_total l <? old_total) (mmodify (emit (EvWithdrawn who (old_total - ledger_total l)))).

Definition set_force_era (mode : Forcing) s : St :=
  let p := params s in
  emit (EvForceEra mode)
    (set_params (mkParams (ValidatorCount p) (MinimumValidatorCount p) (MinNominatorBond p) (MinValidatorBond p)
       (MinCommission p) (MaxValidatorsCount p) (MaxNominatorsCount p) (ChillThreshold p) (Invulnerables p)
       mode (SlashRewardFraction p)) s).
Definition ensure_new_era s : St :=
  match ForceEra (params s) with
  | ForceAlways | ForceNew => s
  | _ => set_force_era ForceNew s
  end.

(** ** Calls *)
Definition bond (origin : Origin A) (value : Z) (payee : RewardDestination A) : MS unit :=
  let! who := mlift (ensure_signed origin) in
  let! s := mget in
  do! mensure (negb (bool_decide (is_Some (bonded s who)))) (stk_err StakingError.AlreadyBonded) in
  do! mensure (negb (bool_decide (is_Some (ledger s who)))) (stk_err StakingError.AlreadyPaired) in
  do! mensure (negb (value <? sh_minimum_balance)) (stk_err StakingError.InsufficientBond) in
  let! x := mlift (ok_or (sh_inc_consumers who (stk_rest s)) (stk_err StakingError.BadState)) in
  do! mmodify (on_host (fun _ => x)) in
  do! mmodify (fun s => set_bonded (<[who := who]> (Bonded (stakes s))) s) in
  do! mmodify (fun s => set_payees (<[who := payee]> (Payee (stakes s))) s) in
  let! s := mget in
  let current_era := default 0 (CurrentEra (eras s)) in
  let last_reward_era := sat_sub current_era (HistoryDepth cfg) in
  let value := Z.min value (sh_free_balance (stk_rest s) who) in
  do! mmodify (emit (EvBonded who value)) in
  let item := mkLedger who value value [] (seqZ last_reward_era (current_era - last_reward_era)) in
  mmodify (update_ledger who item).

(** [ledger.total += extra] wraps around. *)
Definition bond_extra (origin : Origin A) (max_additional : Z) : MS unit :=
  let! who := mlift (ensure_signed origin) in
  let! s := mget in
  let! controller := mlift (ok_or (bonded s who) (stk_err StakingError.NotStash)) in
  let! l := mlift (ok_or (ledger s controller) (stk_err StakingError.NotController)) in
  match checked_sub (sh_free_balance (stk_rest s) who) (ledger_total l) with
  | Some extra =>
      let extra := Z.min extra max_additional in
      let l := mkLedger (stash l) (wrap_add U128_MAX (ledger_total l) extra) (wrap_add U128_MAX (active l) extra)
                 (unlocking l) (claimed_rewards l) in
      do! mensure (sh_minimum_balance <=? active l) (stk_err StakingError.InsufficientBond) in
      do! mmodify (update_ledger controller l) in
      do! mmodify (refresh_voter who) in
      mmodify (emit (EvBonded who extra))
  | None => ret tt
  end.

Definition min_active_bond s (who : A) : Z :=
  if bool_decide (is_Some (Nominators (stakes s) !! who)) then MinNominatorBond (params s)
  else if bool_decide (is_Some (Validators (stakes s) !! who)) then MinValidatorBond (params s)
  else 0.

(** The chunk of an unbonding: merged into the last one of the same era, or pushed. *)
Definition push_chunk (value era : Z) (chunks : list UnlockChunk) : res DispatchError (list UnlockChunk) :=
  match last chunks with
  | Some c =>
      if chunk_era c =? era
      then Ok (<[pred (length chunks) := mkChunk (sat_add U128_MAX (chunk_value c) value) era]> chunks)
      else if Z.of_nat (length chunks) <? MaxUnlockingChunks cfg then Ok (chunks ++ [mkChunk value era])
           else Err (stk_err StakingError.NoMoreChunks)
  | None => if 0 <? MaxUnlockingChunks cfg then Ok [mkChunk value era] else Err (stk_err StakingError.NoMoreChunks)
  end.

(** The number of spans is looked up for the controller. *)
Definition unbond (origin : Origin A) (value : Z) : MS unit :=
  let! controller := mlift (ensure_signed origin) in
  let! s := mget in
  let! l := mlift (ok_or (ledger s controller) (stk_err StakingError.NotController)) in
  do! (if Z.of_nat (length (unlocking l)) =? MaxUnlockingChunks cfg then
         let real_num_slashing_spans :=
           match spans_of s controller with Some sp => Z.of_nat (length (spans_iter sp)) | None => 0 end in
         do_withdraw_unbonded controller real_num_slashing_spans
       else ret tt) in
  let! s := mget in
  let! l := mlift (ok_or (ledger s controller) (stk_err StakingError.NotController)) in
  let value := Z.min value (active l) in
  do! mensure (Z.of_nat (length (unlocking l)) <? MaxUnlockingChunks cfg) (stk_err StakingError.NoMoreChunks) in
  if value =? 0 then ret tt
  else
    let active' := active l - value in
    let '(value, active') :=
      if active' <? sh_minimum_balance then (wrap_add U128_MAX value active', 0) else (value, active') in
    do! mensure (min_active_bond s (stash l) <=? active') (stk_err StakingError.InsufficientBond) in
    let era := wrap_add U32_MAX (default 0 (CurrentEra (eras s))) (BondingDuration cfg) in
    let! chunks := mlift (push_chunk value era (unlocking l)) in
    let l := mkLedger (stash l) (ledger_total l) active' chunks (claimed_rewards l) in
    do! mmodify (update_ledger controller l) in
    do! mmodify (refresh_voter (stash l)) in
    mmodify (emit (EvUnbonded (stash l) value)).

Definition withdraw_unbonded (origin : Origin A) (num_slashing_spans : Z) : MS unit :=
  let! controller := mlift (ensure_signed origin) in
  do_withdraw_unbonded controller num_slashing_spans.

Definition rebond (origin : Origin A) (value : Z) : MS unit :=
  let! controller := mlift (ensure_signed origin) in
  let! s := mget in
  let! l := mlift (ok_or (ledger s controller) (stk_err StakingError.NotController)) in
  do! mensure (negb (bool_decide (unlocking l = []))) (stk_err StakingError.NoUnlockChunk) in
  let '(l, rebonded_value) := ledger_rebond value l in
  do! mensure (sh_minimum_balance <=? active l) (stk_err StakingError.InsufficientBond) in
  do! mmodify (emit (EvBonded (stash l) rebonded_value)) in
  do! mmodify (update_ledger controller l) in
  mmodify (refresh_voter (stash l)).

Definition validate (origin : Origin A) (prefs : ValidatorPrefs) : MS unit :=
  let! controller := mlift (ensure_signed origin) in
  let! s := mget in
  let! l := mlift (ok_or (ledger s controller) (stk_err StakingError.NotController)) in
  do! mensure (MinValidatorBond (params s) <=? active l) (stk_err StakingError.InsufficientBond) in
  do! mensure (MinCommission (params s) <=? commission prefs) (stk_err StakingError.CommissionTooLow) in
  do! (if bool_decide (is_Some (Validators (stakes s) !! stash l)) then ret tt
       else match MaxValidatorsCount (params s) with
            | Some max_validators =>
                mensure (Z.of_nat (size (Validators (stakes s))) <? max_validators)
                        (stk_err StakingError.TooManyValidators)
            | None => ret tt
            end) in
  do! mmodify (fun s => (do_remove_nominator (stash l) s).1) in
  do! mmodify (do_add_validator (stash l) prefs) in
  mmodify (emit (EvPrefsSet (stash l) prefs)).

Section with_lookup.
Context {Source : Type} (lookup : Source -> res DispatchError A).
Fixpoint check_targets s (old : list A) (l : list Source) : res DispatchError (list A) :=
  match l with
  | [] => Ok []
  | t :: l' =>
      let? n := lookup t in
      let? _ := rensure (bool_decide (n ∈ old) || negb (blocked (default default_prefs (Validators (stakes s) !! n))))
                        (stk_err StakingError.BadTarget) in
      let? r := check_targets s old l' in
      Ok (n :: r)
  end.
Definition nominate (origin : Origin A) (targets' : list Source) : MS unit :=
  let! controller := mlift (ensure_signed origin) in
  let! s := mget in
  let! l := mlift (ok_or (ledger s controller) (stk_err StakingError.NotController)) in
  do! mensure (MinNominatorBond (params s) <=? active l) (stk_err StakingError.InsufficientBond) in
  do! (if bool_decide (is_Some (Nominators (stakes s) !! stash l)) then ret tt
       else match MaxNominatorsCount (params s) with
            | Some max_nominators =>
                mensure (Z.of_nat (size (Nominators (stakes s))) <? max_nominators)
                        (stk_err StakingError.TooManyNominators)
            | None => ret tt
            end) in
  do! mensure (negb (bool_decide (targets' = []))) (stk_err StakingError.EmptyTargets) in
  do! mensure (Z.of_nat (length targets') <=? MaxNominations cfg) (stk_err StakingError.TooManyTargets) in
  let old := match Nominators (stakes s) !! stash l with Some n => targets n | None => [] end in
  let! ts := mlift (check_targets s old targets') in
  let nominations := mkNominations ts (default 0 (CurrentEra (eras s))) false in
  do! mmodify (fun s => (do_remove_validator (stash l) s).1) in
  mmodify (do_add_nominator (stash l) nominations).

(** [Vec::swap_remove]. *)
Definition swap_remove (i : nat) (l : list A) : list A :=
  match last l with
  | Some z => take (pred (length l)) (<[i := z]> l)
  | None => l
  end.
Definition kick_one (who : A) (nom_stash : A) s : St :=
  match Nominators (stakes s) !! nom_stash with
  | Some nom =>
      match list_find (fun v => v = who) (targets nom) with
      | Some (pos, _) =>
          emit (EvKicked nom_stash who)
            (set_nominators (<[nom_stash := mkNominations (swap_remove pos (targets nom)) (submitted_in nom) (suppressed nom)]>
               (Nominators (stakes s))) s)
      | None => s
      end
  | None => s
  end.
Fixpoint lookup_all (l : list Source) : res DispatchError (list A) :=
  match l with
  | [] => Ok []
  | t :: l' => let? a := lookup t in let? r := lookup_all l' in Ok (a :: r)
  end.
Definition kick (origin : Origin A) (who : list Source) : MS unit :=
  let! controller := mlift (ensure_signed origin) in
  let! s := mget in
  let! l := mlift (ok_or (ledger s controller) (stk_err StakingError.NotController)) in
  let! noms := mlift (lookup_all who) in
  mmodify (fun s => foldl (fun s n => kick_one (stash l) n s) s noms).
End with_lookup.

Definition chill (origin : Origin A) : MS unit :=
  let! controller := mlift (ensure_signed origin) in
  let! s := mget in
  let! l := mlift (ok_or (ledger s controller) (stk_err StakingError.NotController)) in
  mmodify (chill_stash (stash l)).
Definition set_payee (origin : Origin A) (payee : RewardDestination A) : MS unit :=
  let! controller := mlift (ensure_signed origin) in
  let! s := mget in
  let! l := mlift (ok_or (ledger s controller) (stk_err StakingError.NotController)) in
  mmodify (fun s => set_payees (<[stash l := payee]> (Payee (stakes s))) s).
Definition set_controller (origin : Origin A) : MS unit :=
  let! who := mlift (ensure_signed origin) in
  let! s := mget in
  let! old_controller := mlift (ok_or (bonded s who) (stk_err StakingError.NotStash)) in
  do! mensure (negb (bool_decide (is_Some (ledger s who)))) (stk_err StakingError.AlreadyPaired) in
  if bool_decide (old_controller = who) then ret tt
  else
    do! mmodify (fun s => set_bonded (<[who := who]> (Bonded (stakes s))) s) in
    mmodify (fun s =>
      match ledger s old_controller with
      | Some l => set_ledgers (<[who := l]> (delete old_controller (Ledger (stakes s)))) s
      | None => s
      end).

(** *** Administration *)
Definition set_validator_count_to (new : Z) s : St :=
  let p := params s in
  set_params (mkParams new (MinimumValidatorCount p) (MinNominatorBond p) (MinValidatorBond p) (MinCommission p)
    (MaxValidatorsCount p) (MaxNominatorsCount p) (ChillThreshold p) (Invulnerables p) (ForceEra p)
    (SlashRewardFraction p)) s.
Definition set_validator_count (origin : Origin A) (new : Z) : MS unit :=
  do! mlift (ensure_root origin) in
  do! mensure (new <=? MaxWinners cfg) (stk_err StakingError.TooManyValidators) in
  mmodify (set_validator_count_to new).
Definition increase_validator_count (origin : Origin A) (additional : Z) : MS unit :=
  do! mlift (ensure_root origin) in
  let! s := mget in
  let! new := mlift (ok_or (checked_add U32_MAX (ValidatorCount (params s)) additional)
                           (Arithmetic "An overflow would occur")) in
  do! mensure (new <=? MaxWinners cfg) (stk_err StakingError.TooManyValidators) in
  mmodify (set_validator_count_to new).
Definition scale_validator_count (origin : Origin A) (factor : Z) : MS unit :=
  do! mlift (ensure_root origin) in
  let! s := mget in
  let old := ValidatorCount (params s) in
  let! new := mlift (ok_or (checked_add U32_MAX old (sh_percent_mul_floor factor old))
                           (Arithmetic "An overflow would occur")) in
  do! mensure (new <=? MaxWinners cfg) (stk_err StakingError.TooManyValidators) in
  mmodify (set_validator_count_to new).

Definition force_no_eras (origin : Origin A) : MS unit :=
  do! mlift (ensure_root origin) in mmodify (set_force_era ForceNone).
Definition force_new_era (origin : Origin A) : MS unit :=
  do! mlift (ensure_root origin) in mmodify (set_force_era ForceNew).
Definition force_new_era_always (origin : Origin A) : MS unit :=
  do! mlift (ensure_root origin) in mmodify (set_force_era ForceAlways).
Definition set_invulnerables (origin : Origin A) (l : list A) : MS unit :=
  do! mlift (ensure_root origin) in
  mmodify (fun s => let p := params s in
    set_params (mkParams (ValidatorCount p) (MinimumValidatorCount p) (MinNominatorBond p) (MinValidatorBond p)
      (MinCommission p) (MaxValidatorsCount p) (MaxNominatorsCount p) (ChillThreshold p) l (ForceEra p)
      (SlashRewardFraction p)) s).

Definition force_unstake (origin : Origin A) (who : A) (num_slashing_spans : Z) : MS unit :=
  do! mlift (ensure_root origin) in
  do! kill_stash who num_slashing_spans in
  mmodify (on_host (sh_remove_lock who)).
(** The bond is only looked up when the balance is not below the minimum. *)
Definition reap_stash (origin : Origin A) (who : A) (num_slashing_spans : Z) : MS unit :=
  do! mlift (ensure_signed origin) in
  let! s := mget in
  let! reapable :=
    (if sh_total_balance (stk_rest s) who <? sh_minimum_balance then ret true
     else
       let! c := mlift (ok_or (bonded s who) (stk_err StakingError.NotStash)) in
       ret (match ledger s c with Some l => ledger_total l | None => 0 end <? sh_minimum_balance)) in
  do! mensure reapable (stk_err StakingError.FundedTarget) in
  do! kill_stash who num_slashing_spans in
  mmodify (on_host (sh_remove_lock who)).

(** [ensure!(is_sorted_and_unique(..))]. *)
Fixpoint is_sorted_and_unique (l : list Z) : bool :=
  match l with
  | a :: (b :: _) as l' => (a <? b) && is_sorted_and_unique l'
  | _ => true
  end.
(** The removals, each index moved by the ones before it. *)
Fixpoint remove_indices (removed : nat) (indices : list Z) (l : list (UnappliedSlash A)) : list (UnappliedSlash A) :=
  match indices with
  | [] => l
  | i :: indices' => remove_indices (S removed) indices' (delete (Z.to_nat i - removed)%nat l)
  end.
Section admin.
(** [AdminOrigin::ensure_origin]. *)
Variable admin : Origin A -> bool.
Definition cancel_deferred_slash (origin : Origin A) (era : Z) (slash_indices : list Z) : MS unit :=
  do! mensure (admin origin) BadOrigin in
  do! mensure (negb (bool_decide (slash_indices = []))) (stk_err StakingError.EmptyTargets) in
  do! mensure (is_sorted_and_unique slash_indices) (stk_err StakingError.NotSortedAndUnique) in
  let! s := mget in
  let unapplied := default [] (UnappliedSlashes (slashes s) !! era) in
  let! last_item := mlift (expect (last slash_indices)) in
  do! mensure (last_item <? Z.of_nat (length unapplied)) (stk_err StakingError.InvalidSlashIndex) in
  mmodify (fun s => let sl := slashes s in
    set_slashes (mkSlashes (SlashingSpansOf sl) (SpanSlash sl) (ValidatorSlashInEra sl) (NominatorSlashInEra sl)
      (<[era := remove_indices 0 slash_indices unapplied]> (UnappliedSlashes sl)) (OffendingValidators sl)) s).
Definition set_min_commission (origin : Origin A) (new : Z) : MS unit :=
  do! mensure (admin origin) BadOrigin in
  mmodify (fun s => let p := params s in
    set_params (mkParams (ValidatorCount p) (MinimumValidatorCount p) (MinNominatorBond p) (MinValidatorBond p)
      new (MaxValidatorsCount p) (MaxNominatorsCount p) (ChillThreshold p) (Invulnerables p) (ForceEra p)
      (SlashRewardFraction p)) s).
End admin.

Definition config_op (op : ConfigOp Z) (old : Z) : Z := match op with Noop => old | SetTo v => v | Remove => 0 end.
Definition config_op_option (op : ConfigOp Z) (old : option Z) : option Z :=
  match op with Noop => old | SetTo v => Some v | Remove => None end.
Definition set_staking_configs (origin : Origin A) (min_nominator_bond min_validator_bond max_nominator_count
    max_validator_count chill_threshold min_commission : ConfigOp Z) : MS unit :=
  do! mlift (ensure_root origin) in
  mmodify (fun s => let p := params s in
    set_params (mkParams (ValidatorCount p) (MinimumValidatorCount p)
      (config_op min_nominator_bond (MinNominatorBond p)) (config_op min_validator_bond (MinValidatorBond p))
      (config_op min_commission (MinCommission p)) (config_op_option max_validator_count (MaxValidatorsCount p))
      (config_op_option max_nominator_count (MaxNominatorsCount p))
      (config_op_option chill_threshold (ChillThreshold p)) (Invulnerables p) (ForceEra p)
      (SlashRewardFraction p)) s).

Definition chill_other (origin : Origin A) (controller : A) : MS unit :=
  let! caller := mlift (ensure_signed origin) in
  let! s := mget in
  let! l := mlift (ok_or (ledger s controller) (stk_err StakingError.NotController)) in
  let who := stash l in
  let cannot := stk_err StakingError.CannotChillOther in
  do! (if bool_decide (caller = controller) then ret tt
       else
         let! threshold := mlift (ok_or (ChillThreshold (params s)) cannot) in
         let! min_active_bond :=
           (if bool_decide (is_Some (Nominators (stakes s) !! who)) then
              let! max_count := mlift (ok_or (MaxNominatorsCount (params s)) cannot) in
              do! mensure (sh_percent_mul threshold max_count <? Z.of_nat (size (Nominators (stakes s)))) cannot in
              ret (MinNominatorBond (params s))
            else if bool_decide (is_Some (Validators (stakes s) !! who)) then
              let! max_count := mlift (ok_or (MaxValidatorsCount (params s)) cannot) in
              do! mensure (sh_percent_mul threshold max_count <? Z.of_nat (size (Validators (stakes s)))) cannot in
              ret (MinValidatorBond (params s))
            else ret 0) in
         mensure (active l <? min_active_bond) cannot) in
  mmodify (chill_stash who).

Definition force_apply_min_commission (origin : Origin A) (validator_stash : A) : MS unit :=
  do! mlift (ensure_signed origin) in
  let! s := mget in
  let! p := mlift (ok_or (Validators (stakes s) !! validator_stash) (stk_err StakingError.NotStash)) in
  mmodify (set_validators (<[validator_stash :=
    (if commission p <? MinCommission (params s) then mkPrefs (MinCommission (params s)) (blocked p) else p)]>
    (Validators (stakes s)))).

(** *** Dispatch: the changes of a call that fails are undone. *)
Definition call_body {Source} (lookup : Source -> res DispatchError A) (admin : Origin A -> bool)
    (o : Origin A) (c : Call A Source) : MS unit :=
  match c with
  | CallBond v p => bond o v p | CallBondExtra v => bond_extra o v | CallUnbond v => unbond o v
  | CallWithdrawUnbonded n => withdraw_unbonded o n | CallRebond v => rebond o v
  | CallValidate p => validate o p | CallNominate ts => nominate lookup o ts | CallKick who => kick lookup o who
  | CallChill => chill o | CallSetPayee p => set_payee o p | CallSetController => set_controller o
  | CallSetValidatorCount n => set_validator_count o n
  | CallIncreaseValidatorCount n => increase_validator_count o n
  | CallScaleValidatorCount n => scale_validator_count o n
  | CallForceNoEras => force_no_eras o | CallForceNewEra => force_new_era o
  | CallForceNewEraAlways => force_new_era_always o | CallSetInvulnerables l => set_invulnerables o l
  | CallForceUnstake who n => force_unstake o who n | CallReapStash who n => reap_stash o who n
  | CallCancelDeferredSlash era ids => cancel_deferred_slash admin o era ids
  | CallSetMinCommission n => set_min_commission admin o n
  | CallSetStakingConfigs a b c d e f => set_staking_configs o a b c d e f
  | CallChillOther c => chill_other o c | CallForceApplyMinCommission v => force_apply_min_commission o v
  end.
Definition dispatch {Source} lookup admin (o : Origin A) (c : Call A Source) : MS unit :=
  transactional (call_body lookup admin o c).
End pallet.
