(* ===== verification/StakingBonds.v ===== *)
(** * Bonds stay sound

    Theorems about the calls of [Staking]: every ledger is the sum of its parts, belongs to
    exactly one bonded stash and is covered by the lock on that stash; unbonded funds stay
    until their era has come. *)

From stdpp Require Import base gmap list strings.
From Stdlib Require Import ZArith Lia.
From S2P Require Import Prelude StakingLedger SlashingSpans Staking.

Local Open Scope Z_scope.

(** What the runtime promises about the staking lock, read by [locked], and balances. *)
Class StakingHostLaws (X A : Type) `{StakingHost X A} (locked : X -> A -> option Z) : Prop := {
  hl_set_lock a v x : 0 < v -> locked (sh_set_lock a v x) a = Some v;
  hl_set_lock_ne a b v x : a <> b -> locked (sh_set_lock a v x) b = locked x b;
  hl_remove_lock a x : locked (sh_remove_lock a x) a = None;
  hl_remove_lock_ne a b x : a <> b -> locked (sh_remove_lock a x) b = locked x b;
  hl_inc a x x' b : sh_inc_consumers a x = Some x' -> locked x' b = locked x b;
  hl_dec a x b : locked (sh_dec_consumers a x) b = locked x b;
  hl_update a v x b : locked (sh_voter_update a v x) b = locked x b;
  hl_insert a v x b : locked (sh_voter_insert a v x) b = locked x b;
  hl_remove a x b : locked (sh_voter_remove a x) b = locked x b;
  hl_free x a : in_u U128_MAX (sh_free_balance x a);
}.

Section bonds.
Context {X A : Type} {eqA : EqDecision A} {countA : Countable A} {host : StakingHost X A}.
Context {locked : X -> A -> option Z} {laws : StakingHostLaws X A locked}.
Variable cfg : StakingConfig.
Hypothesis chunks_max : 0 <= MaxUnlockingChunks cfg.
Abbreviation St := (Staking X A).
Implicit Types (s : St) (l : StakingLedger A).

Record bond_ok s (c : A) l : Prop := {
  bo_ledger : ledger_ok l;
  bo_bonded : bonded s (stash l) = Some c;
  bo_chunks : Z.of_nat (length (unlocking l)) <= MaxUnlockingChunks cfg;
  bo_lock : 0 < ledger_total l -> locked (stk_rest s) (stash l) = Some (ledger_total l);
}.
Record bonds_inv s : Prop := {
  bi_ledgers c l : ledger s c = Some l -> bond_ok s c l;
  bi_bonded a c : bonded s a = Some c -> exists l, ledger s c = Some l /\ stash l = a;
  bi_unbonded a : bonded s a = None -> locked (stk_rest s) a = None;
}.

(** *** What leaves the bonds alone *)
Record bonds_kept s s' : Prop := {
  bk_bonded : Bonded (stakes s') = Bonded (stakes s);
  bk_ledger : Ledger (stakes s') = Ledger (stakes s);
  bk_locked a : locked (stk_rest s') a = locked (stk_rest s) a;
}.
Lemma bonds_kept_refl s : bonds_kept s s.
Proof. done. Qed.
Lemma bonds_kept_trans s1 s2 s3 : bonds_kept s1 s2 -> bonds_kept s2 s3 -> bonds_kept s1 s3.
Proof. intros [H1 H2 H3] [H4 H5 H6]. split; [congruence..|]. intros a. by rewrite H6. Qed.
Lemma bonds_inv_kept s s' : bonds_kept s s' -> bonds_inv s -> bonds_inv s'.
Proof.
  intros [Hb Hl Hk] [H1 H2 H3]. split; unfold ledger, bonded in *.
  - intros c l Hc. rewrite Hl in Hc. destruct (H1 c l Hc) as [? ? ? Hlock]. split; try done.
    + unfold bonded. by rewrite Hb.
    + intros Ht. rewrite Hk. by apply Hlock.
  - intros a c Ha. rewrite Hb in Ha. rewrite Hl. by apply H2.
  - intros a Ha. rewrite Hb in Ha. rewrite Hk. by apply H3.
Qed.

Lemma host_kept f s : (forall a, locked (f (stk_rest s)) a = locked (stk_rest s) a) -> bonds_kept s (on_host f s).
Proof. intros Hf. by split. Qed.
Lemma remove_nominator_kept a s : bonds_kept s (do_remove_nominator a s).1.
Proof. unfold do_remove_nominator. case_bool_decide; [|done]. split; [done..|]. intros b. apply hl_remove. Qed.
Lemma remove_validator_kept a s : bonds_kept s (do_remove_validator a s).1.
Proof. unfold do_remove_validator. case_bool_decide; [|done]. split; [done..|]. intros b. apply hl_remove. Qed.
Lemma add_nominator_kept a n s : bonds_kept s (do_add_nominator a n s).
Proof. unfold do_add_nominator. case_bool_decide; (split; [done..|]); intros b; [done|]. apply hl_insert. Qed.
Lemma add_validator_kept a p s : bonds_kept s (do_add_validator a p s).
Proof. unfold do_add_validator. case_bool_decide; (split; [done..|]); intros b; [done|]. apply hl_insert. Qed.
Lemma refresh_voter_kept a s : bonds_kept s (refresh_voter a s).
Proof. unfold refresh_voter. destruct (sh_voter_contains _ _); [|done]. split; [done..|]. intros b. apply hl_update. Qed.
Lemma chill_stash_kept a s : bonds_kept s (chill_stash a s).
Proof.
  unfold chill_stash. pose proof (remove_validator_kept a s) as H1.
  destruct (do_remove_validator a s) as [s1 v]. pose proof (remove_nominator_kept a s1) as H2.
  destruct (do_remove_nominator a s1) as [s2 n]. cbn [fst] in *.
  destruct (v || n); eapply bonds_kept_trans; try done; eapply bonds_kept_trans; done.
Qed.
Lemma clear_metadata_kept a n s s' u : clear_stash_metadata a n s = (s', Ok u) -> bonds_kept s s'.
Proof. unfold clear_stash_metadata. intros Hr. run_inv. destruct (spans_of _ a); run_inv; by split. Qed.
Lemma kick_kept a (ns : list A) s : bonds_kept s (foldl (fun s n => kick_one a n s) s ns).
Proof.
  revert s. induction ns as [|n ns IH]; intros s; [done|]. cbn [foldl]. eapply bonds_kept_trans; [|apply IH].
  unfold kick_one. destruct (Nominators _ !! n); [|done]. destruct (list_find _ _) as [[]|]; by split.
Qed.

(** *** Ledgers that change *)
Lemma update_ledger_inv c l0 l s :
  bonds_inv s -> ledger s c = Some l0 -> stash l = stash l0 -> ledger_ok l ->
  Z.of_nat (length (unlocking l)) <= MaxUnlockingChunks cfg -> bonds_inv (update_ledger c l s).
Proof.
  intros [H1 H2 H3] Hc Hs Hok Hlen. pose proof (H1 c l0 Hc) as [_ Hb0 _ _]. rewrite <- Hs in Hb0.
  split; unfold update_ledger, ledger, bonded in *; cbn [on_host set_ledgers set_stakes stakes stk_rest Ledger Bonded] in *.
  - intros c' l' Hc'. destruct (decide (c' = c)) as [->|Hne].
    + rewrite lookup_insert_eq in Hc'. injection Hc' as <-. split; try done. cbn. intros Ht. by apply hl_set_lock.
    + rewrite lookup_insert_ne in Hc' by done. destruct (H1 c' l' Hc') as [? Hb' ? Hlock]. split; try done.
      cbn. intros Ht. rewrite hl_set_lock_ne; [by apply Hlock|]. intros Heq. unfold bonded in Hb'. rewrite <- Heq in Hb'. congruence.
  - intros a c' Ha. destruct (decide (c' = c)) as [->|Hne].
    + exists l. rewrite lookup_insert_eq. split; [done|]. destruct (H2 a c Ha) as (l1 & Hl1 & Hs1). congruence.
    + destruct (H2 a c' Ha) as (l1 & Hl1 & Hs1). exists l1. by rewrite lookup_insert_ne.
  - intros a Ha. rewrite hl_set_lock_ne; [by apply H3|]. intros <-. congruence.
Qed.

(** Removing a stash, with its lock. *)
Lemma kill_stash_inv a n s s' u :
  bonds_inv s -> kill_stash a n s = (s', Ok u) -> bonds_inv (on_host (sh_remove_lock a) s').
Proof.
  intros Hinv Hr. unfold kill_stash in Hr. run_inv.
  match goal with Hm : clear_stash_metadata _ _ _ = (?s1, _) |- _ => apply clear_metadata_kept in Hm; rename s1 into t;
    pose proof (bonds_inv_kept _ _ Hm Hinv) as [H1 H2 H3]; destruct Hm as [Hkb Hkl Hkx] end.
  match goal with Hb : bonded s a = Some ?c |- _ => rename c into ctrl;
    assert (bonded t a = Some ctrl) as Hbt by (unfold bonded; by rewrite Hkb); clear Hb end.
  destruct (H2 a ctrl Hbt) as (la & Hla & Hsa).
  set (s1 := set_payees _ _). set (s2 := (do_remove_nominator a (do_remove_validator a s1).1).1).
  assert (bonds_kept s1 s2) as [Hb2 Hl2 Hx2].
  { eapply bonds_kept_trans; [apply remove_validator_kept|apply remove_nominator_kept]. }
  split; unfold ledger, bonded; cbn [on_host stakes stk_rest]; rewrite ?Hb2, ?Hl2;
    cbn [s1 set_payees set_ledgers set_bonded set_stakes stakes Bonded Ledger].
  - intros c l Hc. apply lookup_delete_Some in Hc as [Hne Hc]. destruct (H1 c l Hc) as [? Hb ? Hlock].
    assert (stash l <> a) as Hsl by (intros Heq; rewrite Heq in Hb; unfold bonded in *; congruence).
    split; try done.
    + unfold bonded. cbn [on_host stakes]. rewrite Hb2. cbn [s1 set_payees set_ledgers set_bonded set_stakes stakes Bonded].
      by rewrite lookup_delete_ne.
    + intros Ht. cbn [on_host stk_rest]. rewrite hl_remove_lock_ne, hl_dec, Hx2 by done. by apply Hlock.
  - intros b c Hb. apply lookup_delete_Some in Hb as [Hne Hb]. destruct (H2 b c Hb) as (lb & Hlb & Hsb).
    exists lb. rewrite lookup_delete_ne; [done|]. intros <-. unfold ledger in Hla, Hlb. congruence.
  - intros b Hb. destruct (decide (b = a)) as [->|Hne]; [apply hl_remove_lock|].
    rewrite hl_remove_lock_ne, hl_dec, Hx2 by done. apply H3. by rewrite lookup_delete_ne in Hb.
Qed.

Lemma kill_stash_unbonds a n s s' u : kill_stash a n s = (s', Ok u) -> bonded s' a = None.
Proof.
  intros Hr. unfold kill_stash in Hr. run_inv. set (s1 := set_payees _ _).
  pose proof (bonds_kept_trans _ _ _ (remove_validator_kept a s1) (remove_nominator_kept a _)) as [Hb _ _].
  unfold bonded. cbn [on_host stakes]. rewrite Hb. cbn. by rewrite lookup_delete_eq.
Qed.

Lemma withdraw_ledger_ok s l : ledger_ok l ->
  let l' := match CurrentEra (eras s) with Some era => consolidate_unlocked era l | None => l end in
  ledger_ok l' /\ stash l' = stash l /\ (length (unlocking l') <= length (unlocking l))%nat.
Proof.
  intros Hok. destruct (CurrentEra (eras s)) as [era|]; [|done].
  destruct (consolidate_spec era l Hok) as (Hok' & _ & Hs & _ & Hu & _). cbv zeta. rewrite Hu.
  split_and!; [done|done|apply length_filter].
Qed.
Lemma withdraw_sound c n s s' u :
  bonds_inv s -> do_withdraw_unbonded c n s = (s', Ok u) -> bonds_inv s'.
Proof.
  intros Hinv Hr. unfold do_withdraw_unbonded in Hr. run_inv.
  match goal with Hl : ledger s c = Some ?l0 |- _ => rename l0 into l; rename Hl into Hc end.
  pose proof (bi_ledgers _ Hinv c l Hc) as [Hok _ Hlen _].
  destruct (withdraw_ledger_ok s l Hok) as (Hok' & Hst' & Hlen').
  set (l' := match CurrentEra (eras s) with Some era => _ | None => _ end) in *.
  match type of Hr with mwhen _ _ ?t = _ => assert (bonds_inv t) as Ht end.
  - destruct (bool_decide _ && _); run_inv; [by eapply kill_stash_inv|].
    eapply update_ledger_inv; [done|exact Hc|done|done|lia].
  - unfold mwhen in Hr. destruct (_ <? _); run_inv; [|done].
    eapply bonds_inv_kept; [|exact Ht]. by split.
Qed.

(** *** The other calls *)
Lemma emit_kept e s : bonds_kept s (emit e s).
Proof. by split. Qed.
Lemma bond_inv origin value payee s s' u :
  0 <= value -> bonds_inv s -> bond cfg origin value payee s = (s', Ok u) -> bonds_inv s'.
Proof.
  intros Hv [H1 H2 H3] Hr. unfold bond in Hr. run_inv.
  match goal with Hx : sh_inc_consumers ?w _ = Some ?y |- _ => rename w into who, y into x; rename Hx into Hinc end.
  assert (forall a, locked x a = locked (stk_rest s) a) as Hx by (intros a; by eapply hl_inc).
  pose proof (hl_free x who) as Hfree. unfold in_u in Hfree.
  split; unfold update_ledger, ledger, bonded in *;
    cbn [on_host emit set_bonded set_payees set_ledgers set_stakes stakes stk_rest Ledger Bonded stash ledger_total] in *.
  - intros c l. destruct (decide (c = who)) as [->|Hne].
    + rewrite lookup_insert_eq. intros [= <-]. split; unfold bonded; cbn; [|by rewrite lookup_insert_eq|done|by apply hl_set_lock].
      split; cbn; [lia|done|unfold unlocking_sum; simpl; lia|lia].
    + rewrite lookup_insert_ne by done. intros Hl. destruct (H1 c l Hl) as [? Hb ? Hlock].
      assert (who <> stash l) by (intros ->; unfold bonded in Hb; congruence).
      split; unfold bonded; cbn; [done|by rewrite lookup_insert_ne|done|]. intros Ht.
      rewrite hl_set_lock_ne by done. rewrite Hx. by apply Hlock.
  - intros a c. destruct (decide (a = who)) as [->|Hne].
    + rewrite lookup_insert_eq. intros [= <-]. rewrite lookup_insert_eq. by eexists.
    + rewrite lookup_insert_ne by done. intros Ha. destruct (H2 a c Ha) as (l & Hl & Hs). exists l.
      rewrite lookup_insert_ne; [done|]. congruence.
  - intros a Ha. apply lookup_insert_None in Ha as [Ha Hne]. rewrite hl_set_lock_ne by done. rewrite Hx. by apply H3.
Qed.

Lemma bond_extra_inv origin extra s s' u :
  0 <= extra -> bonds_inv s -> bond_extra origin extra s = (s', Ok u) -> bonds_inv s'.
Proof.
  intros He Hinv Hr. unfold bond_extra in Hr. run_inv.
  match goal with Hl : ledger s ?c = Some ?l0 |- _ => rename l0 into l, c into ctrl; rename Hl into Hc end.
  destruct (checked_sub _ _) as [free|] eqn:Ef; run_inv; [|done].
  pose proof (bi_ledgers _ Hinv ctrl l Hc) as [[Ha Hch Ht Hm] _ Hlen _].
  match type of Ef with checked_sub (sh_free_balance _ ?w) _ = _ => pose proof (hl_free (stk_rest s) w) as Hf end.
  unfold checked_sub in Ef. destruct (Z.leb_spec (ledger_total l) (sh_free_balance (stk_rest s) a)); [|done].
  injection Ef as <-.
  pose proof (chunks_sum_nonneg _ Hch). unfold in_u, unlocking_sum in *.
  eapply bonds_inv_kept; [eapply bonds_kept_trans; [apply refresh_voter_kept|apply emit_kept]|].
  eapply update_ledger_inv; [done|exact Hc|done| |done].
  unfold wrap_add. rewrite !wrap_small by (unfold in_u; lia).
  split; cbn [active unlocking ledger_total]; [lia|done|unfold unlocking_sum; cbn [unlocking]; lia|lia].
Qed.

Lemma sum_last_insert cs c v : last cs = Some c ->
  sum (chunk_values (<[pred (length cs) := mkChunk v (chunk_era c)]> cs)) = sum (chunk_values cs) - chunk_value c + v.
Proof.
  intros Hl. unfold chunk_values. rewrite list_fmap_insert. rewrite last_lookup in Hl.
  erewrite sum_insert; [reflexivity|]. by rewrite list_lookup_fmap, Hl.
Qed.
Lemma push_chunk_spec value era cs cs' :
  0 <= value -> value + sum (chunk_values cs) <= U128_MAX -> Forall (fun c => 0 <= chunk_value c) cs ->
  Z.of_nat (length cs) <= MaxUnlockingChunks cfg -> push_chunk cfg value era cs = Ok cs' ->
  Forall (fun c => 0 <= chunk_value c) cs' /\ sum (chunk_values cs') = sum (chunk_values cs) + value /\
  Z.of_nat (length cs') <= MaxUnlockingChunks cfg.
Proof.
  intros Hv Hm Hf Hlen. unfold push_chunk. destruct (last cs) as [c|] eqn:El.
  - destruct (Z.eqb_spec (chunk_era c) era) as [<-|Hne].
    + intros [= <-]. assert (0 <= chunk_value c <= sum (chunk_values cs)) as Hc.
      { pose proof El as Hl2. rewrite last_lookup in Hl2. split; [by apply (Forall_lookup_1 _ _ _ _ Hf Hl2)|].
        pose proof (sum_last_insert cs c 0 El) as Hs.
        assert (0 <= sum (chunk_values (<[pred (length cs) := mkChunk 0 (chunk_era c)]> cs))); [|lia].
        apply chunks_sum_nonneg. by apply Forall_insert. }
      rewrite sat_add_exact by lia. rewrite sum_last_insert by done. rewrite length_insert.
      split_and!; [|lia|done]. apply Forall_insert; [done|]. simpl. lia.
    + destruct (Z.ltb_spec (Z.of_nat (length cs)) (MaxUnlockingChunks cfg)); [|done]. intros [= <-].
      unfold chunk_values. rewrite fmap_app, sum_app, length_app. simpl.
      split_and!; [|lia|lia]. apply Forall_app. split; [done|by constructor].
  - apply last_None in El as ->. destruct (Z.ltb_spec 0 (MaxUnlockingChunks cfg)); [|done]. intros [= <-]. simpl.
    split_and!; [by constructor|lia|lia].
Qed.

(** What the part of [unbond] after the withdrawal does. *)
Lemma unbond_ledger_ok value (l : StakingLedger A) active' v chunks :
  ledger_ok l -> Z.of_nat (length (unlocking l)) <= MaxUnlockingChunks cfg ->
  0 <= v <= active l -> active' = active l - v -> push_chunk cfg v value (unlocking l) = Ok chunks ->
  let l' := mkLedger (stash l) (ledger_total l) active' chunks (claimed_rewards l) in
  ledger_ok l' /\ Z.of_nat (length (unlocking l')) <= MaxUnlockingChunks cfg.
Proof.
  intros [Ha Hch Ht Hm] Hlen Hv -> Hp. unfold unlocking_sum in *.
  apply push_chunk_spec in Hp as (Hf & Hs & Hl); [|lia..|done|done].
  cbv zeta. split; [|done]. split; unfold unlocking_sum; cbn [active unlocking ledger_total]; [lia|done|lia|lia].
Qed.

(** What is unbonded with the dust of the active amount. *)
Lemma unbond_split v a : 0 <= v <= a -> a <= U128_MAX ->
  exists v' a', (if a - v <? sh_minimum_balance then (wrap_add U128_MAX v (a - v), 0) else (v, a - v)) = (v', a') /\
    v <= v' <= a /\ a' = a - v' /\ (v' = v \/ a' = 0).
Proof.
  intros Hv Ha. destruct (_ <? _); eexists _, _; (split; [reflexivity|]); [|lia].
  unfold wrap_add. rewrite wrap_small by (unfold in_u; lia). lia.
Qed.
Lemma unbond_sound origin value s s' u :
  0 <= value -> bonds_inv s -> unbond cfg origin value s = (s', Ok u) -> bonds_inv s'.
Proof.
  intros Hv Hinv Hr. unfold unbond in Hr. run_inv.
  match goal with Hw : (if _ then _ else _) s = (?t, Ok _) |- _ => assert (bonds_inv t) as Ht;
    [clear Hr; destruct (_ =? _); run_inv; [by eapply withdraw_sound|done]|clear Hw; rename t into t1] end.
  match goal with Hl : ledger t1 _ = Some ?l0 |- _ => rename l0 into l; rename Hl into Hc end.
  pose proof (bi_ledgers _ Ht _ _ Hc) as [Hok _ Hlen _]. pose proof (ok_active _ Hok).
  destruct (_ =? 0); run_inv; [done|].
  destruct (unbond_split (Z.min value (active l)) (active l)) as (v' & a' & Heq & Hv' & Ha' & _); [lia| |].
  { pose proof (ok_total _ Hok). pose proof (ok_max _ Hok). pose proof (chunks_sum_nonneg _ (ok_chunks _ Hok)).
    unfold unlocking_sum in *. lia. }
  rewrite Heq in Hr. cbv beta iota in Hr. run_inv. assert (0 <= v' <= active l) as Hv0 by lia.
  match goal with Hp : push_chunk _ _ _ _ = Ok _ |- _ => destruct (unbond_ledger_ok _ l _ _ _ Hok Hlen Hv0 eq_refl Hp) as [Hok' Hlen'] end.
  eapply bonds_inv_kept; [eapply bonds_kept_trans; [apply refresh_voter_kept|apply emit_kept]|].
  by eapply update_ledger_inv.
Qed.
Lemma rebond_inv origin value s s' u :
  0 <= value <= U128_MAX -> bonds_inv s -> rebond origin value s = (s', Ok u) -> bonds_inv s'.
Proof.
  intros Hv Hinv Hr. unfold rebond in Hr. run_inv.
  match goal with Hl : ledger s _ = Some ?l0 |- _ => rename l0 into l; rename Hl into Hc end.
  destruct (ledger_rebond value l) as [l' r] eqn:Er. run_inv.
  pose proof (bi_ledgers _ Hinv _ _ Hc) as [Hok _ Hlen _].
  apply rebond_spec in Er as (Hok' & _ & _ & _ & Hs & _ & Hl); [|done..].
  eapply bonds_inv_kept; [apply refresh_voter_kept|].
  eapply update_ledger_inv; [|exact Hc|done|done|lia]. by eapply bonds_inv_kept; [apply emit_kept|].
Qed.
Lemma set_controller_inv origin s s' u :
  bonds_inv s -> set_controller origin s = (s', Ok u) -> bonds_inv s'.
Proof.
  intros Hinv Hr. unfold set_controller in Hr. run_inv. destruct (bool_decide _) eqn:Eb; run_inv; [done|].
  match goal with Hb : bonded s ?w = Some ?c |- _ => rename w into who, c into old; rename Hb into Hbond end.
  match goal with Hb : ledger s who = None |- _ => rename Hb into Hnone end.
  destruct Hinv as [H1 H2 H3]. destruct (H2 who old Hbond) as (l & Hl & Hs).
  unfold ledger at 1. cbn [set_bonded set_stakes stakes Ledger]. change (Ledger (stakes s) !! old) with (ledger s old).
  rewrite Hl. unfold ledger, bonded in *.
  split; unfold ledger, bonded; cbn [set_bonded set_ledgers set_stakes stakes stk_rest Ledger Bonded].
  - intros c l'. destruct (decide (c = who)) as [->|Hne].
    + rewrite lookup_insert_eq. intros [= <-]. destruct (H1 _ _ Hl) as [? ? ? ?].
      split; try done. unfold bonded. cbn. by rewrite Hs, lookup_insert_eq.
    + rewrite lookup_insert_ne by done. intros [Hno Hc]%lookup_delete_Some. destruct (H1 _ _ Hc) as [? Hb ? ?].
      split; try done. unfold bonded in *. cbn. rewrite lookup_insert_ne; [done|]. intros Heq. rewrite <- Heq in Hb. congruence.
  - intros a c. destruct (decide (a = who)) as [->|Hne].
    + rewrite lookup_insert_eq. intros [= <-]. rewrite lookup_insert_eq. by exists l.
    + rewrite lookup_insert_ne by done. intros Ha. destruct (H2 a c Ha) as (l' & Hl' & Hs'). exists l'. split; [|done].
      rewrite lookup_insert_ne by congruence. rewrite lookup_delete_ne; [done|]. intros <-. congruence.
  - intros a [Ha Hne]%lookup_insert_None. by apply H3.
Qed.

Lemma set_stakes_kept f s : Bonded (f (stakes s)) = Bonded (stakes s) -> Ledger (f (stakes s)) = Ledger (stakes s) ->
  bonds_kept s (set_stakes (f (stakes s)) s).
Proof. by split. Qed.
Lemma unstake_inv a n s s' u :
  bonds_inv s -> (do! kill_stash a n in mmodify (on_host (sh_remove_lock a))) s = (s', Ok u) -> bonds_inv s'.
Proof. intros Hinv Hr. run_inv. by eapply kill_stash_inv. Qed.

(** The calls that change no bond. *)
Ltac kept :=
  lazymatch goal with
  | |- bonds_kept ?s ?s => apply bonds_kept_refl
  | |- bonds_kept _ (emit _ ?t) => apply (bonds_kept_trans _ t); [kept|apply emit_kept]
  | |- bonds_kept _ (do_add_validator _ _ ?t) => apply (bonds_kept_trans _ t); [kept|apply add_validator_kept]
  | |- bonds_kept _ (do_add_nominator _ _ ?t) => apply (bonds_kept_trans _ t); [kept|apply add_nominator_kept]
  | |- bonds_kept _ (do_remove_validator _ ?t).1 => apply (bonds_kept_trans _ t); [kept|apply remove_validator_kept]
  | |- bonds_kept _ (do_remove_nominator _ ?t).1 => apply (bonds_kept_trans _ t); [kept|apply remove_nominator_kept]
  | |- bonds_kept _ (chill_stash _ ?t) => apply (bonds_kept_trans _ t); [kept|apply chill_stash_kept]
  | |- bonds_kept _ (foldl _ ?t _) => apply (bonds_kept_trans _ t); [kept|apply kick_kept]
  | |- _ => by split
  end.

Section calls.
Context {Source : Type} (lookup : Source -> res DispatchError A) (admin : Origin A -> bool).

(** Amounts of the calls are balances. *)
Definition call_wf (c : Call A Source) : Prop :=
  match c with
  | CallBond v _ | CallBondExtra v | CallUnbond v | CallRebond v => in_u U128_MAX v
  | _ => True
  end.
Lemma other_call_kept o c s s' u :
  match c with
  | CallBond _ _ | CallBondExtra _ | CallUnbond _ | CallWithdrawUnbonded _ | CallRebond _
  | CallSetController | CallForceUnstake _ _ | CallReapStash _ _ => False
  | _ => True
  end -> call_body cfg lookup admin o c s = (s', Ok u) -> bonds_kept s s'.
Proof.
  destruct c; try done; intros _ Hr; cbn [call_body] in Hr;
    [unfold validate in Hr|unfold nominate in Hr|unfold kick in Hr|unfold chill in Hr|unfold set_payee in Hr
    |unfold set_validator_count in Hr|unfold increase_validator_count in Hr|unfold scale_validator_count in Hr
    |unfold force_no_eras in Hr|unfold force_new_era in Hr|unfold force_new_era_always in Hr|unfold set_invulnerables in Hr
    |unfold cancel_deferred_slash in Hr|unfold set_min_commission in Hr|unfold set_staking_configs in Hr
    |unfold chill_other in Hr|unfold force_apply_min_commission in Hr]; run_inv;
    repeat match goal with
    | Hm : (if _ then _ else _) _ = (_, Ok _) |- _ => destruct (bool_decide _) in Hm; run_inv
    | Hm : match ?x with Some _ => _ | None => _ end _ = (_, Ok _) |- _ => destruct x; run_inv
    end; kept.
Qed.
Lemma call_body_inv o c s s' u :
  call_wf c -> bonds_inv s -> call_body cfg lookup admin o c s = (s', Ok u) -> bonds_inv s'.
Proof.
  intros Hwf Hinv Hr.
  destruct c; try (by eapply bonds_inv_kept; [eapply other_call_kept; [|exact Hr]|]); cbn [call_body call_wf] in *;
    unfold in_u in *.
  - eapply bond_inv; [|done|exact Hr]; lia.
  - eapply bond_extra_inv; [|done|exact Hr]; lia.
  - eapply unbond_sound; [|done|exact Hr]; lia.
  - unfold withdraw_unbonded in Hr. run_inv. by eapply withdraw_sound.
  - eapply rebond_inv; [|done|exact Hr]; lia.
  - by eapply set_controller_inv.
  - unfold force_unstake in Hr. apply bind_Ok in Hr as (? & ? & Hm & Hr). run_inv. by eapply kill_stash_inv.
  - unfold reap_stash in Hr. run_inv. destruct (_ <? _) in *; run_inv; by eapply kill_stash_inv.
Qed.
Lemma dispatch_inv o c s : call_wf c -> bonds_inv s -> bonds_inv (dispatch cfg lookup admin o c s).1.
Proof.
  intros Hc Hinv. unfold dispatch, transactional.
  destruct (call_body cfg lookup admin o c s) as [s' [u|e|]] eqn:Er; cbn [fst]; [|done..]. by eapply call_body_inv.
Qed.

End calls.

(** Withdrawing releases what is due and nothing else.  In era [era], a withdrawal
    that succeeds takes from the ledger exactly the chunks whose era has come, and the
    total falls by their sum; the stash is removed, with its lock, only if no chunk is left
    waiting and the active amount is below the minimum balance. *)
Theorem withdraw_releases_due c n s s' u l era :
  bonds_inv s -> ledger s c = Some l -> CurrentEra (eras s) = Some era ->
  withdraw_unbonded (Signed c) n s = (s', Ok u) ->
  let waiting := filter (fun ch => era < chunk_era ch) (unlocking l) in
  if bool_decide (waiting = []) && (active l <? sh_minimum_balance)
  then bonded s' (stash l) = None /\ locked (stk_rest s') (stash l) = None
  else exists l', ledger s' c = Some l' /\ stash l' = stash l /\ active l' = active l /\ unlocking l' = waiting /\
    ledger_total l' = ledger_total l - sum (chunk_values (filter (fun ch => chunk_era ch <= era) (unlocking l))).
Proof.
  intros Hinv Hl He Hr. unfold withdraw_unbonded in Hr. cbv zeta.
  apply bind_Ok in Hr as (c1 & s1 & Hm & Hr). run_inv.
  pose proof (withdraw_sound _ _ _ _ _ Hinv Hr) as Hinv'.
  pose proof (bi_ledgers _ Hinv c l Hl) as [Hok Hb _ _].
  destruct (consolidate_spec era l Hok) as (_ & Ha & Hs & _ & Hu & Ht).
  unfold do_withdraw_unbonded in Hr. run_inv. replace a0 with l in * by congruence. rewrite He in *.
  rewrite Hu, Ha in *. destruct (bool_decide _ && _) eqn:Ek; run_inv.
  - assert (bonded s' (stash l) = None) as Hn; [|split; [done|by apply (bi_unbonded _ Hinv')]].
    unfold mwhen in Hr. apply kill_stash_unbonds in Hm. destruct (_ <? _); by run_inv.
  - unfold mwhen in Hr. exists (consolidate_unlocked era l). split; [|by split_and!].
    destruct (_ <? _); run_inv; unfold ledger, update_ledger;
      cbn [emit on_host set_ledgers set_stakes stakes Ledger]; by rewrite lookup_insert_eq.
Qed.


End bonds.

(** ** Witnesses

    A runtime whose state is the locks; every account has 10000 and the minimum balance
    is 10. *)
Module BondsWitness.
#[export] Instance locks_host : StakingHost (gmap Z Z) Z := {
  sh_minimum_balance := 10;
  sh_total_issuance _ := 1000000;
  sh_free_balance _ _ := 10000;
  sh_total_balance _ _ := 10000;
  sh_set_lock a v x := <[a := v]> x;
  sh_remove_lock a x := delete a x;
  sh_slash _ v x := (x, (v, 0));
  sh_resolve_creating _ _ x := x;
  sh_inc_consumers _ x := Some x;
  sh_dec_consumers _ x := x;
  sh_voter_contains _ _ := false;
  sh_voter_update _ _ x := x;
  sh_voter_insert _ _ x := x;
  sh_voter_remove _ x := x;
  sh_to_vote v _ := v;
  sh_validators _ := [];
  sh_disable_validator _ x := x;
  sh_on_staker_slash _ _ _ x := x;
  sh_on_slash_imbalance _ x := x;
  sh_percent_mul_floor f v := f * v / 100;
  sh_percent_mul f v := f * v / 100;
  sh_perbill_mul f v := f * v / 1000000000;
}.
#[export] Instance locks_laws : StakingHostLaws (gmap Z Z) Z (fun x a => x !! a).
Proof.
  split; try done; cbn.
  - intros a v x _. apply lookup_insert_eq.
  - intros a b v x Hne. by apply lookup_insert_ne.
  - intros a x. apply lookup_delete_eq.
  - intros a b x Hne. by apply lookup_delete_ne.
  - by intros a x x' b [= <-].
Qed.

Definition wcfg : StakingConfig := mkStakingConfig 4 16 84 28 27 100 17 6 2.
Definition genesis : Staking (gmap Z Z) Z :=
  mkStaking (mkStakes ∅ ∅ ∅ ∅ ∅) (mkParams 4 1 0 0 0 None None None [] NotForcing 100000000)
    (mkEras (Some 100) (Some (mkActiveEra 100 None)) [] ∅ 0 ∅ ∅ ∅ ∅ ∅ ∅ 0) (mkSlashes ∅ ∅ ∅ ∅ ∅ []) [] ∅.
Lemma genesis_ok : bonds_inv wcfg genesis (locked := fun x a => x !! a).
Proof. split; done. Qed.
Definition wlookup (a : Z) : res DispatchError Z := Ok a.
Definition wadmin (o : Origin Z) : bool := false.
Abbreviation step o c s := (dispatch wcfg wlookup wadmin o c s).1.
Abbreviation winv := (bonds_inv wcfg (locked := fun x a => x !! a)).

(** Bonded 500, then unbonded 495 and the dust with it. *)
Definition s1 := step (Signed 1) (CallBond 500 ToStash) genesis.
Lemma s1_inv : winv s1.
Proof. apply dispatch_inv; [done| |apply genesis_ok]. cbn. unfold in_u, U128_MAX. lia. Qed.
Definition s2 := (unbond wcfg (Signed 1) 495 s1).1.
Definition due_ledger : StakingLedger Z := mkLedger 1 500 0 [mkChunk 500 128] (seqZ 16 84).
Lemma s2_eq : unbond wcfg (Signed 1) 495 s1 = (s2, Ok tt).
Proof. vm_compute. reflexivity. Qed.

(** In era 128 the chunk is due: the stash is gone. *)
Definition in_era (e : Z) (s : Staking (gmap Z Z) Z) : Staking (gmap Z Z) Z :=
  mkStaking (stakes s) (params s) (mkEras (Some e) (Some (mkActiveEra e None)) [] ∅ 0 ∅ ∅ ∅ ∅ ∅ ∅ 0) (slashes s) (stk_events s) (stk_rest s).
Lemma in_era_inv e s : winv s -> winv (in_era e s).
Proof. apply bonds_inv_kept. by split. Qed.
Lemma s2_inv : winv s2.
Proof.
  apply (unbond_sound wcfg (Signed 1) 495 s1 s2 tt); [done|exact s1_inv|exact s2_eq].
Qed.
Definition s3 := (withdraw_unbonded (Signed 1) 0 (in_era 128 s2)).1.
Lemma s3_eq : withdraw_unbonded (Signed 1) 0 (in_era 128 s2) = (s3, Ok tt).
Proof. vm_compute. reflexivity. Qed.
Lemma due_eq : ledger (in_era 128 s2) 1 = Some due_ledger.
Proof. vm_compute. reflexivity. Qed.
Lemma withdraw_releases_due_witness : bonded s3 (stash due_ledger) = None.
Proof.
  pose proof (withdraw_releases_due wcfg 1 0 (in_era 128 s2) s3 tt due_ledger 128
    (in_era_inv 128 s2 s2_inv) due_eq eq_refl s3_eq) as Hw. cbv zeta in Hw.
  assert (bool_decide (filter (fun ch => 128 < chunk_era ch) (unlocking due_ledger) = [])
    && (active due_ledger <? sh_minimum_balance) = true) as Hc by (vm_compute; reflexivity).
  rewrite Hc in Hw. exact (proj1 Hw).
Defined.
(** One era before, nothing is released. *)
Example not_yet_due : (withdraw_unbonded (Signed 1) 0 (in_era 127 s2)).1 = in_era 127 s2.
Proof. vm_compute. reflexivity. Qed.
End BondsWitness.
