(* ===== verification/StakingSlashing.v ===== *)
(** * Slashing

    Models [src/modules/staking/src/slashing.rs] on the storage of [Staking]: how a reported
    offence becomes a slash of a validator and its nominators ([compute_slash]), how a slash
    is applied ([apply_slash]) and its reporters paid; and, from
    [src/modules/staking/src/pallet/impls.rs], the handler of offences and the slashes that
    were deferred.  The weights that the handler returns are left out.  [SlashingSpans]
    holds the spans themselves. *)

From stdpp Require Import base gmap list strings.
From Stdlib Require Import ZArith Lia.
From S2P Require Import Prelude StakingLedger SlashingSpans Staking StakingBonds.

Local Open Scope Z_scope.

Abbreviation add128 := (wrap_add U128_MAX).

(** [Perbill::from_percent(50)]. *)
Definition REWARD_F1 : Z := 500000000.

Inductive DisableStrategy : Type := DisableNever | DisableWhenSlashed | DisableAlways.
#[export] Instance disable_eq : EqDecision DisableStrategy.
Proof. solve_decision. Defined.

Record SlashParams (A : Type) : Type := mkSlashParams {
  sp_stash : A;
  sp_slash : Z;
  sp_exposure : Exposure A;
  sp_slash_era : Z;
  sp_window_start : Z;
  sp_now : Z;
  sp_reward_proportion : Z;
  sp_disable_strategy : DisableStrategy;
}.
Arguments mkSlashParams {A}. Arguments sp_stash {A}. Arguments sp_slash {A}. Arguments sp_exposure {A}.
Arguments sp_slash_era {A}. Arguments sp_window_start {A}. Arguments sp_now {A}.
Arguments sp_reward_proportion {A}. Arguments sp_disable_strategy {A}.

(** [InspectingSpans]; the two references are the amounts they refer to. *)
Record InspectingSpans (A : Type) : Type := mkInspecting {
  is_dirty : bool;
  is_window_start : Z;
  is_stash : A;
  is_spans : SlashingSpans;
  is_paid_out : Z;
  is_slash_of : Z;
  is_reward_proportion : Z;
}.
Arguments mkInspecting {A}. Arguments is_dirty {A}. Arguments is_window_start {A}. Arguments is_stash {A}.
Arguments is_spans {A}. Arguments is_paid_out {A}. Arguments is_slash_of {A}. Arguments is_reward_proportion {A}.

Record OffenceDetails (A : Type) : Type := mkOffence { od_stash : A; od_exposure : Exposure A; od_reporters : list A }.
Arguments mkOffence {A}. Arguments od_stash {A}. Arguments od_exposure {A}. Arguments od_reporters {A}.

Section slashing.
Context {X A : Type} {eqA : EqDecision A} {countA : Countable A} {host : StakingHost X A} {prop : Proportion}.
Variable cfg : StakingConfig.
Abbreviation St := (Staking X A).
Implicit Types s : St.

Definition set_spans v s : St := let sl := slashes s in
  set_slashes (mkSlashes v (SpanSlash sl) (ValidatorSlashInEra sl) (NominatorSlashInEra sl)
    (UnappliedSlashes sl) (OffendingValidators sl)) s.
Definition set_span_slash v s : St := let sl := slashes s in
  set_slashes (mkSlashes (SlashingSpansOf sl) v (ValidatorSlashInEra sl) (NominatorSlashInEra sl)
    (UnappliedSlashes sl) (OffendingValidators sl)) s.
Definition set_validator_slash v s : St := let sl := slashes s in
  set_slashes (mkSlashes (SlashingSpansOf sl) (SpanSlash sl) v (NominatorSlashInEra sl)
    (UnappliedSlashes sl) (OffendingValidators sl)) s.
Definition set_nominator_slash v s : St := let sl := slashes s in
  set_slashes (mkSlashes (SlashingSpansOf sl) (SpanSlash sl) (ValidatorSlashInEra sl) v
    (UnappliedSlashes sl) (OffendingValidators sl)) s.
Definition set_unapplied v s : St := let sl := slashes s in
  set_slashes (mkSlashes (SlashingSpansOf sl) (SpanSlash sl) (ValidatorSlashInEra sl) (NominatorSlashInEra sl)
    v (OffendingValidators sl)) s.
Definition set_offending v s : St := let sl := slashes s in
  set_slashes (mkSlashes (SlashingSpansOf sl) (SpanSlash sl) (ValidatorSlashInEra sl) (NominatorSlashInEra sl)
    (UnappliedSlashes sl) v) s.

(** ** Inspecting spans *)
Definition fetch_spans (who : A) (window_start paid_out slash_of reward_proportion : Z) s : St * InspectingSpans A :=
  let '(spans, s) :=
    match spans_of s who with
    | Some spans => (spans, s)
    | None => let spans := spans_new window_start in (spans, set_spans (<[who := spans]> (SlashingSpansOf (slashes s))) s)
    end in
  (s, mkInspecting false window_start who spans paid_out slash_of reward_proportion).
Definition is_end_span (now : Z) (i : InspectingSpans A) : InspectingSpans A :=
  let '(spans, ended) := spans_end_span now (is_spans i) in
  mkInspecting (ended || is_dirty i) (is_window_start i) (is_stash i) spans (is_paid_out i) (is_slash_of i)
    (is_reward_proportion i).
Definition is_add_slash (amount slash_era : Z) (i : InspectingSpans A) : InspectingSpans A :=
  let sp := is_spans i in
  mkInspecting (is_dirty i) (is_window_start i) (is_stash i)
    (mkSpans (span_index sp) (last_start sp) (Z.max (last_nonzero_slash sp) slash_era) (prior sp))
    (is_paid_out i) (add128 (is_slash_of i) amount) (is_reward_proportion i).

Definition span_record s (key : A * Z) : SpanRecord := default (mkSpanRecord 0 0) (SpanSlash (slashes s) !! key).
(** The reward for a slash of which [paid_out] was rewarded before. *)
Definition slash_reward (reward_proportion slash paid_out : Z) : Z :=
  sh_perbill_mul (X := X) (A := A) REWARD_F1 (sat_sub (sh_perbill_mul (X := X) (A := A) reward_proportion slash) paid_out).
Definition compare_and_update_span_slash (slash_era slash : Z) (i : InspectingSpans A) s
    : St * InspectingSpans A * option Z :=
  match era_span (is_spans i) slash_era with
  | None => (s, i, None)
  | Some target_span =>
      let key := (is_stash i, span_idx target_span) in
      let record := span_record s key in
      let '(i, record, changed, reward) :=
        if sr_slashed record <? slash then
          let difference := slash - sr_slashed record in
          let reward := slash_reward (is_reward_proportion i) slash (sr_paid_out record) in
          (is_add_slash difference slash_era i, mkSpanRecord slash (sr_paid_out record), true, reward)
        else if sr_slashed record =? slash then
          (i, record, false, slash_reward (is_reward_proportion i) slash (sr_paid_out record))
        else (i, record, false, 0) in
      let '(i, record, changed) :=
        if reward =? 0 then (i, record, changed)
        else (mkInspecting (is_dirty i) (is_window_start i) (is_stash i) (is_spans i)
                (add128 (is_paid_out i) reward) (is_slash_of i) (is_reward_proportion i),
              mkSpanRecord (sr_slashed record) (add128 (sr_paid_out record) reward), true) in
      if changed
      then (set_span_slash (<[key := record]> (SpanSlash (slashes s))) s,
            mkInspecting true (is_window_start i) (is_stash i) (is_spans i) (is_paid_out i) (is_slash_of i)
              (is_reward_proportion i), Some (span_idx target_span))
      else (s, i, Some (span_idx target_span))
  end.
(** [Drop for InspectingSpans]. *)
Definition drop_spans (i : InspectingSpans A) s : St :=
  if is_dirty i then
    let '(spans, pruned) := spans_prune (is_window_start i) (is_spans i) in
    let s :=
      match pruned with
      | Some (from, to) =>
          set_span_slash (foldl (fun m idx => delete (is_stash i, idx) m) (SpanSlash (slashes s)) (seqZ from (to - from))) s
      | None => s
      end in
    set_spans (<[is_stash i := spans]> (SlashingSpansOf (slashes s))) s
  else s.

(** ** Offenders *)
Definition position (x : A) (l : list A) : option nat := fst <$> list_find (fun y => y = x) l.
Definition add_offending_validator (who : A) (disable : bool) s : St :=
  let validators := sh_validators (stk_rest s) in
  match position who validators with
  | None => s
  | Some index =>
      let index := wrap U32_MAX (Z.of_nat index) in
      let offending := OffendingValidators (slashes s) in
      match search (fst <$> offending) index with
      | inr i =>
          let offending := list_insert_at i (index, disable) offending in
          let threshold := sh_perbill_mul (X := X) (A := A) (OffendingThreshold cfg)
                             (wrap U32_MAX (Z.of_nat (length validators))) in
          let s := if threshold <=? Z.of_nat (length offending) then ensure_new_era s else s in
          let s := if disable then on_host (sh_disable_validator index) s else s in
          set_offending offending s
      | inl i =>
          match offending !! i with
          | Some (idx, disabled) =>
              if disable && negb disabled then
                set_offending (<[i := (idx, true)]> offending) (on_host (sh_disable_validator index) s)
              else s
          | None => s
          end
      end
  end.

(** ** Computing a slash *)
(** The blocks of [compute_slash] and [slash_nominators] on one stash: the slash of an era is
    compared with its span, the span is ended if it is the current one and the spans are
    dropped.  The result has the amount to slash and the rewards so far; it says whether the
    current span was hit. *)
Definition slash_span (p : SlashParams A) (who : A) (slash paid_out : Z) s : St * Z * Z * bool :=
  let '(s, i) := fetch_spans who (sp_window_start p) paid_out 0 (sp_reward_proportion p) s in
  let '(s, i, target_span) := compare_and_update_span_slash (sp_slash_era p) slash i s in
  let current := bool_decide (target_span = Some (span_index (is_spans i))) in
  let i := if current then is_end_span (sp_now p) i else i in
  (drop_spans i s, is_slash_of i, is_paid_out i, current).

Definition kick_out_if_recent (p : SlashParams A) s : St :=
  let '(s, i) := fetch_spans (sp_stash p) (sp_window_start p) 0 0 (sp_reward_proportion p) s in
  let recent := bool_decide (span_idx <$> era_span (is_spans i) (sp_slash_era p) = Some (span_index (is_spans i))) in
  let '(s, i) := if recent then (chill_stash (sp_stash p) s, is_end_span (sp_now p) i) else (s, i) in
  let s := add_offending_validator (sp_stash p) (bool_decide (sp_disable_strategy p = DisableAlways)) s in
  drop_spans i s.

Definition nominator_era_slash (p : SlashParams A) (prior_slash_p : Z) (n : IndividualExposure A) s : St * Z :=
  let own_slash_prior := sh_perbill_mul (X := X) (A := A) prior_slash_p (ie_value n) in
  let own_slash_by_validator := sh_perbill_mul (X := X) (A := A) (sp_slash p) (ie_value n) in
  let own_slash_difference := sat_sub own_slash_by_validator own_slash_prior in
  let key := (sp_slash_era p, ie_who n) in
  let era_slash := add128 (default 0 (NominatorSlashInEra (slashes s) !! key)) own_slash_difference in
  (set_nominator_slash (<[key := era_slash]> (NominatorSlashInEra (slashes s))) s, era_slash).
Fixpoint slash_nominators (p : SlashParams A) (prior_slash_p : Z) (others : list (IndividualExposure A))
    (reward_payout : Z) (slashed : list (A * Z)) s : St * Z * list (A * Z) :=
  match others with
  | [] => (s, reward_payout, slashed)
  | n :: others' =>
      let '(s, era_slash) := nominator_era_slash p prior_slash_p n s in
      let '(s, nom_slashed, reward_payout, _) := slash_span p (ie_who n) era_slash reward_payout s in
      slash_nominators p prior_slash_p others' reward_payout (slashed ++ [(ie_who n, nom_slashed)]) s
  end.

(** The code chills the validator before the spans are dropped; the two touch different
    storage. *)
Definition compute_slash (p : SlashParams A) s : St * option (UnappliedSlash A) :=
  let own_slash := sh_perbill_mul (X := X) (A := A) (sp_slash p) (ex_own (sp_exposure p)) in
  if sh_perbill_mul (X := X) (A := A) (sp_slash p) (ex_total (sp_exposure p)) =? 0 then (kick_out_if_recent p s, None)
  else
    let key := (sp_slash_era p, sp_stash p) in
    let prior_slash_p := match ValidatorSlashInEra (slashes s) !! key with Some (prior, _) => prior | None => 0 end in
    if prior_slash_p <? sp_slash p then
      let s := set_validator_slash (<[key := (sp_slash p, own_slash)]> (ValidatorSlashInEra (slashes s))) s in
      let '(s, val_slashed, reward_payout, current) := slash_span p (sp_stash p) own_slash 0 s in
      let s := if current then chill_stash (sp_stash p) s else s in
      let s := add_offending_validator (sp_stash p) (bool_decide (sp_disable_strategy p <> DisableNever)) s in
      let '(s, nominators_payout, nominators_slashed) :=
        slash_nominators p prior_slash_p (ex_others (sp_exposure p)) 0 [] s in
      (s, Some (mkUnapplied (sp_stash p) val_slashed nominators_slashed [] (add128 reward_payout nominators_payout)))
    else (s, None).

(** ** Applying a slash *)
Definition do_slash (who : A) (value reward_payout slashed_imbalance slash_era : Z) s : St * Z * Z :=
  match bonded s who with
  | None => (s, reward_payout, slashed_imbalance)
  | Some controller =>
      match ledger s controller with
      | None => (s, reward_payout, slashed_imbalance)
      | Some l =>
          let '(l, value, hook) := ledger_slash (BondingDuration cfg) value sh_minimum_balance slash_era l in
          let s := match hook with
                   | Some unlocking => on_host (sh_on_staker_slash (stash l) (active l) unlocking) s
                   | None => s
                   end in
          if value =? 0 then (s, reward_payout, slashed_imbalance)
          else
            let '(x, (imbalance, missing)) := sh_slash who value (stk_rest s) in
            let s := on_host (fun _ => x) s in
            let s := update_ledger controller l s in
            (emit (EvSlashed who value) s,
             if missing =? 0 then reward_payout else sat_sub reward_payout missing,
             sat_add U128_MAX slashed_imbalance imbalance)
      end
  end.

(** [NegativeImbalance::split]. *)
Definition split (imbalance amount : Z) : Z * Z := let first := Z.min imbalance amount in (first, imbalance - first).
Fixpoint pay_each (per_reporter : Z) (reporters : list A) (reward_payout : Z) s : St * Z :=
  match reporters with
  | [] => (s, reward_payout)
  | r :: rs =>
      let '(reporter_reward, rest) := split reward_payout per_reporter in
      pay_each per_reporter rs rest (on_host (sh_resolve_creating r reporter_reward) s)
  end.
Definition pay_reporters (reward_payout slashed_imbalance : Z) (reporters : list A) s : St :=
  if (reward_payout =? 0) || bool_decide (reporters = []) then on_host (sh_on_slash_imbalance slashed_imbalance) s
  else
    let reward_payout := Z.min reward_payout slashed_imbalance in
    let '(reward_payout, value_slashed) := split slashed_imbalance reward_payout in
    let per_reporter := reward_payout / wrap U32_MAX (Z.of_nat (length reporters)) in
    let '(s, reward_payout) := pay_each per_reporter reporters reward_payout s in
    on_host (sh_on_slash_imbalance (sat_add U128_MAX value_slashed reward_payout)) s.

Fixpoint do_slashes (l : list (A * Z)) (reward_payout slashed_imbalance slash_era : Z) s : St * Z * Z :=
  match l with
  | [] => (s, reward_payout, slashed_imbalance)
  | (who, value) :: l' =>
      let '(s, reward_payout, slashed_imbalance) := do_slash who value reward_payout slashed_imbalance slash_era s in
      do_slashes l' reward_payout slashed_imbalance slash_era s
  end.
Definition apply_slash (u : UnappliedSlash A) (slash_era : Z) s : St :=
  let '(s, reward_payout, slashed_imbalance) := do_slash (us_validator u) (us_own u) (us_payout u) 0 slash_era s in
  let '(s, reward_payout, slashed_imbalance) :=
    do_slashes (us_others u) reward_payout slashed_imbalance slash_era s in
  pay_reporters reward_payout slashed_imbalance (us_reporters u) s.

Definition apply_unapplied_slashes (active_era : Z) s : St :=
  let era_slashes := default [] (UnappliedSlashes (slashes s) !! active_era) in
  let s := set_unapplied (delete active_era (UnappliedSlashes (slashes s))) s in
  let slash_era := sat_sub active_era (SlashDeferDuration cfg) in
  foldl (fun s u => apply_slash u slash_era s) s era_slashes.

(** ** The handler of offences *)
Definition slash_offender (invulnerables : list A) (reward_proportion slash_era window_start active_era : Z)
    (disable : DisableStrategy) (details : OffenceDetails A) (fraction : Z) s : St :=
  if bool_decide (od_stash details ∈ invulnerables) then s
  else
    let '(s, unapplied) :=
      compute_slash (mkSlashParams (od_stash details) fraction (od_exposure details) slash_era window_start active_era
                       reward_proportion disable) s in
    let s := emit (EvSlashReported (od_stash details) fraction slash_era) s in
    match unapplied with
    | None => s
    | Some u =>
        let u := mkUnapplied (us_validator u) (us_own u) (us_others u) (od_reporters details) (us_payout u) in
        if SlashDeferDuration cfg =? 0 then apply_slash u slash_era s
        else
          let at_era := sat_add U32_MAX (sat_add U32_MAX slash_era (SlashDeferDuration cfg)) 1 in
          let m := UnappliedSlashes (slashes s) in
          set_unapplied (<[at_era := default [] (m !! at_era) ++ [u]]> m) s
    end.
Definition offence_era s (active_era slash_session : Z) : option Z :=
  let start := default 0 (ErasStartSessionIndex (eras s) !! active_era) in
  if start <=? slash_session then Some active_era
  else fst ∘ snd <$> list_find (fun e => e.2 <= slash_session) (rev (BondedEras (eras s))).
Definition on_offence (offenders : list (OffenceDetails A)) (fractions : list Z) (slash_session : Z)
    (disable : DisableStrategy) s : St :=
  match ActiveEra (eras s) with
  | None => s
  | Some info =>
      let active_era := ai_index info in
      let window_start := sat_sub active_era (BondingDuration cfg) in
      match offence_era s active_era slash_session with
      | None => s
      | Some slash_era =>
          let invulnerables := Invulnerables (params s) in
          let reward_proportion := SlashRewardFraction (params s) in
          foldl (fun s o => slash_offender invulnerables reward_proportion slash_era window_start active_era disable
                              o.1 o.2 s) s (zip offenders fractions)
      end
  end.

(** [FilterHistoricalOffences]; [report] is the inner [report_offence]. *)
Definition filtered_report {E} (report : St -> St * res E unit) (offence_session : Z) s : St * res E unit :=
  match BondedEras (eras s) with
  | (_, start) :: _ => if start <=? offence_session then report s else (emit (EvOldSlashingReportDiscarded offence_session) s, Ok tt)
  | [] => (emit (EvOldSlashingReportDiscarded offence_session) s, Ok tt)
  end.

Definition clear_era_metadata (obsolete_era : Z) s : St :=
  let s := set_validator_slash (filter (fun kv => kv.1.1 <> obsolete_era) (ValidatorSlashInEra (slashes s))) s in
  set_nominator_slash (filter (fun kv => kv.1.1 <> obsolete_era) (NominatorSlashInEra (slashes s))) s.
End slashing.

(** ** Theorems *)
(** The staking lock is not touched by slashes of the balance, payments, the session and
    the handlers. *)
Class SlashHostLaws (X A : Type) `{StakingHost X A} (locked : X -> A -> option Z) : Prop := {
  sl_slash a v x b : locked (sh_slash a v x).1 b = locked x b;
  sl_staker a v m x b : locked (sh_on_staker_slash a v m x) b = locked x b;
  sl_resolve a v x b : locked (sh_resolve_creating a v x) b = locked x b;
  sl_imbalance v x b : locked (sh_on_slash_imbalance v x) b = locked x b;
  sl_disable i x b : locked (sh_disable_validator i x) b = locked x b;
}.

Section theorems.
Context {X A : Type} {eqA : EqDecision A} {countA : Countable A} {host : StakingHost X A} {prop : Proportion}.
Context {locked : X -> A -> option Z} {laws : StakingHostLaws X A locked} {slaws : SlashHostLaws X A locked}.
Context {plaws : ProportionLaws}.
Variable cfg : StakingConfig.
Abbreviation St := (Staking X A).
Abbreviation bonds_kept := (bonds_kept (locked := locked)).
Abbreviation bonds_inv := (bonds_inv (locked := locked) cfg).
Implicit Types s : St.

Definition unapplied_ok (u : UnappliedSlash A) : Prop :=
  in_u U128_MAX (us_own u) /\ Forall (fun o => in_u U128_MAX o.2) (us_others u).
Definition queue_ok s : Prop := forall era us, UnappliedSlashes (slashes s) !! era = Some us -> Forall unapplied_ok us.

(** *** Computing a slash

    leaves the bonds, the slashes that wait and the eras alone. *)
Record quiet s s' : Prop := {
  q_bonds : bonds_kept s s';
  q_queue : UnappliedSlashes (slashes s') = UnappliedSlashes (slashes s);
  q_eras : eras s' = eras s;
}.
Lemma quiet_refl s : quiet s s.
Proof. done. Qed.
Lemma quiet_trans s1 s2 s3 : quiet s1 s2 -> quiet s2 s3 -> quiet s1 s3.
Proof. intros [H1 H2 H3] [H4 H5 H6]. split; [by eapply bonds_kept_trans|congruence..]. Qed.
Ltac quiet := split; [by split|done|done].

Lemma fetch_spans_quiet who w p so rp s : quiet s (fetch_spans who w p so rp s).1.
Proof. unfold fetch_spans. destruct (spans_of s who); quiet. Qed.
Lemma compare_quiet era slash i s : quiet s (compare_and_update_span_slash era slash i s).1.1.
Proof.
  unfold compare_and_update_span_slash. destruct (era_span _ _); [|done].
  repeat (case_match; simplify_eq/=); quiet.
Qed.
Lemma drop_spans_quiet i s : quiet s (drop_spans i s).
Proof. unfold drop_spans. destruct (is_dirty i); [|done]. destruct (spans_prune _ _) as [sp [[]|]]; quiet. Qed.
Lemma slash_span_quiet p who slash paid s : quiet s (slash_span p who slash paid s).1.1.1.
Proof.
  unfold slash_span. pose proof (fetch_spans_quiet who (sp_window_start p) paid 0 (sp_reward_proportion p) s) as H1.
  destruct (fetch_spans _ _ _ _ _ s) as [s1 i]. pose proof (compare_quiet (sp_slash_era p) slash i s1) as H2.
  destruct (compare_and_update_span_slash _ _ _ _) as [[s2 i2] t]. cbn [fst] in *.
  eapply quiet_trans; [exact H1|]. eapply quiet_trans; [exact H2|]. apply drop_spans_quiet.
Qed.
Lemma chill_stash_quiet a s : quiet s (chill_stash a s).
Proof.
  split; [apply chill_stash_kept|..]; unfold chill_stash, do_remove_validator, do_remove_nominator;
    by repeat case_bool_decide.
Qed.
Lemma ensure_new_era_quiet s : quiet s (ensure_new_era s).
Proof. unfold ensure_new_era. destruct (ForceEra _); quiet. Qed.
Lemma disable_quiet i s : quiet s (on_host (sh_disable_validator i) s).
Proof. split; [|done..]. apply host_kept. intros a. apply sl_disable. Qed.
Lemma add_offending_quiet who d s : quiet s (add_offending_validator cfg who d s).
Proof.
  unfold add_offending_validator. destruct (position _ _) as [n|]; [|done]. destruct (search _ _) as [i|i].
  - destruct (_ !! i) as [[idx b]|]; [|done]. destruct (d && negb b); [|done].
    eapply quiet_trans; [apply disable_quiet|quiet].
  - set (s1 := if _ <=? _ then _ else _). assert (quiet s s1) as H1.
    { unfold s1. destruct (_ <=? _); [apply ensure_new_era_quiet|done]. }
    eapply quiet_trans; [exact H1|]. destruct d; [eapply quiet_trans; [apply disable_quiet|]|]; quiet.
Qed.
Lemma kick_out_quiet p s : quiet s (kick_out_if_recent cfg p s).
Proof.
  unfold kick_out_if_recent. pose proof (fetch_spans_quiet (sp_stash p) (sp_window_start p) 0 0 (sp_reward_proportion p) s) as H1.
  destruct (fetch_spans _ _ _ _ _ s) as [s1 i]. cbn [fst] in H1. eapply quiet_trans; [exact H1|].
  destruct (bool_decide _); (eapply quiet_trans; [|apply drop_spans_quiet]);
    [eapply quiet_trans; [apply chill_stash_quiet|]|]; apply add_offending_quiet.
Qed.

(** The amounts computed are balances. *)
Lemma compare_slash_of era slash i s : in_u U128_MAX (is_slash_of i) ->
  in_u U128_MAX (is_slash_of (compare_and_update_span_slash era slash i s).1.2).
Proof.
  intros Hi. unfold compare_and_update_span_slash. destruct (era_span _ _); [|done].
  repeat (case_match; simplify_eq/=); try done; apply wrap_range; unfold U128_MAX; lia.
Qed.
Lemma slash_span_amount p who slash paid s : in_u U128_MAX (slash_span p who slash paid s).1.1.2.
Proof.
  unfold slash_span. destruct (fetch_spans _ _ _ _ _ s) as [s1 i] eqn:Ef.
  assert (is_slash_of i = 0) as Hi by (unfold fetch_spans in Ef; destruct (spans_of s who); by injection Ef as <- <-).
  pose proof (compare_slash_of (sp_slash_era p) slash i s1 ltac:(rewrite Hi; unfold in_u, U128_MAX; lia)) as H2.
  destruct (compare_and_update_span_slash _ _ _ _) as [[s2 i2] t]. cbn [fst snd] in *.
  destruct (bool_decide _); [|done]. unfold is_end_span. by destruct (spans_end_span _ _).
Qed.
Lemma slash_nominators_quiet p pr others : forall rw sl s, Forall (fun o => in_u U128_MAX o.2) sl ->
  let r := slash_nominators p pr others rw sl s in
  quiet s r.1.1 /\ Forall (fun o => in_u U128_MAX o.2) r.2.
Proof.
  induction others as [|n others IH]; intros rw sl s Hsl; [done|]. cbn [slash_nominators].
  destruct (nominator_era_slash p pr n s) as [s1 e] eqn:En.
  assert (quiet s s1) as H1 by (unfold nominator_era_slash in En; injection En as <- _; quiet).
  pose proof (slash_span_quiet p (ie_who n) e rw s1) as H2. pose proof (slash_span_amount p (ie_who n) e rw s1) as H3.
  destruct (slash_span _ _ _ _ s1) as [[[s2 v] r] c]. cbn [fst snd] in H2, H3.
  destruct (IH r (sl ++ [(ie_who n, v)]) s2) as [H4 H5]; [apply Forall_app; split; [done|by constructor]|].
  split; [|done]. eapply quiet_trans; [exact H1|]. by eapply quiet_trans.
Qed.
Lemma compute_slash_quiet p s s' u : compute_slash cfg p s = (s', u) ->
  quiet s s' /\ match u with Some u => unapplied_ok u | None => True end.
Proof.
  unfold compute_slash. destruct (_ =? 0); [intros [= <- <-]; split; [apply kick_out_quiet|done]|].
  destruct (_ <? _); [|by intros [= <- <-]].
  set (s0 := set_validator_slash _ s). assert (quiet s s0) as H0 by quiet.
  set (own := sh_perbill_mul (X := X) (A := A) (sp_slash p) (ex_own (sp_exposure p))).
  pose proof (slash_span_quiet p (sp_stash p) own 0 s0) as H1. pose proof (slash_span_amount p (sp_stash p) own 0 s0) as Hv.
  destruct (slash_span _ _ _ _ s0) as [[[s1 v] r] c]. cbn [fst snd] in *.
  set (s2 := if c then _ else s1). assert (quiet s1 s2) as H2 by (unfold s2; destruct c; [apply chill_stash_quiet|done]).
  set (s3 := add_offending_validator _ _ _ s2).
  assert (quiet s2 s3) as H3 by apply add_offending_quiet. clearbody s0 s2 s3.
  match goal with |- context [slash_nominators p ?pr ?o 0 [] s3] =>
    pose proof (slash_nominators_quiet p pr o 0 [] s3 ltac:(done)) as [H4 H5] end.
  destruct (slash_nominators _ _ _ _ _ s3) as [[s4 np] ns]. cbn [fst snd] in *. intros [= <- <-].
  split; [|by split]. repeat (eapply quiet_trans; [eassumption|]). done.
Qed.

(** *** Applying a slash keeps them sound *)
Lemma do_slash_inv who v rp imb era s :
  in_u U128_MAX v -> bonds_inv s -> bonds_inv (do_slash cfg who v rp imb era s).1.1.
Proof.
  intros Hv Hinv. unfold do_slash. destruct (bonded s who) as [c|] eqn:Eb; [|done].
  destruct (ledger s c) as [l|] eqn:El; [|done].
  destruct (ledger_slash _ v _ era l) as [[l' sv] hook] eqn:Es.
  pose proof (bi_ledgers _ _ Hinv c l El) as [Hok _ Hlen _].
  apply ledger_slash_spec in Es as (Hok' & _ & _ & Hst & _ & Hl & _); [|done|exact Hv].
  set (s1 := match hook with Some _ => _ | None => _ end). assert (bonds_kept s s1) as Hk.
  { unfold s1. destruct hook; [|done]. apply host_kept. intros b. apply sl_staker. }
  destruct (sv =? 0); cbn [fst]; [by eapply bonds_inv_kept|].
  pose proof (sl_slash who sv (stk_rest s1)) as Hsl. destruct (sh_slash who sv (stk_rest s1)) as [x [imb' miss]]. cbn [fst] in *.
  set (s2 := on_host _ s1). assert (bonds_kept s s2) as Hk2 by (eapply bonds_kept_trans; [exact Hk|by split]).
  eapply bonds_inv_kept; [apply emit_kept|]. eapply update_ledger_inv; [by eapply bonds_inv_kept| |exact Hst|done|lia].
  unfold ledger. rewrite (bk_ledger _ _ Hk2). exact El.
Qed.
Lemma do_slashes_inv l : forall rp imb era s, Forall (fun o => in_u U128_MAX o.2) l -> bonds_inv s ->
  bonds_inv (do_slashes cfg l rp imb era s).1.1.
Proof.
  induction l as [|[who v] l IH]; intros rp imb era s Hf Hinv; [done|]. apply Forall_cons in Hf as [Hv Hf]. cbn [do_slashes].
  pose proof (do_slash_inv who v rp imb era s Hv Hinv) as H1. destruct (do_slash _ _ _ _ _ _ s) as [[s1 rp1] imb1].
  by apply IH.
Qed.
Lemma pay_each_kept per rs : forall rw s, bonds_kept s (pay_each per rs rw s).1.
Proof.
  induction rs as [|r rs IH]; intros rw s; [done|]. cbn [pay_each]. destruct (split rw per) as [f rest].
  eapply bonds_kept_trans; [|apply IH]. apply host_kept. intros b. apply sl_resolve.
Qed.
Lemma on_slash_kept v s : bonds_kept s (on_host (sh_on_slash_imbalance v) s).
Proof. apply host_kept. intros b. apply sl_imbalance. Qed.
Lemma pay_reporters_kept rp imb rs s : bonds_kept s (pay_reporters rp imb rs s).
Proof.
  unfold pay_reporters. destruct (_ || _); [apply on_slash_kept|]. destruct (split _ _) as [f rest].
  pose proof (pay_each_kept (f / wrap U32_MAX (Z.of_nat (length rs))) rs f s) as H1.
  destruct (pay_each _ _ _ s) as [s1 r1]. eapply bonds_kept_trans; [exact H1|apply on_slash_kept].
Qed.
Lemma apply_slash_inv u era s : unapplied_ok u -> bonds_inv s -> bonds_inv (apply_slash cfg u era s).
Proof.
  intros [Hown Hothers] Hinv. unfold apply_slash.
  pose proof (do_slash_inv (us_validator u) (us_own u) (us_payout u) 0 era s Hown Hinv) as H1.
  destruct (do_slash _ _ _ _ _ _ s) as [[s1 rp1] imb1].
  pose proof (do_slashes_inv (us_others u) rp1 imb1 era s1 Hothers H1) as H2.
  destruct (do_slashes _ _ _ _ _ s1) as [[s2 rp2] imb2]. by eapply bonds_inv_kept; [apply pay_reporters_kept|].
Qed.

(** Applying a slash changes neither the slashing metadata, nor the slashes that wait, nor
    the eras. *)
Definition same_meta s s' : Prop := slashes s' = slashes s /\ eras s' = eras s.
Lemma do_slash_meta who v rp imb era s : same_meta s (do_slash cfg who v rp imb era s).1.1.
Proof.
  unfold do_slash. destruct (bonded s who); [|done]. destruct (ledger s _) as [l|]; [|done].
  destruct (ledger_slash _ _ _ _ l) as [[l' sv] hook]. destruct (sv =? 0); [by destruct hook|].
  by destruct hook; cbn [on_host]; destruct (sh_slash _ _ _) as [x [i m]].
Qed.
Lemma do_slashes_meta l : forall rp imb era s, same_meta s (do_slashes cfg l rp imb era s).1.1.
Proof.
  induction l as [|[who v] l IH]; intros rp imb era s; [done|]. cbn [do_slashes].
  pose proof (do_slash_meta who v rp imb era s) as [H1 H2]. destruct (do_slash _ _ _ _ _ _ s) as [[s1 rp1] imb1].
  destruct (IH rp1 imb1 era s1) as [H3 H4]. split; cbn [fst] in *; congruence.
Qed.
Lemma pay_each_meta per rs : forall rw s, same_meta s (pay_each per rs rw s).1.
Proof. induction rs as [|r rs IH]; intros rw s; [done|]. cbn [pay_each]. destruct (split rw per) as [f rest].
  destruct (IH rest (on_host (sh_resolve_creating r f) s)) as [H1 H2]. by split. Qed.
Lemma apply_slash_meta u era s : same_meta s (apply_slash cfg u era s).
Proof.
  unfold apply_slash. pose proof (do_slash_meta (us_validator u) (us_own u) (us_payout u) 0 era s) as [H1 H1'].
  destruct (do_slash _ _ _ _ _ _ s) as [[s1 rp1] imb1]. pose proof (do_slashes_meta (us_others u) rp1 imb1 era s1) as [H2 H2'].
  destruct (do_slashes _ _ _ _ _ s1) as [[s2 rp2] imb2]. cbn [fst] in *. unfold same_meta.
  rewrite <- H1, <- H2, <- H1', <- H2'.
  unfold pay_reporters. destruct (_ || _); [done|]. destruct (split _ _) as [f rest].
  pose proof (pay_each_meta (f / wrap U32_MAX (Z.of_nat (length (us_reporters u)))) (us_reporters u) f s2) as H3.
  by destruct (pay_each _ _ _ s2) as [s3 r3].
Qed.
Lemma apply_slashes_inv era us : forall s, Forall unapplied_ok us -> bonds_inv s ->
  bonds_inv (foldl (fun s u => apply_slash cfg u era s) s us) /\
  same_meta s (foldl (fun s u => apply_slash cfg u era s) s us).
Proof.
  induction us as [|u us IH]; intros s Hf Hinv; [done|]. apply Forall_cons in Hf as [Hu Hf]. cbn [foldl].
  destruct (IH (apply_slash cfg u era s) Hf) as [H1 H2]; [by apply apply_slash_inv|].
  split; [done|]. destruct H2 as [H2 H3], (apply_slash_meta u era s) as [H4 H5]. split; congruence.
Qed.
(** *** Offences *)
Lemma queue_ok_at s e : queue_ok s -> Forall unapplied_ok (default [] (UnappliedSlashes (slashes s) !! e)).
Proof. intros Hq. destruct (_ !! e) as [us|] eqn:El; [|done]. by eapply Hq. Qed.
Lemma set_unapplied_kept m s : bonds_kept s (set_unapplied m s).
Proof. by split. Qed.
Lemma slash_offender_spec inv rp era w ae d det f s :
  bonds_inv s -> queue_ok s ->
  let s' := slash_offender cfg inv rp era w ae d det f s in
  bonds_inv s' /\ queue_ok s' /\ eras s' = eras s /\
  (SlashDeferDuration cfg <> 0 -> bonds_kept s s' /\
     forall e, e <> sat_add U32_MAX (sat_add U32_MAX era (SlashDeferDuration cfg)) 1 ->
       UnappliedSlashes (slashes s') !! e = UnappliedSlashes (slashes s) !! e).
Proof.
  intros Hinv Hq. unfold slash_offender. case_bool_decide; [done|].
  destruct (compute_slash cfg _ s) as [s1 u] eqn:Ec. apply compute_slash_quiet in Ec as [[H1 H2 H3] Hu].
  set (s2 := emit _ s1). assert (bonds_kept s s2) as Hk by (eapply bonds_kept_trans; [exact H1|apply emit_kept]).
  assert (bonds_inv s2) as Hi2 by by eapply bonds_inv_kept.
  assert (queue_ok s2) as Hq2 by (intros e us He; cbn in He; rewrite H2 in He; by eapply Hq).
  destruct u as [u|]; cbv zeta; [|split_and!; [done..|]; intros _; split; [done|]; intros e _; cbn; by rewrite H2].
  set (u' := mkUnapplied _ _ _ _ _). assert (unapplied_ok u') as Hu' by exact Hu.
  destruct (Z.eqb_spec (SlashDeferDuration cfg) 0) as [Hz|Hz].
  - split_and!; [by apply apply_slash_inv| | |done].
    + intros e us. rewrite (proj1 (apply_slash_meta _ _ _)). apply Hq2.
    + rewrite (proj2 (apply_slash_meta _ _ _)). exact H3.
  - split_and!; [by eapply bonds_inv_kept; [apply set_unapplied_kept|]| |exact H3|].
    + intros e us. cbn. destruct (decide (e = sat_add U32_MAX (sat_add U32_MAX era (SlashDeferDuration cfg)) 1)) as [->|Hne].
      * rewrite lookup_insert_eq. intros [= <-]. apply Forall_app. split; [|by constructor].
        apply (queue_ok_at s2 _ Hq2).
      * rewrite lookup_insert_ne by done. apply Hq2.
    + intros _. split; [eapply bonds_kept_trans; [exact Hk|apply set_unapplied_kept]|]. intros e He. cbn.
      rewrite lookup_insert_ne by done. by rewrite H2.
Qed.
Lemma slash_offenders_spec inv rp era w ae d l : forall s, bonds_inv s -> queue_ok s ->
  let s' := foldl (fun s o => slash_offender cfg inv rp era w ae d o.1 o.2 s) s l in
  bonds_inv s' /\ queue_ok s' /\ eras s' = eras s /\
  (SlashDeferDuration cfg <> 0 -> bonds_kept s s' /\
     forall e, e <> sat_add U32_MAX (sat_add U32_MAX era (SlashDeferDuration cfg)) 1 ->
       UnappliedSlashes (slashes s') !! e = UnappliedSlashes (slashes s) !! e).
Proof.
  induction l as [|[det f] l IH]; intros s Hinv Hq; [done|]. cbn [foldl fst snd].
  destruct (slash_offender_spec inv rp era w ae d det f s Hinv Hq) as (H1 & H2 & H3 & H4).
  destruct (IH _ H1 H2) as (H5 & H6 & H7 & H8). cbv zeta in *. split_and!; [done|done|congruence|].
  intros Hd. destruct (H4 Hd) as [H9 H10], (H8 Hd) as [H11 H12]. split; [by eapply bonds_kept_trans|].
  intros e He. by rewrite H12, H10.
Qed.

Lemma on_offence_inv offenders fractions session disable s : bonds_inv s -> queue_ok s ->
  bonds_inv (on_offence cfg offenders fractions session disable s) /\
  queue_ok (on_offence cfg offenders fractions session disable s).
Proof.
  intros Hinv Hq. unfold on_offence. destruct (ActiveEra (eras s)) as [info|]; [|done].
  destruct (offence_era _ _ _) as [e|]; [|done].
  destruct (slash_offenders_spec (Invulnerables (params s)) (SlashRewardFraction (params s)) e
    (sat_sub (ai_index info) (BondingDuration cfg)) (ai_index info) disable (zip offenders fractions) s Hinv Hq)
    as (H1 & H2 & _). done.
Qed.
Lemma apply_unapplied_inv era s : bonds_inv s -> queue_ok s ->
  bonds_inv (apply_unapplied_slashes cfg era s) /\ queue_ok (apply_unapplied_slashes cfg era s).
Proof.
  intros Hinv Hq. unfold apply_unapplied_slashes. set (s0 := set_unapplied _ s).
  assert (bonds_inv s0) as H0 by (eapply bonds_inv_kept; [apply set_unapplied_kept|exact Hinv]).
  destruct (apply_slashes_inv (sat_sub era (SlashDeferDuration cfg)) _ s0 (queue_ok_at s era Hq) H0) as [H3 [H4 _]].
  split; [done|]. intros e us He. rewrite H4 in He. cbn in He. apply lookup_delete_Some in He as [_ He]. by eapply Hq.
Qed.

(** C27. Slashes keep the bonds sound.  Whatever offences are reported, with whatever
    exposures and fractions, and whatever slashes are due when an era starts: afterwards
    every ledger is still the sum of its parts, belongs to the one stash that names its
    controller and is what is locked on it, and the slashes that wait are still amounts that
    can be applied. *)
Theorem slashes_keep_bonds offenders fractions session disable era s :
  bonds_inv s -> queue_ok s ->
  let s1 := on_offence cfg offenders fractions session disable s in
  let s2 := apply_unapplied_slashes cfg era s in
  bonds_inv s1 /\ queue_ok s1 /\ bonds_inv s2 /\ queue_ok s2.
Proof.
  intros Hinv Hq. cbv zeta. destruct (on_offence_inv offenders fractions session disable s Hinv Hq).
  by destruct (apply_unapplied_inv era s Hinv Hq).
Qed.

(** Deferred slashes wait.  While slashes are deferred, a report of offences changes no
    bond, no ledger and no lock: what was computed joins the slashes of the era that follows
    the offence by the deferral and one more, and the slashes of all other eras stay as
    they were; the start of an era takes the slashes of this era, all of them, out of the
    queue and no others. *)
Theorem deferred_slash_waits offenders fractions session disable era info s :
  SlashDeferDuration cfg <> 0 -> bonds_inv s -> queue_ok s ->
  ActiveEra (eras s) = Some info -> offence_era s (ai_index info) session = Some era ->
  let s1 := on_offence cfg offenders fractions session disable s in
  bonds_kept s s1 /\
  (forall e, e <> sat_add U32_MAX (sat_add U32_MAX era (SlashDeferDuration cfg)) 1 ->
     UnappliedSlashes (slashes s1) !! e = UnappliedSlashes (slashes s) !! e) /\
  forall e, UnappliedSlashes (slashes (apply_unapplied_slashes cfg e s)) = delete e (UnappliedSlashes (slashes s)).
Proof.
  intros Hd Hinv Hq Ha He. cbv zeta. unfold on_offence. rewrite Ha, He.
  destruct (slash_offenders_spec (Invulnerables (params s)) (SlashRewardFraction (params s)) era
    (sat_sub (ai_index info) (BondingDuration cfg)) (ai_index info) disable (zip offenders fractions) s Hinv Hq)
    as (_ & _ & _ & Hdef). destruct (Hdef Hd) as [Hk Hu]. split_and!; [done|done|].
  intros e. unfold apply_unapplied_slashes. set (s0 := set_unapplied _ s).
  assert (bonds_inv s0) as H0 by (eapply bonds_inv_kept; [apply set_unapplied_kept|exact Hinv]).
  destruct (apply_slashes_inv (sat_sub e (SlashDeferDuration cfg)) _ s0 (queue_ok_at s e Hq) H0) as [_ [H4 _]].
  by rewrite H4.
Qed.

(** *** Reporters *)
Lemma pay_each_eq per rs : forall rw s, 0 <= per -> per * Z.of_nat (length rs) <= rw ->
  pay_each per rs rw s =
    (on_host (fun x => foldl (fun x r => sh_resolve_creating r per x) x rs) s, rw - per * Z.of_nat (length rs)).
Proof.
  induction rs as [|r rs IH]; intros rw s Hp Hr; cbn [length] in *.
  { cbn. destruct s; cbn. f_equal. lia. }
  cbn [pay_each]. unfold split. rewrite Z.min_r by nia. rewrite IH by nia. cbn [foldl on_host stk_rest].
  f_equal. lia.
Qed.

(** Reporters are paid out of the slash.  Each reporter gets the same share of the
    reward, rounded down, in order; the reward is no more than what was slashed, and all
    that was slashed and not paid, with the remainder of the division, goes to the handler
    of slashes: nothing is created and nothing is lost. *)
Theorem reporters_paid_from_slash payout imbalance reporters s :
  0 <= payout -> in_u U128_MAX imbalance -> Z.of_nat (length reporters) <= U32_MAX ->
  let n := Z.of_nat (length reporters) in
  let per := if n =? 0 then 0 else Z.min payout imbalance / n in
  pay_reporters payout imbalance reporters s =
    on_host (fun x => sh_on_slash_imbalance (imbalance - per * n)
                        (if payout =? 0 then x else foldl (fun x r => sh_resolve_creating r per x) x reporters)) s /\
  0 <= per * n <= Z.min payout imbalance.
Proof.
  intros Hp [Hi0 Hi] Hlen. cbv zeta. unfold pay_reporters. destruct (Z.eqb_spec payout 0) as [->|Hp0].
  { rewrite Z.min_l by done. cbn [orb].
    assert ((if Z.of_nat (length reporters) =? 0 then 0 else 0 / Z.of_nat (length reporters)) = 0) as ->.
    { destruct (Z.eqb_spec (Z.of_nat (length reporters)) 0); [done|]. by apply Z.div_0_l. }
    split; [|lia]. f_equal. rewrite Z.mul_0_l, Z.sub_0_r. done. }
  cbn [orb]. case_bool_decide as Hr.
  { subst. cbn. split; [|lia]. by rewrite Z.sub_0_r. }
  assert (0 < Z.of_nat (length reporters)) as Hn by (destruct reporters; [done|cbn; lia]).
  rewrite (proj2 (Z.eqb_neq _ 0)) by lia. unfold split. rewrite (Z.min_r imbalance) by lia. cbv beta iota.
  rewrite (wrap_small _ (Z.of_nat _)) by (unfold in_u; lia).
  set (n := Z.of_nat (length reporters)) in *. set (rw := Z.min payout imbalance) in *.
  assert (0 <= rw / n * n <= rw) as Hb.
  { pose proof (Z.div_mod rw n ltac:(lia)). pose proof (Z.mod_pos_bound rw n Hn).
    assert (0 <= rw / n) by (apply Z.div_pos; lia). nia. }
  split; [|lia]. rewrite pay_each_eq; [|apply Z.div_pos; lia|fold n; lia]. fold n.
  unfold on_host at 1. cbn [stk_rest stakes params eras slashes stk_events on_host]. unfold on_host. f_equal.
  rewrite sat_add_exact by lia. f_equal. lia.
Qed.
(** *** The maximum of a span *)
Record same_shape (sp sp' : SlashingSpans) : Prop := {
  ss_index : span_index sp' = span_index sp;
  ss_start : last_start sp' = last_start sp;
  ss_prior : prior sp' = prior sp;
}.
Lemma same_shape_ok sp sp' : same_shape sp sp' -> spans_ok sp -> spans_ok sp'.
Proof. intros [H1 H2 H3] [H4 H5 H6]. split; rewrite ?H1, ?H2, ?H3; done. Qed.
Lemma same_shape_span sp sp' era : same_shape sp sp' -> era_span sp' era = era_span sp era.
Proof. intros []. by apply era_span_shape. Qed.

Definition slashed_in s (who : A) (k : Z) : Z := sr_slashed (span_record s (who, k)).
Lemma compare_spec era slash i s s' i' t k :
  span_idx <$> era_span (is_spans i) era = Some k ->
  compare_and_update_span_slash era slash i s = (s', i', t) ->
  let old := slashed_in s (is_stash i) k in
  t = Some k /\ is_stash i' = is_stash i /\ is_window_start i' = is_window_start i /\
  same_shape (is_spans i) (is_spans i') /\ slashed_in s' (is_stash i) k = Z.max old slash /\
  is_slash_of i' = (if old <? slash then add128 (is_slash_of i) (slash - old) else is_slash_of i) /\
  SlashingSpansOf (slashes s') = SlashingSpansOf (slashes s).
Proof.
  intros Hk. unfold compare_and_update_span_slash, slashed_in. destruct (era_span _ _) as [sp|]; [|done].
  injection Hk as ->. cbv zeta. set (r := span_record s (is_stash i, k)). intros Hc.
  assert (forall rec, span_record (set_span_slash (<[(is_stash i, k) := rec]> (SpanSlash (slashes s))) s) (is_stash i, k) = rec)
    as Hins by (intros rec; unfold span_record; cbn; by rewrite lookup_insert_eq).
  destruct (Z.ltb_spec (sr_slashed r) slash) as [Hlt|Hge].
  - rewrite Z.max_r by lia. destruct (slash_reward _ _ _ =? 0); injection Hc as <- <- <-; rewrite Hins; by split_and!.
  - rewrite Z.max_l by lia. fold r. destruct (_ =? slash); [destruct (slash_reward _ _ _ =? 0)|];
      injection Hc as <- <- <-; rewrite ?Hins; fold r; by split_and!.
Qed.

(** The state of the spans of one stash between two reports: [lo] and [hi] bound the eras
    that are looked at. *)
Definition spans_at (w : Z) s (who : A) : SlashingSpans := default (spans_new w) (spans_of s who).
Record spans_keep (lo hi : Z) (sp sp' : SlashingSpans) : Prop := {
  sk_ok : spans_ok sp';
  sk_index e : lo <= e <= hi -> span_idx <$> era_span sp' e = span_idx <$> era_span sp e;
  sk_bound : span_index sp' <= span_index sp + 1;
}.
Lemma end_span_keep lo hi now (i : InspectingSpans A) : spans_ok (is_spans i) -> span_index (is_spans i) < U32_MAX -> 0 <= now < U32_MAX -> hi <= now ->
  spans_keep lo hi (is_spans i) (is_spans (is_end_span now i)) /\ is_stash (is_end_span now i) = is_stash i /\
  is_window_start (is_end_span now i) = is_window_start i /\ is_slash_of (is_end_span now i) = is_slash_of i.
Proof.
  intros Hok Hx Hn Hh. unfold is_end_span. pose proof (end_span_ok now _ Hok Hn Hx) as Hok'.
  destruct (Z.ltb_spec now (last_start (is_spans i))) as [Hlt|Hge].
  - rewrite end_span_none by done. cbn. split_and!; [split; [done|done|lia]|done..].
  - assert (forall e, lo <= e <= hi -> span_idx <$> era_span (spans_end_span now (is_spans i)).1 e =
      span_idx <$> era_span (is_spans i) e) as Hi.
    { intros e He. rewrite end_span_index by done. by rewrite (proj2 (Z.leb_le e now)) by lia. }
    rewrite end_span_cases in * by done. rewrite (proj2 (Z.ltb_ge _ _) Hge) in *. cbn in *.
    split_and!; [split; [done|exact Hi|cbn; lia]|done..].
Qed.
Lemma delete_range_lookup (who : A) (l : list Z) (m : gmap (A * Z) SpanRecord) k : k ∉ l ->
  foldl (fun m idx => delete (who, idx) m) m l !! (who, k) = m !! (who, k).
Proof.
  revert m. induction l as [|x l IH]; intros m Hk; [done|]. apply not_elem_of_cons in Hk as [Hne Hk]. cbn [foldl].
  rewrite IH by done. apply lookup_delete_ne. congruence.
Qed.
Lemma drop_spans_spec (i : InspectingSpans A) s k e : spans_ok (is_spans i) -> in_u U32_MAX (is_window_start i) -> is_window_start i <= e ->
  span_idx <$> era_span (is_spans i) e = Some k ->
  slashed_in (drop_spans i s) (is_stash i) k = slashed_in s (is_stash i) k /\
  (if is_dirty i then spans_of (drop_spans i s) (is_stash i) = Some (spans_prune (is_window_start i) (is_spans i)).1
   else drop_spans i s = s).
Proof.
  intros Hok Hw He Hk. unfold drop_spans. destruct (is_dirty i); [|done].
  pose proof (pruned_below (is_window_start i) (is_spans i) e k) as Hp.
  destruct (spans_prune _ _) as [sp pr]. cbn [fst snd] in *. split.
  - unfold slashed_in, span_record. cbn. destruct pr as [[from to]|]; cbn; [|done]. rewrite delete_range_lookup; [done|].
    rewrite elem_of_seqZ. specialize (Hp from to Hok Hw He Hk eq_refl). lia.
  - destruct pr as [[from to]|]; unfold spans_of; cbn; by rewrite lookup_insert_eq.
Qed.

(** One report in the span [k]. *)
Lemma slash_span_step p who slash paid s s' charged paid' cur k lo hi :
  let sp := spans_at (sp_window_start p) s who in
  spans_ok sp -> span_index sp < U32_MAX -> in_u U32_MAX (sp_window_start p) -> 0 <= sp_now p < U32_MAX ->
  sp_window_start p <= lo -> lo <= sp_slash_era p <= hi -> hi <= sp_now p ->
  span_idx <$> era_span sp (sp_slash_era p) = Some k ->
  in_u U128_MAX slash -> 0 <= slashed_in s who k ->
  slash_span p who slash paid s = (s', charged, paid', cur) ->
  let old := slashed_in s who k in
  slashed_in s' who k = Z.max old slash /\ charged = Z.max old slash - old /\
  exists sp', spans_of s' who = Some sp' /\ spans_keep lo hi sp sp'.
Proof.
  cbv zeta. intros Hok Hx Hw Hn Hlo He Hhi Hk Hs Hold. unfold slash_span.
  destruct (fetch_spans _ _ _ _ _ s) as [s1 i] eqn:Ef.
  assert (is_spans i = spans_at (sp_window_start p) s who /\ is_stash i = who /\ is_window_start i = sp_window_start p /\
    is_slash_of i = 0 /\ is_dirty i = false /\ spans_of s1 who = Some (spans_at (sp_window_start p) s who) /\
    slashed_in s1 who k = slashed_in s who k) as (Hi1 & Hi2 & Hi3 & Hi4 & _ & Hi6 & Hi7).
  { unfold fetch_spans, spans_at in *. destruct (spans_of s who) as [sp|] eqn:Es; injection Ef as <- <-; cbn; [done|].
    split_and!; try done. unfold spans_of. cbn. by rewrite lookup_insert_eq. }
  destruct (compare_and_update_span_slash _ _ i s1) as [[s2 i2] t] eqn:Ec.
  rewrite <- Hi1 in Hk. destruct (compare_spec _ _ _ _ _ _ _ _ Hk Ec) as (-> & H2 & H3 & H4 & H5 & H6 & H7).
  rewrite <- Hi1 in *. rewrite Hi2, Hi3, Hi4, Hi7 in *.
  pose proof (same_shape_ok _ _ H4 Hok) as Hok2. pose proof (ss_index _ _ H4) as Hidx.
  set (i3 := if bool_decide _ then _ else i2).
  assert (spans_keep lo hi (is_spans i2) (is_spans i3) /\ is_stash i3 = who /\ is_window_start i3 = sp_window_start p /\
    is_slash_of i3 = is_slash_of i2) as (Hk3 & H8 & H9 & H10).
  { unfold i3. destruct (bool_decide _); [|split_and!; [split; [done|done|lia]|done..]].
    destruct (end_span_keep lo hi (sp_now p) i2) as (Ha & Hb & Hc & Hd); [done|lia|done|done|]. by split_and!; [|congruence..]. }
  assert (span_idx <$> era_span (is_spans i3) (sp_slash_era p) = Some k) as Hk4.
  { rewrite (sk_index _ _ _ _ Hk3) by done. by rewrite (same_shape_span _ _ _ H4). }
  intros [= <- <- <- <-].
  destruct (drop_spans_spec i3 s2 k (sp_slash_era p) (sk_ok _ _ _ _ Hk3)) as [Hd1 Hd2]; [by rewrite H9|lia|done|].
  rewrite H8 in Hd1, Hd2. split_and!.
  - by rewrite Hd1.
  - rewrite H10, H6. destruct (Z.ltb_spec (slashed_in s who k) slash); [|lia]. destruct Hs.
    unfold wrap_add. rewrite wrap_small by (unfold in_u; lia). lia.
  - assert (spans_keep lo hi (is_spans i) (is_spans i3)) as Hkeep.
    { split; [exact (sk_ok _ _ _ _ Hk3)| |rewrite <- Hidx; apply (sk_bound _ _ _ _ Hk3)].
      intros e He'. rewrite (sk_index _ _ _ _ Hk3) by done. by rewrite (same_shape_span _ _ _ H4). }
    destruct (is_dirty i3).
    + eexists. split; [exact Hd2|]. rewrite H9. destruct Hkeep as [Ha Hb Hc]. split.
      * by apply prune_ok.
      * intros e He'. rewrite prune_index by (done || lia). by apply Hb.
      * by rewrite (proj1 (prune_fields _ _)).
    + exists (is_spans i). rewrite Hd2. split; [|split; [done|done|lia]]. unfold spans_of. rewrite H7. exact Hi6.
Qed.
(** What a sequence of reports about one stash charges in all. *)
Fixpoint charge_reports (who : A) (reports : list (SlashParams A * Z)) s : Z :=
  match reports with
  | [] => 0
  | (p, slash) :: rest => let '(s', charged, _, _) := slash_span p who slash 0 s in charged + charge_reports who rest s'
  end.
(** A report about an era between [lo] and [hi], the slash of which is a balance. *)
Record report_in (lo hi : Z) (p : SlashParams A) (slash : Z) : Prop := {
  ri_window : in_u U32_MAX (sp_window_start p) /\ sp_window_start p <= lo;
  ri_era : lo <= sp_slash_era p <= hi;
  ri_now : hi <= sp_now p < U32_MAX /\ 0 <= sp_now p;
  ri_slash : in_u U128_MAX slash;
}.

(** C26. Only the maximum is charged.  Of all the slashes reported in one slashing span of a
    stash, in whatever order they come and although the span may end and old spans be
    forgotten on the way, what is charged in all is the largest of them less what the span
    had been charged before, and not their sum. *)
Theorem span_charged_maximum who k lo hi reports s sp :
  spans_of s who = Some sp -> spans_ok sp -> span_index sp + Z.of_nat (length reports) <= U32_MAX ->
  0 <= slashed_in s who k ->
  Forall (fun r => report_in lo hi r.1 r.2 /\ span_idx <$> era_span sp (sp_slash_era r.1) = Some k) reports ->
  charge_reports who reports s =
    foldl Z.max (slashed_in s who k) (snd <$> reports) - slashed_in s who k.
Proof.
  intros Hsp Hok Hb Hold Hr. revert s sp Hsp Hok Hb Hold Hr.
  induction reports as [|[p slash] reports IH]; intros s sp Hsp Hok Hb Hold Hr; [cbn; lia|].
  apply Forall_cons in Hr as [[[[Hw Hlo] He [Hh Hn] Hs] Hk] Hr]. cbn [fst snd length] in *.
  cbn [charge_reports fmap list_fmap foldl snd].
  destruct (slash_span p who slash 0 s) as [[[s' c] pd] cur] eqn:Es.
  pose proof (slash_span_step p who slash 0 s s' c pd cur k lo hi) as Hstep. cbv zeta in Hstep.
  unfold spans_at in Hstep. rewrite Hsp in Hstep. cbn [default from_option id] in Hstep.
  destruct Hstep as (Hnew & -> & sp' & Hsp' & [Hok' Hkeep Hbound]); try done; try lia.
  rewrite (IH s' sp'); [rewrite Hnew; lia|done|done|lia|lia|].
  eapply Forall_impl; [exact Hr|]. intros [q v] [Hin Hq]. cbn [fst snd] in *. split; [done|].
  rewrite Hkeep; [done|]. apply (ri_era _ _ _ _ Hin).
Qed.
End theorems.

(** ** Witnesses *)
Module SlashingWitness.
Import BondsWitness LedgerWitness.
#[export] Instance locks_slash_laws : SlashHostLaws (gmap Z Z) Z (fun x a => x !! a).
Proof. split; done. Qed.
Abbreviation wkept := (bonds_kept (locked := fun (x : gmap Z Z) (a : Z) => x !! a)).

(** Account 1, bonded with 500, is reported for a tenth of its exposure. *)
Definition offence : OffenceDetails Z := mkOffence 1 (mkExposure 500 500 []) [7].
Definition reported := on_offence wcfg [offence] [100000000] 5 DisableWhenSlashed s1.
Lemma s1_queue : queue_ok s1.
Proof.
  assert (UnappliedSlashes (slashes s1) = ∅) as He by (vm_compute; reflexivity).
  intros era us. rewrite He, lookup_empty. discriminate.
Qed.
Lemma s1_active : ActiveEra (eras s1) = Some (mkActiveEra 100 None).
Proof. vm_compute. reflexivity. Qed.
Lemma s1_offence_era : offence_era s1 (ai_index (mkActiveEra 100 None)) 5 = Some 100.
Proof. vm_compute. reflexivity. Qed.
Lemma slashes_keep_bonds_witness : winv reported /\ queue_ok reported.
Proof.
  pose proof (slashes_keep_bonds wcfg [offence] [100000000] 5 DisableWhenSlashed 128 s1 s1_inv s1_queue) as (H1 & H2 & _).
  exact (conj H1 H2).
Defined.
(** The slash of 50 waits for era 128; a tenth of a half of it is for the reporter. *)
Example reported_queue :
  UnappliedSlashes (slashes reported) !! 128 = Some [mkUnapplied 1 50 [] [7] 2].
Proof. vm_compute. reflexivity. Qed.
Example reported_applied :
  ledger (apply_unapplied_slashes wcfg 128 reported) 1 = Some (mkLedger 1 450 450 [] (seqZ 16 84)).
Proof. vm_compute. reflexivity. Qed.
Lemma deferred_slash_waits_witness : wkept s1 reported.
Proof.
  pose proof (deferred_slash_waits wcfg [offence] [100000000] 5 DisableWhenSlashed 100 (mkActiveEra 100 None) s1
    ltac:(done) s1_inv s1_queue s1_active s1_offence_era) as (Hk & _). exact Hk.
Defined.

(** 10 of a slash of 100 among three: three each, 91 to the handler. *)
Lemma reporters_paid_from_slash_witness :
  pay_reporters 10 100 [7; 8; 9] s1 =
    on_host (fun x => sh_on_slash_imbalance 91 (foldl (fun x r => sh_resolve_creating r 3 x) x [7; 8; 9])) s1.
Proof.
  pose proof (reporters_paid_from_slash 10 100 [7; 8; 9] s1 ltac:(done) ltac:(unfold in_u, U128_MAX; lia)
    ltac:(unfold U32_MAX; cbn; lia)) as [H _]. exact H.
Defined.

(** Three reports in the eras 90 to 95, of 40, 100 and 70: 100 are charged. *)
Definition with_spans (s : Staking (gmap Z Z) Z) := set_spans {[ 1 := mkSpans 0 72 0 [] ]} s.
Definition report (era : Z) : SlashParams Z :=
  mkSlashParams 1 0 (mkExposure 0 0 []) era 72 100 100000000 DisableNever.
Definition reports : list (SlashParams Z * Z) := [(report 95, 40); (report 90, 100); (report 93, 70)].
Lemma reports_in : Forall (fun r => report_in 72 100 r.1 r.2 /\
  span_idx <$> era_span (mkSpans 0 72 0 []) (sp_slash_era r.1) = Some 0) reports.
Proof. repeat constructor; cbn; unfold in_u, U32_MAX, U128_MAX; lia. Qed.
Lemma span_charged_maximum_witness :
  charge_reports 1 reports (with_spans s1) =
    foldl Z.max (slashed_in (with_spans s1) 1 0) (snd <$> reports) - slashed_in (with_spans s1) 1 0.
Proof.
  apply (span_charged_maximum 1 0 72 100 reports (with_spans s1) (mkSpans 0 72 0 []));
    [reflexivity| |unfold U32_MAX; cbn; lia|vm_compute; discriminate|exact reports_in].
  split; [constructor|vm_compute; split; discriminate..].
Defined.
Example reports_charged : charge_reports 1 reports (with_spans s1) = 100.
Proof. vm_compute. reflexivity. Qed.
End SlashingWitness.
