(* ===== verification/StakingEras.v ===== *)
(** * Eras, sessions and rewards

    Models the rest of [src/modules/staking/src/pallet/impls.rs]: how sessions are planned,
    started and ended, how eras follow each other, what an election leaves in the storage,
    and how the rewards of an era are paid out; and [payout_stakers] and [on_finalize] of
    [src/modules/staking/src/pallet/mod.rs].

    The class [EraHost] holds what this part asks of the runtime beside [StakingHost]; an
    election is a function of the whole storage. *)

From stdpp Require Import base gmap list strings.
From Stdlib Require Import ZArith Lia.
From S2P Require Import Prelude StakingLedger SlashingSpans Staking StakingBonds StakingSlashing.

Local Open Scope Z_scope.

Definition default_exposure {A} : Exposure A := mkExposure 0 0 [].

(** The winners of an election, each with its voters and their weights. *)
Abbreviation Supports A := (list (A * list (A * Z))).

Class EraHost (X A : Type) : Type := {
  (** [Currency]: the amounts are the imbalances created. *)
  eh_deposit_creating : A -> Z -> X -> X * Z;
  eh_deposit_into_existing : A -> Z -> X -> option (X * Z);
  (** [Reward::on_unbalanced] and [RewardRemainder::on_unbalanced] of newly issued funds. *)
  eh_on_reward : Z -> X -> X;
  eh_reward_remainder : Z -> X -> X;
  (** [UnixTime::now] in milliseconds, as [u64]. *)
  eh_unix_millis : X -> Z;
  eh_era_payout : Z -> Z -> Z -> Z * Z;
  (** [CurrencyToVote::to_currency]. *)
  eh_to_currency : Z -> Z -> Z;
  (** [Perbill::from_rational]. *)
  eh_from_rational : Z -> Z -> Z;
  eh_prune_historical : Z -> X -> X;
}.

Section eras.
Context {X A : Type} {eqA : EqDecision A} {countA : Countable A} {host : StakingHost X A} {prop : Proportion}.
Context {ehost : EraHost X A}.
Variable cfg : StakingConfig.
Abbreviation St := (Staking X A).
Abbreviation MS := (M St DispatchError).
Implicit Types s : St.

Definition set_eras v s : St := mkStaking (stakes s) (params s) v (slashes s) (stk_events s) (stk_rest s).
Definition set_current_era v s : St := let e := eras s in
  set_eras (mkEras v (ActiveEra e) (BondedEras e) (ErasStartSessionIndex e) (CurrentPlannedSession e) (ErasStakers e)
    (ErasStakersClipped e) (ErasValidatorPrefs e) (ErasValidatorReward e) (ErasRewardPoints e) (ErasTotalStake e)
    (MinimumActiveStake e)) s.
Definition set_active_era v s : St := let e := eras s in
  set_eras (mkEras (CurrentEra e) v (BondedEras e) (ErasStartSessionIndex e) (CurrentPlannedSession e) (ErasStakers e)
    (ErasStakersClipped e) (ErasValidatorPrefs e) (ErasValidatorReward e) (ErasRewardPoints e) (ErasTotalStake e)
    (MinimumActiveStake e)) s.
Definition set_bonded_eras v s : St := let e := eras s in
  set_eras (mkEras (CurrentEra e) (ActiveEra e) v (ErasStartSessionIndex e) (CurrentPlannedSession e) (ErasStakers e)
    (ErasStakersClipped e) (ErasValidatorPrefs e) (ErasValidatorReward e) (ErasRewardPoints e) (ErasTotalStake e)
    (MinimumActiveStake e)) s.
Definition set_start_index v s : St := let e := eras s in
  set_eras (mkEras (CurrentEra e) (ActiveEra e) (BondedEras e) v (CurrentPlannedSession e) (ErasStakers e)
    (ErasStakersClipped e) (ErasValidatorPrefs e) (ErasValidatorReward e) (ErasRewardPoints e) (ErasTotalStake e)
    (MinimumActiveStake e)) s.
Definition set_planned v s : St := let e := eras s in
  set_eras (mkEras (CurrentEra e) (ActiveEra e) (BondedEras e) (ErasStartSessionIndex e) v (ErasStakers e)
    (ErasStakersClipped e) (ErasValidatorPrefs e) (ErasValidatorReward e) (ErasRewardPoints e) (ErasTotalStake e)
    (MinimumActiveStake e)) s.
Definition set_stakers v s : St := let e := eras s in
  set_eras (mkEras (CurrentEra e) (ActiveEra e) (BondedEras e) (ErasStartSessionIndex e) (CurrentPlannedSession e) v
    (ErasStakersClipped e) (ErasValidatorPrefs e) (ErasValidatorReward e) (ErasRewardPoints e) (ErasTotalStake e)
    (MinimumActiveStake e)) s.
Definition set_clipped v s : St := let e := eras s in
  set_eras (mkEras (CurrentEra e) (ActiveEra e) (BondedEras e) (ErasStartSessionIndex e) (CurrentPlannedSession e)
    (ErasStakers e) v (ErasValidatorPrefs e) (ErasValidatorReward e) (ErasRewardPoints e) (ErasTotalStake e)
    (MinimumActiveStake e)) s.
Definition set_era_prefs v s : St := let e := eras s in
  set_eras (mkEras (CurrentEra e) (ActiveEra e) (BondedEras e) (ErasStartSessionIndex e) (CurrentPlannedSession e)
    (ErasStakers e) (ErasStakersClipped e) v (ErasValidatorReward e) (ErasRewardPoints e) (ErasTotalStake e)
    (MinimumActiveStake e)) s.
Definition set_validator_reward v s : St := let e := eras s in
  set_eras (mkEras (CurrentEra e) (ActiveEra e) (BondedEras e) (ErasStartSessionIndex e) (CurrentPlannedSession e)
    (ErasStakers e) (ErasStakersClipped e) (ErasValidatorPrefs e) v (ErasRewardPoints e) (ErasTotalStake e)
    (MinimumActiveStake e)) s.
Definition set_reward_points v s : St := let e := eras s in
  set_eras (mkEras (CurrentEra e) (ActiveEra e) (BondedEras e) (ErasStartSessionIndex e) (CurrentPlannedSession e)
    (ErasStakers e) (ErasStakersClipped e) (ErasValidatorPrefs e) (ErasValidatorReward e) v (ErasTotalStake e)
    (MinimumActiveStake e)) s.
Definition set_total_stake v s : St := let e := eras s in
  set_eras (mkEras (CurrentEra e) (ActiveEra e) (BondedEras e) (ErasStartSessionIndex e) (CurrentPlannedSession e)
    (ErasStakers e) (ErasStakersClipped e) (ErasValidatorPrefs e) (ErasValidatorReward e) (ErasRewardPoints e) v
    (MinimumActiveStake e)) s.

(** ** Rewards *)
(** [PositiveImbalance] of the deposit, if any. *)
Definition make_payout (who : A) (amount : Z) s : St * option Z :=
  match default ToStaked (Payee (stakes s) !! who) with
  | ToController =>
      match bonded s who with
      | Some c => let '(x, i) := eh_deposit_creating c amount (stk_rest s) in (on_host (fun _ => x) s, Some i)
      | None => (s, None)
      end
  | ToStash =>
      match eh_deposit_into_existing who amount (stk_rest s) with
      | Some (x, i) => (on_host (fun _ => x) s, Some i)
      | None => (s, None)
      end
  | ToStaked =>
      match bonded s who with
      | Some c =>
          match ledger s c with
          | Some l =>
              let l := mkLedger (stash l) (add128 (ledger_total l) amount) (add128 (active l) amount) (unlocking l)
                         (claimed_rewards l) in
              let '(s, r) :=
                match eh_deposit_into_existing who amount (stk_rest s) with
                | Some (x, i) => (on_host (fun _ => x) s, Some i)
                | None => (s, None)
                end in
              (update_ledger c l s, r)
          | None => (s, None)
          end
      | None => (s, None)
      end
  | ToAccount a => let '(x, i) := eh_deposit_creating a amount (stk_rest s) in (on_host (fun _ => x) s, Some i)
  | ToNone => (s, None)
  end.
(** A payout with its event; the imbalances are added up. *)
Definition pay_staker (who : A) (amount total_imbalance : Z) s : St * Z :=
  let '(s, r) := make_payout who amount s in
  match r with
  | Some i => (emit (EvRewarded who i) s, sat_add U128_MAX total_imbalance i)
  | None => (s, total_imbalance)
  end.
Fixpoint pay_nominators (leftover total : Z) (others : list (IndividualExposure A)) (total_imbalance : Z) s : St * Z :=
  match others with
  | [] => (s, total_imbalance)
  | n :: others' =>
      let reward := sh_perbill_mul (X := X) (A := A) (eh_from_rational (X := X) (A := A) (ie_value n) total) leftover in
      let '(s, total_imbalance) := pay_staker (ie_who n) reward total_imbalance s in
      pay_nominators leftover total others' total_imbalance s
  end.

(** What the validator and its nominators share, and what the validator gets of it. *)
Definition validator_total_payout (era_payout : Z) (points : RewardPoints A) (who : A) : Z :=
  sh_perbill_mul (X := X) (A := A)
    (eh_from_rational (X := X) (A := A) (default 0 (rp_individual points !! who)) (rp_total points)) era_payout.
(** The part of [do_payout_stakers] after its checks. *)
Definition payout_rewards (validator_stash who : A) (era era_payout : Z) s : St :=
  let exposure := default default_exposure (ErasStakersClipped (eras s) !! (era, who)) in
  let points := default (mkPoints 0 ∅) (ErasRewardPoints (eras s) !! era) in
  if default 0 (rp_individual points !! who) =? 0 then s
  else
    let total_payout := validator_total_payout era_payout points who in
    let prefs := default default_prefs (ErasValidatorPrefs (eras s) !! (era, validator_stash)) in
    let commission_payout := sh_perbill_mul (X := X) (A := A) (commission prefs) total_payout in
    let leftover := wrap_sub U128_MAX total_payout commission_payout in
    let exposure_part := eh_from_rational (X := X) (A := A) (ex_own exposure) (ex_total exposure) in
    let staking_payout := sh_perbill_mul (X := X) (A := A) exposure_part leftover in
    let s := emit (EvPayoutStarted era who) s in
    let '(s, total_imbalance) := pay_staker who (add128 staking_payout commission_payout) 0 s in
    let '(s, total_imbalance) := pay_nominators leftover (ex_total exposure) (ex_others exposure) total_imbalance s in
    on_host (eh_on_reward total_imbalance) s.
Definition do_payout_stakers (validator_stash : A) (era : Z) : MS unit :=
  let! s := mget in
  let! current_era := mlift (ok_or (CurrentEra (eras s)) (stk_err StakingError.InvalidEraToReward)) in
  let oldest := sat_sub current_era (HistoryDepth cfg) in
  do! mensure ((era <=? current_era) && (oldest <=? era)) (stk_err StakingError.InvalidEraToReward) in
  let! era_payout := mlift (ok_or (ErasValidatorReward (eras s) !! era) (stk_err StakingError.InvalidEraToReward)) in
  let! controller := mlift (ok_or (bonded s validator_stash) (stk_err StakingError.NotStash)) in
  let! l := mlift (ok_or (ledger s controller) (stk_err StakingError.NotController)) in
  let claimed := filter (fun x => oldest <= x) (claimed_rewards l) in
  let! claimed :=
    mlift (match search claimed era with
           | inl _ => Err (stk_err StakingError.AlreadyClaimed)
           | inr pos => if Z.of_nat (length claimed) <? HistoryDepth cfg then Ok (list_insert_at pos era claimed)
                        else Err (stk_err StakingError.BoundNotMet)
           end) in
  do! mmodify (fun s => set_ledgers (<[controller := mkLedger (stash l) (ledger_total l) (active l) (unlocking l) claimed]>
                                       (Ledger (stakes s))) s) in
  mmodify (payout_rewards validator_stash (stash l) era era_payout).
Definition payout_stakers (origin : Origin A) (validator_stash : A) (era : Z) : MS unit :=
  do! mlift (ensure_signed origin) in do_payout_stakers validator_stash era.

Definition add_points (points : RewardPoints A) (vp : A * Z) : RewardPoints A :=
  mkPoints (add32 (rp_total points) vp.2)
    (<[vp.1 := add32 (default 0 (rp_individual points !! vp.1)) vp.2]> (rp_individual points)).
Definition reward_by_ids (validators_points : list (A * Z)) s : St :=
  match ActiveEra (eras s) with
  | Some info =>
      let m := ErasRewardPoints (eras s) in
      set_reward_points (<[ai_index info := foldl add_points (default (mkPoints 0 ∅) (m !! ai_index info)) validators_points]> m) s
  | None => s
  end.
Definition note_author (author : A) s : St := reward_by_ids [(author, 20)] s.

(** ** Eras *)
Definition on_finalize s : St :=
  match ActiveEra (eras s) with
  | Some (mkActiveEra i None) => set_active_era (Some (mkActiveEra i (Some (eh_unix_millis (stk_rest s))))) s
  | _ => s
  end.

Definition end_era (info : ActiveEraInfo) s : St :=
  match ai_start info with
  | None => s
  | Some start =>
      let era_duration := wrap_sub U64_MAX (eh_unix_millis (stk_rest s)) start in
      let staked := default 0 (ErasTotalStake (eras s) !! ai_index info) in
      let '(validator_payout, remainder) := eh_era_payout (X := X) (A := A) staked (sh_total_issuance (stk_rest s)) era_duration in
      let s := emit (EvEraPaid (ai_index info) validator_payout remainder) s in
      let s := set_validator_reward (<[ai_index info := validator_payout]> (ErasValidatorReward (eras s))) s in
      let s := on_host (eh_reward_remainder remainder) s in
      set_offending [] s
  end.

(** [take_while(..).count()]. *)
Fixpoint count_before (first_kept : Z) (l : list (Z * Z)) : nat :=
  match l with
  | (era, _) :: l' => if era <? first_kept then S (count_before first_kept l') else O
  | [] => O
  end.
Definition start_era (start_session : Z) s : St :=
  let active_era := match ActiveEra (eras s) with Some info => add32 (ai_index info) 1 | None => 0 end in
  let s := set_active_era (Some (mkActiveEra active_era None)) s in
  let bonded_eras := BondedEras (eras s) ++ [(active_era, start_session)] in
  let s :=
    if BondingDuration cfg <? active_era then
      let n_to_prune := count_before (active_era - BondingDuration cfg) bonded_eras in
      let s := foldl (fun s e => clear_era_metadata e.1 s) s (take n_to_prune bonded_eras) in
      let bonded_eras := drop n_to_prune bonded_eras in
      let s := match bonded_eras with (_, first_session) :: _ => on_host (eh_prune_historical first_session) s | [] => s end in
      set_bonded_eras bonded_eras s
    else set_bonded_eras bonded_eras s in
  apply_unapplied_slashes cfg active_era s.

Definition start_session (start_index : Z) s : St :=
  let next_active_era := match ActiveEra (eras s) with Some info => add32 (ai_index info) 1 | None => 0 end in
  let s :=
    match ErasStartSessionIndex (eras s) !! next_active_era with
    | Some next_start =>
        if next_start =? start_index then start_era start_index s
        else if next_start <? start_index then start_era start_index s
        else s
    | None => s
    end in
  foldl (fun s o => if o.2 : bool then on_host (sh_disable_validator o.1) s else s) s (OffendingValidators (slashes s)).
Definition end_session (session_index : Z) s : St :=
  match ActiveEra (eras s) with
  | Some info =>
      match ErasStartSessionIndex (eras s) !! add32 (ai_index info) 1 with
      | Some next_start => if next_start =? add32 session_index 1 then end_era info s else s
      | None => s
      end
  | None => s
  end.

(** ** Planning an era *)
Definition clear_era_information (era : Z) s : St :=
  let e := eras s in
  set_eras (mkEras (CurrentEra e) (ActiveEra e) (BondedEras e) (delete era (ErasStartSessionIndex e))
    (CurrentPlannedSession e) (filter (fun kv => kv.1.1 <> era) (ErasStakers e))
    (filter (fun kv => kv.1.1 <> era) (ErasStakersClipped e)) (filter (fun kv => kv.1.1 <> era) (ErasValidatorPrefs e))
    (delete era (ErasValidatorReward e)) (delete era (ErasRewardPoints e)) (delete era (ErasTotalStake e))
    (MinimumActiveStake e)) s.

(** [sort_by(|a, b| a.value.cmp(&b.value).reverse())]. *)
Definition value_ge (a b : IndividualExposure A) : bool := ie_value b <=? ie_value a.
Definition clip_exposure (e : Exposure A) : Exposure A :=
  if MaxNominatorRewardedPerValidator cfg <? Z.of_nat (length (ex_others e))
  then mkExposure (ex_total e) (ex_own e)
         (take (Z.to_nat (MaxNominatorRewardedPerValidator cfg)) (sort_by value_ge (ex_others e)))
  else e.
Definition store_exposure (era : Z) (s_total : St * Z) (we : A * Exposure A) : St * Z :=
  let '(s, total_stake) := s_total in
  let '(who, exposure) := we in
  let s := set_stakers (<[(era, who) := exposure]> (ErasStakers (eras s))) s in
  let s := set_clipped (<[(era, who) := clip_exposure exposure]> (ErasStakersClipped (eras s))) s in
  (s, sat_add U128_MAX total_stake (ex_total exposure)).
Definition store_prefs (era : Z) s (who : A) : St :=
  let prefs := default default_prefs (Validators (stakes s) !! who) in
  set_era_prefs (<[(era, who) := prefs]> (ErasValidatorPrefs (eras s))) s.
Definition store_stakers_info (exposures : list (A * Exposure A)) (new_planned_era : Z) s : St * list A :=
  let elected := exposures.*1 in
  let '(s, total_stake) := foldl (store_exposure new_planned_era) (s, 0) exposures in
  let s := set_total_stake (<[new_planned_era := total_stake]> (ErasTotalStake (eras s))) s in
  (foldl (store_prefs new_planned_era) s elected, elected).

Definition add_voter (validator : A) (total_issuance : Z) (e : Exposure A) (voter : A * Z) : Exposure A :=
  let stake := eh_to_currency (X := X) (A := A) voter.2 total_issuance in
  let total := sat_add U128_MAX (ex_total e) stake in
  if bool_decide (voter.1 = validator) then mkExposure total (sat_add U128_MAX (ex_own e) stake) (ex_others e)
  else mkExposure total (ex_own e) (ex_others e ++ [mkIndividual voter.1 stake]).
Definition collect_exposures (supports : Supports A) s : list (A * Exposure A) :=
  (fun '(validator, voters) =>
     (validator, foldl (add_voter validator (sh_total_issuance (stk_rest s))) default_exposure voters)) <$> supports.

Definition trigger_new_era (start_session_index : Z) (exposures : list (A * Exposure A)) s : St * list A :=
  let new_planned_era := match CurrentEra (eras s) with Some e => add32 e 1 | None => 0 end in
  let s := set_current_era (Some new_planned_era) s in
  let s := set_start_index (<[new_planned_era := start_session_index]> (ErasStartSessionIndex (eras s))) s in
  let s := match checked_sub new_planned_era (add32 (HistoryDepth cfg) 1) with
           | Some old_era => clear_era_information old_era s
           | None => s
           end in
  store_stakers_info exposures new_planned_era s.

Section elections.
(** [ElectionProvider::elect], or the genesis one. *)
Variable elect : bool -> St -> X * option (Supports A).

Definition try_trigger_new_era (start_session_index : Z) (is_genesis : bool) s : St * option (list A) :=
  let '(x, result) := elect is_genesis s in
  let s := on_host (fun _ => x) s in
  match result with
  | None => (emit EvStakingElectionFailed s, None)
  | Some supports =>
      let exposures := collect_exposures supports s in
      if wrap U32_MAX (Z.of_nat (length exposures)) <? Z.max (MinimumValidatorCount (params s)) 1 then
        let s := match CurrentEra (eras s) with
                 | Some _ => s
                 | None => set_start_index (<[0 := start_session_index]> (ErasStartSessionIndex (eras s)))
                             (set_current_era (Some 0) s)
                 end in
        (emit EvStakingElectionFailed s, None)
      else
        let '(s, elected) := trigger_new_era start_session_index exposures (emit EvStakersElected s) in
        (s, Some elected)
  end.
Definition is_force_new (f : Forcing) : bool := match f with ForceNew => true | _ => false end.
Definition new_session_era (session_index : Z) (is_genesis : bool) s : St * option (list A) :=
  match CurrentEra (eras s) with
  | Some current_era =>
      let start := default 0 (ErasStartSessionIndex (eras s) !! current_era) in
      let era_length := sat_sub session_index start in
      if match ForceEra (params s) with
         | ForceNew | ForceAlways => true
         | NotForcing => SessionsPerEra cfg <=? era_length
         | ForceNone => false
         end
      then
        let '(s, validators) := try_trigger_new_era session_index is_genesis s in
        if bool_decide (is_Some validators) && is_force_new (ForceEra (params s))
        then (set_force_era NotForcing s, validators) else (s, validators)
      else (s, None)
  | None => try_trigger_new_era session_index is_genesis s
  end.
(** [SessionManager::new_session] and [new_session_genesis]. *)
Definition new_session (is_genesis : bool) (new_index : Z) s : St * option (list A) :=
  new_session_era new_index is_genesis (set_planned new_index s).
(** [historical::SessionManager]: with the exposures. *)
Definition new_session_historical (is_genesis : bool) (new_index : Z) s : St * option (list (A * Exposure A)) :=
  let '(s, validators) := new_session is_genesis new_index s in
  let current_era := default 0 (CurrentEra (eras s)) in
  (s, map (fun v => (v, default default_exposure (ErasStakers (eras s) !! (current_era, v)))) <$> validators).
End elections.
End eras.
