(* ===== verification/StakingRuns.v ===== *)
(** * Runs of the staking pallet

    The entry points of the pallet as steps: dispatched calls, payouts, reported offences,
    reward points, the end of a block and the rotation of sessions as [pallet_session] does
    it.  Theorems about all runs: the active era follows the planned one, and a reward is
    paid out once. *)

From stdpp Require Import base gmap list strings.
From Stdlib Require Import ZArith Lia Sorted.
From S2P Require Import Prelude StakingLedger SlashingSpans Staking StakingBonds StakingSlashing StakingEras.

Local Open Scope Z_scope.

Section runs.
Context {X A : Type} {eqA : EqDecision A} {countA : Countable A} {host : StakingHost X A} {prop : Proportion}.
Context {ehost : EraHost X A} {Source : Type}.
Variable cfg : StakingConfig.
Variable lookup : Source -> res DispatchError A.
Variable admin : Origin A -> bool.
Variable elect : bool -> Staking X A -> X * option (Supports A).
Context {locked : X -> A -> option Z} {laws : StakingHostLaws X A locked} {slaws : SlashHostLaws X A locked}.
Abbreviation St := (Staking X A).
Implicit Types s : St.

(** [pallet_session] ends session [i], starts the next one and plans the one after it. *)
Definition rotate_session (i : Z) s : St :=
  let s := end_session i s in
  let s := start_session cfg (i + 1) s in
  (new_session cfg elect false (i + 2) s).1.
(** At genesis two sessions are planned and the first one is started. *)
Definition genesis_sessions s : St :=
  let s := (new_session cfg elect true 0 s).1 in
  let s := (new_session cfg elect true 1 s).1 in
  start_session cfg 0 s.

(** A step of the pallet in session [i]. *)
Inductive staking_step : Z * St -> Z * St -> Prop :=
| step_call i s o c : staking_step (i, s) (i, (dispatch cfg lookup admin o c s).1)
| step_payout i s o v e : staking_step (i, s) (i, (transactional (payout_stakers cfg o v e) s).1)
| step_offence i s os fs n d : staking_step (i, s) (i, on_offence cfg os fs n d s)
| step_points i s vps : staking_step (i, s) (i, reward_by_ids vps s)
| step_finalize i s : staking_step (i, s) (i, on_finalize s)
| step_rotate i s : i + 4 <= U32_MAX -> staking_step (i, s) (i + 1, rotate_session i s).
Abbreviation staking_steps := (rtc staking_step).

(** ** Ledgers along a run *)
Definition linked s : Prop :=
  (forall a c, bonded s a = Some c -> exists l, ledger s c = Some l /\ stash l = a) /\
  (forall c l, ledger s c = Some l -> bonded s (stash l) = Some c).
Definition oldest_era s : Z := sat_sub (default 0 (CurrentEra (eras s))) (HistoryDepth cfg).
Definition fresh_claims s : list Z := seqZ (oldest_era s) (default 0 (CurrentEra (eras s)) - oldest_era s).
(** Ledgers come from ledgers with the same claims, or are those of new bonds. *)
Record evolves s s' : Prop := {
  ev_claims c' l' : ledger s' c' = Some l' ->
    (exists c l, ledger s c = Some l /\ stash l' = stash l /\ claimed_rewards l' = claimed_rewards l) \/
    claimed_rewards l' = fresh_claims s;
  ev_linked : linked s -> linked s';
  ev_eras : eras s' = eras s;
}.
Lemma evolves_refl s : evolves s s.
Proof. split; [|done|done]. intros c l Hl. left. by exists c, l. Qed.
Lemma evolves_trans s1 s2 s3 : evolves s1 s2 -> evolves s2 s3 -> evolves s1 s3.
Proof.
  intros [H1 H2 H3] [H4 H5 H6]. split; [|by eauto|congruence]. intros c l Hl. unfold fresh_claims, oldest_era in *.
  rewrite H3 in H4. destruct (H4 c l Hl) as [(c1 & l1 & Hl1 & Hs1 & Hc1)|Hf]; [|by right].
  destruct (H1 c1 l1 Hl1) as [(c0 & l0 & Hl0 & Hs0 & Hc0)|Hf]; [|right; congruence].
  left. exists c0, l0. split_and!; [done|congruence..].
Qed.
Lemma same_stakes_evolves s s' : Bonded (stakes s') = Bonded (stakes s) -> Ledger (stakes s') = Ledger (stakes s) ->
  eras s' = eras s -> evolves s s'.
Proof.
  intros H1 H2 H3. split; [| |done]; unfold linked, ledger, bonded; rewrite ?H1, ?H2; [|done].
  intros c l Hl. left. by exists c, l.
Qed.
Lemma update_ledger_evolves c l l0 s : ledger s c = Some l0 -> stash l = stash l0 -> claimed_rewards l = claimed_rewards l0 ->
  evolves s (update_ledger c l s).
Proof.
  intros Hl Hs Hc. split; [| |done]; unfold linked, ledger, bonded, update_ledger in *; cbn.
  - intros c' l'. destruct (decide (c' = c)) as [->|Hne].
    + rewrite lookup_insert_eq. intros [= <-]. left. by exists c, l0.
    + rewrite lookup_insert_ne by done. intros Hl'. left. by exists c', l'.
  - intros [HL HL']. split.
    + intros a c' Ha. destruct (HL a c' Ha) as (l' & Hl' & Hs'). destruct (decide (c' = c)) as [->|Hne].
      * exists l. rewrite lookup_insert_eq. split; [done|]. congruence.
      * exists l'. by rewrite lookup_insert_ne.
    + intros c' l'. destruct (decide (c' = c)) as [->|Hne]; [rewrite lookup_insert_eq|rewrite lookup_insert_ne by done].
      * intros [= <-]. rewrite Hs. by apply HL'.
      * apply HL'.
Qed.

(** *** Frames *)
Lemma refresh_voter_evolves a s : evolves s (refresh_voter a s).
Proof. unfold refresh_voter. destruct (sh_voter_contains _ _); by apply same_stakes_evolves. Qed.
Lemma remove_nominator_evolves a s : evolves s (do_remove_nominator a s).1.
Proof. unfold do_remove_nominator. case_bool_decide; by apply same_stakes_evolves. Qed.
Lemma remove_validator_evolves a s : evolves s (do_remove_validator a s).1.
Proof. unfold do_remove_validator. case_bool_decide; by apply same_stakes_evolves. Qed.
Lemma add_nominator_evolves a n s : evolves s (do_add_nominator a n s).
Proof. unfold do_add_nominator. case_bool_decide; by apply same_stakes_evolves. Qed.
Lemma add_validator_evolves a p s : evolves s (do_add_validator a p s).
Proof. unfold do_add_validator. case_bool_decide; by apply same_stakes_evolves. Qed.
Lemma chill_stash_evolves a s : evolves s (chill_stash a s).
Proof.
  unfold chill_stash. pose proof (remove_validator_evolves a s) as H1. destruct (do_remove_validator a s) as [s1 v].
  pose proof (remove_nominator_evolves a s1) as H2. destruct (do_remove_nominator a s1) as [s2 n]. cbn [fst] in *.
  eapply evolves_trans; [exact H1|]. eapply evolves_trans; [exact H2|]. destruct (v || n); by apply same_stakes_evolves.
Qed.
Lemma kick_evolves a (ns : list A) s : evolves s (foldl (fun s n => kick_one a n s) s ns).
Proof.
  revert s. induction ns as [|n ns IH]; intros s; [apply evolves_refl|]. cbn [foldl]. eapply evolves_trans; [|apply IH].
  unfold kick_one. destruct (Nominators _ !! n); [|apply evolves_refl]. destruct (list_find _ _) as [[]|]; by apply same_stakes_evolves.
Qed.
Lemma clear_metadata_frame a n s s' u : clear_stash_metadata a n s = (s', Ok u) -> stakes s' = stakes s /\ eras s' = eras s.
Proof. unfold clear_stash_metadata. intros Hr. run_inv. by destruct (spans_of _ a); run_inv. Qed.

(** [evolve] composes frames. *)
Ltac evolve :=
  lazymatch goal with
  | |- evolves ?s ?s => apply evolves_refl
  | |- evolves _ (emit _ ?t) => apply (evolves_trans _ t); [evolve|by apply same_stakes_evolves]
  | |- evolves _ (on_host _ ?t) => apply (evolves_trans _ t); [evolve|by apply same_stakes_evolves]
  | |- evolves _ (refresh_voter _ ?t) => apply (evolves_trans _ t); [evolve|apply refresh_voter_evolves]
  | |- evolves _ (do_add_validator _ _ ?t) => apply (evolves_trans _ t); [evolve|apply add_validator_evolves]
  | |- evolves _ (do_add_nominator _ _ ?t) => apply (evolves_trans _ t); [evolve|apply add_nominator_evolves]
  | |- evolves _ (do_remove_validator _ ?t).1 => apply (evolves_trans _ t); [evolve|apply remove_validator_evolves]
  | |- evolves _ (do_remove_nominator _ ?t).1 => apply (evolves_trans _ t); [evolve|apply remove_nominator_evolves]
  | |- evolves _ (chill_stash _ ?t) => apply (evolves_trans _ t); [evolve|apply chill_stash_evolves]
  | |- evolves _ (foldl _ ?t _) => apply (evolves_trans _ t); [evolve|apply kick_evolves]
  | |- evolves _ (update_ledger _ _ ?t) => apply (evolves_trans _ t); [evolve|eapply update_ledger_evolves; [eassumption|done|done]]
  | |- _ => by apply same_stakes_evolves
  end.
(** *** Calls *)
Lemma kill_stash_evolves a n s s' u : kill_stash a n s = (s', Ok u) -> evolves s s'.
Proof.
  intros Hr. unfold kill_stash in Hr. run_inv.
  match goal with Hm : clear_stash_metadata _ _ _ = (?t, _), Hb : bonded s a = Some ?c |- _ =>
    apply clear_metadata_frame in Hm as [Hst Her]; rename t into s1; rename c into ctrl; rename Hb into Hbond end.
  apply (evolves_trans _ s1); [by apply same_stakes_evolves; rewrite ?Hst|].
  set (s2 := set_payees _ _). apply (evolves_trans _ s2); [|evolve]. split; [| |done].
  - intros c l Hl. left. exists c, l. unfold ledger in *. cbn in Hl. by apply lookup_delete_Some in Hl as [_ Hl].
  - intros [HL HL']. unfold linked, bonded, ledger in *. cbn in *. rewrite Hst in *. split.
    + intros b c Hb. apply lookup_delete_Some in Hb as [Hne Hb]. destruct (HL b c Hb) as (l & Hl & Hs). exists l. split; [|done].
      rewrite lookup_delete_ne; [done|]. intros <-. destruct (HL a ctrl Hbond) as (l' & Hl' & Hs'). congruence.
    + intros c l Hl. apply lookup_delete_Some in Hl as [Hne Hl]. apply HL' in Hl. rewrite lookup_delete_ne; [done|].
      intros Heq. rewrite <- Heq in Hl. congruence.
Qed.
Lemma consolidate_frame era (l : StakingLedger A) :
  stash (consolidate_unlocked era l) = stash l /\ claimed_rewards (consolidate_unlocked era l) = claimed_rewards l.
Proof. unfold consolidate_unlocked. by destruct (drop_unlocked _ _ _). Qed.
Lemma do_withdraw_evolves c n s s' u : do_withdraw_unbonded c n s = (s', Ok u) -> evolves s s'.
Proof.
  intros Hr. unfold do_withdraw_unbonded in Hr. run_inv.
  match goal with Hl : ledger s c = Some ?l0 |- _ => rename l0 into l; rename Hl into Hc end.
  match type of Hr with mwhen _ _ ?t = _ => assert (evolves s t) as Ht end.
  - destruct (bool_decide _ && _); run_inv.
    + match goal with Hm : kill_stash _ _ _ = _ |- _ => apply kill_stash_evolves in Hm; eapply evolves_trans; [exact Hm|evolve] end.
    + destruct (CurrentEra (eras s)) as [era|]; [destruct (consolidate_frame era l) as [H1 H2]|];
        eapply update_ledger_evolves; done.
  - unfold mwhen in Hr. destruct (_ <? _); run_inv; [|done]. eapply evolves_trans; [exact Ht|evolve].
Qed.
Lemma bond_evolves o v p s s' u : bond cfg o v p s = (s', Ok u) -> evolves s s'.
Proof.
  intros Hr. unfold bond in Hr. run_inv. unfold update_ledger.
  match goal with Hb : ledger s ?w = None |- _ => rename w into who; rename Hb into Hnone end.
  split; [| |done]; unfold linked, ledger, bonded in *; cbn.
  - intros c l. destruct (decide (c = who)) as [->|Hne].
    + rewrite lookup_insert_eq. intros [= <-]. right. done.
    + rewrite lookup_insert_ne by done. intros Hl. left. by exists c, l.
  - intros [HL HL']. split.
    + intros a' c. destruct (decide (a' = who)) as [->|Hne].
      * rewrite lookup_insert_eq. intros [= <-]. rewrite lookup_insert_eq. by eexists.
      * rewrite lookup_insert_ne by done. intros Ha. destruct (HL a' c Ha) as (l & Hl & Hs). exists l.
        rewrite lookup_insert_ne; [done|congruence].
    + intros c l. destruct (decide (c = who)) as [->|Hne].
      * rewrite lookup_insert_eq. intros [= <-]. cbn. by rewrite lookup_insert_eq.
      * rewrite lookup_insert_ne by done. intros Hl. apply HL' in Hl. rewrite lookup_insert_ne; [done|].
        intros Heq. rewrite <- Heq in Hl. congruence.
Qed.
Lemma bond_extra_evolves o v s s' u : bond_extra o v s = (s', Ok u) -> evolves s s'.
Proof.
  intros Hr. unfold bond_extra in Hr. run_inv. destruct (checked_sub _ _); run_inv; evolve.
Qed.
Lemma unbond_evolves o v s s' u : unbond cfg o v s = (s', Ok u) -> evolves s s'.
Proof.
  intros Hr. unfold unbond in Hr. run_inv.
  match goal with Hw : (if _ then _ else _) s = (?t, Ok _) |- _ => assert (evolves s t) as Ht;
    [clear Hr; destruct (_ =? _); run_inv; [by eapply do_withdraw_evolves|evolve]|clear Hw; rename t into t1] end.
  eapply evolves_trans; [exact Ht|]. destruct (_ =? 0); run_inv; [evolve|].
  destruct (_ <? sh_minimum_balance) in Hr; cbv beta iota in Hr; run_inv; evolve.
Qed.
Lemma rebond_frame value (l : StakingLedger A) :
  stash (ledger_rebond value l).1 = stash l /\ claimed_rewards (ledger_rebond value l).1 = claimed_rewards l.
Proof. unfold ledger_rebond. by destruct (rebond_loop _ _ _ _) as [[]]. Qed.
Lemma rebond_evolves o v s s' u : rebond o v s = (s', Ok u) -> evolves s s'.
Proof.
  intros Hr. unfold rebond in Hr. run_inv.
  match goal with Hl : ledger s _ = Some ?l0 |- _ => rename l0 into l; rename Hl into Hc end.
  pose proof (rebond_frame v l) as [H1 H2]. destruct (ledger_rebond v l) as [l' r]. cbn [fst] in *. run_inv.
  eapply evolves_trans; [|apply refresh_voter_evolves]. eapply (evolves_trans _ (emit _ s)); [evolve|].
  by eapply update_ledger_evolves.
Qed.
Lemma set_controller_evolves o s s' u : set_controller o s = (s', Ok u) -> evolves s s'.
Proof.
  intros Hr. unfold set_controller in Hr. run_inv. destruct (bool_decide _) eqn:Eb; run_inv; [evolve|].
  match goal with Hb : bonded s ?w = Some ?c |- _ => rename w into who, c into old; rename Hb into Hbond end.
  match goal with Hb : ledger s who = None |- _ => rename Hb into Hnone end.
  unfold ledger at 1. cbn [set_bonded set_stakes stakes Ledger]. split; [| |by destruct (_ !! old)].
  - intros c l Hl. left. destruct (Ledger (stakes s) !! old) as [l0|] eqn:E0; unfold ledger in *; cbn in Hl.
    + destruct (decide (c = who)) as [->|Hne].
      * rewrite lookup_insert_eq in Hl. injection Hl as <-. by exists old, l0.
      * rewrite lookup_insert_ne in Hl by done. apply lookup_delete_Some in Hl as [_ Hl]. by exists c, l.
    + by exists c, l.
  - intros [HL HL']. destruct (HL who old Hbond) as (l0 & Hl0 & Hs0). unfold linked, ledger, bonded in *. rewrite Hl0. cbn.
    split.
    + intros a' c. destruct (decide (a' = who)) as [->|Hne].
      * rewrite lookup_insert_eq. intros [= <-]. rewrite lookup_insert_eq. by exists l0.
      * rewrite lookup_insert_ne by done. intros Ha. destruct (HL a' c Ha) as (l & Hl & Hs). exists l. split; [|done].
        rewrite lookup_insert_ne by congruence. rewrite lookup_delete_ne; [done|]. intros <-. congruence.
    + intros c l. destruct (decide (c = who)) as [->|Hne].
      * rewrite lookup_insert_eq. intros [= <-]. by rewrite Hs0, lookup_insert_eq.
      * rewrite lookup_insert_ne by done. intros [Hno Hl]%lookup_delete_Some. apply HL' in Hl.
        rewrite lookup_insert_ne; [done|]. intros Heq. rewrite <- Heq in Hl. congruence.
Qed.
Lemma call_evolves o c s s' u : call_body cfg lookup admin o c s = (s', Ok u) -> evolves s s'.
Proof.
  intros Hr. destruct c; cbn [call_body] in Hr;
    [by eapply bond_evolves|by eapply bond_extra_evolves|by eapply unbond_evolves
    |unfold withdraw_unbonded in Hr; run_inv; by eapply do_withdraw_evolves|by eapply rebond_evolves
    |unfold validate in Hr|unfold nominate in Hr|unfold kick in Hr|unfold chill in Hr|unfold set_payee in Hr
    |by eapply set_controller_evolves
    |unfold set_validator_count in Hr|unfold increase_validator_count in Hr|unfold scale_validator_count in Hr
    |unfold force_no_eras in Hr|unfold force_new_era in Hr|unfold force_new_era_always in Hr|unfold set_invulnerables in Hr
    |unfold force_unstake in Hr|unfold reap_stash in Hr
    |unfold cancel_deferred_slash in Hr|unfold set_min_commission in Hr|unfold set_staking_configs in Hr
    |unfold chill_other in Hr|unfold force_apply_min_commission in Hr]; run_inv;
    repeat match goal with
    | Hm : (if _ then _ else _) _ = (_, Ok _) |- _ => destruct (bool_decide _) in Hm; run_inv
    | Hm : (if ?b then _ else _) _ = (_, Ok _) |- _ => destruct b; run_inv
    | Hm : match ?x with Some _ => _ | None => _ end _ = (_, Ok _) |- _ => destruct x; run_inv
    end;
    try match goal with Hm : kill_stash _ _ _ = _ |- _ => apply kill_stash_evolves in Hm; eapply evolves_trans; [exact Hm|] end;
    evolve.
Qed.
Lemma dispatch_evolves o c s : evolves s (dispatch cfg lookup admin o c s).1.
Proof.
  unfold dispatch, transactional. destruct (call_body cfg lookup admin o c s) as [s' [u|e|]] eqn:Er; cbn [fst];
    [by eapply call_evolves|apply evolves_refl..].
Qed.
(** *** Slashes *)
Lemma slash_frame bd v ed era (l : StakingLedger A) l' r m : ledger_slash bd v ed era l = (l', r, m) ->
  stash l' = stash l /\ claimed_rewards l' = claimed_rewards l.
Proof.
  unfold ledger_slash. destruct (v =? 0); [by intros [= <- <- <-]|]. destruct (slash_plan _ _ _ _ _) as [mp prio].
  destruct (slash_out_of _ _ _ _ _) as [[a t] rem]. destruct (slash_chunks _ _ _ _ _ _ _) as [[[cs t2] r2] m2].
  by intros [= <- <- <-].
Qed.
Lemma do_slash_evolves who v rp imb era s : evolves s (do_slash cfg who v rp imb era s).1.1.
Proof.
  unfold do_slash. destruct (bonded s who) as [c|] eqn:Eb; [|evolve]. destruct (ledger s c) as [l|] eqn:El; [|evolve].
  destruct (ledger_slash _ v _ era l) as [[l' sv] hook] eqn:Es. apply slash_frame in Es as [H1 H2].
  set (s1 := match hook with Some _ => _ | None => _ end). assert (evolves s s1 /\ ledger s1 c = Some l) as [Hk Hl1]
    by (unfold s1; destruct hook; split; [evolve|done|evolve|done]).
  eapply evolves_trans; [exact Hk|]. destruct (sv =? 0); cbn [fst]; [evolve|].
  destruct (sh_slash who sv (stk_rest s1)) as [x [imb' miss]]. cbn [fst].
  apply (evolves_trans _ (update_ledger c l' (on_host (fun _ => x) s1))); [|by apply same_stakes_evolves].
  apply (evolves_trans _ (on_host (fun _ => x) s1)); [evolve|].
  by eapply update_ledger_evolves.
Qed.
Lemma do_slashes_evolves l : forall rp imb era s, evolves s (do_slashes cfg l rp imb era s).1.1.
Proof.
  induction l as [|[who v] l IH]; intros rp imb era s; [evolve|]. cbn [do_slashes].
  pose proof (do_slash_evolves who v rp imb era s) as H1. destruct (do_slash _ _ _ _ _ _ s) as [[s1 rp1] imb1].
  eapply evolves_trans; [exact H1|apply IH].
Qed.
Lemma pay_each_stakes per rs : forall rw s, stakes (pay_each per rs rw s).1 = stakes s /\ eras (pay_each per rs rw s).1 = eras s.
Proof.
  induction rs as [|r rs IH]; intros rw s; [done|]. cbn [pay_each]. destruct (split rw per) as [f rest].
  destruct (IH rest (on_host (sh_resolve_creating r f) s)) as [-> ->]. done.
Qed.
Lemma apply_slash_evolves u era s : evolves s (apply_slash cfg u era s).
Proof.
  unfold apply_slash. pose proof (do_slash_evolves (us_validator u) (us_own u) (us_payout u) 0 era s) as H1.
  destruct (do_slash _ _ _ _ _ _ s) as [[s1 rp1] imb1]. pose proof (do_slashes_evolves (us_others u) rp1 imb1 era s1) as H2.
  destruct (do_slashes _ _ _ _ _ s1) as [[s2 rp2] imb2]. eapply evolves_trans; [exact H1|]. eapply evolves_trans; [exact H2|].
  unfold pay_reporters. destruct (_ || _); [evolve|]. destruct (split _ _) as [f rest].
  pose proof (pay_each_stakes (f / wrap U32_MAX (Z.of_nat (length (us_reporters u)))) (us_reporters u) f s2) as [H3 H4].
  destruct (pay_each _ _ _ s2) as [s3 r3]. cbn [fst] in *. by apply same_stakes_evolves; cbn; rewrite ?H3, ?H4.
Qed.
Lemma quiet_evolves s s' : quiet (locked := locked) s s' -> evolves s s'.
Proof. intros [[H1 H2 _] _ H3]. by apply same_stakes_evolves. Qed.
Lemma slash_offender_evolves inv rp era w ae d det f s : evolves s (slash_offender cfg inv rp era w ae d det f s).
Proof.
  unfold slash_offender. case_bool_decide; [evolve|]. destruct (compute_slash cfg _ s) as [s1 u] eqn:Ec.
  apply (compute_slash_quiet cfg) in Ec as [Hq _]. apply quiet_evolves in Hq.
  eapply evolves_trans; [exact Hq|]. apply (evolves_trans _ (emit (EvSlashReported (od_stash det) f era) s1)); [evolve|].
  destruct u as [u|]; [|evolve]. destruct (_ =? 0); [apply apply_slash_evolves|evolve].
Qed.
Lemma on_offence_evolves os fs n d s : evolves s (on_offence cfg os fs n d s).
Proof.
  unfold on_offence. destruct (ActiveEra (eras s)) as [info|]; [|evolve]. destruct (offence_era _ _ _) as [e|]; [|evolve].
  set (inv := Invulnerables (params s)). set (rp := SlashRewardFraction (params s)). clearbody inv rp.
  generalize (zip os fs). intros l. revert s. induction l as [|o l IH]; intros s; [apply evolves_refl|]. cbn [foldl].
  eapply evolves_trans; [apply slash_offender_evolves|apply IH].
Qed.
Lemma apply_unapplied_evolves e s : evolves s (apply_unapplied_slashes cfg e s).
Proof.
  unfold apply_unapplied_slashes. set (us := default [] _). clearbody us. set (s0 := set_unapplied _ s).
  apply (evolves_trans _ s0); [by apply same_stakes_evolves|]. clearbody s0. revert s0.
  induction us as [|u us IH]; intros s0; [apply evolves_refl|]. cbn [foldl]. eapply evolves_trans; [apply apply_slash_evolves|apply IH].
Qed.
(** *** Payouts *)
Lemma make_payout_evolves who amount s : evolves s (make_payout who amount s).1.
Proof.
  unfold make_payout. destruct (default _ _).
  - destruct (bonded s who) as [c|]; [|evolve]. destruct (ledger s c) as [l|] eqn:El; [|evolve].
    destruct (eh_deposit_into_existing _ _ _) as [[x i]|]; cbn [fst].
    + apply (evolves_trans _ (on_host (fun _ => x) s)); [evolve|]. by eapply update_ledger_evolves.
    + by eapply update_ledger_evolves.
  - destruct (eh_deposit_into_existing _ _ _) as [[x i]|]; evolve.
  - destruct (bonded s who) as [c|]; [|evolve]. destruct (eh_deposit_creating _ _ _) as [x i]. cbn [fst]. evolve.
  - destruct (eh_deposit_creating _ _ _) as [x i]. cbn [fst]. evolve.
  - evolve.
Qed.
Lemma pay_staker_evolves who amount t s : evolves s (pay_staker who amount t s).1.
Proof.
  unfold pay_staker. pose proof (make_payout_evolves who amount s) as H1. destruct (make_payout who amount s) as [s1 r].
  cbn [fst] in H1. eapply evolves_trans; [exact H1|]. destruct r; evolve.
Qed.
Lemma pay_nominators_evolves lo total others : forall t s, evolves s (pay_nominators lo total others t s).1.
Proof.
  induction others as [|n others IH]; intros t s; [evolve|]. cbn [pay_nominators].
  match goal with |- context [pay_staker ?w ?v t s] => pose proof (pay_staker_evolves w v t s) as H1;
    destruct (pay_staker w v t s) as [s1 t1] end.
  eapply evolves_trans; [exact H1|apply IH].
Qed.
Lemma payout_rewards_evolves v who e p s : evolves s (payout_rewards v who e p s).
Proof.
  unfold payout_rewards. destruct (_ =? 0); [evolve|].
  match goal with |- context [pay_staker ?w ?a 0 ?t] => pose proof (pay_staker_evolves w a 0 t) as H1;
    destruct (pay_staker w a 0 t) as [s1 t1] end.
  match goal with |- context [pay_nominators ?a ?b ?c t1 s1] => pose proof (pay_nominators_evolves a b c t1 s1) as H2;
    destruct (pay_nominators a b c t1 s1) as [s2 t2] end.
  cbn [fst] in *. apply (evolves_trans _ s2); [|evolve]. apply (evolves_trans _ s1); [|done].
  eapply evolves_trans; [|exact H1]. evolve.
Qed.

(** ** Eras *)
(** The session [i] is running and the next one is planned; [next] and [planned] are the
    indices after the active and the planned era. *)
Definition next_active (e : Eras A) : Z := match ActiveEra e with Some info => ai_index info + 1 | None => 0 end.
Definition next_planned (e : Eras A) : Z := match CurrentEra e with Some c => c + 1 | None => 0 end.
Record in_step (i : Z) (e : Eras A) : Prop := {
  st_active a : ai_index <$> ActiveEra e = Some a -> 0 <= a;
  st_range : next_planned e <= i + 2;
  st_planned : next_planned e = next_active e \/
    (next_planned e = next_active e + 1 /\ ErasStartSessionIndex e !! next_active e = Some (i + 1));
  st_starts k v : ErasStartSessionIndex e !! k = Some v -> 0 <= k < next_planned e;
  st_bonded : let lo := Z.max 0 (next_active e - 1 - BondingDuration cfg) in
    (BondedEras e).*1 = seqZ lo (next_active e - lo);
  st_rewards k v : ErasValidatorReward e !! k = Some v -> 0 <= k < next_planned e - 1;
}.
(** What [in_step] reads. *)
Record same_core (e e' : Eras A) : Prop := {
  sc_current : CurrentEra e' = CurrentEra e;
  sc_active : ai_index <$> ActiveEra e' = ai_index <$> ActiveEra e;
  sc_starts : ErasStartSessionIndex e' = ErasStartSessionIndex e;
  sc_bonded : BondedEras e' = BondedEras e;
  sc_rewards : ErasValidatorReward e' = ErasValidatorReward e;
}.
Lemma same_core_refl e : same_core e e.
Proof. done. Qed.
Lemma same_core_trans e1 e2 e3 : same_core e1 e2 -> same_core e2 e3 -> same_core e1 e3.
Proof. intros [] []. split; congruence. Qed.
Lemma next_active_fmap e : next_active e = match ai_index <$> ActiveEra e with Some a => a + 1 | None => 0 end.
Proof. unfold next_active. by destruct (ActiveEra e). Qed.
Lemma in_step_core i e e' : same_core e e' -> in_step i e -> in_step i e'.
Proof.
  intros [H1 H2 H3 H4 H5]. assert (next_active e' = next_active e) as Ha by (rewrite !next_active_fmap; by rewrite H2).
  assert (next_planned e' = next_planned e) as Hp by (unfold next_planned; by rewrite H1).
  intros [Ht Hr Hpl Hs Hb Hrw]. split; rewrite ?H2, ?Ha, ?Hp, ?H3, ?H4, ?H5; done.
Qed.

Lemma in_step_order i e : in_step i e -> 0 <= next_active e <= next_planned e /\ next_planned e <= i + 2.
Proof.
  intros [Ht Hr Hpl _ _ _]. assert (0 <= next_active e).
  { rewrite next_active_fmap. destruct (ai_index <$> ActiveEra e) as [a|]; [specialize (Ht a eq_refl); lia|done]. }
  destruct Hpl as [|[]]; lia.
Qed.
Lemma end_session_in_step i s : i + 3 <= U32_MAX -> in_step i (eras s) -> in_step i (eras (end_session i s)).
Proof.
  intros Hmax Hin. pose proof (in_step_order _ _ Hin) as Hord. pose proof Hin as [Ht Hr Hpl Hs Hb Hrw].
  unfold end_session. destruct (ActiveEra (eras s)) as [info|] eqn:Ea; [|done].
  assert (next_active (eras s) = ai_index info + 1) as Hn by (unfold next_active; by rewrite Ea).
  destruct (ErasStartSessionIndex (eras s) !! add32 (ai_index info) 1) as [st|] eqn:Es; [|done].
  destruct (st =? _); [|done]. unfold end_era. destruct (ai_start info); [|done].
  destruct (eh_era_payout _ _ _) as [vp rest]. specialize (Ht (ai_index info) eq_refl).
  rewrite add32_exact in Es by lia. pose proof (Hs _ _ Es) as Hlt.
  split; cbn [eras set_offending set_slashes on_host set_validator_reward set_eras emit]; try done.
  { cbn. rewrite Ea. by intros a [= <-]. }
  intros k v. cbn. intros Hk. destruct (decide (k = ai_index info)) as [->|Hne].
  - change (0 <= ai_index info < next_planned (eras s) - 1). lia.
  - rewrite lookup_insert_ne in Hk by done. apply (Hrw k v Hk).
Qed.
Lemma clear_metadata_eras (l : list (Z * Z)) s : eras (foldl (fun s e => clear_era_metadata e.1 s) s l) = eras s.
Proof. revert s. induction l as [|x l IH]; intros s; [done|]. cbn [foldl]. by rewrite IH. Qed.
Lemma start_era_eras st s :
  let a := match ActiveEra (eras s) with Some info => add32 (ai_index info) 1 | None => 0 end in
  let b := BondedEras (eras s) ++ [(a, st)] in
  let e' := eras (start_era cfg st s) in
  CurrentEra e' = CurrentEra (eras s) /\ ActiveEra e' = Some (mkActiveEra a None) /\
  ErasStartSessionIndex e' = ErasStartSessionIndex (eras s) /\ ErasValidatorReward e' = ErasValidatorReward (eras s) /\
  BondedEras e' = if BondingDuration cfg <? a then drop (count_before (a - BondingDuration cfg) b) b else b.
Proof.
  cbv zeta. unfold start_era. set (a := match ActiveEra (eras s) with Some _ => _ | None => _ end).
  rewrite (ev_eras _ _ (apply_unapplied_evolves _ _)). destruct (_ <? a); [|done].
  cbn [BondedEras eras set_active_era set_eras]. set (b := BondedEras (eras s) ++ _).
  destruct (drop _ b) as [|[x y] b'] eqn:Eb; cbn [eras set_bonded_eras set_eras on_host];
    rewrite clear_metadata_eras; by split_and!.
Qed.
Lemma count_before_seq f (l : list (Z * Z)) : forall lo n, l.*1 = seqZ lo n -> 0 <= n ->
  (drop (count_before f l) l).*1 = seqZ (Z.max lo (Z.min f (lo + n))) (n - (Z.max lo (Z.min f (lo + n)) - lo)).
Proof.
  induction l as [|[e x] l IH]; intros lo n Hl Hn.
  - cbn in *. assert (n = 0) as ->. { destruct (decide (n = 0)); [done|]. rewrite seqZ_cons in Hl by lia. done. }
    replace (0 - _) with 0 by lia. by rewrite seqZ_nil.
  - assert (0 < n) as Hpos. { destruct (decide (0 < n)); [done|]. rewrite seqZ_nil in Hl by lia. done. }
    rewrite seqZ_cons in Hl by lia. cbn in Hl. injection Hl as -> Hl. cbn [count_before]. destruct (Z.ltb_spec lo f).
    + cbn [drop]. rewrite (IH _ _ Hl) by lia. f_equal; lia.
    + cbn [drop]. rewrite Z.max_l by lia. replace (n - (lo - lo)) with n by lia. rewrite seqZ_cons by lia. cbn. by f_equal.
Qed.
Lemma start_era_in_step i st s : 0 <= BondingDuration cfg -> i + 3 <= U32_MAX -> in_step i (eras s) ->
  next_planned (eras s) = next_active (eras s) + 1 ->
  in_step (i + 1) (eras (start_era cfg st s)) /\ next_planned (eras (start_era cfg st s)) = next_active (eras (start_era cfg st s)).
Proof.
  intros Hbd Hmax Hin Hpl. pose proof (in_step_order _ _ Hin) as Hord. destruct Hin as [Ht Hr _ Hs Hb Hrw].
  destruct (start_era_eras st s) as (E1 & E2 & E3 & E4 & E5).
  set (a := match ActiveEra (eras s) with Some _ => _ | None => _ end) in *.
  assert (a = next_active (eras s)) as Ha.
  { unfold a, next_active in *. destruct (ActiveEra (eras s)) as [info|]; [|done]. apply add32_exact. lia. }
  clearbody a. subst a. set (e' := eras (start_era cfg st s)) in *.
  assert (next_active e' = next_active (eras s) + 1) as Hn' by (unfold next_active at 1; rewrite E2; done).
  assert (next_planned e' = next_planned (eras s)) as Hp' by (unfold next_planned; by rewrite E1).
  split; [|lia]. split; rewrite ?Hn', ?Hp', ?E3, ?E4; try done; [|lia|left; lia|].
  - rewrite E2. intros x [= <-]. lia.
  - cbv zeta. rewrite E5. cbv zeta in Hb.
    assert ((BondedEras (eras s) ++ [(next_active (eras s), st)]).*1 =
      seqZ (Z.max 0 (next_active (eras s) - 1 - BondingDuration cfg))
           (next_active (eras s) + 1 - Z.max 0 (next_active (eras s) - 1 - BondingDuration cfg))) as Hall.
    { rewrite fmap_app, Hb. cbn.
      replace (next_active (eras s) + 1 - Z.max 0 (next_active (eras s) - 1 - BondingDuration cfg))
        with ((next_active (eras s) - Z.max 0 (next_active (eras s) - 1 - BondingDuration cfg)) + 1) by lia.
      rewrite seqZ_app by lia. f_equal. rewrite seqZ_cons, seqZ_nil by lia. f_equal. lia. }
    destruct (Z.ltb_spec (BondingDuration cfg) (next_active (eras s))).
    + rewrite (count_before_seq _ _ _ _ Hall) by lia. f_equal; lia.
    + rewrite Hall. f_equal; lia.
Qed.
Lemma disable_all_eras (l : list (Z * bool)) s :
  eras (foldl (fun s o => if o.2 : bool then on_host (sh_disable_validator o.1) s else s) s l) = eras s.
Proof. revert s. induction l as [|[x b] l IH]; intros s; [done|]. cbn [foldl]. rewrite IH. by destruct b. Qed.
(** Starting session [i + 1] activates the era that was planned for it. *)
Lemma start_session_in_step i s : 0 <= BondingDuration cfg -> i + 3 <= U32_MAX -> in_step i (eras s) ->
  let e' := eras (start_session cfg (i + 1) s) in
  in_step (i + 1) e' /\ next_planned e' = next_active e' /\ next_planned e' <= i + 2.
Proof.
  intros Hbd Hmax Hin. pose proof (in_step_order _ _ Hin) as Hord. cbv zeta. unfold start_session.
  rewrite disable_all_eras. set (a := match ActiveEra (eras s) with Some _ => _ | None => _ end).
  assert (a = next_active (eras s)) as ->.
  { unfold a, next_active in *. destruct (ActiveEra (eras s)) as [info|]; [|done]. apply add32_exact. lia. }
  destruct (st_planned _ _ Hin) as [Heq|[Heq Hst]].
  - destruct (ErasStartSessionIndex (eras s) !! next_active (eras s)) as [v|] eqn:Es.
    { apply (st_starts _ _ Hin) in Es. lia. }
    split_and!; [|done|lia]. destruct Hin as [Ht Hr _ Hs Hb Hrw]. split; [done|lia|by left|done..].
  - rewrite Hst, Z.eqb_refl. destruct (start_era_in_step i (i + 1) s) as [H1 H2]; [done..|]. split_and!; [done|done|].
    unfold next_planned at 1. destruct (start_era_eras (i + 1) s) as (-> & _). apply Hord.
Qed.

(** *** Planning *)
Definition core_kept s s' : Prop := same_core (eras s) (eras s') /\ params s' = params s /\ stakes s' = stakes s.
Lemma core_kept_refl s : core_kept s s.
Proof. done. Qed.
Lemma core_kept_trans s1 s2 s3 : core_kept s1 s2 -> core_kept s2 s3 -> core_kept s1 s3.
Proof. intros (H1 & H2 & H3) (H4 & H5 & H6). split_and!; [by eapply same_core_trans|congruence..]. Qed.
Lemma store_exposure_core era l : forall s t, core_kept s (foldl (store_exposure cfg era) (s, t) l).1.
Proof.
  induction l as [|[who e] l IH]; intros s t; [apply core_kept_refl|]. cbn [foldl store_exposure].
  eapply core_kept_trans; [|apply IH]. by split_and!; [by split|..].
Qed.
Lemma store_prefs_core era l : forall s, core_kept s (foldl (store_prefs era) s l).
Proof.
  induction l as [|who l IH]; intros s; [apply core_kept_refl|]. cbn [foldl].
  eapply core_kept_trans; [|apply IH]. by split_and!; [by split|..].
Qed.
Lemma store_stakers_core exposures era s : core_kept s (store_stakers_info cfg exposures era s).1.
Proof.
  unfold store_stakers_info. pose proof (store_exposure_core era exposures s 0) as H1.
  destruct (foldl (store_exposure cfg era) (s, 0) exposures) as [s1 total]. cbn [fst] in *.
  eapply core_kept_trans; [exact H1|]. eapply core_kept_trans; [|apply store_prefs_core]. by split_and!; [by split|..].
Qed.
(** A new era is planned for the session [i + 1] when none is pending. *)
Lemma trigger_in_step i exposures s : 0 <= HistoryDepth cfg < U32_MAX -> i + 3 <= U32_MAX ->
  in_step i (eras s) -> next_planned (eras s) = next_active (eras s) -> next_planned (eras s) <= i + 1 ->
  in_step i (eras (trigger_new_era cfg (i + 1) exposures s).1).
Proof.
  intros HH Hmax Hin Heq Hle. pose proof (in_step_order _ _ Hin) as Hord. destruct Hin as [Ht Hr _ Hs Hb Hrw].
  unfold trigger_new_era. set (new := match CurrentEra (eras s) with Some _ => _ | None => _ end).
  assert (new = next_planned (eras s)) as Hnew.
  { unfold new, next_planned in *. destruct (CurrentEra (eras s)) as [c|]; [|done]. apply add32_exact. lia. }
  clearbody new. subst new. rewrite (add32_exact (HistoryDepth cfg) 1) by lia.
  eapply in_step_core; [apply (proj1 (store_stakers_core _ _ _))|].
  set (s1 := set_start_index _ (set_current_era _ s)).
  assert (forall (D : gmap Z Z) e', (forall k v, D !! k = Some v -> ErasStartSessionIndex (eras s1) !! k = Some v) ->
    D !! next_planned (eras s) = Some (i + 1) ->
    CurrentEra e' = Some (next_planned (eras s)) -> ActiveEra e' = ActiveEra (eras s) -> ErasStartSessionIndex e' = D ->
    BondedEras e' = BondedEras (eras s) ->
    (forall k v, ErasValidatorReward e' !! k = Some v -> ErasValidatorReward (eras s) !! k = Some v) -> in_step i e') as Hgen.
  { intros D e' HD HDn Ec Ea Es Eb Er. assert (next_active e' = next_active (eras s)) as Hna by (unfold next_active; by rewrite Ea).
    assert (next_planned e' = next_planned (eras s) + 1) as Hnp by (unfold next_planned at 1; by rewrite Ec).
    split; rewrite ?Hna, ?Hnp, ?Ea, ?Es, ?Eb; [done|lia| | |done|].
    - right. rewrite <- Heq. done.
    - intros k v Hk. apply HD in Hk. cbn in Hk. destruct (decide (k = next_planned (eras s))) as [->|Hne]; [lia|].
      rewrite lookup_insert_ne in Hk by done. apply Hs in Hk. lia.
    - intros k v Hk. apply Er, Hrw in Hk. lia. }
  unfold checked_sub. destruct (Z.leb_spec (HistoryDepth cfg + 1) (next_planned (eras s))).
  - apply (Hgen (delete (next_planned (eras s) - (HistoryDepth cfg + 1)) (ErasStartSessionIndex (eras s1)))); try done.
    + intros k v Hk. by apply lookup_delete_Some in Hk as [_ Hk].
    + rewrite lookup_delete_ne by lia. cbn. by rewrite lookup_insert_eq.
    + intros k v Hk. cbn in Hk. by apply lookup_delete_Some in Hk as [_ Hk].
  - apply (Hgen (ErasStartSessionIndex (eras s1))); try done. cbn. by rewrite lookup_insert_eq.
Qed.
Lemma trigger_stakes st exposures s : stakes (trigger_new_era cfg st exposures s).1 = stakes s /\
  params (trigger_new_era cfg st exposures s).1 = params s.
Proof.
  unfold trigger_new_era. match goal with |- context [store_stakers_info cfg exposures ?e ?t] =>
    destruct (store_stakers_core exposures e t) as (_ & -> & ->) end. by destruct (checked_sub _ _).
Qed.
Lemma try_trigger_stakes st g s : stakes (try_trigger_new_era cfg elect st g s).1 = stakes s /\
  params (try_trigger_new_era cfg elect st g s).1 = params s.
Proof.
  unfold try_trigger_new_era. destruct (elect g s) as [x [sup|]]; [|done]. destruct (_ <? _).
  - by destruct (CurrentEra _).
  - match goal with |- context [trigger_new_era cfg st ?e ?t] => pose proof (trigger_stakes st e t) as [H1 H2];
      destruct (trigger_new_era cfg st e t) as [s1 el] end. exact (conj H1 H2).
Qed.
Lemma try_trigger_in_step i g s : 0 <= HistoryDepth cfg < U32_MAX -> i + 3 <= U32_MAX ->
  in_step i (eras s) -> next_planned (eras s) = next_active (eras s) -> next_planned (eras s) <= i + 1 ->
  in_step i (eras (try_trigger_new_era cfg elect (i + 1) g s).1).
Proof.
  intros HH Hmax Hin Heq Hle. unfold try_trigger_new_era. destruct (elect g s) as [x [sup|]]; [|done].
  destruct (_ <? _).
  - cbn [on_host eras]. destruct (CurrentEra (eras s)) as [c|] eqn:Ec; [done|]. cbn [fst emit eras].
    destruct Hin as [Ht Hr _ Hs Hb Hrw]. unfold next_planned in *. rewrite Ec in *.
    split; unfold next_planned; cbn; [done|lia| | |done|].
    + right. split; [change (1 = next_active (eras s) + 1); lia|].
      change (<[0:=i + 1]> (ErasStartSessionIndex (eras s)) !! next_active (eras s) = Some (i + 1)).
      rewrite <- Heq. by rewrite lookup_insert_eq.
    + intros k v Hk. destruct (decide (k = 0)) as [->|Hne]; [lia|]. rewrite lookup_insert_ne in Hk by done.
      apply Hs in Hk. lia.
    + intros k v Hk. apply Hrw in Hk. lia.
  - match goal with |- context [trigger_new_era cfg _ ?e ?t] => pose proof (trigger_in_step i e t HH Hmax Hin Heq Hle) as H1;
      destruct (trigger_new_era cfg _ e t) as [s1 el] end. exact H1.
Qed.
Lemma new_session_in_step i g s : 0 <= HistoryDepth cfg < U32_MAX -> i + 3 <= U32_MAX ->
  in_step i (eras s) -> next_planned (eras s) = next_active (eras s) -> next_planned (eras s) <= i + 1 ->
  in_step i (eras (new_session cfg elect g (i + 1) s).1).
Proof.
  intros HH Hmax Hin Heq Hle. unfold new_session, new_session_era. set (s1 := set_planned _ s).
  assert (in_step i (eras s1)) as Hin1 by (apply (in_step_core i (eras s)); [by split|exact Hin]).
  pose proof (try_trigger_in_step i g s1 HH Hmax Hin1 Heq Hle) as Ht.
  destruct (CurrentEra (eras s1)); [|done].
  match goal with |- context [if ?b then _ else (s1, None)] => destruct b; [|done] end.
  destruct (try_trigger_new_era _ _ _ _ s1) as [s2 vs]. cbn [fst] in Ht. by destruct (_ && _).
Qed.
Lemma rotate_in_step i s : 0 <= BondingDuration cfg -> 0 <= HistoryDepth cfg < U32_MAX -> i + 4 <= U32_MAX ->
  in_step i (eras s) -> in_step (i + 1) (eras (rotate_session i s)).
Proof.
  intros Hbd HH Hmax Hin. unfold rotate_session.
  pose proof (end_session_in_step i s ltac:(lia) Hin) as H1.
  destruct (start_session_in_step i (end_session i s) Hbd ltac:(lia) H1) as (H2 & H3 & H4).
  replace (i + 2) with (i + 1 + 1) by lia. apply new_session_in_step; [done|lia|done|done|lia].
Qed.
Lemma new_session_stakes g n s : stakes (new_session cfg elect g n s).1 = stakes s.
Proof.
  unfold new_session, new_session_era. set (s1 := set_planned n s). pose proof (proj1 (try_trigger_stakes n g s1)) as H1.
  destruct (CurrentEra (eras s1)); [|done].
  match goal with |- context [if ?b then _ else (s1, None)] => destruct b; [|done] end.
  destruct (try_trigger_new_era _ _ _ _ s1) as [s2 vs]. by destruct (_ && _).
Qed.
Lemma new_session_not_forcing g n s : ForceEra (params s) = NotForcing -> params (new_session cfg elect g n s).1 = params s.
Proof.
  intros Hf. unfold new_session, new_session_era. set (s1 := set_planned n s). pose proof (proj2 (try_trigger_stakes n g s1)) as H1.
  destruct (CurrentEra (eras s1)); [|done].
  match goal with |- context [if ?b then _ else (s1, None)] => destruct b; [|done] end.
  destruct (try_trigger_new_era _ _ _ _ s1) as [s2 vs]. cbn [fst] in H1. rewrite H1. change (params s1) with (params s).
  rewrite Hf. cbn [is_force_new]. rewrite andb_false_r. exact H1.
Qed.

(** Before the first session. *)
Definition no_eras (e : Eras A) : Prop :=
  CurrentEra e = None /\ ActiveEra e = None /\ ErasStartSessionIndex e = ∅ /\ BondedEras e = [] /\ ErasValidatorReward e = ∅.
Lemma no_eras_in_step e : no_eras e -> 0 <= BondingDuration cfg -> in_step (-1) e.
Proof.
  intros (H1 & H2 & H3 & H4 & H5) Hbd. unfold next_planned, next_active.
  split; unfold next_planned, next_active; rewrite ?H1, ?H2, ?H3, ?H4, ?H5.
  - done.
  - done.
  - by left.
  - intros k v. by rewrite lookup_empty.
  - cbv zeta. rewrite Z.max_l by lia. by rewrite seqZ_nil.
  - intros k v. by rewrite lookup_empty.
Qed.
Lemma start_session_idle i n s : in_step i (eras s) -> i + 3 <= U32_MAX -> n < i + 1 ->
  eras (start_session cfg n s) = eras s.
Proof.
  intros Hin Hmax Hn. pose proof (in_step_order _ _ Hin) as Hord. unfold start_session. rewrite disable_all_eras.
  set (a := match ActiveEra (eras s) with Some _ => _ | None => _ end).
  assert (a = next_active (eras s)) as ->.
  { unfold a, next_active in *. destruct (ActiveEra (eras s)) as [info|]; [|done]. apply add32_exact. lia. }
  destruct (st_planned _ _ Hin) as [Heq|[Heq Hst]].
  - destruct (ErasStartSessionIndex (eras s) !! next_active (eras s)) as [v|] eqn:Es; [|done].
    apply (st_starts _ _ Hin) in Es. lia.
  - rewrite Hst. by rewrite (proj2 (Z.eqb_neq _ _)), (proj2 (Z.ltb_ge _ _)) by lia.
Qed.
Lemma genesis_in_step s : no_eras (eras s) -> ForceEra (params s) = NotForcing -> 1 < SessionsPerEra cfg ->
  0 <= BondingDuration cfg -> 0 <= HistoryDepth cfg < U32_MAX -> in_step 0 (eras (genesis_sessions s)).
Proof.
  intros Hno Hf Hspe Hbd HH. pose proof (no_eras_in_step _ Hno Hbd) as H0. destruct Hno as (Hc & Ha & _).
  assert (next_planned (eras s) = 0 /\ next_active (eras s) = 0) as [Hp0 Ha0]
    by (unfold next_planned, next_active; by rewrite Hc, Ha).
  unfold genesis_sessions. pose proof (new_session_in_step (-1) true s HH ltac:(done) H0 ltac:(lia) ltac:(lia)) as H1.
  pose proof (new_session_not_forcing true 0 s Hf) as Hf1. change (-1 + 1) with 0 in H1.
  set (s1 := (new_session cfg elect true 0 s).1) in *. clearbody s1. pose proof (in_step_order _ _ H1) as Hord.
  destruct (st_planned _ _ H1) as [Heq|[Heq Hst]].
  - assert (in_step 0 (eras s1)) as H1'.
    { destruct H1 as [Ht Hr _ Hs Hb Hrw]. split; [done|lia|by left|done..]. }
    pose proof (new_session_in_step 0 true s1 HH ltac:(done) H1' Heq ltac:(lia)) as H2. change (0 + 1) with 1 in H2.
    rewrite (start_session_idle 0); [done|done|done|lia].
  - assert (same_core (eras s1) (eras (new_session cfg elect true 1 s1).1)) as Hcore.
    { unfold new_session, new_session_era. set (s2 := set_planned 1 s1). change (CurrentEra (eras s2)) with (CurrentEra (eras s1)).
      unfold next_planned in Heq, Hord. destruct (CurrentEra (eras s1)) as [c|]; [|lia]. assert (c = next_active (eras s1)) as -> by lia.
      change (ErasStartSessionIndex (eras s2)) with (ErasStartSessionIndex (eras s1)). rewrite Hst. cbn [default from_option id].
      change (params s2) with (params s1). rewrite Hf1, Hf.
      assert (SessionsPerEra cfg <=? sat_sub 1 (-1 + 1) = false) as -> by (unfold sat_sub; cbn; lia). by split. }
    apply (start_session_in_step (-1)); [done|done|]. by eapply in_step_core.
Qed.
Lemma payout_eras o v e s s' u : payout_stakers cfg o v e s = (s', Ok u) -> eras s' = eras s.
Proof.
  intros Hr. unfold payout_stakers, do_payout_stakers in Hr. run_inv.
  match goal with |- eras (payout_rewards ?a ?b ?c ?d ?t) = _ => by rewrite (ev_eras _ _ (payout_rewards_evolves a b c d t)) end.
Qed.
Lemma step_in_step p p' : 0 <= BondingDuration cfg -> 0 <= HistoryDepth cfg < U32_MAX ->
  staking_step p p' -> in_step p.1 (eras p.2) -> in_step p'.1 (eras p'.2).
Proof.
  intros Hbd HH Hst Hin. destruct Hst as [i s o c|i s o v e|i s os fs n d|i s vps|i s|i s Hi]; cbn [fst snd] in *.
  - by rewrite (ev_eras _ _ (dispatch_evolves o c s)).
  - unfold transactional. destruct (payout_stakers cfg o v e s) as [s' [u|er|]] eqn:Er; cbn [fst is_ok]; [|done..].
    by rewrite (payout_eras _ _ _ _ _ _ Er).
  - by rewrite (ev_eras _ _ (on_offence_evolves os fs n d s)).
  - apply (in_step_core i (eras s)); [|done]. unfold reward_by_ids. destruct (ActiveEra (eras s)); by split.
  - apply (in_step_core i (eras s)); [|done]. unfold on_finalize.
    destruct (ActiveEra (eras s)) as [[a [st|]]|] eqn:Ea; [by split| |by split]. split; try done. cbn. by rewrite Ea.
  - by apply rotate_in_step.
Qed.

(** C20. The active era follows the planned one.  From genesis on, whatever calls, payouts,
    offences and rotations of sessions happen in whatever order: the active era is the
    planned era or the one before it, and a planned era that is not active yet starts with
    the next session; start sessions are recorded of planned eras only; the eras in which
    an offence can still be slashed are exactly the active one and those of the bonding
    duration before it; and only eras before the planned one have a reward. *)
Theorem eras_stay_in_step s0 i s :
  0 <= BondingDuration cfg -> 0 <= HistoryDepth cfg < U32_MAX -> 1 < SessionsPerEra cfg ->
  no_eras (eras s0) -> ForceEra (params s0) = NotForcing ->
  staking_steps (0, genesis_sessions s0) (i, s) -> in_step i (eras s).
Proof.
  intros Hbd HH Hspe Hno Hf Hsteps.
  assert (forall p p', staking_steps p p' -> in_step p.1 (eras p.2) -> in_step p'.1 (eras p'.2)) as Hinv.
  { intros p p' Hpp. induction Hpp as [|p p1 p' Hst Hpp IH]; [done|]. intros Hin. by apply IH, (step_in_step p). }
  apply (Hinv _ _ Hsteps). by apply genesis_in_step.
Qed.
(** ** Claims *)
Definition claims_sorted s : Prop := forall c l, ledger s c = Some l -> StronglySorted Z.lt (claimed_rewards l).
(** The reward of stash [v] for era [e] is claimed, or too old to be. *)
Record claimed (v : A) (e : Z) s : Prop := {
  cl_linked : linked s;
  cl_sorted : claims_sorted s;
  cl_past : e < default 0 (CurrentEra (eras s));
  cl_claimed c l : ledger s c = Some l -> stash l = v -> oldest_era s <= e -> e ∈ claimed_rewards l;
}.
Lemma evolves_sorted s s' : evolves s s' -> claims_sorted s -> claims_sorted s'.
Proof.
  intros Hev Hs c l Hl. destruct (ev_claims _ _ Hev c l Hl) as [(c0 & l0 & Hl0 & _ & ->)| ->]; [by eapply Hs|apply sorted_seqZ].
Qed.
Lemma evolves_claimed v e s s' : evolves s s' -> claimed v e s -> claimed v e s'.
Proof.
  intros Hev [H1 H2 H3 H4]. pose proof (ev_eras _ _ Hev) as He. split.
  - by apply (ev_linked _ _ Hev).
  - by eapply evolves_sorted.
  - by rewrite He.
  - unfold oldest_era. rewrite He. intros c l Hl Hv Ho.
    destruct (ev_claims _ _ Hev c l Hl) as [(c0 & l0 & Hl0 & Hs & ->)| ->]; [by eapply H4; [|congruence|]|].
    unfold fresh_claims. apply elem_of_seqZ. unfold oldest_era. lia.
Qed.

(** A payout records its era, and drops the claims of eras that are too old. *)
Lemma payout_step o v e s s' u : payout_stakers cfg o v e s = (s', Ok u) ->
  exists c l pos cur s1, bonded s v = Some c /\ ledger s c = Some l /\ CurrentEra (eras s) = Some cur /\
    is_Some (ErasValidatorReward (eras s) !! e) /\ oldest_era s <= e /\
    search (filter (fun x => oldest_era s <= x) (claimed_rewards l)) e = inr pos /\
    s1 = set_ledgers (<[c := mkLedger (stash l) (ledger_total l) (active l) (unlocking l)
           (list_insert_at pos e (filter (fun x => oldest_era s <= x) (claimed_rewards l)))]> (Ledger (stakes s))) s /\
    evolves s1 s'.
Proof.
  intros Hr. unfold payout_stakers, do_payout_stakers in Hr. run_inv.
  match goal with H : CurrentEra (eras s) = Some ?x |- _ => rename x into cur; rename H into Hcur end.
  match goal with H : bonded s v = Some ?x |- _ => rename x into c; rename H into Hb end.
  match goal with H : ledger s c = Some ?x |- _ => rename x into l; rename H into Hl end.
  assert (sat_sub cur (HistoryDepth cfg) = oldest_era s) as Ho by (unfold oldest_era; by rewrite Hcur). rewrite Ho in *.
  destruct (search _ _) as [|pos] eqn:Ese; [done|]. destruct (_ <? _); [|done].
  exists c, l, pos, cur, (set_ledgers (<[c := mkLedger (stash l) (ledger_total l) (active l) (unlocking l)
    (list_insert_at pos e (filter (fun x => oldest_era s <= x) (claimed_rewards l)))]> (Ledger (stakes s))) s).
  split_and!; [done|done|done|by eexists|lia|done|done|].
  match goal with H : Ok _ = Ok ?x |- _ => injection H as <- end. apply payout_rewards_evolves.
Qed.
Lemma payout_linked c l l' s : ledger s c = Some l -> stash l' = stash l -> linked s ->
  linked (set_ledgers (<[c := l']> (Ledger (stakes s))) s).
Proof.
  intros Hl Hs HL. apply (ev_linked _ _ (update_ledger_evolves c (mkLedger (stash l') (ledger_total l') (active l')
    (unlocking l') (claimed_rewards l)) l s Hl Hs eq_refl)) in HL as [HL HL'].
  unfold linked, bonded, ledger, update_ledger in *. cbn in *. split.
  - intros a c0 Ha. destruct (HL a c0 Ha) as (l0 & Hl0 & Hs0). destruct (decide (c0 = c)) as [->|Hne].
    + rewrite lookup_insert_eq in *. injection Hl0 as <-. by exists l'.
    + rewrite lookup_insert_ne in * by done. by exists l0.
  - intros c0 l0 Hl0. destruct (decide (c0 = c)) as [->|Hne].
    + rewrite lookup_insert_eq in Hl0. injection Hl0 as <-. apply (HL' c (mkLedger (stash l') (ledger_total l') (active l')
        (unlocking l') (claimed_rewards l))). by rewrite lookup_insert_eq.
    + rewrite lookup_insert_ne in Hl0 by done. apply (HL' c0). by rewrite lookup_insert_ne.
Qed.
Lemma insert_claim_sorted c l pos e s : claims_sorted s -> ledger s c = Some l ->
  search (filter (fun x => oldest_era s <= x) (claimed_rewards l)) e = inr pos ->
  claims_sorted (set_ledgers (<[c := mkLedger (stash l) (ledger_total l) (active l) (unlocking l)
    (list_insert_at pos e (filter (fun x => oldest_era s <= x) (claimed_rewards l)))]> (Ledger (stakes s))) s).
Proof.
  intros Hs Hl Hse c0 l0. unfold ledger. cbn. destruct (decide (c0 = c)) as [->|Hne].
  - rewrite lookup_insert_eq. intros [= <-]. apply insert_at_sorted; [|done]. apply sorted_filter. by eapply Hs.
  - rewrite lookup_insert_ne by done. apply Hs.
Qed.
Lemma payout_sorted o v e s s' u : payout_stakers cfg o v e s = (s', Ok u) -> linked s -> claims_sorted s ->
  linked s' /\ claims_sorted s'.
Proof.
  intros Hr HL Hs. apply payout_step in Hr as (c & l & pos & cur & s1 & Hb & Hl & Hcur & _ & _ & Hse & -> & Hev).
  split; [by apply (ev_linked _ _ Hev), (payout_linked c l)|]. eapply evolves_sorted; [exact Hev|].
  by apply insert_claim_sorted.
Qed.
Lemma payout_claimed o v e v' e' s s' u : payout_stakers cfg o v' e' s = (s', Ok u) -> claimed v e s -> claimed v e s'.
Proof.
  intros Hr [HL Hs Hp Hc].
  apply payout_step in Hr as (c & l & pos & cur & s1 & Hb & Hl & Hcur & _ & _ & Hse & -> & Hev).
  eapply evolves_claimed; [exact Hev|]. split; [by apply (payout_linked c l)|by apply insert_claim_sorted|done|].
  intros c0 l0. unfold ledger, oldest_era. cbn. destruct (decide (c0 = c)) as [->|Hne].
  - rewrite lookup_insert_eq. intros [= <-] Hst Ho. cbn in *. apply elem_insert_at. right. apply list_elem_of_filter.
    split; [done|]. by eapply Hc.
  - rewrite lookup_insert_ne by done. apply Hc.
Qed.
(** After a payout its reward is claimed. *)
Lemma payout_claims i o v e s s' u : in_step i (eras s) -> linked s -> claims_sorted s ->
  payout_stakers cfg o v e s = (s', Ok u) -> claimed v e s'.
Proof.
  intros Hin HL Hs Hr.
  apply payout_step in Hr as (c & l & pos & cur & s1 & Hb & Hl & Hcur & [p Hrw] & _ & Hse & -> & Hev).
  eapply evolves_claimed; [exact Hev|]. split; [by apply (payout_linked c l)|by apply insert_claim_sorted| |].
  - cbn. rewrite Hcur. cbn. apply (st_rewards _ _ Hin) in Hrw. unfold next_planned in Hrw. rewrite Hcur in Hrw. lia.
  - intros c0 l0. unfold ledger. cbn. destruct (decide (c0 = c)) as [->|Hne].
    + rewrite lookup_insert_eq. intros [= <-] _ _. cbn. apply elem_insert_at. by left.
    + rewrite lookup_insert_ne by done. intros Hl0 <- _. destruct HL as [_ HL']. apply HL' in Hl0. congruence.
Qed.
(** A claimed reward is refused. *)
Lemma claimed_refused v e o s s' u : claimed v e s -> payout_stakers cfg o v e s <> (s', Ok u).
Proof.
  intros [[HL HL'] Hs Hp Hc] Hr. apply payout_step in Hr as (c & l & pos & cur & s1 & Hb & Hl & Hcur & _ & Ho & Hse & _).
  destruct (HL v c Hb) as (l0 & Hl0 & Hst). replace l0 with l in * by congruence.
  pose proof (Hc c l Hl Hst Ho) as Hin.
  assert (e ∈ filter (fun x => oldest_era s <= x) (claimed_rewards l)) as Hf by (by apply list_elem_of_filter).
  apply (binary_search_spec _ _ (sorted_filter _ _ (Hs c l Hl))) in Hf. unfold binary_search in Hf. by rewrite Hse in Hf.
Qed.
(** *** Sessions and claims *)
Record tidy s : Prop := { ti_linked : linked s; ti_sorted : claims_sorted s }.
Lemma evolves_tidy s s' : evolves s s' -> tidy s -> tidy s'.
Proof. intros Hev [H1 H2]. split; [by apply (ev_linked _ _ Hev)|by eapply evolves_sorted]. Qed.
Lemma stakes_tidy s s' : stakes s' = stakes s -> tidy s -> tidy s'.
Proof. intros Hs [H1 H2]. split; unfold linked, claims_sorted, ledger, bonded in *; by rewrite Hs. Qed.
Lemma stakes_claimed v e s s' : stakes s' = stakes s -> default 0 (CurrentEra (eras s)) <= default 0 (CurrentEra (eras s')) ->
  claimed v e s -> claimed v e s'.
Proof.
  intros Hs Hc [H1 H2 H3 H4]. destruct (stakes_tidy s s' Hs) as [H1' H2']; [by split|]. split; [done|done|lia|].
  intros c l Hl Hst Ho. apply (H4 c l); [unfold ledger in *; by rewrite <- Hs|done|].
  unfold oldest_era, sat_sub in *. lia.
Qed.
Lemma end_session_frame i s : stakes (end_session i s) = stakes s /\ CurrentEra (eras (end_session i s)) = CurrentEra (eras s).
Proof.
  unfold end_session, end_era. destruct (ActiveEra (eras s)) as [info|]; [|done]. destruct (_ !! _); [|done].
  destruct (_ =? _); [|done]. destruct (ai_start info); [|done]. by destruct (eh_era_payout _ _ _).
Qed.
Lemma clear_metadata_stakes (l : list (Z * Z)) s : stakes (foldl (fun s e => clear_era_metadata e.1 s) s l) = stakes s.
Proof. revert s. induction l as [|x l IH]; intros s; [done|]. cbn [foldl]. by rewrite IH. Qed.
Lemma start_era_mid st s : exists m, stakes m = stakes s /\ CurrentEra (eras m) = CurrentEra (eras s) /\ evolves m (start_era cfg st s).
Proof.
  unfold start_era. match goal with |- context [apply_unapplied_slashes cfg ?a ?m] =>
    exists m; split_and!; [| |apply apply_unapplied_evolves] end.
  - destruct (_ <? _); [|done]. destruct (drop _ _) as [|[x y] b']; cbn [stakes set_bonded_eras set_eras on_host];
      by rewrite clear_metadata_stakes.
  - destruct (_ <? _); [|done]. destruct (drop _ _) as [|[x y] b']; cbn [eras set_bonded_eras set_eras on_host CurrentEra];
      by rewrite clear_metadata_eras.
Qed.
Lemma disable_all_stakes (l : list (Z * bool)) s :
  stakes (foldl (fun s o => if o.2 : bool then on_host (sh_disable_validator o.1) s else s) s l) = stakes s.
Proof. revert s. induction l as [|[x b] l IH]; intros s; [done|]. cbn [foldl]. rewrite IH. by destruct b. Qed.
Lemma start_session_mid n s : exists m, stakes m = stakes s /\ CurrentEra (eras m) = CurrentEra (eras s) /\ evolves m (start_session cfg n s).
Proof.
  unfold start_session. match goal with |- context [foldl _ ?t _] => set (s1 := t) end.
  assert (exists m, stakes m = stakes s /\ CurrentEra (eras m) = CurrentEra (eras s) /\ evolves m s1) as (m & H1 & H2 & H3).
  { unfold s1. destruct (_ !! _) as [next|]; [|exists s; split_and!; [done|done|apply evolves_refl]].
    destruct (_ =? _); [apply start_era_mid|]. destruct (_ <? _); [apply start_era_mid|].
    exists s. split_and!; [done|done|apply evolves_refl]. }
  exists m. split_and!; [done|done|]. eapply evolves_trans; [exact H3|].
  apply same_stakes_evolves; rewrite ?disable_all_stakes, ?disable_all_eras; done.
Qed.
Lemma new_session_current g n s : next_planned (eras s) + 1 <= U32_MAX -> 0 <= next_planned (eras s) ->
  default 0 (CurrentEra (eras s)) <= default 0 (CurrentEra (eras (new_session cfg elect g n s).1)).
Proof.
  intros Hmax Hpos.
  assert (forall t st, CurrentEra (eras t) = CurrentEra (eras s) ->
    default 0 (CurrentEra (eras s)) <= default 0 (CurrentEra (eras (try_trigger_new_era cfg elect st g t).1))) as Htry.
  { intros t st Ht. unfold try_trigger_new_era. destruct (elect g t) as [x [sup|]]; [|cbn; by rewrite Ht].
    destruct (_ <? _).
    - cbn [on_host eras]. destruct (CurrentEra (eras t)) as [c|] eqn:Ec; cbn [fst emit eras]; [cbn; by rewrite Ec, <- Ht|].
      cbn. by rewrite <- Ht.
    - match goal with |- context [trigger_new_era cfg st ?e ?u] => set (u0 := u); unfold trigger_new_era;
        change (CurrentEra (eras u0)) with (CurrentEra (eras t)); rewrite Ht end.
      match goal with |- context [store_stakers_info cfg ?a ?b ?u] => pose proof (store_stakers_core a b u) as [[Hc _ _ _ _] _];
        destruct (store_stakers_info cfg a b u) as [s1 el] end.
      cbn [fst] in *. rewrite Hc. unfold next_planned in *. destruct (CurrentEra (eras s)) as [c|].
      + rewrite (add32_exact c 1) by lia. destruct (checked_sub (c + 1) _); cbn; lia.
      + by destruct (checked_sub _ _). }
  unfold new_session, new_session_era. set (s1 := set_planned n s). specialize (Htry s1 n eq_refl).
  destruct (CurrentEra (eras s1)) eqn:E1; [|done].
  match goal with |- context [if ?b then _ else (s1, None)] => destruct b; [|done] end.
  destruct (try_trigger_new_era _ _ _ _ s1) as [s2 vs]. by destruct (_ && _).
Qed.
Lemma rotate_mid i s : exists m, stakes m = stakes s /\ CurrentEra (eras m) = CurrentEra (eras s) /\
  evolves m (start_session cfg (i + 1) (end_session i s)).
Proof.
  destruct (start_session_mid (i + 1) (end_session i s)) as (m & H1 & H2 & H3). destruct (end_session_frame i s) as [H4 H5].
  exists m. by rewrite H1, H2.
Qed.
Lemma rotate_tidy i s : tidy s -> tidy (rotate_session i s).
Proof.
  intros Ht. destruct (rotate_mid i s) as (m & H1 & _ & H3). unfold rotate_session.
  eapply stakes_tidy; [apply new_session_stakes|]. eapply evolves_tidy; [exact H3|]. by eapply stakes_tidy.
Qed.
Lemma genesis_tidy s : tidy s -> tidy (genesis_sessions s).
Proof.
  intros Ht. unfold genesis_sessions. set (s1 := (new_session cfg elect true 0 s).1). set (s2 := (new_session cfg elect true 1 s1).1).
  destruct (start_session_mid 0 s2) as (m & H1 & _ & H3). eapply evolves_tidy; [exact H3|]. eapply stakes_tidy; [exact H1|].
  eapply stakes_tidy; [apply new_session_stakes|]. by eapply stakes_tidy; [apply new_session_stakes|].
Qed.
Lemma rotate_claimed v e i s : 0 <= BondingDuration cfg -> i + 4 <= U32_MAX -> in_step i (eras s) ->
  claimed v e s -> claimed v e (rotate_session i s).
Proof.
  intros Hbd Hmax Hin Hc. destruct (rotate_mid i s) as (m & H1 & H2 & H3).
  pose proof (end_session_in_step i s ltac:(lia) Hin) as Hin1.
  destruct (start_session_in_step i (end_session i s) Hbd ltac:(lia) Hin1) as (Hin2 & Heq & Hle).
  pose proof (in_step_order _ _ Hin2) as Hord. unfold rotate_session.
  eapply stakes_claimed; [apply new_session_stakes|apply new_session_current; lia|].
  eapply evolves_claimed; [exact H3|]. eapply stakes_claimed; [exact H1|by rewrite H2|done].
Qed.
Lemma step_tidy p p' : staking_step p p' -> tidy p.2 -> tidy p'.2.
Proof.
  intros Hst Ht. destruct Hst as [i s o c|i s o v e|i s os fs n d|i s vps|i s|i s Hi]; cbn [snd] in *.
  - by eapply evolves_tidy; [apply dispatch_evolves|].
  - unfold transactional. destruct (payout_stakers cfg o v e s) as [s' [u|er|]] eqn:Er; cbn [fst is_ok]; [|done..].
    destruct Ht as [H1 H2]. destruct (payout_sorted _ _ _ _ _ _ Er H1 H2). by split.
  - by eapply evolves_tidy; [apply on_offence_evolves|].
  - apply (stakes_tidy s); [|done]. unfold reward_by_ids. by destruct (ActiveEra (eras s)).
  - apply (stakes_tidy s); [|done]. unfold on_finalize. by destruct (ActiveEra (eras s)) as [[a [st|]]|].
  - by apply rotate_tidy.
Qed.
Lemma step_claimed v e p p' : 0 <= BondingDuration cfg -> staking_step p p' -> in_step p.1 (eras p.2) ->
  claimed v e p.2 -> claimed v e p'.2.
Proof.
  intros Hbd Hst Hin Ht. destruct Hst as [i s o c|i s o v' e'|i s os fs n d|i s vps|i s|i s Hi]; cbn [fst snd] in *.
  - by eapply evolves_claimed; [apply dispatch_evolves|].
  - unfold transactional. destruct (payout_stakers cfg o v' e' s) as [s' [u|er|]] eqn:Er; cbn [fst is_ok]; [|done..].
    by eapply payout_claimed.
  - by eapply evolves_claimed; [apply on_offence_evolves|].
  - apply (stakes_claimed v e s); [| |done]; unfold reward_by_ids; by destruct (ActiveEra (eras s)).
  - apply (stakes_claimed v e s); [| |done]; unfold on_finalize; by destruct (ActiveEra (eras s)) as [[a [st|]]|].
  - by apply rotate_claimed.
Qed.

(** C19. A reward is paid out once.  In every run of the pallet from genesis, once the
    stakers behind a validator have been paid for an era, no payout for this validator and
    era succeeds any more, whatever calls, other payouts, offences, slashes and sessions
    come in between: not when the validator withdraws everything and bonds again, not when
    it changes its controller, and not when the record of the claim has been dropped as
    too old. *)
Theorem reward_paid_once s0 i s o v e s1 u j s2 o' :
  0 <= BondingDuration cfg -> 0 <= HistoryDepth cfg < U32_MAX -> 1 < SessionsPerEra cfg ->
  no_eras (eras s0) -> ForceEra (params s0) = NotForcing -> tidy s0 ->
  staking_steps (0, genesis_sessions s0) (i, s) -> payout_stakers cfg o v e s = (s1, Ok u) ->
  staking_steps (i, s1) (j, s2) -> forall s3 u', payout_stakers cfg o' v e s2 <> (s3, Ok u').
Proof.
  intros Hbd HH Hspe Hno Hf Htidy Hrun Hpay Hrest s3 u'.
  assert (forall p p', staking_steps p p' -> in_step p.1 (eras p.2) /\ tidy p.2 -> in_step p'.1 (eras p'.2) /\ tidy p'.2) as Hinv.
  { intros p p' Hpp. induction Hpp as [|p p1 p' Hst Hpp IH]; [done|]. intros [Hin Ht]. apply IH. split;
      [by apply (step_in_step p)|by apply (step_tidy p)]. }
  assert (forall p p', staking_steps p p' -> in_step p.1 (eras p.2) -> claimed v e p.2 -> claimed v e p'.2) as Hcl.
  { intros p p' Hpp. induction Hpp as [|p p1 p' Hst Hpp IH]; [done|]. intros Hin Hc. apply IH;
      [by apply (step_in_step p)|by apply (step_claimed v e p)]. }
  destruct (Hinv _ _ Hrun) as [Hin [HL Hs]]; [split; [by apply genesis_in_step|by apply genesis_tidy]|]. cbn [fst snd] in *.
  apply claimed_refused. apply (Hcl _ _ Hrest); cbn [fst snd].
  - by rewrite (payout_eras _ _ _ _ _ _ Hpay).
  - by eapply payout_claims.
Qed.
End runs.

(** ** Witnesses *)
Module RunsWitness.
Import BondsWitness LedgerWitness SlashingWitness.
(** The state of the runtime are the locks: time stands still, rewards are paid nowhere. *)
#[export] Instance wera_host : EraHost (gmap Z Z) Z := {
  eh_deposit_creating _ v x := (x, v);
  eh_deposit_into_existing _ v x := Some (x, v);
  eh_on_reward _ x := x;
  eh_reward_remainder _ x := x;
  eh_unix_millis _ := 1000;
  eh_era_payout _ _ _ := (600, 400);
  eh_to_currency v _ := v;
  eh_from_rational p q := if q =? 0 then 0 else Z.max 0 (Z.min 1000000000 (p * 1000000000 / q));
  eh_prune_historical _ x := x;
}.
(** Account 1 is elected with its 500 and 300 of account 2. *)
Definition welect (is_genesis : bool) (s : Staking (gmap Z Z) Z) : gmap Z Z * option (Supports Z) :=
  (stk_rest s, Some [(1, [(1, 500); (2, 300)])]).
Definition staked : Staking (gmap Z Z) Z :=
  foldl (fun s oc => (dispatch wcfg wlookup wadmin oc.1 oc.2 s).1)
    (set_eras (mkEras None None [] ∅ 0 ∅ ∅ ∅ ∅ ∅ ∅ 0) genesis)
    [(Signed 1, CallBond 500 ToStash); (Signed 2, CallBond 300 ToStaked); (Signed 1, CallValidate (mkPrefs 0 false));
     (Signed 2, CallNominate [1])].
Lemma staked_no_eras : no_eras (eras staked).
Proof. repeat split; vm_compute; reflexivity. Qed.
Lemma staked_not_forcing : ForceEra (params staked) = NotForcing.
Proof. vm_compute. reflexivity. Qed.
Lemma staked_tidy : tidy staked.
Proof.
  assert (Bonded (stakes staked) = {[ 1 := 1; 2 := 2 ]}) as Hb by (vm_compute; reflexivity).
  assert (Ledger (stakes staked) = {[ 1 := mkLedger 1 500 500 [] []; 2 := mkLedger 2 300 300 [] [] ]}) as Hl
    by (vm_compute; reflexivity).
  split; [split|]; unfold claims_sorted, bonded, ledger; rewrite ?Hb, ?Hl.
  - intros a c. rewrite lookup_insert_Some, lookup_singleton_Some. intros [[<- <-]|[_ [<- <-]]].
    + exists (mkLedger 1 500 500 [] []). by rewrite lookup_insert_eq.
    + exists (mkLedger 2 300 300 [] []). by rewrite lookup_insert_ne, lookup_singleton_eq.
  - intros c l. rewrite lookup_insert_Some, lookup_singleton_Some. intros [[<- <-]|[_ [<- <-]]]; cbn.
    + by rewrite lookup_insert_eq.
    + by rewrite lookup_insert_ne, lookup_singleton_eq.
  - intros c l. rewrite lookup_insert_Some, lookup_singleton_Some. intros [[<- <-]|[_ [<- <-]]]; constructor.
Qed.

Abbreviation wsteps := (rtc (staking_step wcfg wlookup wadmin welect)).
Abbreviation start := (genesis_sessions wcfg welect staked).
(** [n] sessions. *)
Fixpoint sessions (n : nat) (s : Staking (gmap Z Z) Z) : Staking (gmap Z Z) Z :=
  match n with O => s | S n' => rotate_session wcfg welect (Z.of_nat n') (sessions n' s) end.
Lemma sessions_steps n s : Z.of_nat n + 4 <= U32_MAX -> wsteps (0, s) (Z.of_nat n, sessions n s).
Proof.
  induction n as [|n IH]; intros Hn; [apply rtc_refl|]. eapply rtc_r; [apply IH; lia|].
  replace (Z.of_nat (S n)) with (Z.of_nat n + 1) by lia. apply step_rotate. lia.
Qed.
Lemma run_steps n s : Z.of_nat n + 4 <= U32_MAX ->
  wsteps (0, s) (Z.of_nat n, sessions n (on_finalize (reward_by_ids [(1, 20)] s))).
Proof.
  intros Hn. eapply rtc_l; [apply (step_points _ _ _ _ 0 s [(1, 20)])|]. eapply rtc_l; [apply step_finalize|].
  by apply sessions_steps.
Qed.
(** After nine sessions era 1 is active and era 0 can be rewarded. *)
Abbreviation rewardable := (sessions 9 (on_finalize (reward_by_ids [(1, 20)] start))).
Example rewardable_eras : CurrentEra (eras rewardable) = Some 1 /\ ActiveEra (eras rewardable) = Some (mkActiveEra 1 None) /\
  ErasValidatorReward (eras rewardable) = {[ 0 := 600 ]} /\ BondedEras (eras rewardable) = [(0, 0); (1, 6)].
Proof. repeat split; vm_compute; reflexivity. Qed.
Definition paid := (payout_stakers wcfg (Signed 9) 1 0 rewardable).1.
Lemma paid_eq : payout_stakers wcfg (Signed 9) 1 0 rewardable = (paid, Ok tt).
Proof. vm_compute. reflexivity. Qed.
(** The 600 of the era: 375 for the validator's own 500 and 225 for the nominator's 300,
    who stakes them. *)
Example paid_ledger : ledger paid 2 = Some (mkLedger 2 525 525 [] []).
Proof. vm_compute. reflexivity. Qed.

Lemma eras_stay_in_step_witness : in_step wcfg 9 (eras rewardable).
Proof.
  apply (eras_stay_in_step wcfg wlookup wadmin welect staked 9 rewardable);
    [done|unfold U32_MAX; cbn; lia|done|exact staked_no_eras|exact staked_not_forcing|].
  exact (run_steps 9 start ltac:(unfold U32_MAX; lia)).
Defined.
Lemma reward_paid_once_witness : payout_stakers wcfg (Signed 3) 1 0 paid <> (paid, Ok tt).
Proof.
  apply (reward_paid_once wcfg wlookup wadmin welect staked 9 rewardable (Signed 9) 1 0 paid tt 9 paid (Signed 3));
    [done|unfold U32_MAX; cbn; lia|done|exact staked_no_eras|exact staked_not_forcing|exact staked_tidy| |exact paid_eq|apply rtc_refl].
  exact (run_steps 9 start ltac:(unfold U32_MAX; lia)).
Defined.
End RunsWitness.
