(* ===== verification/StakingBondRuns.v ===== *)
(** * Bonds along the runs of the staking pallet

    Every entry point of the pallet that changes a ledger or a lock: the dispatched calls,
    the payout of rewards ([payout_stakers] with [make_payout] of
    [src/modules/staking/src/pallet/impls.rs], which adds to the ledger of those who stake
    their rewards), reported offences, and the rotation of sessions, which applies deferred
    slashes.  The theorem says that the bonds are sound in every state such runs reach. *)

From stdpp Require Import base gmap list strings.
From Stdlib Require Import ZArith Lia.
From S2P Require Import Prelude StakingLedger SlashingSpans Staking StakingBonds StakingSlashing StakingEras StakingRuns.

Local Open Scope Z_scope.

(** What the runtime promises about the staking lock during payouts and sessions, and about
    parts per billion. *)
Class EraHostLaws (X A : Type) `{StakingHost X A} `{EraHost X A} (locked : X -> A -> option Z) : Prop := {
  el_creating a v x b : locked (eh_deposit_creating a v x).1 b = locked x b;
  el_existing a v x x' i b : eh_deposit_into_existing a v x = Some (x', i) -> locked x' b = locked x b;
  el_reward v x b : locked (eh_on_reward v x) b = locked x b;
  el_remainder v x b : locked (eh_reward_remainder v x) b = locked x b;
  el_prune n x b : locked (eh_prune_historical n x) b = locked x b;
  el_perbill p v : 0 <= p <= 10 ^ 9 -> 0 <= v -> 0 <= sh_perbill_mul (X := X) (A := A) p v <= v;
  el_rational p q : 0 <= eh_from_rational (X := X) (A := A) p q <= 10 ^ 9;
}.

Section bond_runs.
Context {X A : Type} {eqA : EqDecision A} {countA : Countable A} {host : StakingHost X A} {prop : Proportion}.
Context {ehost : EraHost X A} {Source : Type}.
Context {locked : X -> A -> option Z} {laws : StakingHostLaws X A locked} {slaws : SlashHostLaws X A locked}.
Context {plaws : ProportionLaws} {elaws : EraHostLaws X A locked}.
Variable cfg : StakingConfig.
Variable lookup : Source -> res DispatchError A.
Variable admin : Origin A -> bool.
Variable elect : bool -> Staking X A -> X * option (Supports A).
Hypothesis chunks_max : 0 <= MaxUnlockingChunks cfg.
(** Elections lock nothing. *)
Hypothesis elect_locked : forall g s a, locked (elect g s).1 a = locked (stk_rest s) a.
Abbreviation St := (Staking X A).
Abbreviation bonds_kept := (bonds_kept (locked := locked)).
Abbreviation bonds_inv := (bonds_inv cfg (locked := locked)).
Implicit Types s : St.

(** Bonds that are sound, with slashes waiting that can be applied. *)
Definition sound s : Prop := bonds_inv s /\ queue_ok s.
(** Nothing of them changes. *)
Abbreviation waiting s := (UnappliedSlashes (slashes s)).
Definition still s s' : Prop := bonds_kept s s' /\ waiting s' = waiting s.
Lemma still_refl s : still s s.
Proof. done. Qed.
Lemma still_trans s1 s2 s3 : still s1 s2 -> still s2 s3 -> still s1 s3.
Proof. intros [H1 H2] [H3 H4]. split; [by eapply bonds_kept_trans|congruence]. Qed.
Lemma still_sound s s' : still s s' -> sound s -> sound s'.
Proof.
  intros [H1 H2] [H3 H4]. split; [by eapply bonds_inv_kept|]. intros e us. rewrite H2. apply H4.
Qed.
Lemma host_still f s : (forall a, locked (f (stk_rest s)) a = locked (stk_rest s) a) -> still s (on_host f s).
Proof. intros Hf. split; [by apply host_kept|done]. Qed.

(** ** Calls and the slashes that wait *)
Lemma remove_validator_slashes a s : slashes (do_remove_validator a s).1 = slashes s.
Proof. unfold do_remove_validator. by case_bool_decide. Qed.
Lemma remove_nominator_slashes a s : slashes (do_remove_nominator a s).1 = slashes s.
Proof. unfold do_remove_nominator. by case_bool_decide. Qed.
Lemma add_validator_slashes a p s : slashes (do_add_validator a p s) = slashes s.
Proof. unfold do_add_validator. by case_bool_decide. Qed.
Lemma add_nominator_slashes a n s : slashes (do_add_nominator a n s) = slashes s.
Proof. unfold do_add_nominator. by case_bool_decide. Qed.
Lemma refresh_voter_slashes a s : slashes (refresh_voter a s) = slashes s.
Proof. unfold refresh_voter. by destruct (sh_voter_contains _ _). Qed.
Lemma chill_stash_slashes a s : slashes (chill_stash a s) = slashes s.
Proof.
  unfold chill_stash. pose proof (remove_validator_slashes a s) as H1. destruct (do_remove_validator a s) as [s1 v].
  pose proof (remove_nominator_slashes a s1) as H2. destruct (do_remove_nominator a s1) as [s2 n]. cbn [fst] in *.
  by destruct (v || n); cbn; rewrite H2.
Qed.
Lemma kick_slashes a (ns : list A) s : slashes (foldl (fun s n => kick_one a n s) s ns) = slashes s.
Proof.
  revert s. induction ns as [|n ns IH]; intros s; [done|]. cbn [foldl]. rewrite IH.
  unfold kick_one. destruct (Nominators _ !! n); [|done]. by destruct (list_find _ _) as [[]|].
Qed.
Lemma kill_stash_waiting a n s s' u : kill_stash a n s = (s', Ok u) -> waiting s' = waiting s.
Proof.
  unfold kill_stash, clear_stash_metadata. intros Hr. run_inv. cbn [on_host slashes].
  rewrite remove_nominator_slashes, remove_validator_slashes. destruct (spans_of _ a); run_inv; done.
Qed.
Lemma do_withdraw_waiting c n s s' u : do_withdraw_unbonded c n s = (s', Ok u) -> waiting s' = waiting s.
Proof.
  unfold do_withdraw_unbonded, mwhen. intros Hr. run_inv.
  destruct (bool_decide _ && _); run_inv; destruct (_ <? _) in *; run_inv; cbn; try done; by eapply kill_stash_waiting.
Qed.
Lemma remove_indices_Forall {P : UnappliedSlash A -> Prop} ixs : forall n l, Forall P l -> Forall P (remove_indices n ixs l).
Proof.
  induction ixs as [|i ixs IH]; intros n l Hl; [done|]. cbn [remove_indices]. apply IH. by apply Forall_delete.
Qed.
Ltac waits :=
  cbn [emit update_ledger on_host set_stakes set_params set_ledgers set_payees set_bonded set_validators set_nominators
       set_validator_count_to set_force_era slashes];
  rewrite ?refresh_voter_slashes, ?add_validator_slashes, ?add_nominator_slashes, ?remove_validator_slashes,
    ?remove_nominator_slashes, ?chill_stash_slashes, ?kick_slashes; cbn; try done.
Lemma call_queue o (c : Call A Source) s s' u : queue_ok s -> call_body cfg lookup admin o c s = (s', Ok u) -> queue_ok s'.
Proof.
  intros Hq Hr. destruct c; cbn [call_body] in Hr;
    [unfold bond in Hr|unfold bond_extra in Hr|unfold unbond in Hr
    |unfold withdraw_unbonded in Hr|unfold rebond in Hr
    |unfold validate in Hr|unfold nominate in Hr|unfold kick in Hr|unfold chill in Hr|unfold set_payee in Hr
    |unfold set_controller in Hr
    |unfold set_validator_count in Hr|unfold increase_validator_count in Hr|unfold scale_validator_count in Hr
    |unfold force_no_eras in Hr|unfold force_new_era in Hr|unfold force_new_era_always in Hr|unfold set_invulnerables in Hr
    |unfold force_unstake in Hr|unfold reap_stash in Hr
    | |unfold set_min_commission in Hr|unfold set_staking_configs in Hr
    |unfold chill_other in Hr|unfold force_apply_min_commission in Hr].
  21: { unfold cancel_deferred_slash in Hr. run_inv. intros e us. cbn. rewrite lookup_insert. case_decide as Hd.
        - intros [= <-]. apply remove_indices_Forall. by apply queue_ok_at.
        - apply Hq. }
  all: assert (waiting s' = waiting s) as Hw; [|intros e us; rewrite Hw; apply Hq].
  all: run_inv; repeat match goal with
    | Hm : do_withdraw_unbonded _ _ _ = _ |- _ => apply do_withdraw_waiting in Hm
    | Hm : kill_stash _ _ _ = _ |- _ => apply kill_stash_waiting in Hm
    | Hm : (if _ then _ else _) _ = (_, Ok _) |- _ => destruct (bool_decide _) in Hm; run_inv
    | Hm : (if ?b then _ else _) _ = (_, Ok _) |- _ => destruct b; run_inv
    | Hm : match ?x with Some _ => _ | None => _ end _ = (_, Ok _) |- _ => destruct x; run_inv
    | Hm : (let '(_, _) := ?p in _) _ = (_, Ok _) |- _ => destruct p; run_inv
    end; waits; try (by case_match); congruence.
Qed.
Lemma dispatch_sound o (c : Call A Source) s : call_wf c -> sound s -> sound (dispatch cfg lookup admin o c s).1.
Proof using chunks_max laws.
  intros Hc [Hi Hq]. split; [by apply dispatch_inv|]. unfold dispatch, transactional.
  destruct (call_body cfg lookup admin o c s) as [s' [u|e|]] eqn:Er; cbn [fst]; [by eapply call_queue|done..].
Qed.

(** ** Payouts *)
(** What the ledgers hold at most. *)
Definition totals_below (m : Z) s : Prop := forall c l, ledger s c = Some l -> ledger_total l <= m.
Lemma still_totals m s s' : still s s' -> totals_below m s -> totals_below m s'.
Proof. intros [[_ Hl _] _] Hm c l. unfold ledger. rewrite Hl. apply Hm. Qed.
Lemma emit_still e s : still s (emit e s).
Proof. done. Qed.

Lemma make_payout_sound who amount m s : sound s -> totals_below m s -> 0 <= amount -> m + amount <= U128_MAX ->
  sound (make_payout who amount s).1 /\ totals_below (m + amount) (make_payout who amount s).1.
Proof using laws elaws.
  intros Hs Hm Ha Hmax.
  assert (forall s', still s s' -> sound s' /\ totals_below (m + amount) s') as Hst.
  { intros s' Hst. split; [by eapply still_sound|]. intros c l Hl. pose proof (still_totals _ _ _ Hst Hm c l Hl). lia. }
  assert (forall a x i, eh_deposit_into_existing a amount (stk_rest s) = Some (x, i) -> still s (on_host (fun _ => x) s)) as Hex
    by (intros a x i He; apply host_still; intros b; by eapply el_existing).
  assert (forall a x i, eh_deposit_creating a amount (stk_rest s) = (x, i) -> still s (on_host (fun _ => x) s)) as Hcr
    by (intros a x i He; apply host_still; intros b; rewrite <- (el_creating a amount (stk_rest s) b); by rewrite He).
  unfold make_payout. destruct (default _ _).
  - destruct (bonded s who) as [c|] eqn:Eb; [|by apply Hst]. destruct (ledger s c) as [l|] eqn:El; [|by apply Hst].
    set (l' := mkLedger _ _ _ _ _).
    assert (exists s1 r, still s s1 /\ match eh_deposit_into_existing who amount (stk_rest s) with
        | Some (x, i) => (on_host (fun _ => x) s, Some i) | None => (s, None) end = (s1, r)) as (s1 & r & H1 & ->).
    { destruct (eh_deposit_into_existing who amount (stk_rest s)) as [[x i]|] eqn:E; eexists _, _; split; [by eapply Hex|done|apply still_refl|done]. }
    cbn [fst]. destruct (Hst s1 H1) as [[Hi1 Hq1] Hm1]. assert (ledger s1 c = Some l) as El1
      by (destruct H1 as [[_ Hl _] _]; unfold ledger in *; by rewrite Hl).
    pose proof (bi_ledgers _ _ Hi1 c l El1) as [[Hok1 Hok2 Hok3 Hok4] _ Hlen _]. pose proof (Hm c l El).
    pose proof (chunks_sum_nonneg (unlocking l) Hok2) as Hu. fold (unlocking_sum l) in Hu.
    assert (ledger_total l' = ledger_total l + amount /\ active l' = active l + amount) as [Ht' Ha'].
    { unfold l'. cbn [ledger_total active]. unfold wrap_add. rewrite !wrap_small by (unfold in_u; lia). done. }
    split; [split; [|done]|].
    + apply (update_ledger_inv cfg c l); [done|done|done| |done]. split; [lia|done| |lia].
      rewrite Ht', Ha', Hok3. change (unlocking_sum l') with (unlocking_sum l). lia.
    + intros c' k. unfold ledger, update_ledger. cbn. rewrite lookup_insert. case_decide; [intros [= <-]; lia|].
      intros Hk. apply (Hm1 c' k Hk).
  - destruct (eh_deposit_into_existing who amount (stk_rest s)) as [[x i]|] eqn:E; apply Hst; [by eapply Hex|apply still_refl].
  - destruct (bonded s who) as [c|]; [|by apply Hst].
    destruct (eh_deposit_creating c amount (stk_rest s)) as [x i] eqn:E. by eapply Hst, Hcr.
  - destruct (eh_deposit_creating _ amount (stk_rest s)) as [x i] eqn:E. by eapply Hst, Hcr.
  - by apply Hst.
Qed.
Lemma pay_staker_sound who amount t m s : sound s -> totals_below m s -> 0 <= amount -> m + amount <= U128_MAX ->
  sound (pay_staker who amount t s).1 /\ totals_below (m + amount) (pay_staker who amount t s).1.
Proof using laws elaws.
  intros Hs Hm Ha Hmax. unfold pay_staker. destruct (make_payout_sound who amount m s Hs Hm Ha Hmax) as [H1 H2].
  destruct (make_payout who amount s) as [s1 [i|]]; cbn [fst] in *; [|done].
  split; [by eapply still_sound; [apply emit_still|]|by eapply still_totals; [apply emit_still|]].
Qed.
Lemma pay_nominators_sound leftover total others m : forall t s, sound s -> totals_below m s -> 0 <= leftover ->
  m + Z.of_nat (length others) * leftover <= U128_MAX -> sound (pay_nominators leftover total others t s).1.
Proof using laws elaws.
  revert m. induction others as [|n others IH]; intros m t s Hs Hm Hl Hmax; [done|]. cbn [pay_nominators length] in *.
  set (amount := sh_perbill_mul _ _).
  assert (0 <= amount <= leftover) as Ha by (apply el_perbill; [apply el_rational|done]).
  destruct (pay_staker_sound (ie_who n) amount t m s Hs Hm) as [H1 H2]; [lia|nia|].
  destruct (pay_staker (ie_who n) amount t s) as [s1 t1]. cbn [fst] in *. apply (IH (m + amount)); [done|done|done|nia].
Qed.
(** The rewards of the era fit the ledgers: a payout of all of them to each of those behind
    the validator would not overflow; the commission is one part of a whole at most. *)
Record payout_room (who : A) (era : Z) s : Prop := {
  pr_commission : 0 <= commission (default default_prefs (ErasValidatorPrefs (eras s) !! (era, who))) <= 10 ^ 9;
  pr_room p : ErasValidatorReward (eras s) !! era = Some p -> 0 <= p /\ forall c l, ledger s c = Some l ->
    ledger_total l +
      (1 + Z.of_nat (length (ex_others (default default_exposure (ErasStakersClipped (eras s) !! (era, who)))))) * p <= U128_MAX;
}.
Lemma payout_rewards_sound who era p m s : sound s -> totals_below m s -> 0 <= p <= U128_MAX ->
  0 <= commission (default default_prefs (ErasValidatorPrefs (eras s) !! (era, who))) <= 10 ^ 9 ->
  m + (1 + Z.of_nat (length (ex_others (default default_exposure (ErasStakersClipped (eras s) !! (era, who)))))) * p <= U128_MAX ->
  sound (payout_rewards who who era p s).
Proof using laws elaws.
  intros Hs Hm Hp Hc Hmax. unfold payout_rewards. destruct (_ =? 0); [done|]. cbv zeta.
  set (exposure := default default_exposure _) in *. set (prefs := default default_prefs _) in *.
  set (total := validator_total_payout _ _ _).
  assert (0 <= total <= p) as Ht by (apply el_perbill; [apply el_rational|lia]).
  pose proof (el_perbill (X := X) (A := A) (commission prefs) total Hc ltac:(lia)) as Hcp.
  set (cp := sh_perbill_mul (commission prefs) total) in *.
  assert (wrap_sub U128_MAX total cp = total - cp) as -> by (unfold wrap_sub; apply wrap_small; unfold in_u; nia).
  set (part := sh_perbill_mul _ (total - cp)).
  assert (0 <= part <= total - cp) as Hpart by (apply el_perbill; [apply el_rational|lia]).
  assert (add128 part cp = part + cp) as -> by (unfold wrap_add; apply wrap_small; unfold in_u; nia).
  set (s0 := emit _ s). assert (still s s0) as H0 by apply emit_still.
  destruct (pay_staker_sound who (part + cp) 0 m s0) as [H1 H2];
    [by eapply still_sound|by eapply still_totals|lia|nia|].
  destruct (pay_staker who (part + cp) 0 s0) as [s1 t1]. cbn [fst] in *.
  pose proof (pay_nominators_sound (total - cp) (ex_total exposure) (ex_others exposure) (m + (part + cp)) t1 s1 H1 H2 ltac:(lia)) as H3.
  destruct (pay_nominators _ _ _ t1 s1) as [s2 t2]. cbn [fst] in *.
  eapply still_sound; [|apply H3; nia]. apply host_still. intros a. apply el_reward.
Qed.
Lemma set_claims_inv c l claims s : bonds_inv s -> ledger s c = Some l ->
  bonds_inv (set_ledgers (<[c := mkLedger (stash l) (ledger_total l) (active l) (unlocking l) claims]> (Ledger (stakes s))) s).
Proof.
  intros [H1 H2 H3] Hl. split; [| |exact H3]; unfold ledger, bonded in *; cbn [set_ledgers set_stakes stakes Ledger Bonded].
  - intros c' k. rewrite lookup_insert. case_decide as Hd; [intros [= <-]; subst c'|intros Hk].
    + destruct (H1 c l Hl) as [[? ? ? ?] ? ? ?]. split; [by split|done..].
    + destruct (H1 c' k Hk). by split.
  - intros a c' Ha. destruct (H2 a c' Ha) as (k & Hk & Hs). rewrite lookup_insert.
    case_decide as Hd; [subst c'|by exists k]. eexists. split; [done|]. cbn. congruence.
Qed.
Lemma payout_sound o v e s : payout_room v e s -> sound s -> sound (transactional (payout_stakers cfg o v e) s).1.
Proof using laws elaws.
  intros [Hc Hroom] [Hi Hq]. unfold transactional. destruct (payout_stakers cfg o v e s) as [s' [u|er|]] eqn:Er; [|done..].
  cbn [fst]. unfold payout_stakers, do_payout_stakers in Er. run_inv.
  match goal with Hb : bonded s v = Some ?c, Hl : ledger s ?c = Some ?l |- _ =>
    destruct (bi_bonded _ _ Hi v c Hb) as (l0 & Hl0 & Hv); rewrite Hl in Hl0; injection Hl0 as <-; rewrite Hv;
    pose proof (bi_ledgers _ _ Hi c l Hl) as [[Ha Hch Ht Hmx] _ _ _]; pose proof (chunks_sum_nonneg _ Hch) as Hsum;
    rename Hl into Hled; rename c into ctl; rename l into led end.
  match goal with Hp : ErasValidatorReward (eras s) !! e = Some ?p |- _ => destruct (Hroom p Hp) as [Hp0 Hr]; rename p into pay end.
  pose proof (Hr ctl led Hled) as Hr0. fold (unlocking_sum led) in Hsum.
  set (k := 1 + Z.of_nat (length (ex_others (default default_exposure (ErasStakersClipped (eras s) !! (e, v)))))) in *.
  apply (payout_rewards_sound v e pay (U128_MAX - k * pay)).
  - split; [by rewrite <- Hv; apply set_claims_inv|done].
  - intros c l. unfold ledger. cbn. rewrite lookup_insert. case_decide; [intros [= <-]; cbn; lia|].
    intros Hl. specialize (Hr c l Hl). lia.
  - split; [done|]. assert (1 * pay <= k * pay) by (apply Z.mul_le_mono_nonneg_r; lia). lia.
  - exact Hc.
  - cbn [eras set_ledgers set_stakes]. fold k. lia.
Qed.

(** ** Sessions *)
(** Only the eras change. *)
Lemma eras_still s s' : stakes s' = stakes s -> waiting s' = waiting s -> stk_rest s' = stk_rest s -> still s s'.
Proof. intros H1 H2 H3. split; [split|done]; by rewrite ?H1, ?H3. Qed.
Lemma end_session_still i s : still s (end_session i s).
Proof using elaws.
  unfold end_session, end_era. destruct (ActiveEra (eras s)) as [info|]; [|done]. destruct (_ !! _); [|done].
  destruct (_ =? _); [|done]. destruct (ai_start info); [|done]. destruct (eh_era_payout _ _ _) as [vp rm].
  split; [split|]; [done|done| |done]. intros a. apply el_remainder.
Qed.
Lemma clear_metadata_still (l : list (Z * Z)) s : still s (foldl (fun s e => clear_era_metadata e.1 s) s l).
Proof. revert s. induction l as [|x l IH]; intros s; [done|]. cbn [foldl]. by eapply still_trans; [|apply IH]. Qed.
Lemma start_era_sound st s : sound s -> sound (start_era cfg st s).
Proof using laws slaws plaws elaws.
  intros Hs. unfold start_era. cbv zeta. match goal with |- sound (apply_unapplied_slashes cfg ?a ?m) => assert (sound m) as [Hi Hq] end.
  { eapply still_sound; [|exact Hs]. destruct (_ <? _); [|done].
    match goal with |- context [foldl _ ?t ?l] => pose proof (clear_metadata_still l t) as Hc; set (m0 := foldl _ t l) in * end.
    assert (still s m0) as H0 by (eapply still_trans; [|exact Hc]; done).
    destruct (drop _ _) as [|[x y] b']; (eapply still_trans; [exact H0|]); [done|].
    split; [split|]; [done|done| |done]. intros a. apply el_prune. }
  split; by apply apply_unapplied_inv.
Qed.
Lemma disable_still (l : list (Z * bool)) s :
  still s (foldl (fun s o => if o.2 : bool then on_host (sh_disable_validator o.1) s else s) s l).
Proof using slaws.
  revert s. induction l as [|[n b] l IH]; intros s; [done|]. cbn [foldl]. eapply still_trans; [|apply IH].
  destruct b; [|done]. apply host_still. intros a. apply sl_disable.
Qed.
Lemma start_session_sound n s : sound s -> sound (start_session cfg n s).
Proof using laws slaws plaws elaws.
  intros Hs. unfold start_session. eapply still_sound; [apply disable_still|].
  destruct (_ !! _) as [next|]; [|done]. destruct (_ =? _); [by apply start_era_sound|].
  destruct (_ <? _); [by apply start_era_sound|done].
Qed.
Lemma store_exposures_still era l : forall s t, still s (foldl (store_exposure cfg era) (s, t) l).1.
Proof.
  induction l as [|[who e] l IH]; intros s t; [done|]. cbn [foldl]. by eapply still_trans; [|apply IH].
Qed.
Lemma store_prefs_still era l : forall s, still s (foldl (store_prefs era) s l).
Proof. induction l as [|who l IH]; intros s; [done|]. cbn [foldl]. by eapply still_trans; [|apply IH]. Qed.
Lemma trigger_new_era_still st exposures s : still s (trigger_new_era cfg st exposures s).1.
Proof.
  unfold trigger_new_era. cbv zeta. match goal with |- still s (store_stakers_info cfg exposures ?n ?m).1 => assert (still s m) as H0 end.
  { by destruct (checked_sub _ _). }
  eapply still_trans; [exact H0|]. unfold store_stakers_info.
  match goal with |- context [foldl (store_exposure cfg ?n) (?m, 0) exposures] =>
    pose proof (store_exposures_still n exposures m 0) as H1; destruct (foldl (store_exposure cfg n) (m, 0) exposures) as [s1 t] end.
  cbn [fst] in *. eapply still_trans; [exact H1|]. by eapply still_trans; [|apply store_prefs_still].
Qed.
Lemma try_trigger_still n g s : still s (try_trigger_new_era cfg elect n g s).1.
Proof using elect_locked.
  unfold try_trigger_new_era. pose proof (elect_locked g s) as He. destruct (elect g s) as [x r]. cbn [fst] in He.
  assert (still s (on_host (fun _ => x) s)) as H0 by by apply host_still.
  destruct r as [sup|]; [|eapply still_trans; [exact H0|apply emit_still]]. destruct (_ <? _).
  - eapply still_trans; [exact H0|]. by destruct (CurrentEra (eras _)).
  - match goal with |- context [trigger_new_era cfg n ?e ?m] => pose proof (trigger_new_era_still n e m) as H1;
      destruct (trigger_new_era cfg n e m) as [s1 el] end.
    cbn [fst] in *. eapply still_trans; [exact H0|]. by eapply still_trans; [|exact H1].
Qed.
Lemma new_session_still g n s : still s (new_session cfg elect g n s).1.
Proof using elect_locked.
  unfold new_session, new_session_era. set (s1 := set_planned n s). assert (still s s1) as H0 by done.
  eapply still_trans; [exact H0|]. pose proof (try_trigger_still n g s1) as H1.
  destruct (CurrentEra (eras s1)) as [c|]; [|exact H1].
  match goal with |- context [if ?b then _ else (s1, None)] => destruct b; [|done] end.
  destruct (try_trigger_new_era cfg elect n g s1) as [s2 vs]. cbn [fst] in *.
  destruct (_ && _); [by eapply still_trans; [exact H1|]|done].
Qed.
Lemma rotate_sound i s : sound s -> sound (rotate_session cfg elect i s).
Proof using laws slaws plaws elaws elect_locked.
  intros Hs. unfold rotate_session. eapply still_sound; [apply new_session_still|]. apply start_session_sound.
  by eapply still_sound; [apply end_session_still|].
Qed.
Lemma genesis_sessions_sound s : sound s -> sound (genesis_sessions cfg elect s).
Proof using laws slaws plaws elaws elect_locked.
  intros Hs. unfold genesis_sessions. apply start_session_sound. eapply still_sound; [apply new_session_still|].
  by eapply still_sound; [apply new_session_still|].
Qed.
Lemma points_still vps s : still s (reward_by_ids vps s).
Proof. unfold reward_by_ids. by destruct (ActiveEra (eras s)). Qed.
Lemma finalize_still s : still s (on_finalize s).
Proof. unfold on_finalize. by destruct (ActiveEra (eras s)) as [[i [t|]]|]. Qed.

(** ** Runs *)
(** The steps of the pallet with amounts that are balances, and with rewards that fit. *)
Inductive ranged_step : Z * St -> Z * St -> Prop :=
| ranged_call i s o (c : Call A Source) : call_wf c -> ranged_step (i, s) (i, (dispatch cfg lookup admin o c s).1)
| ranged_payout i s o v e : payout_room v e s -> ranged_step (i, s) (i, (transactional (payout_stakers cfg o v e) s).1)
| ranged_offence i s os fs n d : ranged_step (i, s) (i, on_offence cfg os fs n d s)
| ranged_points i s vps : ranged_step (i, s) (i, reward_by_ids vps s)
| ranged_finalize i s : ranged_step (i, s) (i, on_finalize s)
| ranged_rotate i s : i + 4 <= U32_MAX -> ranged_step (i, s) (i + 1, rotate_session cfg elect i s).
Lemma ranged_is_step p p' : ranged_step p p' -> staking_step cfg lookup admin elect p p'.
Proof. destruct 1; by constructor. Qed.
Lemma ranged_sound p p' : ranged_step p p' -> sound p.2 -> sound p'.2.
Proof using laws slaws plaws elaws elect_locked chunks_max.
  intros Hst Hs. destruct Hst; cbn [snd] in *.
  - by apply dispatch_sound.
  - by apply payout_sound.
  - destruct Hs. split; by apply on_offence_inv.
  - by eapply still_sound; [apply points_still|].
  - by eapply still_sound; [apply finalize_still|].
  - by apply rotate_sound.
Qed.

(** C18. Bonds stay sound.  Whatever the pallet does, in whatever order: calls dispatched by
    anyone, whether they succeed or fail, payouts that add rewards to the ledgers of those
    who stake them, reports of offences, and sessions and eras that come and go and apply
    the slashes that waited.  From the genesis on, every ledger is the sum of its active
    amount and its unlocking chunks, has no more chunks than allowed, and belongs to the one
    stash whose bond names its controller; every bonded stash has such a ledger; the balance
    locked on a stash is the total of its ledger, and an account that is not bonded has
    nothing locked.  The amounts of calls are balances, and the ledgers have room for the
    rewards of an era at the time they are paid. *)
Theorem bonds_stay_sound s0 i s :
  bonds_inv s0 -> queue_ok s0 -> rtc ranged_step (0, genesis_sessions cfg elect s0) (i, s) -> bonds_inv s.
Proof using laws slaws plaws elaws elect_locked chunks_max.
  intros Hi Hq Hrun. assert (sound (0, genesis_sessions cfg elect s0).2) as H0 by by apply genesis_sessions_sound.
  revert Hrun H0. generalize (0, genesis_sessions cfg elect s0). intros p Hrun Hp.
  enough (sound (i, s).2) by apply H. induction Hrun as [|p p' p'' Hst _ IH]; [done|]. by eapply IH, ranged_sound.
Qed.
End bond_runs.

(** ** Witness *)
Module BondRunsWitness.
Import BondsWitness LedgerWitness SlashingWitness RunsWitness.
#[export] Instance wera_laws : EraHostLaws (gmap Z Z) Z (fun x a => x !! a).
Proof.
  split; try done; cbn.
  - by intros a v x x' i b [= <- <-].
  - intros p v Hp Hv. split; [apply Z.div_pos; nia|apply Z.div_le_upper_bound; nia].
  - intros p q. destruct (q =? 0); lia.
Qed.
Lemma welect_locked g (s : Staking (gmap Z Z) Z) a : (welect g s).1 !! a = stk_rest s !! a.
Proof. done. Qed.
Lemma staked_inv : winv staked.
Proof.
  unfold staked. cbn [foldl fst snd]. do 4 (apply dispatch_inv; [done|by cbn; unfold in_u, U128_MAX; lia|]). by split.
Qed.
Lemma staked_queue : queue_ok staked.
Proof.
  assert (UnappliedSlashes (slashes staked) = ∅) as Hw by (vm_compute; reflexivity).
  intros e us. by rewrite Hw, lookup_empty.
Qed.
Abbreviation wranged := (ranged_step wcfg wlookup wadmin welect).
Lemma sessions_ranged n s : Z.of_nat n + 4 <= U32_MAX -> rtc wranged (0, s) (Z.of_nat n, sessions n s).
Proof.
  induction n as [|n IH]; intros Hn; [apply rtc_refl|]. eapply rtc_r; [apply IH; lia|].
  replace (Z.of_nat (S n)) with (Z.of_nat n + 1) by lia. apply ranged_rotate. lia.
Qed.
Lemma rewardable_room : payout_room 1 0 rewardable.
Proof.
  assert (ErasValidatorReward (eras rewardable) = {[ 0 := 600 ]}) as Hr by (vm_compute; reflexivity).
  assert (Ledger (stakes rewardable) = {[ 1 := mkLedger 1 500 500 [] []; 2 := mkLedger 2 300 300 [] [] ]}) as Hl
    by (vm_compute; reflexivity).
  assert (ErasStakersClipped (eras rewardable) !! (0, 1) = Some (mkExposure 800 500 [mkIndividual 2 300])) as He
    by (vm_compute; reflexivity).
  split; [vm_compute; split; discriminate|]. intros p. rewrite Hr, lookup_singleton_Some. intros [_ <-]. split; [done|].
  intros c l. unfold ledger. rewrite Hl, He, lookup_insert_Some, lookup_singleton_Some.
  intros [[<- <-]|[_ [<- <-]]]; vm_compute; discriminate.
Qed.
Abbreviation after_payout := (transactional (payout_stakers wcfg (Signed 9) 1 0) rewardable).1.
Lemma payout_run : rtc wranged (0, start) (9, after_payout).
Proof.
  eapply rtc_r; [|apply ranged_payout, rewardable_room].
  eapply rtc_l; [apply (ranged_points _ _ _ _ 0 start [(1, 20)])|]. eapply rtc_l; [apply ranged_finalize|].
  exact (sessions_ranged 9 _ ltac:(unfold U32_MAX; lia)).
Qed.
(** After a payout in which account 2 stakes its 225, they are in its ledger and locked. *)
Lemma bonds_stay_sound_witness :
  winv after_payout /\ ledger after_payout 2 = Some (mkLedger 2 525 525 [] []) /\ stk_rest after_payout !! 2 = Some 525.
Proof.
  split; [|split; vm_compute; reflexivity].
  exact (bonds_stay_sound wcfg wlookup wadmin welect ltac:(done) welect_locked staked 9 after_payout
           staked_inv staked_queue payout_run).
Defined.
End BondRunsWitness.
