(* ===== verification/StakingRoles.v ===== *)
(** * Roles, the data of elections and the staking interface

    Models, from [src/modules/staking/src/pallet/impls.rs], what the staking pallet gives to
    an election ([ElectionDataProvider]) and to other pallets ([StakingInterface]), its own
    consistency checks ([do_try_state]), and the genesis of
    [src/modules/staking/src/pallet/mod.rs].  Theorems: who has a role and who is in the
    list of voters, what a snapshot of voters holds, and that the pallet's own check of
    ledgers passes.

    The lists of voters and targets are parameters, as is what the session pallet says
    about its next session. *)

From stdpp Require Import base gmap list strings.
From Stdlib Require Import ZArith Lia.
From S2P Require Import Prelude StakingLedger SlashingSpans Staking StakingBonds.

Local Open Scope Z_scope.

Inductive StakerStatus (A : Type) : Type := StakerIdle | StakerValidator | StakerNominator (targets : list A).
Arguments StakerIdle {A}. Arguments StakerValidator {A}. Arguments StakerNominator {A}.

Section provider.
Context {X A : Type} {eqA : EqDecision A} {countA : Countable A} {host : StakingHost X A}.
Variable cfg : StakingConfig.
Abbreviation St := (Staking X A).
Abbreviation MS := (M St DispatchError).
Implicit Types s : St.

(** ** Snapshots for elections *)
Section snapshots.
(** [VoterList] and [TargetList]: their elements in order, and their counts. *)
Variables (voter_list target_list : St -> list A) (voter_count target_count : St -> Z).

Definition NPOS_MAX_ITERATIONS_COEFFICIENT : Z := 2.
Definition set_min_active v s : St := let e := eras s in
  mkStaking (stakes s) (params s) (mkEras (CurrentEra e) (ActiveEra e) (BondedEras e) (ErasStartSessionIndex e)
    (CurrentPlannedSession e) (ErasStakers e) (ErasStakersClipped e) (ErasValidatorPrefs e) (ErasValidatorReward e)
    (ErasRewardPoints e) (ErasTotalStake e) v) (slashes s) (stk_events s) (stk_rest s).

Abbreviation Voter := (A * Z * list A)%type.
(** The loop over the sorted voters. *)
Fixpoint voters_loop s (max_allowed_len : Z) (sorted : list A) (voters_seen : Z) (all_voters : list Voter)
    (min_active_stake : Z) : list Voter * Z :=
  match sorted with
  | [] => (all_voters, min_active_stake)
  | voter :: sorted' =>
      if (Z.of_nat (length all_voters) <? max_allowed_len) &&
         (voters_seen <? wrap U32_MAX (NPOS_MAX_ITERATIONS_COEFFICIENT * wrap U32_MAX max_allowed_len))
      then
        let voters_seen := sat_add U32_MAX voters_seen 1 in
        match Nominators (stakes s) !! voter with
        | Some n =>
            let voter_weight := weight_of s voter in
            let all_voters := if bool_decide (targets n = []) then all_voters
                              else all_voters ++ [(voter, voter_weight, targets n)] in
            let min_active_stake := if voter_weight <? min_active_stake then voter_weight else min_active_stake in
            voters_loop s max_allowed_len sorted' voters_seen all_voters min_active_stake
        | None =>
            let all_voters := if bool_decide (is_Some (Validators (stakes s) !! voter))
                              then all_voters ++ [(voter, weight_of s voter, [voter])] else all_voters in
            voters_loop s max_allowed_len sorted' voters_seen all_voters min_active_stake
        end
      else (all_voters, min_active_stake)
  end.
Definition get_npos_voters (maybe_max_len : option Z) s : St * list Voter :=
  let all_voter_count := voter_count s in
  let max_allowed_len := Z.min (default all_voter_count maybe_max_len) all_voter_count in
  let '(all_voters, min_active_stake) := voters_loop s max_allowed_len (voter_list s) 0 [] U64_MAX in
  (set_min_active (if bool_decide (all_voters = []) then 0 else min_active_stake) s, all_voters).

Fixpoint targets_loop s (max_allowed_len : Z) (l : list A) (targets_seen : Z) (all_targets : list A) : list A :=
  match l with
  | [] => all_targets
  | target :: l' =>
      if (Z.of_nat (length all_targets) <? max_allowed_len) &&
         (targets_seen <? wrap U32_MAX (NPOS_MAX_ITERATIONS_COEFFICIENT * wrap U32_MAX max_allowed_len))
      then targets_loop s max_allowed_len l' (sat_add U32_MAX targets_seen 1)
             (if bool_decide (is_Some (Validators (stakes s) !! target)) then all_targets ++ [target] else all_targets)
      else all_targets
  end.
Definition get_npos_targets (maybe_max_len : option Z) s : list A :=
  targets_loop s (default (target_count s) maybe_max_len) (target_list s) 0 [].

(** [ElectionDataProvider]. *)
Definition desired_targets s : Z := ValidatorCount (params s).
Definition electing_voters (maybe_max_len : option Z) s : St * list Voter := get_npos_voters maybe_max_len s.
Definition electable_targets (maybe_max_len : option Z) s : res string (list A) :=
  if match maybe_max_len with Some max_len => wrap U32_MAX max_len <? target_count s | None => false end
  then Err "Target snapshot too big" else Ok (get_npos_targets None s).
(** [estimate] is [NextNewSession::estimate_next_new_session], blocks are [u32]. *)
Definition next_election_prediction (estimate : Z -> option Z) (session_length now : Z) s : Z :=
  let current_era := default 0 (CurrentEra (eras s)) in
  let start := default 0 (ErasStartSessionIndex (eras s) !! current_era) in
  let era_progress := Z.min (sat_sub (CurrentPlannedSession (eras s)) start) (SessionsPerEra cfg) in
  let until_this_session_end := sat_sub (default 0 (estimate now)) now in
  let sessions_left :=
    match ForceEra (params s) with
    | ForceNone => U32_MAX
    | ForceNew | ForceAlways => 0
    | NotForcing => if SessionsPerEra cfg <=? era_progress then 0
                    else sat_sub (sat_sub (SessionsPerEra cfg) era_progress) 1
    end in
  sat_add U32_MAX now (sat_add U32_MAX until_this_session_end (sat_mul U32_MAX sessions_left session_length)).
End snapshots.

(** ** [StakingInterface] *)
Definition si_spans s (who : A) : Z := match spans_of s who with Some sp => Z.of_nat (length (spans_iter sp)) | None => 0 end.
Definition si_force_unstake (who : A) : MS unit := let! s := mget in force_unstake Root who (si_spans s who).
Definition stash_by_ctrl (controller : A) s : res DispatchError A :=
  match ledger s controller with Some l => Ok (stash l) | None => Err (stk_err StakingError.NotController) end.
Definition is_exposed_in_era (who : A) (era : Z) s : bool :=
  existsb (fun kv => bool_decide (kv.1.1 = era) &&
    (bool_decide (kv.1.2 = who) || existsb (fun i => bool_decide (ie_who i = who)) (ex_others kv.2)))
    (map_to_list (ErasStakers (eras s))).
Definition stake (who : A) s : res DispatchError (Z * Z) :=
  match bonded s who ≫= ledger s with
  | Some l => Ok (ledger_total l, active l)
  | None => Err (stk_err StakingError.NotStash)
  end.
Definition si_controller (who : A) : MS A := let! s := mget in mlift (ok_or (bonded s who) (stk_err StakingError.NotStash)).
Definition si_bond_extra (who : A) (extra : Z) : MS unit := bond_extra (Signed who) extra.
Definition si_unbond (who : A) (value : Z) : MS unit := let! ctrl := si_controller who in unbond cfg (Signed ctrl) value.
Definition si_chill (who : A) : MS unit := let! ctrl := si_controller who in chill (Signed ctrl).
Definition si_withdraw_unbonded (who : A) (num_slashing_spans : Z) : MS bool :=
  let! ctrl := si_controller who in
  do! withdraw_unbonded (Signed ctrl) num_slashing_spans in
  let! s := mget in
  ret (negb (bool_decide (is_Some (ledger s ctrl)))).
Definition si_bond (who : A) (value : Z) (payee : A) : MS unit := bond cfg (Signed who) value (ToAccount payee).
Definition si_nominate {Source} (lookup : Source -> res DispatchError A) (unlookup : A -> Source) (who : A)
    (ts : list A) : MS unit :=
  let! ctrl := si_controller who in nominate cfg lookup (Signed ctrl) (unlookup <$> ts).
Definition status (who : A) s : res DispatchError (StakerStatus A) :=
  match bonded s who with
  | None => Err (stk_err StakingError.NotStash)
  | Some _ =>
      match bool_decide (is_Some (Validators (stakes s) !! who)), Nominators (stakes s) !! who with
      | false, None => Ok StakerIdle
      | true, None => Ok StakerValidator
      | false, Some n => Ok (StakerNominator (targets n))
      | true, Some _ => Err (stk_err StakingError.BadState)
      end
  end.

(** ** Genesis *)
(** [assert_ok!]. *)
Definition assert_ok (m : MS unit) : MS unit :=
  fun s => match m s with (s', Ok u) => (s', Ok u) | (s', _) => (s', Panic) end.
Definition bond_genesis {Source} (lookup : Source -> res DispatchError A) (unlookup : A -> Source)
    (staker : A * Z * StakerStatus A) : MS unit :=
  let '(who, balance, role) := staker in
  let! s := mget in
  do! (if balance <=? sh_free_balance (stk_rest s) who then ret tt else mlift Panic) in
  do! assert_ok (bond cfg (Signed who) balance ToStaked) in
  do! assert_ok match role with
      | StakerValidator => validate (Signed who) default_prefs
      | StakerNominator votes => nominate cfg lookup (Signed who) (unlookup <$> votes)
      | StakerIdle => ret tt
      end in
  let! s := mget in
  if ValidatorCount (params s) <=? MaxWinners cfg then ret tt else mlift Panic.

(** ** [do_try_state] *)
Definition ensure_ledger_consistent (ctrl : A) s : res string unit :=
  match ledger s ctrl with
  | None => Err "Not a controller."
  | Some l =>
      let real_total := foldl (fun a c => wrap_add U128_MAX a (chunk_value c)) (active l) (unlocking l) in
      if real_total =? ledger_total l then Ok tt else Err "ledger.total corrupt"
  end.
Fixpoint all_ok {T} (f : T -> res string unit) (l : list T) : res string unit :=
  match l with
  | [] => Ok tt
  | x :: l' => match f x with Ok _ => all_ok f l' | r => r end
  end.
Definition check_ledgers s : res string unit :=
  all_ok (fun kv => ensure_ledger_consistent kv.2 s) (map_to_list (Bonded (stakes s))).
End provider.

(** ** Theorems *)
(** *** Snapshots *)
Section snapshot_theorems.
Context {X A : Type} {eqA : EqDecision A} {countA : Countable A} {host : StakingHost X A}.
Abbreviation St := (Staking X A).
Implicit Types s : St.

(** What a voter contributes to a snapshot. *)
Definition voter_entry s (voter : A) : option (A * Z * list A) :=
  match Nominators (stakes s) !! voter with
  | Some n => if bool_decide (targets n = []) then None else Some (voter, weight_of s voter, targets n)
  | None => if bool_decide (is_Some (Validators (stakes s) !! voter)) then Some (voter, weight_of s voter, [voter]) else None
  end.
Lemma voters_loop_eq s max : 0 <= max -> 2 * max <= U32_MAX -> forall l seen acc m,
  0 <= seen <= 2 * max -> Z.of_nat (length acc) <= max ->
  (voters_loop s max l seen acc m).1 =
    acc ++ take (Z.to_nat max - length acc) (omap (voter_entry s) (take (Z.to_nat (2 * max - seen)) l)).
Proof.
  intros Hmax Hu. assert (wrap U32_MAX (NPOS_MAX_ITERATIONS_COEFFICIENT * wrap U32_MAX max) = 2 * max) as Hw.
  { unfold NPOS_MAX_ITERATIONS_COEFFICIENT. rewrite (wrap_small _ max), wrap_small; unfold in_u; lia. }
  induction l as [|v l IH]; intros seen acc m Hs Hacc; cbn [voters_loop].
  { rewrite take_nil. cbn. rewrite take_nil. by rewrite app_nil_r. }
  rewrite Hw. destruct (Z.ltb_spec (Z.of_nat (length acc)) max) as [Hlt|Hge]; cycle 1.
  { cbn [andb]. replace (Z.to_nat max - length acc)%nat with O by lia. by rewrite app_nil_r. }
  destruct (Z.ltb_spec seen (2 * max)) as [Hseen|Hseen]; cbn [andb]; cycle 1.
  { replace (Z.to_nat (2 * max - seen)) with O by lia. cbn. rewrite take_nil. by rewrite app_nil_r. }
  replace (Z.to_nat (2 * max - seen)) with (S (Z.to_nat (2 * max - (seen + 1)))) by lia.
  rewrite sat_add_exact by lia. cbn [take omap list_omap].
  assert (forall e m', (voters_loop s max l (seen + 1) (acc ++ [e]) m').1 =
    acc ++ take (Z.to_nat max - length acc) (e :: omap (voter_entry s) (take (Z.to_nat (2 * max - (seen + 1))) l))) as Hone.
  { intros e m'. rewrite IH by (rewrite ?length_app; cbn; lia). rewrite <- app_assoc, length_app. cbn [length app].
    replace (Z.to_nat max - length acc)%nat with (S (Z.to_nat max - (length acc + 1))) by lia. done. }
  unfold voter_entry at 1. destruct (Nominators (stakes s) !! v) as [n|].
  - destruct (bool_decide (targets n = [])); [by rewrite IH by lia|apply Hone].
  - destruct (bool_decide _); [apply Hone|by rewrite IH by lia].
Qed.

(** A snapshot of the voters is what it should be: of the first voters of the list, up
    to twice as many as asked for, those who nominate somebody, with their targets, and
    those who validate, with themselves, each with the weight of its stake, in the order of
    the list and cut to the length asked for; the loop and its counters compute exactly
    this. *)
Theorem voter_snapshot_reference (voter_list : St -> list A) (voter_count : St -> Z) maybe_max_len s :
  let max := Z.min (default (voter_count s) maybe_max_len) (voter_count s) in
  0 <= max -> 2 * max <= U32_MAX ->
  (get_npos_voters voter_list voter_count maybe_max_len s).2 =
    take (Z.to_nat max) (omap (voter_entry s) (take (Z.to_nat (2 * max)) (voter_list s))).
Proof.
  cbv zeta. intros Hmax Hu. unfold get_npos_voters.
  pose proof (voters_loop_eq s _ Hmax Hu (voter_list s) 0 [] U64_MAX ltac:(lia) ltac:(cbn; lia)) as Heq.
  destruct (voters_loop _ _ _ _ _ _) as [vs m]. cbn [fst snd] in *. rewrite Heq. cbn [app length].
  by rewrite Nat.sub_0_r, Z.sub_0_r.
Qed.
End snapshot_theorems.

(** *** The pallet's own check of ledgers *)
Section try_state.
Context {X A : Type} {eqA : EqDecision A} {countA : Countable A} {host : StakingHost X A}.
Context {locked : X -> A -> option Z}.
Variable cfg : StakingConfig.
Lemma fold_total (cs : list UnlockChunk) : forall a, 0 <= a -> Forall (fun c => 0 <= chunk_value c) cs ->
  a + sum (chunk_values cs) <= U128_MAX ->
  foldl (fun a c => wrap_add U128_MAX a (chunk_value c)) a cs = a + sum (chunk_values cs).
Proof.
  induction cs as [|c cs IH]; intros a Ha Hf Hm; [cbn; lia|]. apply Forall_cons in Hf as [Hc Hf].
  cbn [foldl]. unfold chunk_values in *. cbn [fmap list_fmap] in *. rewrite sum_cons in *.
  pose proof (chunks_sum_nonneg _ Hf). unfold chunk_values in *. unfold wrap_add at 2. rewrite wrap_small by (unfold in_u; lia).
  rewrite IH; [lia|lia|done|lia].
Qed.

(** The pallet's own check of its ledgers passes whenever the bonds are sound: every
    bonded stash has a controller with a ledger, and the total of the ledger is what the
    check adds up. *)
Theorem ledger_check_passes (s : Staking X A) : bonds_inv (locked := locked) cfg s -> check_ledgers s = Ok tt.
Proof.
  intros Hinv. unfold check_ledgers. assert (Forall (fun kv => bonded s kv.1 = Some kv.2) (map_to_list (Bonded (stakes s)))) as Hf.
  { apply Forall_forall. intros [a c] Hac. by apply elem_of_map_to_list in Hac. }
  induction Hf as [|[a c] l Hac Hf IH]; [done|]. cbn [all_ok fst snd] in *.
  destruct (bi_bonded _ _ Hinv a c Hac) as (lg & Hl & _). destruct (bi_ledgers _ _ Hinv c lg Hl) as [[Ha Hc Ht Hm] _ _ _].
  unfold ensure_ledger_consistent. rewrite Hl. unfold unlocking_sum in Ht. rewrite fold_total by (done || lia).
  by rewrite <- Ht, Z.eqb_refl.
Qed.
End try_state.

(** *** Roles *)
(** The list of voters is a set of accounts, which nothing else in the runtime changes. *)
Class VoterListLaws (X A : Type) `{EqDecision A} `{StakingHost X A} : Prop := {
  vl_insert a w x b : sh_voter_contains (sh_voter_insert a w x) b = bool_decide (b = a) || sh_voter_contains x b;
  vl_remove a x b : sh_voter_contains (sh_voter_remove a x) b = negb (bool_decide (b = a)) && sh_voter_contains x b;
  vl_update a w x b : sh_voter_contains (sh_voter_update a w x) b = sh_voter_contains x b;
  vl_set_lock a v x b : sh_voter_contains (sh_set_lock a v x) b = sh_voter_contains x b;
  vl_remove_lock a x b : sh_voter_contains (sh_remove_lock a x) b = sh_voter_contains x b;
  vl_inc a x x' b : sh_inc_consumers a x = Some x' -> sh_voter_contains x' b = sh_voter_contains x b;
  vl_dec a x b : sh_voter_contains (sh_dec_consumers a x) b = sh_voter_contains x b;
}.

Section roles.
Context {X A : Type} {eqA : EqDecision A} {countA : Countable A} {host : StakingHost X A} {vlaws : VoterListLaws X A}.
Context {locked : X -> A -> option Z} {laws : StakingHostLaws X A locked}.
Variable cfg : StakingConfig.
Hypothesis chunks_max : 0 <= MaxUnlockingChunks cfg.
Context {Source : Type} (lookup : Source -> res DispatchError A) (admin : Origin A -> bool).
Abbreviation St := (Staking X A).
Implicit Types s : St.

Definition is_validator s (a : A) : bool := bool_decide (is_Some (Validators (stakes s) !! a)).
Definition is_nominator s (a : A) : bool := bool_decide (is_Some (Nominators (stakes s) !! a)).
Definition is_bonded s (a : A) : bool := bool_decide (is_Some (bonded s a)).
Definition is_voter s (a : A) : bool := sh_voter_contains (stk_rest s) a.
(** Stashes of ledgers are bonded; nobody has two roles; who has a role is bonded; the list of
    voters holds those with a role. *)
Record roles_ok s : Prop := {
  ro_ledger c l : ledger s c = Some l -> is_bonded s (stash l) = true;
  ro_one a : is_validator s a && is_nominator s a = false;
  ro_bonded a : is_validator s a || is_nominator s a = true -> is_bonded s a = true;
  ro_voters a : is_voter s a = is_validator s a || is_nominator s a;
}.
(** States that look the same to [roles_ok]. *)
Record roles_kept s s' : Prop := {
  rk_stashes c l' : ledger s' c = Some l' -> exists c0 l, ledger s c0 = Some l /\ stash l' = stash l;
  rk_validator a : is_validator s' a = is_validator s a;
  rk_nominator a : is_nominator s' a = is_nominator s a;
  rk_bonded a : is_bonded s' a = is_bonded s a;
  rk_voter a : is_voter s' a = is_voter s a;
}.
Lemma roles_kept_refl s : roles_kept s s.
Proof. split; [|done..]. intros c l Hl. by exists c, l. Qed.
Lemma roles_kept_trans s1 s2 s3 : roles_kept s1 s2 -> roles_kept s2 s3 -> roles_kept s1 s3.
Proof.
  intros [H1 H2 H3 H4 H5] [G1 G2 G3 G4 G5]. split.
  - intros c l Hl. destruct (G1 c l Hl) as (c1 & l1 & Hl1 & ->). apply (H1 c1 l1 Hl1).
  - intros a. by rewrite G2.
  - intros a. by rewrite G3.
  - intros a. by rewrite G4.
  - intros a. by rewrite G5.
Qed.
Lemma roles_ok_kept s s' : roles_kept s s' -> roles_ok s -> roles_ok s'.
Proof.
  intros [H1 H2 H3 H4 H5] [G1 G2 G3 G4]. split.
  - intros c l Hl. destruct (H1 c l Hl) as (c0 & l0 & Hl0 & ->). rewrite H4. by eapply G1.
  - intros a. by rewrite H2, H3.
  - intros a. rewrite H2, H3, H4. apply G3.
  - intros a. by rewrite H2, H3, H5.
Qed.
Lemma same_roles s s' : stakes s' = stakes s -> (forall a, is_voter s' a = is_voter s a) -> roles_kept s s'.
Proof.
  intros Hs Hv. split; [|intros a; unfold is_validator, is_nominator, is_bonded, bonded; by rewrite ?Hs..|done].
  intros c l Hl. exists c, l. unfold ledger in *. by rewrite <- Hs.
Qed.
Lemma emit_roles e s : roles_kept s (emit e s).
Proof. by apply same_roles. Qed.
Lemma refresh_voter_roles a s : roles_kept s (refresh_voter a s).
Proof. unfold refresh_voter. destruct (sh_voter_contains _ _); apply same_roles; try done. intros b. apply vl_update. Qed.
Lemma update_ledger_roles c l l0 s : ledger s c = Some l0 -> stash l = stash l0 -> roles_kept s (update_ledger c l s).
Proof.
  intros Hl Hs. split; try done.
  - unfold ledger, update_ledger in *. cbn. intros c' l'. destruct (decide (c' = c)) as [->|Hne].
    + rewrite lookup_insert_eq. intros [= <-]. by exists c, l0.
    + rewrite lookup_insert_ne by done. intros Hl'. by exists c', l'.
  - intros a. apply vl_set_lock.
Qed.

(** Taking and giving a role. *)
Lemma is_some_delete {V} (m : gmap A V) a b :
  bool_decide (is_Some (delete a m !! b)) = negb (bool_decide (b = a)) && bool_decide (is_Some (m !! b)).
Proof.
  destruct (decide (b = a)) as [->|Hne].
  - rewrite lookup_delete_eq. by rewrite (bool_decide_eq_true_2 (a = a)) by done.
  - rewrite lookup_delete_ne by done. by rewrite (bool_decide_eq_false_2 (b = a)) by done.
Qed.
Lemma is_some_insert {V} (m : gmap A V) a v b :
  bool_decide (is_Some (<[a := v]> m !! b)) = bool_decide (b = a) || bool_decide (is_Some (m !! b)).
Proof.
  destruct (decide (b = a)) as [->|Hne].
  - rewrite lookup_insert_eq. rewrite (bool_decide_eq_true_2 (a = a)) by done. by apply bool_decide_eq_true_2.
  - rewrite lookup_insert_ne by done. by rewrite (bool_decide_eq_false_2 (b = a)) by done.
Qed.
Lemma role_bools (c v n : bool) : v && n = false ->
  (v && (negb c && n) = false) /\ ((negb c && v) && n = false) /\
  (v || (negb c && n) = true -> v || n = true) /\ ((negb c && v) || n = true -> v || n = true).
Proof. by destruct c, v, n. Qed.
Lemma remove_nominator_ok a s : roles_ok s ->
  let s' := (do_remove_nominator a s).1 in
  roles_ok s' /\ is_nominator s' a = false /\ (forall b, is_validator s' b = is_validator s b) /\
  (forall b, is_bonded s' b = is_bonded s b) /\ Ledger (stakes s') = Ledger (stakes s).
Proof.
  intros Hok. unfold do_remove_nominator. destruct (bool_decide (is_Some (Nominators (stakes s) !! a))) eqn:En; cbn [fst].
  2:{ by split_and!. }
  pose proof Hok as [G1 G2 G3 G4].
  assert (forall b, is_nominator (on_host (sh_voter_remove a) (set_nominators (delete a (Nominators (stakes s))) s)) b =
    negb (bool_decide (b = a)) && is_nominator s b) as Hn by (intros b; apply is_some_delete).
  split_and!; try done; [|rewrite Hn; by rewrite bool_decide_eq_true_2 by done].
  split; [done|..]; intros b; rewrite ?Hn; specialize (G2 b); specialize (G3 b); specialize (G4 b).
  - apply (role_bools _ _ _ G2).
  - intros Hb. apply G3. exact (proj1 (proj2 (proj2 (role_bools (bool_decide (b = a)) _ _ G2))) Hb).
  - change (is_validator (on_host _ _) b) with (is_validator s b).
    change (is_voter (on_host _ _) b) with (sh_voter_contains (sh_voter_remove a (stk_rest s)) b). rewrite vl_remove.
    change (sh_voter_contains (stk_rest s) b) with (is_voter s b). rewrite G4.
    destruct (decide (b = a)) as [->|Hne].
    + rewrite (bool_decide_eq_true_2 (a = a)) by done. cbn. change (is_nominator s a = true) in En. rewrite En, andb_true_r in G2. by rewrite G2.
    + rewrite (bool_decide_eq_false_2 (b = a)) by done. done.
Qed.
Lemma remove_validator_ok a s : roles_ok s ->
  let s' := (do_remove_validator a s).1 in
  roles_ok s' /\ is_validator s' a = false /\ (forall b, is_nominator s' b = is_nominator s b) /\
  (forall b, is_bonded s' b = is_bonded s b) /\ Ledger (stakes s') = Ledger (stakes s).
Proof.
  intros Hok. unfold do_remove_validator. destruct (bool_decide (is_Some (Validators (stakes s) !! a))) eqn:En; cbn [fst].
  2:{ by split_and!. }
  pose proof Hok as [G1 G2 G3 G4].
  assert (forall b, is_validator (on_host (sh_voter_remove a) (set_validators (delete a (Validators (stakes s))) s)) b =
    negb (bool_decide (b = a)) && is_validator s b) as Hn by (intros b; apply is_some_delete).
  split_and!; try done; [|rewrite Hn; by rewrite bool_decide_eq_true_2 by done].
  split; [done|..]; intros b; rewrite ?Hn; specialize (G2 b); specialize (G3 b); specialize (G4 b).
  - apply (role_bools _ _ _ G2).
  - intros Hb. apply G3. exact (proj2 (proj2 (proj2 (role_bools (bool_decide (b = a)) _ _ G2))) Hb).
  - change (is_nominator (on_host _ _) b) with (is_nominator s b).
    change (is_voter (on_host _ _) b) with (sh_voter_contains (sh_voter_remove a (stk_rest s)) b). rewrite vl_remove.
    change (sh_voter_contains (stk_rest s) b) with (is_voter s b). rewrite G4.
    destruct (decide (b = a)) as [->|Hne].
    + rewrite (bool_decide_eq_true_2 (a = a)) by done. cbn. change (is_validator s a = true) in En. rewrite En in G2. cbn in G2. by rewrite G2.
    + rewrite (bool_decide_eq_false_2 (b = a)) by done. done.
Qed.
Lemma add_validator_ok a p s : roles_ok s -> is_nominator s a = false -> is_bonded s a = true ->
  roles_ok (do_add_validator a p s).
Proof.
  intros [G1 G2 G3 G4] Hn Hb. unfold do_add_validator. set (s1 := if bool_decide _ then s else _).
  assert (stakes s1 = stakes s /\ forall b, is_voter s1 b = bool_decide (b = a) || is_voter s b) as [Hs1 Hv1].
  { unfold s1. destruct (bool_decide (is_Some (Validators (stakes s) !! a))) eqn:Ev; (split; [done|]); intros b; [|apply vl_insert].
    destruct (decide (b = a)) as [->|]; [|by rewrite bool_decide_eq_false_2]. rewrite G4. change (is_validator s a = true) in Ev.
    rewrite Ev. by rewrite bool_decide_eq_true_2. }
  assert (forall b, is_validator (set_validators (<[a := p]> (Validators (stakes s1))) s1) b = bool_decide (b = a) || is_validator s b)
    as Hval by (intros b; unfold is_validator; rewrite <- Hs1; apply is_some_insert).
  assert (forall b, is_nominator (set_validators (<[a := p]> (Validators (stakes s1))) s1) b = is_nominator s b)
    as Hnom by (intros b; unfold is_nominator; cbn; by rewrite Hs1).
  assert (forall b, is_bonded (set_validators (<[a := p]> (Validators (stakes s1))) s1) b = is_bonded s b)
    as Hbon by (intros b; unfold is_bonded, bonded; cbn; by rewrite Hs1).
  split; try (intros b; rewrite ?Hval, ?Hnom, ?Hbon).
  - intros l Hl. rewrite Hbon. unfold ledger in Hl. cbn in Hl. rewrite Hs1 in Hl. by eapply G1.
  - destruct (decide (b = a)) as [->|Hne]; [by rewrite Hn, andb_false_r|]. rewrite bool_decide_eq_false_2 by done. apply G2.
  - destruct (decide (b = a)) as [->|Hne]; [done|]. rewrite bool_decide_eq_false_2 by done. apply G3.
  - change (is_voter (set_validators _ s1) b) with (is_voter s1 b). rewrite Hv1, G4. by rewrite orb_assoc.
Qed.
Lemma add_nominator_ok a p s : roles_ok s -> is_validator s a = false -> is_bonded s a = true ->
  roles_ok (do_add_nominator a p s).
Proof.
  intros [G1 G2 G3 G4] Hn Hb. unfold do_add_nominator. set (s1 := if bool_decide _ then s else _).
  assert (stakes s1 = stakes s /\ forall b, is_voter s1 b = bool_decide (b = a) || is_voter s b) as [Hs1 Hv1].
  { unfold s1. destruct (bool_decide (is_Some (Nominators (stakes s) !! a))) eqn:Ev; (split; [done|]); intros b; [|apply vl_insert].
    destruct (decide (b = a)) as [->|]; [|by rewrite bool_decide_eq_false_2]. rewrite G4. change (is_nominator s a = true) in Ev.
    rewrite Ev. by rewrite orb_true_r, bool_decide_eq_true_2. }
  assert (forall b, is_nominator (set_nominators (<[a := p]> (Nominators (stakes s1))) s1) b = bool_decide (b = a) || is_nominator s b)
    as Hnom by (intros b; unfold is_nominator; rewrite <- Hs1; apply is_some_insert).
  assert (forall b, is_validator (set_nominators (<[a := p]> (Nominators (stakes s1))) s1) b = is_validator s b)
    as Hval by (intros b; unfold is_validator; cbn; by rewrite Hs1).
  assert (forall b, is_bonded (set_nominators (<[a := p]> (Nominators (stakes s1))) s1) b = is_bonded s b)
    as Hbon by (intros b; unfold is_bonded, bonded; cbn; by rewrite Hs1).
  split; try (intros b; rewrite ?Hval, ?Hnom, ?Hbon).
  - intros l Hl. rewrite Hbon. unfold ledger in Hl. cbn in Hl. rewrite Hs1 in Hl. by eapply G1.
  - destruct (decide (b = a)) as [->|Hne]; [by rewrite Hn|]. rewrite bool_decide_eq_false_2 by done. apply G2.
  - destruct (decide (b = a)) as [->|Hne]; [done|]. rewrite bool_decide_eq_false_2 by done. apply G3.
  - change (is_voter (set_nominators _ s1) b) with (is_voter s1 b). rewrite Hv1, G4.
    rewrite !orb_assoc. f_equal. apply orb_comm.
Qed.
Lemma chill_stash_ok a s : roles_ok s -> roles_ok (chill_stash a s).
Proof.
  intros Hok. unfold chill_stash. destruct (remove_validator_ok a s Hok) as (H1 & _). destruct (do_remove_validator a s) as [s1 v].
  destruct (remove_nominator_ok a s1 H1) as (H2 & _). destruct (do_remove_nominator a s1) as [s2 n]. cbn [fst] in *.
  destruct (v || n); [|done]. by eapply roles_ok_kept; [apply emit_roles|].
Qed.
Lemma kick_roles a (ns : list A) s : roles_kept s (foldl (fun s n => kick_one a n s) s ns).
Proof.
  revert s. induction ns as [|n ns IH]; intros s; [apply roles_kept_refl|]. cbn [foldl]. eapply roles_kept_trans; [|apply IH].
  unfold kick_one. destruct (Nominators (stakes s) !! n) as [nom|] eqn:En; [|apply roles_kept_refl].
  destruct (list_find _ _) as [[pos ?]|]; [|apply roles_kept_refl]. split; try done.
  - intros c l Hl. by exists c, l.
  - intros b. unfold is_nominator. cbn. rewrite is_some_insert. destruct (decide (b = n)) as [->|Hne].
    + rewrite En. by rewrite bool_decide_eq_true_2, (bool_decide_eq_true_2 (is_Some (Some nom))).
    + by rewrite bool_decide_eq_false_2.
Qed.
(** Removing a stash takes its roles, too. *)
Lemma kill_stash_ok a n s s' u : (forall c l, ledger s c = Some l -> bonded s (stash l) = Some c) ->
  roles_ok s -> kill_stash a n s = (s', Ok u) -> roles_ok s'.
Proof.
  intros Hlink Hok Hr. unfold kill_stash in Hr. run_inv.
  match goal with Hm : clear_stash_metadata _ _ _ = (?t, _), Hb : bonded s a = Some ?c |- _ =>
    rename t into s1; rename c into ctrl; rename Hb into Hbond; assert (stakes s1 = stakes s /\ stk_rest s1 = stk_rest s) as [Hst Hx]
      by (unfold clear_stash_metadata in Hm; run_inv; by destruct (spans_of _ a); run_inv) end.
  set (s2 := set_payees _ _). set (s3 := (do_remove_validator a s2).1). set (s4 := (do_remove_nominator a s3).1).
  (* the roles are removed before the bond as far as [roles_ok] can tell *)
  assert (roles_ok s1) as H1.
  { apply (roles_ok_kept s); [|done]. apply same_roles; [done|]. intros b. unfold is_voter. by rewrite Hx. }
  destruct (remove_validator_ok a s1 H1) as (H2 & Hva & Hnb & Hbb & Hl). set (t2 := (do_remove_validator a s1).1) in *.
  destruct (remove_nominator_ok a t2 H2) as (H3 & Hna & Hvb & Hbb' & Hl'). set (t3 := (do_remove_nominator a t2).1) in *.
  assert (forall b, is_validator s4 b = is_validator t3 b /\ is_nominator s4 b = is_nominator t3 b /\ is_voter s4 b = is_voter t3 b /\
    bonded s4 b = delete a (Bonded (stakes s1)) !! b /\ Ledger (stakes s4) = delete ctrl (Ledger (stakes s1))) as Hsame.
  { intros b. unfold s4, s3, t3, t2, do_remove_nominator, do_remove_validator, is_validator, is_nominator, is_voter, bonded. cbn.
    destruct (bool_decide (is_Some (Validators (stakes s1) !! a))); cbn;
      destruct (bool_decide (is_Some (Nominators (stakes s1) !! a))); done. }
  apply (roles_ok_kept s4). { apply same_roles; [done|]. intros b. apply vl_dec. }
  destruct H3 as [G1 G2 G3 G4]. rewrite Hst in Hsame.
  assert (forall b, is_bonded s4 b = negb (bool_decide (b = a)) && is_bonded s b) as Hbon.
  { intros b. unfold is_bonded. destruct (Hsame b) as (_ & _ & _ & -> & _). apply is_some_delete. }
  assert (forall b, is_bonded t3 b = is_bonded s b) as Hbt.
  { intros b. rewrite Hbb', Hbb. unfold is_bonded, bonded. by rewrite Hst. }
  split.
  - intros c l Hl0. rewrite Hbon. destruct (Hsame a) as (_ & _ & _ & _ & Hls). unfold ledger in Hl0. rewrite Hls in Hl0.
    apply lookup_delete_Some in Hl0 as [Hne Hl0]. rewrite (ro_ledger _ Hok c l Hl0), andb_true_r. apply negb_true_iff, bool_decide_eq_false_2.
    intros <-. apply Hlink in Hl0. congruence.
  - intros b. destruct (Hsame b) as (-> & -> & _). apply G2.
  - intros b. destruct (Hsame b) as (-> & -> & _). intros Hr. rewrite Hbon. destruct (decide (b = a)) as [->|Hne].
    + rewrite Hna, Hvb, Hva in Hr. done.
    + rewrite bool_decide_eq_false_2 by done. cbn. rewrite <- Hbt. by apply G3.
  - intros b. destruct (Hsame b) as (-> & -> & -> & _). apply G4.
Qed.
Abbreviation sound := (bonds_inv (locked := locked) cfg).
Definition links s : Prop := forall c l, ledger s c = Some l -> bonded s (stash l) = Some c.
Lemma sound_links s : sound s -> links s.
Proof. intros Hinv c l Hl. apply (bi_ledgers _ _ Hinv c l Hl). Qed.
Lemma remove_lock_ok a s : roles_ok s -> roles_ok (on_host (sh_remove_lock a) s).
Proof. apply roles_ok_kept, same_roles; [done|]. intros b. apply vl_remove_lock. Qed.
Lemma unstake_ok a n s s' u : links s -> roles_ok s ->
  (do! kill_stash a n in mmodify (on_host (sh_remove_lock a))) s = (s', Ok u) -> roles_ok s'.
Proof. intros Hl Hok Hr. run_inv. by eapply remove_lock_ok, kill_stash_ok. Qed.
Lemma consolidate_stash era (l : StakingLedger A) : stash (consolidate_unlocked era l) = stash l.
Proof. unfold consolidate_unlocked. by destruct (drop_unlocked _ _ _). Qed.
Lemma withdraw_ok c n s s' u : links s -> roles_ok s -> do_withdraw_unbonded c n s = (s', Ok u) -> roles_ok s'.
Proof.
  intros Hl Hok Hr. unfold do_withdraw_unbonded in Hr. run_inv.
  match goal with Hm : (if _ then _ else _) _ = (?t, _) |- _ => assert (roles_ok t) as Ht; [|unfold mwhen in Hr] end.
  { destruct (_ && _) in *; [by eapply unstake_ok|]. run_inv. eapply roles_ok_kept; [|exact Hok].
    eapply update_ledger_roles; [done|]. destruct (CurrentEra _); [apply consolidate_stash|done]. }
  destruct (_ <? _); run_inv; [|done]. by eapply roles_ok_kept; [apply emit_roles|].
Qed.
Lemma bond_ok_roles o v p s s' u : roles_ok s -> bond cfg o v p s = (s', Ok u) -> roles_ok s'.
Proof.
  intros [G1 G2 G3 G4] Hr. unfold bond in Hr. run_inv.
  match goal with Hi : sh_inc_consumers ?w _ = Some ?y |- _ => rename w into who, y into x; rename Hi into Hinc end.
  assert (forall b t, is_bonded (update_ledger who t (emit (EvBonded who (Z.min v (sh_free_balance x who)))
    (set_payees (<[who := p]> (Payee (stakes s))) (set_bonded (<[who := who]> (Bonded (stakes s))) (on_host (fun _ => x) s))))) b
    = bool_decide (b = who) || is_bonded s b) as Hb by (intros b t; apply is_some_insert).
  split.
  - intros c l Hl. etransitivity; [apply Hb|]. unfold ledger, update_ledger in Hl. cbn in Hl.
    apply lookup_insert_Some in Hl as [[_ <-]|[_ Hl]]; [by rewrite bool_decide_eq_true_2|].
    rewrite (G1 c l Hl). apply orb_true_r.
  - apply G2.
  - intros b Hbr. etransitivity; [apply Hb|]. rewrite (G3 b Hbr). apply orb_true_r.
  - intros b. etransitivity; [|apply G4]. etransitivity; [apply vl_set_lock|]. by apply (vl_inc who).
Qed.
Lemma rewrite_ledger_ok c l l0 a e s : ledger s c = Some l0 -> stash l = stash l0 -> roles_ok s ->
  roles_ok (emit e (refresh_voter a (update_ledger c l s))).
Proof.
  intros Hl Hs. apply roles_ok_kept. eapply roles_kept_trans; [by eapply update_ledger_roles|].
  eapply roles_kept_trans; [apply refresh_voter_roles|apply emit_roles].
Qed.
Lemma bond_extra_ok o v s s' u : roles_ok s -> bond_extra o v s = (s', Ok u) -> roles_ok s'.
Proof.
  intros Hok Hr. unfold bond_extra in Hr. run_inv. destruct (checked_sub _ _); run_inv; [|done]. by eapply rewrite_ledger_ok.
Qed.
Lemma unbond_ok o v s s' u : sound s -> roles_ok s -> unbond cfg o v s = (s', Ok u) -> roles_ok s'.
Proof.
  intros Hinv Hok Hr. unfold unbond in Hr. run_inv.
  match goal with Hm : (if _ then _ else _) s = (?t, _) |- _ => assert (roles_ok t) as Ht
    by (destruct (_ =? _) in Hm; [by eapply withdraw_ok; [apply sound_links| |]|by run_inv]) end.
  destruct (Z.min _ _ =? 0); run_inv; [done|]. destruct (if _ <? _ then _ else _) as [v' a'].
  cbv beta iota in Hr. run_inv. by eapply rewrite_ledger_ok.
Qed.
Lemma rebond_ok o v s s' u : roles_ok s -> rebond o v s = (s', Ok u) -> roles_ok s'.
Proof.
  intros Hok Hr. unfold rebond in Hr. run_inv.
  match goal with Hl : ledger s _ = Some ?l0 |- _ => rename l0 into l; rename Hl into Hc end.
  assert (stash (ledger_rebond v l).1 = stash l) as Hs by (unfold ledger_rebond; by destruct (rebond_loop _ _ _ _) as [[? ?] ?]).
  destruct (ledger_rebond v l) as [l' r]. cbn [fst] in Hs. run_inv.
  apply (roles_ok_kept s); [|done]. eapply roles_kept_trans; [apply emit_roles|].
  eapply roles_kept_trans; [by eapply update_ledger_roles|apply refresh_voter_roles].
Qed.
Lemma set_controller_ok o s s' u : roles_ok s -> set_controller o s = (s', Ok u) -> roles_ok s'.
Proof.
  intros [G1 G2 G3 G4] Hr. unfold set_controller in Hr. run_inv.
  match goal with Hb : bonded s ?w = Some ?c |- _ => rename w into who, c into ctrl; rename Hb into Hw end.
  destruct (bool_decide _) in Hr; run_inv; [done|].
  assert (forall b, is_bonded (set_bonded (<[who := who]> (Bonded (stakes s))) s) b = is_bonded s b) as Hb.
  { intros b. etransitivity; [apply is_some_insert|]. destruct (decide (b = who)) as [->|Hne]; [|by rewrite bool_decide_eq_false_2].
    unfold is_bonded. rewrite Hw. by rewrite bool_decide_eq_true_2. }
  change (ledger (set_bonded _ s) ctrl) with (ledger s ctrl). destruct (ledger s ctrl) as [l|] eqn:El.
  2:{ split; [|apply G2| |apply G4]; intros *; rewrite Hb; [apply G1|apply G3]. }
  split; [|apply G2| |apply G4]; intros *; (etransitivity; [apply Hb|]); [|by apply G3].
  unfold ledger in *. cbn in *. revert H. intros [[_ <-]|[_ Hl]]%lookup_insert_Some; [by eapply G1|].
  apply lookup_delete_Some in Hl as [_ Hl]. by eapply G1.
Qed.
Lemma become_validator_ok c l p s : ledger s c = Some l -> roles_ok s ->
  roles_ok (do_add_validator (stash l) p (do_remove_nominator (stash l) s).1).
Proof.
  intros Hl Hok. destruct (remove_nominator_ok (stash l) s Hok) as (H1 & Hn & _ & Hb & _).
  apply add_validator_ok; [done|done|]. rewrite Hb. by eapply ro_ledger.
Qed.
Lemma become_nominator_ok c l n s : ledger s c = Some l -> roles_ok s ->
  roles_ok (do_add_nominator (stash l) n (do_remove_validator (stash l) s).1).
Proof.
  intros Hl Hok. destruct (remove_validator_ok (stash l) s Hok) as (H1 & Hn & _ & Hb & _).
  apply add_nominator_ok; [done|done|]. rewrite Hb. by eapply ro_ledger.
Qed.
Lemma set_prefs_roles a p p' s : Validators (stakes s) !! a = Some p ->
  roles_kept s (set_validators (<[a := p']> (Validators (stakes s))) s).
Proof.
  intros Hp. split; try done.
  - intros c l Hl. by exists c, l.
  - intros b. etransitivity; [apply is_some_insert|]. destruct (decide (b = a)) as [->|Hne].
    + unfold is_validator. rewrite Hp. by rewrite bool_decide_eq_true_2.
    + by rewrite bool_decide_eq_false_2.
Qed.

(** One case per call. *)
Lemma call_body_roles o c s s' u :
  sound s -> roles_ok s -> call_body cfg lookup admin o c s = (s', Ok u) -> roles_ok s'.
Proof.
  intros Hinv Hok Hr. pose proof (sound_links s Hinv) as Hl. destruct c; cbn [call_body] in Hr;
    [by eapply bond_ok_roles|by eapply bond_extra_ok|by eapply unbond_ok
    |unfold withdraw_unbonded in Hr; run_inv; by eapply withdraw_ok|by eapply rebond_ok
    |unfold validate in Hr|unfold nominate in Hr|unfold kick in Hr|unfold chill in Hr|unfold set_payee in Hr
    |by eapply set_controller_ok
    |unfold set_validator_count in Hr|unfold increase_validator_count in Hr|unfold scale_validator_count in Hr
    |unfold force_no_eras in Hr|unfold force_new_era in Hr|unfold force_new_era_always in Hr|unfold set_invulnerables in Hr
    |unfold force_unstake in Hr; apply bind_Ok in Hr as (? & ? & Hm & Hr); apply mlift_Ok in Hm as [-> _]; by eapply unstake_ok
    |unfold reap_stash in Hr; run_inv
    |unfold cancel_deferred_slash in Hr|unfold set_min_commission in Hr|unfold set_staking_configs in Hr
    |unfold chill_other in Hr|unfold force_apply_min_commission in Hr]; run_inv;
    repeat match goal with
    | Hm : (if _ then _ else _) _ = (_, Ok _) |- _ => destruct (bool_decide _) in Hm; run_inv
    | Hm : (if _ <? _ then _ else _) _ = (_, Ok _) |- _ => destruct (_ <? _) in Hm; run_inv
    | Hm : match ?x with Some _ => _ | None => _ end _ = (_, Ok _) |- _ => destruct x; run_inv
    end;
    first [ by eapply roles_ok_kept; [apply kick_roles|]
          | by apply chill_stash_ok
          | eapply roles_ok_kept; [apply emit_roles|by eapply become_validator_ok]
          | by eapply become_nominator_ok
          | by eapply remove_lock_ok, kill_stash_ok
          | by eapply roles_ok_kept; [by eapply set_prefs_roles|]
          | by eapply roles_ok_kept; [apply same_roles|]
          | by destruct Hok as [G1 G2 G3 G4]; split ].
Qed.
Lemma dispatch_roles o c s : sound s -> roles_ok s -> roles_ok (dispatch cfg lookup admin o c s).1.
Proof.
  intros Hinv Hok. unfold dispatch, transactional.
  destruct (call_body cfg lookup admin o c s) as [s' [u|e|]] eqn:Er; cbn [fst]; [|done..]. by eapply call_body_roles.
Qed.

Lemma dispatches_roles (calls : list (Origin A * Call A Source)) s :
  Forall (fun oc => call_wf oc.2) calls -> sound s -> roles_ok s ->
  roles_ok (foldl (fun s oc => (dispatch cfg lookup admin oc.1 oc.2 s).1) s calls).
Proof.
  intros Hwf. revert s. induction Hwf as [|[o c] calls Hc Hwf IH]; intros s Hinv Hok; [done|].
  cbn [foldl fst snd]. apply IH; [by apply dispatch_inv|by apply dispatch_roles].
Qed.

(** C21. Roles stay sound.  Whatever calls are dispatched to the staking pallet, by whom
    and in what order: nobody validates and nominates at the same time, only bonded stashes
    have a role, and the list of voters the elections read holds exactly the stashes that
    validate or nominate; so asking for the status of a bonded stash never fails. *)
Theorem roles_stay_sound (calls : list (Origin A * Call A Source)) s :
  Forall (fun oc => call_wf oc.2) calls -> sound s -> roles_ok s ->
  let s' := foldl (fun s oc => (dispatch cfg lookup admin oc.1 oc.2 s).1) s calls in
  roles_ok s' /\ forall who, is_bonded s' who = true -> exists st, status who s' = Ok st.
Proof.
  intros Hwf Hinv Hok. cbv zeta. set (s' := foldl _ _ _).
  assert (roles_ok s') as Hok' by (by apply dispatches_roles).
  split; [done|]. intros who Hb. unfold status. pose proof (ro_one _ Hok' who) as Ho.
  unfold is_bonded in Hb. apply bool_decide_eq_true in Hb as [c ->].
  unfold is_validator, is_nominator in Ho. destruct (bool_decide _), (Nominators (stakes s') !! who) as [n|]; eauto.
  by rewrite bool_decide_eq_true_2 in Ho.
Qed.
End roles.

(** ** Witnesses

    A runtime that holds the locks and the list of voters. *)
Module RolesWitness.
#[export] Instance voters_host : StakingHost (gmap Z Z * gset Z) Z := {
  sh_minimum_balance := 10;
  sh_total_issuance _ := 1000000;
  sh_free_balance _ _ := 10000;
  sh_total_balance _ _ := 10000;
  sh_set_lock a v x := (<[a := v]> x.1, x.2);
  sh_remove_lock a x := (delete a x.1, x.2);
  sh_slash _ v x := (x, (v, 0));
  sh_resolve_creating _ _ x := x;
  sh_inc_consumers _ x := Some x;
  sh_dec_consumers _ x := x;
  sh_voter_contains x a := bool_decide (a ∈ x.2);
  sh_voter_update _ _ x := x;
  sh_voter_insert a _ x := (x.1, {[ a ]} ∪ x.2);
  sh_voter_remove a x := (x.1, x.2 ∖ {[ a ]});
  sh_to_vote v _ := v;
  sh_validators _ := [];
  sh_disable_validator _ x := x;
  sh_on_staker_slash _ _ _ x := x;
  sh_on_slash_imbalance _ x := x;
  sh_percent_mul_floor f v := f * v / 100;
  sh_percent_mul f v := f * v / 100;
  sh_perbill_mul f v := f * v / 1000000000;
}.
#[export] Instance voters_laws : StakingHostLaws (gmap Z Z * gset Z) Z (fun x a => x.1 !! a).
Proof.
  split; try done; cbn.
  - intros a v x _. apply lookup_insert_eq.
  - intros a b v x Hne. by apply lookup_insert_ne.
  - intros a x. apply lookup_delete_eq.
  - intros a b x Hne. by apply lookup_delete_ne.
  - by intros a x x' b [= <-].
Qed.
#[export] Instance voters_set : VoterListLaws (gmap Z Z * gset Z) Z.
Proof.
  split; try done; cbn.
  - intros a w x b. destruct (decide (b = a)) as [->|Hne].
    + rewrite !bool_decide_eq_true_2 by set_solver. done.
    + rewrite (bool_decide_eq_false_2 (b = a)) by done. cbn. apply bool_decide_ext. set_solver.
  - intros a x b. destruct (decide (b = a)) as [->|Hne].
    + rewrite (bool_decide_eq_true_2 (a = a)) by done. cbn. apply bool_decide_eq_false_2. set_solver.
    + rewrite (bool_decide_eq_false_2 (b = a)) by done. cbn. apply bool_decide_ext. set_solver.
  - by intros a x x' b [= <-].
Qed.

Abbreviation wcfg := BondsWitness.wcfg.
Definition empty_chain : Staking (gmap Z Z * gset Z) Z :=
  mkStaking (mkStakes ∅ ∅ ∅ ∅ ∅) (mkParams 4 1 0 0 0 None None None [] NotForcing 100000000)
    (mkEras (Some 100) (Some (mkActiveEra 100 None)) [] ∅ 0 ∅ ∅ ∅ ∅ ∅ ∅ 0) (mkSlashes ∅ ∅ ∅ ∅ ∅ []) [] (∅, ∅).
Abbreviation winv := (bonds_inv wcfg (locked := fun x a => x.1 !! a)).
Lemma empty_inv : winv empty_chain.
Proof. split; done. Qed.
Lemma empty_roles : roles_ok empty_chain.
Proof. split; done. Qed.
(** Account 1 validates; account 2 validates, then nominates 1, which takes its first role;
    account 3 bonds, nominates 1 and 2, and is chilled by its controller. *)
Definition role_calls : list (Origin Z * Call Z Z) :=
  [(Signed 1, CallBond 500 ToStash); (Signed 1, CallValidate (mkPrefs 0 false));
   (Signed 2, CallBond 300 ToStash); (Signed 2, CallValidate (mkPrefs 0 false)); (Signed 2, CallNominate [1]);
   (Signed 3, CallBond 200 ToStash); (Signed 3, CallNominate [1; 2]); (Signed 3, CallChill)].
Lemma role_calls_wf : Forall (fun oc => call_wf oc.2) role_calls.
Proof. repeat constructor; cbn; unfold in_u, U128_MAX; lia. Qed.
Definition with_roles : Staking (gmap Z Z * gset Z) Z :=
  foldl (fun s oc => (dispatch wcfg BondsWitness.wlookup BondsWitness.wadmin oc.1 oc.2 s).1) empty_chain role_calls.
Lemma roles_stay_sound_witness :
  roles_ok with_roles /\ status 1 with_roles = Ok StakerValidator /\ status 2 with_roles = Ok (StakerNominator [1]) /\
  status 3 with_roles = Ok StakerIdle /\ status 4 with_roles = Err (stk_err StakingError.NotStash) /\
  (stk_rest with_roles).2 = {[ 1; 2 ]}.
Proof.
  split; [|split_and!; vm_compute; reflexivity].
  apply (roles_stay_sound wcfg ltac:(done) BondsWitness.wlookup BondsWitness.wadmin role_calls empty_chain
    role_calls_wf empty_inv empty_roles).
Defined.
Lemma elected_inv : winv with_roles.
Proof.
  unfold with_roles, role_calls. cbn [foldl fst snd].
  repeat (apply dispatch_inv; [done|cbn; unfold in_u, U128_MAX; lia|]). apply empty_inv.
Qed.
Lemma with_roles_ok : roles_ok with_roles.
Proof. exact (dispatches_roles wcfg ltac:(done) BondsWitness.wlookup BondsWitness.wadmin role_calls empty_chain role_calls_wf empty_inv empty_roles). Qed.
Lemma ledger_check_passes_witness : check_ledgers with_roles = Ok tt.
Proof. apply (ledger_check_passes wcfg with_roles elected_inv). Defined.

(** Of three voters, no more than two. *)
Abbreviation wlist := (fun _ : Staking (gmap Z Z * gset Z) Z => [3; 2; 1]).
Abbreviation wcount := (fun _ : Staking (gmap Z Z * gset Z) Z => 3).
Lemma voter_snapshot_reference_witness :
  (get_npos_voters wlist wcount (Some 2) with_roles).2 = [(2, 300, [1]); (1, 500, [1])].
Proof.
  pose proof (voter_snapshot_reference wlist wcount (Some 2) with_roles ltac:(cbn; lia) ltac:(cbn; unfold U32_MAX; lia)) as ->.
  vm_compute. reflexivity.
Defined.
(** With validators alone in the snapshot, the minimum stored is the largest [u64]: no
    nominator has that stake, as there is none. *)
Example min_active_without_nominators :
  MinimumActiveStake (eras (get_npos_voters (fun _ => [1]) (fun _ => 1) None with_roles).1) = U64_MAX.
Proof. vm_compute. reflexivity. Qed.
(** A validator that kicks a nominator of its own leaves it in the list of voters, without
    a target. *)
Definition kicked : Staking (gmap Z Z * gset Z) Z :=
  (dispatch wcfg BondsWitness.wlookup BondsWitness.wadmin (Signed 1) (CallKick [2]) with_roles).1.
Example kick_leaves_no_targets : status 2 kicked = Ok (StakerNominator []) /\ (stk_rest kicked).2 = {[ 1; 2 ]}.
Proof. split; vm_compute; reflexivity. Qed.
End RolesWitness.
