(* ===== verification/Authority.v ===== *)
(** * The authority pallet

    Models [src/orml/authority/src/lib.rs], the pallet that dispatches calls on behalf of
    other origins, schedules them and keeps calls that root has authorized, with the
    configuration [src/runtime/src/lib.rs] gives it ([AuthorityConfigImpl] and
    [AsOriginId]).

    A call of the runtime is a call of this pallet, which may hold another call, or a call
    of another pallet ([OtherCall]); what the latter does to the rest of the runtime's
    storage is a parameter, and so are the scheduler, the hash and the encoding of task
    names.  Calls of other pallets do not come back to this pallet in the model: the wrappers
    of the runtime's utility pallet (a batch, or a call as another origin) that would bring a
    call back are outside it. *)

From stdpp Require Import base gmap list strings relations.
From Stdlib Require Import ZArith Lia Sorted.
From S2P Require Import Prelude.

Local Open Scope Z_scope.

(** ** Origins *)
(** [OriginCaller]: the origins of the system, of this pallet, and of the other pallets. *)
Inductive Caller (A : Type) : Type :=
| SystemOrigin (o : Origin A)
| DelayedOrigin (delay : Z) (origin : Caller A)
| PalletOrigin (id : Z).
Arguments SystemOrigin {A}. Arguments DelayedOrigin {A}. Arguments PalletOrigin {A}.
#[export] Instance origin_eq_dec {A} {eqA : EqDecision A} : EqDecision (Origin A).
Proof. solve_decision. Defined.
#[export] Instance caller_eq_dec {A} {eqA : EqDecision A} : EqDecision (Caller A).
Proof. solve_decision. Defined.

Inductive AuthoritysOriginId : Type := OriginIdRoot.
Inductive DispatchTime : Type := At (block : Z) | After (blocks : Z).

Section origins.
Context {A : Type} {eqA : EqDecision A}.
Implicit Types o : Caller A.
(** [ensure_root] and [ensure_signed] of an outer origin. *)
Definition caller_root o : res DispatchError unit :=
  match o with SystemOrigin o => ensure_root o | _ => Err BadOrigin end.
Definition caller_signed o : res DispatchError A :=
  match o with SystemOrigin o => ensure_signed o | _ => Err BadOrigin end.
(** [EnsureDelayed<Delay, EnsureRoot>]. *)
Definition ensure_delayed (min_delay : Z) o : res DispatchError unit :=
  match o with
  | DelayedOrigin delay origin => if min_delay <=? delay then caller_root origin else Err BadOrigin
  | _ => Err BadOrigin
  end.

(** *** The configuration of the runtime *)
(** Blocks of ten seconds. *)
Definition SevenDays : Z := 7 * (24 * (60 * (60 / 10))).
Definition check_schedule_dispatch o (priority : Z) : res DispatchError unit := caller_root o.
Definition check_fast_track_schedule o (initial_origin : Caller A) (new_delay : Z) : res DispatchError unit := caller_root o.
Definition check_delay_schedule o (initial_origin : Caller A) : res DispatchError unit := caller_root o.
Definition check_cancel_schedule o (initial_origin : Caller A) : res DispatchError unit :=
  match caller_root o with
  | Ok u => Ok u
  | _ => if bool_decide (o = initial_origin) then Ok tt else Err BadOrigin
  end.
Definition into_origin (id : AuthoritysOriginId) : Caller A := match id with OriginIdRoot => SystemOrigin Root end.
Definition check_dispatch_from (id : AuthoritysOriginId) o : res DispatchError unit :=
  match caller_root o with
  | Ok u => Ok u
  | _ => match id with OriginIdRoot => ensure_delayed SevenDays o end
  end.
End origins.

(** ** Calls and storage *)
Module AuthorityError.
Inductive t : Type :=
| FailedToSchedule | FailedToCancel | FailedToFastTrack | FailedToDelay
| CallNotAuthorized | TriggerCallNotPermitted | WrongCallWeightBound.
Definition name (e : t) : string :=
  match e with
  | FailedToSchedule => "FailedToSchedule" | FailedToCancel => "FailedToCancel"
  | FailedToFastTrack => "FailedToFastTrack" | FailedToDelay => "FailedToDelay"
  | CallNotAuthorized => "CallNotAuthorized" | TriggerCallNotPermitted => "TriggerCallNotPermitted"
  | WrongCallWeightBound => "WrongCallWeightBound"
  end.
End AuthorityError.
Definition auth_err (e : AuthorityError.t) : DispatchError := Module (AuthorityError.name e).
(** [ArithmeticError::Overflow]. *)
Definition arith_overflow : DispatchError := Arithmetic "An overflow would occur".

(** [Weight]: reference time and proof size. *)
Record Weight : Type := mkWeight { ref_time : Z; proof_size : Z }.
Definition all_gte (a b : Weight) : bool := (ref_time b <=? ref_time a) && (proof_size b <=? proof_size a).

(** [RuntimeCall]. *)
Inductive RuntimeCall (A H O : Type) : Type :=
| CallDispatchAs (as_origin : AuthoritysOriginId) (call : RuntimeCall A H O)
| CallScheduleDispatch (when : DispatchTime) (priority : Z) (with_delayed_origin : bool) (call : RuntimeCall A H O)
| CallFastTrack (initial_origin : Caller A) (task_id : Z) (when : DispatchTime)
| CallDelay (initial_origin : Caller A) (task_id additional_delay : Z)
| CallCancel (initial_origin : Caller A) (task_id : Z)
| CallAuthorize (call : RuntimeCall A H O) (caller : option A)
| CallRemoveAuthorized (hash : H)
| CallTrigger (hash : H) (call_weight_bound : Weight)
| OtherCall (other : O).
Arguments CallDispatchAs {A H O}. Arguments CallScheduleDispatch {A H O}. Arguments CallFastTrack {A H O}.
Arguments CallDelay {A H O}. Arguments CallCancel {A H O}. Arguments CallAuthorize {A H O}.
Arguments CallRemoveAuthorized {A H O}. Arguments CallTrigger {A H O}. Arguments OtherCall {A H O}.

Inductive AuthorityEvent (A H : Type) : Type :=
| Dispatched (result : res DispatchError unit)
| Scheduled (origin : Caller A) (index : Z)
| FastTracked (origin : Caller A) (index when : Z)
| Delayed (origin : Caller A) (index when : Z)
| Cancelled (origin : Caller A) (index : Z)
| AuthorizedCall (hash : H) (caller : option A)
| RemovedAuthorizedCall (hash : H)
| TriggeredCallBy (hash : H) (caller : A).
Arguments Dispatched {A H}. Arguments Scheduled {A H}. Arguments FastTracked {A H}. Arguments Delayed {A H}.
Arguments Cancelled {A H}. Arguments AuthorizedCall {A H}. Arguments RemovedAuthorizedCall {A H}.
Arguments TriggeredCallBy {A H}.

(** What the pallet asks of the scheduler and of the other pallets, whose storage is [X]. *)
Class AuthorityHost (X A H O : Type) : Type := {
  ah_block_number : X -> Z;
  (** [schedule_named], [reschedule_named] and [cancel_named]; [None] is an error. *)
  ah_schedule : bytes -> DispatchTime -> Z -> Caller A -> RuntimeCall A H O -> X -> option X;
  ah_reschedule : bytes -> DispatchTime -> X -> option X;
  ah_cancel : bytes -> X -> option X;
  (** A call of another pallet. *)
  ah_dispatch : O -> Caller A -> X -> X * res DispatchError unit;
  (** [Encode::encode(&(origin, id))], [Hashing::hash_of] and [get_dispatch_info().weight]. *)
  ah_encode : Caller A -> Z -> bytes;
  ah_hash_of : RuntimeCall A H O -> H;
  ah_weight : RuntimeCall A H O -> Weight;
}.

Record Authority (X A H O : Type) `{Countable H} : Type := mkAuthority {
  NextTaskIndex : Z;
  SavedCalls : gmap H (RuntimeCall A H O * option A);
  auth_events : list (AuthorityEvent A H);
  auth_rest : X }.
Arguments mkAuthority {X A H O _ _}. Arguments NextTaskIndex {X A H O _ _}. Arguments SavedCalls {X A H O _ _}.
Arguments auth_events {X A H O _ _}. Arguments auth_rest {X A H O _ _}.

Section pallet.
Context {X A H O : Type} {eqA : EqDecision A} {eqH : EqDecision H} {countH : Countable H} {host : AuthorityHost X A H O}.
Abbreviation St := (Authority X A H O).
Abbreviation MA := (M St DispatchError).
Abbreviation Call := (RuntimeCall A H O).
Implicit Types (s : St) (o : Caller A) (c : Call).

Definition set_next_task v s : St := mkAuthority v (SavedCalls s) (auth_events s) (auth_rest s).
Definition set_saved v s : St := mkAuthority (NextTaskIndex s) v (auth_events s) (auth_rest s).
Definition auth_emit e s : St := mkAuthority (NextTaskIndex s) (SavedCalls s) (auth_events s ++ [e]) (auth_rest s).
Definition set_rest x s : St := mkAuthority (NextTaskIndex s) (SavedCalls s) (auth_events s) x.

(** The blocks until [when], and the block itself. *)
Definition delay_of (now : Z) (when : DispatchTime) : res DispatchError Z :=
  match when with At x => ok_or (checked_sub x now) arith_overflow | After x => Ok x end.
Definition dispatch_block (now : Z) (when : DispatchTime) : Z :=
  match when with At x => x | After x => sat_add U32_MAX now x end.
(** A step of the scheduler whose error is replaced by [e]. *)
Definition scheduler (f : X -> option X) (e : AuthorityError.t) : MA unit :=
  let! s := mget in
  let! x := mlift (ok_or (f (auth_rest s)) (auth_err e)) in
  mmodify (set_rest x).

(** ** Calls

    [dispatch] is how a call held by a call is dispatched.  A dispatch that fails is
    reported in an event, a panic ends everything. *)
Definition report (m : MA unit) : MA (res DispatchError unit) :=
  fun s => match m s with (s', Panic) => (s', Panic) | (s', r) => (s', Ok r) end.
Definition dispatch_as (dispatch : Call -> Caller A -> MA unit) o (as_origin : AuthoritysOriginId) (call : Call) : MA unit :=
  do! mlift (check_dispatch_from as_origin o) in
  let! e := report (dispatch call (into_origin as_origin)) in
  mmodify (auth_emit (Dispatched e)).

Definition schedule_dispatch o (when : DispatchTime) (priority : Z) (with_delayed_origin : bool) (call : Call) : MA unit :=
  do! mlift (check_schedule_dispatch o priority) in
  let! s := mget in
  let id := NextTaskIndex s in
  let! next := mlift (ok_or (checked_add U32_MAX id 1) arith_overflow) in
  do! mmodify (set_next_task next) in
  let! delay := mlift (delay_of (ah_block_number (auth_rest s)) when) in
  let pallets_origin := if with_delayed_origin then DelayedOrigin delay o else o in
  do! scheduler (ah_schedule (ah_encode pallets_origin id) when priority pallets_origin call) AuthorityError.FailedToSchedule in
  mmodify (auth_emit (Scheduled pallets_origin id)).

Definition fast_track_scheduled_dispatch o (initial_origin : Caller A) (task_id : Z) (when : DispatchTime) : MA unit :=
  let! s := mget in
  let now := ah_block_number (auth_rest s) in
  let! new_delay := mlift (delay_of now when) in
  do! mlift (check_fast_track_schedule o initial_origin new_delay) in
  do! scheduler (ah_reschedule (ah_encode initial_origin task_id) when) AuthorityError.FailedToFastTrack in
  mmodify (auth_emit (FastTracked initial_origin task_id (dispatch_block now when))).
Definition delay_scheduled_dispatch o (initial_origin : Caller A) (task_id additional_delay : Z) : MA unit :=
  do! mlift (check_delay_schedule o initial_origin) in
  do! scheduler (ah_reschedule (ah_encode initial_origin task_id) (After additional_delay)) AuthorityError.FailedToDelay in
  let! s := mget in
  mmodify (auth_emit (Delayed initial_origin task_id (sat_add U32_MAX (ah_block_number (auth_rest s)) additional_delay))).
Definition cancel_scheduled_dispatch o (initial_origin : Caller A) (task_id : Z) : MA unit :=
  do! mlift (check_cancel_schedule o initial_origin) in
  do! scheduler (ah_cancel (ah_encode initial_origin task_id)) AuthorityError.FailedToCancel in
  mmodify (auth_emit (Cancelled initial_origin task_id)).

Definition authorize_call o (call : Call) (caller : option A) : MA unit :=
  do! mlift (caller_root o) in
  let hash := ah_hash_of call in
  do! mmodify (fun s => set_saved (<[hash := (call, caller)]> (SavedCalls s)) s) in
  mmodify (auth_emit (AuthorizedCall hash caller)).
(** [EitherOfDiverse<EnsureRoot, EnsureSigned>]: [None] is root. *)
Definition root_or_signed o : res DispatchError (option A) :=
  match o with
  | SystemOrigin Root => Ok None
  | SystemOrigin (Signed who) => Ok (Some who)
  | _ => Err BadOrigin
  end.
(** [try_mutate_exists] writes the slot after the closure has succeeded. *)
Definition remove_authorized_call o (hash : H) : MA unit :=
  let! who := mlift (root_or_signed o) in
  let! s := mget in
  let! saved := mlift (ok_or (SavedCalls s !! hash) (auth_err AuthorityError.CallNotAuthorized)) in
  do! match who with
      | None => ret tt
      | Some who =>
          let! caller := mlift (ok_or saved.2 (auth_err AuthorityError.CallNotAuthorized)) in
          mensure (bool_decide (who = caller)) (auth_err AuthorityError.CallNotAuthorized)
      end in
  do! mmodify (auth_emit (RemovedAuthorizedCall hash)) in
  mmodify (fun s => set_saved (delete hash (SavedCalls s)) s).
Definition trigger_call (dispatch_root : Call -> MA unit) o (hash : H) (call_weight_bound : Weight) : MA unit :=
  let! who := mlift (caller_signed o) in
  let! s := mget in
  let! saved := mlift (ok_or (SavedCalls s !! hash) (auth_err AuthorityError.CallNotAuthorized)) in
  do! match saved.2 with
      | Some caller => mensure (bool_decide (who = caller)) (auth_err AuthorityError.TriggerCallNotPermitted)
      | None => ret tt
      end in
  do! mensure (all_gte call_weight_bound (ah_weight saved.1)) (auth_err AuthorityError.WrongCallWeightBound) in
  let! result := report (dispatch_root saved.1) in
  do! mmodify (auth_emit (TriggeredCallBy hash who)) in
  do! mmodify (auth_emit (Dispatched result)) in
  mmodify (fun s => set_saved (delete hash (SavedCalls s)) s).

(** ** Dispatch

    Every call runs in a storage layer of its own.  [dispatch_root] dispatches saved calls;
    it is a parameter since they come from the storage. *)
Definition other_call (other : O) o : MA unit :=
  fun s => let '(x, r) := ah_dispatch other o (auth_rest s) in (set_rest x s, r).
Fixpoint dispatch_with (dispatch_root : Call -> MA unit) c o : MA unit :=
  transactional
    match c with
    | CallDispatchAs as_origin call => dispatch_as (dispatch_with dispatch_root) o as_origin call
    | CallScheduleDispatch when priority with_delayed call => schedule_dispatch o when priority with_delayed call
    | CallFastTrack initial_origin task_id when => fast_track_scheduled_dispatch o initial_origin task_id when
    | CallDelay initial_origin task_id additional => delay_scheduled_dispatch o initial_origin task_id additional
    | CallCancel initial_origin task_id => cancel_scheduled_dispatch o initial_origin task_id
    | CallAuthorize call caller => authorize_call o call caller
    | CallRemoveAuthorized hash => remove_authorized_call o hash
    | CallTrigger hash bound => trigger_call dispatch_root o hash bound
    | OtherCall other => other_call other o
    end.
(** A saved call is dispatched as root, and the trigger refuses root before it reads a saved
    call, so that what a second level does is never reached by the calls of this pallet
    ([dispatch_root_ext]); a saved call of the utility pallet that triggers another one as a
    signed origin is outside the model. *)
Definition saved_dispatch c : MA unit := dispatch_with (fun _ s => (s, Panic)) c (SystemOrigin Root).
Definition dispatch c o : MA unit := dispatch_with saved_dispatch c o.
End pallet.

(** ** Theorems *)
Section theorems.
Context {X A H O : Type} {eqA : EqDecision A} {eqH : EqDecision H} {countH : Countable H} {host : AuthorityHost X A H O}.
Abbreviation St := (Authority X A H O).
Abbreviation MA := (M St DispatchError).
Abbreviation Call := (RuntimeCall A H O).
Implicit Types (s : St) (o : Caller A) (c : Call).

(** *** Nested calls *)
Lemma report_Ok (m : MA unit) s s' r : report m s = (s', Ok r) -> m s = (s', r).
Proof. unfold report. destruct (m s) as [t [u|e|]]; naive_solver. Qed.
Lemma transactional_ext {E T} (m1 m2 : M St E T) s : m1 s = m2 s -> transactional m1 s = transactional m2 s.
Proof. unfold transactional. by intros ->. Qed.
Lemma bind_ext {T U} (m : MA T) (k1 k2 : T -> MA U) s : (forall a s', k1 a s' = k2 a s') -> bind m k1 s = bind m k2 s.
Proof. intros Hk. unfold bind. destruct (m s) as [s' [a|e|]]; [apply Hk|done..]. Qed.
Lemma report_ext (m1 m2 : MA unit) s : m1 s = m2 s -> report m1 s = report m2 s.
Proof. unfold report. by intros ->. Qed.
Lemma bind_ext_l {T U} (m1 m2 : MA T) (k : T -> MA U) s : m1 s = m2 s -> bind m1 k s = bind m2 k s.
Proof. unfold bind. by intros ->. Qed.
(** A call dispatched as root never gets to a saved call. *)
Lemma dispatch_root_ext d1 d2 c s : dispatch_with d1 c (SystemOrigin Root) s = dispatch_with d2 c (SystemOrigin Root) s.
Proof.
  revert s. induction c as [[] c IH| | | | |c IH| | |]; intros s; cbn [dispatch_with]; apply transactional_ext; try done.
  unfold dispatch_as. apply bind_ext. intros _ s1. by apply bind_ext_l, report_ext, IH.
Qed.

(** *** Authorizations *)
Definition is_trigger (h : H) (e : AuthorityEvent A H) : bool :=
  match e with TriggeredCallBy h' _ => bool_decide (h' = h) | _ => false end.
Definition is_authorization (h : H) (e : AuthorityEvent A H) : bool :=
  match e with AuthorizedCall h' _ => bool_decide (h' = h) | _ => false end.
Definition count (f : AuthorityEvent A H -> bool) (l : list (AuthorityEvent A H)) : Z :=
  Z.of_nat (length (List.filter f l)).
Definition triggers h s : Z := count (is_trigger h) (auth_events s).
Definition authorizations h s : Z := count (is_authorization h) (auth_events s).
Definition saved h s : Z := if bool_decide (is_Some (SavedCalls s !! h)) then 1 else 0.
Lemma count_snoc f l e : count f (l ++ [e]) = count f l + (if f e then 1 else 0).
Proof. unfold count. rewrite List.filter_app, length_app. cbn. destruct (f e); cbn; lia. Qed.
Lemma saved_range h s : 0 <= saved h s <= 1.
Proof. unfold saved. destruct (bool_decide _); lia. Qed.

(** What a call that triggers nothing does to the books. *)
Record books_kept s s' : Prop := {
  bk_triggers h : triggers h s' = triggers h s;
  bk_auth h : authorizations h s <= authorizations h s';
  bk_credit h : authorizations h s - saved h s <= authorizations h s' - saved h s';
}.
Lemma books_kept_refl s : books_kept s s.
Proof. split; intros h; lia. Qed.
Lemma books_kept_trans s1 s2 s3 : books_kept s1 s2 -> books_kept s2 s3 -> books_kept s1 s3.
Proof. intros [H1 H2 H3] [G1 G2 G3]. split; intros h; [by rewrite G1|etransitivity; [apply H2|apply G2]|etransitivity; [apply H3|apply G3]]. Qed.
Lemma set_rest_books x s : books_kept s (set_rest x s).
Proof. split; intros h; done. Qed.
Lemma set_next_books n s : books_kept s (set_next_task n s).
Proof. split; intros h; done. Qed.
Lemma emit_books e s : (forall h, is_trigger h e = false) -> books_kept s (auth_emit e s).
Proof.
  intros Hf. split; intros h; unfold triggers, authorizations; cbn [auth_emit auth_events]; rewrite count_snoc, ?Hf; try lia.
  - destruct (is_authorization h e); lia.
  - change (saved h (auth_emit e s)) with (saved h s). destruct (is_authorization h e); lia.
Qed.
Lemma delete_books h s : books_kept s (set_saved (delete h (SavedCalls s)) s).
Proof.
  split; intros h'; try done. change (authorizations h' (set_saved _ s)) with (authorizations h' s).
  unfold saved. cbn [set_saved SavedCalls]. destruct (decide (h' = h)) as [->|Hne].
  - rewrite lookup_delete_eq. destruct (bool_decide (is_Some (SavedCalls s !! h))); cbn; lia.
  - rewrite lookup_delete_ne by done. lia.
Qed.
Lemma authorize_books h c caller s :
  books_kept s (auth_emit (AuthorizedCall h caller) (set_saved (<[h := (c, caller)]> (SavedCalls s)) s)).
Proof.
  split; intros h'; unfold triggers, authorizations; cbn [auth_emit set_saved auth_events]; rewrite count_snoc; cbn; try lia.
  - destruct (bool_decide _); lia.
  - unfold saved. cbn. destruct (decide (h' = h)) as [->|Hne].
    + rewrite lookup_insert_eq, (bool_decide_eq_true_2 (h = h)) by done. destruct (bool_decide (is_Some (SavedCalls s !! h))); cbn; lia.
    + rewrite lookup_insert_ne by done. rewrite (bool_decide_eq_false_2 (h = h')) by done. lia.
Qed.
Lemma transactional_books (m : MA unit) s :
  (forall s' u, m s = (s', Ok u) -> books_kept s s') -> books_kept s (transactional m s).1.
Proof. intros Hm. unfold transactional. destruct (m s) as [s' [u|e|]]; cbn; [by eapply Hm|apply books_kept_refl..]. Qed.

Ltac books :=
  lazymatch goal with
  | |- books_kept ?s ?s => apply books_kept_refl
  | |- books_kept _ (auth_emit (AuthorizedCall _ _) (set_saved _ ?t)) => apply (books_kept_trans _ t); [books|apply authorize_books]
  | |- books_kept _ (auth_emit _ ?t) => apply (books_kept_trans _ t); [books|by apply emit_books]
  | |- books_kept _ (set_rest _ ?t) => apply (books_kept_trans _ t); [books|apply set_rest_books]
  | |- books_kept _ (set_next_task _ ?t) => apply (books_kept_trans _ t); [books|apply set_next_books]
  | |- books_kept _ (set_saved (delete _ _) ?t) => apply (books_kept_trans _ t); [books|apply delete_books]
  | |- _ => idtac
  end.
(** Everything but a call that holds or triggers another. *)
Lemma plain_books d c o s :
  match c with CallDispatchAs _ _ | CallTrigger _ _ => False | _ => True end -> books_kept s (dispatch_with d c o s).1.
Proof.
  intros Hc. destruct c; try done; cbn [dispatch_with]; apply transactional_books; intros s' u Hr;
    [unfold schedule_dispatch, scheduler in Hr|unfold fast_track_scheduled_dispatch, scheduler in Hr
    |unfold delay_scheduled_dispatch, scheduler in Hr|unfold cancel_scheduled_dispatch, scheduler in Hr
    |unfold authorize_call in Hr|unfold remove_authorized_call in Hr|unfold other_call in Hr; destruct (ah_dispatch _ _ _)];
    try (injection Hr as <- _); run_inv;
    repeat match goal with Hm : match ?x with Some _ => _ | None => _ end _ = (_, Ok _) |- _ => destruct x; run_inv end; books.
Qed.
Lemma dispatch_root_books d c s : books_kept s (dispatch_with d c (SystemOrigin Root) s).1.
Proof.
  revert s. induction c as [[] c IH| | | | |c IH| | |]; intros s; try (by apply plain_books).
  - cbn [dispatch_with]. apply transactional_books. intros s' u Hr. unfold dispatch_as in Hr. run_inv.
    match goal with Hm : report _ _ = _ |- _ => apply report_Ok in Hm; rename Hm into Hn end.
    specialize (IH s). cbn [into_origin] in Hn. rewrite Hn in IH. cbn in IH. by books.
  - cbn [dispatch_with]. apply transactional_books. intros s' u Hr. unfold trigger_call in Hr. by run_inv.
Qed.

(** *** Runs of the pallet *)
Definition no_authority (x : X) : St := mkAuthority 0 ∅ [] x.
(** A call, from whatever origin, or any change outside the pallet. *)
Inductive auth_step : St -> St -> Prop :=
| step_dispatch c o s : auth_step s (dispatch c o s).1
| step_outside x s : auth_step s (set_rest x s).

Definition spent_ok s : Prop := forall h, triggers h s + saved h s <= authorizations h s.
Lemma books_spent s s' : books_kept s s' -> spent_ok s -> spent_ok s'.
Proof. intros [H1 H2 H3] Hs h. specialize (Hs h). specialize (H3 h). rewrite H1. lia. Qed.
Lemma dispatch_spent c o s : spent_ok s -> spent_ok (dispatch c o s).1.
Proof.
  intros Hs. destruct c as [[] c| | | | | | |h w|]; try (by apply (books_spent s); [apply plain_books|]).
  - apply (books_spent s); [|done]. unfold dispatch. cbn [dispatch_with]. apply transactional_books. intros s' u Hr.
    unfold dispatch_as in Hr. run_inv. match goal with Hm : report _ _ = _ |- _ => apply report_Ok in Hm; rename Hm into Hn end.
    pose proof (dispatch_root_books saved_dispatch c s) as Hb. cbn [into_origin] in Hn. rewrite Hn in Hb. cbn in Hb. by books.
  - unfold dispatch, transactional. cbn [dispatch_with]. unfold transactional.
    destruct (trigger_call saved_dispatch o h w s) as [s' [u|e|]] eqn:Hr; cbn; [|done..].
    unfold trigger_call in Hr. run_inv.
    assert (saved h s = 1) as Hsv by (unfold saved; match goal with Hh : _ !! h = Some _ |- _ => by rewrite Hh end).
    repeat match goal with Hm : match ?x with Some _ => _ | None => _ end _ = (_, Ok _) |- _ => destruct x; run_inv end;
      match goal with Hm : report (saved_dispatch ?c) _ = (?t, _) |- _ => apply report_Ok in Hm;
        pose proof (dispatch_root_books (fun _ s => (s, Panic)) c s) as Hb; unfold saved_dispatch in Hm; rewrite Hm in Hb;
        cbn [fst] in Hb; destruct Hb as [H1 H2 H3] end.
    all: intros h'; specialize (Hs h'); specialize (H1 h'); specialize (H2 h'); specialize (H3 h');
      unfold triggers, authorizations in *; cbn [auth_emit set_saved auth_events]; rewrite !count_snoc;
      cbn [is_trigger is_authorization]; unfold saved in *; cbn [set_saved auth_emit SavedCalls];
      (destruct (decide (h = h')) as [<-|Hne];
       [rewrite lookup_delete_eq; rewrite (bool_decide_eq_true_2 (h = h)) by done; rewrite Hsv in Hs; cbn; lia
       |rewrite lookup_delete_ne by done; rewrite (bool_decide_eq_false_2 (h = h')) by done; lia]).
Qed.

(** *** Saved calls and task indices *)
Definition scheduled_index (e : AuthorityEvent A H) : option Z := match e with Scheduled _ i => Some i | _ => None end.
Definition indices s : list Z := omap scheduled_index (auth_events s).
Record tasks_ok s : Prop := {
  ta_hash h c caller : SavedCalls s !! h = Some (c, caller) -> ah_hash_of c = h;
  ta_sorted : StronglySorted Z.lt (indices s);
  ta_used : Forall (fun i => 0 <= i < NextTaskIndex s) (indices s);
  ta_next : 0 <= NextTaskIndex s <= U32_MAX;
}.
Lemma indices_emit e s : indices (auth_emit e s) = indices s ++ match scheduled_index e with Some i => [i] | None => [] end.
Proof. unfold indices. cbn [auth_emit auth_events]. rewrite omap_app. cbn. by destruct (scheduled_index e). Qed.
Lemma emit_tasks e s : scheduled_index e = None -> tasks_ok s -> tasks_ok (auth_emit e s).
Proof. intros He [H1 H2 H3 H4]. split; try done; rewrite indices_emit, He, app_nil_r; done. Qed.
Lemma set_rest_tasks x s : tasks_ok s -> tasks_ok (set_rest x s).
Proof. intros [H1 H2 H3 H4]. by split. Qed.
Lemma delete_tasks h s : tasks_ok s -> tasks_ok (set_saved (delete h (SavedCalls s)) s).
Proof. intros [H1 H2 H3 H4]. split; try done. cbn. intros h' c caller [_ Hc]%lookup_delete_Some. by eapply H1. Qed.
Lemma authorize_tasks c caller s : tasks_ok s -> tasks_ok (set_saved (<[ah_hash_of c := (c, caller)]> (SavedCalls s)) s).
Proof.
  intros [H1 H2 H3 H4]. split; try done. cbn. intros h' c' caller' [[<- [= <- <-]]|[_ Hc]]%lookup_insert_Some; [done|]. by eapply H1.
Qed.
Lemma schedule_tasks p x s : NextTaskIndex s + 1 <= U32_MAX -> tasks_ok s ->
  tasks_ok (auth_emit (Scheduled p (NextTaskIndex s)) (set_rest x (set_next_task (NextTaskIndex s + 1) s))).
Proof.
  intros Hn [H1 H2 H3 H4]. split; [done|..]; [rewrite indices_emit; cbn [scheduled_index]..|cbn; lia].
  - change (indices (set_rest _ _)) with (indices s). clear -H2 H3. induction H2 as [|i l Hs IH Hf]; cbn; [by repeat constructor|].
    apply Forall_cons in H3 as [Hi H3]. constructor; [by apply IH|]. apply Forall_app. split; [done|]. constructor; [lia|done].
  - apply Forall_app. split; [|constructor; [cbn; lia|done]]. eapply Forall_impl; [exact H3|]. cbn. lia.
Qed.
Lemma transactional_tasks (m : MA unit) s :
  tasks_ok s -> (forall s' u, m s = (s', Ok u) -> tasks_ok s') -> tasks_ok (transactional m s).1.
Proof. intros Hs Hm. unfold transactional. destruct (m s) as [s' [u|e|]]; cbn; [by eapply Hm|done..]. Qed.
Ltac tasks := repeat first [by apply schedule_tasks|apply emit_tasks; [done|]|apply set_rest_tasks|apply delete_tasks|apply authorize_tasks].
Lemma dispatch_with_tasks d c o s : (forall c s, tasks_ok s -> tasks_ok (d c s).1) ->
  tasks_ok s -> tasks_ok (dispatch_with d c o s).1.
Proof.
  intros Hd. revert o s. induction c as [id c IH| | | | |c IH| | |]; intros o s Hs; cbn [dispatch_with];
    apply transactional_tasks; [done| |done| |done| |done| |done| |done| |done| |done| |done|]; intros s' u Hr.
  - unfold dispatch_as in Hr. run_inv. match goal with Hm : report _ _ = _ |- _ => apply report_Ok in Hm; rename Hm into Hn end.
    specialize (IH (into_origin id) s Hs). rewrite Hn in IH. by tasks.
  - unfold schedule_dispatch, scheduler in Hr. run_inv.
    match goal with Hc : checked_add _ _ _ = Some ?n |- _ => unfold checked_add in Hc; destruct (Z.leb_spec (NextTaskIndex s + 1) U32_MAX); [|done];
      injection Hc as <- end. by tasks.
  - unfold fast_track_scheduled_dispatch, scheduler in Hr. run_inv. by tasks.
  - unfold delay_scheduled_dispatch, scheduler in Hr. run_inv. by tasks.
  - unfold cancel_scheduled_dispatch, scheduler in Hr. run_inv. by tasks.
  - unfold authorize_call in Hr. run_inv. by tasks.
  - unfold remove_authorized_call in Hr. run_inv.
    repeat match goal with Hm : match ?x with Some _ => _ | None => _ end _ = (_, Ok _) |- _ => destruct x; run_inv end; by tasks.
  - unfold trigger_call in Hr. run_inv.
    repeat match goal with Hm : match ?x with Some _ => _ | None => _ end _ = (_, Ok _) |- _ => destruct x; run_inv end;
      match goal with Hm : report (d ?c) _ = (?t, _) |- _ => apply report_Ok in Hm; pose proof (Hd c s Hs) as Ht; rewrite Hm in Ht end; by tasks.
  - unfold other_call in Hr. destruct (ah_dispatch _ _ _). injection Hr as <- _. by tasks.
Qed.
Lemma dispatch_tasks c o s : tasks_ok s -> tasks_ok (dispatch c o s).1.
Proof. apply dispatch_with_tasks. intros c' s' Hs. by apply dispatch_with_tasks. Qed.
Lemma run_ok x s : rtc auth_step (no_authority x) s -> spent_ok s /\ tasks_ok s.
Proof.
  intros Hr. assert (spent_ok (no_authority x) /\ tasks_ok (no_authority x)) as Hs.
  { split; [intros h; done|]. split; [done|constructor..|]. cbn. unfold U32_MAX. lia. }
  induction Hr as [|s1 s2 s3 Hst Hr IH]; [done|]. apply IH. destruct Hst as [c o s|y s], Hs as [Hs Ht].
  - split; [by apply dispatch_spent|by apply dispatch_tasks].
  - split; [by apply (books_spent s); [apply set_rest_books|]|by apply set_rest_tasks].
Qed.

(** C23. An authorization is spent once.  In every run of the pallet, whoever dispatches
    whatever calls, nested in each other or triggered from the storage: the call with a
    given hash has been triggered at most as often as root authorized it, less one while
    it is still saved; and a call that is saved under a hash has this hash, so that the
    call that is run is the call that was authorized. *)
Theorem authorizations_spent x s h : rtc auth_step (no_authority x) s ->
  triggers h s + saved h s <= authorizations h s /\
  forall c caller, SavedCalls s !! h = Some (c, caller) -> ah_hash_of c = h.
Proof. intros [Hs Ht]%run_ok. split; [apply Hs|]. intros c caller. apply (ta_hash _ Ht). Qed.

(** No two tasks share an index.  In every run of the pallet the indices of the tasks
    it has scheduled are distinct and in order, and the next one is fresh; when 32 bits are
    used up scheduling fails instead of starting over. *)
Theorem task_indices_unique x s : rtc auth_step (no_authority x) s ->
  StronglySorted Z.lt (indices s) /\ Forall (fun i => 0 <= i < NextTaskIndex s) (indices s) /\ NextTaskIndex s <= U32_MAX.
Proof. intros [_ [H1 H2 H3 H4]]%run_ok. split_and!; [done|done|lia]. Qed.

(** *** Who may do what *)
(** What an origin that is not root needs for a call of the pallet. *)
Definition permitted c o s : Prop :=
  match c with
  | CallDispatchAs OriginIdRoot _ => exists d, SevenDays <= d /\ o = DelayedOrigin d (SystemOrigin Root)
  | CallCancel initial_origin _ => o = initial_origin
  | CallRemoveAuthorized h =>
      exists who call, o = SystemOrigin (Signed who) /\ SavedCalls s !! h = Some (call, Some who)
  | CallTrigger h w =>
      exists who call caller, o = SystemOrigin (Signed who) /\ SavedCalls s !! h = Some (call, caller) /\
        (caller = None \/ caller = Some who) /\ all_gte w (ah_weight call) = true
  | OtherCall _ => True
  | _ => False
  end.
Lemma caller_root_Ok o u : caller_root o = Ok u -> o = SystemOrigin Root.
Proof. by destruct o as [[]| |]. Qed.
Lemma caller_signed_Ok o who : caller_signed o = Ok who -> o = SystemOrigin (Signed who).
Proof. destruct o as [[]| |]; by intros [= ->]. Qed.
Lemma check_dispatch_from_Ok o u : check_dispatch_from OriginIdRoot o = Ok u ->
  o = SystemOrigin Root \/ exists d, SevenDays <= d /\ o = DelayedOrigin d (SystemOrigin Root).
Proof.
  unfold check_dispatch_from. destruct o as [[]|d o|]; cbn; try done; [by left|].
  destruct (Z.leb_spec SevenDays d); [|done]. intros Hr%caller_root_Ok. subst. right. by exists d.
Qed.

(** C24. The powers of the pallet are reserved.  A call of the pallet that succeeds was
    dispatched by root, or else is one of these: a dispatch on behalf of root by an origin
    that root itself has had delayed for seven days; the cancellation of a task by the very
    origin that scheduled it; the removal of an authorized call by the account it names;
    and the triggering of an authorized call, by the account it names if it names one, with
    a weight bound that covers the call.  Scheduling, rescheduling and authorizing are for
    root alone. *)
Theorem powers_reserved c o s s' u : dispatch c o s = (s', Ok u) -> o = SystemOrigin Root \/ permitted c o s.
Proof.
  intros Hr. unfold dispatch in Hr. destruct c as [[] c| | | | | | | |]; cbn [dispatch_with] in Hr; run_inv; cbn [permitted].
  - unfold dispatch_as in Hr. run_inv. by eapply check_dispatch_from_Ok.
  - unfold schedule_dispatch, check_schedule_dispatch in Hr. run_inv. left. by eapply caller_root_Ok.
  - unfold fast_track_scheduled_dispatch, check_fast_track_schedule in Hr. run_inv. left. by eapply caller_root_Ok.
  - unfold delay_scheduled_dispatch, check_delay_schedule in Hr. run_inv. left. by eapply caller_root_Ok.
  - unfold cancel_scheduled_dispatch in Hr. run_inv. match goal with Hc : check_cancel_schedule _ _ = _ |- _ => revert Hc end.
    unfold check_cancel_schedule. destruct (caller_root o) eqn:Ec; [left; by eapply caller_root_Ok|..]; (destruct (bool_decide _) eqn:Eb; [|done]);
      intros _; right; by apply bool_decide_eq_true in Eb.
  - unfold authorize_call in Hr. run_inv. left. by eapply caller_root_Ok.
  - unfold remove_authorized_call in Hr. run_inv. destruct o as [[|who|]| |]; try done; [by left|]. right.
    match goal with Ho : root_or_signed _ = Ok ?w, Hs : SavedCalls s !! _ = Some ?p |- _ => injection Ho as <-; destruct p as [call caller] end.
    run_inv. cbn in *. subst. by eexists _, call.
  - right. unfold trigger_call in Hr. run_inv. match goal with Ho : caller_signed _ = _ |- _ => apply caller_signed_Ok in Ho as -> end.
    match goal with Hs : SavedCalls s !! _ = Some ?p |- _ => destruct p as [call caller] end. eexists _, call, caller.
    split_and!; [done..| |done]. cbn in *. destruct caller; run_inv; [right; by subst|by left].
  - by right.
Qed.
End theorems.

(** ** Witnesses

    A runtime with a clock and an agenda; accounts, hashes and the other pallets' calls
    are numbers.  A hash is a number that tells a few calls apart. *)
Module AuthorityWitness.
Record Agenda : Type := mkAgenda { clock : Z; agenda : list (bytes * (Z * Caller Z)) ; ran : list (Z * Caller Z) }.
Definition find_task (n : bytes) (x : Agenda) : option (bytes * (Z * Caller Z)) :=
  List.find (fun t => bool_decide (t.1 = n)) (agenda x).
Definition without (n : bytes) (x : Agenda) : list (bytes * (Z * Caller Z)) :=
  List.filter (fun t => negb (bool_decide (t.1 = n))) (agenda x).
Definition caller_code (o : Caller Z) : list Z :=
  (fix code o := match o with SystemOrigin Root => [0] | SystemOrigin (Signed a) => [1; a] | SystemOrigin NoneOrigin => [2]
                 | DelayedOrigin d o => 3 :: d :: code o | PalletOrigin i => [4; i] end) o.
#[export] Instance agenda_host : AuthorityHost Agenda Z Z Z := {
  ah_block_number x := clock x;
  ah_schedule n w _ o _ x :=
    match find_task n x with
    | Some _ => None
    | None => Some (mkAgenda (clock x) ((n, (dispatch_block (clock x) w, o)) :: agenda x) (ran x))
    end;
  ah_reschedule n w x :=
    match find_task n x with
    | Some t => Some (mkAgenda (clock x) ((n, (dispatch_block (clock x) w, t.2.2)) :: without n x) (ran x))
    | None => None
    end;
  ah_cancel n x := match find_task n x with Some _ => Some (mkAgenda (clock x) (without n x) (ran x)) | None => None end;
  ah_dispatch c o x := (mkAgenda (clock x) (agenda x) ((c, o) :: ran x), Ok tt);
  ah_encode o i := i :: caller_code o;
  ah_hash_of c := match c with OtherCall n => n | CallDispatchAs _ _ => 1000 | CallAuthorize _ _ => 1001 | _ => 1002 end;
  ah_weight c := mkWeight 10 0;
}.
Abbreviation St := (Authority Agenda Z Z Z).
Abbreviation root := (SystemOrigin (A := Z) Root).
Definition genesis : St := no_authority (mkAgenda 50 [] []).
Abbreviation call_ok c o s := (dispatch c o s).1.

(** Root authorizes call 7 for account 5 and schedules a dispatch as root; account 5 triggers. *)
Definition authorized := call_ok (CallAuthorize (OtherCall 7) (Some 5)) root genesis.
Definition scheduled := call_ok (CallScheduleDispatch (After SevenDays) 0 true (OtherCall 9)) root authorized.
Definition twice := call_ok (CallScheduleDispatch (At 60) 0 false (CallDispatchAs OriginIdRoot (OtherCall 9))) root scheduled.
Definition triggered := call_ok (CallTrigger 7 (mkWeight 10 0)) (SystemOrigin (Signed 5)) twice.
Lemma run : rtc auth_step genesis triggered.
Proof.
  apply (rtc_r _ twice); [apply (rtc_r _ scheduled); [apply (rtc_r _ authorized); [apply rtc_once|]|]|]; apply step_dispatch.
Qed.
Lemma authorizations_spent_witness :
  triggers 7 triggered + saved 7 triggered <= authorizations 7 triggered /\ triggers 7 triggered = 1 /\
  ran (auth_rest triggered) = [(7, root)] /\
  dispatch (CallTrigger 7 (mkWeight 10 0)) (SystemOrigin (Signed 5)) triggered =
    (triggered, Err (auth_err AuthorityError.CallNotAuthorized)).
Proof.
  split; [apply (authorizations_spent (mkAgenda 50 [] []) triggered 7 run)|].
  split_and!; vm_compute; reflexivity.
Defined.
Lemma task_indices_unique_witness :
  StronglySorted Z.lt (indices triggered) /\ indices triggered = [0; 1].
Proof.
  split; [apply (task_indices_unique (mkAgenda 50 [] []) triggered run)|vm_compute; reflexivity].
Defined.
Lemma trigger_eq : dispatch (CallTrigger 7 (mkWeight 10 0)) (SystemOrigin (Signed 5)) twice = (triggered, Ok tt).
Proof. vm_compute. reflexivity. Qed.
Lemma powers_reserved_witness :
  (SystemOrigin (Signed 5) = root \/ permitted (CallTrigger 7 (mkWeight 10 0)) (SystemOrigin (Signed 5)) twice) /\
  (dispatch (CallTrigger 7 (mkWeight 10 0)) (SystemOrigin (Signed 6)) twice).2 = Err (auth_err AuthorityError.TriggerCallNotPermitted).
Proof. split; [apply (powers_reserved _ _ _ _ tt trigger_eq)|vm_compute; reflexivity]. Defined.

(** A task that is fast-tracked keeps the delay it was scheduled with: it runs in the next
    block with an origin that claims seven days. *)
Definition fast := call_ok (CallFastTrack (DelayedOrigin SevenDays root) 0 (After 1)) root scheduled.
Example fast_tracked_delay_untrue :
  agenda (auth_rest fast) = [(0 :: caller_code (DelayedOrigin SevenDays root), (51, DelayedOrigin SevenDays root))] /\
  check_dispatch_from OriginIdRoot (DelayedOrigin SevenDays root) = Ok tt.
Proof. split; vm_compute; reflexivity. Qed.
End AuthorityWitness.
