(* ===== verification/EvmRpc.v ===== *)
(** * The EVM RPC

    Models [src/modules/evm/rpc/src/lib.rs] and [call_request.rs], the calls a node answers
    for wallets: running a contract without a transaction, and estimating the gas and the
    storage of one, with the binary search of the feature [rpc_binary_search_estimate]
    (on by default); and the two ends of it in [src/runtime/src/lib.rs], where the runtime
    reads a request from an extrinsic.

    The runtime behind its API, the fees and the decoding of extrinsics are parameters; an
    API call can fail ([None]).  The node runs on 64 bits. *)

From stdpp Require Import base gmap list strings.
From Stdlib Require Import ZArith Lia.
From S2P Require Import Prelude Interfaces StorageMeter EvmPallet EvmHandler EvmRunner.

Local Open Scope Z_scope.

Definition GAS_LIMIT : Z := 100000000.
Definition STORAGE_LIMIT : Z := 1000000.
Definition U256_MAX : Z := 2 ^ 256 - 1.

(** ** Errors *)
(** Codes of JSON-RPC. *)
Inductive ErrorCode : Type := InternalError | InvalidParams | ServerError (n : Z).
Definition code (c : ErrorCode) : Z :=
  match c with InternalError => -32603 | InvalidParams => -32602 | ServerError n => n end.
(** What the message says; the texts are formatted from it. *)
Inductive Message : Type :=
| MsgOutOfGas
| MsgExecutionError (e : ExitError)
| MsgRevert (reason : option bytes)
| MsgFatal (n : Z)
| MsgInvalidValue (value : option Z)
| MsgRuntimeError
| MsgExecutionFatal (e : DispatchError)
| MsgUndecodable
| MsgNoFeeDetails.
Record RpcError : Type := mkRpcError { err_code : ErrorCode; err_message : Message; err_data : option bytes }.
Definition internal_err (m : Message) : RpcError := mkRpcError InternalError m None.
Definition invalid_params (m : Message) : RpcError := mkRpcError InvalidParams m None.
Abbreviation Rpc := (res RpcError).

(** [str::from_utf8]: the well-formed byte sequences of Unicode. *)
Definition cont (b : Z) : bool := (128 <=? b) && (b <=? 191).
Fixpoint from_utf8 (l : bytes) : bool :=
  match l with
  | [] => true
  | a :: l1 =>
      if a <=? 127 then from_utf8 l1
      else match l1 with
      | [] => false
      | b :: l2 =>
          if (194 <=? a) && (a <=? 223) then cont b && from_utf8 l2
          else match l2 with
          | [] => false
          | c :: l3 =>
              if (224 <=? a) && (a <=? 239) then
                (if a =? 224 then (160 <=? b) && (b <=? 191)
                 else if a =? 237 then (128 <=? b) && (b <=? 159) else cont b) && cont c && from_utf8 l3
              else match l3 with
              | [] => false
              | d :: l4 =>
                  (240 <=? a) && (a <=? 244) &&
                  (if a =? 240 then (144 <=? b) && (b <=? 191)
                   else if a =? 244 then (128 <=? b) && (b <=? 143) else cont b) && cont c && cont d && from_utf8 l4
              end
          end
      end
  end.
(** [msg_start + message_len] wraps around. *)
Definition decode_revert_message (data : bytes) : Rpc (option bytes) :=
  let len := Z.of_nat (length data) in
  if 68 <? len then
    let? word := slice 36 68 data in
    let message_len := Z.min (be_val word) U64_MAX in
    let msg_end := wrap_add U64_MAX 68 message_len in
    if len <? msg_end then Ok None
    else
      let? body := slice 68 (Z.to_nat msg_end) data in
      Ok (if from_utf8 body then Some body else None)
  else Ok None.
Definition error_on_execution_failure (reason : ExitReason) (data : bytes) : Rpc unit :=
  match reason with
  | Succeed _ => Ok tt
  | ErrorExit OutOfGas => Err (mkRpcError (ServerError 0) MsgOutOfGas None)
  | ErrorExit e => Err (mkRpcError InternalError (MsgExecutionError e) (Some []))
  | Revert => let? reason := decode_revert_message data in Err (mkRpcError InternalError (MsgRevert reason) (Some data))
  | Fatal n => Err (mkRpcError InternalError (MsgFatal n) (Some []))
  end.

(** ** Requests *)
Record CallRequest : Type := mkCallRequest {
  cr_from : option H160; cr_to : option H160; cr_gas_limit : option Z; cr_storage_limit : option Z;
  cr_value : option Z; cr_data : option bytes }.
Record EstimateResourcesResponse : Type := mkResponse { er_gas : Z; er_storage : Z; er_weight_fee : Z }.
Definition to_u128 (v : Z) : option Z := if v <=? U128_MAX then Some v else None.
Definition with_gas (g : Z) (r : CallRequest) : CallRequest :=
  mkCallRequest (cr_from r) (cr_to r) (Some g) (cr_storage_limit r) (cr_value r) (cr_data r).

(** *** The runtime's side *)
Inductive ExtrinsicCall : Type :=
| ExtCall (target : H160) (input : bytes) (value gas_limit storage_limit : Z)
| ExtCreate (init : bytes) (value gas_limit storage_limit : Z)
| ExtOther.
Definition get_estimate_resources_request (decode : bytes -> option ExtrinsicCall) (extrinsic : bytes) : res DispatchError CallRequest :=
  let? utx := ok_or (decode extrinsic) (Other "Invalid parameter extrinsic, decode failed") in
  match utx with
  | ExtCall target input value gas_limit storage_limit =>
      Ok (mkCallRequest None (Some target) (Some gas_limit) (Some storage_limit) (Some value) (Some input))
  | ExtCreate init value gas_limit storage_limit =>
      Ok (mkCallRequest None None (Some gas_limit) (Some storage_limit) (Some value) (Some init))
  | ExtOther => Err (Other "Invalid parameter extrinsic, not evm Call")
  end.

(** ** The server *)
(** The runtime API at a block: [None] is an API error. *)
Class RuntimeApi (B : Type) : Type := {
  best_hash : B;
  api_call : B -> H160 -> H160 -> bytes -> Z -> Z -> Z -> bool -> option (CallInfo + DispatchError);
  api_create : B -> H160 -> bytes -> Z -> Z -> Z -> bool -> option (CreateInfo + DispatchError);
  api_estimate_request : B -> bytes -> option (res DispatchError CallRequest);
  (** [query_fee_details(uxt, len).inclusion_fee], its adjusted weight fee. *)
  api_decodes : bytes -> bool;
  api_weight_fee : B -> bytes -> Z -> option (option Z);
}.

Section server.
Context {B : Type} {api : RuntimeApi B}.

(** What all three calls read from a request. *)
Definition balance_value (r : CallRequest) : Rpc Z :=
  match cr_value r with
  | Some v => ok_or (to_u128 v) (invalid_params (MsgInvalidValue (cr_value r)))
  | None => Ok 0
  end.
Definition api_result {T} (r : option (T + DispatchError)) : Rpc T :=
  match r with
  | None => Err (internal_err MsgRuntimeError)
  | Some (inr e) => Err (internal_err (MsgExecutionFatal e))
  | Some (inl info) => Ok info
  end.
Definition at_hash (at_block : option B) : B := default best_hash at_block.
Definition gas_of (r : CallRequest) : Z := Z.min (default GAS_LIMIT (cr_gas_limit r)) GAS_LIMIT.
Definition storage_of (r : CallRequest) : Z := Z.min (default STORAGE_LIMIT (cr_storage_limit r)) STORAGE_LIMIT.
Definition from_of (r : CallRequest) : H160 := default H160_default (cr_from r).

Definition rpc_call (request : CallRequest) (at_block : option B) : Rpc bytes :=
  let hash := at_hash at_block in
  let data := default [] (cr_data request) in
  let? value := balance_value request in
  match cr_to request with
  | Some to =>
      let? info := api_result (api_call hash (from_of request) to data value (gas_of request) (storage_of request) false) in
      let? _ := error_on_execution_failure (exit_reason info) (output info) in
      Ok (output info)
  | None =>
      let? info := api_result (api_create hash (from_of request) data value (gas_of request) (storage_of request) false) in
      let? _ := error_on_execution_failure (ci_exit_reason info) (ci_output info) in
      Ok (ci_output info)
  end.

(** [calculate_gas_used]; [estimate_gas] drops the storage. *)
Definition calculate_used (hash : B) (request : CallRequest) : Rpc (Z * Z) :=
  let data := default [] (cr_data request) in
  let? value := balance_value request in
  match cr_to request with
  | Some to =>
      let? info := api_result (api_call hash (from_of request) to data value (gas_of request) (storage_of request) true) in
      let? _ := error_on_execution_failure (exit_reason info) (output info) in
      Ok (info_used_gas info, info_used_storage info)
  | None =>
      let? info := api_result (api_create hash (from_of request) data value (gas_of request) (storage_of request) true) in
      let? _ := error_on_execution_failure (ci_exit_reason info) [] in
      Ok (ci_used_gas info, ci_used_storage info)
  end.

(** The state of a search. *)
Record Search : Type := mkSearch { lower : Z; upper : Z; mid : Z; best : Z; change_pct : Z; storage : Z }.
Definition search_start : Search := mkSearch 21000 GAS_LIMIT GAS_LIMIT GAS_LIMIT 100 0.
Definition threshold_pct : Z := 10.
(** A run that succeeded: subtraction on [U256] panics below zero. *)
Definition found (used_gas used_storage : Z) (s : Search) : Rpc Search :=
  let old_best := best s in
  if old_best <? used_gas then Panic
  else
    let change := if old_best =? 0 then 0 else 100 * (old_best - used_gas) / old_best in
    Ok (mkSearch (lower s) (mid s) ((lower s + mid s + 1) / 2) used_gas change used_storage).
(** A run that needs more gas. *)
Definition raise (s : Search) : Search :=
  mkSearch (mid s) (upper s) ((mid s + upper s + 1) / 2) (best s) (change_pct s) (storage s).

(** The loops; [None] is out of fuel. *)
Fixpoint gas_loop (fuel : nat) (hash : B) (request : CallRequest) (s : Search) : option (Rpc Z) :=
  match fuel with
  | O => None
  | S fuel =>
      if threshold_pct <? change_pct s then
        match calculate_used hash (with_gas (mid s) request) with
        | Ok (used_gas, used_storage) =>
            match found used_gas used_storage s with
            | Ok s => gas_loop fuel hash request s
            | Err e => Some (Err e)
            | Panic => Some Panic
            end
        | Err _ => let s := raise s in if mid s =? lower s then Some (Ok (best s)) else gas_loop fuel hash request s
        | Panic => Some Panic
        end
      else Some (Ok (best s))
  end.
Definition estimate_gas (fuel : nat) (request : CallRequest) (at_block : option B) : option (Rpc Z) :=
  gas_loop fuel (at_hash at_block) request search_start.

(** An error ends the search also when it raised the limit, unless the search is over. *)
Fixpoint resources_loop (fuel : nat) (hash : B) (request : CallRequest) (s : Search) : option (Rpc (Z * Z)) :=
  match fuel with
  | O => None
  | S fuel =>
      if threshold_pct <? change_pct s then
        match calculate_used hash (with_gas (mid s) request) with
        | Ok (used_gas, used_storage) =>
            match found used_gas used_storage s with
            | Ok s => resources_loop fuel hash request s
            | Err e => Some (Err e)
            | Panic => Some Panic
            end
        | Err err =>
            if code (err_code err) =? code (ServerError 0)
            then let s := raise s in if mid s =? lower s then Some (Ok (best s, storage s)) else Some (Err err)
            else Some (Err err)
        | Panic => Some Panic
        end
      else Some (Ok (best s, storage s))
  end.
Definition estimate_resources (fuel : nat) (from : H160) (unsigned_extrinsic : bytes) (at_block : option B)
    : option (Rpc EstimateResourcesResponse) :=
  let hash := at_hash at_block in
  match api_estimate_request hash unsigned_extrinsic with
  | None => Some (Err (internal_err MsgRuntimeError))
  | Some (Err e) => Some (Err (internal_err (MsgExecutionFatal e)))
  | Some Panic => Some Panic
  | Some (Ok r) =>
      let request := mkCallRequest (Some from) (cr_to r) (cr_gas_limit r) (cr_storage_limit r) (cr_value r) (cr_data r) in
      match resources_loop fuel hash request search_start with
      | None => None
      | Some result => Some (
          let? gs := result in
          let? _ := rensure (api_decodes unsigned_extrinsic) (internal_err MsgUndecodable) in
          let? fee := ok_or (api_weight_fee hash unsigned_extrinsic (Z.of_nat (length unsigned_extrinsic)))
                            (internal_err MsgNoFeeDetails) in
          Ok (mkResponse gs.1 gs.2 (default 0 fee)))
      end
  end.
End server.

(** ** Theorems *)
(** *** Revert messages *)
Lemma slice_app3 {E A} (a b c : list A) : slice (E := E) (length a) (length a + length b) (a ++ b ++ c) = Ok b.
Proof.
  apply slice_Ok. split; [rewrite !length_app; lia|]. rewrite drop_app_length.
  replace (length a + length b - length a)%nat with (length b) by lia. by rewrite take_app_length.
Qed.

(** A revert reason survives.  The data of a revert with a reason is a selector, an
    offset, the length of the reason and the reason, padded; whatever the selector, the
    offset and the padding are, the reason is found again if it is a string. *)
Theorem revert_reason_round_trip selector offset body pad :
  length selector = 4%nat -> length offset = 32%nat -> body <> [] -> from_utf8 body = true ->
  Z.of_nat (length body) < U64_MAX - 68 ->
  decode_revert_message (selector ++ offset ++ be_bytes 32 (Z.of_nat (length body)) ++ body ++ pad) = Ok (Some body).
Proof.
  intros Hs Ho Hb Hu Hl. unfold decode_revert_message. set (word := be_bytes 32 _).
  assert (length word = 32%nat) as Hw by apply length_be_bytes.
  assert (0 < length body)%nat by (destruct body; [done|simpl; lia]).
  rewrite !length_app, Hs, Ho, Hw. destruct (Z.ltb_spec 68 (Z.of_nat (4 + (32 + (32 + (length body + length pad)))))); [|lia].
  pose proof (slice_app3 (E := RpcError) (selector ++ offset) word (body ++ pad)) as Hsw.
  rewrite <- app_assoc, length_app, Hs, Ho, Hw in Hsw. change (4 + 32)%nat with 36%nat in Hsw. change (36 + 32)%nat with 68%nat in Hsw.
  rewrite Hsw. cbn [rbind]. unfold word at 1 2. rewrite be_val_be_bytes_small by (unfold U64_MAX in *; lia).
  rewrite Z.min_l by lia. unfold wrap_add. rewrite wrap_small by (unfold in_u; lia).
  destruct (Z.ltb_spec (Z.of_nat (4 + (32 + (32 + (length body + length pad))))) (68 + Z.of_nat (length body))); [lia|].
  pose proof (slice_app3 (E := RpcError) (selector ++ offset ++ word) body pad) as Hsb.
  rewrite <- !app_assoc, !length_app, Hs, Ho, Hw in Hsb. change (4 + (32 + 32))%nat with 68%nat in Hsb.
  replace (Z.to_nat (68 + Z.of_nat (length body))) with (68 + length body)%nat by lia. rewrite Hsb. cbn [rbind]. by rewrite Hu.
Qed.

(** When the node panics on a revert.  Decoding the data of a revert panics exactly if
    there are more than 68 bytes and the length they claim for the reason is so large that
    the end of the reason wraps around; a contract can choose these bytes. *)
Theorem revert_message_panics data : is_bytes data ->
  decode_revert_message data = Panic <->
  68 < Z.of_nat (length data) /\ U64_MAX + 1 - 68 <= be_val (take 32 (drop 36 data)).
Proof.
  intros Hd. unfold decode_revert_message. destruct (Z.ltb_spec 68 (Z.of_nat (length data))) as [Hlen|]; [|naive_solver lia].
  assert (slice (E := RpcError) 36 68 data = Ok (take 32 (drop 36 data))) as -> by (apply slice_Ok; split; [lia|done]).
  cbn [rbind]. set (m := be_val _). assert (0 <= m) as Hm by (apply be_val_range; by apply Forall_take, Forall_drop).
  destruct (Z.le_gt_cases (U64_MAX + 1 - 68) m) as [Hbig|Hsmall].
  - split; [done|]. intros _. assert (0 <= wrap_add U64_MAX 68 (Z.min m U64_MAX) < 68) as Hw.
    { unfold wrap_add, wrap, U64_MAX in *. set (k := Z.min m _) in *. assert (18446744073709551548 <= k <= 18446744073709551615) by lia.
      rewrite <- (Z_mod_plus_full (68 + k) (-1)). rewrite Z.mod_small; lia. }
    destruct (Z.ltb_spec (Z.of_nat (length data)) (wrap_add U64_MAX 68 (Z.min m U64_MAX))); [lia|].
    unfold slice. by replace (68 <=? Z.to_nat (wrap_add U64_MAX 68 (Z.min m U64_MAX)))%nat with false by (symmetry; apply Nat.leb_gt; lia).
  - split; [|lia]. rewrite Z.min_l by lia. unfold wrap_add. rewrite wrap_small by (unfold in_u; lia).
    destruct (Z.ltb_spec (Z.of_nat (length data)) (68 + m)); [done|].
    unfold slice. replace ((68 <=? Z.to_nat (68 + m))%nat && _) with true; [done|]. symmetry. apply andb_true_intro. split; apply Nat.leb_le; lia.
Qed.

(** *** Estimates *)
Section estimates.
Context {B : Type} {api : RuntimeApi B}.
Variables (hash : B) (request : CallRequest).
(** A run of the request with a gas limit. *)
Definition run_with (limit : Z) : Rpc (Z * Z) := calculate_used hash (with_gas limit request).
Lemma gas_limit_fact : GAS_LIMIT = 100000000.
Proof. done. Qed.

(** The state of a search after its first run: the last run that succeeded had the limit
    [upper]. *)
Record searching (s : Search) : Prop := {
  sg_range : lower s < upper s <= GAS_LIMIT;
  sg_mid : mid s = (lower s + upper s + 1) / 2;
  sg_best : run_with (upper s) = Ok (best s, storage s);
}.
Lemma searching_mid s : searching s -> lower s < mid s <= upper s.
Proof. intros [Hr Hm _]. rewrite Hm. pose proof (Z.div_mod (lower s + upper s + 1) 2). pose proof (Z.mod_pos_bound (lower s + upper s + 1) 2). lia. Qed.
Lemma found_searching s g st s' : lower s < mid s <= GAS_LIMIT -> run_with (mid s) = Ok (g, st) -> found g st s = Ok s' ->
  searching s' /\ lower s' = lower s /\ upper s' = mid s /\ best s' = g.
Proof.
  intros Hm Hr. unfold found. destruct (best s <? g); [done|]. intros [= <-]. split; [|done]. split; cbn; [lia|done|done].
Qed.
Lemma raise_searching s : searching s -> mid (raise s) =? lower (raise s) = false -> searching (raise s).
Proof.
  intros Hs Hne. pose proof (searching_mid s Hs). destruct Hs as [Hr Hm Hb]. cbn in *. split; cbn; [|done|done].
  apply Z.eqb_neq in Hne. destruct (decide (mid s = upper s)) as [He|]; [|lia].
  exfalso. apply Hne. rewrite He. replace (upper s + upper s + 1) with (1 + upper s * 2) by lia. rewrite Z.div_add by lia. done.
Qed.
Lemma half_le w n : 0 < w <= 2 ^ (Z.of_nat (S n)) -> (w + 1) / 2 <= 2 ^ Z.of_nat n.
Proof. intros Hw. rewrite Nat2Z.inj_succ, Z.pow_succ_r in Hw by lia. apply Z.lt_succ_r, Z.div_lt_upper_bound; lia. Qed.
Lemma gas_loop_total n : forall s, searching s -> upper s - lower s <= 2 ^ Z.of_nat n ->
  exists r, gas_loop (S (S n)) hash request s = Some r.
Proof.
  induction n as [|n IH]; intros s Hs Hw; pose proof (searching_mid s Hs) as Hmid; pose proof Hs as [Hr Hm Hb].
  - assert (mid s = upper s) as Hu by (cbn in Hw; lia). cbn [gas_loop]. destruct (_ <? change_pct s); [|by eauto].
    change (calculate_used hash (with_gas (mid s) request)) with (run_with (mid s)). rewrite Hu, Hb.
    unfold found. rewrite Z.ltb_irrefl, Z.sub_diag. cbn. destruct (best s =? 0); by eexists.
  - cbn [gas_loop]. destruct (_ <? change_pct s); [|by eauto].
    change (calculate_used hash (with_gas (mid s) request)) with (run_with (mid s)).
    assert (mid s - lower s <= 2 ^ Z.of_nat n /\ upper s - mid s <= 2 ^ Z.of_nat n) as [Hlo Hup].
    { pose proof (half_le (upper s - lower s) n ltac:(lia)) as Hh.
      replace (upper s - lower s + 1) with ((lower s + upper s + 1) + (- lower s) * 2) in Hh by lia.
      rewrite Z.div_add, <- Hm in Hh by lia. split; [lia|].
      assert (lower s + upper s <= 2 * mid s) by (rewrite Hm; pose proof (Z.mod_pos_bound (lower s + upper s + 1) 2);
        pose proof (Z.div_mod (lower s + upper s + 1) 2); lia). lia. }
    destruct (run_with (mid s)) as [[g st]|e|] eqn:Er; [|..|by eauto].
    + destruct (found g st s) as [s'|e|] eqn:Ef; [|by eauto..].
      destruct (found_searching s g st s' ltac:(lia) Er Ef) as (Hs' & Hl' & Hu' & _). apply IH; [done|lia].
    + destruct (_ =? _) eqn:Ee; [by eauto|]. apply IH; [by apply raise_searching|done].
Qed.
Lemma first_run fuel : gas_loop (S fuel) hash request search_start =
  match run_with GAS_LIMIT with
  | Ok (g, st) => match found g st search_start with
                  | Ok s => gas_loop fuel hash request s | Err e => Some (Err e) | Panic => Some Panic end
  | Err _ => Some (Ok GAS_LIMIT)
  | Panic => Some Panic
  end.
Proof. done. Qed.
Lemma first_found g st s : run_with GAS_LIMIT = Ok (g, st) -> found g st search_start = Ok s ->
  searching s /\ lower s = 21000 /\ upper s = GAS_LIMIT /\ best s = g.
Proof. intros Hr Hf. apply (found_searching search_start g st s); [cbn; rewrite gas_limit_fact; lia|done|done]. Qed.
Lemma estimate_total : exists r, gas_loop 30 hash request search_start = Some r.
Proof.
  rewrite first_run. destruct (run_with GAS_LIMIT) as [[g st]|e|] eqn:Er; [|by eauto..].
  destruct (found g st search_start) as [s|e|] eqn:Ef; [|by eauto..].
  destruct (first_found g st s Er Ef) as (Hs & Hl & Hu & _). apply (gas_loop_total 27); [done|]. rewrite Hl, Hu, gas_limit_fact. cbn. lia.
Qed.
Lemma gas_loop_result P : forall fuel s r, (forall l g st, 21000 < l <= GAS_LIMIT -> run_with l = Ok (g, st) -> P g) ->
  searching s -> 21000 <= lower s -> P (best s) -> gas_loop fuel hash request s = Some (Ok r) -> P r.
Proof.
  induction fuel as [|fuel IH]; intros s r HP Hs Hl Hb; cbn [gas_loop]; [done|].
  pose proof (searching_mid s Hs) as Hmid. pose proof (sg_range s Hs).
  destruct (_ <? change_pct s); [|by intros [= <-]].
  change (calculate_used hash (with_gas (mid s) request)) with (run_with (mid s)).
  destruct (run_with (mid s)) as [[g st]|e|] eqn:Er; [| |done].
  - destruct (found g st s) as [s'|e|] eqn:Ef; [|done..].
    destruct (found_searching s g st s' ltac:(lia) Er Ef) as (Hs' & Hl' & Hu' & Hb'). apply IH; [done|done|lia|].
    rewrite Hb'. apply (HP (mid s) g st); [lia|done].
  - destruct (_ =? _) eqn:Ee; [by intros [= <-]|]. apply IH; [done|by apply raise_searching|cbn; lia|done].
Qed.
End estimates.

Section results.
Context {B : Type} {api : RuntimeApi B}.

(** C25. What an estimate of gas is.  The search ends after at most thirty runs, whatever
    the runtime answers.  If the request succeeds with the highest limit, the estimate is
    the gas that a run of the request has used that succeeded with some limit of the range
    (or the node panics, as a run with a lower limit used more gas than one with a higher
    limit, or on the data of a revert).  If the request fails with the highest limit, for
    whatever reason, that limit is the estimate, and there is no error. *)
Theorem estimate_gas_result request (at_block : option B) :
  exists r, estimate_gas 30 request at_block = Some r /\
    match run_with (at_hash at_block) request GAS_LIMIT with
    | Ok _ => r = Panic \/ exists g l st, r = Ok g /\ 21000 < l <= GAS_LIMIT /\ run_with (at_hash at_block) request l = Ok (g, st)
    | Err _ => r = Ok GAS_LIMIT
    | Panic => r = Panic
    end.
Proof.
  set (hash := at_hash at_block). destruct (estimate_total hash request) as [r Hr]. exists r. split; [exact Hr|].
  rewrite first_run in Hr. destruct (run_with hash request GAS_LIMIT) as [[g st]|e|] eqn:Er; [|by injection Hr..].
  destruct (found g st search_start) as [s|e|] eqn:Ef; [|by unfold found in Ef; destruct (_ <? _)|left; by injection Hr].
  destruct (first_found hash request g st s Er Ef) as (Hs & Hl & Hu & Hb).
  destruct r as [g'|e|]; [right|exfalso|by left].
  - assert (exists l st, 21000 < l <= GAS_LIMIT /\ run_with hash request l = Ok (g', st)) as (l & st' & Hl' & Hg'); [|by exists g', l, st'].
    apply (gas_loop_result hash request (fun g => exists l st, 21000 < l <= GAS_LIMIT /\ run_with hash request l = Ok (g, st)) 29 s);
      [by eauto|done|lia| |done]. exists GAS_LIMIT, st. rewrite Hb. split; [by rewrite gas_limit_fact|done].
  - clear -Hr. revert s Hr. generalize 29%nat. induction n as [|n IH]; intros s; cbn [gas_loop]; [done|].
    destruct (_ <? _); [|done]. destruct (calculate_used _ _) as [[g st]|e'|]; [| |done].
    + unfold found. destruct (_ <? _); [done|]. apply IH.
    + destruct (_ =? _); [done|]. apply IH.
Qed.

(** The estimate of resources gives up.  A request that succeeds with the highest limit
    with far less gas, but runs out of gas in the second run of the search, is answered
    with the error of that second run: the search raises the limit for an answer it does
    not wait for.  And a request that runs out of gas with the highest limit is answered
    as if it had succeeded, with all gas and no storage. *)
Theorem resources_search_gives_up (hash : B) request fuel e :
  code (err_code e) = code (ServerError 0) ->
  (forall g st, run_with hash request GAS_LIMIT = Ok (g, st) -> g < GAS_LIMIT * 89 / 100 ->
     run_with hash request 50010500 = Err e -> resources_loop (S (S fuel)) hash request search_start = Some (Err e)) /\
  (run_with hash request GAS_LIMIT = Err e -> resources_loop (S fuel) hash request search_start = Some (Ok (GAS_LIMIT, 0))).
Proof.
  intros He. split.
  - intros g st H1 Hg H2. cbn [resources_loop]. change (threshold_pct <? change_pct search_start) with true. cbv beta iota.
    change (calculate_used hash (with_gas (mid search_start) request)) with (run_with hash request GAS_LIMIT). rewrite H1.
    unfold found. cbn [best lower mid search_start]. rewrite gas_limit_fact in *. destruct (Z.ltb_spec 100000000 g); [change (100000000 * 89 / 100) with 89000000 in Hg; lia|].
    change (100000000 =? 0) with false. cbv beta iota. cbn [change_pct]. assert (threshold_pct <? 100 * (100000000 - g) / 100000000 = true) as ->.
    { apply Z.ltb_lt. change (100000000 * 89 / 100) with 89000000 in Hg. unfold threshold_pct.
      assert (11 <= 100 * (100000000 - g) / 100000000) by (apply Z.div_le_lower_bound; lia). lia. }
    cbn [mid]. change ((21000 + 100000000 + 1) / 2) with 50010500.
    change (calculate_used hash (with_gas 50010500 request)) with (run_with hash request 50010500). rewrite H2, He, Z.eqb_refl.
    cbn [raise mid lower upper]. by change ((50010500 + 100000000 + 1) / 2 =? 50010500) with false.
  - intros H1. cbn [resources_loop]. change (calculate_used hash (with_gas (mid search_start) request)) with (run_with hash request GAS_LIMIT).
    rewrite H1, He. done.
Qed.
End results.

(** ** Witnesses

    A runtime whose contracts need 60 million gas to run, of which they use 1000. *)
Module RpcWitness.
Definition needs (need used gas : Z) : CallInfo :=
  if need <=? gas then mkCallInfo (Succeed Stopped) [] used 7 else mkCallInfo (ErrorExit OutOfGas) [] gas 0.
#[export] Instance needy : RuntimeApi unit := {
  best_hash := tt;
  api_call _ _ to _ _ gas _ _ := Some (inl (needs (if bool_decide (to = [1]) then 200000000 else 60000000) 1000 gas));
  api_create _ _ _ _ gas storage _ := Some (inl (mkCreateInfo (Succeed Stopped) [] (be_bytes 8 gas) gas storage));
  api_estimate_request _ _ := Some (Ok (mkCallRequest None (Some [2]) None None None None));
  api_decodes _ := true;
  api_weight_fee _ _ _ := Some (Some 5);
}.
Definition req (to : H160) : CallRequest := mkCallRequest None (Some to) None None None None.
Definition reason : bytes := [101; 114; 114; 111; 114].
Lemma revert_reason_round_trip_witness :
  decode_revert_message ([8; 195; 121; 160] ++ be_bytes 32 32 ++ be_bytes 32 5 ++ reason ++ [0; 0; 0]) = Ok (Some reason).
Proof.
  apply (revert_reason_round_trip [8; 195; 121; 160] (be_bytes 32 32) reason [0; 0; 0]);
    [reflexivity|reflexivity|discriminate|reflexivity|unfold U64_MAX; cbn; lia].
Defined.
Definition evil : bytes := replicate 36 0 ++ replicate 32 255 ++ [0].
Lemma evil_bytes : is_bytes evil.
Proof. unfold evil, is_bytes. rewrite !Forall_app. split_and!; [apply Forall_replicate; unfold is_byte; lia..|]. by repeat constructor. Qed.
Lemma revert_message_panics_witness : decode_revert_message evil = Panic.
Proof. apply (revert_message_panics evil evil_bytes). split; [cbn; lia|]. vm_compute. discriminate. Defined.
(** The call that needs 60 million gas: an estimate is found, an error for its resources. *)
Example estimated : estimate_gas 30 (req [2]) None = Some (Ok 1000).
Proof. vm_compute. reflexivity. Qed.
Definition out_of_gas : RpcError := mkRpcError (ServerError 0) MsgOutOfGas None.
Lemma resources_search_gives_up_witness :
  resources_loop 2 tt (req [2]) search_start = Some (Err out_of_gas) /\
  resources_loop 1 tt (req [1]) search_start = Some (Ok (GAS_LIMIT, 0)).
Proof.
  split.
  - apply (proj1 (resources_search_gives_up tt (req [2]) 0 out_of_gas eq_refl) 1000 7);
      [vm_compute; reflexivity|vm_compute; reflexivity|vm_compute; reflexivity].
  - apply (proj2 (resources_search_gives_up tt (req [1]) 0 out_of_gas eq_refl)). vm_compute. reflexivity.
Defined.
(** The call that always fails is estimated all the same. *)
Example hopeless_estimated : estimate_gas 30 (req [1]) None = Some (Ok GAS_LIMIT).
Proof. vm_compute. reflexivity. Qed.
(** The limits apply to a creation, too. *)
Example create_is_limited :
  rpc_call (mkCallRequest None None (Some 200000000) None None None) None = Ok (be_bytes 8 GAS_LIMIT).
Proof. vm_compute. reflexivity. Qed.
End RpcWitness.
