(* ===== verification/Utilities.v ===== *)
(** * Utilities

    Models [src/orml/utilities/src/ordered_set.rs] and [lib.rs] (ordered sets and storage
    transactions), and the computations of [src/orml/traits/src/data_provider.rs] and
    [price.rs] (medians and relative prices).

    Elements are integers, as are the ordered keys of the standard library's
    [binary_search] in [Prelude]; the bound of a set is its length limit. *)

From stdpp Require Import base gmap list strings.
From Stdlib Require Import ZArith Lia Sorted.
From S2P Require Import Prelude.

Local Open Scope Z_scope.

(** ** Ordered sets *)
Abbreviation OrderedSet := (list Z).
Section ordered_set.
(** The bound [S::get()]. *)
Variable bound : Z.

Definition os_new : OrderedSet := [].
(** [Vec::vec_dedup]: of equal neighbours the first is kept. *)
Fixpoint vec_dedup (l : list Z) : list Z :=
  match l with
  | a :: (b :: _) as l' => if a =? b then vec_dedup l' else a :: vec_dedup l'
  | _ => l
  end.
(** [try_into] a bounded vector. *)
Definition bounded (l : list Z) : option OrderedSet := if Z.of_nat (length l) <=? bound then Some l else None.
Definition os_from (v : list Z) : res unit OrderedSet := expect (bounded (vec_dedup (sort_by Z.leb v))).
Definition os_insert (value : Z) (s : OrderedSet) : OrderedSet * bool :=
  match search s value with
  | inl _ => (s, false)
  | inr loc => if Z.of_nat (length s) <? bound then (list_insert_at loc value s, true) else (s, false)
  end.
Definition os_remove (value : Z) (s : OrderedSet) : OrderedSet * bool :=
  match search s value with
  | inl loc => (delete loc s, true)
  | inr _ => (s, false)
  end.
Definition os_contains (value : Z) (s : OrderedSet) : bool := binary_search s value.
Definition os_clear (s : OrderedSet) : OrderedSet := [].

(** *** The set it stands for *)
Inductive SetOp : Type := OpInsert (v : Z) | OpRemove (v : Z) | OpContains (v : Z) | OpClear.
Definition os_op (op : SetOp) (s : OrderedSet) : OrderedSet * bool :=
  match op with
  | OpInsert v => os_insert v s
  | OpRemove v => os_remove v s
  | OpContains v => (s, os_contains v s)
  | OpClear => (os_clear s, true)
  end.
(** The same operations on sets of at most [bound] elements. *)
Definition set_op (op : SetOp) (X : gset Z) : gset Z * bool :=
  match op with
  | OpInsert v => if decide (v ∈ X) then (X, false)
                  else if Z.of_nat (size X) <? bound then ({[ v ]} ∪ X, true) else (X, false)
  | OpRemove v => if decide (v ∈ X) then (X ∖ {[ v ]}, true) else (X, false)
  | OpContains v => (X, bool_decide (v ∈ X))
  | OpClear => (∅, true)
  end.
Fixpoint run_ops {S} (f : SetOp -> S -> S * bool) (ops : list SetOp) (s : S) : S * list bool :=
  match ops with
  | [] => (s, [])
  | op :: ops' => let '(s1, b) := f op s in let '(s2, bs) := run_ops f ops' s1 in (s2, b :: bs)
  end.

(** An ordered list represents the set of its elements. *)
Record represents (l : OrderedSet) (X : gset Z) : Prop := {
  rep_sorted : StronglySorted Z.lt l;
  rep_elem x : x ∈ l <-> x ∈ X;
  rep_bound : Z.of_nat (length l) <= bound;
}.
Lemma sorted_nodup (l : list Z) : StronglySorted Z.lt l -> NoDup l.
Proof.
  induction 1 as [|x l Hs IH Hx]; constructor; [|done]. intros Hin. rewrite Forall_forall in Hx. specialize (Hx x Hin). lia.
Qed.
Lemma rep_size l X : represents l X -> length l = size X.
Proof.
  intros [Hs He _]. assert (X = list_to_set l) as -> by (apply set_eq; intros x; by rewrite elem_of_list_to_set, He).
  by rewrite size_list_to_set by (by apply sorted_nodup).
Qed.
Lemma elem_delete (l : list Z) i v : NoDup l -> l !! i = Some v -> forall x, x ∈ delete i l <-> x ∈ l /\ x <> v.
Proof.
  intros Hnd Hi x. pose proof (delete_Permutation l i v Hi) as Hp.
  assert (x ∈ l <-> x ∈ v :: delete i l) as Hx by (by rewrite <- Hp).
  assert (NoDup (v :: delete i l)) as [Hv _]%NoDup_cons by (by rewrite <- Hp).
  rewrite Hx, elem_of_cons. split; [intros Hd; split; [by right|by intros ->]|]. by intros [[->|?] ?].
Qed.
(** Each operation does on the list what it does on the set. *)
Lemma op_represents op l X : represents l X ->
  represents (os_op op l).1 (set_op op X).1 /\ (os_op op l).2 = (set_op op X).2.
Proof.
  intros Hr. pose proof Hr as [Hs He Hb]. destruct op as [v|v|v|]; cbn [os_op set_op].
  - unfold os_insert. pose proof (search_spec l v Hs) as Hsp. destruct (search l v) as [i|i] eqn:Esr.
    { rewrite decide_True; [done|]. apply He. by eapply list_elem_of_lookup_2. }
    assert (v ∉ l) as Hv. { rewrite <- (binary_search_spec l v Hs). unfold binary_search. by rewrite Esr. }
    rewrite decide_False by (by rewrite <- He). rewrite <- (rep_size l X Hr). destruct (Z.ltb_spec (Z.of_nat (length l)) bound); [|done].
    split; [|done]. cbn. split; [by apply insert_at_sorted| |].
    + intros x. rewrite elem_insert_at, He. set_solver.
    + unfold list_insert_at. rewrite length_app, length_take. cbn. rewrite length_drop. lia.
  - unfold os_remove. pose proof (search_spec l v Hs) as Hsp. destruct (search l v) as [i|i] eqn:Esr.
    + rewrite decide_True by (apply He; by eapply list_elem_of_lookup_2). split; [|done]. cbn. split; [by apply sorted_delete| |].
      * intros x. rewrite (elem_delete l i v) by (done || by apply sorted_nodup). rewrite He. set_solver.
      * pose proof (delete_Permutation l i v Hsp) as Hp%Permutation_length. cbn in Hp. lia.
    + rewrite decide_False; [done|]. rewrite <- He. rewrite <- (binary_search_spec l v Hs). unfold binary_search. by rewrite Esr.
  - split; [done|]. cbn. unfold os_contains. apply eq_bool_prop_intro. rewrite !Is_true_true, bool_decide_eq_true, <- He.
    apply (binary_search_spec l v Hs).
  - split; [|done]. cbn. split; [constructor|set_solver|cbn; lia].
Qed.
Lemma dedup_spec (l : list Z) : StronglySorted (fun x y => (x <=? y) = true) l ->
  StronglySorted Z.lt (vec_dedup l) /\ (forall x, x ∈ vec_dedup l <-> x ∈ l) /\ (length (vec_dedup l) <= length l)%nat.
Proof.
  induction 1 as [|a l Hs IH Ha]; [by repeat constructor|]. destruct l as [|b l]; [split_and!; [by repeat constructor|done|done]|].
  destruct IH as (H1 & H2 & H3). cbn [vec_dedup]. destruct (Z.eqb_spec a b) as [->|Hne].
  - split_and!; [done| |cbn in *; lia]. intros x. rewrite H2, !elem_of_cons. tauto.
  - split_and!; [|intros x; rewrite !elem_of_cons, H2, elem_of_cons; tauto|cbn in *; lia].
    constructor; [done|]. apply Forall_forall. intros x Hx%H2. apply Forall_cons in Ha as [Hab Ha].
    apply Z.leb_le in Hab. apply elem_of_cons in Hx as [->|Hx]; [lia|].
    inversion Hs as [|? ? _ Hbl]. rewrite Forall_forall in Hbl. specialize (Hbl x Hx). apply Z.leb_le in Hbl. lia.
Qed.
Lemma from_represents v : Z.of_nat (length v) <= bound -> exists l, os_from v = Ok l /\ represents l (list_to_set v).
Proof.
  intros Hb. unfold os_from, bounded. pose proof (sort_by_perm Z.leb v) as Hp.
  destruct (dedup_spec (sort_by Z.leb v)) as (H1 & H2 & H3).
  { apply sort_by_sorted; [intros x y; rewrite !Z.leb_le; lia|intros x y z; rewrite !Z.leb_le; lia]. }
  assert (length (sort_by Z.leb v) = length v) as Hl by (by rewrite Hp).
  destruct (Z.leb_spec (Z.of_nat (length (vec_dedup (sort_by Z.leb v)))) bound); [|lia].
  eexists. split; [done|]. split; [done| |done]. intros x. rewrite H2, elem_of_list_to_set. by rewrite Hp.
Qed.

(** An ordered set is a set.  Built from any vector that fits, and under any sequence of
    insertions, removals, tests and clearings, the sorted vector with its binary searches
    gives the answers of a mathematical set of bounded size, and holds its elements, in
    order and each once; building it does not panic. *)
Theorem ordered_set_refines v ops : Z.of_nat (length v) <= bound ->
  exists l, os_from v = Ok l /\
    represents (run_ops os_op ops l).1 (run_ops set_op ops (list_to_set v)).1 /\
    (run_ops os_op ops l).2 = (run_ops set_op ops (list_to_set v)).2.
Proof.
  intros (l & Hl & Hr)%from_represents. exists l. split; [done|]. clear Hl. revert l Hr. generalize (list_to_set (C := gset Z) v).
  induction ops as [|op ops IH]; intros X l Hr; [done|]. cbn [run_ops]. destruct (op_represents op l X Hr) as [H1 H2].
  destruct (os_op op l) as [l1 b1], (set_op op X) as [X1 b2]. cbn [fst snd] in *. destruct (IH X1 l1 H1) as [H3 H4].
  destruct (run_ops os_op ops l1), (run_ops set_op ops X1). cbn in *. by subst.
Qed.
End ordered_set.

(** ** Storage transactions *)
Definition with_transaction_result {S E R} (f : M S E R) : M S E R :=
  with_transaction (fun s => let '(s', r) := f s in (s', if is_ok r then Commit r else Rollback r)).
Definition simulate_execution {S E R} (f : M S E R) : M S E R :=
  with_transaction (fun s => let '(s', r) := f s in (s', Rollback r)).
(** A transaction that keeps the changes of success is what [#[transactional]] makes of a
    function, and a simulation has its result and none of its changes. *)
Lemma transactions_compare {S E R} (f : M S E R) s :
  with_transaction_result f s = transactional f s /\ simulate_execution f s = (s, (f s).2).
Proof.
  unfold with_transaction_result, simulate_execution, transactional, with_transaction. destruct (f s) as [s' [r|e|]]; done.
Qed.

(** ** Medians and prices *)
(** [select_nth_unstable] leaves the element of that rank at its index. *)
Definition median (items : list Z) : option Z :=
  match items with [] => None | _ => sort_by Z.leb items !! (length items / 2)%nat end.
(** The median of what the providers answer. *)
Definition median_value {K} (providers : list (K -> option Z)) (key : K) : option Z :=
  median (omap (fun p => p key) providers).
Definition get_price {C} (source : C -> option Z) (checked_div : Z -> Z -> option Z) (base quote : C) : option Z :=
  match source base, source quote with
  | Some b, Some q => checked_div b q
  | _, _ => None
  end.
Lemma filter_none (P : Z -> Prop) `{forall x, Decision (P x)} l : Forall (fun x => ~ P x) l -> filter P l = [].
Proof. induction 1 as [|x l Hx Hl IH]; [done|]. by rewrite filter_cons_False. Qed.
Lemma length_filter (P : Z -> Prop) `{forall x, Decision (P x)} l : (length (filter P l) <= length l)%nat.
Proof. induction l as [|x l IH]; [done|]. rewrite filter_cons. destruct (decide (P x)); cbn; lia. Qed.
Lemma sorted_around (a b : list Z) m : StronglySorted (fun x y => (x <=? y) = true) (a ++ m :: b) ->
  Forall (fun x => x <= m) a /\ Forall (fun x => m <= x) b.
Proof.
  induction a as [|x a IH]; cbn; intros Hs; inversion Hs as [|? ? Hr Hf]; subst.
  - split; [done|]. eapply Forall_impl; [exact Hf|]. cbn. intros y. apply Z.leb_le.
  - destruct (IH Hr) as [H1 H2]. split; [|done]. constructor; [|done]. rewrite Forall_app, Forall_cons in Hf.
    destruct Hf as (_ & Hf & _). by apply Z.leb_le.
Qed.
Lemma median_some items : items <> [] -> exists m, median items = Some m /\ m ∈ items.
Proof.
  intros Hne. pose proof (sort_by_perm Z.leb items) as Hp. assert (length items / 2 < length (sort_by Z.leb items))%nat as Hlt.
  { rewrite Hp. apply Nat.div_lt_upper_bound; [done|]. destruct items; [done|]. cbn. lia. }
  apply lookup_lt_is_Some_2 in Hlt as [m Hm]. exists m. split; [by destruct items|]. rewrite <- Hp. by eapply list_elem_of_lookup_2.
Qed.
(** The median is one of the items; no more than half of them are smaller, and fewer than
    half are larger. *)
Lemma median_central items m : median items = Some m ->
  m ∈ items /\ (length (filter (fun x => (x < m)%Z) items) <= length items / 2)%nat /\
  (length (filter (fun x => (m < x)%Z) items) < length items - length items / 2)%nat.
Proof.
  intros Hm. assert (items <> []) as Hne by (by intros ->). destruct (median_some items Hne) as (m' & Hm' & Hin).
  assert (m' = m) as -> by congruence. split; [done|]. pose proof (sort_by_perm Z.leb items) as Hp. set (l := sort_by Z.leb items) in *.
  assert (StronglySorted (fun x y => (x <=? y) = true) l) as Hs.
  { apply sort_by_sorted; [intros x y; rewrite !Z.leb_le; lia|intros x y z; rewrite !Z.leb_le; lia]. }
  assert (l !! (length items / 2)%nat = Some m) as Hl by (by destruct items). rewrite <- !Hp in *.
  set (n := (length l / 2)%nat) in *. assert (n < length l)%nat by (by eapply lookup_lt_Some).
  rewrite <- (take_drop_middle l n m Hl) in Hs. apply sorted_around in Hs as [Hlo Hhi].
  pose proof (take_drop_middle l n m Hl) as Hmid.
  assert (length (filter (fun x => x < m) l) = length (filter (fun x => x < m) (take n l)) /\
          length (filter (fun x => m < x) l) = length (filter (fun x => m < x) (drop (S n) l))) as [-> ->].
  { rewrite <- Hmid at 1 3. rewrite !filter_app, !length_app.
    rewrite !filter_cons, !decide_False by lia.
    rewrite (filter_none _ (drop (S n) l)), (filter_none (fun x => m < x) (take n l)); [cbn; lia|..].
    - eapply Forall_impl; [exact Hlo|]. cbn. lia.
    - eapply Forall_impl; [exact Hhi|]. cbn. lia. }
  pose proof (length_filter (fun x => x < m) (take n l)) as H1. pose proof (length_filter (fun x => m < x) (drop (S n) l)) as H2.
  rewrite length_take in H1. rewrite length_drop in H2. lia.
Qed.

(** ** Witnesses *)
Module UtilitiesWitness.
Definition ops : list SetOp := [OpInsert 4; OpInsert 2; OpRemove 1; OpContains 4; OpInsert 9; OpInsert 8; OpRemove 7].
Lemma ordered_set_refines_witness :
  (run_ops (os_op 4) ops [1; 2; 3]).2 = [true; false; true; true; true; false; false] /\
  exists l, os_from 4 [3; 1; 3; 2] = Ok l /\ represents 4 (run_ops (os_op 4) ops l).1 (run_ops (set_op 4) ops (list_to_set [3; 1; 3; 2])).1.
Proof.
  split; [vm_compute; reflexivity|].
  destruct (ordered_set_refines 4 [3; 1; 3; 2] ops ltac:(cbn; lia)) as (l & Hl & Hr & _). exists l. split; [exact Hl|exact Hr].
Defined.
Example median_even : median [5; 13; 2; 7] = Some 7.
Proof. reflexivity. Qed.
End UtilitiesWitness.
