(* ===== verification/OrmlTraits.v ===== *)
(** * Locations and handlers of the orml traits

    Models [src/orml/traits/src/location.rs] and [multi_asset.rs], which take locations of
    other chains apart and find the chain that holds the reserve of an asset, and the
    [Handler] of a tuple in [src/orml/traits/src/lib.rs].  Theorems: the parts of a location
    make up the location, the two providers of reserves differ only for the chain's own
    assets, and a tuple of handlers runs all of them and never fails. *)

From stdpp Require Import base gmap list strings.
From Stdlib Require Import ZArith Lia.
From S2P Require Import Prelude.

Local Open Scope Z_scope.

(** ** Locations *)
(** [xcm::v3]: a junction is a parachain, a key (with its length, so the bytes given), or one
    of the others; the interior of a location is its junctions, [Here] if there are none.
    Of the assets only the fungible ones are built here. *)
Inductive Junction : Type :=
| Parachain (id : Z)
| GeneralKey (key : bytes)
| OtherJunction (code : Z).
Record MultiLocation : Type := mkLocation { parents : Z; interior : list Junction }.
Definition parent : MultiLocation := mkLocation 1 [].
Definition here : MultiLocation := mkLocation 0 [].
Inductive AssetId : Type := Concrete (location : MultiLocation) | Abstract (name : bytes).
Record MultiAsset : Type := mkAsset { asset_id : AssetId; fungible_amount : Z }.

Definition is_chain_junction (j : option Junction) : bool :=
  match j with Some (Parachain _) => true | _ => false end.
Definition chain_part (l : MultiLocation) : option MultiLocation :=
  match parents l, head (interior l) with
  | 1, Some (Parachain id) => Some (mkLocation 1 [Parachain id])
  | 1, _ => Some parent
  | 0, Some (Parachain id) => Some (mkLocation 0 [Parachain id])
  | _, _ => None
  end.
(** The loop of [non_chain_part]. *)
Fixpoint drop_chains (junctions : list Junction) : list Junction :=
  match junctions with
  | j :: rest => if is_chain_junction (Some j) then drop_chains rest else junctions
  | [] => []
  end.
Definition non_chain_part (l : MultiLocation) : option MultiLocation :=
  match drop_chains (interior l) with
  | [] => None
  | junctions => Some (mkLocation 0 junctions)
  end.

(** [AbsoluteReserveProvider] and [RelativeReserveProvider]. *)
Definition absolute_reserve (asset : MultiAsset) : option MultiLocation :=
  match asset_id asset with Concrete location => chain_part location | _ => None end.
Definition relative_reserve (asset : MultiAsset) : option MultiLocation :=
  match asset_id asset with
  | Concrete location =>
      if (parents location =? 0) && negb (is_chain_junction (head (interior location)))
      then Some here else chain_part location
  | _ => None
  end.
Definition sibling_parachain_general_key (para_id : Z) (general_key : bytes) : MultiLocation :=
  mkLocation 1 [Parachain para_id; GeneralKey general_key].
Definition sibling_parachain_asset (para_id : Z) (general_key : bytes) (amount : Z) : MultiAsset :=
  mkAsset (Concrete (sibling_parachain_general_key para_id general_key)) amount.
Definition parent_asset (amount : Z) : MultiAsset := mkAsset (Concrete parent) amount.

(** ** Theorems about locations *)
(** The junctions that [drop_chains] leaves and takes. *)
Lemma drop_chains_split l : exists ids, l = (Parachain <$> ids) ++ drop_chains l /\
  is_chain_junction (head (drop_chains l)) = false.
Proof.
  induction l as [|[id|k|c] l (ids & Hl & Hh)]; cbn; [by exists []| |by exists []..].
  exists (id :: ids). cbn. by rewrite <- Hl.
Qed.

(** The parts of a location make it up.  For a location on this chain, its parent or a
    parachain next to or below it, with no more than one parachain in it, the chain part
    and the rest, put together again, are the location; on this chain there is no chain
    part, and a chain itself has no rest. *)
Theorem parts_make_location l rest : (parents l = 0 \/ parents l = 1) ->
  is_chain_junction (head rest) = false -> (exists id, interior l = Parachain id :: rest) \/ interior l = rest ->
  let chain := default here (chain_part l) in
  let inner := default here (non_chain_part l) in
  l = mkLocation (parents chain) (interior chain ++ interior inner) /\
  interior inner = rest /\ parents inner = 0 /\
  (chain_part l = None <-> parents l = 0 /\ interior l = rest) /\ (non_chain_part l = None <-> rest = []).
Proof.
  intros Hp Hr Hi. assert (drop_chains rest = rest) as Hd by (by destruct rest as [|[]]).
  assert (default here (non_chain_part l) = mkLocation 0 rest /\ (non_chain_part l = None <-> rest = [])) as [Hn Hnn].
  { unfold non_chain_part. destruct Hi as [[id ->]| ->]; cbn [drop_chains is_chain_junction]; rewrite Hd; by destruct rest. }
  cbv zeta. rewrite Hn. cbn [parents interior]. destruct l as [p i]. cbn [parents interior] in *. unfold chain_part. cbn [parents interior].
  destruct Hp as [-> | ->], Hi as [[id ->]| ->]; cbn.
  - split_and!; try done. split; [done|]. intros [_ H0]. exfalso. apply (f_equal length) in H0. cbn in H0. lia.
  - destruct rest as [|[]]; cbn in *; split_and!; done.
  - split_and!; try done. split; [done|]. by intros [? _].
  - destruct rest as [|[]]; cbn in *; split_and!; try done; split; try done; by intros [? _].
Qed.

(** The two providers of reserves agree, except for the chain's own assets: the absolute
    one knows no reserve for them, the relative one answers the chain itself. *)
Theorem reserve_providers_agree asset :
  relative_reserve asset =
  match asset_id asset with
  | Concrete (mkLocation 0 i) => if is_chain_junction (head i) then absolute_reserve asset else Some here
  | _ => absolute_reserve asset
  end /\
  (forall i, asset_id asset = Concrete (mkLocation 0 i) -> is_chain_junction (head i) = false -> absolute_reserve asset = None).
Proof.
  unfold relative_reserve, absolute_reserve. split.
  - destruct (asset_id asset) as [[p i]|]; [|done]. cbn [parents interior]. destruct p; [|done..]. cbn. by destruct (is_chain_junction _).
  - intros i -> Hi. unfold chain_part. cbn. by destruct i as [|[]].
Qed.

(** The reserve of an asset of a sibling is that sibling, and of the parent's the parent. *)
Lemma sibling_reserve id key v : absolute_reserve (sibling_parachain_asset id key v) = Some (mkLocation 1 [Parachain id]) /\
  non_chain_part (sibling_parachain_general_key id key) = Some (mkLocation 0 [GeneralKey key]) /\
  absolute_reserve (parent_asset v) = Some parent.
Proof. done. Qed.

(** ** Handlers *)
Section handlers.
Context {S T : Type}.
(** [Handler::handle] of a tuple; the results of its members are dropped. *)
Fixpoint tuple_handle (handlers : list (T -> M S DispatchError unit)) (t : T) : M S DispatchError unit :=
  match handlers with
  | [] => ret tt
  | h :: handlers' => do! (fun s => match h t s with (s', Panic) => (s', Panic) | (s', _) => (s', Ok tt) end) in tuple_handle handlers' t
  end.
(** What the members do, one after the other. *)
Fixpoint handled (handlers : list (T -> M S DispatchError unit)) (t : T) (s : S) : S :=
  match handlers with [] => s | h :: handlers' => handled handlers' t (h t s).1 end.

(** A tuple of handlers that do not panic runs all of them, in order and whatever fails,
    and succeeds: the errors of its members are lost. *)
Theorem tuple_handle_runs_all handlers t s :
  Forall (fun h => forall t s, (h t s).2 <> Panic) handlers -> tuple_handle handlers t s = (handled handlers t s, Ok tt).
Proof.
  intros Hh. revert s. induction Hh as [|h handlers Hh _ IH]; intros s; [done|]. cbn [tuple_handle handled]. unfold bind at 1.
  specialize (Hh t s). destruct (h t s) as [s' [u|e|]]; cbn [fst snd] in *; [apply IH|apply IH|done].
Qed.
End handlers.
