(* ===== verification/ExamplePallet.v ===== *)
(** * The example pallet

    Models [src/modules/example/src/lib.rs], the tutorial pallet kept beside the others: its
    storage, genesis, hooks and its only call.  The theorem is about blocks, as sequences
    of the hooks and calls. *)

From stdpp Require Import base gmap list strings.
From Stdlib Require Import ZArith Lia.
From S2P Require Import Prelude.

Local Open Scope Z_scope.

Section example.
Context {A : Type} `{Countable A}.
Record ExampleState : Type := mkExample {
  ex_dummy : option Z;
  ex_bar : gmap A Z;
  ex_foo : option Z;
  ex_double : gmap (Z * Z) Z;
  ex_events : list Z;
}.
Implicit Types s : ExampleState.

(** [OnFooEmpty] and the getters of items with a default. *)
Definition OnFooEmpty : Z := 3.
Definition foo s : Z := default OnFooEmpty (ex_foo s).
Definition bar s (who : A) : Z := default 0 (ex_bar s !! who).
Definition put_dummy (v : Z) s : ExampleState := mkExample (Some v) (ex_bar s) (ex_foo s) (ex_double s) (ex_events s).

Record ExampleGenesis : Type := mkExampleGenesis { g_dummy : option Z; g_bar : list (A * Z); g_foo : Z }.
Definition default_genesis : ExampleGenesis := mkExampleGenesis None [] OnFooEmpty.
Definition example_build (g : ExampleGenesis) s : ExampleState :=
  mkExample (match g_dummy g with Some d => Some d | None => ex_dummy s end)
    (foldl (fun m kv => <[kv.1 := kv.2]> m) (ex_bar s) (g_bar g)) (Some (g_foo g)) (ex_double s) (ex_events s).

Definition ex_on_initialize s : ExampleState := put_dummy 10 s.
Definition ex_on_finalize s : ExampleState := put_dummy 11 s.
Definition set_dummy (origin : Origin A) (new_value : Z) : M ExampleState DispatchError unit :=
  do! mlift (ensure_root origin) in
  do! mmodify (put_dummy new_value) in
  mmodify (fun s => mkExample (ex_dummy s) (ex_bar s) (ex_foo s) (ex_double s) (ex_events s ++ [new_value])).
Definition do_set_bar (who : A) (amount : Z) s : ExampleState :=
  mkExample (ex_dummy s) (<[who := amount]> (ex_bar s)) (ex_foo s) (ex_double s) (ex_events s).

(** A block: the hooks around calls; a call that fails is skipped. *)
Definition example_block (calls : list (Origin A * Z)) s : ExampleState :=
  ex_on_finalize (foldl (fun s c => (set_dummy c.1 c.2 s).1) (ex_on_initialize s) calls).

Definition from_root (o : Origin A) : bool := match o with Root => true | _ => false end.
Lemma set_dummy_result o v s :
  set_dummy o v s =
  match o with
  | Root => (mkExample (Some v) (ex_bar s) (ex_foo s) (ex_double s) (ex_events s ++ [v]), Ok tt)
  | _ => (s, Err BadOrigin)
  end.
Proof. by destruct o. Qed.
Lemma calls_effect calls : forall s,
  let s' := foldl (fun s c => (set_dummy c.1 c.2 s).1) s calls in
  ex_bar s' = ex_bar s /\ ex_foo s' = ex_foo s /\
  ex_events s' = ex_events s ++ (filter (fun c => from_root c.1 = true) calls).*2.
Proof.
  induction calls as [|[o v] calls IH]; intros s; cbn [foldl]; [by rewrite app_nil_r|].
  cbv zeta. change (set_dummy (o, v).1 (o, v).2 s) with (set_dummy o v s).
  destruct (IH (set_dummy o v s).1) as (-> & -> & ->). rewrite set_dummy_result, filter_cons.
  destruct o; cbn; [|done..]. by rewrite <- app_assoc.
Qed.

(** Whatever is called in a block, it ends with eleven; there is an event for every call of
    root, in order, and for no other; nothing else changes. *)
Theorem block_ends_with_eleven calls s :
  let s' := example_block calls s in
  ex_dummy s' = Some 11 /\ ex_events s' = ex_events s ++ (filter (fun c => from_root c.1 = true) calls).*2 /\
  ex_bar s' = ex_bar s /\ foo s' = foo s.
Proof.
  destruct (calls_effect calls (ex_on_initialize s)) as (Hb & Hf & He). unfold example_block, foo, ex_on_finalize, put_dummy.
  cbn [ex_dummy ex_bar ex_foo ex_events]. by rewrite Hb, Hf, He.
Qed.

(** At genesis the last value given for an account counts, and the default of [Foo] is
    what reading it without a genesis gives. *)
Lemma build_last g s who v l : g_bar g = l ++ [(who, v)] -> bar (example_build g s) who = v.
Proof. intros Hg. unfold bar, example_build. cbn. rewrite Hg, foldl_app. cbn. by rewrite lookup_insert_eq. Qed.
Lemma default_foo s : foo (example_build default_genesis s) = OnFooEmpty.
Proof. done. Qed.
End example.
