(* ===== verification/RewardCurve.v ===== *)
(** * The reward curve

    Models [src/modules/staking/reward-curve/src/lib.rs] and [log.rs], the macro that turns
    the parameters of an inflation curve into the points of a piecewise linear function
    when the runtime is built: the bounds of the parameters, the integer logarithm, the
    walk down the falling part of the curve and the scaling of the points; and the curve of
    [src/runtime/src/lib.rs].  The parsing of tokens and the generated test module are
    left out.

    Numbers are [u32] in millionths.  A panic of the macro ends the build. *)

From stdpp Require Import base list strings.
From Stdlib Require Import ZArith Lia Sorted.
From S2P Require Import Prelude.

Local Open Scope Z_scope.

Abbreviation Build := (res unit).
Definition assert (b : bool) : Build unit := if b then Ok tt else Panic.
(** [try_into().unwrap()] to [u32]. *)
Definition to_u32 (x : Z) : Build Z := if x <=? U32_MAX then Ok x else Panic.
Definition mul32 (a b : Z) : Z := wrap U32_MAX (a * b).

(** ** [log.rs] *)
(** [1_u32 << n], whose shift is taken modulo 32. *)
Definition pow2 (n : Z) : Z := 2 ^ (n mod 32).
Definition two_div_ln_2 : Z := 2885390.
Fixpoint taylor_power (times : nat) (y_num y_den res : Z) : Z :=
  match times with
  | O => res
  | S times => taylor_power times y_num y_den (res * y_num ^ 2 / y_den ^ 2)
  end.
Definition taylor_term (k : nat) (y_num y_den : Z) : Build Z :=
  match k with
  | O => to_u32 (two_div_ln_2 * y_num / y_den)
  | S k' => to_u32 (taylor_power k' y_num y_den (two_div_ln_2 * y_num ^ 3 / y_den ^ 3) / (2 * Z.of_nat k + 1))
  end.
(** The power of two; [fuel] counts the values [n] can still take. *)
Fixpoint find_power (fuel : nat) (n p q : Z) : Build Z :=
  if (p <? mul32 (pow2 n) q) || (mul32 (pow2 (n + 1)) q <=? p) then
    let n := n + 1 in
    if n <? 32 then match fuel with O => Panic | S fuel => find_power fuel n p q end else Panic
  else Ok n.
(** The series; [None] is out of fuel. *)
Fixpoint sum_terms (fuel : nat) (k : nat) (y_num y_den res : Z) : option (Build Z) :=
  match fuel with
  | O => None
  | S fuel =>
      match taylor_term k y_num y_den with
      | Ok term => if term =? 0 then Some (Ok res) else sum_terms fuel (S k) y_num y_den (wrap_add U32_MAX res term)
      | _ => Some Panic
      end
  end.
Definition log2 (p q : Z) : Build Z :=
  let? _ := assert (q <=? p) in
  let? _ := assert (p <=? U32_MAX / 2) in
  let? _ := assert (p <=? 1000000) in
  let? _ := assert (q <=? 1000000) in
  if p =? q then Ok 0
  else
    let? n := find_power 32 0 p q in
    let? _ := assert (p <? mul32 (pow2 (n + 1)) q) in
    let y_num := wrap_sub U32_MAX p (mul32 (pow2 n) q) in
    let y_den := wrap_add U32_MAX p (mul32 (pow2 n) q) in
    match sum_terms 8 0 y_num y_den (mul32 n 1000000) with
    | Some r => r
    | None => Panic
    end.

(** ** [lib.rs] *)
Definition MILLION : Z := 1000000.
Record INposInput : Type := mkInput {
  min_inflation : Z; ideal_stake : Z; max_inflation : Z; falloff : Z; max_piece_count : Z; test_precision : Z }.
Record Bounds : Type := mkBounds { b_min : Z; min_strict : bool; b_max : Z; max_strict : bool }.
Definition bounds_check (b : Bounds) (value : Z) : bool :=
  let wrong := (min_strict b && (value <=? b_min b)) || (negb (min_strict b) && (value <? b_min b)) ||
               (max_strict b && (b_max b <=? value)) || (negb (max_strict b) && (b_max b <? value)) in
  negb wrong.
(** The fields in the order they are parsed. *)
Definition parse_input (i : INposInput) : bool :=
  bounds_check (mkBounds 0 true 1000000 false) (min_inflation i) &&
  bounds_check (mkBounds (min_inflation i) true 1000000 false) (max_inflation i) &&
  bounds_check (mkBounds 100000 false 900000 false) (ideal_stake i) &&
  bounds_check (mkBounds 10000 false 1000000 false) (falloff i) &&
  bounds_check (mkBounds 2 false 1000 false) (max_piece_count i) &&
  bounds_check (mkBounds 0 false 1000000 false) (test_precision i).

Record INPoS : Type := mkINPoS { i_0 : Z; i_ideal_times_x_ideal : Z; i_ideal : Z; x_ideal : Z; d : Z }.
Definition from_input (i : INposInput) : Build INPoS :=
  let? ideal := to_u32 (max_inflation i * MILLION / ideal_stake i) in
  Ok (mkINPoS (min_inflation i) (max_inflation i) ideal (ideal_stake i) (falloff i)).
Definition compute_opposite_after_x_ideal (inpos : INPoS) (y : Z) : Build Z :=
  if y =? i_0 inpos then Ok U32_MAX
  else
    let? log := log2 (wrap_sub U32_MAX (i_ideal_times_x_ideal inpos) (i_0 inpos)) (wrap_sub U32_MAX y (i_0 inpos)) in
    let? term := to_u32 (d inpos * log / 1000000) in
    Ok (wrap_add U32_MAX (x_ideal inpos) term).

(** The walk; [None] is out of fuel. *)
Fixpoint walk (fuel : nat) (input : INposInput) (inpos : INPoS) (max_length delta_y y : Z) (points : list (Z * Z))
    : option (Build (list (Z * Z))) :=
  match fuel with
  | O => None
  | S fuel =>
      if delta_y =? 0 then Some (Ok (points ++ [(1000000, i_0 inpos)]))
      else
        let next_y := wrap_sub U32_MAX y delta_y in
        if next_y <=? min_inflation input then walk fuel input inpos max_length (sat_sub delta_y 1) y points
        else
          match compute_opposite_after_x_ideal inpos next_y, last points with
          | Ok next_x, Some prev =>
              if max_length <? wrap_sub U32_MAX next_x prev.1 then
                walk fuel input inpos max_length (sat_sub delta_y 1) y points
              else if 1000000 <=? next_x then
                Some (let? dy := to_u32 (wrap_sub U32_MAX next_x 1000000 * wrap_sub U32_MAX prev.2 next_y /
                                         wrap_sub U32_MAX next_x prev.1) in
                      Ok (points ++ [(1000000, wrap_add U32_MAX next_y dy)]))
              else walk fuel input inpos max_length delta_y next_y (points ++ [(next_x, next_y)])
          | _, _ => Some Panic
          end
  end.
Definition max_length_of (i : INposInput) : Z :=
  wrap U32_MAX (max_inflation i - min_inflation i + 1000000 - ideal_stake i) / wrap_sub U32_MAX (max_piece_count i) 1.
Definition compute_points (fuel : nat) (i : INposInput) : option (Build (list (Z * Z))) :=
  match from_input i with
  | Ok inpos =>
      let max_length := max_length_of i in
      walk fuel i inpos max_length max_length (max_inflation i) [(0, i_0 inpos); (x_ideal inpos, i_ideal_times_x_ideal inpos)]
  | _ => Some Panic
  end.
(** Points and maximum in billionths. *)
Fixpoint to_perbill (points : list (Z * Z)) : Build (list (Z * Z)) :=
  match points with
  | [] => Ok []
  | (x, y) :: points =>
      let? x := expect (checked_mul U32_MAX x 1000) in
      let? y := expect (checked_mul U32_MAX y 1000) in
      let? rest := to_perbill points in
      Ok ((x, y) :: rest)
  end.
Record PiecewiseLinear : Type := mkCurve { curve_points : list (Z * Z); curve_maximum : Z }.
Definition generate_piecewise_linear (points : list (Z * Z)) : Build PiecewiseLinear :=
  let max := default 1000000000 (checked_mul U32_MAX (foldr Z.max 0 points.*2) 1000) in
  let? points := to_perbill points in
  Ok (mkCurve points max).
Definition build (fuel : nat) (i : INposInput) : option (Build PiecewiseLinear) :=
  match compute_points fuel i with
  | Some (Ok points) => Some (generate_piecewise_linear points)
  | Some _ => Some Panic
  | None => None
  end.
(** The curve of the runtime. *)
Definition REWARD_CURVE : INposInput := mkInput 45000 500000 275000 50000 40 5500.

(** ** The logarithm *)
Lemma pow2_small n : 0 <= n < 32 -> pow2 n = 2 ^ n.
Proof. intros Hn. unfold pow2. by rewrite Z.mod_small. Qed.
Lemma mul32_small a b : 0 <= a * b <= U32_MAX -> mul32 a b = a * b.
Proof. intros Hab. unfold mul32. apply wrap_small. done. Qed.
Lemma power_small n p q : 0 <= n -> 1 <= q -> q * 2 ^ n <= p -> p <= 1000000 -> n <= 19.
Proof.
  intros Hn Hq Hp Hm. destruct (Z.le_gt_cases n 19); [done|]. exfalso.
  assert (2 ^ 20 <= 2 ^ n) by (apply Z.pow_le_mono_r; lia). change (2 ^ 20) with 1048576 in *. nia.
Qed.
Lemma shifted n p q : 0 <= n <= 19 -> 1 <= q -> q * 2 ^ n <= p -> p <= 1000000 ->
  mul32 (pow2 n) q = q * 2 ^ n /\ mul32 (pow2 (n + 1)) q = q * 2 ^ (n + 1).
Proof.
  intros Hn Hq Hp Hm. assert (2 ^ (n + 1) = 2 * 2 ^ n) as H1 by (rewrite Z.add_1_r, Z.pow_succ_r; lia).
  assert (0 < 2 ^ n) by (apply Z.pow_pos_nonneg; lia).
  rewrite !pow2_small by lia. split; (rewrite mul32_small; [lia|]); unfold U32_MAX; nia.
Qed.
Lemma find_power_spec p q : 1 <= q <= p -> p <= 1000000 -> forall fuel n, 0 <= n -> 32 <= Z.of_nat fuel + n -> q * 2 ^ n <= p ->
  exists m, find_power fuel n p q = Ok m /\ 0 <= m <= 19 /\ q * 2 ^ m <= p < q * 2 ^ (m + 1).
Proof.
  intros Hq Hm. induction fuel as [|fuel IH]; intros n Hn Hf Hp; pose proof (power_small n p q Hn ltac:(lia) Hp Hm); [lia|].
  cbn [find_power]. destruct (shifted n p q) as [-> ->]; [lia..|]. destruct (Z.ltb_spec p (q * 2 ^ n)); [lia|]. cbn [orb].
  destruct (Z.leb_spec (q * 2 ^ (n + 1)) p); [|exists n; by split_and!].
  pose proof (power_small (n + 1) p q ltac:(lia) ltac:(lia) ltac:(lia) Hm).
  destruct (Z.ltb_spec (n + 1) 32); [|lia]. apply IH; lia.
Qed.

(** What each term of the series can be at most. *)
Definition term_bound (k : nat) : Z :=
  match k with O => two_div_ln_2 / 3 | S k' => two_div_ln_2 / 27 / 9 ^ Z.of_nat k' / (2 * Z.of_nat k + 1) end.
Fixpoint bounds_from (fuel k : nat) : Z := match fuel with O => 0 | S fuel => term_bound k + bounds_from fuel (S k) end.
Lemma div_scaled c y d m : 0 <= c -> 0 <= y -> 0 < m -> 0 < d -> m * y <= d -> 0 <= c * y / d <= c / m.
Proof.
  intros Hc Hy Hm Hd Hmd. split; [apply Z.div_pos; nia|]. apply Z.div_le_lower_bound; [lia|].
  assert (m * (c * y / d) <= c * (m * y) / d).
  { replace (c * (m * y)) with (m * (c * y)) by lia. apply Z.div_mul_le; [nia|lia|lia]. }
  assert (c * (m * y) / d <= c) by (apply Z.div_le_upper_bound; nia). lia.
Qed.
Lemma taylor_power_bound y d : 0 <= y -> 0 < d -> 3 * y <= d -> forall t r, 0 <= r ->
  0 <= taylor_power t y d r <= r / 9 ^ Z.of_nat t.
Proof.
  intros Hy Hd H3. assert (9 * y ^ 2 <= d ^ 2) by nia.
  induction t as [|t IH]; intros r Hr; cbn [taylor_power]; [rewrite Z.div_1_r; lia|].
  destruct (div_scaled r (y ^ 2) (d ^ 2) 9) as [H1 H2]; [nia..|]. destruct (IH _ H1) as [H3' H4]. split; [done|].
  rewrite Nat2Z.inj_succ, Z.pow_succ_r by lia. rewrite <- Z.div_div by (try apply Z.pow_pos_nonneg; lia).
  etransitivity; [exact H4|]. apply Z.div_le_mono; [apply Z.pow_pos_nonneg; lia|done].
Qed.
Lemma taylor_term_bound k y d : 0 <= y -> 0 < d -> 3 * y <= d -> exists t, taylor_term k y d = Ok t /\ 0 <= t <= term_bound k.
Proof.
  intros Hy Hd H3. assert (forall x b, 0 <= x <= b -> b <= U32_MAX -> exists t, to_u32 x = Ok t /\ 0 <= t <= b) as Hu.
  { intros x b Hx Hb. unfold to_u32. destruct (Z.leb_spec x U32_MAX); [by exists x|lia]. }
  destruct k as [|k]; cbn [taylor_term term_bound]; apply Hu.
  - apply div_scaled; unfold two_div_ln_2; lia.
  - done.
  - destruct (div_scaled two_div_ln_2 (y ^ 3) (d ^ 3) 27) as [H1 H2];
      [done|by apply Z.pow_nonneg|done|by apply Z.pow_pos_nonneg| |].
    { replace (27 * y ^ 3) with ((3 * y) ^ 3) by ring. apply Z.pow_le_mono_l. lia. }
    destruct (taylor_power_bound y d Hy Hd H3 k _ H1) as [H4 H5]. assert (0 < 9 ^ Z.of_nat k) by (apply Z.pow_pos_nonneg; lia).
    split; [apply Z.div_pos; lia|]. apply Z.div_le_mono; [lia|]. etransitivity; [exact H5|]. by apply Z.div_le_mono.
  - assert (0 < 9 ^ Z.of_nat k) by (apply Z.pow_pos_nonneg; lia).
    assert (two_div_ln_2 / 27 / 9 ^ Z.of_nat k / (2 * Z.of_nat (S k) + 1) <= two_div_ln_2 / 27).
    { assert (forall a b, 0 <= a -> 0 < b -> a / b <= a) as Hle by (intros a b Ha Hb; apply Z.div_le_upper_bound; nia).
      etransitivity; [apply Hle; [apply Z.div_pos; [done|lia]|lia]|]. by apply Hle. }
    change (two_div_ln_2 / 27) with 106866 in *. unfold U32_MAX. lia.
Qed.
Lemma sum_terms_bound y d : 0 <= y -> 0 < d -> 3 * y <= d -> forall fuel k res, (k <= 6 < k + fuel)%nat ->
  0 <= res -> res + bounds_from fuel k <= U32_MAX ->
  exists r, sum_terms fuel k y d res = Some (Ok r) /\ res <= r <= res + bounds_from fuel k.
Proof.
  intros Hy Hd H3. assert (forall f k, 0 <= bounds_from f k) as Hpos.
  { induction f as [|f IH]; intros k; cbn; [done|]. specialize (IH (S k)).
    destruct (taylor_term_bound k 0 1 ltac:(lia) ltac:(lia) ltac:(lia)) as (t & _ & Ht). lia. }
  induction fuel as [|fuel IH]; intros k res Hk Hr Hm; [lia|]. cbn [sum_terms bounds_from] in *.
  destruct (taylor_term_bound k y d Hy Hd H3) as (t & -> & Ht). pose proof (Hpos fuel (S k)).
  destruct (Z.eqb_spec t 0) as [->|Hne]; [exists res; split; [done|lia]|].
  destruct (decide (k = 6%nat)) as [->|Hk6]; [change (term_bound 6) with 0 in Ht; lia|].
  unfold wrap_add. rewrite wrap_small by (unfold in_u; lia). destruct (IH (S k) (res + t)) as (r & Hr' & Hb); [lia..|].
  exists r. split; [done|lia].
Qed.

(** The logarithm is defined and its integer part is exact.  For all arguments with
    1 <= q <= p <= 1000000, [log2] does not panic, its loops end, and its result, in
    millionths, has the binary logarithm of [p / q] as its integer part. *)
Theorem log2_integer_part p q : 1 <= q <= p -> p <= 1000000 ->
  exists r, log2 p q = Ok r /\ 0 <= r < 20000000 /\ q * 2 ^ (r / 1000000) <= p < q * 2 ^ (r / 1000000 + 1).
Proof.
  intros Hq Hm. unfold log2, assert.
  destruct (Z.leb_spec q p); [|lia]. destruct (Z.leb_spec p (U32_MAX / 2)); [|change (U32_MAX / 2) with 2147483647 in *; lia].
  destruct (Z.leb_spec p 1000000); [|lia]. destruct (Z.leb_spec q 1000000); [|lia]. cbn [rbind].
  destruct (Z.eqb_spec p q) as [->|Hne]; [exists 0; change (0 / 1000000) with 0; split; [done|]; change (2 ^ (0 + 1)) with 2; rewrite Z.pow_0_r; lia|].
  destruct (find_power_spec p q Hq Hm 32 0) as (n & -> & Hn & Hlo & Hhi); [lia|lia|cbn; lia|]. cbn [rbind].
  destruct (shifted n p q) as [-> ->]; [lia..|]. destruct (Z.ltb_spec p (q * 2 ^ (n + 1))); [|lia]. cbn [rbind].
  assert (2 ^ (n + 1) = 2 * 2 ^ n) as H2n by (rewrite Z.add_1_r, Z.pow_succ_r; lia).
  unfold wrap_sub, wrap_add. rewrite (wrap_small U32_MAX (p - q * 2 ^ n)) by (unfold in_u, U32_MAX; lia).
  rewrite (wrap_small U32_MAX (p + q * 2 ^ n)) by (unfold in_u, U32_MAX; lia).
  rewrite (mul32_small n) by (unfold U32_MAX; lia).
  destruct (sum_terms_bound (p - q * 2 ^ n) (p + q * 2 ^ n) ltac:(lia) ltac:(lia) ltac:(nia) 8 0 (n * 1000000)) as (r & -> & Hr).
  { lia. } { lia. } { change (bounds_from 8 0) with 999997. unfold U32_MAX. lia. }
  change (bounds_from 8 0) with 999997 in Hr. exists r. split; [done|].
  assert (r / 1000000 = n) as ->. { symmetry. apply (Z.div_unique_pos r 1000000 n (r - n * 1000000)); lia. }
  split; [lia|]. split; lia.
Qed.

(** ** The points *)
(** From a point on, [x] does not fall and [y] does not rise. *)
Fixpoint falls (prev : Z * Z) (l : list (Z * Z)) : Prop :=
  match l with
  | [] => True
  | p :: l => prev.1 <= p.1 /\ p.2 <= prev.2 /\ falls p l
  end.
Lemma falls_snoc prev l p z : last (prev :: l) = Some z -> z.1 <= p.1 -> p.2 <= z.2 -> falls prev l -> falls prev (l ++ [p]).
Proof.
  revert prev. induction l as [|a l IH]; intros prev Hz H1 H2 Hf; cbn [falls app] in *.
  - cbn in Hz. injection Hz as <-. done.
  - destruct Hf as (Ha & Hb & Hf). split_and!; [done..|]. apply IH; try done.
Qed.
Record curve_shape (i : INposInput) (points : list (Z * Z)) : Prop := {
  cs_start : take 2 points = [(0, min_inflation i); (ideal_stake i, max_inflation i)];
  cs_falls : falls (ideal_stake i, max_inflation i) (drop 2 points);
  cs_floor : Forall (fun p => min_inflation i <= p.2) (drop 2 points);
  cs_end : exists y, last points = Some (1000000, y);
}.
Section walking.
Variables (i : INposInput) (inpos : INPoS).
Hypothesis valid : parse_input i = true.
Hypothesis long_enough : max_length_of i <= min_inflation i.
Hypothesis same : from_input i = Ok inpos.

Lemma input_bounds : 0 < min_inflation i < max_inflation i /\ max_inflation i <= 1000000 /\
  100000 <= ideal_stake i <= 900000 /\ 10000 <= falloff i <= 1000000 /\ 2 <= max_piece_count i <= 1000.
Proof using valid. clear -valid. unfold parse_input, bounds_check in valid. cbn in valid. lia. Qed.
Lemma inpos_is : i_0 inpos = min_inflation i /\ i_ideal_times_x_ideal inpos = max_inflation i /\
  x_ideal inpos = ideal_stake i /\ d inpos = falloff i.
Proof using same. clear -same. unfold from_input in same. destruct (to_u32 _); [by injection same as <-|done..]. Qed.
Lemma max_length_range : 0 <= max_length_of i.
Proof using valid.
  pose proof input_bounds. unfold max_length_of, wrap_sub. rewrite !wrap_small by (unfold in_u, U32_MAX; lia). apply Z.div_pos; lia.
Qed.
Lemma opposite_ok y : min_inflation i < y <= max_inflation i ->
  exists x, compute_opposite_after_x_ideal inpos y = Ok x /\ ideal_stake i <= x <= 21000000.
Proof using valid same.
  intros Hy. pose proof input_bounds as (Hmin & Hmax & Hx & Hd & _). destruct inpos_is as (H0 & H1 & H2 & H3).
  unfold compute_opposite_after_x_ideal. rewrite H0, H1, H2, H3. destruct (Z.eqb_spec y (min_inflation i)); [lia|].
  unfold wrap_sub. rewrite !wrap_small by (unfold in_u, U32_MAX; lia).
  destruct (log2_integer_part (max_inflation i - min_inflation i) (y - min_inflation i)) as (r & -> & Hr & _); [lia..|]. cbn [rbind].
  assert (0 <= falloff i * r / 1000000 <= 20000000) as Ht.
  { split; [apply Z.div_pos; nia|]. apply Z.div_le_upper_bound; [lia|]. nia. }
  unfold to_u32. destruct (Z.leb_spec (falloff i * r / 1000000) U32_MAX); [|unfold U32_MAX in *; lia]. cbn [rbind].
  eexists. split; [done|]. unfold wrap_add. rewrite wrap_small by (unfold in_u, U32_MAX; lia). lia.
Qed.

(** The state of the walk. *)
Record on_curve (y : Z) (points : list (Z * Z)) : Prop := {
  oc_start : take 2 points = [(0, min_inflation i); (ideal_stake i, max_inflation i)];
  oc_falls : falls (ideal_stake i, max_inflation i) (drop 2 points);
  oc_floor : Forall (fun p => min_inflation i <= p.2) (drop 2 points);
  oc_last : exists x, last points = Some (x, y) /\ ideal_stake i <= x < 1000000;
  oc_y : min_inflation i < y <= max_inflation i;
}.
Lemma on_curve_snoc y points p x : on_curve y points -> last points = Some (x, y) -> x <= p.1 -> min_inflation i <= p.2 <= y ->
  take 2 (points ++ [p]) = [(0, min_inflation i); (ideal_stake i, max_inflation i)] /\
  falls (ideal_stake i, max_inflation i) (drop 2 (points ++ [p])) /\
  Forall (fun p => min_inflation i <= p.2) (drop 2 (points ++ [p])).
Proof using.
  intros [H1 H2 H3 _ _] Hl Hx Hy. destruct points as [|a [|b rest]]; try done. cbn in H1, H2, H3. injection H1 as -> ->.
  cbn [app take drop]. split; [done|]. split.
  - eapply falls_snoc; [exact Hl|done|cbn; lia|done].
  - apply Forall_app. split; [done|]. constructor; [lia|done].
Qed.
Lemma walk_spec : forall fuel delta_y y points, on_curve y points -> 0 <= delta_y <= max_length_of i ->
  y + delta_y < Z.of_nat fuel ->
  exists l, walk fuel i inpos (max_length_of i) delta_y y points = Some (Ok l) /\ curve_shape i l.
Proof using valid long_enough same.
  pose proof input_bounds as (Hmin & Hmax & Hx & _). pose proof max_length_range. destruct inpos_is as (H0 & _).
  induction fuel as [|fuel IH]; intros delta_y y points Hc Hd Hf; pose proof (oc_y _ _ Hc) as Hy; [lia|]. cbn [walk].
  destruct (oc_last _ _ Hc) as (x & Hl & Hxr).
  destruct (Z.eqb_spec delta_y 0) as [->|Hne].
  { rewrite H0. destruct (on_curve_snoc y points (1000000, min_inflation i) x Hc Hl) as (G1 & G2 & G3); [cbn; lia..|].
    eexists. split; [done|]. split; [done..|]. exists (min_inflation i). by rewrite last_snoc. }
  assert (wrap_sub U32_MAX y delta_y = y - delta_y) as -> by (apply wrap_small; unfold in_u, U32_MAX; lia).
  assert (sat_sub delta_y 1 = delta_y - 1) as Hsat by (unfold sat_sub; lia).
  destruct (Z.leb_spec (y - delta_y) (min_inflation i)); [rewrite Hsat; apply IH; [done|lia|lia]|].
  destruct (opposite_ok (y - delta_y) ltac:(lia)) as (nx & -> & Hnx). rewrite Hl. cbn [fst snd].
  destruct (Z.ltb_spec (max_length_of i) (wrap_sub U32_MAX nx x)) as [|Hgap]; [rewrite Hsat; apply IH; [done|lia|lia]|].
  assert (x <= nx) as Hmono.
  { destruct (Z.le_gt_cases x nx); [done|]. exfalso. unfold wrap_sub, wrap in Hgap. rewrite <- (Z_mod_plus_full (nx - x) 1) in Hgap.
    rewrite Z.mod_small in Hgap by (unfold U32_MAX; lia). unfold U32_MAX in Hgap. lia. }
  destruct (Z.leb_spec 1000000 nx).
  - unfold wrap_sub. rewrite !wrap_small by (unfold in_u, U32_MAX; lia).
    assert (0 <= (nx - 1000000) * (y - (y - delta_y)) / (nx - x) <= delta_y) as Hdy.
    { split; [apply Z.div_pos; nia|]. apply Z.div_le_upper_bound; [lia|]. nia. }
    unfold to_u32. destruct (Z.leb_spec ((nx - 1000000) * (y - (y - delta_y)) / (nx - x)) U32_MAX); [|unfold U32_MAX in *; lia].
    cbn [rbind]. unfold wrap_add. rewrite wrap_small by (unfold in_u, U32_MAX; lia).
    set (ny := y - delta_y + _) in *. destruct (on_curve_snoc y points (1000000, ny) x Hc Hl) as (G1 & G2 & G3); [cbn; lia..|].
    eexists. split; [done|]. split; [done..|]. exists ny. by rewrite last_snoc.
  - destruct (on_curve_snoc y points (nx, y - delta_y) x Hc Hl) as (G1 & G2 & G3); [cbn; lia..|].
    apply IH; [|lia|lia]. split; [done..| |lia]. exists nx. rewrite last_snoc. split; [done|lia].
Qed.
End walking.

(** The points make a curve.  For all parameters within the documented bounds whose
    segments are no longer than the minimal inflation, the macro does not panic and its
    loop ends: the curve starts at the minimal inflation without stake, rises to the
    maximal inflation at the ideal stake, and from there on [x] never falls, [y] never
    rises and never falls below the minimal inflation, up to a point at full stake. *)
Theorem curve_points_shape i fuel :
  parse_input i = true -> max_length_of i <= min_inflation i -> max_inflation i + max_length_of i < Z.of_nat fuel ->
  exists points, compute_points fuel i = Some (Ok points) /\ curve_shape i points.
Proof.
  intros Hv Hl Hf. pose proof (input_bounds i Hv) as (Hmin & Hmax & Hx & _). pose proof (max_length_range i Hv).
  unfold compute_points. destruct (from_input i) as [inpos|e|] eqn:Ei.
  - destruct (inpos_is i inpos Ei) as (-> & -> & -> & _). apply walk_spec; [done|done|done| |lia|done].
    split; [done|done|constructor| |lia]. exists (ideal_stake i). cbn. split; [done|lia].
  - exfalso. unfold from_input in Ei. unfold to_u32 in Ei. by destruct (_ <=? _).
  - exfalso. unfold from_input, to_u32 in Ei. destruct (Z.leb_spec (max_inflation i * MILLION / ideal_stake i) U32_MAX) as [|Hb]; [done|].
    assert (max_inflation i * MILLION / ideal_stake i <= 10000000) by (apply Z.div_le_upper_bound; unfold MILLION; nia).
    unfold U32_MAX in Hb. lia.
Qed.

(** ** Witnesses *)
Module CurveWitness.
Definition fuel : nat := Z.to_nat 300000.
Lemma log2_integer_part_witness : exists r, log2 1000000 1 = Ok r /\ 1 * 2 ^ (r / 1000000) <= 1000000 < 1 * 2 ^ (r / 1000000 + 1).
Proof. destruct (log2_integer_part 1000000 1 ltac:(lia) ltac:(lia)) as (r & Hr & _ & Hb). exists r. split; [exact Hr|exact Hb]. Defined.
(** The curve of the runtime. *)
Lemma reef_valid : parse_input REWARD_CURVE = true /\ max_length_of REWARD_CURVE = 18717.
Proof. by vm_compute. Qed.
Lemma fuel_enough : max_inflation REWARD_CURVE + max_length_of REWARD_CURVE < Z.of_nat fuel.
Proof. unfold fuel. rewrite Z2Nat.id by lia. rewrite (proj2 reef_valid). cbn. lia. Qed.
Lemma curve_points_shape_witness : exists points, compute_points fuel REWARD_CURVE = Some (Ok points) /\ curve_shape REWARD_CURVE points.
Proof.
  apply (curve_points_shape REWARD_CURVE fuel (proj1 reef_valid)); [rewrite (proj2 reef_valid); cbn; lia|exact fuel_enough].
Defined.
(** Two pieces are allowed, but the macro panics on them: the step is longer than the
    inflation, and the first subtraction wraps around. *)
Definition two_pieces : INposInput := mkInput 45000 500000 275000 50000 2 5500.
Example two_pieces_panic : parse_input two_pieces = true /\ compute_points fuel two_pieces = Some Panic.
Proof. split; vm_compute; reflexivity. Qed.
End CurveWitness.
