(* ===== verification/StakingInflation.v ===== *)
(** * Inflation

    Models [src/modules/staking/src/inflation.rs] and the adaptor [ConvertCurve] of
    [src/modules/staking/src/lib.rs], which give the payout of an era from a curve, and
    [src/modules/staking/reward-fn/src/lib.rs], which computes the curve itself with big
    integers and a Taylor series.

    The parts per billion and the evaluation of a curve belong to [sp_runtime], as the
    division of big integers to [sp_arithmetic]: they are fields of classes, with the laws
    the theorems use.  A big integer is a [Z], its number of limbs of 32 bits is
    [limbs]. *)

From stdpp Require Import base list strings.
From Stdlib Require Import ZArith Lia.
From S2P Require Import Prelude RewardCurve.

Local Open Scope Z_scope.

(** ** The payout of an era *)
Class CurveHost : Type := {
  (** [Perbill::from_rational] and [Perbill * N]. *)
  pb_from_rational : Z -> Z -> Z;
  pb_mul : Z -> Z -> Z;
  (** [PiecewiseLinear::calculate_for_fraction_times_denominator]. *)
  curve_calculate : PiecewiseLinear -> Z -> Z -> Z;
}.
(** Parts are taken monotonically and of amounts only; a curve stays below its maximum. *)
Class CurveHostLaws `{CurveHost} : Prop := {
  pb_mul_mono p a b : 0 <= a <= b -> 0 <= pb_mul p a <= pb_mul p b;
  pb_mul_part p a : 0 <= a -> pb_mul p a <= a;
  curve_bounded c n d : 0 <= n <= d -> 0 <= curve_calculate c n d <= pb_mul (curve_maximum c) d;
}.
Section payout.
Context {host : CurveHost} {laws : CurveHostLaws}.
(** A Julian year. *)
Definition MILLISECONDS_PER_YEAR : Z := 1000 * 3600 * 24 * 36525 / 100.
Definition compute_total_payout (yearly_inflation : PiecewiseLinear) (npos_token_staked total_tokens era_duration : Z) : Z * Z :=
  let portion := pb_from_rational era_duration MILLISECONDS_PER_YEAR in
  let payout := pb_mul portion (curve_calculate yearly_inflation npos_token_staked total_tokens) in
  let maximum := pb_mul portion (pb_mul (curve_maximum yearly_inflation) total_tokens) in
  (payout, maximum).
(** [ConvertCurve::era_payout]. *)
Definition era_payout (curve : PiecewiseLinear) (total_staked total_issuance era_duration_millis : Z) : Z * Z :=
  let '(validator_payout, max_payout) := compute_total_payout curve total_staked total_issuance era_duration_millis in
  let rest := sat_sub max_payout validator_payout in
  (validator_payout, rest).

(** What an era issues.  Whatever part of the issuance is staked, the stakers get no
    more than the maximum, and what they get together with the rest is exactly the
    maximum: the era's part of the largest yearly inflation, which is never more than the
    issuance itself. *)
Theorem era_payout_bounded curve staked issuance duration : 0 <= staked <= issuance ->
  let '(validators, rest) := era_payout curve staked issuance duration in
  let '(_, maximum) := compute_total_payout curve staked issuance duration in
  0 <= validators /\ 0 <= rest /\ validators + rest = maximum /\ maximum <= issuance.
Proof using laws.
  intros Hs. unfold era_payout, compute_total_payout. pose proof (curve_bounded curve staked issuance Hs) as Hc.
  set (part := pb_from_rational _ _). pose proof (pb_mul_mono part _ _ Hc) as Hm.
  pose proof (pb_mul_part (curve_maximum curve) issuance ltac:(lia)).
  assert (0 <= pb_mul (curve_maximum curve) issuance) as Hp by (etransitivity; apply Hc).
  pose proof (pb_mul_part part (pb_mul (curve_maximum curve) issuance) Hp). unfold sat_sub. lia.
Qed.
End payout.

(** ** The curve as a function *)
(** Big integers. *)
Definition limbs (x : Z) : Z := Z.log2 x / 32 + 1.
Class BigHost : Type := {
  (** [BigUint::div(&b, false)], the quotient. *)
  big_div : Z -> Z -> option Z;
  (** [P::from_rational(p, q).deconstruct()] and [P / P]. *)
  per_from_rational : Z -> Z -> Z;
  per_div : Z -> Z -> Z;
}.
(** Long division divides a number by a shorter one of at least two limbs. *)
Class BigHostLaws `{BigHost} : Prop := {
  big_div_spec a b : 1 < limbs b < limbs a -> big_div a b = Some (a / b);
}.
Section reward_fn.
Context {host : BigHost} {laws : BigHostLaws}.
(** [P::ACCURACY]. *)
Variable ACCURACY : Z.

(** [div_unit] panics on zero. *)
Definition div_unit (a b : Z) : res unit Z := if b =? 0 then Panic else Ok (a / b).
Definition div_by_stripped (a b : Z) : res unit Z :=
  if limbs b =? 0 then Ok 0
  else if limbs b =? 1 then div_unit a b
  else if limbs a <? limbs b then Ok 0
  else if limbs b =? limbs a then
    let new_a := a * 100000 ^ 2 in
    let? x := div_unit (default 0 (big_div new_a b)) 100000 in
    div_unit x 100000
  else Ok (default 0 (big_div a b)).

Record INPoSParam : Type := mkParam { ln2_div_d : Z; px_ideal : Z; px : Z; accuracy : Z }.
Definition compute_taylor_term (k previous_taylor_term : Z) (p : INPoSParam) : res unit Z :=
  let x_minus_x_ideal := if px_ideal p <=? px p then px p - px_ideal p else 0 in
  let? r := div_unit (previous_taylor_term * x_minus_x_ideal * ln2_div_d p) k in
  let? r := div_by_stripped r (accuracy p) in
  div_by_stripped r (accuracy p).
(** The loop [for k in 1..300]: [n] rounds are left. *)
Fixpoint taylor_loop (n : nat) (k last_taylor_term : Z) (taylor_sum_positive : bool) (taylor_sum : Z) (p : INPoSParam)
    : res unit (bool * Z) :=
  match n with
  | O => Ok (taylor_sum_positive, taylor_sum)
  | S n =>
      let? term := compute_taylor_term k last_taylor_term p in
      if term =? 0 then Ok (taylor_sum_positive, taylor_sum)
      else
        let term_positive := k mod 2 =? 0 in
        if Bool.eqb taylor_sum_positive term_positive then taylor_loop n (k + 1) term taylor_sum_positive (taylor_sum + term) p
        else if term <=? taylor_sum then taylor_loop n (k + 1) term taylor_sum_positive (taylor_sum - term) p
        else taylor_loop n (k + 1) term (negb taylor_sum_positive) (term - taylor_sum) p
  end.
Definition compute_taylor_serie_part (p : INPoSParam) : res unit Z :=
  let? r := taylor_loop 299 1 (accuracy p) true (accuracy p) p in
  Ok (if r.1 : bool then r.2 else 0).
Definition LN2 : Z := 693147180559945309.
Definition compute_inflation (stake ideal_stake falloff : Z) : res unit Z :=
  if stake <? ideal_stake then Ok (per_div stake ideal_stake)
  else if falloff <? ACCURACY / 100 then Ok 0
  else
    let ln2 := per_from_rational LN2 1000000000000000000 in
    let? ln2_div_d := div_by_stripped (ln2 * ACCURACY) falloff in
    let? r := compute_taylor_serie_part (mkParam ln2_div_d ideal_stake stake ACCURACY) in
    Ok (if (r <=? U128_MAX) && (r <=? ACCURACY) then r else 0).

(** *** Reference *)
(** The [k]-th term, rounded down after each division, and the alternating sum of the terms
    before the [n]-th. *)
Definition next_term (p : INPoSParam) (k previous : Z) : Z :=
  previous * (px p - px_ideal p) * ln2_div_d p / k / accuracy p / accuracy p.
Fixpoint reference_sum (p : INPoSParam) (n : nat) (k term : Z) : Z :=
  match n with
  | O => 0
  | S n => let term := next_term p k term in (if k mod 2 =? 0 then term else - term) + reference_sum p n (k + 1) term
  end.

Lemma limbs_spec x : 0 < x -> 2 ^ (32 * (limbs x - 1)) <= x < 2 ^ (32 * limbs x).
Proof.
  intros Hx. unfold limbs. destruct (Z.log2_spec x Hx) as [H1 H2]. pose proof (Z.log2_nonneg x) as Hl.
  pose proof (Z.div_mod (Z.log2 x) 32) as Hd. pose proof (Z.mod_pos_bound (Z.log2 x) 32). split.
  - etransitivity; [|exact H1]. apply Z.pow_le_mono_r; lia.
  - eapply Z.lt_le_trans; [exact H2|]. apply Z.pow_le_mono_r; lia.
Qed.
Lemma limbs_pos x : 1 <= limbs x.
Proof. unfold limbs. pose proof (Z.log2_nonneg x). pose proof (Z.div_pos (Z.log2 x) 32). lia. Qed.
Lemma limbs_lt a b : 0 <= a -> 0 < b -> limbs a < limbs b -> a < b.
Proof.
  intros Ha Hb Hl. destruct (decide (a = 0)) as [->|]; [done|]. destruct (limbs_spec a ltac:(lia)) as [_ H1].
  destruct (limbs_spec b Hb) as [H2 _]. eapply Z.lt_le_trans; [exact H1|]. etransitivity; [|exact H2]. apply Z.pow_le_mono_r; lia.
Qed.
Lemma limbs_grow a : 0 < a -> limbs a < limbs (a * 100000 ^ 2).
Proof.
  intros Ha. destruct (limbs_spec a Ha) as [H1 _]. assert (0 < a * 100000 ^ 2) as Hp by lia. destruct (limbs_spec _ Hp) as [_ H2].
  pose proof (limbs_pos a). pose proof (limbs_pos (a * 100000 ^ 2)). apply Z.nle_gt. intros Hle.
  assert (2 ^ (32 * limbs (a * 100000 ^ 2)) <= 2 ^ (32 * limbs a)) by (apply Z.pow_le_mono_r; lia).
  assert (2 ^ (32 * limbs a) = 2 ^ (32 * (limbs a - 1)) * 2 ^ 32) as He by (rewrite <- Z.pow_add_r by lia; f_equal; lia).
  change (2 ^ 32) with 4294967296 in He. change (100000 ^ 2) with 10000000000 in *. lia.
Qed.

(** The division by cases is division. *)
Lemma div_by_stripped_eq a b : 0 <= a -> 0 < b -> div_by_stripped a b = Ok (a / b).
Proof using laws.
  intros Ha Hb. unfold div_by_stripped, div_unit. pose proof (limbs_pos b) as Hl. destruct (Z.eqb_spec (limbs b) 0); [lia|].
  destruct (Z.eqb_spec (limbs b) 1); [by destruct (Z.eqb_spec b 0); [lia|]|].
  destruct (Z.ltb_spec (limbs a) (limbs b)) as [Hlt|Hge]; [rewrite Z.div_small by (pose proof (limbs_lt a b); lia); done|].
  destruct (Z.eqb_spec (limbs b) (limbs a)) as [He|Hne]; [|rewrite big_div_spec by lia; done].
  assert (0 < a) as Hpa. { destruct (decide (a = 0)) as [->|]; [|lia]. change (limbs 0) with 1 in Hge. lia. }
  rewrite big_div_spec by (pose proof (limbs_grow a Hpa); lia). cbn [default from_option id rbind Z.eqb].
  f_equal. rewrite !Z.div_div by lia. transitivity (a * 10000000000 / (b * 10000000000)); [f_equal; lia|].
  apply Z.div_mul_cancel_r; lia.
Qed.
Section series.
Variable p : INPoSParam.
Hypothesis above : px_ideal p <= px p.
Hypothesis accurate : 0 < accuracy p.
Hypothesis growth : 0 <= ln2_div_d p.

Lemma next_term_nonneg k t : 0 < k -> 0 <= t -> 0 <= next_term p k t.
Proof using above accurate growth. intros Hk Ht. unfold next_term. repeat (apply Z.div_pos; [|lia]). repeat apply Z.mul_nonneg_nonneg; lia. Qed.
Lemma taylor_term_eq k t : 0 < k -> 0 <= t -> compute_taylor_term k t p = Ok (next_term p k t).
Proof using above accurate growth laws.
  intros Hk Ht. unfold compute_taylor_term, div_unit. destruct (Z.leb_spec (px_ideal p) (px p)); [|lia].
  destruct (Z.eqb_spec k 0); [lia|]. cbn [rbind]. set (a := t * _ * _). assert (0 <= a) by (unfold a; repeat apply Z.mul_nonneg_nonneg; lia).
  rewrite div_by_stripped_eq by (try apply Z.div_pos; lia). cbn [rbind].
  rewrite div_by_stripped_eq by (repeat (apply Z.div_pos; [|lia]); lia). done.
Qed.
(** After a term that is zero all terms are. *)
Lemma reference_zero n k : reference_sum p n k 0 = 0.
Proof.
  revert k. induction n as [|n IH]; intros k; [done|]. cbn [reference_sum]. unfold next_term. rewrite !Z.mul_0_l, !Zdiv_0_l.
  rewrite IH. by destruct (_ =? _).
Qed.
(** A sign and a magnitude. *)
Definition signed (r : bool * Z) : Z := if r.1 : bool then r.2 else - r.2.
Lemma taylor_loop_eq n : forall k t pos sum, 0 < k -> 0 <= t -> 0 <= sum ->
  exists r, taylor_loop n k t pos sum p = Ok r /\ 0 <= r.2 /\ signed r = signed (pos, sum) + reference_sum p n k t.
Proof using above accurate growth laws.
  induction n as [|n IH]; intros k t pos sum Hk Ht Hs; cbn [taylor_loop reference_sum]; [exists (pos, sum); split_and!; [done|done|lia]|].
  rewrite taylor_term_eq by done. cbn [rbind]. pose proof (next_term_nonneg k t Hk Ht) as Hn. set (t' := next_term p k t) in *.
  destruct (Z.eqb_spec t' 0) as [->|Hne].
  { rewrite reference_zero. exists (pos, sum). split_and!; [done|done|]. destruct (k mod 2 =? 0); lia. }
  destruct (k mod 2 =? 0) eqn:Ek, pos; cbn [Bool.eqb negb];
    try (destruct (Z.leb_spec t' sum)); match goal with |- context [taylor_loop n (k + 1) t' ?b ?s p] =>
      destruct (IH (k + 1) t' b s) as (r & -> & Hr & Hrs); [lia..|] end;
    (exists r; split_and!; [done|done|]; rewrite Hrs; unfold signed; cbn; lia).
Qed.
End series.

(** The inflation function computes its series.  From the ideal stake on, with a falloff
    of at least one percent, the result is the alternating sum of the first 300 terms of
    the Taylor series of the exponential, each rounded down after each division, if the sum
    is between zero and one, and zero otherwise; the division by cases on the length of
    big integers is division, the early end of the loop and the bookkeeping of signs lose
    nothing, and nothing panics. *)
Theorem inflation_reference stake ideal_stake falloff :
  0 < ACCURACY <= U128_MAX -> 0 <= per_from_rational LN2 1000000000000000000 ->
  0 <= ideal_stake <= stake -> ACCURACY / 100 <= falloff -> 0 < falloff ->
  compute_inflation stake ideal_stake falloff = Ok (
    let p := mkParam (per_from_rational LN2 1000000000000000000 * ACCURACY / falloff) ideal_stake stake ACCURACY in
    let sum := ACCURACY + reference_sum p 299 1 ACCURACY in
    if (0 <=? sum) && (sum <=? ACCURACY) then sum else 0).
Proof using laws.
  intros HA Hln Hs Hf Hf0. unfold compute_inflation. destruct (Z.ltb_spec stake ideal_stake); [lia|].
  destruct (Z.ltb_spec falloff (ACCURACY / 100)); [lia|]. rewrite div_by_stripped_eq by nia. cbn [rbind].
  set (p := mkParam _ _ _ _). unfold compute_taylor_serie_part.
  assert (0 <= ln2_div_d p) as Hd by (cbn; apply Z.div_pos; nia).
  destruct (taylor_loop_eq p ltac:(cbn; lia) ltac:(cbn; lia) Hd 299 1 (accuracy p) true (accuracy p)) as ([pos m] & -> & Hr & Hrs); [cbn; lia..|].
  cbn [rbind fst snd] in *. unfold signed in Hrs. cbn [fst snd] in Hrs. change (accuracy p) with ACCURACY in Hrs. f_equal. cbv zeta. rewrite <- Hrs.
  destruct pos.
  - destruct (Z.leb_spec m U128_MAX), (Z.leb_spec m ACCURACY), (Z.leb_spec 0 m); cbn; lia.
  - destruct (Z.leb_spec 0 U128_MAX), (Z.leb_spec 0 ACCURACY), (Z.leb_spec 0 (- m)), (Z.leb_spec (- m) ACCURACY); cbn; lia.
Qed.
End reward_fn.

(** ** Witnesses *)
Module InflationWitness.
(** Parts that round down, and a curve that falls to nothing at full stake. *)
#[export] Instance billionths : CurveHost := {
  pb_from_rational n m := Z.min 1000000000 (n * 1000000000 / m);
  pb_mul p a := Z.max 0 (Z.min 1000000000 p) * a / 1000000000;
  curve_calculate c n m := Z.max 0 (Z.min 1000000000 (curve_maximum c)) * (m - n) / 1000000000;
}.
#[export] Instance billionths_laws : CurveHostLaws.
Proof.
  split; cbn.
  - intros p a b Hab. set (q := Z.max _ _). assert (0 <= q) by (unfold q; lia).
    split; [apply Z.div_pos; nia|]. apply Z.div_le_mono; nia.
  - intros p a Ha. set (q := Z.max _ _). assert (0 <= q <= 1000000000) by (unfold q; lia). apply Z.div_le_upper_bound; nia.
  - intros c n m Hn. set (q := Z.max _ _). assert (0 <= q) by (unfold q; lia).
    split; [apply Z.div_pos; nia|]. apply Z.div_le_mono; nia.
Qed.
Definition flat : PiecewiseLinear := mkCurve [] 100000000.
(** A day with half of the issuance staked. *)
Lemma era_payout_bounded_witness :
  era_payout flat 500000000 1000000000 86400000 = (136892, 136893) /\
  snd (compute_total_payout flat 500000000 1000000000 86400000) <= 1000000000.
Proof.
  pose proof (era_payout_bounded flat 500000000 1000000000 86400000 ltac:(lia)) as Hb.
  split; [vm_compute; reflexivity|].
  destruct (era_payout flat 500000000 1000000000 86400000), (compute_total_payout flat 500000000 1000000000 86400000).
  exact (proj2 (proj2 (proj2 Hb))).
Defined.

#[export] Instance bigs : BigHost := {
  big_div a b := if (1 <? limbs b) && (limbs b <? limbs a) then Some (a / b) else None;
  per_from_rational n m := n * 1000000000000000000 / m;
  per_div a b := a * 1000000000000000000 / b;
}.
#[export] Instance bigs_laws : BigHostLaws.
Proof.
  split. intros a b [H1 H2]. cbn. apply Z.ltb_lt in H1, H2. by rewrite H1, H2.
Qed.
(** Ten percent above the ideal stake, with a falloff of ten percent, the inflation is half. *)
Definition quint : Z := 1000000000000000000.
Lemma ln2_nonneg : 0 <= per_from_rational LN2 1000000000000000000.
Proof. vm_compute. discriminate. Qed.
Lemma one_percent : quint / 100 <= 100000000000000000.
Proof. vm_compute. discriminate. Qed.
Lemma inflation_reference_witness : exists s,
  compute_inflation quint 600000000000000000 500000000000000000 100000000000000000 = Ok s /\ s = 500000000000000000.
Proof.
  rewrite (inflation_reference quint 600000000000000000 500000000000000000 100000000000000000
    ltac:(unfold quint, U128_MAX; lia) ln2_nonneg ltac:(lia) one_percent ltac:(lia)).
  eexists. split; [reflexivity|]. vm_compute. reflexivity.
Defined.
End InflationWitness.
