(* ===== verification/StakingChecks.v ===== *)
(** * Exposures and the pallet's own checks

    Models, from [src/modules/staking/src/pallet/impls.rs], the lists that are read off the
    maps of validators and nominators ([UseValidatorsMap], which is the runtime's list of
    targets, and [UseNominatorsAndValidatorsMap]) and the checks of [do_try_state] beside
    that of ledgers; and the genesis of [src/modules/staking/src/pallet/mod.rs].  Theorems:
    the exposures an election leaves in the storage are sound in every run, the lists are
    what their trait promises, a genesis that builds is sound, and the checks pass.

    A map of the storage is iterated in the order of its hashed keys; the order of
    [map_to_list] stands for it. *)

From stdpp Require Import base gmap list strings.
From Stdlib Require Import ZArith Lia.
From S2P Require Import Prelude StakingLedger SlashingSpans Staking StakingBonds StakingSlashing StakingEras StakingRuns StakingRoles.

Local Open Scope Z_scope.

Section checks.
Context {X A : Type} {eqA : EqDecision A} {countA : Countable A} {host : StakingHost X A}.
Abbreviation St := (Staking X A).
Implicit Types s : St.

(** ** Maps as lists *)
(** [StorageMap::iter_from]: what follows the key. *)
Fixpoint after (start : A) (l : list A) : list A :=
  match l with
  | [] => []
  | a :: l' => if bool_decide (a = start) then l' else after start l'
  end.
Definition validator_keys s : list A := (map_to_list (Validators (stakes s))).*1.
Definition nominator_keys s : list A := (map_to_list (Nominators (stakes s))).*1.
Definition validators_count s : Z := Z.of_nat (size (Validators (stakes s))).
Definition nominators_count s : Z := Z.of_nat (size (Nominators (stakes s))).

(** [UseValidatorsMap].  Inserting, updating and removing do nothing. *)
Definition vm_iter s : list A := validator_keys s.
Definition vm_iter_from s (start : A) : res unit (list A) :=
  if bool_decide (is_Some (Validators (stakes s) !! start)) then Ok (after start (validator_keys s)) else Err tt.
Definition vm_count s : Z := validators_count s.
Definition vm_contains s (id : A) : bool := bool_decide (is_Some (Validators (stakes s) !! id)).
Definition vm_get_score s (id : A) : res unit Z := Ok (weight_of s id).
Definition vm_unsafe_clear s : St := set_validators ∅ s.

(** [UseNominatorsAndValidatorsMap]. *)
Definition nvm_iter s : list A := validator_keys s ++ nominator_keys s.
Definition nvm_iter_from s (start : A) : res unit (list A) :=
  if bool_decide (is_Some (Validators (stakes s) !! start)) then Ok (after start (validator_keys s) ++ nominator_keys s)
  else if bool_decide (is_Some (Nominators (stakes s) !! start)) then Ok (after start (nominator_keys s))
  else Err tt.
Definition nvm_count s : Z := sat_add U32_MAX (nominators_count s) (validators_count s).
Definition nvm_contains s (id : A) : bool :=
  bool_decide (is_Some (Nominators (stakes s) !! id)) || bool_decide (is_Some (Validators (stakes s) !! id)).
Definition nvm_get_score s (id : A) : res unit Z := Ok (weight_of s id).
Definition nvm_unsafe_clear s : St := set_validators ∅ (set_nominators ∅ s).

(** ** [do_try_state] *)
Section try_state.
Variable cfg : StakingConfig.
(** [VoterList] in order and its count; [TargetList::count]. *)
Variables (voter_list : St -> list A) (voter_count target_count : St -> Z).

Definition check_count s : res string unit :=
  if negb (voter_count s =? wrap_add U32_MAX (nominators_count s) (validators_count s)) then Err "wrong external count"
  else if negb (target_count s =? validators_count s) then Err "wrong external count"
  else if negb (ValidatorCount (params s) <=? MaxWinners cfg) then Err "TooManyValidators"
  else Ok tt.

Definition exposure_sum (e : Exposure A) : Z :=
  wrap_add U128_MAX (ex_own e) (foldl (fun acc o => wrap_add U128_MAX acc (ie_value o)) 0 (ex_others e)).
(** [ErasStakers::iter_prefix_values]. *)
Definition exposures_of_era (era : Z) s : list (Exposure A) :=
  (filter (fun kv => kv.1.1 = era) (map_to_list (ErasStakers (eras s)))).*2.
Definition check_exposures s : res string unit :=
  match ActiveEra (eras s) with
  | None => Panic
  | Some info =>
      all_ok (fun e => if ex_total e =? exposure_sum e then Ok tt else Err "wrong total exposure.")
        (exposures_of_era (ai_index info) s)
  end.

Definition ensure_is_stash (who : A) s : res string unit :=
  if bool_decide (is_Some (bonded s who)) then Ok tt else Err "Not a stash.".
(** The sum of a nominator's stakes that the loop also computes is never read. *)
Definition check_backing (era : Z) (nominator v : A) s : res string unit :=
  let e := default default_exposure (ErasStakers (eras s) !! (era, v)) in
  match length (filter (fun o => ie_who o = nominator) (ex_others e)) with
  | 0%nat | 1%nat => Ok tt
  | _ => Err "nominator cannot back a validator more than once."
  end.
Definition check_nominators s : res string unit :=
  match ActiveEra (eras s) with
  | None => Panic
  | Some info =>
      let era := ai_index info in
      let old := filter (fun kv => submitted_in kv.2 < era) (map_to_list (Nominators (stakes s))) in
      all_ok (fun nominator =>
        match ensure_is_stash nominator s with
        | Ok _ => all_ok (fun v => check_backing era nominator v s) (sh_validators (stk_rest s))
        | r => r
        end) old.*1
  end.

Definition do_try_state s : res string unit :=
  if forallb (fun x => nvm_contains s x) (voter_list s) then
    let? _ := check_nominators s in
    let? _ := check_exposures s in
    let? _ := check_ledgers s in
    check_count s
  else Err "VoterList contains non-staker".
End try_state.
End checks.

(** ** Genesis and conversions *)
Section genesis.
Context {X A : Type} {eqA : EqDecision A} {countA : Countable A} {host : StakingHost X A}.
Variable cfg : StakingConfig.
Variable voter_count : Staking X A -> Z.
Abbreviation St := (Staking X A).
Abbreviation MS := (M St DispatchError).
Implicit Types s : St.

(** [canceled_payout] is put in a storage item that nothing reads; the controllers of the
    stakers are ignored. *)
Record GenesisConfig : Type := mkGenesisConfig {
  validator_count : Z;
  minimum_validator_count : Z;
  invulnerables : list A;
  force_era : Forcing;
  slash_reward_fraction : Z;
  stakers : list (A * Z * StakerStatus A);
  min_nominator_bond : Z;
  min_validator_bond : Z;
  max_validator_count : option Z;
  max_nominator_count : option Z;
}.
Definition some_or {T} (o d : option T) : option T := match o with Some x => Some x | None => d end.
Definition genesis_params (g : GenesisConfig) (p : Params A) : Params A :=
  mkParams (validator_count g) (minimum_validator_count g) (min_nominator_bond g) (min_validator_bond g)
    (MinCommission p) (some_or (max_validator_count g) (MaxValidatorsCount p))
    (some_or (max_nominator_count g) (MaxNominatorsCount p)) (ChillThreshold p) (invulnerables g) (force_era g)
    (slash_reward_fraction g).
Fixpoint bond_each {Source} (lookup : Source -> res DispatchError A) (unlookup : A -> Source)
    (l : list (A * Z * StakerStatus A)) : MS unit :=
  match l with
  | [] => ret tt
  | x :: l' => do! bond_genesis cfg lookup unlookup x in bond_each lookup unlookup l'
  end.
Definition genesis_build {Source} (lookup : Source -> res DispatchError A) (unlookup : A -> Source)
    (g : GenesisConfig) : MS unit :=
  do! mmodify (fun s => mkStaking (stakes s) (genesis_params g (params s)) (eras s) (slashes s) (stk_events s) (stk_rest s)) in
  do! bond_each lookup unlookup (stakers g) in
  let! s := mget in
  if voter_count s =? wrap_add U32_MAX (nominators_count s) (validators_count s) then ret tt else mlift Panic.

(** [StashOf] and [ExposureOf]. *)
Definition stash_of s (controller : A) : option A := stash <$> ledger s controller.
Definition exposure_of s (validator : A) : option (Exposure A) :=
  (fun info => default default_exposure (ErasStakers (eras s) !! (ai_index info, validator))) <$> ActiveEra (eras s).
End genesis.

(** ** The lists keep their promise *)
Section lists.
Context {X A : Type} {eqA : EqDecision A} {countA : Countable A} {host : StakingHost X A}.
Abbreviation St := (Staking X A).
Implicit Types s : St.

Lemma after_split (a : A) l : a ∈ l -> exists before, l = before ++ a :: after a l.
Proof.
  induction l as [|b l IH]; [by intros ?%not_elem_of_nil|]. cbn [after].
  intros Ha. case_bool_decide as Hb; [subst b; by exists []|].
  apply elem_of_cons in Ha as [->|Ha]; [done|]. destruct (IH Ha) as [before E]. exists (b :: before). cbn. by rewrite <- E.
Qed.
Lemma elem_of_keys {V} (m : gmap A V) a : a ∈ (map_to_list m).*1 <-> is_Some (m !! a).
Proof.
  rewrite list_elem_of_fmap. split.
  - intros ([k v] & -> & Hk%elem_of_map_to_list). by exists v.
  - intros [v Hv]. exists (a, v). split; [done|]. by apply elem_of_map_to_list.
Qed.
Lemma keys_length {V} (m : gmap A V) : length (map_to_list m).*1 = size m.
Proof. by rewrite length_fmap, length_map_to_list. Qed.

(** The maps of validators and nominators serve as the sorted lists the elections ask
    for, as long as nobody has both roles: the list of voters has each member once, its
    membership test and its count are those of the list, and iterating from a member gives
    exactly what follows it in the list (and fails for everybody else); the same holds of
    the list of targets read off the map of validators. *)
Theorem maps_serve_as_lists s :
  (forall a, is_validator s a && is_nominator s a = false) -> nominators_count s + validators_count s <= U32_MAX ->
  NoDup (nvm_iter s) /\ NoDup (vm_iter s) /\
  nvm_count s = Z.of_nat (length (nvm_iter s)) /\ vm_count s = Z.of_nat (length (vm_iter s)) /\
  forall a,
    (a ∈ nvm_iter s <-> nvm_contains s a = true) /\ (a ∈ vm_iter s <-> vm_contains s a = true) /\
    match nvm_iter_from s a with
    | Ok l => exists before, nvm_iter s = before ++ a :: l
    | _ => nvm_contains s a = false
    end /\
    match vm_iter_from s a with
    | Ok l => exists before, vm_iter s = before ++ a :: l
    | _ => vm_contains s a = false
    end.
Proof.
  intros Hone Hmax. unfold nvm_iter, vm_iter, validator_keys, nominator_keys.
  assert (forall a, is_Some (Validators (stakes s) !! a) -> is_Some (Nominators (stakes s) !! a) -> False) as Hdisj.
  { intros a Hv Hn. specialize (Hone a). unfold is_validator, is_nominator in Hone.
    by rewrite !bool_decide_eq_true_2 in Hone. }
  split_and!.
  - apply NoDup_app. split_and!; [apply NoDup_fst_map_to_list| |apply NoDup_fst_map_to_list].
    intros a Hv%elem_of_keys Hn%elem_of_keys. by eapply Hdisj.
  - apply NoDup_fst_map_to_list.
  - unfold nvm_count. rewrite sat_add_exact by done. rewrite length_app, !keys_length. unfold nominators_count, validators_count. lia.
  - by rewrite keys_length.
  - intros a. unfold nvm_contains, vm_contains, nvm_iter_from, vm_iter_from, validator_keys, nominator_keys.
    rewrite elem_of_app, !elem_of_keys, orb_true_iff, !bool_decide_eq_true.
    split_and!; [tauto|done|..]; (case_bool_decide as Hv; [|try case_bool_decide as Hn]).
    + destruct (after_split a (map_to_list (Validators (stakes s))).*1) as [b E]; [by apply elem_of_keys|].
      exists b. rewrite E at 1. by rewrite <- app_assoc.
    + destruct (after_split a (map_to_list (Nominators (stakes s))).*1) as [b E]; [by apply elem_of_keys|].
      exists ((map_to_list (Validators (stakes s))).*1 ++ b). rewrite E at 1. by rewrite <- app_assoc.
    + done.
    + destruct (after_split a (map_to_list (Validators (stakes s))).*1) as [b E]; [by apply elem_of_keys|]. by exists b.
    + done.
Qed.
End lists.

(** ** Exposures *)
Section exposures.
Context {X A : Type} {eqA : EqDecision A} {countA : Countable A} {host : StakingHost X A} {prop : Proportion}.
Context {ehost : EraHost X A} {Source : Type}.
Variable cfg : StakingConfig.
Variable lookup : Source -> res DispatchError A.
Variable admin : Origin A -> bool.
Variable elect : bool -> Staking X A -> X * option (Supports A).
Context {locked : X -> A -> option Z} {laws : StakingHostLaws X A locked} {slaws : SlashHostLaws X A locked}.
Abbreviation St := (Staking X A).
Implicit Types s : St.

Definition others_sum (l : list (IndividualExposure A)) : Z := sum (ie_value <$> l).
(** The exposure of a validator: nobody backs it twice, itself is not among the others, and
    the total is the sum. *)
Record exposure_ok (v : A) (e : Exposure A) : Prop := {
  eo_own : 0 <= ex_own e;
  eo_others : Forall (fun o => 0 <= ie_value o) (ex_others e);
  eo_once : NoDup (ie_who <$> ex_others e);
  eo_not_self : v ∉ ie_who <$> ex_others e;
  eo_total : ex_total e = ex_own e + others_sum (ex_others e);
  eo_max : ex_total e <= U128_MAX;
}.
(** What is stored of the eras: the exposures are sound, and each has its clipped form. *)
Record exposures_ok (e : Eras A) : Prop := {
  es_ok era v x : ErasStakers e !! (era, v) = Some x -> exposure_ok v x;
  es_clipped k : ErasStakersClipped e !! k = clip_exposure cfg <$> ErasStakers e !! k;
}.

(** What an election promises: it supports a winner by each of its voters once, and what
    the votes are worth in the currency fits in a balance. *)
Definition support_ok (issuance : Z) (sup : A * list (A * Z)) : Prop :=
  NoDup sup.2.*1 /\ Forall (fun w => 0 <= eh_to_currency (X := X) (A := A) w issuance) sup.2.*2 /\
  sum ((fun w => eh_to_currency (X := X) (A := A) w issuance) <$> sup.2.*2) <= U128_MAX.
Hypothesis elect_supports : forall g s x sup,
  elect g s = (x, Some sup) -> Forall (support_ok (sh_total_issuance x)) sup.

Lemma others_sum_app l k : others_sum (l ++ k) = others_sum l + others_sum k.
Proof. unfold others_sum. by rewrite fmap_app, sum_app. Qed.
Lemma others_sum_nonneg l : Forall (fun o => 0 <= ie_value o) l -> 0 <= others_sum l.
Proof. intros Hl. apply sum_nonneg. by apply Forall_fmap. Qed.

Lemma add_voters_ok iss v voters : forall e,
  exposure_ok v e -> NoDup voters.*1 -> (forall w, w ∈ voters.*1 -> w ∉ ie_who <$> ex_others e) ->
  Forall (fun w => 0 <= eh_to_currency (X := X) (A := A) w iss) voters.*2 ->
  ex_total e + sum ((fun w => eh_to_currency (X := X) (A := A) w iss) <$> voters.*2) <= U128_MAX ->
  exposure_ok v (foldl (add_voter v iss) e voters).
Proof.
  induction voters as [|[w x] voters IH]; intros e He Hnd Hfresh Hpos Hmax; [done|].
  cbn [fmap list_fmap fst snd] in *. apply NoDup_cons in Hnd as [Hw Hnd]. apply Forall_cons in Hpos as [Hx Hpos].
  rewrite sum_cons in Hmax. set (y := eh_to_currency x iss) in *.
  assert (0 <= sum ((fun w => eh_to_currency (X := X) (A := A) w iss) <$> voters.*2)) as Hrest
    by (apply sum_nonneg; by apply Forall_fmap).
  pose proof (others_sum_nonneg _ (eo_others _ _ He)) as Hos. pose proof (eo_own _ _ He) as Ho. pose proof (eo_total _ _ He) as Ht.
  cbn [foldl]. apply IH; [| done | | done | ].
  - unfold add_voter. cbn [fst snd]. fold y. rewrite sat_add_exact by lia. case_bool_decide as Hv.
    + rewrite sat_add_exact by lia. destruct He. split; cbn [ex_own ex_others ex_total]; [lia|done|done|done|lia|lia].
    + destruct He as [E1 E2 E3 E4 E5 E6]. split; cbn [ex_own ex_others ex_total]; [done| | | |rewrite others_sum_app; unfold others_sum at 2; cbn; lia|lia].
      * apply Forall_app. split; [done|]. by repeat constructor.
      * rewrite fmap_app. apply NoDup_app. split_and!; [done| |apply NoDup_singleton].
        intros b Hb Hbw. cbn in Hbw. apply list_elem_of_singleton in Hbw as ->. apply (Hfresh w); [|done]. apply elem_of_cons; by left.
      * rewrite fmap_app. intros [Hb|Hb%list_elem_of_singleton]%elem_of_app; [done|]. by subst.
  - intros b Hb. unfold add_voter. cbn [fst]. specialize (Hfresh b). case_bool_decide; cbn; [apply Hfresh; set_solver|].
    rewrite fmap_app. intros [Hc|Hc%list_elem_of_singleton]%elem_of_app; [apply Hfresh in Hc; set_solver|].
    cbn in Hc. subst b. by apply Hw.
  - unfold add_voter. cbn [fst snd]. fold y. rewrite sat_add_exact by lia. case_bool_decide; cbn [ex_total]; lia.
Qed.
Lemma default_exposure_ok v : exposure_ok v default_exposure.
Proof. split; cbn; try done; [constructor|set_solver]. Qed.
Lemma collect_ok sup s : Forall (support_ok (sh_total_issuance (stk_rest s))) sup ->
  Forall (fun we => exposure_ok we.1 we.2) (collect_exposures sup s).
Proof.
  intros Hs. unfold collect_exposures. apply Forall_fmap. eapply Forall_impl; [exact Hs|].
  intros [v voters] (Hnd & Hpos & Hmax). cbn in *. apply add_voters_ok; auto using default_exposure_ok.
  intros w _. cbn. set_solver.
Qed.

Lemma no_exposures e : ErasStakers e = ∅ -> ErasStakersClipped e = ∅ -> exposures_ok e.
Proof. intros E1 E2. split; intros *; rewrite E1, ?E2; [by intros ?%lookup_empty_Some|done]. Qed.

(** *** What keeps the exposures *)
Definition stakers_kept (e e' : Eras A) : Prop :=
  ErasStakers e' = ErasStakers e /\ ErasStakersClipped e' = ErasStakersClipped e.
Lemma stakers_kept_ok e e' : stakers_kept e e' -> exposures_ok e -> exposures_ok e'.
Proof. intros [H1 H2] [H3 H4]. split; intros *; rewrite ?H1, ?H2; eauto. Qed.
Lemma store_exposures_ok era l : forall s t, Forall (fun we => exposure_ok we.1 we.2) l ->
  exposures_ok (eras s) -> exposures_ok (eras (foldl (store_exposure cfg era) (s, t) l).1).
Proof.
  induction l as [|[w e] l IH]; intros s t Hl Hok; [done|]. apply Forall_cons in Hl as [Hw Hl]. cbn [fst snd] in Hw.
  cbn [foldl store_exposure]. apply IH; [done|]. destruct Hok as [H1 H2]. split; cbn.
  - intros era' v x [[[= <- <-] <-]|[_ Hx]]%lookup_insert_Some; [done|by eapply H1].
  - intros k. destruct (decide (k = (era, w))) as [->|Hk]; [by rewrite !lookup_insert_eq|].
    rewrite !lookup_insert_ne by done. apply H2.
Qed.
Lemma store_prefs_kept era l : forall s, stakers_kept (eras s) (eras (foldl (store_prefs era) s l)).
Proof. induction l as [|w l IH]; intros s; [done|]. cbn [foldl]. exact (IH (store_prefs era s w)). Qed.
Lemma clear_era_ok era s : exposures_ok (eras s) -> exposures_ok (eras (clear_era_information era s)).
Proof.
  intros [H1 H2]. split; cbn.
  - intros era' v x [Hx _]%map_lookup_filter_Some. by eapply H1.
  - intros k. rewrite !map_lookup_filter, H2. destruct (ErasStakers (eras s) !! k); cbn; [|done].
    by destruct (decide (k.1 <> era)) as [Hk|Hk]; [rewrite !option_guard_True|rewrite !option_guard_False].
Qed.
Lemma trigger_ok st exposures s : Forall (fun we => exposure_ok we.1 we.2) exposures ->
  exposures_ok (eras s) -> exposures_ok (eras (trigger_new_era cfg st exposures s).1).
Proof.
  intros He Hok. unfold trigger_new_era, store_stakers_info.
  set (new := match CurrentEra (eras s) with Some _ => _ | None => _ end).
  match goal with |- context [foldl (store_exposure cfg new) (?t, 0) exposures] => set (s1 := t) end.
  assert (exposures_ok (eras s1)) as H1.
  { unfold s1. destruct (checked_sub _ _); [apply clear_era_ok|]; by apply (stakers_kept_ok (eras s)). }
  pose proof (store_exposures_ok new exposures s1 0 He H1) as H2.
  destruct (foldl (store_exposure cfg new) (s1, 0) exposures) as [s2 total]. cbn [fst] in *.
  eapply stakers_kept_ok; [apply store_prefs_kept|]. by apply (stakers_kept_ok (eras s2)).
Qed.
Lemma try_trigger_ok st g s : exposures_ok (eras s) -> exposures_ok (eras (try_trigger_new_era cfg elect st g s).1).
Proof.
  intros Hok. unfold try_trigger_new_era. destruct (elect g s) as [x [sup|]] eqn:Ee; [|done]. destruct (_ <? _).
  - cbn [on_host eras]. destruct (CurrentEra (eras s)); [done|]. by apply (stakers_kept_ok (eras s)).
  - match goal with |- context [trigger_new_era cfg st ?e ?t] => pose proof (trigger_ok st e t) as H1;
      destruct (trigger_new_era cfg st e t) as [s1 el] end. apply H1; [|done]. apply collect_ok. by eapply elect_supports.
Qed.
Lemma new_session_ok g n s : exposures_ok (eras s) -> exposures_ok (eras (new_session cfg elect g n s).1).
Proof.
  intros Hok. unfold new_session, new_session_era. set (s1 := set_planned n s).
  assert (exposures_ok (eras s1)) as H1 by (by apply (stakers_kept_ok (eras s))).
  pose proof (try_trigger_ok n g s1 H1) as Ht. destruct (CurrentEra (eras s1)); [|done].
  match goal with |- context [if ?b then _ else (s1, None)] => destruct b; [|done] end.
  destruct (try_trigger_new_era _ _ _ _ s1) as [s2 vs]. cbn [fst] in Ht. by destruct (_ && _).
Qed.
Lemma end_session_kept i s : stakers_kept (eras s) (eras (end_session i s)).
Proof.
  unfold end_session. destruct (ActiveEra (eras s)) as [info|]; [|done].
  destruct (_ !! _); [|done]. destruct (_ =? _); [|done]. unfold end_era. destruct (ai_start info); [|done].
  by destruct (eh_era_payout _ _ _).
Qed.
Lemma start_era_kept st s : stakers_kept (eras s) (eras (start_era cfg st s)).
Proof.
  unfold start_era. rewrite (ev_eras _ _ _ (apply_unapplied_evolves cfg _ _)).
  destruct (_ <? _); [|done]. destruct (drop _ _) as [|[a b] l]; cbn [eras set_bonded_eras set_eras on_host];
    by rewrite clear_metadata_eras.
Qed.
Lemma start_session_kept n s : stakers_kept (eras s) (eras (start_session cfg n s)).
Proof.
  unfold start_session. rewrite disable_all_eras. destruct (_ !! _) as [st|]; [|done].
  destruct (_ =? _); [apply start_era_kept|]. destruct (_ <? _); [apply start_era_kept|done].
Qed.
Lemma step_exposures p p' : staking_step cfg lookup admin elect p p' -> exposures_ok (eras p.2) -> exposures_ok (eras p'.2).
Proof.
  intros Hst Hok. destruct Hst as [i s o c|i s o v e|i s os fs n d|i s vps|i s|i s Hi]; cbn [fst snd] in *.
  - by rewrite (ev_eras _ _ _ (dispatch_evolves cfg lookup admin o c s)).
  - unfold transactional. destruct (payout_stakers cfg o v e s) as [s' [u|er|]] eqn:Er; cbn [fst is_ok]; [|done..].
    by rewrite (payout_eras _ _ _ _ _ _ _ Er).
  - by rewrite (ev_eras _ _ _ (on_offence_evolves cfg os fs n d s)).
  - apply (stakers_kept_ok (eras s)); [|done]. unfold reward_by_ids. by destruct (ActiveEra (eras s)).
  - apply (stakers_kept_ok (eras s)); [|done]. unfold on_finalize. by destruct (ActiveEra (eras s)) as [[a [st|]]|].
  - unfold rotate_session. apply new_session_ok. eapply stakers_kept_ok; [apply start_session_kept|].
    by eapply stakers_kept_ok; [apply end_session_kept|].
Qed.

(** C22. The exposures stay sound.  From genesis on, whatever calls, payouts, offences and
    rotations of sessions happen in whatever order, every exposure that is stored of an era
    is the sum of the validator's own stake and the stakes of its nominators, with every
    nominator in it once and the validator not among them, and nothing overflows; and the
    exposure that rewards are computed from is its clipped form.  Elections are assumed to
    support a winner by each voter once, with stakes that fit in a balance together. *)
Theorem exposures_stay_sound s0 i s :
  exposures_ok (eras s0) ->
  rtc (staking_step cfg lookup admin elect) (0, genesis_sessions cfg elect s0) (i, s) ->
  exposures_ok (eras s).
Proof.
  intros H0 Hsteps.
  assert (forall p p', rtc (staking_step cfg lookup admin elect) p p' -> exposures_ok (eras p.2) -> exposures_ok (eras p'.2)) as Hinv.
  { intros p p' Hpp. induction Hpp as [|p p1 p' Hst Hpp IH]; [done|]. intros Hok. by apply IH, (step_exposures p). }
  apply (Hinv _ _ Hsteps). cbn [snd]. unfold genesis_sessions.
  eapply stakers_kept_ok; [apply start_session_kept|]. by apply new_session_ok, new_session_ok.
Qed.

(** *** The checks pass *)
Lemma all_ok_Forall {T} (f : T -> res string unit) l : Forall (fun x => f x = Ok tt) l -> all_ok f l = Ok tt.
Proof. induction 1 as [|x l Hx _ IH]; [done|]. cbn. by rewrite Hx. Qed.
Lemma foldl_others l : forall a, 0 <= a -> Forall (fun o : IndividualExposure A => 0 <= ie_value o) l ->
  a + others_sum l <= U128_MAX ->
  foldl (fun acc o => wrap_add U128_MAX acc (ie_value o)) a l = a + others_sum l.
Proof.
  induction l as [|o l IH]; intros a Ha Hl Hm; [unfold others_sum; cbn; lia|].
  apply Forall_cons in Hl as [Ho Hl]. pose proof (others_sum_nonneg _ Hl). unfold others_sum in *. cbn [fmap list_fmap] in *.
  rewrite sum_cons in *. cbn [foldl]. unfold wrap_add at 2. rewrite wrap_small by (unfold in_u; lia).
  rewrite IH; [lia|lia|done|lia].
Qed.
Lemma exposure_sum_total v e : exposure_ok v e -> exposure_sum e = ex_total e.
Proof.
  intros [E1 E2 E3 E4 E5 E6]. pose proof (others_sum_nonneg _ E2). unfold exposure_sum.
  rewrite foldl_others by (done || lia). unfold wrap_add. rewrite wrap_small by (unfold in_u; lia). lia.
Qed.
Lemma once_filter (l : list (IndividualExposure A)) n : NoDup (ie_who <$> l) ->
  (length (filter (fun o => ie_who o = n) l) <= 1)%nat.
Proof.
  induction l as [|o l IH]; [cbn; lia|]. cbn [fmap list_fmap]. intros [Ho Hnd]%NoDup_cons. rewrite filter_cons.
  case_decide as Hn; [|by apply IH]. cbn. destruct (filter (fun o => ie_who o = n) l) as [|o' k] eqn:E; [done|].
  exfalso. assert (o' ∈ filter (fun o => ie_who o = n) l) as Ho' by (rewrite E; apply elem_of_cons; by left).
  apply list_elem_of_filter in Ho' as [Hn' Ho']. apply Ho. rewrite Hn, <- Hn'. by apply list_elem_of_fmap_2.
Qed.
Lemma exposures_check s info : ActiveEra (eras s) = Some info -> exposures_ok (eras s) -> check_exposures s = Ok tt.
Proof.
  intros Ha Hok. unfold check_exposures. rewrite Ha. apply all_ok_Forall, Forall_forall.
  intros e ([[era v] x] & -> & [_ Hx]%list_elem_of_filter)%list_elem_of_fmap. apply elem_of_map_to_list in Hx. cbn.
  rewrite (exposure_sum_total v), Z.eqb_refl; [done|]. by eapply es_ok.
Qed.
Lemma nominators_check s info : ActiveEra (eras s) = Some info -> exposures_ok (eras s) -> roles_ok s ->
  check_nominators s = Ok tt.
Proof.
  intros Ha Hok Hro. unfold check_nominators. rewrite Ha. apply all_ok_Forall, Forall_forall.
  intros n ([n' nom] & -> & [_ Hn]%list_elem_of_filter)%list_elem_of_fmap. apply elem_of_map_to_list in Hn. cbn.
  pose proof (ro_bonded _ Hro n') as Hb. unfold is_nominator, is_bonded in Hb. unfold ensure_is_stash.
  rewrite Hb by (rewrite orb_true_iff; right; apply bool_decide_eq_true_2; by exists nom).
  apply all_ok_Forall, Forall_forall. intros v _. unfold check_backing.
  destruct (ErasStakers (eras s) !! (ai_index info, v)) as [e|] eqn:Ee; [|done]. cbn.
  pose proof (once_filter (ex_others e) n' (eo_once _ _ (es_ok _ Hok _ _ _ Ee))) as Hl.
  destruct (length _) as [|[|k]]; [done|done|lia].
Qed.

(** The pallet's own checks pass: in a state whose bonds, roles and exposures are sound
    (as they are shown to stay in every run), with an active era, a list of voters that
    holds each voter once and counts them, the targets read off the map of validators, and
    no more validators wanted than an election can give, [do_try_state] succeeds. *)
Theorem try_state_passes (voter_list : St -> list A) (voter_count : St -> Z) s info :
  bonds_inv (locked := locked) cfg s -> roles_ok s -> exposures_ok (eras s) -> ActiveEra (eras s) = Some info ->
  NoDup (voter_list s) -> (forall a, a ∈ voter_list s <-> is_voter s a = true) ->
  voter_count s = Z.of_nat (length (voter_list s)) ->
  nominators_count s + validators_count s <= U32_MAX -> ValidatorCount (params s) <= MaxWinners cfg ->
  do_try_state cfg voter_list voter_count vm_count s = Ok tt.
Proof.
  intros Hb Hro Hex Ha Hnd Hin Hcount Hmax Hw. unfold do_try_state.
  assert (forall a, a ∈ voter_list s <-> a ∈ nvm_iter s) as Hsame.
  { intros a. rewrite Hin, (ro_voters _ Hro). unfold nvm_iter, validator_keys, nominator_keys.
    rewrite elem_of_app, !elem_of_keys, orb_true_iff. unfold is_validator, is_nominator. by rewrite !bool_decide_eq_true. }
  assert (forallb (fun x => nvm_contains s x) (voter_list s) = true) as ->.
  { apply forallb_forall. intros a Ha'. apply list_elem_of_In in Ha'. apply Hin in Ha'. rewrite (ro_voters _ Hro) in Ha'.
    unfold nvm_contains. by rewrite orb_comm. }
  rewrite (nominators_check s info), (exposures_check s info) by done. cbn [rbind].
  rewrite (ledger_check_passes cfg s Hb). cbn [rbind]. unfold check_count.
  assert (NoDup (nvm_iter s)) as Hnd'.
  { unfold nvm_iter, validator_keys, nominator_keys. apply NoDup_app.
    split_and!; [apply NoDup_fst_map_to_list| |apply NoDup_fst_map_to_list].
    intros a Hv%elem_of_keys Hn%elem_of_keys. pose proof (ro_one _ Hro a) as Ho.
    unfold is_validator, is_nominator in Ho. by rewrite !bool_decide_eq_true_2 in Ho. }
  assert (voter_count s = nominators_count s + validators_count s) as Hc.
  { rewrite Hcount, (Permutation_length (NoDup_Permutation _ _ Hnd Hnd' Hsame)).
    unfold nvm_iter, validator_keys, nominator_keys. rewrite length_app, !keys_length. unfold nominators_count, validators_count. lia. }
  unfold wrap_add. rewrite wrap_small by (unfold in_u, nominators_count, validators_count in *; lia).
  unfold vm_count. by rewrite Hc, !Z.eqb_refl, (proj2 (Z.leb_le _ _) Hw).
Qed.
End exposures.

(** ** Genesis *)
Section genesis_theorems.
Context {X A : Type} {eqA : EqDecision A} {countA : Countable A} {host : StakingHost X A} {vlaws : VoterListLaws X A}.
Context {locked : X -> A -> option Z} {laws : StakingHostLaws X A locked}.
Variable cfg : StakingConfig.
Hypothesis chunks_max : 0 <= MaxUnlockingChunks cfg.
Context {Source : Type} (lookup : Source -> res DispatchError A) (unlookup : A -> Source).
Variable voter_count : Staking X A -> Z.
Abbreviation St := (Staking X A).
Implicit Types s : St.
Abbreviation admin := (fun _ : Origin A => false).

(** A genesis staker goes through two calls. *)
Lemma assert_ok_Ok (m : M St DispatchError unit) s s' u : assert_ok m s = (s', Ok u) -> m s = (s', Ok u).
Proof. unfold assert_ok. destruct (m s) as [s1 [v|e|]]; [done|by intros [=]..]. Qed.
Lemma bond_genesis_calls x s s' u : bond_genesis cfg lookup unlookup x s = (s', Ok u) ->
  exists s1 u1, call_body cfg lookup admin (Signed x.1.1) (CallBond x.1.2 ToStaked) s = (s1, Ok u1) /\
    (s' = s1 \/ exists c u2, call_wf c /\ call_body cfg lookup admin (Signed x.1.1) c s1 = (s', Ok u2)) /\
    ValidatorCount (params s') <= MaxWinners cfg.
Proof.
  destruct x as [[who v] role]. unfold bond_genesis. intros Hr. run_inv.
  match goal with Hm : (if _ <=? sh_free_balance _ _ then _ else _) _ = _ |- _ => destruct (_ <=? _) in Hm; run_inv; [|discriminate] end.
  repeat match goal with Hm : assert_ok _ _ = _ |- _ => apply assert_ok_Ok in Hm end.
  match type of Hr with (if ?a <=? ?b then _ else _) _ = _ => destruct (Z.leb_spec a b); run_inv; [|done] end.
  do 2 eexists. split_and!; [eassumption| |done].
  destruct role as [| |votes]; [left; by run_inv|right; exists (CallValidate default_prefs); by eexists
    |right; exists (CallNominate (unlookup <$> votes)); by eexists].
Qed.
Lemma bond_genesis_sound x s s' u : in_u U128_MAX x.1.2 -> bonds_inv (locked := locked) cfg s -> roles_ok s ->
  bond_genesis cfg lookup unlookup x s = (s', Ok u) -> bonds_inv (locked := locked) cfg s' /\ roles_ok s'.
Proof.
  intros Hx Hb Hro Hr. apply bond_genesis_calls in Hr as (s1 & u1 & H1 & H2 & _).
  assert (bonds_inv (locked := locked) cfg s1) as Hb1 by (by eapply call_body_inv; [done| |exact Hb|exact H1]).
  assert (roles_ok s1) as Hr1 by (by eapply call_body_roles; [exact Hb|exact Hro|exact H1]).
  destruct H2 as [->|(c & u2 & Hc & H2)]; [done|]. split.
  - by eapply call_body_inv; [done|exact Hc|exact Hb1|exact H2].
  - by eapply call_body_roles; [exact Hb1|exact Hr1|exact H2].
Qed.
Lemma bond_each_sound l : forall s s' u, Forall (fun x => in_u U128_MAX x.1.2) l ->
  bonds_inv (locked := locked) cfg s -> roles_ok s ->
  bond_each cfg lookup unlookup l s = (s', Ok u) -> bonds_inv (locked := locked) cfg s' /\ roles_ok s' /\
    (l <> [] -> ValidatorCount (params s') <= MaxWinners cfg).
Proof.
  induction l as [|x l IH]; intros s s' u Hl Hb Hro Hr; cbn [bond_each] in Hr; [by run_inv|].
  apply Forall_cons in Hl as [Hx Hl]. apply bind_Ok in Hr as ([] & s1 & H1 & Hr).
  destruct (bond_genesis_sound x s s1 tt Hx Hb Hro H1) as [Hb1 Hr1].
  destruct (IH s1 s' u Hl Hb1 Hr1 Hr) as (Hb' & Hr' & Hc'). split_and!; [done..|]. intros _.
  destruct l as [|y l]; [|by apply Hc']. cbn [bond_each] in Hr. run_inv.
  by apply bond_genesis_calls in H1 as (_ & _ & _ & _ & Hc).
Qed.

(** A genesis that builds is sound: from an empty pallet, when the configuration of the
    stakers passes its assertions, the bonds and the roles are consistent (the invariants
    that all calls keep), the voters are counted right, and if there is a staker the wanted
    number of validators is within the limit of elections. *)
Theorem genesis_sound g s s' u :
  stakes s = mkStakes ∅ ∅ ∅ ∅ ∅ -> (forall a, locked (stk_rest s) a = None) -> (forall a, is_voter s a = false) ->
  Forall (fun x => in_u U128_MAX x.1.2) (stakers g) ->
  genesis_build cfg voter_count lookup unlookup g s = (s', Ok u) ->
  bonds_inv (locked := locked) cfg s' /\ roles_ok s' /\
  voter_count s' = wrap_add U32_MAX (nominators_count s') (validators_count s') /\
  (stakers g <> [] -> ValidatorCount (params s') <= MaxWinners cfg).
Proof.
  intros Hs Hl Hv Hg Hr. unfold genesis_build in Hr. run_inv.
  match type of Hr with (if ?a =? ?b then _ else _) _ = _ => destruct (Z.eqb_spec a b); run_inv; [|done] end.
  match goal with Hm : bond_each _ _ _ _ _ = _ |- _ => apply bond_each_sound in Hm as (Hb & Hro & Hc); [done|done|..] end.
  - split; unfold ledger, bonded; cbn [stakes stk_rest]; rewrite Hs; cbn [Bonded Ledger]; intros *; rewrite ?lookup_empty; done.
  - split; unfold is_bonded, is_validator, is_nominator, ledger, bonded; cbn [stakes stk_rest]; rewrite Hs;
      cbn [Bonded Ledger Validators Nominators]; intros *; rewrite ?lookup_empty; try done.
    exact (Hv _).
Qed.
End genesis_theorems.

(** ** Witnesses *)
Module ChecksWitness.
Import RolesWitness.
Lemma one_role a : is_validator with_roles a && is_nominator with_roles a = false.
Proof. apply (ro_one _ with_roles_ok). Qed.
Lemma few_roles : nominators_count with_roles + validators_count with_roles <= U32_MAX.
Proof. vm_compute. discriminate. Qed.
Lemma two_roles : Z.of_nat (length (nvm_iter with_roles)) = 2.
Proof. vm_compute. reflexivity. Qed.
Lemma maps_serve_as_lists_witness : NoDup (nvm_iter with_roles) /\ nvm_count with_roles = 2.
Proof.
  pose proof (maps_serve_as_lists with_roles one_role few_roles) as L.
  split; [exact (proj1 L)|exact (eq_trans (proj1 (proj2 (proj2 L))) two_roles)].
Defined.

(** The voters of the chain with three accounts. *)
Definition voters (s : Staking (gmap Z Z * gset Z) Z) : list Z := elements (stk_rest s).2.
Lemma no_exposures_ok : exposures_ok wcfg (eras with_roles).
Proof. apply no_exposures; vm_compute; reflexivity. Qed.
(** A chain that starts with a validator and its nominator. *)
Definition start_config : GenesisConfig (A := Z) :=
  mkGenesisConfig 4 1 [] NotForcing 100000000 [(1, 500, StakerValidator); (2, 300, StakerNominator [1])] 0 0 None None.
Definition unbuilt : Staking (gmap Z Z * gset Z) Z :=
  mkStaking (mkStakes ∅ ∅ ∅ ∅ ∅) (mkParams 0 0 0 0 0 None None None [] NotForcing 0)
    (mkEras None None [] ∅ 0 ∅ ∅ ∅ ∅ ∅ ∅ 0) (mkSlashes ∅ ∅ ∅ ∅ ∅ []) [] (∅, ∅).
Definition count_voters (s : Staking (gmap Z Z * gset Z) Z) : Z := Z.of_nat (length (voters s)).
Definition built : Staking (gmap Z Z * gset Z) Z :=
  (genesis_build wcfg count_voters BondsWitness.wlookup (fun a : Z => a) start_config unbuilt).1.
Lemma built_eq : genesis_build wcfg count_voters BondsWitness.wlookup (fun a : Z => a) start_config unbuilt = (built, Ok tt).
Proof. unfold built. apply run_result. vm_compute. reflexivity. Qed.
Lemma genesis_sound_witness : roles_ok built /\ count_voters built = 2.
Proof.
  destruct (genesis_sound (locked := fun x a => x.1 !! a) wcfg ltac:(done) BondsWitness.wlookup (fun a : Z => a) count_voters
    start_config unbuilt built tt) as (_ & Hro & _).
  - reflexivity.
  - reflexivity.
  - reflexivity.
  - repeat constructor; cbn; unfold in_u, U128_MAX; lia.
  - exact built_eq.
  - split; [exact Hro|vm_compute; reflexivity].
Defined.
Lemma try_state_passes_witness :
  do_try_state wcfg voters (fun s => Z.of_nat (length (voters s))) vm_count with_roles = Ok tt.
Proof.
  apply (try_state_passes (locked := fun x a => x.1 !! a) wcfg voters _ with_roles (mkActiveEra 100 None)).
  - exact elected_inv.
  - exact with_roles_ok.
  - exact no_exposures_ok.
  - vm_compute. reflexivity.
  - exact (NoDup_elements (stk_rest with_roles).2).
  - intros a. unfold voters, is_voter. rewrite elem_of_elements. symmetry. exact (bool_decide_eq_true _).
  - reflexivity.
  - exact few_roles.
  - vm_compute. discriminate.
Defined.
End ChecksWitness.

Module ExposuresWitness.
Import RunsWitness BondsWitness LedgerWitness SlashingWitness.
Lemma welect_supports g s x sup :
  welect g s = (x, Some sup) -> Forall (support_ok (X := gmap Z Z) (sh_total_issuance x)) sup.
Proof.
  intros [= <- <-]. constructor; [|constructor]. split_and!; cbn.
  - apply NoDup_cons. split; [set_solver|apply NoDup_singleton].
  - repeat constructor; cbn; lia.
  - unfold U128_MAX. lia.
Qed.
Lemma staked_exposures : exposures_ok wcfg (eras staked).
Proof. apply no_exposures; vm_compute; reflexivity. Qed.
Lemma exposures_stay_sound_witness : exposures_ok wcfg (eras rewardable).
Proof.
  apply (exposures_stay_sound wcfg wlookup wadmin welect welect_supports staked 9 rewardable staked_exposures).
  exact (run_steps 9 start ltac:(unfold U32_MAX; lia)).
Defined.
Example rewardable_exposure : ErasStakers (eras rewardable) !! (1, 1) = Some (mkExposure 800 500 [mkIndividual 2 300]).
Proof. vm_compute. reflexivity. Qed.
End ExposuresWitness.
