(* ===== verification/StakingMigrations.v ===== *)
(** * Migrations of the staking pallet

    Models [src/modules/staking/src/migrations.rs]: the migration that the runtime runs
    ([v1], which builds the list of voters anew), and the older ones of releases 6 to 12,
    with the checks that are made around them when an upgrade is tried out.

    The storage is that of the pallet with the items the pallet no longer declares.  The
    list of voters and the raw storage are the runtime's: [MigrationHost], with what their
    documentation promises in [MigrationLaws].  A weight is kept as the number of reads and
    writes it stands for; log messages are left out.

    A map of the storage is iterated in the order of its hashed keys; the order of
    [map_to_list] stands for it. *)

From stdpp Require Import base gmap list strings.
From Stdlib Require Import ZArith Lia.
From S2P Require Import Prelude StakingLedger Staking StakingBonds StakingSlashing StakingRoles StakingChecks.

Local Open Scope Z_scope.

(** ** Data *)
Inductive ObsoleteReleases : Type :=
  V1_0_0Ancient | V2_0_0 | V3_0_0 | V4_0_0 | V5_0_0 | V6_0_0 | V7_0_0 | V8_0_0 | V9_0_0 | V10_0_0 | V11_0_0 | V12_0_0.
#[export] Instance ObsoleteReleases_eq_dec : EqDecision ObsoleteReleases.
Proof. solve_decision. Defined.

(** What is charged: reads and writes of the database, or a full block. *)
Inductive UpgradeWeight : Type := ReadsWrites (r w : Z) | MaxBlock.

(** The items of the elections before release 6; only their existence matters. *)
Record OldElections : Type := mkOldElections {
  SnapshotValidators : bool; SnapshotNominators : bool; QueuedElected : bool; QueuedScore : bool;
  EraElectionStatus : bool; IsCurrentSessionFinal : bool;
}.

Record Upgrade (X A : Type) {eqA : EqDecision A} {countA : Countable A} : Type := mkUpgrade {
  up_staking : Staking X A;
  (** The obsolete [StorageVersion], and the version [frame_support] keeps for the pallet. *)
  StorageVersion : option ObsoleteReleases;
  on_chain_version : Z;
  OldHistoryDepth : option Z;
  EarliestUnappliedSlash : option Z;
  (** The counters of the maps of validators and nominators. *)
  CounterForValidators : option Z;
  CounterForNominators : option Z;
  old_elections : OldElections;
}.
Arguments mkUpgrade {X A eqA countA}. Arguments up_staking {X A eqA countA}.
Arguments StorageVersion {X A eqA countA}. Arguments on_chain_version {X A eqA countA}.
Arguments OldHistoryDepth {X A eqA countA}. Arguments EarliestUnappliedSlash {X A eqA countA}.
Arguments CounterForValidators {X A eqA countA}. Arguments CounterForNominators {X A eqA countA}.
Arguments old_elections {X A eqA countA}.

(** [SortedListProvider] of the voters beyond what the pallet itself calls, and the raw
    storage of the chain: [twox_128], [next_key] and [move_pallet]. *)
Class MigrationHost (X A : Type) : Type := {
  mh_count : X -> Z;
  mh_regenerate : list A -> (A -> Z) -> X -> X * Z;
  mh_try_state : X -> bool;
  mh_twox_128 : string -> bytes;
  mh_next_key : X -> bytes -> option bytes;
  mh_move_pallet : string -> string -> X -> X;
}.

(** SCALE form of a [u32]. *)
Definition encode_u32 (n : Z) : bytes := reverse (be_bytes 4 n).
Definition decode_u32 (l : bytes) : option Z :=
  if (length l <? 4)%nat then None else Some (be_val (reverse (take 4 l))).

Section migrations.
Context {X A : Type} {eqA : EqDecision A} {countA : Countable A} {host : StakingHost X A} {prop : Proportion}.
Context {mhost : MigrationHost X A}.
Variable cfg : StakingConfig.
Abbreviation St := (Staking X A).
Abbreviation Up := (Upgrade X A).
Implicit Types (s : St) (u : Up).

Definition on_staking (f : St -> St) u : Up :=
  mkUpgrade (f (up_staking u)) (StorageVersion u) (on_chain_version u) (OldHistoryDepth u) (EarliestUnappliedSlash u)
    (CounterForValidators u) (CounterForNominators u) (old_elections u).
(** [StorageVersion::get] and [put]; a missing version is the last one. *)
Definition current_release u : ObsoleteReleases := default V12_0_0 (StorageVersion u).
Definition put_release v u : Up :=
  mkUpgrade (up_staking u) (Some v) (on_chain_version u) (OldHistoryDepth u) (EarliestUnappliedSlash u)
    (CounterForValidators u) (CounterForNominators u) (old_elections u).
(** [Validators::count()] and [Nominators::count()]. *)
Definition validators_counter u : Z := default 0 (CounterForValidators u).
Definition nominators_counter u : Z := default 0 (CounterForNominators u).

(** [weight_of_fn]: the issuance is read once, the ledger at each use. *)
Definition weight_of_fn (issuance : Z) s (who : A) : Z := sh_to_vote (slashable_balance_of s who) issuance.

(** The list of voters from the nominators, and the loop that adds the validators. *)
Definition regenerate_voters s : St * Z :=
  let '(x, n) := mh_regenerate (nominator_keys s) (weight_of_fn (sh_total_issuance (stk_rest s)) s) (stk_rest s) in
  (on_host (fun _ => x) s, n).
Definition inject_one (issuance : Z) s (v : A) : St := on_host (sh_voter_insert v (weight_of_fn issuance s v)) s.
Definition inject_validators s : St :=
  foldl (inject_one (sh_total_issuance (stk_rest s))) s (validator_keys s).

(** ** [v1]: what the runtime runs, whatever the version *)
(** [T::current_storage_version()] is the constant of the pallet. *)
Definition STORAGE_VERSION : Z := 1.
Definition v1_on_runtime_upgrade u : Up * UpgradeWeight :=
  let u := on_staking (fun s => inject_validators (regenerate_voters s).1) u in
  (mkUpgrade (up_staking u) (StorageVersion u) STORAGE_VERSION (OldHistoryDepth u) (EarliestUnappliedSlash u)
     (CounterForValidators u) (CounterForNominators u) (old_elections u), ReadsWrites 1 2).

(** ** [v12] *)
Definition v12_pre_upgrade u : res string bytes :=
  if negb (bool_decide (current_release u = V11_0_0)) then Err "Expected v11 before upgrading to v12"
  else match OldHistoryDepth u with
       | Some d => if HistoryDepth cfg =? d then Ok []
                   else Err "Provided value of HistoryDepth should be same as the existing storage value"
       | None => Ok []
       end.
Definition v12_on_runtime_upgrade u : Up * UpgradeWeight :=
  if bool_decide (current_release u = V11_0_0) then
    let u := mkUpgrade (up_staking u) (StorageVersion u) (on_chain_version u) None (EarliestUnappliedSlash u)
               (CounterForValidators u) (CounterForNominators u) (old_elections u) in
    (put_release V12_0_0 u, ReadsWrites 1 2)
  else (u, ReadsWrites 1 0).
Definition v12_post_upgrade u : res string unit :=
  if bool_decide (current_release u = V12_0_0) then Ok tt else Err "v12 not applied".

(** ** [v11]: the pallet of the list of voters gets a new name *)
Section v11.
Variables (old_pallet_name new_pallet_name : string).
Abbreviation after_prefix u n := (mh_next_key (A := A) (stk_rest (up_staking u)) (mh_twox_128 (X := X) (A := A) n)).
Definition v11_pre_upgrade u : res string bytes :=
  if negb (bool_decide (current_release u = V10_0_0)) then Err "must upgrade linearly"
  else if bool_decide (is_Some (after_prefix u old_pallet_name)) then Ok []
  else Err "no data for the old pallet name has been detected".
Definition v11_on_runtime_upgrade u : Up * UpgradeWeight :=
  if bool_decide (current_release u = V10_0_0) then
    let u := put_release V11_0_0 u in
    if String.eqb new_pallet_name old_pallet_name then (u, ReadsWrites 1 1)
    else (on_staking (on_host (mh_move_pallet (A := A) old_pallet_name new_pallet_name)) u, MaxBlock)
  else (u, ReadsWrites 1 0).
Definition v11_post_upgrade u : res string unit :=
  if negb (bool_decide (current_release u = V11_0_0)) then Err "wrong version after the upgrade"
  else if String.eqb new_pallet_name old_pallet_name then Ok tt
  else if bool_decide (is_Some (after_prefix u old_pallet_name)) then Err "old pallet data hasn't been removed"
  else if bool_decide (is_Some (after_prefix u new_pallet_name)) then Ok tt
  else Err "new pallet data hasn't been created".
End v11.

(** ** [v10]: slashes that wait are applied *)
Definition apply_era s (e : Z * list (UnappliedSlash A)) : St := foldl (fun s sl => apply_slash cfg sl e.1 s) s e.2.
Definition v10_on_runtime_upgrade u : Up * UpgradeWeight :=
  if bool_decide (current_release u = V9_0_0) then
    let pending := take 512 (map_to_list (UnappliedSlashes (slashes (up_staking u)))) in
    let u := on_staking (fun s => foldl apply_era s pending) u in
    let u := mkUpgrade (up_staking u) (StorageVersion u) (on_chain_version u) (OldHistoryDepth u) None
               (CounterForValidators u) (CounterForNominators u) (old_elections u) in
    (put_release V10_0_0 u, ReadsWrites 1 1)
  else (u, ReadsWrites 1 0).

(** ** [v9]: validators join the list of voters *)
Definition v9_on_runtime_upgrade u : Up * UpgradeWeight :=
  if bool_decide (current_release u = V8_0_0) then (put_release V9_0_0 (on_staking inject_validators u), MaxBlock)
  else (u, ReadsWrites 1 0).
Definition v9_pre_upgrade u : res string bytes :=
  if bool_decide (current_release u = V8_0_0) then Ok (encode_u32 (mh_count (A := A) (stk_rest (up_staking u))))
  else Err "must upgrade linearly".
Definition v9_post_upgrade (prev_count : bytes) u : res string unit :=
  let? prev_count := expect (decode_u32 prev_count) in
  if negb (mh_count (A := A) (stk_rest (up_staking u)) =? wrap_add U32_MAX prev_count (validators_counter u))
  then Err "`VoterList` count after the migration must equal to the sum of previous count and the current number of validators"
  else if bool_decide (current_release u = V9_0_0) then Ok tt else Err "must upgrade".

(** ** [v8]: the list of voters *)
Definition v8_pre_migrate u : res string unit :=
  if bool_decide (current_release u = V7_0_0) then Ok tt else Err "must upgrade linearly".
Definition v8_migrate u : Up * UpgradeWeight :=
  if bool_decide (current_release u = V7_0_0) then (put_release V8_0_0 (on_staking (fun s => (regenerate_voters s).1) u), MaxBlock)
  else (u, ReadsWrites 1 0).
Definition v8_post_migrate u : res string unit :=
  if mh_try_state (A := A) (stk_rest (up_staking u)) then Ok tt else Err "VoterList is not in a sane state.".

(** ** [v7]: the maps are counted *)
Definition assert {E} (b : bool) : res E unit := if b then Ok tt else Panic.
Definition v7_pre_migrate u : res string unit :=
  let? v := expect (CounterForValidators u) in
  let? _ := assert (v =? 0) in
  let? n := expect (CounterForNominators u) in
  let? _ := assert (n =? 0) in
  let? _ := assert (validators_counter u =? 0) in
  let? _ := assert (nominators_counter u =? 0) in
  assert (bool_decide (current_release u = V6_0_0)).
Definition v7_migrate u : Up * UpgradeWeight :=
  let v := wrap U32_MAX (validators_count (up_staking u)) in
  let n := wrap U32_MAX (nominators_count (up_staking u)) in
  let u := mkUpgrade (up_staking u) (StorageVersion u) (on_chain_version u) (OldHistoryDepth u)
             (EarliestUnappliedSlash u) (Some v) (Some n) (old_elections u) in
  (put_release V7_0_0 u, ReadsWrites (sat_add U32_MAX v n) 2).

(** ** [v6]: the old elections are forgotten *)
Definition v6_pre_migrate u : res string unit :=
  let? _ := assert (IsCurrentSessionFinal (old_elections u)) in
  assert (EraElectionStatus (old_elections u)).
Definition v6_migrate u : Up * UpgradeWeight :=
  let u := mkUpgrade (up_staking u) (StorageVersion u) (on_chain_version u) (OldHistoryDepth u)
             (EarliestUnappliedSlash u) (CounterForValidators u) (CounterForNominators u)
             (mkOldElections false false false false false false) in
  (put_release V6_0_0 u, ReadsWrites 0 (6 + 1)).
End migrations.

(** ** What the runtime promises

    [score] is what the list says of an account: its score, if it is in the list. *)
Class MigrationLaws (X A : Type) {eqA : EqDecision A} {host : StakingHost X A} {mhost : MigrationHost X A}
    (score : X -> A -> option Z) : Prop := {
  ml_contains x a : sh_voter_contains x a = bool_decide (is_Some (score x a));
  (** A duplicate is refused. *)
  ml_insert a w x b : score (sh_voter_insert a w x) b =
    match score x b with Some v => Some v | None => if bool_decide (b = a) then Some w else None end;
  ml_insert_count a w x : score x a = None -> mh_count (A := A) x < U32_MAX ->
    mh_count (A := A) (sh_voter_insert a w x) = mh_count (A := A) x + 1;
  ml_insert_issuance a w x : sh_total_issuance (A := A) (sh_voter_insert a w x) = sh_total_issuance (A := A) x;
  ml_regenerate l f x b : NoDup l -> score (mh_regenerate l f x).1 b = if bool_decide (b ∈ l) then Some (f b) else None;
  ml_regenerate_count l (f : A -> Z) x : NoDup l -> Z.of_nat (length l) <= U32_MAX ->
    mh_count (A := A) (mh_regenerate l f x).1 = Z.of_nat (length l) /\ (mh_regenerate l f x).2 = Z.of_nat (length l);
  ml_regenerate_issuance l (f : A -> Z) x :
    sh_total_issuance (A := A) (mh_regenerate l f x).1 = sh_total_issuance (A := A) x;
}.

(** ** The list of voters is built anew *)
Section voters.
Context {X A : Type} {eqA : EqDecision A} {countA : Countable A} {host : StakingHost X A}.
Context {mhost : MigrationHost X A} {score : X -> A -> option Z} {mlaws : MigrationLaws X A score}.
Abbreviation St := (Staking X A).
Abbreviation Up := (Upgrade X A).
Implicit Types (s : St) (u : Up).

Definition score_of s (a : A) : option Z := score (stk_rest s) a.
(** The same storage of the pallet; only the runtime around it differs. *)
Definition same_pallet s s' : Prop := s' = on_host (fun _ => stk_rest s') s.
Lemma same_pallet_refl s : same_pallet s s.
Proof. by destruct s. Qed.
Lemma same_pallet_trans s1 s2 s3 : same_pallet s1 s2 -> same_pallet s2 s3 -> same_pallet s1 s3.
Proof. unfold same_pallet. intros -> ->. done. Qed.
Lemma same_pallet_stakes s s' : same_pallet s s' -> stakes s' = stakes s.
Proof. by intros ->. Qed.
Lemma same_pallet_slashable s s' a : same_pallet s s' -> slashable_balance_of s' a = slashable_balance_of s a.
Proof. unfold slashable_balance_of, bonded, ledger. by intros ->. Qed.

Lemma nominator_keys_NoDup s : NoDup (nominator_keys s).
Proof. apply NoDup_fst_map_to_list. Qed.
Lemma elem_nominators s a : a ∈ nominator_keys s <-> is_nominator s a = true.
Proof. unfold nominator_keys, is_nominator. by rewrite elem_of_keys, bool_decide_eq_true. Qed.
Lemma elem_validators s a : a ∈ validator_keys s <-> is_validator s a = true.
Proof. unfold validator_keys, is_validator. by rewrite elem_of_keys, bool_decide_eq_true. Qed.
Lemma length_nominators s : Z.of_nat (length (nominator_keys s)) = nominators_count s.
Proof. unfold nominator_keys. by rewrite keys_length. Qed.
Lemma length_validators s : Z.of_nat (length (validator_keys s)) = validators_count s.
Proof. unfold validator_keys. by rewrite keys_length. Qed.

Lemma regenerate_spec s : let '(s', n) := regenerate_voters s in
  same_pallet s s' /\ sh_total_issuance (A := A) (stk_rest s') = sh_total_issuance (A := A) (stk_rest s) /\
  (forall a, score_of s' a = if is_nominator s a then Some (weight_of s a) else None) /\
  (nominators_count s <= U32_MAX -> n = nominators_count s /\ mh_count (A := A) (stk_rest s') = nominators_count s).
Proof.
  unfold regenerate_voters. set (f := weight_of_fn _ s).
  pose proof (ml_regenerate_issuance (nominator_keys s) f (stk_rest s)) as Hi.
  pose proof (fun a => ml_regenerate (nominator_keys s) f (stk_rest s) a (nominator_keys_NoDup s)) as Hs.
  pose proof (ml_regenerate_count (nominator_keys s) f (stk_rest s) (nominator_keys_NoDup s)) as Hc.
  destruct (mh_regenerate _ f _) as [x n]. cbn [fst snd] in *. split_and!; [done|exact Hi| |].
  - intros a. unfold score_of. cbn. rewrite Hs. destruct (is_nominator s a) eqn:Ha.
    + by rewrite bool_decide_eq_true_2 by (by apply elem_nominators).
    + rewrite bool_decide_eq_false_2; [done|]. rewrite elem_nominators. by rewrite Ha.
  - rewrite length_nominators in Hc. intros Hm. cbn. destruct (Hc Hm). done.
Qed.

Lemma inject_fold iss l : forall s, sh_total_issuance (A := A) (stk_rest s) = iss -> NoDup l ->
  let s' := foldl (inject_one iss) s l in
  same_pallet s s' /\ sh_total_issuance (A := A) (stk_rest s') = iss /\
  (forall a, score_of s' a = match score_of s a with
                             | Some v => Some v
                             | None => if bool_decide (a ∈ l) then Some (weight_of s a) else None
                             end) /\
  ((forall a, a ∈ l -> score_of s a = None) -> 0 <= mh_count (A := A) (stk_rest s) ->
   mh_count (A := A) (stk_rest s) + Z.of_nat (length l) <= U32_MAX ->
   mh_count (A := A) (stk_rest s') = mh_count (A := A) (stk_rest s) + Z.of_nat (length l)).
Proof.
  induction l as [|v l IH]; intros s Hi Hnd; cbn [foldl].
  { split_and!; [apply same_pallet_refl|done| |intros; cbn; lia]. intros a. rewrite bool_decide_eq_false_2 by set_solver.
    by destruct (score_of s a). }
  apply NoDup_cons in Hnd as [Hv Hnd]. set (s1 := inject_one iss s v).
  assert (sh_total_issuance (A := A) (stk_rest s1) = iss) as Hi1 by (unfold s1; cbn; by rewrite ml_insert_issuance).
  assert (same_pallet s s1) as Hs1 by done.
  assert (forall a, weight_of s1 a = weight_of s a) as Hw.
  { intros a. unfold weight_of. by rewrite Hi1, Hi, (same_pallet_slashable s s1). }
  assert (forall a, score_of s1 a = match score_of s a with
            Some w => Some w | None => if bool_decide (a = v) then Some (weight_of s v) else None end) as Hsc1.
  { intros a. unfold score_of, s1. cbn. rewrite ml_insert. unfold weight_of_fn. by rewrite <- Hi. }
  destruct (IH s1 Hi1 Hnd) as (Hs & His & Hsc & Hcnt). split_and!; [by eapply same_pallet_trans|done|..].
  - intros a. rewrite Hsc, Hsc1, Hw. destruct (score_of s a); [done|]. destruct (decide (a = v)) as [->|Hne].
    + rewrite !bool_decide_eq_true_2; [done|set_solver|done].
    + rewrite (bool_decide_eq_false_2 (a = v)) by done. by rewrite (bool_decide_ext (a ∈ v :: l) (a ∈ l)) by set_solver.
  - intros Hnone Hpos Hmax. cbn [length] in *.
    assert (mh_count (A := A) (stk_rest s1) = mh_count (A := A) (stk_rest s) + 1) as Hc1.
    { unfold s1. cbn. apply ml_insert_count; [|lia]. apply Hnone. set_solver. }
    rewrite Hcnt; [lia| |lia|lia]. intros a Ha. rewrite Hsc1, Hnone by set_solver.
    rewrite bool_decide_eq_false_2; [done|]. intros ->. done.
Qed.
Lemma inject_spec s : let s' := inject_validators s in
  same_pallet s s' /\
  (forall a, score_of s' a = match score_of s a with
                             | Some v => Some v
                             | None => if is_validator s a then Some (weight_of s a) else None
                             end) /\
  ((forall a, is_validator s a = true -> score_of s a = None) -> 0 <= mh_count (A := A) (stk_rest s) ->
   mh_count (A := A) (stk_rest s) + validators_count s <= U32_MAX ->
   mh_count (A := A) (stk_rest s') = mh_count (A := A) (stk_rest s) + validators_count s).
Proof.
  destruct (inject_fold _ (validator_keys s) s eq_refl (NoDup_fst_map_to_list _)) as (Hs & _ & Hsc & Hc).
  split_and!; [exact Hs| |].
  - intros a. rewrite Hsc. destruct (score_of s a); [done|]. unfold is_validator.
    by rewrite (bool_decide_ext (a ∈ validator_keys s) (is_Some (Validators (stakes s) !! a))) by apply elem_of_keys.
  - intros Hn H0 Hm. rewrite <- length_validators in Hm |- *. apply Hc; [|done..].
    intros a Ha. by apply Hn, elem_validators.
Qed.

Definition nobody_twice s : Prop := forall a, is_validator s a && is_nominator s a = false.

Lemma rebuild_spec s : nobody_twice s -> nominators_count s + validators_count s <= U32_MAX ->
  let s1 := (regenerate_voters s).1 in let s' := inject_validators s1 in
  same_pallet s s' /\
  (forall a, score_of s' a = if is_validator s a || is_nominator s a then Some (weight_of s a) else None) /\
  mh_count (A := A) (stk_rest s1) = nominators_count s /\
  mh_count (A := A) (stk_rest s') = nominators_count s + validators_count s.
Proof.
  intros Hone Hmax. pose proof (regenerate_spec s) as Hr. destruct (regenerate_voters s) as [s1 n]. cbn [fst].
  destruct Hr as (Hs1 & Hi1 & Hsc1 & Hc1). destruct (inject_spec s1) as (Hs2 & Hsc2 & Hc2).
  assert (0 <= validators_count s /\ 0 <= nominators_count s) as [Hv0 Hn0]
    by (unfold validators_count, nominators_count; lia).
  assert (forall a, is_validator s1 a = is_validator s a) as Hva
    by (intros a; unfold is_validator; by rewrite (same_pallet_stakes s s1)).
  assert (validators_count s1 = validators_count s) as Hvc by (unfold validators_count; by rewrite (same_pallet_stakes s s1)).
  destruct (Hc1 ltac:(lia)) as [_ Hn]. split_and!; [by eapply same_pallet_trans| |done|].
  - intros a. rewrite Hsc2, Hsc1, Hva. unfold weight_of. rewrite Hi1, (same_pallet_slashable s s1) by done.
    by destruct (is_nominator s a), (is_validator s a).
  - rewrite Hc2, Hn, Hvc; [lia| |lia|lia]. intros a Ha. rewrite Hva in Ha. rewrite Hsc1. specialize (Hone a).
    rewrite Ha in Hone. cbn in Hone. by rewrite Hone.
Qed.

(** C37. The migration that the runtime runs repairs the list of voters, whatever the list
    was before: afterwards it holds exactly the validators and the nominators, each with
    the weight of its bond, and it counts them right, as long as nobody has both roles;
    nothing else of the pallet changes, so roles that were sound but for the list are
    sound; the version is 1; and running it again, which nothing prevents, leaves the same
    members with the same scores. *)
Theorem migration_restores_voters u :
  let s := up_staking u in let u' := (v1_on_runtime_upgrade u).1 in let s' := up_staking u' in
  let s2 := up_staking (v1_on_runtime_upgrade u').1 in
  nobody_twice s -> nominators_count s + validators_count s <= U32_MAX ->
  (forall a, score_of s' a = if is_validator s a || is_nominator s a then Some (weight_of s a) else None) /\
  mh_count (A := A) (stk_rest s') = nominators_count s + validators_count s /\
  s' = on_host (fun _ => stk_rest s') s /\
  (forall s0, roles_ok s0 -> stakes s0 = stakes s -> roles_ok s') /\
  on_chain_version u' = 1 /\
  (forall a, score_of s2 a = if is_validator s a || is_nominator s a then Some (weight_of s' a) else None) /\
  mh_count (A := A) (stk_rest s2) = mh_count (A := A) (stk_rest s').
Proof.
  intros s u' s' s2 Hone Hmax. destruct (rebuild_spec s Hone Hmax) as (Hs & Hsc & _ & Hc).
  change (inject_validators (regenerate_voters s).1) with s' in *.
  assert (forall a, is_validator s' a = is_validator s a /\ is_nominator s' a = is_nominator s a) as Hr.
  { intros a. unfold is_validator, is_nominator. by rewrite (same_pallet_stakes s s'). }
  assert (nominators_count s' + validators_count s' = nominators_count s + validators_count s) as Hn.
  { unfold validators_count, nominators_count. by rewrite (same_pallet_stakes s s'). }
  destruct (rebuild_spec s') as (_ & Hsc2 & _ & Hc2).
  { intros a. destruct (Hr a) as [-> ->]. apply Hone. }
  { by rewrite Hn. }
  change (inject_validators (regenerate_voters s').1) with s2 in *.
  split_and!; [exact Hsc|exact Hc|exact Hs| |done| |by rewrite Hc2, Hc].
  - intros s0 [R1 R2 R3 R4] Est. rewrite <- (same_pallet_stakes s s' Hs) in Est.
    split; unfold ledger, is_bonded, is_validator, is_nominator, bonded in *; rewrite <- ?Est; [exact R1|exact R2|exact R3|].
    intros a. unfold is_voter. rewrite (ml_contains (score := score)). fold (score_of s' a). rewrite Hsc, Est.
    destruct (Hr a) as [-> ->]. destruct (_ || _); [by apply bool_decide_eq_true_2|by apply bool_decide_eq_false_2; intros [? ?]].
  - intros a. rewrite Hsc2. by destruct (Hr a) as [-> ->].
Qed.
End voters.

(** ** Migrations run in order *)
(** The migrations that look at the version first. *)
Inductive Guarded : Type := M8 | M9 | M10 | M11 | M12.
Definition expects (m : Guarded) : ObsoleteReleases :=
  match m with M8 => V7_0_0 | M9 => V8_0_0 | M10 => V9_0_0 | M11 => V10_0_0 | M12 => V11_0_0 end.
(** What is left to run at a version. *)
Definition remaining (v : ObsoleteReleases) : list Guarded :=
  match v with
  | V7_0_0 => [M8; M9; M10; M11; M12]
  | V8_0_0 => [M9; M10; M11; M12]
  | V9_0_0 => [M10; M11; M12]
  | V10_0_0 => [M11; M12]
  | V11_0_0 => [M12]
  | _ => []
  end.

Section order.
Context {X A : Type} {eqA : EqDecision A} {countA : Countable A} {host : StakingHost X A} {prop : Proportion}.
Context {mhost : MigrationHost X A}.
Variable cfg : StakingConfig.
Variables (old_pallet_name new_pallet_name : string).
Abbreviation Up := (Upgrade X A).
Implicit Types u : Up.

Definition run_migration (m : Guarded) : Up -> Up * UpgradeWeight :=
  match m with
  | M8 => v8_migrate
  | M9 => v9_on_runtime_upgrade
  | M10 => v10_on_runtime_upgrade cfg
  | M11 => v11_on_runtime_upgrade old_pallet_name new_pallet_name
  | M12 => v12_on_runtime_upgrade
  end.
(** A sequence of upgrades, and those that found the version they expect. *)
Fixpoint run_all (ms : list Guarded) u : Up * list Guarded :=
  match ms with
  | [] => (u, [])
  | m :: ms' =>
      let '(u', ran) := run_all ms' (run_migration m u).1 in
      (u', if bool_decide (current_release u = expects m) then m :: ran else ran)
  end.

Lemma run_due m u : current_release u = expects m -> remaining (current_release u) = m :: remaining (current_release (run_migration m u).1).
Proof.
  intros Hr. destruct m; cbn [run_migration]; unfold v8_migrate, v9_on_runtime_upgrade, v10_on_runtime_upgrade,
    v11_on_runtime_upgrade, v12_on_runtime_upgrade; cbn [expects] in Hr; rewrite Hr, bool_decide_eq_true_2 by done; try done.
  by destruct (String.eqb _ _).
Qed.
Lemma run_not_due m u : current_release u <> expects m -> run_migration m u = (u, ReadsWrites 1 0).
Proof.
  intros Hr. destruct m; cbn [run_migration]; unfold v8_migrate, v9_on_runtime_upgrade, v10_on_runtime_upgrade,
    v11_on_runtime_upgrade, v12_on_runtime_upgrade; by rewrite bool_decide_eq_false_2.
Qed.
Lemma run_remaining l : forall u, remaining (current_release u) = l -> (run_all l u).2 = l.
Proof.
  induction l as [|m l IH]; intros u Hr; [done|]. assert (current_release u = expects m) as He
    by (destruct (current_release u), m; try discriminate; done).
  cbn [run_all]. pose proof (run_due m u He) as Hd. rewrite Hr in Hd. injection Hd as Hd.
  specialize (IH _ (eq_sym Hd)). destruct (run_all l _) as [u' ran]. cbn [snd] in *.
  rewrite bool_decide_eq_true_2 by done. by subst.
Qed.

(** Migrations take effect in order and once: whatever sequence of the guarded
    migrations is run, from whatever version, those that take effect are the next ones of
    the chain 8, 9, 10, 11, 12, without a gap or a repetition, and the version afterwards
    is where they lead; a migration that is not due changes nothing; and running the rest
    of the chain in order takes every step of it. *)
Theorem migrations_in_order ms u :
  let '(u', ran) := run_all ms u in
  remaining (current_release u) = ran ++ remaining (current_release u') /\
  (ran = [] -> u' = u) /\
  (run_all (remaining (current_release u)) u).2 = remaining (current_release u).
Proof.
  enough (remaining (current_release u) = (run_all ms u).2 ++ remaining (current_release (run_all ms u).1) /\
          ((run_all ms u).2 = [] -> (run_all ms u).1 = u)) as He.
  { pose proof (run_remaining _ u eq_refl). destruct (run_all ms u) as [u' ran]. by destruct He. }
  revert u. induction ms as [|m ms IH]; intros u; [done|]. cbn [run_all]. destruct (IH (run_migration m u).1) as [H1 H2].
  destruct (run_all ms (run_migration m u).1) as [u' ran]. cbn [fst snd] in *. case_bool_decide as Hd.
  - split; [|done]. rewrite (run_due m u Hd), H1. done.
  - rewrite (run_not_due m u Hd) in H1, H2. done.
Qed.
End order.

(** ** An upgrade with its checks *)
Section upgrade.
Context {X A : Type} {eqA : EqDecision A} {countA : Countable A} {host : StakingHost X A} {prop : Proportion}.
Context {mhost : MigrationHost X A} {score : X -> A -> option Z} {mlaws : MigrationLaws X A score}.
Context {locked : X -> A -> option Z} {laws : StakingHostLaws X A locked} {slaws : SlashHostLaws X A locked}.
Context {plaws : ProportionLaws}.
Variable cfg : StakingConfig.
Variables (old_pallet_name new_pallet_name : string).
(** The list of voters and the move of its storage have nothing to do with the locks. *)
Hypothesis regenerate_locked : forall l (f : A -> Z) x a, locked (mh_regenerate l f x).1 a = locked x a.
Hypothesis move_locked : forall o n x a, locked (mh_move_pallet (A := A) o n x) a = locked x a.
Abbreviation St := (Staking X A).
Abbreviation Up := (Upgrade X A).
Abbreviation bonds_inv := (bonds_inv (locked := locked) cfg).
Abbreviation bonds_kept := (bonds_kept (locked := locked)).
Implicit Types (s : St) (u : Up).

Lemma decode_encode_u32 n : in_u U32_MAX n -> decode_u32 (encode_u32 n) = Some n.
Proof.
  intros [H0 H1]. unfold decode_u32, encode_u32. rewrite length_reverse, length_be_bytes. cbn [Nat.ltb Nat.leb].
  rewrite take_ge by (by rewrite length_reverse, length_be_bytes). rewrite reverse_involutive.
  f_equal. apply be_val_be_bytes_small. unfold U32_MAX in *. lia.
Qed.

Lemma regenerate_kept s : bonds_kept s (regenerate_voters s).1.
Proof.
  unfold regenerate_voters. pose proof (regenerate_locked (nominator_keys s) (weight_of_fn (sh_total_issuance (stk_rest s)) s) (stk_rest s)) as Hl.
  destruct (mh_regenerate _ _ _) as [x n]. by apply host_kept.
Qed.
Lemma inject_kept s : bonds_kept s (inject_validators s).
Proof.
  unfold inject_validators. generalize (sh_total_issuance (A := A) (stk_rest s)) (validator_keys s). intros iss l.
  revert s. induction l as [|v l IH]; intros s; [apply bonds_kept_refl|]. cbn [foldl].
  eapply bonds_kept_trans; [|apply IH]. apply host_kept. intros a. apply hl_insert.
Qed.
Lemma apply_eras_inv l : forall s, Forall (fun e => Forall unapplied_ok e.2) l -> bonds_inv s ->
  bonds_inv (foldl (apply_era cfg) s l) /\ same_meta s (foldl (apply_era cfg) s l).
Proof.
  induction l as [|e l IH]; intros s Hl Hi; [done|]. apply Forall_cons in Hl as [He Hl]. cbn [foldl].
  destruct (apply_slashes_inv cfg e.1 e.2 s He Hi) as [Hi1 [H1 H2]].
  destruct (IH (apply_era cfg s e) Hl Hi1) as [Hi2 [H3 H4]]. split; [done|]. split; unfold apply_era in *; congruence.
Qed.
Lemma pending_ok s : queue_ok s -> Forall (fun e => Forall unapplied_ok e.2) (take 512 (map_to_list (UnappliedSlashes (slashes s)))).
Proof.
  intros Hq. apply Forall_take, Forall_forall. intros [e us] He. apply elem_of_map_to_list in He. by eapply Hq.
Qed.

Lemma v8_due u : current_release u = V7_0_0 ->
  (v8_migrate u).1 = put_release V8_0_0 (on_staking (fun s => (regenerate_voters s).1) u).
Proof. intros Hr. unfold v8_migrate. by rewrite bool_decide_eq_true_2. Qed.
Lemma v9_due u : current_release u = V8_0_0 ->
  (v9_on_runtime_upgrade u).1 = put_release V9_0_0 (on_staking inject_validators u).
Proof. intros Hr. unfold v9_on_runtime_upgrade. by rewrite bool_decide_eq_true_2. Qed.
Lemma v10_due u : queue_ok (up_staking u) -> bonds_inv (up_staking u) -> current_release u = V9_0_0 ->
  let u' := (v10_on_runtime_upgrade cfg u).1 in
  bonds_inv (up_staking u') /\ UnappliedSlashes (slashes (up_staking u')) = UnappliedSlashes (slashes (up_staking u)) /\
  current_release u' = V10_0_0 /\ EarliestUnappliedSlash u' = None /\ OldHistoryDepth u' = OldHistoryDepth u.
Proof.
  intros Hq Hi Hr. unfold v10_on_runtime_upgrade. rewrite bool_decide_eq_true_2 by done. cbn.
  destruct (apply_eras_inv _ (up_staking u) (pending_ok _ Hq) Hi) as [H1 [H2 _]]. split_and!; try done. by rewrite H2.
Qed.
Lemma v11_due u : bonds_inv (up_staking u) -> current_release u = V10_0_0 ->
  let u' := (v11_on_runtime_upgrade old_pallet_name new_pallet_name u).1 in
  bonds_inv (up_staking u') /\ slashes (up_staking u') = slashes (up_staking u) /\ current_release u' = V11_0_0 /\
  EarliestUnappliedSlash u' = EarliestUnappliedSlash u /\ OldHistoryDepth u' = OldHistoryDepth u.
Proof.
  intros Hi Hr. unfold v11_on_runtime_upgrade. rewrite bool_decide_eq_true_2 by done.
  destruct (String.eqb _ _); [done|]. split_and!; [|done..]. cbn.
  eapply bonds_inv_kept; [|exact Hi]. apply host_kept. intros a. apply move_locked.
Qed.

(** An upgrade from release 7 in order passes its checks and does its work: with a sound
    pallet in which nobody has two roles, whose validators are counted right and whose
    stored history depth, if any, is the configured one, the checks before 8, 9 and 12 and
    after 9 and 12 succeed; after 9 the list holds exactly the validators and the
    nominators with their weights; at the end the version is 12, the bonds are sound, the
    items that 10 and 12 remove are gone, and the queue of slashes is as it was: what 10
    applied is not taken out of it. *)
Theorem upgrade_checked u :
  let s := up_staking u in
  let u8 := (v8_migrate u).1 in let u9 := (v9_on_runtime_upgrade u8).1 in
  let u10 := (v10_on_runtime_upgrade cfg u9).1 in
  let u11 := (v11_on_runtime_upgrade old_pallet_name new_pallet_name u10).1 in
  let u12 := (v12_on_runtime_upgrade u11).1 in
  current_release u = V7_0_0 -> nobody_twice s -> nominators_count s + validators_count s <= U32_MAX ->
  CounterForValidators u = Some (validators_count s) ->
  (OldHistoryDepth u = None \/ OldHistoryDepth u = Some (HistoryDepth cfg)) ->
  bonds_inv s -> queue_ok s ->
  v8_pre_migrate u = Ok tt /\
  (exists prev, v9_pre_upgrade u8 = Ok prev /\ v9_post_upgrade prev u9 = Ok tt) /\
  v12_pre_upgrade cfg u11 = Ok [] /\ v12_post_upgrade u12 = Ok tt /\
  (forall a, score_of (score := score) (up_staking u9) a =
     if is_validator s a || is_nominator s a then Some (weight_of s a) else None) /\
  current_release u12 = V12_0_0 /\ bonds_inv (up_staking u12) /\
  OldHistoryDepth u12 = None /\ EarliestUnappliedSlash u12 = None /\
  UnappliedSlashes (slashes (up_staking u12)) = UnappliedSlashes (slashes s).
Proof.
  intros s u8 u9 u10 u11 u12 Hr Hone Hmax Hcv Hhd Hi Hq.
  destruct (rebuild_spec (score := score) s Hone Hmax) as (Hs & Hsc & Hc8 & Hc9).
  assert (u8 = put_release V8_0_0 (on_staking (fun s => (regenerate_voters s).1) u)) as E8 by by apply v8_due.
  assert (u9 = put_release V9_0_0 (on_staking inject_validators u8)) as E9 by (apply v9_due; by rewrite E8).
  assert (up_staking u9 = inject_validators (regenerate_voters s).1) as Es9 by (by rewrite E9, E8).
  assert (bonds_inv (up_staking u9)) as Hi9.
  { rewrite Es9. eapply bonds_inv_kept; [apply inject_kept|]. by eapply bonds_inv_kept; [apply regenerate_kept|]. }
  rewrite <- Es9 in Hs, Hsc, Hc9.
  assert (slashes (up_staking u9) = slashes s) as Hsl by (by rewrite Hs).
  destruct (v10_due u9) as (Hi10 & Hq10 & Hr10 & He10 & Hh10); [|done|by rewrite E9|].
  { unfold queue_ok. by rewrite Hsl. }
  destruct (v11_due u10 Hi10 Hr10) as (Hi11 & Hq11 & Hr11 & He11 & Hh11). fold u10 in Hq10, He10, Hh10. fold u11 in Hi11, Hq11, Hr11, He11, Hh11.
  assert (OldHistoryDepth u11 = OldHistoryDepth u) as Hh by (by rewrite Hh11, Hh10, E9, E8).
  assert (up_staking u12 = up_staking u11 /\ current_release u12 = V12_0_0 /\ OldHistoryDepth u12 = None /\
          EarliestUnappliedSlash u12 = EarliestUnappliedSlash u11) as (Es12 & Hr12 & Hh12 & He12)
    by (unfold u12, v12_on_runtime_upgrade; by rewrite bool_decide_eq_true_2).
  split_and!; [..|exact Hsc|exact Hr12|by rewrite Es12|exact Hh12|by rewrite He12, He11|by rewrite Es12, Hq11, Hq10, Hsl].
  - unfold v8_pre_migrate. by rewrite Hr.
  - exists (encode_u32 (nominators_count s)). split.
    + assert (current_release u8 = V8_0_0 /\ up_staking u8 = (regenerate_voters s).1) as [Hr8 Es8] by (by rewrite E8).
      unfold v9_pre_upgrade. by rewrite Hr8, Es8, Hc8.
    + unfold v9_post_upgrade. assert (0 <= nominators_count s /\ 0 <= validators_count s) as [? ?]
        by (unfold nominators_count, validators_count; lia).
      rewrite decode_encode_u32 by (unfold in_u; lia). cbn [expect rbind]. rewrite Hc9.
      assert (validators_counter u9 = validators_count s) as -> by (rewrite E9, E8; unfold validators_counter; cbn; by rewrite Hcv).
      unfold wrap_add. rewrite wrap_small by (unfold in_u; lia). rewrite Z.eqb_refl. cbn.
      rewrite E9. by rewrite bool_decide_eq_true_2.
  - unfold v12_pre_upgrade. rewrite Hr11, Hh. cbn. destruct Hhd as [->| ->]; [done|]. by rewrite Z.eqb_refl.
  - unfold v12_post_upgrade. by rewrite bool_decide_eq_true_2.
Qed.
End upgrade.

(** ** The counters, and two checks that fail when they should not *)
Section checks.
Context {X A : Type} {eqA : EqDecision A} {countA : Countable A} {mhost : MigrationHost X A}.
Abbreviation Up := (Upgrade X A).
Implicit Types u : Up.

(** After 7 the counters are the sizes of the maps; but the check before it panics on a
    storage without counters, which is what a chain at release 6 has. *)
Lemma v7_counts u : validators_count (up_staking u) <= U32_MAX -> nominators_count (up_staking u) <= U32_MAX ->
  let u' := (v7_migrate u).1 in
  validators_counter u' = validators_count (up_staking u) /\ nominators_counter u' = nominators_count (up_staking u) /\
  current_release u' = V7_0_0 /\ (CounterForValidators u = None -> v7_pre_migrate u = Panic).
Proof.
  intros Hv Hn. unfold validators_counter, nominators_counter, v7_migrate. cbn [fst].
  assert (0 <= validators_count (up_staking u) /\ 0 <= nominators_count (up_staking u)) as [? ?]
    by (unfold validators_count, nominators_count; lia).
  split_and!; [cbn; by rewrite wrap_small..|done|]. intros E. unfold v7_pre_migrate. by rewrite E.
Qed.

(** [next_key] gives the next key of the whole storage, in the order of bytes. *)
Fixpoint lex_lt (k l : bytes) : bool :=
  match k, l with
  | [], [] => false
  | [], _ :: _ => true
  | _ :: _, [] => false
  | a :: k', b :: l' => (a <? b) || ((a =? b) && lex_lt k' l')
  end.
Variable stored_keys : X -> list bytes.
Hypothesis next_key_some : forall x k k', k' ∈ stored_keys x -> lex_lt k k' = true -> is_Some (mh_next_key (A := A) x k).

(** The check after 11 means to see that no data is left under the old name, but it fails
    whenever any key of the whole storage follows the old prefix. *)
Theorem v11_check_sees_other_pallets old_name new_name u k :
  current_release u = V11_0_0 -> new_name <> old_name ->
  k ∈ stored_keys (stk_rest (up_staking u)) -> lex_lt (mh_twox_128 (X := X) (A := A) old_name) k = true ->
  v11_post_upgrade old_name new_name u = Err "old pallet data hasn't been removed"%string.
Proof.
  intros Hr Hne Hk Hlt. unfold v11_post_upgrade. rewrite bool_decide_eq_true_2 by done. cbn [negb].
  rewrite (proj2 (String.eqb_neq new_name old_name) Hne).
  rewrite bool_decide_eq_true_2; [done|]. by eapply next_key_some.
Qed.
End checks.

(** ** Witnesses: a runtime with locks, scores and raw keys *)
Module MigrationsWitness.
Record Chain : Type := mkChain { c_locks : gmap Z Z; c_scores : gmap Z Z; c_keys : list bytes }.
Definition set_scores m x := mkChain (c_locks x) m (c_keys x).
#[export] Instance chain_host : StakingHost Chain Z := {
  sh_minimum_balance := 10;
  sh_total_issuance _ := 1000000;
  sh_free_balance _ _ := 10000;
  sh_total_balance _ _ := 10000;
  sh_set_lock a v x := mkChain (<[a := v]> (c_locks x)) (c_scores x) (c_keys x);
  sh_remove_lock a x := mkChain (delete a (c_locks x)) (c_scores x) (c_keys x);
  sh_slash _ v x := (x, (v, 0));
  sh_resolve_creating _ _ x := x;
  sh_inc_consumers _ x := Some x;
  sh_dec_consumers _ x := x;
  sh_voter_contains x a := bool_decide (is_Some (c_scores x !! a));
  sh_voter_update a w x := set_scores (alter (fun _ => w) a (c_scores x)) x;
  sh_voter_insert a w x :=
    match c_scores x !! a with Some _ => x | None => set_scores (<[a := w]> (c_scores x)) x end;
  sh_voter_remove a x := set_scores (delete a (c_scores x)) x;
  sh_to_vote v _ := v;
  sh_validators _ := [];
  sh_disable_validator _ x := x;
  sh_on_staker_slash _ _ _ x := x;
  sh_on_slash_imbalance _ x := x;
  sh_percent_mul_floor f v := f * v / 100;
  sh_percent_mul f v := f * v / 100;
  sh_perbill_mul f v := f * v / 1000000000;
}.
Abbreviation wlocked := (fun (x : Chain) (a : Z) => c_locks x !! a).
#[export] Instance chain_laws : StakingHostLaws Chain Z wlocked.
Proof.
  split; try done; cbn.
  - intros a v x _. apply lookup_insert_eq.
  - intros a b v x Hne. by apply lookup_insert_ne.
  - intros a x. apply lookup_delete_eq.
  - intros a b x Hne. by apply lookup_delete_ne.
  - by intros a x x' b [= <-].
  - intros a v x b. by destruct (c_scores x !! a).
Qed.
#[export] Instance chain_slash_laws : SlashHostLaws Chain Z wlocked.
Proof. split; done. Qed.

Definition prefix (n : string) : bytes := if String.eqb n "BagsList" then [1] else [2].
Definition next_key (x : Chain) (k : bytes) : option bytes :=
  foldr (fun k' o => if lex_lt k k' then match o with Some m => if lex_lt k' m then Some k' else o | None => Some k' end else o)
    None (c_keys x).
#[export] Instance chain_migrations : MigrationHost Chain Z := {
  mh_count x := Z.of_nat (size (c_scores x));
  mh_regenerate l f x := (set_scores (list_to_map ((fun a => (a, f a)) <$> l)) x, Z.of_nat (length l));
  mh_try_state _ := true;
  mh_twox_128 := prefix;
  mh_next_key := next_key;
  mh_move_pallet o n x := mkChain (c_locks x) (c_scores x)
    ((fun k => if starts_with (prefix o) k then prefix n ++ drop (length (prefix o)) k else k) <$> c_keys x);
}.
Abbreviation wscore := (fun (x : Chain) (a : Z) => c_scores x !! a).
Lemma scored_keys (l : list Z) (f : Z -> Z) : ((fun a => (a, f a)) <$> l).*1 = l.
Proof. rewrite <- list_fmap_compose. apply list_fmap_id. Qed.
#[export] Instance chain_migration_laws : MigrationLaws Chain Z wscore.
Proof.
  split; try done; cbn.
  - intros a w x b. destruct (c_scores x !! a) as [v|] eqn:Ea.
    + destruct (c_scores x !! b) eqn:Eb; [done|]. rewrite bool_decide_eq_false_2; [done|]. by intros ->; rewrite Ea in Eb.
    + cbn. destruct (decide (b = a)) as [->|Hne].
      * by rewrite lookup_insert_eq, Ea, bool_decide_eq_true_2.
      * rewrite lookup_insert_ne by done. rewrite bool_decide_eq_false_2 by done. by destruct (c_scores x !! b).
  - intros a w x Ha _. rewrite Ha. cbn. rewrite map_size_insert_None by done. lia.
  - intros l f x b Hl. case_bool_decide as Hb.
    + apply elem_of_list_to_map_1; [by rewrite scored_keys|]. apply list_elem_of_fmap. by exists b.
    + apply not_elem_of_list_to_map_1. by rewrite scored_keys.
  - intros l f x Hl _. rewrite map_size_list_to_map by (by rewrite scored_keys). by rewrite length_fmap.
Qed.

Import LedgerWitness.
Abbreviation wcfg := BondsWitness.wcfg.
Abbreviation winv := (bonds_inv wcfg (locked := wlocked)).
(** A validator and a nominator, a queued slash, and a list of voters gone wrong. *)
Definition no_stakers : Staking Chain Z :=
  mkStaking (mkStakes ∅ ∅ ∅ ∅ ∅) (mkParams 4 1 0 0 0 None None None [] NotForcing 100000000)
    (mkEras (Some 100) (Some (mkActiveEra 100 None)) [] ∅ 0 ∅ ∅ ∅ ∅ ∅ ∅ 0) (mkSlashes ∅ ∅ ∅ ∅ ∅ []) [] (mkChain ∅ ∅ [[1; 7]; [3]]).
Definition role_calls : list (Origin Z * Call Z Z) :=
  [(Signed 1, CallBond 500 ToStash); (Signed 1, CallValidate (mkPrefs 0 false));
   (Signed 2, CallBond 300 ToStash); (Signed 2, CallNominate [1])].
Definition with_roles : Staking Chain Z :=
  foldl (fun s oc => (dispatch wcfg BondsWitness.wlookup BondsWitness.wadmin oc.1 oc.2 s).1) no_stakers role_calls.
Definition queued : Staking Chain Z :=
  set_unapplied {[ 98 := [mkUnapplied 1 40 [(2, 20)] [] 0] ]} (on_host (set_scores {[ 1 := 7; 9 := 1 ]}) with_roles).
Lemma spoiled_inv q m (s : Staking Chain Z) : winv s -> winv (set_unapplied q (on_host (set_scores m) s)).
Proof. intros Hs. eapply bonds_inv_kept; [|exact Hs]. by split. Qed.
Lemma no_stakers_inv : winv no_stakers.
Proof. split; done. Qed.
Lemma queued_inv : winv queued.
Proof.
  apply spoiled_inv. unfold with_roles, role_calls. cbn [foldl fst snd].
  repeat (apply dispatch_inv; [done|cbn; unfold in_u, U128_MAX; lia|]). exact no_stakers_inv.
Qed.
Lemma queued_queue : queue_ok queued.
Proof.
  intros era us Hq. change (({[ 98 := [mkUnapplied 1 40 [(2, 20)] [] 0] ]} : gmap Z (list (UnappliedSlash Z))) !! era = Some us) in Hq.
  apply lookup_singleton_Some in Hq as [_ <-]. repeat constructor; cbn; unfold U128_MAX; lia.
Qed.
Lemma queued_validators : Validators (stakes queued) = {[ 1 := mkPrefs 0 false ]}.
Proof. vm_compute. reflexivity. Qed.
Lemma queued_nominators : Nominators (stakes queued) = {[ 2 := mkNominations [1] 100 false ]}.
Proof. vm_compute. reflexivity. Qed.
Lemma queued_once : nobody_twice queued.
Proof.
  intros a. unfold is_validator, is_nominator. rewrite queued_validators, queued_nominators, !lookup_singleton.
  destruct (decide (1 = a)) as [<-|]; [done|]. by rewrite bool_decide_eq_false_2 by (by intros [? ?]).
Qed.
Lemma queued_few : nominators_count queued + validators_count queued <= U32_MAX.
Proof. vm_compute. discriminate. Qed.
Definition release_7 : Upgrade Chain Z :=
  mkUpgrade queued (Some V7_0_0) 0 (Some (HistoryDepth wcfg)) (Some 98) (Some (validators_count queued)) None
    (mkOldElections false false false false false false).

Lemma migration_restores_voters_witness :
  c_scores (stk_rest (up_staking (v1_on_runtime_upgrade release_7).1)) !! 2 = Some 300 /\
  c_scores (stk_rest (up_staking (v1_on_runtime_upgrade release_7).1)) !! 9 = None.
Proof.
  destruct (migration_restores_voters (score := wscore) release_7 queued_once queued_few) as (Hs & _).
  split; [exact (eq_trans (Hs 2) ltac:(vm_compute; reflexivity))|exact (eq_trans (Hs 9) ltac:(vm_compute; reflexivity))].
Defined.
Lemma upgrade_checked_witness : winv (up_staking (v12_on_runtime_upgrade (v11_on_runtime_upgrade "BagsList" "VoterList"
  (v10_on_runtime_upgrade wcfg (v9_on_runtime_upgrade (v8_migrate release_7).1).1).1).1).1).
Proof.
  pose proof (upgrade_checked (score := wscore) (locked := wlocked) wcfg "BagsList" "VoterList"
    (fun _ _ _ _ => eq_refl) (fun _ _ _ _ => eq_refl) release_7 eq_refl queued_once queued_few eq_refl
    (or_intror eq_refl) queued_inv queued_queue) as (_ & _ & _ & _ & _ & _ & H & _).
  exact H.
Defined.
(** Of a chain at release 9, only the last three of the five take effect. *)
Example release_9_runs : (run_all wcfg "BagsList" "VoterList" [M12; M10; M8; M11; M11; M12] (put_release V9_0_0 release_7)).2
  = [M10; M11; M12].
Proof. vm_compute. reflexivity. Qed.
(** The storage of the list moves to its new name, and a key of another pallet remains: the
    check after 11 fails all the same. *)
Definition moved : Upgrade Chain Z := (v11_on_runtime_upgrade "BagsList" "VoterList" (put_release V10_0_0 release_7)).1.
Example moved_check : c_keys (stk_rest (up_staking moved)) = [[2; 7]; [3]] /\
  v11_post_upgrade "BagsList" "VoterList" moved = Err "old pallet data hasn't been removed"%string.
Proof. split; vm_compute; reflexivity. Qed.
End MigrationsWitness.
