(* ===== verification/RuntimeEvmApi.v ===== *)
(** * The EVM API of the runtime

    Models the implementation of [EVMRuntimeRPCApi] in [src/runtime/src/lib.rs]: a node
    that answers a wallet runs [Runner::call] and [Runner::create] of the runtime on the
    storage of a block and drops what they write.  This closes the gap between two
    components: the server of [EvmRpc] gets the runner of [EvmRunner] as its runtime, and
    the theorems compare its answers with what the extrinsics do on the same storage.

    The storage of a block, the decoding of extrinsics and the fee of one are parameters. *)

From stdpp Require Import base gmap list strings.
From Stdlib Require Import ZArith Lia.
From S2P Require Import Prelude Interfaces StorageMeter EvmPallet EvmHandler EvmRunner EvmRpc.

Local Open Scope Z_scope.

Section runtime_api.
Context {X : Type} `{Currency X AccountId} `{TransferAll X AccountId} `{AddressMapping X AccountId}.
Context `{TransactionPayment X AccountId}.
Context {G : Type} `{Gasometer G}.
Variable cfg : EvmConfig.
Variable keccak : bytes -> H256.
Variable rlp_list : H160 -> Z -> bytes.
Variable call_l64_after_gas : bool.
Variable call_stipend : Z.
Variable evm_run : bool -> bytes -> bytes -> Context -> Prog.
Variable precompiles : H160 -> bytes -> option Z -> Context -> Evm X ->
  Evm X * option (res ExitError (ExitSucceed * bytes * Z)).
Variable call_transaction_cost : bytes -> Z.
Variable GasToWeight : Z -> Z.
Variable fuel : nat.

(** The field [estimate] of [module_evm::Config::config()]. *)
Definition config_estimate : bool := false.

(** [call] and [create]: the configuration is a copy in which [estimate] may be set. *)
Definition runtime_call (from to : H160) (data : bytes) (value gas_limit storage_limit : Z) (estimate : bool)
  : M (Evm X) RunError CallInfo :=
  let config_estimate := if estimate then true else config_estimate in
  runner_call cfg keccak rlp_list call_l64_after_gas call_stipend evm_run precompiles call_transaction_cost fuel
    config_estimate from from to data value gas_limit storage_limit.
Definition runtime_create (from : H160) (data : bytes) (value gas_limit storage_limit : Z) (estimate : bool)
  : M (Evm X) RunError CreateInfo :=
  let config_estimate := if estimate then true else config_estimate in
  runner_create cfg keccak rlp_list call_l64_after_gas call_stipend evm_run precompiles call_transaction_cost fuel
    config_estimate from data value gas_limit storage_limit.

(** What the node gets from a run on the storage of a block, whose writes are dropped; a
    run that traps is an API error, and so is one deeper than the fuel. *)
Definition answer {T} (run : M (Evm X) RunError T) (s : Evm X) : option (T + DispatchError) :=
  match (run s).2 with
  | Ok info => Some (inl info)
  | Err (Dispatch e) => Some (inr e)
  | Err NoFuel | Panic => None
  end.

Context {B : Type}.
Variable best : B.
(** The storage of a block, if the node has it. *)
Variable state_at : B -> option (Evm X).
Variable decode : bytes -> option ExtrinsicCall.
Variable decodes_opaque : bytes -> bool.
Variable weight_fee : Evm X -> bytes -> Z -> option Z.

Definition runtime_api : RuntimeApi B := {|
  best_hash := best;
  api_call b from to data value gas storage estimate :=
    s ← state_at b; answer (runtime_call from to data value gas storage estimate) s;
  api_create b from data value gas storage estimate :=
    s ← state_at b; answer (runtime_create from data value gas storage estimate) s;
  api_estimate_request b extrinsic := _ ← state_at b; Some (get_estimate_resources_request decode extrinsic);
  api_decodes := decodes_opaque;
  api_weight_fee b extrinsic len := s ← state_at b; Some (weight_fee s extrinsic len);
|}.

(** ** Answers and transactions *)
Abbreviation call_ext := (call_extrinsic cfg keccak rlp_list call_l64_after_gas call_stipend evm_run
  precompiles call_transaction_cost GasToWeight fuel).
Abbreviation create_ext := (create_extrinsic cfg keccak rlp_list call_l64_after_gas call_stipend evm_run
  precompiles call_transaction_cost GasToWeight fuel).

(** What the server says of a run that came to an end. *)
Definition report (reason : ExitReason) (out : bytes) : Rpc bytes :=
  let? _ := error_on_execution_failure reason out in Ok out.

(** How the answer of the server and the outcome of an extrinsic, run on [s], correspond;
    [ran] says what the extrinsic did when the runner came to an end. *)
Definition agree (s : Evm X) (result : Evm X * res RunError Z) (said : Rpc bytes)
    (ran : Evm X -> Z -> ExitReason -> bytes -> Prop) : Prop :=
  match result with
  | (s', Ok w) => exists reason out, ran s' w reason out /\ said = report reason out /\ (said = Ok out <-> is_succeed reason = true)
  | (s', Err (Dispatch e)) => s' = s /\ said = Err (internal_err (MsgExecutionFatal e))
  | (s', _) => s' = s /\ said = Err (internal_err MsgRuntimeError)
  end.

Lemma report_output reason out : report reason out = Ok out <-> is_succeed reason = true.
Proof.
  unfold report. destruct reason as [r|e| |n]; cbn; [done|by destruct e| |done].
  by destruct (decode_revert_message out).
Qed.
Lemma agree_run {T} (run : M (Evm X) RunError T) (cont : T -> M (Evm X) RunError Z)
    (reason_of : T -> ExitReason) (output_of : T -> bytes) s (ran : Evm X -> Z -> ExitReason -> bytes -> Prop) :
  (forall info s1, run s = (s1, Ok info) ->
     exists s' w, cont info s1 = (s', Ok w) /\ ran s' w (reason_of info) (output_of info)) ->
  agree s (transactional (bind run cont) s)
    (let? info := api_result (answer run s) in report (reason_of info) (output_of info)) ran.
Proof.
  intros Hc. unfold transactional, bind, answer. destruct (run s) as [s1 [info|[e|]|]] eqn:Hr; cbn; [|by split..].
  destruct (Hc info s1 eq_refl) as (s' & w & -> & Hran). cbn. eexists _, _. split_and!; [exact Hran|done|apply report_output].
Qed.

Context `{!AddressMappingLaws X AccountId}.
Lemma mk_address_linked (who : AccountId) (from : H160) (s : Evm X) :
  get_evm_address (rest s) who = Some from -> mk_address who s = (s, Ok from).
Proof.
  intros Hl. unfold mk_address. rewrite (create_existing _ _ _ Hl). by destruct s.
Qed.
Lemma linked_start {T} (who : AccountId) (from : H160) (s : Evm X) (body : H160 -> M (Evm X) RunError T) :
  get_evm_address (rest s) who = Some from ->
  transactional (let! w := mmap_err Dispatch (mlift (ensure_signed (Signed who))) in let! source := mk_address w in body source) s
  = transactional (body from) s.
Proof.
  intros Hl. unfold transactional, mmap_err, mlift, bind. cbn [ensure_signed rmap_err].
  by rewrite (mk_address_linked who from s Hl).
Qed.

(** A request with everything given and within the limits of the server. *)
Definition full_request (from : H160) (to : option H160) (gas storage value : Z) (data : bytes) : CallRequest :=
  mkCallRequest (Some from) to (Some gas) (Some storage) (Some value) (Some data).
Lemma full_gas from to gas storage value data : gas <= GAS_LIMIT -> gas_of (full_request from to gas storage value data) = gas.
Proof. intros. unfold gas_of. cbn. lia. Qed.
Lemma full_storage from to gas storage value data :
  storage <= STORAGE_LIMIT -> storage_of (full_request from to gas storage value data) = storage.
Proof. intros. unfold storage_of. cbn. lia. Qed.
Lemma full_value from to gas storage value data :
  value <= U128_MAX -> balance_value (full_request from to gas storage value data) = Ok value.
Proof. intros Hv. unfold balance_value, to_u128. cbn. by rewrite (proj2 (Z.leb_le _ _) Hv). Qed.

(** The server asks the runtime for exactly these runs. *)
Lemma rpc_full_call b s from target data value gas storage :
  state_at b = Some s -> value <= U128_MAX -> gas <= GAS_LIMIT -> storage <= STORAGE_LIMIT ->
  rpc_call (api := runtime_api) (full_request from (Some target) gas storage value data) (Some b) =
  (let? info := api_result (answer (runtime_call from target data value gas storage false) s) in
   report (exit_reason info) (output info)).
Proof.
  intros Hs Hv Hg Hst. unfold rpc_call. rewrite full_value by done. rewrite full_gas, full_storage by done.
  unfold at_hash, from_of. cbn -[runtime_call answer report api_result]. by rewrite Hs.
Qed.
Lemma rpc_full_create b s from data value gas storage :
  state_at b = Some s -> value <= U128_MAX -> gas <= GAS_LIMIT -> storage <= STORAGE_LIMIT ->
  rpc_call (api := runtime_api) (full_request from None gas storage value data) (Some b) =
  (let? info := api_result (answer (runtime_create from data value gas storage false) s) in
   report (ci_exit_reason info) (ci_output info)).
Proof.
  intros Hs Hv Hg Hst. unfold rpc_call. rewrite full_value by done. rewrite full_gas, full_storage by done.
  unfold at_hash, from_of. cbn -[runtime_create answer report api_result]. by rewrite Hs.
Qed.

(** What an extrinsic did when its call came to an end: the storage is the one the runner
    left, with the event of the call, and the weight is computed from the gas. *)
Definition call_ran (s : Evm X) (from target : H160) (data : bytes) (value gas storage : Z)
    (s' : Evm X) (w : Z) (reason : ExitReason) (out : bytes) : Prop :=
  exists info s1, runtime_call from target data value gas storage false s = (s1, Ok info) /\
    exit_reason info = reason /\ output info = out /\ w = GasToWeight (Z.min (info_used_gas info) U64_MAX) /\
    s' = (process_queued_events (deposit_event (call_event from from target gas info) s1)).1.

(** C14. A call without a transaction says what the transaction does.  Take a block, its
    storage, an account with an EVM address, and an extrinsic [call] with limits the
    server accepts.  The answer of the node to the call of that address with the same
    arguments agrees with the result of the extrinsic on the same storage: the extrinsic
    succeeds exactly if the answer is a report of the run, the event it deposits has the
    exit reason and the output that are reported, and an output is answered exactly for a
    run that succeeded; the extrinsic fails with an error exactly if that error is answered,
    and then nothing has changed.  The request the runtime reads off the extrinsic for an
    estimate is the same one. *)
Theorem answer_predicts_call b s who from extrinsic target data value gas storage :
  state_at b = Some s -> get_evm_address (rest s) who = Some from ->
  decode extrinsic = Some (ExtCall target data value gas storage) ->
  value <= U128_MAX -> gas <= GAS_LIMIT -> storage <= STORAGE_LIMIT ->
  let request := full_request from (Some target) gas storage value data in
  agree s (call_ext (Signed who) target data value gas storage s)
    (rpc_call (api := runtime_api) request (Some b)) (call_ran s from target data value gas storage) /\
  exists r, api_estimate_request (RuntimeApi := runtime_api) b extrinsic = Some (Ok r) /\
    request = mkCallRequest (Some from) (cr_to r) (cr_gas_limit r) (cr_storage_limit r) (cr_value r) (cr_data r).
Proof.
  intros Hs Hl Hd Hv Hg Hst. cbv zeta. split.
  - rewrite (rpc_full_call b s) by done. unfold call_extrinsic. rewrite (linked_start who from s _ Hl).
    apply (agree_run (runtime_call from target data value gas storage false) _ exit_reason output).
    intros info s1 Hr. eexists _, _. split; [reflexivity|]. by exists info, s1.
  - cbn. rewrite Hs. cbn. unfold get_estimate_resources_request. rewrite Hd. cbn. by eexists.
Qed.

(** What an extrinsic did when its creation came to an end; one that succeeded is reported
    by an event of the runner. *)
Definition create_ran (s : Evm X) (from : H160) (data : bytes) (value gas storage : Z)
    (s' : Evm X) (w : Z) (reason : ExitReason) (out : bytes) : Prop :=
  exists info s1, runtime_create from data value gas storage false s = (s1, Ok info) /\
    ci_exit_reason info = reason /\ ci_output info = out /\ w = GasToWeight (Z.min (ci_used_gas info) U64_MAX) /\
    s' = (process_queued_events
            (if is_succeed reason then s1 else deposit_event (CreatedFailed from (ci_address info) reason out (gas, 0)) s1)).1.

(** The same for a creation. *)
Theorem answer_predicts_create b s who from data value gas storage :
  state_at b = Some s -> get_evm_address (rest s) who = Some from ->
  value <= U128_MAX -> gas <= GAS_LIMIT -> storage <= STORAGE_LIMIT ->
  agree s (create_ext (Signed who) data value gas storage s)
    (rpc_call (api := runtime_api) (full_request from None gas storage value data) (Some b)) (create_ran s from data value gas storage).
Proof.
  intros Hs Hl Hv Hg Hst. rewrite (rpc_full_create b s) by done. unfold create_extrinsic. rewrite (linked_start who from s _ Hl).
  apply (agree_run (runtime_create from data value gas storage false) _ ci_exit_reason ci_output).
  intros info s1 Hr. unfold report_create, mwhen, bind. cbn.
  destruct (is_succeed (ci_exit_reason info)) eqn:E; cbn; (eexists _, _; split; [reflexivity|]); exists info, s1; by rewrite E.
Qed.

End runtime_api.

(** ** Witness *)
Module ApiWitness.
Import SimpleLedger EvmPalletWitness HandlerWitness RunnerWitness.
Definition call_bytes : bytes := [7; 7].
Definition decode0 (b : bytes) : option ExtrinsicCall :=
  if bool_decide (b = call_bytes) then Some (ExtCall nowhere [] 0 100000 1000) else None.
Abbreviation api0 :=
  (runtime_api (X := W) (G := Z) cfg0 hash0 rlp0 true 2300 reverts no_precompile cost0 5 tt (fun _ => Some funded)
    decode0 (fun _ => true) (fun _ _ _ => None)).
Lemma alice_linked : get_evm_address (rest funded) alice = Some alice_evm.
Proof. reflexivity. Qed.
Lemma decoded : decode0 call_bytes = Some (ExtCall nowhere [] 0 100000 1000).
Proof. reflexivity. Qed.
Lemma value_fits : 0 <= U128_MAX.
Proof. unfold U128_MAX. lia. Qed.
Lemma gas_fits : 100000 <= GAS_LIMIT.
Proof. unfold GAS_LIMIT. lia. Qed.
Lemma storage_fits : 1000 <= STORAGE_LIMIT.
Proof. unfold STORAGE_LIMIT. lia. Qed.
Lemma answer_predicts_call_witness :
  agree funded
    (call_extrinsic (X := W) (G := Z) cfg0 hash0 rlp0 true 2300 reverts no_precompile cost0 weight0 5
       (Signed alice) nowhere [] 0 100000 1000 funded)
    (rpc_call (api := api0) (full_request alice_evm (Some nowhere) 100000 1000 0 []) (Some tt))
    (call_ran (X := W) (G := Z) cfg0 hash0 rlp0 true 2300 reverts no_precompile cost0 weight0 5 funded alice_evm nowhere [] 0 100000 1000).
Proof.
  exact (proj1 (answer_predicts_call (X := W) (G := Z) cfg0 hash0 rlp0 true 2300 reverts no_precompile cost0 weight0 5
    tt (fun _ => Some funded) decode0 (fun _ => true) (fun _ _ _ => None) tt funded alice alice_evm call_bytes nowhere [] 0 100000 1000
    eq_refl alice_linked decoded value_fits gas_fits storage_fits)).
Defined.
(** What the node answers: the revert. *)
Example answered : rpc_call (api := api0) (full_request alice_evm (Some nowhere) 100000 1000 0 []) (Some tt) =
  Err (mkRpcError InternalError (MsgRevert None) (Some [9])).
Proof. vm_compute. reflexivity. Qed.
End ApiWitness.
