(* ===== verification/RuntimeAccounts.v ===== *)
(** * Accounts of the runtime

    Puts two pallets together the way [src/runtime/src/lib.rs] does: the EVM pallet uses
    the mapping of [EvmAccounts] as its [AddressMapping] ([EvmAddressMapping]), the account
    lookup tries indices before EVM addresses, and an account that is reaped is removed
    from the EVM before its mapping is ([OnKilledAccount]).  The implementation's lemmas discharge the
    interface that the theorems about the EVM pallet rely on. *)

From stdpp Require Import base gmap list strings.
From Stdlib Require Import ZArith Lia.
From S2P Require Import Prelude Interfaces EvmPallet EvmAccounts.

Local Open Scope Z_scope.

Section mapping.
Context {Y : Type}.
Variable blake2_256 : bytes -> bytes.

(** [EvmAddressMapping] of [src/modules/evm-accounts/src/lib.rs]. *)
#[local] Instance evm_address_mapping : AddressMapping (EvmAccounts Y) AccountId := {
  Interfaces.get_account_id := EvmAccounts.get_account_id;
  Interfaces.get_evm_address := EvmAccounts.get_evm_address;
  Interfaces.get_or_create_evm_address := EvmAccounts.get_or_create_evm_address blake2_256;
  Interfaces.get_default_evm_address := EvmAccounts.get_default_evm_address blake2_256;
  Interfaces.is_linked := EvmAccounts.is_linked blake2_256;
}.
#[local] Instance evm_address_mapping_laws : AddressMappingLaws (EvmAccounts Y) AccountId.
Proof.
  split; cbn; unfold EvmAccounts.get_or_create_evm_address.
  - intros x a e He. by rewrite He.
  - intros x a x' e. destruct (EvmAccounts.get_evm_address x a) eqn:E; intros [= <- <-]; [done|].
    unfold EvmAccounts.get_evm_address. cbn. by rewrite lookup_insert_eq.
Qed.

(** [OnKilledAccount] of the runtime: the EVM pallet, then the mapping. *)
Definition runtime_on_killed_account (who : AccountId) (s : Evm (EvmAccounts Y)) : Evm (EvmAccounts Y) :=
  let s1 := EvmPallet.on_killed_account who s in
  set_rest (EvmAccounts.on_killed_account blake2_256 who (rest s1)) s1.

(** [Lookup = (Indices, EvmAccounts)]: the second is asked when the first fails. *)
Definition runtime_lookup (indices : MultiAddress -> res DispatchError AccountId) (s : EvmAccounts Y)
    (a : MultiAddress) : res DispatchError AccountId :=
  match indices a with
  | Ok x => Ok x
  | Err _ => lookup_source s a
  | Panic => Panic
  end.

(** ** Reaped accounts *)
Implicit Types s : Evm (EvmAccounts Y).
Abbreviation default_address := (account_to_default_evm_address blake2_256).

(** The EVM addresses of an account: the linked one and the default one. *)
Definition address_of (who : AccountId) (x : EvmAccounts Y) (a : H160) : Prop :=
  EvmAccounts.get_evm_address x who = Some a \/ a = default_address who.
Definition absent (a : H160) s : Prop :=
  accounts s !! a = None /\ forall k, account_storages s !! (a, k) = None.
Definition same_at (a : H160) s s' : Prop :=
  accounts s' !! a = accounts s !! a /\ forall k, account_storages s' !! (a, k) = account_storages s !! (a, k).

Lemma release_frame h s : accounts (release_code h s) = accounts s /\
  account_storages (release_code h s) = account_storages s /\ rest (release_code h s) = rest s.
Proof. unfold release_code. destruct (code_infos s !! h); [|done]. by destruct (_ =? _). Qed.
Lemma remove_account_fields a s :
  let s' := (remove_account a s).1 in
  accounts s' = delete a (accounts s) /\
  account_storages s' = filter (fun kv => kv.1.1 <> a) (account_storages s) /\ rest s' = rest s.
Proof.
  unfold remove_account. destruct (accounts s !! a) as [[n [ci|] dd]|] eqn:E; cbn; [|done..].
  destruct (release_frame (ci_code_hash ci) s) as (-> & -> & ->). done.
Qed.
Lemma remove_account_effect a s :
  let s' := (remove_account a s).1 in
  absent a s' /\ (forall b, b <> a -> same_at b s s') /\ rest s' = rest s.
Proof.
  cbv zeta. destruct (remove_account_fields a s) as (Ha & Hst & Hr). unfold absent, same_at. rewrite Ha, Hst.
  split_and!; [by rewrite lookup_delete_eq| | |done].
  - intros k. apply map_lookup_filter_None. right. intros v _ Hne. by apply Hne.
  - intros b Hb. split; [by rewrite lookup_delete_ne|]. intros k.
    destruct (account_storages s !! (b, k)) as [v|] eqn:E.
    + by apply map_lookup_filter_Some.
    + apply map_lookup_filter_None. by left.
Qed.
Lemma absent_kept a b s s' : (forall c, c <> b -> same_at c s s') -> absent b s' -> absent a s -> absent a s'.
Proof.
  intros Hs Hb Ha. destruct (decide (a = b)) as [->|Hne]; [done|].
  destruct (Hs a Hne) as [H1 H2]. destruct Ha as [H3 H4]. split; [by rewrite H1|]. intros k. by rewrite H2.
Qed.

Lemma killed_evm_effect who s :
  let s' := EvmPallet.on_killed_account who s in
  (forall a, address_of who (rest s) a -> absent a s') /\
  (forall a, ~ address_of who (rest s) a -> same_at a s s') /\ rest s' = rest s.
Proof.
  unfold EvmPallet.on_killed_account, address_of. cbn [Interfaces.get_evm_address Interfaces.get_default_evm_address evm_address_mapping].
  set (s1 := match EvmAccounts.get_evm_address (rest s) who with Some a => (remove_account a s).1 | None => s end).
  destruct (remove_account_effect (EvmAccounts.get_default_evm_address blake2_256 who) s1) as (Hd & Ho & Hr). cbv zeta.
  change (EvmAccounts.get_default_evm_address blake2_256 who) with (default_address who) in *.
  set (s2 := (remove_account (default_address who) s1).1) in *.
  destruct (EvmAccounts.get_evm_address (rest s) who) as [e|] eqn:E.
  - destruct (remove_account_effect e s) as (Hd1 & Ho1 & Hr1). fold s1 in Hd1, Ho1, Hr1. split_and!.
    + intros a [[= <-]| ->]; [|exact Hd]. exact (absent_kept _ _ _ _ Ho Hd Hd1).
    + intros a Hn. destruct (Ho a) as [H1 H2]; [naive_solver|]. destruct (Ho1 a) as [H3 H4]; [naive_solver|].
      split; [congruence|]. intros k. by rewrite H2.
    + congruence.
  - split_and!; [|intros a Hn; apply Ho; naive_solver|done].
    intros a [?| ->]; [done|exact Hd].
Qed.

(** C16. A reaped account leaves nothing behind.  When an account is reaped, the EVM
    account, the contract and the storage at its linked address and at its default address
    are gone and its mapping is removed in both directions, while every other EVM address
    and every other account keeps what it had; the codes of the contracts that are left
    stay available (the callback releases what it removes, whatever the count of a code had lost before), and the mapping stays one to one.  The mapping has to be removed
    last, since the EVM pallet reads the linked address from it. *)
Theorem killed_account_cleared (keccak : bytes -> H256) (lost : H256 -> Z) who s :
  mapped (rest s) -> collision_free blake2_256 who (rest s) -> code_inv keccak lost s ->
  let s' := runtime_on_killed_account who s in
  (forall a, address_of who (rest s) a -> absent a s') /\
  (forall a, ~ address_of who (rest s) a -> same_at a s s') /\
  EvmAddresses (rest s') !! who = None /\ (forall a, Accounts (rest s') !! a <> Some who) /\
  (forall acc, acc <> who -> EvmAddresses (rest s') !! acc = EvmAddresses (rest s) !! acc) /\
  code_inv keccak lost s' /\ mapped (rest s').
Proof.
  intros Hm Hc Hi. cbv zeta. unfold runtime_on_killed_account. cbv zeta.
  destruct (killed_evm_effect who s) as (Ha & Ho & Hr). cbv zeta in Hr.
  set (s1 := EvmPallet.on_killed_account who s) in *. cbn [rest set_rest]. rewrite Hr.
  destruct (killed_account_unmapped blake2_256 who (rest s) Hm Hc) as (Hu & Hn & Hk & _).
  split_and!; [exact Ha|exact Ho|exact Hu|exact Hn|exact Hk| |by apply on_killed_mapped].
  exact (code_inv_same keccak lost s1 _ eq_refl eq_refl eq_refl (killed_inv keccak lost who s Hi)).
Qed.

(** An EVM address resolves to its account, whether it is claimed or not; other forms are
    left to the indices. *)
Lemma lookup_evm_address indices (x : EvmAccounts Y) e a : indices (Address20 e) = Err a ->
  runtime_lookup indices x (Address20 e) = Ok (EvmAccounts.get_account_id x e).
Proof. unfold runtime_lookup. by intros ->. Qed.
End mapping.

(** ** Witness *)
Module KilledWitness.
Import EvmAccountsWitness.
Definition code_hash0 (code : bytes) : H256 := take 32 (code ++ replicate 32 0).
Definition config0 : EvmConfig :=
  mkEvmConfig 100 1 61440 1000 10 (replicate 20 9) false (fun _ => false) (fun _ => false).
Definition bare : Evm (EvmAccounts unit) := mkEvm ∅ {[ (addr, replicate 32 0) := replicate 32 1 ]} ∅ ∅ 4096 None [] [] claimed.
(** An account with a contract at its address. *)
Definition owner : Evm (EvmAccounts unit) :=
  (on_contract_initialization config0 code_hash0 addr (replicate 20 3) [96; 1] (21000, 166) bare).1.
Lemma bare_inv : code_inv code_hash0 no_loss bare.
Proof. intros h. split; [done|]. unfold bare, uses; simpl. by rewrite !lookup_empty, map_sum_empty. Qed.
Lemma owner_eq : on_contract_initialization config0 code_hash0 addr (replicate 20 3) [96; 1] (21000, 166) bare = (owner, Ok tt).
Proof. vm_compute. reflexivity. Qed.
Lemma owner_inv : code_inv code_hash0 no_loss owner.
Proof.
  apply (initialization_inv config0 code_hash0 no_loss _ _ _ _ bare owner (Ok tt) bare_inv owner_eq). vm_compute. discriminate.
Qed.
Lemma owner_free : collision_free toy_hash alice (rest owner).
Proof. intros acc. vm_compute. discriminate. Qed.
Lemma owner_mapped : mapped (rest owner).
Proof. exact claimed_mapped. Qed.
Lemma alice_address : address_of toy_hash alice (rest owner) addr.
Proof. left. reflexivity. Qed.
Lemma killed_account_cleared_witness :
  bool_decide (is_Some (accounts owner !! addr)) = true /\ absent addr (runtime_on_killed_account toy_hash alice owner).
Proof.
  split; [vm_compute; reflexivity|].
  exact (proj1 (killed_account_cleared toy_hash code_hash0 no_loss alice owner owner_mapped owner_free owner_inv) addr alice_address).
Defined.
End KilledWitness.
