(* ===== verification/RuntimeConfig.v ===== *)
(** * The configuration of the runtime

    Models what [src/runtime/src/lib.rs] and [src/runtime/src/voter_bags.rs] say of this
    chain: the constants of the pallets, as values of the configuration records of
    the other files, the conversions handed to the pallets, the thresholds of the voter
    bags, the transactions an off-chain worker signs, and the tracks of referenda; and the
    integrity test of [src/modules/staking/src/pallet/mod.rs].

    The theorems show that these values meet the assumptions under which the pallets are
    correct.  What the constants of [frame_support] are is left open where they enter
    (the weight of a second and of a block's and an extrinsic's base). *)

From stdpp Require Import base gmap list strings.
From Stdlib Require Import ZArith Lia Sorted.
From S2P Require Import Prelude Interfaces Primitives EvmPallet Precompiles Tokens Poc Staking RewardCurve Authority TxPayment.

Local Open Scope Z_scope.

(** ** Staking *)
(** [NposSolution16::LIMIT], [MaxActiveValidators] and the constants of the pallet. *)
Definition MaxNominations_limit : Z := 16.
Definition MaxActiveValidators : Z := 1000.
Definition from_percent (n : Z) : Z := n * 10 ^ 7.
Definition runtime_staking : StakingConfig := {|
  MaxUnlockingChunks := 32;
  MaxNominations := MaxNominations_limit;
  HistoryDepth := 84;
  BondingDuration := 28;
  SlashDeferDuration := 27;
  MaxWinners := MaxActiveValidators;
  OffendingThreshold := from_percent 17;
  SessionsPerEra := 24;
  MaxNominatorRewardedPerValidator := 64;
|}.
(** [integrity_test] of the pallet: assertions. [max_votes] is the [MaxVotesPerVoter] of the
    data provider, [genesis_max_winners] the [MaxWinners] of the genesis elections. *)
Definition assert_that (b : bool) : res DispatchError unit := if b then Ok tt else Panic.
Definition staking_integrity_test (cfg : StakingConfig) (max_votes genesis_max_winners : Z) : res DispatchError unit :=
  let? _ := assert_that (MaxNominations cfg =? max_votes) in
  let? _ := assert_that (negb (MaxNominations cfg =? 0)) in
  let? _ := assert_that (MaxWinners cfg =? genesis_max_winners) in
  assert_that ((SlashDeferDuration cfg <? BondingDuration cfg) || (BondingDuration cfg =? 0)).
Definition ReportLongevity : Z := BondingDuration runtime_staking * SessionsPerEra runtime_staking * EPOCH_DURATION_IN_SLOTS.
Definition MaxSetIdSessionEntries : Z := BondingDuration runtime_staking * SessionsPerEra runtime_staking.

(** Priorities of unsigned transactions. *)
Definition ImOnlineUnsignedPriority : Z := U64_MAX.
Definition StakingUnsignedPriority : Z := U64_MAX / 2.
Definition MultiPhaseUnsignedPriority : Z := wrap_sub U64_MAX StakingUnsignedPriority 1.

(** [OffchainRandomBalancing::get]: the iterations; a seed is decoded as a [u32]. *)
Definition MINER_MAX_ITERATIONS : Z := 10.
Definition u32_le (seed : bytes) : Z :=
  let b n := nth n seed 0 in b 0%nat + 256 * b 1%nat + 65536 * b 2%nat + 16777216 * b 3%nat.
Definition balancing_iterations (seed : bytes) : Z :=
  if MINER_MAX_ITERATIONS =? 0 then 0 else u32_le seed mod sat_add U32_MAX MINER_MAX_ITERATIONS 1.

(** ** Voter bags *)
Definition EXISTENTIAL_WEIGHT : Z := 100000000000000.
Definition THRESHOLDS : list Z :=
  [100000000000000; 106282535907434; 112959774389150; 120056512776105; 127599106300477;
   135615565971369; 144135662599590; 153191037357827; 162815319286803; 173044250183800;
   183915817337347; 195470394601017; 207750892330229; 220802916738890; 234674939267673;
   249418476592914; 265088281944639; 281742548444211; 299443125216738; 318255747080822;
   338250278668647; 359500973883001; 382086751654776; 406091489025036; 431604332640068;
   458720029816222; 487539280404019; 518169110758247; 550723271202866; 585322658466782;
   622095764659305; 661179154452653; 702717972243610; 746866481177808; 793788636038393;
   843658692126636; 896661852395681; 952994955240703; 1012867205499736; 1076500951379881;
   1144132510194192; 1216013045975769; 1292409502228280; 1373605593276862; 1459902857901004;
   1551621779162291; 1649102974585730; 1752708461114642; 1862822999536805; 1979855523374646;
   2104240657545975; 2236440332435128; 2376945499368703; 2526277953866680; 2684992273439945;
   2853677877130641; 3032961214443876; 3223508091799862; 3426026145146232; 3641267467913124;
   3870031404070482; 4113167516660186; 4371578742827277; 4646224747067156; 4938125485141739;
   5248364991899922; 5578095407069235; 5928541253969291; 6301003987036955; 6696866825051405;
   7117599888008300; 7564765656719910; 8040024775416580; 8545142218898723; 9081993847142344;
   9652573371700016; 10258999759768490; 10903525103419522; 11588542983217942; 12316597357287042;
   13090392008832678; 13912800587211472; 14786877279832732; 15715868154526436; 16703223214499558;
   17752609210649358; 18867923258814856; 20053307312537008; 21313163545075252; 22652170697804756;
   24075301455707600; 25587840914485432; 27195406207875088; 28903967368057400; 30719869496628636;
   32649856328471220; 34701095276033064; 36881204047022752; 39198278934370992; 41660924883519016;
   44278287448695240; 47060086756856400; 50016653605425536; 53158967827883320; 56498699069691424;
   60048250125977912; 63820803001928304; 67830367866937216; 72091835084322176; 76621030509822880;
   81434774264248528; 86550943198537824; 91988537283208848; 97767750168749840; 103910044178992000;
   110438230015967792; 117376551472255616; 124750775465407920; 132588287728824640; 140918194514440064;
   149771430684917568; 159180874596775264; 169181470201085280; 179810356815193344; 191107007047393216;
   203113373386768288; 215874044002592672; 229436408331885600; 243850833070063392; 259170849218267264;
   275453350882006752; 292758806559399232; 311151483703668992; 330699687393865920; 351476014000157824;
   373557620785735808; 397026512446556096; 421969845653044224; 448480252724740928; 476656185639923904;
   506602281657757760; 538429751910786752; 572256794410890176; 608209033002485632; 646419983893124352;
   687031551494039552; 730194555412054016; 776069290549944960; 824826122395314176; 876646119708695936;
   931721726960522368; 990257479014182144; 1052470760709299712; 1118592614166106112;
   1188868596808997376; 1263559693295730432; 1342943284738898688; 1427314178819094784;
   1516985704615302400; 1612290876218400768; 1713583629449105408; 1821240136273157632;
   1935660201795120128; 2057268749018809600; 2186517396888336384; 2323886137470138880;
   2469885118504583168; 2625056537947004416; 2789976657533970944; 2965257942852572160;
   3151551337860326400; 3349548682302620672; 3559985281005267968; 3783642634583792128;
   4021351341710503936; 4273994183717548544; 4542509402991247872; 4827894187332742144;
   5131208373224844288; 5453578381757959168; 5796201401831965696; 6160349836169256960;
   6547376026650146816; 6958717276519173120; 7395901188113309696; 7860551335934872576;
   8354393296137270272; 8879261054815360000; 9437103818898946048; 10029993254943105024;
   10660131182698121216; 11329857752030707712; 12041660133563240448; 12798181755305525248;
   13602232119581272064; 14456797236706498560; 15365050714167523328; 16330365542480556032;
   17356326621502140416; 18446744073709551615].

(** ** Balances, fees and tokens *)
Definition NativeTokenExistentialDeposit : Z := 1.
Definition MaxNativeTokenExistentialDeposit : Z := 1000 * REEF_UNIT.
Definition BurnAccount : AccountId := replicate 32 0.
Definition get_all_module_accounts : list AccountId := [BurnAccount].
(** [ReserveIdentifier::Count as u32]. *)
Definition ReserveIdentifier_Count : nat := 4.
Definition runtime_tokens_config : TokensConfig AccountId CurrencyId :=
  mkTokensConfig AccountId CurrencyId (fun _ => 0) 50 ReserveIdentifier_Count (fun _ => false).

(** [BalanceToU256] and [U256ToBalance]. *)
Definition balance_to_u256 (balance : Z) : Z := balance.
Definition u256_to_balance (n : Z) : Z := if n <=? U128_MAX then n else U128_MAX.

(** A coefficient of [WeightToFeePolynomial], and [fee::WeightToFee::polynomial] for the
    base weight of an extrinsic; [perbill_from_rational] is [Perbill::from_rational]. *)
Record Coefficient : Type := mkCoefficient { degree : Z; negative : bool; coeff_frac : Z; coeff_integer : Z }.
Definition fee_polynomial (perbill_from_rational : Z -> Z -> Z) (base_weight : Z) : list Coefficient :=
  let p := MILLI_REEF in
  let q := base_weight in
  [mkCoefficient 1 false (perbill_from_rational (p mod q) q) (p / q)].

(** ** The EVM and the proof of commitment *)
Definition is_root {A} (o : Origin A) : bool := match o with Root => true | _ => false end.
Definition runtime_evm : EvmConfig := {|
  NewContractExtraBytes := 1000;
  StorageDepositPerByte := 10 * MILLI_REEF;
  MaxCodeSize := 60 * 1024;
  DeveloperDeposit := 1000 * REEF_UNIT;
  DeploymentFee := 100 * REEF_UNIT;
  NetworkContractSource := from_low_u64_be 0;
  with_ethereum_compatibility := false;
  NetworkContractOrigin := is_root;
  FreeDeploymentOrigin := is_root;
|}.
Definition runtime_poc : Poc.PocConfig := {|
  Poc.EraDuration := 7 * DAYS;
  Poc.NominatorAPY := from_percent 10;
  Poc.CouncilInflation := from_percent 1;
  Poc.CandidacyDeposit := 1000000 * REEF_UNIT;
  Poc.MinLockAmount := 100000 * REEF_UNIT;
  Poc.TotalLockedCap := 2000000000 * REEF_UNIT;
  Poc.MaxCandidates := 100;
  Poc.MaxMembers := 9;
|}.

(** ** Referenda *)
Record TrackInfo : Type := mkTrack {
  track_name : string; max_deciding : Z; decision_deposit : Z; prepare_period : Z; decision_period : Z;
  confirm_period : Z; min_enactment_period : Z; min_approval : Z * Z * Z; min_support : Z * Z * Z;
}.
(** A curve [LinearDecreasing] is its length, floor and ceiling. *)
Definition tracks : list (Z * TrackInfo) :=
  [(0, mkTrack "root" 1 10 4 4 2 4 (from_percent 100, from_percent 50, from_percent 100)
                                   (from_percent 100, from_percent 0, from_percent 100))].
Definition track_for {A} (id : Caller A) : option Z :=
  match id with
  | SystemOrigin system_origin => match system_origin with Root => Some 0 | _ => None end
  | _ => None
  end.

(** ** Transaction payment *)
Section payment.
Context `{FixedArith}.
(** [WEIGHT_REF_TIME_PER_SECOND], [ExtrinsicBaseWeight], the [max_block] that the builder
    of [BlockWeights] computes, and [Perbill *]. *)
Variables weight_per_second base_weight max_block_weight : Z.
Variable perbill_mul : Z -> Z -> Z.

Definition NORMAL_DISPATCH_RATIO : Z := from_percent 75.
Definition MAXIMUM_BLOCK_WEIGHT : Z := sat_mul U64_MAX weight_per_second 2.
Definition runtime_payment : PaymentConfig := {|
  max_block := max_block_weight;
  normal_max_total := Some (perbill_mul NORMAL_DISPATCH_RATIO MAXIMUM_BLOCK_WEIGHT);
  base_extrinsic := fun _ => base_weight;
  max_length_normal := perbill_mul NORMAL_DISPATCH_RATIO (5 * 1024 * 1024);
  TransactionByteFee := 10 * MILLI_REEF;
  AllNonNativeCurrencyIds := [];
  NativeCurrencyId := Token REEF;
  TargetBlockFullness := 25 * 10 ^ 16;
  AdjustmentVariable := fx_from_rational 1 100000;
  MinimumMultiplier := fx_from_rational 1 1000000000;
|}.

(** [EvmAccountsOnClaimHandler::handle]: what [ensure_can_charge_fee] finds out is dropped. *)
Definition on_claim_handle {X A} `{Countable A} `{FeeCurrency X A} (providers : TxPayment X A -> A -> Z) (who : A)
  : M (TxPayment X A) DispatchError unit :=
  fun s =>
    let _ := if providers s who =? 0
             then ensure_can_charge_fee runtime_payment s who NativeTokenExistentialDeposit false else true in
    (s, Ok tt).

Context `{!FixedLaws}.
Hypothesis perbill_mul_rounds : forall p n, 0 <= p <= 10 ^ 9 -> 0 <= n ->
  0 <= perbill_mul p n <= n /\ rounds (perbill_mul p n) (p * n) (10 ^ 9).

Lemma from_rational_exact n d : 0 <= n -> 0 < d -> n * DIV <= U128_MAX * d ->
  forall r, n * DIV = r * d -> fx_from_rational n d = r.
Proof.
  intros Hn Hd Hu r Hr. destruct (fx_from_rational_rounds n d Hn Hd Hu) as [_ Hround].
  unfold rounds in Hround. rewrite Hr in Hround. assert (fx_from_rational n d - r < 1 /\ -1 < fx_from_rational n d - r) by nia. lia.
Qed.
Lemma payment_rates : 1000 <= weight_per_second <= U64_MAX ->
  runtime_rates runtime_payment (perbill_mul NORMAL_DISPATCH_RATIO MAXIMUM_BLOCK_WEIGHT).
Proof using Type*.
  intros Hw. split; cbn [AdjustmentVariable MinimumMultiplier TargetBlockFullness normal_max_total runtime_payment].
  - apply from_rational_exact; unfold DIV, U128_MAX; lia.
  - apply from_rational_exact; unfold DIV, U128_MAX; lia.
  - done.
  - done.
  - assert (2000 <= MAXIMUM_BLOCK_WEIGHT <= U64_MAX) as Hm
      by (unfold MAXIMUM_BLOCK_WEIGHT, sat_mul, U64_MAX in *; lia).
    destruct (perbill_mul_rounds NORMAL_DISPATCH_RATIO MAXIMUM_BLOCK_WEIGHT) as [Hb Hr];
      [unfold NORMAL_DISPATCH_RATIO, from_percent; lia|lia|].
    unfold rounds, NORMAL_DISPATCH_RATIO, from_percent in *. lia.
Qed.
End payment.

(** ** Signing off-chain *)
Section signing.
Context {C Public Signature Address Era : Type}.
(** [Era::mortal]; [SignedPayload::new], which can fail, and the encoding of a payload;
    [AppCrypto::sign]; [Indices::unlookup]. *)
Variable era_mortal : Z -> Z -> Era.
Record Extra : Type := mkExtra { check_era : Era; check_nonce : Z; tip : Z }.
Variable signed_payload : C -> Extra -> option bytes.
Variable sign : bytes -> Public -> option Signature.
Variable indices_unlookup : AccountId -> Address.

Definition BlockHashCount : Z := 2400.
Definition checked_next_power_of_two (mx n : Z) : option Z :=
  let p := 2 ^ Z.log2_up n in if p <=? mx then Some p else None.
Definition tx_period : Z :=
  match checked_next_power_of_two U32_MAX BlockHashCount with Some c => c / 2 | None => 2 end.
Definition tx_extra (block_number nonce : Z) : Extra :=
  let current_block := sat_sub (Z.min block_number U64_MAX) 1 in
  mkExtra (era_mortal tx_period current_block) nonce 0.
Definition create_transaction (block_number : Z) (call : C) (public : Public) (account : AccountId) (nonce : Z)
  : option (C * (Address * Signature * Extra)) :=
  let extra := tx_extra block_number nonce in
  raw_payload ← signed_payload call extra;
  signature ← sign raw_payload public;
  Some (call, (indices_unlookup account, signature, extra)).

(** The period is the largest power of two for which the chain keeps block hashes. *)
Lemma tx_period_largest : exists k, tx_period = 2 ^ k /\ tx_period <= BlockHashCount < 2 * tx_period.
Proof using Type. exists 11. vm_compute. done. Qed.
(** A transaction is made exactly if the payload can be made and signed, and what is signed
    is the call with the extra data that goes with it. *)
Lemma create_transaction_spec n call public account nonce call' address signature extra :
  create_transaction n call public account nonce = Some (call', (address, signature, extra)) <->
  call' = call /\ address = indices_unlookup account /\ extra = tx_extra n nonce /\ tip extra = 0 /\
  exists payload, signed_payload call' extra = Some payload /\ sign payload public = Some signature.
Proof using Type.
  unfold create_transaction. destruct (signed_payload call _) as [p|] eqn:E; cbn; [|naive_solver].
  destruct (sign p public) as [sg|] eqn:Es; cbn; naive_solver.
Qed.
End signing.

(** ** Theorems *)
(** *** Voter bags *)
Fixpoint increasing (l : list Z) : bool :=
  match l with
  | x :: (y :: _) as l' => (x <? y) && increasing l'
  | _ => true
  end.
Lemma increasing_sorted l : increasing l = true -> StronglySorted Z.lt l.
Proof.
  intros Hl. apply Sorted_StronglySorted; [intros x y z; lia|].
  induction l as [|x [|y l] IH]; [constructor|by repeat constructor|].
  cbn [increasing] in Hl. apply andb_prop in Hl as [Hx Hl]. constructor; [by apply IH|]. constructor. lia.
Qed.
(** [CONSTANT_RATIO], times [10^16]. *)
Definition RATIO_16 : Z := 10628253590743408.
Fixpoint ratios_hold (l : list Z) : bool :=
  match l with
  | x :: (y :: _) as l' => (Z.abs (y * 10 ^ 16 - x * RATIO_16) <=? 100 * x) && ratios_hold l'
  | _ => true
  end.
Lemma ratios_hold_at l : ratios_hold l = true -> forall i x y, l !! i = Some x -> l !! S i = Some y ->
  Z.abs (y * 10 ^ 16 - x * RATIO_16) <= 100 * x.
Proof.
  induction l as [|x0 [|y0 l] IH]; intros Hl i x y Hx Hy; [done|by destruct i|].
  cbn [ratios_hold] in Hl. apply andb_prop in Hl as [H0 Hl].
  destruct i as [|i]; cbn [lookup list_lookup] in Hx, Hy; [|by eapply IH].
  simplify_eq. by apply Z.leb_le.
Qed.

(** The bags divide all vote weights.  There are two hundred thresholds, strictly
    increasing from the existential weight to the greatest 64-bit number, so that every
    vote weight has a bag (the least threshold that is not below it) and no bag is empty by
    construction; and each is the previous one times the constant ratio, to fourteen
    digits. *)
Theorem thresholds_divide_weights :
  length THRESHOLDS = 200%nat /\ StronglySorted Z.lt THRESHOLDS /\
  head THRESHOLDS = Some EXISTENTIAL_WEIGHT /\ last THRESHOLDS = Some U64_MAX /\
  (forall i x y, THRESHOLDS !! i = Some x -> THRESHOLDS !! S i = Some y ->
     Z.abs (y * 10 ^ 16 - x * RATIO_16) <= 100 * x) /\
  (forall w, in_u U64_MAX w -> exists t, t ∈ THRESHOLDS /\ w <= t /\ forall u, u ∈ THRESHOLDS -> w <= u -> t <= u).
Proof.
  assert (StronglySorted Z.lt THRESHOLDS) as Hs by (apply increasing_sorted; vm_compute; reflexivity).
  split_and!; [done|done|done|vm_compute; reflexivity|apply ratios_hold_at; vm_compute; reflexivity|].
  intros w Hw. assert (U64_MAX ∈ THRESHOLDS) as Hin by (apply last_Some_elem_of; vm_compute; reflexivity).
  revert Hs Hin. generalize THRESHOLDS. intros l Hs Hin. induction Hs as [|x l Hs IH Hx]; [by apply elem_of_nil in Hin|].
  destruct (Z.le_gt_cases w x) as [Hle|Hgt].
  - exists x. split_and!; [by left|done|]. intros u [->|Hu]%elem_of_cons _; [lia|]. rewrite Forall_forall in Hx.
    apply Hx in Hu. lia.
  - apply elem_of_cons in Hin as [<-|Hin]; [unfold in_u in Hw; lia|]. destruct (IH Hin) as (t & Ht & Hwt & Hmin).
    exists t. split_and!; [by right|done|]. intros u [->|Hu]%elem_of_cons Hwu; [lia|by apply Hmin].
Qed.

(** *** Fees and conversions *)
Section fees.
Variable perbill_from_rational : Z -> Z -> Z.
Hypothesis perbill_rounds : forall p q, 0 <= p <= q -> 0 < q ->
  0 <= perbill_from_rational p q <= 10 ^ 9 /\ rounds (perbill_from_rational p q) (p * 10 ^ 9) q.
(** [WeightToFeePolynomial::weight_to_fee] of a polynomial with one linear term. *)
Variable weight_to_fee : list Coefficient -> Z -> Z.
Hypothesis weight_to_fee_linear : forall f i w, 0 <= f <= 10 ^ 9 -> 0 <= i -> 0 <= w -> i * w + w <= U128_MAX ->
  exists m, weight_to_fee [mkCoefficient 1 false f i] w = i * w + m /\ rounds m (f * w) (10 ^ 9).

(** The base weight of an extrinsic costs a thousandth of a REEF, up to one unit of
    rounding, whatever that weight is below a thousandth of a second. *)
Theorem base_weight_costs base_weight : 0 < base_weight <= 10 ^ 9 ->
  Z.abs (weight_to_fee (fee_polynomial perbill_from_rational base_weight) base_weight - MILLI_REEF) <= 1.
Proof.
  intros Hq. set (q := base_weight) in *. unfold fee_polynomial. set (p := MILLI_REEF).
  assert (p = 10 ^ 15) as Hp by reflexivity.
  pose proof (Z.div_mod p q ltac:(lia)) as Hdm. pose proof (Z.mod_pos_bound p q ltac:(lia)) as Hmod.
  assert (0 <= p / q) by (apply Z.div_pos; lia).
  destruct (perbill_rounds (p mod q) q) as [Hf Hr]; [lia|lia|]. set (f := perbill_from_rational _ _) in *.
  assert (p / q * q + q <= U128_MAX) by (unfold U128_MAX; lia).
  destruct (weight_to_fee_linear f (p / q) q) as (m & -> & Hm); [lia..|]. unfold rounds in *. lia.
Qed.
End fees.

(** Balances survive the conversion to 256 bits and back; larger numbers saturate. *)
Theorem balance_u256_round_trip n :
  (in_u U128_MAX n -> u256_to_balance (balance_to_u256 n) = n) /\ (0 <= n -> in_u U128_MAX (u256_to_balance n)) /\
  (U128_MAX < n -> u256_to_balance n = U128_MAX).
Proof. unfold u256_to_balance, balance_to_u256, in_u. destruct (Z.leb_spec n U128_MAX); unfold U128_MAX in *; lia. Qed.

(** Gas is charged exactly until it saturates. *)
Lemma gas_to_weight_mono g g' : 0 <= g <= g' -> 0 <= GasToWeight g <= GasToWeight g' /\ GasToWeight g' <= U64_MAX.
Proof. unfold GasToWeight, sat_mul, RATIO, U64_MAX. lia. Qed.

Lemma iterations_bounded seed : is_bytes seed -> 0 <= balancing_iterations seed <= MINER_MAX_ITERATIONS.
Proof.
  intros _. unfold balancing_iterations. cbn [MINER_MAX_ITERATIONS Z.eqb].
  change (sat_add U32_MAX MINER_MAX_ITERATIONS 1) with 11. pose proof (Z.mod_pos_bound (u32_le seed) 11). unfold MINER_MAX_ITERATIONS. lia.
Qed.

(** A referendum has a track exactly if its origin is root, and the track exists. *)
Lemma track_for_root {A} (o : Caller A) id :
  track_for o = Some id -> o = SystemOrigin Root /\ id ∈ tracks.*1.
Proof. destruct o as [[| |]| |]; try done. intros [= <-]. split; [done|]. cbn. set_solver. Qed.

(** *** The parameters *)
(** The parameters of the chain meet what the pallets assume.  The integrity test of
    staking passes; deferred slashes are applied while the stake is still bonded, and rewards
    and slashes can be reported for the whole bonding time; an era has more than one session,
    and the history fits its counter; the fee multiplier has the rates under which it
    adapts, whatever the weight of a second is; the proof of commitment can count its
    commitments without overflow and seats no more members than there can be candidates; a
    new contract reserves at least ten REEF; the reward curve of the macro is valid; and
    heartbeats go before election solutions. *)
Theorem parameters_meet_assumptions `{FixedLaws} weight_per_second base_weight max_block_weight perbill_mul :
  1000 <= weight_per_second <= U64_MAX ->
  (forall p n, 0 <= p <= 10 ^ 9 -> 0 <= n -> 0 <= perbill_mul p n <= n /\ rounds (perbill_mul p n) (p * n) (10 ^ 9)) ->
  let cfg := runtime_staking in
  staking_integrity_test cfg MaxNominations_limit MaxActiveValidators = Ok tt /\
  0 <= MaxUnlockingChunks cfg /\ 1 < SessionsPerEra cfg /\ SlashDeferDuration cfg < BondingDuration cfg < HistoryDepth cfg /\
  0 <= HistoryDepth cfg < U32_MAX /\ MaxSetIdSessionEntries * EPOCH_DURATION_IN_SLOTS = ReportLongevity /\
  runtime_rates (runtime_payment weight_per_second base_weight max_block_weight perbill_mul)
    (perbill_mul NORMAL_DISPATCH_RATIO (MAXIMUM_BLOCK_WEIGHT weight_per_second)) /\
  Poc.config_ok runtime_poc /\ Poc.MaxMembers runtime_poc <= Poc.MaxCandidates runtime_poc /\
  Poc.MinLockAmount runtime_poc < Poc.TotalLockedCap runtime_poc /\
  NewContractExtraBytes runtime_evm * StorageDepositPerByte runtime_evm = 10 * REEF_UNIT /\
  parse_input REWARD_CURVE = true /\ max_length_of REWARD_CURVE <= min_inflation REWARD_CURVE /\
  MultiPhaseUnsignedPriority < StakingUnsignedPriority < ImOnlineUnsignedPriority.
Proof.
  intros Hw Hp. cbv zeta. destruct CurveWitness.reef_valid as [Hv Hl].
  split; [reflexivity|]. do 5 (split; [cbn; unfold U32_MAX; try lia; reflexivity|]). split; [by apply payment_rates|].
  split; [unfold Poc.config_ok; vm_compute; split_and!; discriminate|].
  split; [cbn; lia|]. split; [vm_compute; reflexivity|]. split; [vm_compute; reflexivity|].
  rewrite Hl. split_and!; [exact Hv|cbn; lia|vm_compute; reflexivity..].
Qed.

(** ** Witness *)
Module ConfigWitness.
Import TxWitness.
Definition perbill0 (p n : Z) : Z := p * n / 10 ^ 9.
Lemma perbill0_rounds p n : 0 <= p <= 10 ^ 9 -> 0 <= n ->
  0 <= perbill0 p n <= n /\ rounds (perbill0 p n) (p * n) (10 ^ 9).
Proof.
  intros Hp Hn. unfold perbill0, rounds. pose proof (Z.div_mod (p * n) (10 ^ 9) ltac:(lia)) as Hd.
  pose proof (Z.mod_pos_bound (p * n) (10 ^ 9) ltac:(lia)). assert (0 <= p * n <= 10 ^ 9 * n) by nia. lia.
Qed.
Lemma one_second : 1000 <= 10 ^ 12 <= U64_MAX.
Proof. unfold U64_MAX. lia. Qed.
Lemma parameters_meet_assumptions_witness :
  staking_integrity_test runtime_staking 16 1000 = Ok tt /\
  runtime_rates (runtime_payment (10 ^ 12) 125000000 (2 * 10 ^ 12) perbill0)
    (perbill0 NORMAL_DISPATCH_RATIO (MAXIMUM_BLOCK_WEIGHT (10 ^ 12))).
Proof.
  destruct (parameters_meet_assumptions (10 ^ 12) 125000000 (2 * 10 ^ 12) perbill0 one_second perbill0_rounds)
    as (Hs & _ & _ & _ & _ & _ & Hr & _).
  split; [exact Hs|exact Hr].
Defined.
End ConfigWitness.
