(* ===== verification/Genesis.v ===== *)
(** * Chain specifications

    Models the genesis of [src/node/src/chain_spec.rs]: the balances, which are added up in
    a map, the configuration of staking, sessions and tokens for a test network and for the
    main network, with the accounts of both, and the contracts that are deployed from the
    start ([evm_genesis]).  The theorems say what balances come out of the specification,
    and that a chain starts from it: the genesis of staking (modelled in [StakingChecks])
    builds, with every authority a bonded validator.

    A 32-byte account or key is the number its bytes are in big-endian order, which is also
    the order of the map.  The parsing of the file with the contracts is a parameter; the
    names, boot nodes and telemetry endpoints of a specification are left out. *)

From stdpp Require Import base gmap list strings sorting.
From Stdlib Require Import ZArith Lia Sorted.
From S2P Require Import Prelude Interfaces Primitives EvmPallet Staking StakingLedger StakingBonds StakingRoles StakingChecks RuntimeConfig.

Local Open Scope Z_scope.

(** ** Authorities *)
Record AuthorityKeys : Type := mkAuthorityKeys {
  key_stash : Z; key_controller : Z; key_grandpa : Z; key_babe : Z; key_im_online : Z; key_discovery : Z;
}.
Record SessionKeys : Type := mkSessionKeys { sk_babe : Z; sk_grandpa : Z; sk_im_online : Z; sk_authority_discovery : Z }.
Definition get_session_keys (grandpa babe im_online authority_discovery : Z) : SessionKeys :=
  mkSessionKeys babe grandpa im_online authority_discovery.
(** [get_authority_keys_from_seed]; [from_seed] derives the key of a scheme from a seed. *)
Inductive Scheme : Type := Sr25519 | GrandpaId | BabeId | ImOnlineId | AuthorityDiscoveryId.
Definition get_authority_keys_from_seed (from_seed : Scheme -> string -> Z) (seed : string) : AuthorityKeys :=
  mkAuthorityKeys (from_seed Sr25519 (seed +:+ "//stash")) (from_seed Sr25519 seed) (from_seed GrandpaId seed)
    (from_seed BabeId seed) (from_seed ImOnlineId seed) (from_seed AuthorityDiscoveryId seed).

(** ** Balances *)
(** A [BTreeMap] is iterated in the order of its keys. *)
Definition btree_iter {K V} `{Countable K} (key : K -> Z) (m : gmap K V) : list (K * V) :=
  sort_by (fun x y => key x.1 <=? key y.1) (map_to_list m).
(** The function that is folded over the endowments. *)
Definition add_endowment (acc : gmap Z Z) (e : Z * Z) : res DispatchError (gmap Z Z) :=
  match acc !! e.1 with
  | Some balance => let? total := expect (checked_add U128_MAX balance e.2) in Ok (<[e.1 := total]> acc)
  | None => Ok (<[e.1 := e.2]> acc)
  end.
Fixpoint add_endowments (acc : gmap Z Z) (l : list (Z * Z)) : res DispatchError (gmap Z Z) :=
  match l with
  | [] => Ok acc
  | e :: l' => let? acc := add_endowment acc e in add_endowments acc l'
  end.
Definition collect_balances (l : list (Z * Z)) : res DispatchError (list (Z * Z)) :=
  let? m := add_endowments ∅ l in Ok (btree_iter id m).

Definition INITIAL_BALANCE : Z := 100000000 * REEF_UNIT.
Definition INITIAL_STAKING : Z := 1000000 * REEF_UNIT.
Definition module_endowments : list (Z * Z) :=
  (fun x => (be_val x, MaxNativeTokenExistentialDeposit)) <$> get_all_module_accounts.
Definition testnet_endowments (authorities : list AuthorityKeys) (endowed : list Z) : list (Z * Z) :=
  ((fun x => (key_stash x, INITIAL_STAKING)) <$> authorities) ++ ((fun k => (k, INITIAL_BALANCE)) <$> endowed)
  ++ module_endowments.
(** The endowments of the main network are in whole REEF; their product wraps around. *)
Definition mainnet_endowments (authorities : list AuthorityKeys) (endowed : list (Z * Z)) : list (Z * Z) :=
  ((fun x => (key_stash x, INITIAL_STAKING * 2)) <$> authorities)
  ++ ((fun x => (x.1, wrap_mul U128_MAX x.2 REEF_UNIT)) <$> endowed) ++ module_endowments.

(** ** Contracts from the start *)
(** [serde_json::from_slice], [from_hex] and [Bytes::from_str] are parameters;
    [H160::from_slice] panics unless there are twenty bytes. *)
Section evm.
Variables (from_hex bytes_from_str : string -> option bytes).
Definition H160_from_slice (l : bytes) : res DispatchError H160 := if (length l =? 20)%nat then Ok l else Panic.
Fixpoint evm_accounts (acc : gmap H160 GenesisAccount) (contracts : list (string * string * string))
  : res DispatchError (gmap H160 GenesisAccount) :=
  match contracts with
  | [] => Ok acc
  | (_, address, code_string) :: contracts' =>
      let? code := expect (bytes_from_str code_string) in
      let account := mkGenesis 0 MaxNativeTokenExistentialDeposit [] code in
      let? slice := expect (from_hex address) in
      let? addr := H160_from_slice slice in
      evm_accounts (<[addr := account]> acc) contracts'
  end.
Definition evm_genesis (contracts : option (list (string * string * string))) : res DispatchError (list (H160 * GenesisAccount)) :=
  let? contracts := expect contracts in
  let? accounts := evm_accounts ∅ contracts in
  Ok (btree_iter be_val accounts).
End evm.

(** ** The specifications *)
(** What a specification sets; the other parts have their defaults. *)
Record ChainGenesis : Type := mkChainGenesis {
  gc_code : bytes;
  gc_balances : list (Z * Z);
  gc_session : list (Z * Z * SessionKeys);
  gc_staking : GenesisConfig (A := Z);
  gc_controllers : list Z;
  gc_epoch : Z * Z;
  gc_tokens : list (Z * CurrencyId * Z);
  gc_evm : list (H160 * GenesisAccount);
  gc_sudo : option Z;
}.
(** [BABE_GENESIS_EPOCH_CONFIG.c]. *)
Definition PRIMARY_PROBABILITY : Z * Z := (1, 4).
Definition session_keys_of (x : AuthorityKeys) : Z * Z * SessionKeys :=
  (key_stash x, key_stash x, get_session_keys (key_grandpa x) (key_babe x) (key_im_online x) (key_discovery x)).
(** [StakingConfig] with [count] validators wanted. *)
Definition staking_genesis (count : Z) (authorities : list AuthorityKeys) : GenesisConfig (A := Z) :=
  mkGenesisConfig count (wrap U32_MAX (Z.of_nat (length authorities))) (key_stash <$> authorities) NotForcing
    (from_percent 10) ((fun x => (key_stash x, INITIAL_STAKING, StakerValidator)) <$> authorities) 0 0 None None.
Definition testnet_genesis (evm : list (H160 * GenesisAccount)) (wasm_binary : bytes) (authorities : list AuthorityKeys)
    (root_key : Z) (endowed : list Z) : res DispatchError ChainGenesis :=
  let? balances := collect_balances (testnet_endowments authorities endowed) in
  Ok (mkChainGenesis wasm_binary balances (session_keys_of <$> authorities)
    (staking_genesis (wrap U32_MAX (Z.of_nat (length authorities))) authorities) (key_controller <$> authorities)
    PRIMARY_PROBABILITY ((fun x => (x, Token RUSD, INITIAL_BALANCE)) <$> endowed) evm (Some root_key)).
Definition mainnet_genesis (evm : list (H160 * GenesisAccount)) (wasm_binary : bytes) (authorities : list AuthorityKeys)
    (root_key : Z) (endowed : list (Z * Z)) : res DispatchError ChainGenesis :=
  let? balances := collect_balances (mainnet_endowments authorities endowed) in
  Ok (mkChainGenesis wasm_binary balances (session_keys_of <$> authorities)
    (staking_genesis (wrap_mul U32_MAX (wrap U32_MAX (Z.of_nat (length authorities))) 2) authorities) (key_controller <$> authorities)
    PRIMARY_PROBABILITY [] evm (Some root_key)).

(** *** Development networks; [account] derives the account of a seed. *)
Definition development_genesis (from_seed : Scheme -> string -> Z) (evm : list (H160 * GenesisAccount)) (wasm_binary : bytes) :=
  let account := from_seed Sr25519 in
  testnet_genesis evm wasm_binary [get_authority_keys_from_seed from_seed "Alice"] (account "Alice"%string)
    (account <$> ["Alice"; "Bob"; "Alice//stash"; "Bob//stash"]%string).
Definition local_testnet_genesis (from_seed : Scheme -> string -> Z) (evm : list (H160 * GenesisAccount)) (wasm_binary : bytes) :=
  let account := from_seed Sr25519 in
  testnet_genesis evm wasm_binary (get_authority_keys_from_seed from_seed <$> ["Alice"; "Bob"]%string) (account "Alice"%string)
    (account <$> ["Alice"; "Bob"; "Charlie"; "Dave"; "Eve"; "Ferdie"; "Alice//stash"; "Bob//stash"; "Charlie//stash";
                  "Dave//stash"; "Eve//stash"; "Ferdie//stash"]%string).

(** *** The public networks *)
Definition public_testnet_authorities : list AuthorityKeys :=
  [mkAuthorityKeys
     0xb2902b07056f7365bc22bf7e69c4e4fdba03e6af9c73ca6eb1703ccbc0248857
     0xcc2ea454844cc1a2e821198d9e0ce1de1aee7d014af5dd3404fc8199df89f821
     0x607712f6581e191b69046427a7e33c4713e96b4ae4654e2467c74279dc20beb2
     0xba630d2df03743a6441ab9221a25fc00a62e6f3b56c6920634eebb72a15fc90f
     0x72c0d10c9cd6e44ccf5e7acf0bb1b7c4d6987dda55a36343f3d45b54ad8bfe32
     0xf287831caa53bc1dce6f0d676ab43d248921a4c34535be8f7d7d153eda29dc3f;
   mkAuthorityKeys
     0x06ee8fc0e34e40f6f2c98328d70874c6dd7d7989159634c8c87301efbcbe4470
     0x9cf9f939c16ef458e677472ff113af53e7fb9139244fcfa6fccb765aa8831019
     0xdb6d2cb33abebdc024a14ef7bfbc68823660be8d1acac66770e406e484de3184
     0xd09f879b3273d2cedab83fa741cdac328679c98914dc8dc07e359e19f0379844
     0x8c38deff9ab24a8c49e2b4fbdc963af7cbf06f99d6aabfaa6e50bfe6ae0d071d
     0xdcc1644697e98d4171a29074a4bfaeb49b39b6ea91a8ec5e049d23ea3c4a4134;
   mkAuthorityKeys
     0x48267bffea5e524f1c0e06cce77f0ef920be7ed9a7dd47705e181edad64f532a
     0x38594d7640612c49337f3a0bc7b39232b86f9c9c4fedec3f8b00e45d3f073a2d
     0xc8996b17688cab9bcda8dafb4dde9bab4d9b1dc81c71419fca46fedcba74a14e
     0x568c17ce5ef308bd9544e7b16f34089a2c2329193f31577a830ffe8a023a6874
     0x66db4135f59db92ce98cdd6c29befaf21a93f1a9059adc2326c7d371a214f97d
     0x00858734321b53f0987a45906cbb91fe7ce1588fce03758c7c07f09022372c30].
Definition public_testnet_sudo : Z := 0x0c994e7589709a85128a6695254af16227f7873816ae0269aa705861c315ba1e.
Definition public_testnet_endowed : list Z :=
  [0x0c994e7589709a85128a6695254af16227f7873816ae0269aa705861c315ba1e;
   0x9e42365c1a43fe7bd886118f49a2247aabda7079c3e4c5288f41afadd7bb1963;
   0x6c1371ce4b06b8d191d6f552d716c00da31aca08a291ccbdeaf0f7aeae51201b].
Definition mainnet_authorities : list AuthorityKeys :=
  [mkAuthorityKeys
     0x6c08c1f8e0cf1e200b24b43fca4c4e407b963b6b1e459d1aeff80c566a1da469
     0x864eff3160ff8609c030316867630850a9d6e35c47d3efe54de44264fef7665e
     0xdc41d9325da71d90806d727b826d125cd523da28eb39ab048ab983d7bb74fb32
     0x8a688a748fd39bedaa507c942600c40478c2082dee17b8263613fc3c086b0c53
     0x3a4e80c48718f72326b49c4ae80199d35285643751e75a743f30b7561b538676
     0x68d39d0d386ed4e9dd7e280d62e7dc9cf61dc508ef25efb74b6d740fa4dde463;
   mkAuthorityKeys
     0x5c22097b5c8b5912ce28b72ba4de52c3da8aca9379c748c1356a6642107d4c4a
     0x543fd4fd9a284c0f955bb083ae6e0fe7a584eb6f6e72b386071a250b94f99a59
     0xf15a651be0ea0afcfe691a118ee7acfa114d11a27cf10991ee91ea97942d2135
     0x70e74bed02b733e47bc044da80418fd287bb2b7a0c032bd211d7956c68c9561b
     0x724cefffeaa10a44935a973511b9427a8c3c4fb08582afc4af8bf110fe4aac4b
     0xa068435c438ddc61b1b656e3f61c876e109706383cf4e27309cc1e308f88b86f;
   mkAuthorityKeys
     0xa67f388c1b8d68287fb3288b5aa36f069875c15ebcb9b1e4e62678aad6b24b44
     0xec912201d98911842b1a8e82983f71f2116dd8b898798ece4e1d210590de7d60
     0x347f5342875b9847ec089ca723c1c09cc532e53dca4b940a6138040025d94eb9
     0x64841d2d124e1b1dd5485a58908ab244b296b184ae645a0c103adcbcc565f070
     0x50a3452ca93800a8b660d624521c240e5cb20a47a33d23174bb7681811950646
     0x7a0caeb50fbcd657b8388adfaeca41a2ae3e85b8916a2ce92761ce1a4db89035].
Definition mainnet_sudo : Z := 0x9c48c0498bdf1d716f4544fc21f050963409f2db8154ba21e5233001202cbf08.
Definition mainnet_endowed : list (Z * Z) :=
  [(0x3c483acc759b79f8b12fa177e4bdfa0448a6ea03c389cf4db2b4325f0fc8f84a, 4340893656);
   (0x5adebb35eb317412b58672db0434e4b112fcd27abaf28039f07c0db155b26650, 2000000000);
   (0x746db342d3981b230804d1a187245e565f8eb3a2897f83d0d841cc52282e324c, 500000000);
   (0xda512d1335a62ad6f79baecfe87578c5d829113dc85dbb984d90a83f50680145, 500000000);
   (0xb493eacad9ca9d7d8dc21b940966b4db65dfbe01084f73c1eee2793b1b0a1504, 500000000);
   (0x849cf6f8a093c28fd0f699b47383767b0618f06aad9df61c4a9aff4af5809841, 250000000);
   (0x863bd6a38c7beb526be033068ac625536cd5d8a83cd51c1577a1779fab41655c, 250000000);
   (0xc2d2d7784e9272ef1785f92630dbce167a280149b22f2ae3b0262435e478884d, 250000000);
   (0x9c48c0498bdf1d716f4544fc21f050963409f2db8154ba21e5233001202cbf08, 100000000);
   (0x1acc4a5c6361770eac4da9be1c37ac37ea91a55f57121c03240ceabf0b7c1c5e, 10000000)].
Definition public_testnet_genesis (evm : list (H160 * GenesisAccount)) (wasm_binary : bytes) :=
  testnet_genesis evm wasm_binary public_testnet_authorities public_testnet_sudo public_testnet_endowed.
Definition mainnet_chain_genesis (evm : list (H160 * GenesisAccount)) (wasm_binary : bytes) :=
  mainnet_genesis evm wasm_binary mainnet_authorities mainnet_sudo mainnet_endowed.

(** ** Balances add up *)
Definition endowments_of (a : Z) (l : list (Z * Z)) : list (Z * Z) := filter (fun e => e.1 = a) l.
Definition sum_list (l : list (Z * Z)) : Z := foldr (fun e t => e.2 + t) 0 l.
Definition endowed_with (a : Z) (l : list (Z * Z)) : Z := sum_list (endowments_of a l).
Definition held (m : gmap Z Z) (a : Z) : Z := default 0 (m !! a).
Definition amounts_fit (l : list (Z * Z)) : Prop := Forall (fun e => in_u U128_MAX e.2) l.

Lemma endowed_cons a e l : endowed_with a (e :: l) = (if decide (e.1 = a) then e.2 else 0) + endowed_with a l.
Proof. unfold endowed_with, endowments_of. rewrite filter_cons. by destruct (decide (e.1 = a)). Qed.
Lemma endowed_app a l k : endowed_with a (l ++ k) = endowed_with a l + endowed_with a k.
Proof. induction l as [|e l IH]; [done|]. cbn [app]. rewrite !endowed_cons, IH. lia. Qed.
Lemma endowed_nonneg a l : amounts_fit l -> 0 <= endowed_with a l.
Proof.
  induction 1 as [|e l He _ IH]; [done|]. rewrite endowed_cons. unfold in_u in He. destruct (decide (e.1 = a)); lia.
Qed.
Lemma endowed_absent a l : a ∉ l.*1 -> endowed_with a l = 0.
Proof.
  induction l as [|e l IH]; [done|]. rewrite fmap_cons, not_elem_of_cons. intros [Hne Hn].
  rewrite endowed_cons, IH by done. by rewrite decide_False by congruence.
Qed.
Lemma held_insert m k v a : held (<[k := v]> m) a = if decide (k = a) then v else held m a.
Proof. unfold held. rewrite lookup_insert. by case_decide. Qed.

Lemma add_endowment_spec acc e : (forall a, in_u U128_MAX (held acc a)) -> in_u U128_MAX e.2 ->
  if held acc e.1 + e.2 <=? U128_MAX
  then add_endowment acc e = Ok (<[e.1 := held acc e.1 + e.2]> acc) else add_endowment acc e = Panic.
Proof.
  intros Ha He. unfold add_endowment, held in *. specialize (Ha e.1). unfold in_u in *.
  destruct (acc !! e.1) as [b|]; cbn [from_option id] in Ha |- *.
  - unfold checked_add. by destruct (Z.leb_spec (b + e.2) U128_MAX).
  - rewrite Z.add_0_l. by rewrite (proj2 (Z.leb_le e.2 U128_MAX)) by lia.
Qed.
Lemma add_endowments_spec l : forall acc, (forall a, in_u U128_MAX (held acc a)) -> amounts_fit l ->
  match add_endowments acc l with
  | Ok m => (forall a, held m a = held acc a + endowed_with a l /\ held m a <= U128_MAX) /\
            dom m = dom acc ∪ list_to_set l.*1
  | Err _ => False
  | Panic => exists a, U128_MAX < held acc a + endowed_with a l
  end.
Proof.
  induction l as [|e l IH]; intros acc Ha Hl; cbn [add_endowments].
  { split; [|set_solver]. intros a. specialize (Ha a). unfold in_u, endowed_with in *. cbn. lia. }
  apply Forall_cons in Hl as [He Hl]. pose proof (add_endowment_spec acc e Ha He) as Hs.
  destruct (Z.leb_spec (held acc e.1 + e.2) U128_MAX) as [Hle|Hgt]; rewrite Hs; cbn [rbind].
  - specialize (IH (<[e.1 := held acc e.1 + e.2]> acc)).
    assert (forall a, held (<[e.1 := held acc e.1 + e.2]> acc) a + endowed_with a l = held acc a + endowed_with a (e :: l)) as Heq.
    { intros a. rewrite held_insert, endowed_cons. case_decide as Hd; [subst; lia|lia]. }
    destruct (add_endowments _ l) as [m|x|].
    + destruct IH as [Hm Hd]; [|done|].
      { intros a. rewrite held_insert. pose proof (Ha e.1). unfold in_u in *. case_decide; [lia|apply Ha]. }
      split; [intros a; destruct (Hm a) as [H1 H2]; rewrite Heq in H1; done|].
      rewrite Hd, dom_insert_L. cbn. set_solver.
    + apply IH; [|done]. intros a. rewrite held_insert. pose proof (Ha e.1). unfold in_u in *. case_decide; [lia|apply Ha].
    + destruct IH as [a Hlt]; [|done|].
      { intros a. rewrite held_insert. pose proof (Ha e.1). unfold in_u in *. case_decide; [lia|apply Ha]. }
      exists a. by rewrite <- Heq.
  - exists e.1. rewrite endowed_cons, decide_True by done. pose proof (endowed_nonneg e.1 l Hl). lia.
Qed.

(** What the sorted list of a map is. *)
Lemma btree_iter_elem {V} (m : gmap Z V) k v : (k, v) ∈ btree_iter id m <-> m !! k = Some v.
Proof. unfold btree_iter. rewrite sort_by_perm. apply elem_of_map_to_list. Qed.
Lemma btree_iter_sorted {V} (m : gmap Z V) : StronglySorted Z.lt (btree_iter id m).*1.
Proof.
  assert (NoDup (btree_iter id m).*1) as Hn.
  { unfold btree_iter. rewrite sort_by_perm. apply NoDup_fst_map_to_list. }
  assert (StronglySorted (fun x y : Z * V => (x.1 <=? y.1) = true) (btree_iter id m)) as Hs
    by (apply sort_by_sorted; intros; cbn in *; lia).
  revert Hn Hs. generalize (btree_iter id m). intros l Hn Hs. induction Hs as [|x l Hs IH Hx]; [constructor|].
  rewrite fmap_cons in *. apply NoDup_cons in Hn as [Hnx Hn]. constructor; [by apply IH|].
  rewrite Forall_fmap, Forall_forall. intros y Hy. rewrite Forall_forall in Hx. pose proof (proj1 (Z.leb_le _ _) (Hx y Hy)) as Hle.
  destruct (Z.eq_dec x.1 y.1) as [He|]; [|cbn; lia]. exfalso. apply Hnx. apply list_elem_of_fmap. by exists y.
Qed.
Lemma sum_list_perm l k : l ≡ₚ k -> sum_list l = sum_list k.
Proof. unfold sum_list. induction 1; cbn [foldr] in *; lia. Qed.
Lemma sum_list_map_sum (m : gmap Z Z) : sum_list (map_to_list m) = map_sum id m.
Proof.
  induction m as [|k v m Hk IH] using map_ind; [by rewrite map_to_list_empty, map_sum_empty|].
  rewrite map_sum_insert_new by done. rewrite (sum_list_perm _ _ (map_to_list_insert m k v Hk)). cbn [sum_list foldr snd]. rewrite <- IH. done.
Qed.
Lemma add_endowments_total l : forall acc m, add_endowments acc l = Ok m -> map_sum id m = map_sum id acc + sum_list l.
Proof.
  induction l as [|e l IH]; intros acc m; cbn [add_endowments]; [intros [= <-]; cbn; lia|].
  intros H. apply rbind_Ok in H as (acc' & H1 & H2). rewrite (IH _ _ H2). cbn [sum_list foldr].
  change (foldr _ 0 l) with (sum_list l). unfold add_endowment in H1. destruct (acc !! e.1) as [b|] eqn:E.
  - apply rbind_Ok in H1 as (t & H3 & [= <-]). unfold checked_add in H3. destruct (_ <=? _); [|done]. injection H3 as <-.
    rewrite (map_sum_insert id acc e.1 _ b E). unfold id. lia.
  - injection H1 as <-. rewrite map_sum_insert_new by done. unfold id. lia.
Qed.

Lemma held_nothing a : held ∅ a = 0.
Proof. unfold held. by rewrite lookup_empty. Qed.
Lemma from_nothing l : amounts_fit l ->
  match add_endowments ∅ l with
  | Ok m => (forall a, held m a = endowed_with a l /\ held m a <= U128_MAX) /\ dom m = list_to_set l.*1
  | Err _ => False
  | Panic => exists a, U128_MAX < endowed_with a l
  end.
Proof.
  intros Hl. pose proof (add_endowments_spec l ∅) as Hs.
  specialize (Hs ltac:(intros a; rewrite held_nothing; unfold in_u, U128_MAX; lia) Hl).
  destruct (add_endowments ∅ l) as [m|x|]; [|done|].
  - destruct Hs as [Hm Hd]. split; [intros a; destruct (Hm a); rewrite held_nothing in *; lia|]. rewrite Hd. set_solver.
  - destruct Hs as [a Ha]. exists a. by rewrite held_nothing in Ha.
Qed.
Lemma balances_listed l balances : amounts_fit l -> collect_balances l = Ok balances ->
  StronglySorted Z.lt balances.*1 /\ (forall a v, (a, v) ∈ balances <-> a ∈ l.*1 /\ v = endowed_with a l) /\
  sum_list balances = sum_list l.
Proof.
  intros Hl. unfold collect_balances. pose proof (from_nothing l Hl) as Hs.
  destruct (add_endowments ∅ l) as [m|x|] eqn:E; cbn [rbind]; [|done..]. destruct Hs as [Hm Hd]. intros [= <-].
  split_and!; [apply btree_iter_sorted| |].
  - intros a v. rewrite btree_iter_elem. destruct (Hm a) as [H1 _]. unfold held in H1.
    assert (a ∈ l.*1 <-> is_Some (m !! a)) as Hin by (rewrite <- elem_of_dom, Hd; set_solver). rewrite Hin.
    split; [intros Hv; rewrite Hv in H1; cbn in H1; split; [by exists v|lia]|].
    intros [[w Hw] ->]. rewrite Hw in H1 |- *. cbn in H1. f_equal. lia.
  - rewrite (sum_list_perm _ (map_to_list m)) by apply sort_by_perm.
    rewrite sum_list_map_sum, (add_endowments_total l ∅ m E), map_sum_empty. lia.
Qed.

(** C39. The balances of a genesis add up.  The specification panics exactly if the
    endowments of some account exceed what a balance can hold.  Otherwise the balances
    list every endowed account once, in the order of accounts, with the sum of all its
    endowments, and nobody else; so together they are worth all the endowments. *)
Theorem genesis_balances_exact l : amounts_fit l ->
  (collect_balances l = Panic <-> exists a, U128_MAX < endowed_with a l) /\
  (forall balances, collect_balances l = Ok balances ->
     StronglySorted Z.lt balances.*1 /\
     (forall a v, (a, v) ∈ balances <-> a ∈ l.*1 /\ v = endowed_with a l) /\
     sum_list balances = sum_list l) /\
  (forall e, collect_balances l <> Err e).
Proof.
  intros Hl. split_and!; [|intros balances; by apply balances_listed|]; pose proof (from_nothing l Hl) as Hs;
    unfold collect_balances; destruct (add_endowments ∅ l) as [m|x|]; cbn [rbind]; try done.
  destruct Hs as [Hm _]. split; [done|]. intros [a Ha]. destruct (Hm a). lia.
Qed.

Lemma module_endowments_fit : amounts_fit module_endowments.
Proof. repeat constructor; vm_compute; discriminate. Qed.
Lemma testnet_endowments_fit authorities endowed : amounts_fit (testnet_endowments authorities endowed).
Proof.
  unfold amounts_fit, testnet_endowments. rewrite !Forall_app, !Forall_fmap. split_and!; [..|apply module_endowments_fit];
    rewrite Forall_forall; intros x _; cbn; unfold in_u, U128_MAX, INITIAL_STAKING, INITIAL_BALANCE, REEF_UNIT, DOLLARS; lia.
Qed.
Lemma mainnet_endowments_fit authorities endowed : amounts_fit (mainnet_endowments authorities endowed).
Proof.
  unfold amounts_fit, mainnet_endowments. rewrite !Forall_app, !Forall_fmap. split_and!; [..|apply module_endowments_fit];
    rewrite Forall_forall; intros x _; cbn.
  - unfold in_u, U128_MAX, INITIAL_STAKING, REEF_UNIT, DOLLARS. lia.
  - apply wrap_range. unfold U128_MAX. lia.
Qed.
(** A stash is endowed with at least its first endowment. *)
Lemma first_endowment {T} (f : T -> Z * Z) (x : T) (l : list T) k balances :
  amounts_fit ((f <$> l) ++ k) -> x ∈ l -> collect_balances ((f <$> l) ++ k) = Ok balances ->
  exists v, ((f x).1, v) ∈ balances /\ (f x).2 <= v.
Proof.
  intros Hfit Hx Hc. destruct (balances_listed _ _ Hfit Hc) as (_ & Hl & _).
  exists (endowed_with (f x).1 ((f <$> l) ++ k)). split.
  - apply Hl. split; [|done]. rewrite fmap_app, elem_of_app. left. apply list_elem_of_fmap. exists (f x).
    split; [done|]. apply list_elem_of_fmap. by exists x.
  - apply Forall_app in Hfit as [Hf Hk]. rewrite endowed_app. pose proof (endowed_nonneg (f x).1 k Hk).
    enough ((f x).2 <= endowed_with (f x).1 (f <$> l)) by lia. clear -Hf Hx. induction l as [|y l IH]; [by apply elem_of_nil in Hx|].
    rewrite fmap_cons in *. apply Forall_cons in Hf as [Hy Hf]. rewrite endowed_cons. unfold in_u in Hy.
    apply elem_of_cons in Hx as [->|Hx].
    + rewrite decide_True by done. pose proof (endowed_nonneg (f y).1 _ Hf). lia.
    + pose proof (IH Hf Hx). destruct (decide _); lia.
Qed.

(** ** A chain starts *)
Section start.
Context {X : Type} {host : StakingHost X Z}.
(** [VoterList::count], and the accounts that exist and have no consumers. *)
Variable voter_count : X -> Z.
Variable fresh : X -> Z -> Prop.
(** What the balances, the system and the voter list promise: a fresh account takes a
    consumer; locks, consumers and voters leave the free balances and other accounts alone;
    the count is the number of voters. *)
Class GenesisLaws : Prop := {
  gl_inc a x : fresh x a -> exists x', sh_inc_consumers a x = Some x';
  gl_inc_free a x x' b : sh_inc_consumers a x = Some x' -> sh_free_balance x' b = sh_free_balance x b;
  gl_inc_fresh a x x' b : sh_inc_consumers a x = Some x' -> a <> b -> fresh x b -> fresh x' b;
  gl_lock_free a v x b : sh_free_balance (sh_set_lock a v x) b = sh_free_balance x b;
  gl_lock_fresh a v x b : fresh x b -> fresh (sh_set_lock a v x) b;
  gl_insert_free a w x b : sh_free_balance (sh_voter_insert a w x) b = sh_free_balance x b;
  gl_insert_fresh a w x b : fresh x b -> fresh (sh_voter_insert a w x) b;
  gl_count x (voters : gset Z) : (forall a, sh_voter_contains x a = bool_decide (a ∈ voters)) ->
    voter_count x = Z.of_nat (size voters);
}.
Context {glaws : GenesisLaws} {vlaws : VoterListLaws X Z}.
Context {locked : X -> Z -> option Z} {laws : StakingHostLaws X Z locked}.
Variable cfg : StakingConfig.
Context {Source : Type} (lookup : Source -> res DispatchError Z) (unlookup : Z -> Source).
Abbreviation St := (Staking X Z).
Implicit Types s : St.

(** The stakes with one more validator. *)
Definition add_stake (who v : Z) (k : Stakes Z) : Stakes Z :=
  mkStakes (<[who := who]> (Bonded k)) (<[who := mkLedger who v v [] []]> (Ledger k)) (<[who := ToStaked]> (Payee k))
    (<[who := default_prefs]> (Validators k)) (Nominators k).
(** What a genesis staker needs. *)
Record can_stake s (who v : Z) : Prop := {
  cs_unbonded : Bonded (stakes s) !! who = None;
  cs_unpaired : Ledger (stakes s) !! who = None;
  cs_novalidator : Validators (stakes s) !! who = None;
  cs_nonominator : Nominators (stakes s) !! who = None;
  cs_minimum : sh_minimum_balance <= v <= sh_free_balance (stk_rest s) who;
  cs_fresh : fresh (stk_rest s) who;
  cs_era : CurrentEra (eras s) = None;
  cs_bond : MinValidatorBond (params s) <= v;
  cs_commission : MinCommission (params s) <= 0;
  cs_unlimited : MaxValidatorsCount (params s) = None;
  cs_count : ValidatorCount (params s) <= MaxWinners cfg;
  cs_depth : 0 <= HistoryDepth cfg;
}.
Lemma bond_genesis_runs s who v : can_stake s who v ->
  exists e x, bond_genesis cfg lookup unlookup (who, v, StakerValidator) s =
    (mkStaking (add_stake who v (stakes s)) (params s) (eras s) (slashes s) e x, Ok tt) /\
    (forall b, sh_free_balance x b = sh_free_balance (stk_rest s) b) /\
    (forall b, who <> b -> fresh (stk_rest s) b -> fresh x b).
Proof.
  intros [Hb Hl Hv Hn [Hm Hf] Hx He Hbond Hcom Hmax Hc Hd]. destruct (gl_inc _ _ Hx) as [x1 Hinc].
  destruct s as [[B L P V N] pa er sl ev x]. cbn [stakes params eras slashes stk_rest Bonded Ledger Validators Nominators] in *.
  unfold bond_genesis. unfold bind at 1. unfold mget at 1. cbn [stk_rest]. rewrite (proj2 (Z.leb_le v _) Hf).
  assert (bond cfg (Signed who) v ToStaked (mkStaking (mkStakes B L P V N) pa er sl ev x) =
    (mkStaking (mkStakes (<[who := who]> B) (<[who := mkLedger who v v [] []]> L) (<[who := ToStaked]> P) V N) pa er sl
       (ev ++ [EvBonded who v]) (sh_set_lock who v x1), Ok tt)) as Hbond'.
  { unfold bond, bonded, ledger, bind, mlift, mget, mensure, rensure, mmodify. cbn [ensure_signed stakes stk_rest Bonded Ledger].
    rewrite Hb, Hl. rewrite !bool_decide_eq_false_2 by (intros [? [=]]). cbn [negb]. rewrite (proj2 (Z.ltb_ge v _) Hm), Hinc.
    cbn. rewrite He. cbn. rewrite (gl_inc_free _ _ _ who Hinc), Z.min_l by done.
    replace (sat_sub 0 (HistoryDepth cfg)) with 0 by (unfold sat_sub; lia). done. }
  assert (exists w, validate (Signed who) default_prefs
    (mkStaking (mkStakes (<[who := who]> B) (<[who := mkLedger who v v [] []]> L) (<[who := ToStaked]> P) V N) pa er sl
       (ev ++ [EvBonded who v]) (sh_set_lock who v x1)) =
    (mkStaking (add_stake who v (mkStakes B L P V N)) pa er sl
       (ev ++ [EvBonded who v] ++ [EvPrefsSet who default_prefs]) (sh_voter_insert who w (sh_set_lock who v x1)), Ok tt)) as [w Hval].
  { eexists. unfold validate, ledger, mensure, rensure, bind, mlift, mget, mmodify. cbn [ensure_signed stakes stk_rest Ledger].
    rewrite lookup_insert_eq. cbn [ok_or active stash params]. rewrite (proj2 (Z.leb_le _ v) Hbond).
    rewrite (proj2 (Z.leb_le _ (commission default_prefs)) Hcom). cbn [stakes Validators params].
    rewrite Hv, Hmax. rewrite bool_decide_eq_false_2 by (intros [? [=]]). cbn [ret].
    unfold do_remove_nominator, do_add_validator. cbn [stakes Nominators Validators]. rewrite Hn.
    change (bool_decide (is_Some (@None (Nominations Z)))) with false. cbn [fst stakes Validators].
    rewrite Hv. change (bool_decide (is_Some (@None ValidatorPrefs))) with false. cbv iota.
    unfold emit, set_validators, set_stakes, on_host. cbn. rewrite <- app_assoc. reflexivity. }
  eexists _, _. split.
  - unfold bind, ret, assert_ok. rewrite Hbond', Hval. unfold mget. cbn [params]. by rewrite (proj2 (Z.leb_le _ _) Hc).
  - split.
    + intros b. by rewrite gl_insert_free, gl_lock_free, (gl_inc_free _ _ _ b Hinc).
    + intros b Hne Hfb. by eapply gl_insert_fresh, gl_lock_fresh, gl_inc_fresh.
Qed.

(** A list of distinct stakers. *)
Definition stake_all (v : Z) (l : list Z) (k : Stakes Z) : Stakes Z := foldl (fun k who => add_stake who v k) k l.
Lemma bond_each_runs v l : forall s, NoDup l -> (forall who, who ∈ l -> can_stake s who v) ->
  exists e x, bond_each cfg lookup unlookup ((fun a => (a, v, StakerValidator)) <$> l) s =
    (mkStaking (stake_all v l (stakes s)) (params s) (eras s) (slashes s) e x, Ok tt).
Proof.
  induction l as [|who l IH]; intros s Hl Hs.
  { exists (stk_events s), (stk_rest s). by destruct s. }
  apply NoDup_cons in Hl as [Hw Hl].
  destruct (bond_genesis_runs s who v (Hs who ltac:(by left))) as (e & x & H1 & Hfree & Hfresh).
  destruct (IH (mkStaking (add_stake who v (stakes s)) (params s) (eras s) (slashes s) e x) Hl) as (e' & x' & H2).
  - intros b Hb. assert (who <> b) as Hne by (by intros ->). destruct (Hs b ltac:(by right)) as [? ? ? ? [? ?] ? ? ? ? ? ? ?].
    split; cbn; rewrite ?lookup_insert_ne by done; try done; [by rewrite Hfree|by apply Hfresh].
  - exists e', x'. rewrite fmap_cons. cbn [bond_each]. unfold bind at 1. by rewrite H1.
Qed.
(** What has been staked. *)
Lemma stake_all_lookup v l : forall k a,
  let k' := stake_all v l k in
  Nominators k' = Nominators k /\
  (a ∈ l -> Bonded k' !! a = Some a /\ Ledger k' !! a = Some (mkLedger a v v [] []) /\ Payee k' !! a = Some ToStaked /\
            Validators k' !! a = Some default_prefs) /\
  (a ∉ l -> Bonded k' !! a = Bonded k !! a /\ Ledger k' !! a = Ledger k !! a /\ Payee k' !! a = Payee k !! a /\
            Validators k' !! a = Validators k !! a).
Proof.
  induction l as [|who l IH]; intros k a; [by split_and!; [|intros ?%elem_of_nil|]|].
  cbn [stake_all foldl]. change (foldl _ _ l) with (stake_all v l (add_stake who v k)). cbv zeta.
  destruct (IH (add_stake who v k) a) as (Hn & Hin & Hout). split_and!; [done| |].
  - intros Ha. destruct (decide (a ∈ l)) as [Hl|Hl]; [by apply Hin|].
    apply elem_of_cons in Ha as [->|]; [|done].
    destruct (Hout Hl) as (-> & -> & -> & ->). cbn. by rewrite !lookup_insert_eq.
  - intros [Hne Hl]%not_elem_of_cons. destruct (Hout Hl) as (-> & -> & -> & ->). cbn. by rewrite !lookup_insert_ne.
Qed.
Lemma stake_all_validators v l : dom (Validators (stake_all v l (mkStakes ∅ ∅ ∅ ∅ ∅))) = list_to_set l.
Proof.
  apply set_eq. intros a. rewrite elem_of_dom, elem_of_list_to_set.
  destruct (stake_all_lookup v l (mkStakes ∅ ∅ ∅ ∅ ∅) a) as (_ & Hin & Hout). destruct (decide (a ∈ l)) as [Hl|Hl].
  - destruct (Hin Hl) as (_ & _ & _ & ->). by split; [|eexists].
  - destruct (Hout Hl) as (_ & _ & _ & ->). cbn. rewrite lookup_empty. split; [by intros [? ?]|done].
Qed.
(** The storage before the genesis of staking: nothing is staked, locked or voting, and
    the balances are those of the specification. *)
Record unstarted (balances : list (Z * Z)) s : Prop := {
  un_stakes : stakes s = mkStakes ∅ ∅ ∅ ∅ ∅;
  un_commission : MinCommission (params s) = 0;
  un_unlimited : MaxValidatorsCount (params s) = None;
  un_era : CurrentEra (eras s) = None;
  un_locked a : locked (stk_rest s) a = None;
  un_voters a : is_voter s a = false;
  un_free a v : (a, v) ∈ balances -> sh_free_balance (stk_rest s) a = v;
  un_fresh a v : (a, v) ∈ balances -> fresh (stk_rest s) a;
}.
Hypothesis chunks_max : 0 <= MaxUnlockingChunks cfg.
Hypothesis depth : 0 <= HistoryDepth cfg.
Hypothesis minimum : sh_minimum_balance (X := X) (A := Z) <= INITIAL_STAKING.

Lemma initial_stakes_fit count authorities : Forall (fun y => in_u U128_MAX y.1.2) (stakers (staking_genesis count authorities)).
Proof.
  cbn. rewrite Forall_fmap, Forall_forall. intros a _. cbn. unfold in_u, U128_MAX, INITIAL_STAKING, REEF_UNIT, DOLLARS. lia.
Qed.

Lemma staking_genesis_builds count authorities balances s :
  unstarted balances s -> NoDup (key_stash <$> authorities) -> Z.of_nat (length authorities) <= U32_MAX ->
  count <= MaxWinners cfg ->
  (forall x, x ∈ authorities -> exists v, (key_stash x, v) ∈ balances /\ INITIAL_STAKING <= v) ->
  exists s', genesis_build cfg (fun s => voter_count (stk_rest s)) lookup unlookup (staking_genesis count authorities) s = (s', Ok tt) /\
    stakes s' = stake_all INITIAL_STAKING (key_stash <$> authorities) (mkStakes ∅ ∅ ∅ ∅ ∅) /\
    ValidatorCount (params s') = count /\ Invulnerables (params s') = key_stash <$> authorities.
Proof using Type*.
  intros Hu Hnd Hlen Hc Hbal. destruct Hu as [Hk Hcom Hmax He Hlk Hvo Hfree Hfr].
  set (l := key_stash <$> authorities) in *. set (g := staking_genesis count authorities).
  set (s1 := mkStaking (stakes s) (genesis_params g (params s)) (eras s) (slashes s) (stk_events s) (stk_rest s)).
  assert (stakers g = (fun a => (a, INITIAL_STAKING, StakerValidator)) <$> l) as Hst
    by (unfold g, staking_genesis, l; cbn; by rewrite <- list_fmap_compose).
  destruct (bond_each_runs INITIAL_STAKING l s1 Hnd) as (e & x & Hrun).
  { intros a Ha. unfold l in Ha. apply list_elem_of_fmap in Ha as (k & -> & Hin). destruct (Hbal k Hin) as (v & Hv & Hle).
    split; cbn; rewrite ?Hk; cbn; rewrite ?lookup_empty; try done; [by rewrite (Hfree _ _ Hv)|by eapply Hfr|by rewrite Hcom]. }
  pose proof (initial_stakes_fit count authorities) as Hfit. fold g in Hfit.
  rewrite <- Hst in Hrun. set (s2 := mkStaking _ _ _ _ e x) in Hrun.
  assert (stakes s2 = stake_all INITIAL_STAKING l (mkStakes ∅ ∅ ∅ ∅ ∅)) as Hs2 by (cbn; by rewrite Hk).
  exists s2. split_and!; [|done|done|done].
  destruct (bond_each_sound (locked := locked) cfg chunks_max lookup unlookup (stakers g) s1 s2 tt Hfit) as (_ & Hro & _).
  { split; unfold ledger, bonded; cbn [stakes stk_rest s1]; rewrite Hk; cbn [Bonded Ledger]; intros *; rewrite ?lookup_empty; done. }
  { split; unfold is_bonded, is_validator, is_nominator, ledger, bonded; cbn [stakes stk_rest s1]; rewrite Hk;
      cbn [Bonded Ledger Validators Nominators]; intros *; rewrite ?lookup_empty; try done. exact (Hvo _). }
  { exact Hrun. }
  unfold genesis_build, bind at 1, mmodify. fold s1. unfold bind at 1. rewrite Hrun. unfold bind, mget.
  assert (Validators (stakes s2) = Validators (stake_all INITIAL_STAKING l (mkStakes ∅ ∅ ∅ ∅ ∅))) as Hv2 by (by rewrite Hs2).
  assert (Nominators (stakes s2) = ∅) as Hn2 by (rewrite Hs2; exact (proj1 (stake_all_lookup INITIAL_STAKING l (mkStakes ∅ ∅ ∅ ∅ ∅) 0))).
  rewrite (gl_count (stk_rest s2) (list_to_set l)).
  2:{ intros a. pose proof (ro_voters _ Hro a) as Ha. unfold is_voter, is_validator, is_nominator in Ha. rewrite Ha, Hn2, lookup_empty, orb_false_r.
      apply bool_decide_ext. by rewrite Hv2, <- elem_of_dom, stake_all_validators. }
  unfold nominators_count, validators_count. rewrite Hn2, Hv2, map_size_empty, <- size_dom, stake_all_validators.
  rewrite size_list_to_set by done. unfold l. rewrite length_fmap. unfold wrap_add. rewrite wrap_small by (unfold in_u; lia).
  by rewrite Z.eqb_refl.
Qed.
(** *** Both networks *)
Definition network_genesis (evm : list (H160 * GenesisAccount)) (wasm_binary : bytes) (authorities : list AuthorityKeys)
    (root_key : Z) (g : ChainGenesis) : Prop :=
  (exists endowed, testnet_genesis evm wasm_binary authorities root_key endowed = Ok g) \/
  (exists endowed, mainnet_genesis evm wasm_binary authorities root_key endowed = Ok g).

(** A specification stakes for its authorities, and its balances cover the stakes. *)
Lemma network_balances evm wasm_binary authorities root_key g :
  network_genesis evm wasm_binary authorities root_key g ->
  exists count, gc_staking g = staking_genesis count authorities /\
    forall x, x ∈ authorities -> exists v, (key_stash x, v) ∈ gc_balances g /\ INITIAL_STAKING <= v.
Proof.
  intros [[endowed Hg]|[endowed Hg]]; apply rbind_Ok in Hg as (balances & Hc & [= <-]); eexists; (split; [reflexivity|]); intros x Hx.
  - exact (first_endowment (fun x => (key_stash x, INITIAL_STAKING)) x authorities _ _ (testnet_endowments_fit _ _) Hx Hc).
  - destruct (first_endowment (fun x => (key_stash x, INITIAL_STAKING * 2)) x authorities _ _ (mainnet_endowments_fit _ _) Hx Hc) as (v & Hv & Hle).
    exists v. split; [exact Hv|]. cbn in Hle. unfold INITIAL_STAKING, REEF_UNIT, DOLLARS in *. lia.
Qed.
(** C15. A chain starts from its specification.  Whenever a specification of either kind can
    be made at all, for authorities with distinct stashes and no more wanted validators
    than an election can return, the genesis of staking builds on the balances of the
    specification.  Then exactly the authorities are validators, each bonded with the
    initial stake, and nobody nominates; the bonds and the roles are as every later call
    keeps them. *)
Theorem genesis_starts evm wasm_binary authorities root_key g s :
  network_genesis evm wasm_binary authorities root_key g ->
  NoDup (key_stash <$> authorities) -> Z.of_nat (length authorities) <= U32_MAX ->
  validator_count (gc_staking g) <= MaxWinners cfg -> unstarted (gc_balances g) s ->
  exists s', genesis_build cfg (fun s => voter_count (stk_rest s)) lookup unlookup (gc_staking g) s = (s', Ok tt) /\
    (forall x, x ∈ authorities ->
       bonded s' (key_stash x) = Some (key_stash x) /\ is_validator s' (key_stash x) = true /\
       ledger s' (key_stash x) = Some (mkLedger (key_stash x) INITIAL_STAKING INITIAL_STAKING [] [])) /\
    (forall a, is_validator s' a = true -> a ∈ key_stash <$> authorities) /\ (forall a, is_nominator s' a = false) /\
    Invulnerables (params s') = key_stash <$> authorities /\
    bonds_inv (locked := locked) cfg s' /\ roles_ok s'.
Proof using Type*.
  intros Hg Hnd Hlen Hc Hu. apply network_balances in Hg as (count & Hst & Hbal). rewrite Hst in Hc |- *. cbn [validator_count staking_genesis] in Hc.
  destruct (staking_genesis_builds count authorities (gc_balances g) s Hu Hnd Hlen Hc Hbal) as (s' & Hrun & Hk & _ & Hinv).
  exists s'. split; [exact Hrun|].
  destruct (genesis_sound (locked := locked) cfg chunks_max lookup unlookup (fun s => voter_count (stk_rest s)) (staking_genesis count authorities) s s' tt)
    as (Hb & Hro & _); [apply (un_stakes _ _ Hu)|apply (un_locked _ _ Hu)|apply (un_voters _ _ Hu)|apply initial_stakes_fit|exact Hrun|].
  split_and!; [| | |exact Hinv|exact Hb|exact Hro].
  - intros x Hx. destruct (stake_all_lookup INITIAL_STAKING (key_stash <$> authorities) (mkStakes ∅ ∅ ∅ ∅ ∅) (key_stash x)) as (_ & Hin & _).
    destruct Hin as (H1 & H2 & _ & H4); [apply list_elem_of_fmap; by exists x|].
    unfold bonded, ledger, is_validator. rewrite Hk, H1, H2, H4. done.
  - intros a Ha. unfold is_validator in Ha. rewrite Hk in Ha. apply bool_decide_eq_true, elem_of_dom in Ha.
    rewrite stake_all_validators in Ha. by apply elem_of_list_to_set in Ha.
  - intros a. unfold is_nominator. rewrite Hk.
    rewrite (proj1 (stake_all_lookup INITIAL_STAKING (key_stash <$> authorities) (mkStakes ∅ ∅ ∅ ∅ ∅) 0)). cbn. by rewrite lookup_empty.
Qed.
End start.

(** ** The main network *)
(** Its balances are distinct accounts' own, and the supply it starts with. *)
Definition mainnet_balances : list (Z * Z) :=
  match collect_balances (mainnet_endowments mainnet_authorities mainnet_endowed) with Ok l => l | _ => [] end.
Lemma mainnet_balances_eq : collect_balances (mainnet_endowments mainnet_authorities mainnet_endowed) = Ok mainnet_balances.
Proof. vm_compute. reflexivity. Qed.
Example mainnet_supply : length mainnet_balances = 14%nat /\ sum_list mainnet_balances = 8706894656 * REEF_UNIT.
Proof. vm_compute. split; reflexivity. Qed.

(** ** Witnesses *)
Module GenesisWitness.
Lemma genesis_balances_exact_witness :
  sum_list mainnet_balances = sum_list (mainnet_endowments mainnet_authorities mainnet_endowed).
Proof.
  exact (proj2 (proj2 (proj1 (proj2 (genesis_balances_exact _ (mainnet_endowments_fit mainnet_authorities mainnet_endowed)))
    mainnet_balances mainnet_balances_eq))).
Defined.

(** A chain with balances, locks, voters, and at most one consumer per account. *)
Record Start : Type := mkStart { st_balances : gmap Z Z; st_locks : gmap Z Z; st_voters : gset Z; st_consumers : gset Z }.
Definition clamp (v : Z) : Z := Z.max 0 (Z.min U128_MAX v).
#[export] Instance start_host : StakingHost Start Z := {
  sh_minimum_balance := NativeTokenExistentialDeposit;
  sh_total_issuance x := clamp (map_sum id (st_balances x));
  sh_free_balance x a := clamp (held (st_balances x) a);
  sh_total_balance x a := clamp (held (st_balances x) a);
  sh_set_lock a v x := mkStart (st_balances x) (<[a := v]> (st_locks x)) (st_voters x) (st_consumers x);
  sh_remove_lock a x := mkStart (st_balances x) (delete a (st_locks x)) (st_voters x) (st_consumers x);
  sh_slash _ v x := (x, (v, 0));
  sh_resolve_creating _ _ x := x;
  sh_inc_consumers a x := if bool_decide (a ∈ st_consumers x) then None
    else Some (mkStart (st_balances x) (st_locks x) (st_voters x) ({[ a ]} ∪ st_consumers x));
  sh_dec_consumers a x := mkStart (st_balances x) (st_locks x) (st_voters x) (st_consumers x ∖ {[ a ]});
  sh_voter_contains x a := bool_decide (a ∈ st_voters x);
  sh_voter_update _ _ x := x;
  sh_voter_insert a _ x := mkStart (st_balances x) (st_locks x) ({[ a ]} ∪ st_voters x) (st_consumers x);
  sh_voter_remove a x := mkStart (st_balances x) (st_locks x) (st_voters x ∖ {[ a ]}) (st_consumers x);
  sh_to_vote v _ := v;
  sh_validators _ := [];
  sh_disable_validator _ x := x;
  sh_on_staker_slash _ _ _ x := x;
  sh_on_slash_imbalance _ x := x;
  sh_percent_mul_floor f v := f * v / 100;
  sh_percent_mul f v := f * v / 100;
  sh_perbill_mul f v := f * v / 1000000000;
}.
Definition start_locked (x : Start) (a : Z) : option Z := st_locks x !! a.
Definition start_fresh (x : Start) (a : Z) : Prop := a ∉ st_consumers x.
Definition start_count (x : Start) : Z := Z.of_nat (size (st_voters x)).
Ltac inc_cases := cbn; intros *; case_bool_decide; [done|]; intros [= <-].
#[export] Instance start_laws : StakingHostLaws Start Z start_locked.
Proof.
  split; unfold start_locked; try done; cbn.
  - intros a v x _. apply lookup_insert_eq.
  - intros a b v x Hne. by apply lookup_insert_ne.
  - intros a x. apply lookup_delete_eq.
  - intros a b x Hne. by apply lookup_delete_ne.
  - by inc_cases.
  - intros x a. unfold clamp, in_u, U128_MAX. lia.
Qed.
#[export] Instance start_voters : VoterListLaws Start Z.
Proof.
  split; try done; cbn.
  - intros a w x b. destruct (decide (b = a)) as [->|Hne].
    + rewrite !bool_decide_eq_true_2 by set_solver. done.
    + rewrite (bool_decide_eq_false_2 (b = a)) by done. cbn. apply bool_decide_ext. set_solver.
  - intros a x b. destruct (decide (b = a)) as [->|Hne].
    + rewrite (bool_decide_eq_true_2 (a = a)) by done. cbn. apply bool_decide_eq_false_2. set_solver.
    + rewrite (bool_decide_eq_false_2 (b = a)) by done. cbn. apply bool_decide_ext. set_solver.
  - by inc_cases.
Qed.
#[export] Instance start_genesis : GenesisLaws start_count start_fresh.
Proof.
  split; unfold start_fresh; try done; cbn.
  - intros a x Ha. rewrite bool_decide_eq_false_2 by done. by eexists.
  - by inc_cases.
  - intros a x x' b. case_bool_decide; [done|]. intros [= <-] Hne Hb. cbn. set_solver.
  - intros x voters Hv. unfold start_count. f_equal. apply set_size_proper. intros a. specialize (Hv a).
    by rewrite <- (bool_decide_eq_true (a ∈ st_voters x)), Hv, bool_decide_eq_true.
Qed.

(** The main network starts. *)
Definition mainnet : ChainGenesis :=
  match mainnet_chain_genesis [] [] with Ok g => g | _ => mkChainGenesis [] [] [] (staking_genesis 0 []) [] (0, 0) [] [] None end.
Definition before : Staking Start Z :=
  mkStaking (mkStakes ∅ ∅ ∅ ∅ ∅) (mkParams 0 0 0 0 0 None None None [] NotForcing 0)
    (mkEras None None [] ∅ 0 ∅ ∅ ∅ ∅ ∅ ∅ 0) (mkSlashes ∅ ∅ ∅ ∅ ∅ []) []
    (mkStart (list_to_map mainnet_balances) ∅ ∅ ∅).
Lemma mainnet_eq : mainnet_chain_genesis [] [] = Ok mainnet.
Proof. vm_compute. reflexivity. Qed.
Lemma mainnet_network : network_genesis [] [] mainnet_authorities mainnet_sudo mainnet.
Proof. right. exists mainnet_endowed. exact mainnet_eq. Qed.
Lemma mainnet_count : validator_count (gc_staking mainnet) <= MaxWinners runtime_staking.
Proof. vm_compute. discriminate. Qed.
Lemma mainnet_stashes : NoDup (key_stash <$> mainnet_authorities).
Proof. apply (bool_decide_unpack _). vm_compute. exact I. Qed.
Lemma mainnet_few : Z.of_nat (length mainnet_authorities) <= U32_MAX.
Proof. vm_compute. discriminate. Qed.
Lemma mainnet_free : Forall (fun e => clamp (held (list_to_map mainnet_balances) e.1) = e.2) (gc_balances mainnet).
Proof. apply (bool_decide_unpack _). vm_compute. exact I. Qed.
Lemma mainnet_unstarted : unstarted start_fresh (locked := start_locked) (gc_balances mainnet) before.
Proof.
  split; try reflexivity.
  - intros a v Hin. exact (proj1 (Forall_forall _ _) mainnet_free (a, v) Hin).
  - intros a v _. unfold start_fresh, before. cbn [stk_rest st_consumers]. apply not_elem_of_empty.
Qed.
Lemma minimum_staked : sh_minimum_balance (X := Start) (A := Z) <= INITIAL_STAKING.
Proof. vm_compute. discriminate. Qed.
Definition no_lookup (a : Z) : res DispatchError Z := Ok a.
Lemma genesis_starts_witness :
  exists s', genesis_build runtime_staking (fun s => start_count (stk_rest s)) no_lookup id (gc_staking mainnet) before = (s', Ok tt) /\
    roles_ok s'.
Proof.
  destruct (genesis_starts start_count start_fresh (locked := start_locked) runtime_staking no_lookup id ltac:(vm_compute; discriminate)
    ltac:(vm_compute; discriminate) minimum_staked [] [] mainnet_authorities mainnet_sudo mainnet before mainnet_network mainnet_stashes
    mainnet_few mainnet_count mainnet_unstarted) as (s' & Hr & _ & _ & _ & _ & _ & Hro).
  exists s'. split; [exact Hr|exact Hro].
Defined.
End GenesisWitness.
