(* ===== verification/GenesisEvm.v ===== *)
(** * Contracts from the start

    The contracts that [evm_genesis] of [src/node/src/chain_spec.rs] reads from a file,
    built by the genesis of the EVM pallet ([GenesisConfig::build] of
    [src/modules/evm/src/lib.rs]): what the specification lists, and that every listed
    contract is deployed at its address with its code. *)

From stdpp Require Import base gmap list strings.
From Stdlib Require Import ZArith Lia.
From S2P Require Import Prelude Interfaces Primitives EvmPallet RuntimeConfig Genesis.

Local Open Scope Z_scope.

(** ** What is listed *)
Section listing.
Variables (from_hex bytes_from_str : string -> option bytes).
Abbreviation entry := (string * string * string)%type.
(** The entry gives [account] the address [a]. *)
Definition gives (e : entry) (a : H160) (account : GenesisAccount) : Prop :=
  exists code, from_hex e.1.2 = Some a /\ length a = 20%nat /\ bytes_from_str e.2 = Some code /\
    account = mkGenesis 0 MaxNativeTokenExistentialDeposit [] code.
(** No entry of the file is for the address [a]. *)
Definition unlisted (contracts : list entry) (a : H160) : Prop :=
  Forall (fun e => from_hex e.1.2 <> Some a) contracts.
(** [account] is what the last entry of the file for the address [a] gives it. *)
Definition listed (contracts : list entry) (a : H160) (account : GenesisAccount) : Prop :=
  exists before e after, contracts = before ++ e :: after /\ gives e a account /\ unlisted after a.

Lemma listed_nil a account : ~ listed [] a account.
Proof. intros (b & e & af & Hq & _). by destruct b. Qed.
Lemma listed_cons e contracts a account :
  listed (e :: contracts) a account <-> listed contracts a account \/ (gives e a account /\ unlisted contracts a).
Proof.
  split.
  - intros ([|e0 b] & e' & af & Hq & Hg & Hu); simplify_eq/=; [by right|]. left. by exists b, e', af.
  - intros [(b & e' & af & -> & Hg & Hu)|[Hg Hu]]; [by exists (e :: b), e', af|by exists [], e, contracts].
Qed.
Lemma listed_unlisted contracts a account : listed contracts a account -> ~ unlisted contracts a.
Proof.
  intros (b & e & af & -> & (code & He & _) & _) [_ [Hne _]%Forall_cons]%Forall_app. done.
Qed.
(** The map built is the accumulator overridden by the last entry of each address. *)
Lemma evm_accounts_listed contracts : forall acc m,
  evm_accounts from_hex bytes_from_str acc contracts = Ok m ->
  Forall (fun e => exists a account, gives e a account) contracts /\
  forall a account, m !! a = Some account <->
    listed contracts a account \/ (unlisted contracts a /\ acc !! a = Some account).
Proof.
  induction contracts as [|[[name address] cs] contracts IH]; intros acc m; cbn [evm_accounts].
  { intros [= <-]. split; [done|]. intros a account. split; [intros; right; split; [constructor|done]|].
    intros [[]%listed_nil|[_ ?]]; done. }
  intros H. apply rbind_Ok in H as (code & Hc & H). apply rbind_Ok in H as (sl & Hs & H).
  apply rbind_Ok in H as (addr & Hl & H). unfold H160_from_slice in Hl.
  destruct (Nat.eqb_spec (length sl) 20); [|done]. injection Hl as <-.
  destruct (bytes_from_str cs) as [code'|] eqn:Ec; [|done]. injection Hc as <-.
  destruct (from_hex address) as [sl'|] eqn:Eh; [|done]. injection Hs as <-.
  set (new := mkGenesis 0 MaxNativeTokenExistentialDeposit [] code') in *.
  assert (gives (name, address, cs) sl' new) as Hg by (exists code'; done).
  destruct (IH _ _ H) as [Hall Hm]. split; [constructor; [by exists sl', new|done]|].
  intros a account. rewrite Hm, listed_cons. unfold unlisted at 3. rewrite Forall_cons. cbn [fst snd]. split.
  - intros [Hl|[Hu Ha]]; [by left; left|]. rewrite lookup_insert in Ha. case_decide as Hd.
    + injection Ha as <-. subst a. left. by right.
    + right. split; [|done]. split; [congruence|done].
  - intros [[Hl|[(c & Ha & _ & Hc & ->) Hu]]|[[Hne Hu] Ha]]; [by left| |]; right; (split; [done|]).
    + cbn in Ha, Hc. rewrite Eh in Ha. rewrite Ec in Hc. simplify_eq. by rewrite lookup_insert_eq.
    + rewrite lookup_insert_ne by congruence. done.
Qed.
Lemma unlisted_or_listed contracts a :
  Forall (fun e => exists a account, gives e a account) contracts ->
  unlisted contracts a \/ exists account, listed contracts a account.
Proof.
  induction 1 as [|e contracts (b & account & Hg) _ [Hu|(acc & Hl)]]; [left; constructor| |].
  - destruct (decide (a = b)) as [->|Hne]; [right; exists account; apply listed_cons; by right|].
    left. constructor; [|done]. destruct Hg as (c & -> & _). congruence.
  - right. exists acc. apply listed_cons. by left.
Qed.
Lemma evm_genesis_listed contracts l : evm_genesis from_hex bytes_from_str contracts = Ok l ->
  NoDup l.*1 /\ exists file, contracts = Some file /\
    Forall (fun e => exists a account, gives e a account) file /\
    (forall a account, (a, account) ∈ l <-> listed file a account).
Proof.
  unfold evm_genesis. intros H. apply rbind_Ok in H as (file & Hf & H). destruct contracts as [file'|]; [|done]. injection Hf as <-.
  apply rbind_Ok in H as (m & Hm & [= <-]). unfold btree_iter. split.
  - rewrite sort_by_perm. apply NoDup_fst_map_to_list.
  - exists file'. destruct (evm_accounts_listed _ _ _ Hm) as [Hall Hl]. split_and!; [done|done|].
    intros a account. rewrite sort_by_perm, elem_of_map_to_list, Hl, lookup_empty. naive_solver.
Qed.
End listing.

(** ** What is built *)
Section built.
Context {X : Type} `{Currency X AccountId} `{AddressMapping X AccountId}.
Variable cfg : EvmConfig.
Variable keccak : bytes -> H256.
Implicit Types s : Evm X.
Hypothesis incompatible : with_ethereum_compatibility cfg = false.

Definition code_fits (account : GenesisAccount) : Prop := wrap U32_MAX (Z.of_nat (length (g_code account))) <= MaxCodeSize cfg.
(** What a genesis account becomes: a deployed contract nobody maintains, if it has code. *)
Definition built_account (account : GenesisAccount) : EvmAccountInfo :=
  mkAccountInfo (g_nonce account)
    (if bool_decide (g_code account = []) then None else Some (mkContractInfo (keccak (g_code account)) H160_default true)) None.

Lemma build_account_runs a account s : code_fits account ->
  exists s', build_account cfg keccak a account s = (s', Ok tt) /\
    accounts s' = <[a := built_account account]> (accounts s) /\
    (if bool_decide (g_code account = []) then codes s' = codes s /\ code_infos s' = code_infos s
     else codes s' = codes (acquire_code (keccak (g_code account)) (g_code account) s) /\
          code_infos s' = code_infos (acquire_code (keccak (g_code account)) (g_code account) s)).
Proof using incompatible.
  intros Hf. unfold build_account, built_account, mwhen, bind, mget, mmodify, on_rest.
  case_bool_decide as Hc; cbn [negb]; [by eexists|].
  unfold on_contract_initialization. cbn [accounts set_rest set_accounts]. rewrite (proj2 (Z.ltb_ge _ _) Hf). rewrite incompatible. cbn [negb].
  rewrite acquire_accounts. cbn [accounts set_rest set_accounts]. rewrite lookup_insert_eq.
  unfold mark_deployed, bind, mget, mensure, rensure, mlift, mmodify, ret.
  cbn [queue_event set_queued_events set_accounts accounts]. rewrite lookup_insert_eq. cbn.
  eexists. split; [reflexivity|]. cbn. split; [by rewrite !insert_insert_eq|].
  unfold acquire_code. cbn [code_infos set_rest set_accounts]. by destruct (code_infos s !! _).
Qed.
Lemma built_account_runs h account :
  runs h (built_account account) =
  if bool_decide (g_code account = []) then 0 else if bool_decide (h = keccak (g_code account)) then 1 else 0.
Proof. unfold runs, built_account. cbn. case_bool_decide; [done|]. cbn. repeat case_bool_decide; congruence. Qed.
Lemma size_insert_le (m : gmap H160 EvmAccountInfo) a ai : (size (<[a := ai]> m) <= S (size m))%nat.
Proof. rewrite map_size_insert. destruct (m !! a); cbn; lia. Qed.
Lemma build_account_inv a account s s' : code_fits account -> code_inv keccak no_loss s ->
  Z.of_nat (size (accounts s)) < U32_MAX -> build_account cfg keccak a account s = (s', Ok tt) -> code_inv keccak no_loss s'.
Proof using incompatible.
  intros Hf Hi Hsz Hr. destruct (build_account_runs a account s Hf) as (s2 & Hr2 & Ha & Hc). rewrite Hr2 in Hr. injection Hr as <-.
  case_bool_decide as Hcode.
  - destruct Hc as [Hc1 Hc2]. eapply (code_inv_update_account keccak no_loss s); [done|done|exact Ha| |exact Hi]. intros h.
    rewrite built_account_runs, bool_decide_eq_true_2 by done. apply runs_opt_range.
  - destruct Hc as [Hc1 Hc2]. eapply (code_inv_acquire keccak no_loss s); [exact Hi|exact Hc1|exact Hc2|exact Ha|..].
    + intros h. rewrite uses_insert, built_account_runs, bool_decide_eq_false_2 by done.
      pose proof (runs_opt_range h (accounts s !! a)). lia.
    + intros h. etrans; [apply uses_le_size|]. pose proof (size_insert_le (accounts s) a (built_account account)). lia.
Qed.
Lemma build_accounts_runs l : forall s, NoDup l.*1 -> Forall (fun e => code_fits e.2) l -> code_inv keccak no_loss s ->
  Z.of_nat (size (accounts s) + length l) <= U32_MAX ->
  exists s', build_accounts cfg keccak l s = (s', Ok tt) /\ code_inv keccak no_loss s' /\
    (forall a account, (a, account) ∈ l -> accounts s' !! a = Some (built_account account)) /\
    (forall a, a ∉ l.*1 -> accounts s' !! a = accounts s !! a).
Proof using incompatible.
  induction l as [|[a account] l IH]; intros s Hnd Hl Hi Hsz.
  { exists s. split_and!; [done|done|intros ? ? ?%elem_of_nil; done|done]. }
  rewrite fmap_cons in Hnd. apply NoDup_cons in Hnd as [Ha Hnd]. apply Forall_cons in Hl as [Hf Hl]. cbn [length] in Hsz.
  destruct (build_account_runs a account s Hf) as (s1 & H1 & Ha1 & _).
  assert (code_inv keccak no_loss s1) as Hi1 by (eapply build_account_inv; [exact Hf|exact Hi|lia|exact H1]).
  pose proof (size_insert_le (accounts s) a (built_account account)) as Hle.
  destruct (IH s1 Hnd Hl Hi1) as (s' & H2 & Hi2 & Hin & Hout); [rewrite Ha1; lia|].
  exists s'. split_and!; [cbn [build_accounts]; unfold bind; by rewrite H1|done| |].
  - intros b acc [[= -> ->]|Hb]%elem_of_cons; [|by apply Hin]. rewrite Hout by done. by rewrite Ha1, lookup_insert_eq.
  - intros b [Hne Hb]%not_elem_of_cons. rewrite Hout by done. rewrite Ha1, lookup_insert_ne; [done|]. cbn in Hne. congruence.
Qed.

(** C40. The listed contracts are deployed.  When the file can be read and no code in it is
    too long, the genesis of the EVM pallet builds, and the chain starts with the file: every
    entry names an address, and the contract that the last entry for an address gives is at
    that address, deployed, with no maintainer but the zero address and with code of the hash
    of the file's code; addresses the file does not list are as before, and the first network
    contract gets the first address after those reserved for these. *)
Theorem listed_contracts_deployed from_hex bytes_from_str contracts l s :
  evm_genesis from_hex bytes_from_str contracts = Ok l -> Forall (fun e => code_fits e.2) l ->
  code_inv keccak no_loss s -> Z.of_nat (size (accounts s) + length l) <= U32_MAX ->
  exists file s', contracts = Some file /\ genesis_build cfg keccak l s = (s', Ok tt) /\ code_inv keccak no_loss s' /\
    network_contract_index s' = NETWORK_CONTRACT_START /\
    (forall name address code_string, (name, address, code_string) ∈ file ->
       exists a account, from_hex address = Some a /\ listed from_hex bytes_from_str file a account) /\
    (forall a account, listed from_hex bytes_from_str file a account ->
       accounts s' !! a = Some (built_account account) /\
       (g_code account <> [] -> keccak (code_at_address keccak s' a) = keccak (g_code account))) /\
    (forall a, unlisted from_hex file a -> accounts s' !! a = accounts s !! a).
Proof using incompatible.
  intros Hg Hl Hi Hsz. apply evm_genesis_listed in Hg as (Hnd & file & -> & Hall & Hfile).
  destruct (build_accounts_runs l s Hnd Hl Hi Hsz) as (s1 & H1 & Hi1 & Hin & Hout).
  unfold genesis_build, bind. rewrite H1. exists file. eexists. split; [done|]. split; [reflexivity|].
  assert (code_inv keccak no_loss (set_network_contract_index NETWORK_CONTRACT_START s1)) as Hi2
    by exact (code_inv_same keccak no_loss s1 _ eq_refl eq_refl eq_refl Hi1).
  split_and!; [exact Hi2|done| | |].
  - intros name address cs He. pose proof Hall as Hall'. rewrite Forall_forall in Hall'.
    destruct (Hall' _ He) as (a & account & code & Ha & _). exists a.
    destruct (unlisted_or_listed _ _ _ a Hall) as [Hu|[acc Hacc]]; [|by exists acc].
    unfold unlisted in Hu. rewrite Forall_forall in Hu. by destruct (Hu _ He).
  - intros a account Ha%Hfile. split; [by apply Hin|]. intros Hc.
    pose proof (Hin _ _ Ha) as Hat.
    assert (contract_info (built_account account) = Some (mkContractInfo (keccak (g_code account)) H160_default true)) as Hci
      by (unfold built_account; cbn; by rewrite bool_decide_eq_false_2).
    refine (proj1 (code_inv_available keccak no_loss _ a _ _ Hi2 Hat Hci _)).
    pose proof (uses_pos s1 a _ _ Hat Hci). unfold no_loss. cbn [accounts set_network_contract_index]. lia.
  - intros a Hu. apply Hout. intros ([b account] & -> & Hb)%list_elem_of_fmap. apply Hfile in Hb.
    by destruct (listed_unlisted _ _ _ _ _ Hb).
Qed.
End built.

(** ** Witness *)
Module GenesisEvmWitness.
Import SimpleLedger EvmPalletWitness.
(** A toy notation of bytes: one byte per letter. *)
Fixpoint letters (s : string) : bytes :=
  match s with EmptyString => [] | String c s' => Z.of_nat (Ascii.nat_of_ascii c) :: letters s' end.
Definition read (s : string) : option bytes := Some (letters s).
(** The first entry is overridden by the second. *)
Definition file : list (string * string * string) :=
  [("Old"%string, "AAAAAAAAAAAAAAAAAAAA"%string, "`z"%string); ("Token"%string, "AAAAAAAAAAAAAAAAAAAA"%string, "`a"%string); ("Stable"%string, "BBBBBBBBBBBBBBBBBBBB"%string, "`b"%string)].
Definition token_address : H160 := replicate 20 65.
Definition token : GenesisAccount := mkGenesis 0 MaxNativeTokenExistentialDeposit [] [96; 97].
Definition entries : list (H160 * GenesisAccount) :=
  [(token_address, token); (replicate 20 66, mkGenesis 0 MaxNativeTokenExistentialDeposit [] [96; 98])].
Lemma entries_eq : evm_genesis read read (Some file) = Ok entries.
Proof. vm_compute. reflexivity. Qed.
Lemma entries_fit : Forall (fun e => code_fits runtime_evm e.2) entries.
Proof. repeat constructor; vm_compute; discriminate. Qed.
Lemma few : Z.of_nat (size (accounts genesis) + length entries) <= U32_MAX.
Proof. vm_compute. discriminate. Qed.
Lemma token_listed : listed read read file token_address token.
Proof.
  eexists [_], _, [_]. split; [reflexivity|]. split; [by exists [96; 97]|].
  repeat constructor. vm_compute. discriminate.
Qed.
Lemma token_has_code : g_code token <> [].
Proof. done. Qed.
Lemma listed_contracts_deployed_witness :
  exists s', genesis_build runtime_evm hash0 entries genesis = (s', Ok tt) /\ network_contract_index s' = 4096 /\
    accounts s' !! token_address = Some (built_account hash0 token) /\
    hash0 (code_at_address hash0 s' token_address) = hash0 [96; 97].
Proof.
  destruct (listed_contracts_deployed runtime_evm hash0 eq_refl read read (Some file) entries genesis entries_eq entries_fit genesis_inv few)
    as (f & s' & Hf & Hr & _ & Hn & _ & Hin & _). injection Hf as <-. destruct (Hin token_address token token_listed) as [Ha Hc].
  exists s'. split; [exact Hr|]. split; [exact Hn|]. split; [exact Ha|]. exact (Hc token_has_code).
Defined.
End GenesisEvmWitness.
